(* ===== verification/_CoqProject ===== *)
-Q . S2P
Prelude.v
GoFloat.v
GoFloatRound.v
GoFloatInt.v
GoFloatUpper.v
GoStrings.v
GoParseFloat.v
GoState.v
Reactor.v
ReactorMutex.v
LookAhead.v
LookAheadThy.v
Kinematics.v
KinematicsThy.v
ToolheadTiming.v
ToolheadTimingThy.v
Toolhead.v
ToolheadThy.v
GcodeParse.v
GcodeParseThy.v
Gcode.v
GcodeThy.v
GcodeMove.v
GcodeTrack.v
GcodeMoveThy.v
GcodeMoveTypes.v
ZMesh.v
ZMeshThy.v
MeshCalibrate.v
MeshCalibrateThy.v
BedMesh.v
BedMeshThy.v
Heater.v
HeaterThy.v
VerifyHeater.v
VerifyHeaterThy.v
Crc.v
Msgproto.v
MsgFormat.v
MsgFormatThy.v
TmcFields.v
TmcFieldsThy.v
TmcDefs.v
TmcDefsThy.v
TmcCodecs.v
TmcUart.v
TmcUartThy.v
TmcBus.v
TmcBusThy.v
TmcDriver.v
TmcDriverThy.v
TmcFormat.v
TmcCommand.v
TmcCommandThy.v
TmcVirtualPin.v
TmcErrorCheck.v
TmcErrorCheckThy.v
VirtualSD.v
VirtualSDThy.v
Homing.v
HomingThy.v
ClockSync.v
Endstop.v
EndstopThy.v
Probe.v
ProbeThy.v
Exclude.v
ExcludeThy.v
Buttons.v
ButtonsThy.v
Output.v
OutputThy.v
Supervise.v
SuperviseThy.v
Pins.v
StepperEnable.v
McuConfig.v
McuConfigThy.v
McuPins.v
