(* ===== verification/Prelude.v ===== *)
(** * Klipper-go: a verification of the host software's core

    Klipper-go is the host side of a 3D printer: it turns G-code into moves, plans
    their speeds, generates step times and talks to micro-controllers (MCUs) over a
    binary protocol.  This library is a shallow embedding of the parts that carry
    that logic, translated from the Go sources under [src/], with the theorems that
    make them correct.

    ** The parts and how they interact

    - The _reactor_ runs timers and switches between greenlets
      ([src/internal/pkg/reactor/reactor.go]).  [Reactor] models the timers and the
      check that decides how long the loop may sleep; [ReactorMutex] the mutex that
      the greenlets share.
    - _G-code_ ([src/internal/pkg/gcode/]) is parsed and dispatched line by line.
      [GcodeParse] models the parsing of lines and parameters
      ([gcode_parse_helpers.go], [command_params.go]), [Gcode] the tables of handlers and
      the running of scripts ([dispatch_runtime.go], [dispatcher.go]), [GcodeMove] the
      coordinate state and its commands ([gcode_move_module.go]), which sends its moves
      through a transform to the toolhead; [GcodeTrack] states what a transform promises.
    - A _print_ is a file that the virtual SD card feeds to the dispatcher, and that can be
      paused and resumed ([src/internal/addon/] and [src/internal/pkg/gcode/]).
      [VirtualSD] models the reading of lines and of blocks, the work of the printing task, the
      commands that load, start, stop and seek, and pause and resume; [Exclude] the
      transform that leaves out the moves of an object; [Supervise] the idle timeout, the
      statistics of a print and the filament sensors ([src/internal/print/],
      [src/internal/pkg/io/filament_sensor_module.go]).
    - The _bed mesh_ ([src/internal/pkg/motion/bed_mesh/] and type [BedMesh] of
      [goklipper.go]) is such a transform.  [ZMesh] models the table of heights and its
      interpolation, [MeshCalibrate] the points to probe and the way from the probed
      positions to the table, [BedMesh] the splitting and raising of moves.
    - The _heaters_ ([src/internal/pkg/heater/]) are driven by their sensors' readings.
      [Heater] models the heater, its controls (watermark, PID, automatic tuning), its
      configuration, the set of heaters and PID_CALIBRATE; [VerifyHeater] the check
      that shuts the printer down when a heater does not heat.
    - The _toolhead_ ([src/project/goklipper.go], type [Toolhead], over the functions
      of [src/internal/pkg/motion/]) accepts moves, checks them with the kinematics,
      queues them for look-ahead, and hands planned batches to the trapezoid queue
      while it advances its clock.  [LookAhead] models [move_queue.go] and
      [move_batch.go]; [Kinematics] the limits and checks of [kinematics/cartesian.go]
      and [corexy.go]; [ToolheadTiming] the clock of [toolhead_runtime.go];
      [Toolhead] the composition: [RunToolheadMove], drip moves, dwell, position
      changes, flush, pause, wait and the two timers, with the whole state in one
      record and every call that leaves the component recorded as an event.
    - _Homing_ ([src/internal/pkg/motion/homing/]) drives the toolhead against endstops
      and puts the axes where the endstops say.  [Homing] models homing moves, the homing
      of rails with its retracts, G28 and probing moves; [Probe] what is built on them in
      [src/internal/pkg/motion/probe/]: samples, their tolerance and retries, lowering
      and raising the probe, probing at points and by hand.
    - An _endstop_ ([src/internal/pkg/mcu/], files [endstop*] and [trsync*]) stops
      steppers on several micro-controllers through trsync objects, in [Endstop]; the
      times it reports are in the clock of a micro-controller, which [ClockSync]
      ([src/internal/pkg/serialhdl/clocksync.go]) extends from 32 bits and relates to
      the time of the host.
    - A _micro-controller_ ([src/internal/pkg/mcu/] and type [MCU] of [goklipper.go]) is
      configured by commands that the objects on it contribute.  [McuConfig] models the
      collecting, the checksum, connecting, shutdowns and restarts; [McuPins] its digital
      outputs, pulse width modulation and analogue inputs; [Pins] the table of pins
      ([src/internal/pkg/printer/pins.go]); [StepperEnable] the enabling of steppers, which
      may share pins.
    - _Inputs and outputs_ ([src/internal/pkg/io/], [src/internal/pkg/fan/]): [Buttons]
      models buttons, whose reports a micro-controller repeats until they are acknowledged,
      and rotary encoders; [Output] the queue of requests for a pin, and fans.
    - The _wire protocol_ ([src/internal/pkg/msgproto/msgproto.go]) frames messages in
      blocks with a checksum.  [Crc] models the checksums of this and of the filament
      changer's protocols, [Msgproto] the variable length integers and the blocks,
      [MsgFormat] the parameter types, message formats, enumerations, the parser's
      dictionaries and the text commands.
    - The _stepper drivers_ ([src/internal/pkg/tmc/]) are chips reached over a UART or
      SPI bus.  [TmcFields] models the register cache, [TmcDefs] the tables of the six
      chips, [TmcFormat] how registers are shown, [TmcCodecs] the datagrams, [TmcUart]
      the confirmed writes over the UART, [TmcBus] the shared buses, [TmcDriver] the
      helpers that program a chip (registers, currents, micro-steps), [TmcCommand] the
      enabling, disabling and homing of a driver, [TmcVirtualPin] sensorless homing
      and [TmcErrorCheck] the supervision of a running driver.

    [GoFloat], [GoFloatRound], [GoFloatInt], [GoFloatUpper], [GoStrings], [GoParseFloat] and [GoState]
    model what the code uses of Go and its standard library: [float64] with its rounding
    and its integers, strings, [strconv.ParseFloat], and computations over a mutable
    store that may panic.  A file [XThy] holds the theorems about the definitions of
    [X] where they are kept apart.  Definitions keep the names of the source.

    ** Interfaces

    Components meet at type classes: [TableCrc] (a checksum that is a table lookup per
    byte), [UARTRegisterTransport] with [ChipLaws] (a chip behind a UART that loses
    datagrams), [RegisterAccess] with its promise that a write without error is in the
    chip, the environments of the command and error-check runtimes, [DispatcherHost]
    (the printer around the dispatcher), [PrintScript] (what runs the lines of a
    print), [Firmware] (a micro-controller that is configured), [HomingHost] (the
    toolhead, kinematics and endstops under homing) with [HomingLaws] and
    [CartesianHost] (what homing relies on of them), [ProbeHost] on top of it, and
    [Tracked] (a move transform reports the position it was last asked for): the
    theorems about G-code positions are proved against [Tracked], and the toolhead,
    the bed mesh and the exclusion of objects are its instances. Code outside the
    sources, the chips and the MCU are parameters, and each theorem that assumes
    something of them is applied at a concrete instance by its [_witness].

    ** What the theorems show

    - Motion: [motion_is_continuous] (whatever the toolhead is asked to do, the path
      handed to the step generators has no jump), [Flush_respects_limits] and
      [Flush_conserves_moves] (the planned speeds respect every limit; no move is lost
      or reordered), [unhomed_axis_never_moves] and [CheckMove_spec] (exactly the moves
      within the limits of homed axes pass), [rejected_move_changes_nothing],
      [flush_times_monotone] and [AdvanceMoveTime_reaches] (the clock never goes back
      and its loop ends).
    - G-code: [script_runs_commands] (a printed script runs its handlers in order with
      exactly the parameters printed; names of extended commands have no digit), [not_ready_runs_base_commands],
      [gcode_tracks_toolhead] (the toolhead stands where the G-code state says),
      [coordinates_stay_four], [restore_returns] (saving and restoring the state).
    - Printing: [print_runs_lines_once] (the lines of the file are run once each and in
      order, however the reads fall and however often the print is paused), and
      [print_completes]; [excluded_object_is_skipped] (the moves of an object, once the
      transform is past its first moves, reach nothing, and those after a move away from it
      go where they should);
      [idle_after_ready_and_quiet], [one_event_at_a_time].
    - Micro-controllers: [connect_configures] and [other_configuration_is_refused] (after
      connecting, a micro-controller has the configuration collected; one with another is
      sent nothing); [pins_have_own_numbers], [pwm_value_in_range] and [sample_bounds_fit] (what
      is sent is in range); [pin_has_one_use] and [parse_pin_print] (pins and their
      descriptions); [pin_on_while_enabled], [moving_stepper_is_enabled] and [motors_off].
    - Inputs and outputs: [buttons_handled_once], [encoder_counts_detents],
      [press_is_debounced], [fan_follows_requests] (the power sent last is the one
      that the last request asked for), [controller_fan_idles].
    - Homing: [homing_places_axis] (the coordinate of a homed axis is that of the endstop
      plus the steps made since the time that the endstop answered), [silent_endstop_fails_G28],
      [steppers_stop_with_their_mcu], [home_wait_times_trigger] and
      [clock_extension_exact] (trigger times are those of the very tick);
      [probe_result_from_samples] (a result is the median or mean of the samples that the
      probing moves of one run gave), [probe_points_in_order] and [session_deploys].
    - Bed mesh: [mesh_move_pieces] (a move is cut into exactly the pieces of a reference
      splitter, and the cutting ends), [mesh_agrees_with_gcode], [Calc_z_total],
      [calibrated_mesh_passes_samples] (the mesh made from a zigzag of probes has each
      measured height at its node), [faulty_points_merge_back].
    - Heaters: [heater_stays_within_limits], [turned_off_heaters_stop],
      [calibration_gives_heater_back], [verify_catches_stuck_heater] and
      [silent_sensor_shuts_down] (a heater that does not heat, or is not read, is caught).
    - Scheduling: [no_wakeup_is_lost] (for callbacks that do not pause),
      [mutex_exclusive_and_fair].
    - Protocol: round trips from a command's text, from named and from positional
      parameters to the bytes and back; [Check_packet] accepts exactly the blocks that
      can be encoded and detects corruption; the checksum routines agree with a bitwise
      reference.
    - Drivers: writing a field changes that field only; a register write that returns
      without error has been accepted by the chip, however datagrams are lost; the
      configuration reaches the chip; enabling, disabling and homing leave the driver
      in the state they promise; five failed reads in a row, and no fewer, stop the
      printer.
    - Defects: [wait_after_moves_never_ends] and the theorems named in the manifest's
      findings prove where the code does not do what it means to.

    ** Conventions and bounds

    Go's [int] has 64 bits; integers are [Z] with the wrap-around written out
    ([i64], [u32], ...).  [float64] is the standard library's [spec_float] at
    precision 53, so every operation rounds as the hardware does; a fused
    multiply-add, which Go permits on some processors, is not used, and
    [math.Pow(v, 2)] is [v*v].  A Go map is a [gmap]; where the code ranges over one,
    the definition takes the entries in the order in which the loop meets them, and
    theorems hold for every order; [Turn_off_all_heaters], whose outcome does not depend
    on the order, fixes one.  A returned [error] is [option string] or
    [string + A]; a panic is the value [Panic] and leaves the store as it was at that
    point ([logger.Panicf] panics).  Messages are kept without the numbers printed
    into them.  Loops without a structural measure are the combinator [while] with
    [2^65] rounds, more than any run of the code could make; the theorems prove that
    the loops leave before.  Loops that wait for other tasks (pausing, waiting for
    moves, drip moves) take their number of rounds as the parameter [fuel], and the
    theorems hold for every [fuel].  Where a greenlet switch can let other tasks run
    in the middle of an operation, what they do is a parameter ([others]).

    ** Not modelled

    The step compression and serial queue in C and their bindings, threads and file
    descriptors, sockets, configuration parsing, templates, signal processing, and the
    glue that builds the printer objects.  The state that configures a mesh calibration,
    temperature sensors (their curves need logarithms), arcs (trigonometric functions),
    macros, the filament changer's dialogue and the
    levelling procedure of the vendor are not modelled; the manifest lists each part with
    the reason. *)

From Stdlib Require Export ZArith Lia Bool.
From stdpp Require Export base tactics numbers list gmap strings.

#[global] Set Default Proof Using "Type".
#[global] Open Scope Z_scope.

(** [lia] with division and remainder by constants. *)
Ltac dlia := Z.to_euclidean_division_equations; lia.

(** Closes a decidable proposition by evaluating its decision. *)
Ltac by_decide :=
  match goal with |- ?P => refine (bool_decide_eq_true_1 P _); vm_compute; reflexivity end.

(** ** The outcome of Go code that may panic *)

(** A Go computation either returns or panics; a panic carries its message.
    Code that returns a Go [error] is modelled with [string + A] on top. *)
Inductive go (A : Type) : Type :=
| Ret (a : A)
| Panic (why : string).
Arguments Ret {A} a.
Arguments Panic {A} why.

#[global] Instance go_ret : MRet go := @Ret.
#[global] Instance go_bind : MBind go := λ A B f m,
  match m with Ret a => f a | Panic w => Panic w end.
#[global] Instance go_fmap : FMap go := λ A B f m,
  match m with Ret a => Ret (f a) | Panic w => Panic w end.

(** [returns m] holds when [m] does not panic. *)
Definition returns {A} (m : go A) : bool :=
  match m with Ret _ => true | Panic _ => false end.

Lemma Ret_inj {A} (a b : A) : Ret a = Ret b → a = b.
Proof. by intros [= ->]. Qed.

Lemma bind_ret_inv {A B} (m : go A) (k : A → go B) (b : B) :
  (x ← m; k x) = Ret b → ∃ a, m = Ret a ∧ k a = Ret b.
Proof. destruct m as [a|w]; simpl; intros H; [by exists a|discriminate]. Qed.

(** Runs [f] over a list, threading the state, stopping at the first panic:
    a Go [for _, x := range xs] loop. *)
Fixpoint range {S X} (f : S → X → go S) (s : S) (xs : list X) : go S :=
  match xs with
  | [] => Ret s
  | x :: xs => s' ← f s x; range f s' xs
  end.

Lemma range_app {S X} (f : S → X → go S) s xs ys :
  range f s (xs ++ ys) = (s' ← range f s xs; range f s' ys).
Proof.
  revert s; induction xs as [|x xs IH]; intros s; [done|].
  simpl. destruct (f s x); simpl; [apply IH|done].
Qed.

(** An invariant of a loop body holds of a fold. *)
Lemma fold_left_inv {A B} (P : A → Prop) (f : A → B → A) l a :
  (∀ a b, P a → P (f a b)) → P a → P (fold_left f l a).
Proof. intros Hf. revert a. induction l as [|x l IH]; simpl; auto. Qed.

(** [range] with the loop index. *)
Fixpoint range_idx {S X} (f : S → Z → X → go S) (i : Z) (s : S) (xs : list X) : go S :=
  match xs with
  | [] => Ret s
  | x :: xs => s' ← f s i x; range_idx f (i + 1) s' xs
  end.

(** ** Slices *)

(** [s[i]]. *)
Definition index {A} (s : list A) (i : Z) : go A :=
  if bool_decide (0 ≤ i) then
    match s !! Z.to_nat i with
    | Some x => Ret x
    | None => Panic "index out of range"
    end
  else Panic "index out of range".

(** [s[a:b]] on a slice whose capacity is its length. *)
Definition slice {A} (s : list A) (a b : Z) : go (list A) :=
  if bool_decide (0 ≤ a ∧ a ≤ b ∧ b ≤ Z.of_nat (length s)) then
    Ret (take (Z.to_nat (b - a)) (drop (Z.to_nat a) s))
  else Panic "slice bounds out of range".

Declare Scope go_scope.
Delimit Scope go_scope with go.
Notation "s .[ i ]" := (index s i) (at level 1, left associativity, format "s .[ i ]") : go_scope.
#[global] Open Scope go_scope.

(** [len(s)] as a Go [int]. *)
Definition len {A} (s : list A) : Z := Z.of_nat (length s).

Lemma len_app {A} (s t : list A) : len (s ++ t) = len s + len t.
Proof. unfold len. rewrite length_app. lia. Qed.
Lemma len_cons {A} (x : A) (s : list A) : len (x :: s) = 1 + len s.
Proof. unfold len. simpl. lia. Qed.
Lemma len_nil {A} : len (A:=A) [] = 0.
Proof. done. Qed.
Lemma len_one {A} (x : A) : len [x] = 1.
Proof. done. Qed.
Lemma len_nonneg {A} (s : list A) : 0 ≤ len s.
Proof. unfold len. lia. Qed.

Lemma index_app_r {A} (s t : list A) i :
  len s ≤ i → index (s ++ t) i = index t (i - len s).
Proof.
  unfold index, len. intros Hi.
  rewrite !bool_decide_true by lia.
  rewrite lookup_app_r by lia.
  by replace (Z.to_nat (i - Z.of_nat (length s))) with (Z.to_nat i - length s)%nat by lia.
Qed.

Lemma index_app_l {A} (s t : list A) i :
  i < len s → index (s ++ t) i = index s i.
Proof.
  unfold index, len. intros Hi. case_bool_decide; [|done].
  by rewrite lookup_app_l by lia.
Qed.

Lemma index_0 {A} (x : A) (s : list A) : index (x :: s) 0 = Ret x.
Proof. done. Qed.

Lemma index_lookup {A} (s : list A) (i : nat) (x : A) : s !! i = Some x → s.[Z.of_nat i] = Ret x.
Proof.
  intros Hi. unfold index. rewrite bool_decide_true by lia. by rewrite Nat2Z.id, Hi.
Qed.

Lemma index_total {A} (s : list A) i : 0 ≤ i < len s → ∃ v, s.[i] = Ret v ∧ s !! Z.to_nat i = Some v.
Proof.
  intros Hi. unfold index. rewrite bool_decide_eq_true_2 by lia.
  destruct (lookup_lt_is_Some_2 s (Z.to_nat i)) as [v Hv]; [unfold len in Hi; lia|]. rewrite Hv. eauto.
Qed.

Lemma index_Ret_inv {A} (s : list A) i x :
  index s i = Ret x → 0 ≤ i < len s ∧ s !! Z.to_nat i = Some x.
Proof.
  unfold index, len. case_bool_decide; [|done].
  destruct (s !! Z.to_nat i) eqn:E; [|done]. intros [= ->].
  apply lookup_lt_Some in E as ?. split; [lia|done].
Qed.

Lemma slice_app_mid {A} (p m q : list A) a b :
  a = len p → b = len p + len m → slice (p ++ m ++ q) a b = Ret m.
Proof.
  unfold slice, len. intros -> ->.
  rewrite bool_decide_true by (rewrite !length_app; lia).
  replace (Z.to_nat (Z.of_nat (length p) + Z.of_nat (length m) - Z.of_nat (length p)))
    with (length m) by lia.
  rewrite Nat2Z.id. by rewrite drop_app_length, take_app_length.
Qed.

Lemma slice_prefix {A} (p q : list A) b :
  b = len p → slice (p ++ q) 0 b = Ret p.
Proof. intros ->. by apply (slice_app_mid [] p q). Qed.

(** ** Machine integers *)

(** Two's-complement wrap-around at a width: [int64] and the unsigned types. *)
Definition i64 (z : Z) : Z := (z + 2 ^ 63) mod 2 ^ 64 - 2 ^ 63.
Definition i32 (z : Z) : Z := (z + 2 ^ 31) mod 2 ^ 32 - 2 ^ 31.
Definition u8 (z : Z) : Z := z mod 2 ^ 8.
Definition u16 (z : Z) : Z := z mod 2 ^ 16.
Definition u32 (z : Z) : Z := z mod 2 ^ 32.
Definition u64 (z : Z) : Z := z mod 2 ^ 64.

Definition is_byte (z : Z) : Prop := 0 ≤ z < 256.
#[global] Instance is_byte_dec z : Decision (is_byte z).
Proof. unfold is_byte. apply _. Defined.

Lemma i64_id z : - 2 ^ 63 ≤ z < 2 ^ 63 → i64 z = z.
Proof. unfold i64. intros. rewrite Z.mod_small; lia. Qed.
Lemma i64_range z : - 2 ^ 63 ≤ i64 z < 2 ^ 63.
Proof. unfold i64. pose proof (Z.mod_pos_bound (z + 2 ^ 63) (2 ^ 64)). lia. Qed.
Lemma i32_id z : - 2 ^ 31 ≤ z < 2 ^ 31 → i32 z = z.
Proof. unfold i32. intros. rewrite Z.mod_small; lia. Qed.
Lemma u8_byte z : is_byte (u8 z).
Proof. unfold is_byte, u8. pose proof (Z.mod_pos_bound z (2 ^ 8)). lia. Qed.
Lemma u8_id z : is_byte z → u8 z = z.
Proof. unfold is_byte, u8. intros. apply Z.mod_small. lia. Qed.
Lemma u16_id z : 0 ≤ z < 65536 → u16 z = z.
Proof. unfold u16. intros. apply Z.mod_small. lia. Qed.

(** ** Bits *)

(** Proves a decidable fact about every integer of an interval by evaluating it. *)
Definition all_below (n : nat) (P : Z → bool) : bool := forallb P (Z.of_nat <$> seq 0 n).

Lemma all_below_spec n P z :
  all_below n P = true → 0 ≤ z < Z.of_nat n → P z = true.
Proof.
  unfold all_below. rewrite forallb_forall. intros H Hz. apply H.
  apply list_elem_of_In, list_elem_of_fmap. exists (Z.to_nat z).
  split; [lia|]. apply elem_of_seq. lia.
Qed.

(** [by_cases_below n] closes [P z] for a variable [z] with [0 ≤ z < n]. *)
Ltac by_evaluation n P z :=
  apply (all_below_spec n P z); [vm_compute; reflexivity | lia].

Create Rewrite HintDb bits.
#[global] Hint Rewrite Z.land_spec Z.lor_spec Z.lxor_spec Z.lnot_spec
  Z.shiftr_spec Z.shiftl_spec Z.bits_0 andb_false_r andb_true_r andb_false_l
  andb_true_l orb_false_r orb_true_r orb_false_l orb_true_l xorb_false_r
  xorb_false_l using lia : bits.

(** Reduces an equation between integers to one between their bits. *)
Ltac bitwise i :=
  apply Z.bits_inj'; intros i ?Hi; autorewrite with bits.

Lemma testbit_small a n i : 0 ≤ a < 2 ^ n → 0 ≤ n ≤ i → Z.testbit a i = false.
Proof.
  intros Ha Hi. destruct (decide (a = 0)) as [->|]; [apply Z.bits_0|].
  apply Z.bits_above_log2; [lia|]. apply Z.log2_lt_pow2; [lia|].
  apply Z.lt_le_trans with (2 ^ n); [lia|]. apply Z.pow_le_mono_r; lia.
Qed.

Lemma lxor_bound a b n :
  0 ≤ n → 0 ≤ a < 2 ^ n → 0 ≤ b < 2 ^ n → 0 ≤ Z.lxor a b < 2 ^ n.
Proof.
  intros Hn Ha Hb. assert (0 ≤ Z.lxor a b) by (apply Z.lxor_nonneg; lia).
  split; [done|]. destruct (decide (Z.lxor a b = 0)) as [->|Hx]; [lia|].
  apply Z.log2_lt_pow2; [lia|].
  assert (Z.log2 (Z.lxor a b) < n \/ n ≤ Z.log2 (Z.lxor a b)) as [?|Hge] by lia; [done|].
  assert (Hbit : Z.testbit (Z.lxor a b) (Z.log2 (Z.lxor a b)) = true)
    by (apply Z.bit_log2; lia).
  rewrite Z.lxor_spec, !(testbit_small _ n) in Hbit by lia. done.
Qed.

Lemma lor_bound a b n :
  0 ≤ n → 0 ≤ a < 2 ^ n → 0 ≤ b < 2 ^ n → 0 ≤ Z.lor a b < 2 ^ n.
Proof.
  intros Hn Ha Hb. assert (0 ≤ Z.lor a b) by (apply Z.lor_nonneg; lia).
  split; [done|]. destruct (decide (Z.lor a b = 0)) as [->|Hx]; [lia|].
  apply Z.log2_lt_pow2; [lia|].
  assert (Z.log2 (Z.lor a b) < n \/ n ≤ Z.log2 (Z.lor a b)) as [?|Hge] by lia; [done|].
  assert (Hbit : Z.testbit (Z.lor a b) (Z.log2 (Z.lor a b)) = true)
    by (apply Z.bit_log2; lia).
  rewrite Z.lor_spec, !(testbit_small _ n) in Hbit by lia. done.
Qed.

(** [land] with [2^n - 1] keeps the low [n] bits. *)
Lemma land_low a n : 0 ≤ n → Z.land a (2 ^ n - 1) = a mod 2 ^ n.
Proof. intros. by rewrite <- Z.land_ones, Z.ones_equiv by lia. Qed.

Lemma land_255 a : Z.land a 255 = a mod 256.
Proof. apply (land_low a 8). lia. Qed.
Lemma land_15 a : Z.land a 15 = a mod 16.
Proof. apply (land_low a 4). lia. Qed.
Lemma land_u32 a : Z.land a 0xffffffff = a mod 2 ^ 32.
Proof. apply (land_low a 32). lia. Qed.
Lemma land_127 a : Z.land a 127 = a mod 128.
Proof. apply (land_low a 7). lia. Qed.

(** Disjoint values: [lor] is addition. *)
Lemma lor_shiftl_add a b n :
  0 ≤ n → 0 ≤ b < 2 ^ n → Z.lor (Z.shiftl a n) b = a * 2 ^ n + b.
Proof.
  intros Hn Hb. rewrite <- (Z.shiftl_mul_pow2 a n) by lia.
  rewrite <- Z.lxor_lor, <- Z.add_nocarry_lxor; [done| |];
    bitwise i; destruct (decide (i < n));
    rewrite ?(Z.testbit_neg_r a) by lia; rewrite ?(testbit_small b n) by lia;
    by rewrite ?andb_false_r.
Qed.

Create HintDb go.
Create Rewrite HintDb go.
#[export] Hint Resolve len_nonneg u8_byte : go.
#[export] Hint Rewrite @len_app @len_cons @len_nil : go.

(** ** Loops *)

(** At most [n] rounds of a loop whose body goes on ([inl]) or leaves ([inr]); the
    fuel is binary, so that a bound beyond any run costs nothing to evaluate. *)
Fixpoint while {S R} (n : positive) (body : S → S + R) (s : S) : S + R :=
  match n with
  | xH => body s
  | xO p => match while p body s with inl s => while p body s | inr r => inr r end
  | xI p =>
      match body s with
      | inl s => match while p body s with inl s => while p body s | inr r => inr r end
      | inr r => inr r
      end
  end.

Fixpoint rounds {S R} (n : nat) (body : S → S + R) (s : S) : S + R :=
  match n with
  | O => inl s
  | Datatypes.S n => match body s with inl s => rounds n body s | inr r => inr r end
  end.

Lemma rounds_add {S R} (n k : nat) (body : S → S + R) s :
  rounds (n + k) body s = match rounds n body s with inl s => rounds k body s | inr r => inr r end.
Proof. revert s. induction n as [|n IH]; intros s; simpl; [done|]. by destruct (body s). Qed.

Lemma while_rounds {S R} n (body : S → S + R) s : while n body s = rounds (Pos.to_nat n) body s.
Proof.
  revert s. induction n as [p IH|p IH|]; intros s; cbn [while].
  - rewrite Pos2Nat.inj_xI. replace (2 * Pos.to_nat p)%nat with (Pos.to_nat p + Pos.to_nat p)%nat by lia.
    cbn [rounds]. destruct (body s) as [s'|r]; [|done]. rewrite rounds_add, IH. by destruct (rounds _ body s').
  - rewrite Pos2Nat.inj_xO. replace (2 * Pos.to_nat p)%nat with (Pos.to_nat p + Pos.to_nat p)%nat by lia.
    rewrite rounds_add, IH. by destruct (rounds _ body s).
  - simpl. by destruct (body s).
Qed.

(** A loop with an invariant and a measure leaves before its fuel runs out. *)
Lemma while_leaves {S R} (I : S → Prop) (Q : R → Prop) (mu : S → Z) n (body : S → S + R) s :
  (∀ s, I s → match body s with inl s' => I s' ∧ 0 ≤ mu s' < mu s | inr r => Q r end) →
  I s → mu s < Z.pos n → ∃ r, while n body s = inr r ∧ Q r.
Proof.
  intros Hb HI Hmu. rewrite while_rounds. assert (H : mu s < Z.of_nat (Pos.to_nat n)) by lia.
  assert (H1 : (0 < Pos.to_nat n)%nat) by lia. clear Hmu. revert s HI H H1. generalize (Pos.to_nat n) as k.
  induction k as [|k IH]; intros s HI H H1; [lia|]. simpl. specialize (Hb s HI).
  destruct (body s) as [s'|r]; [|by exists r]. destruct Hb as [HI' ?]. apply IH; [done|lia..].
Qed.

(** What an invariant says of a loop that has left. *)
Lemma while_inv {S R} (I : S → Prop) (Q : R → Prop) n (body : S → S + R) s r :
  (∀ s, I s → match body s with inl s' => I s' | inr r => Q r end) → I s → while n body s = inr r → Q r.
Proof.
  intros Hb HI. rewrite while_rounds. generalize (Pos.to_nat n) as k. intros k. revert s HI.
  induction k as [|k IH]; intros s HI; simpl; [done|]. specialize (Hb s HI).
  destruct (body s) as [s'|r']; [by apply IH|by intros [= ->]].
Qed.
