(* ===== verification/GoFloat.v ===== *)
(** * Go's [float64]

    IEEE-754 binary64 arithmetic, as Go's [float64] and the functions of
    package [math] that the modelled code calls.  A [float64] is a value of
    the standard library's [spec_float] at precision 53 and maximal exponent
    1024; every operation rounds to nearest even, so the definitions evaluate
    to the same bits as the code.  The order lemmas make comparison usable:
    on numbers that are not NaN it is a total preorder. *)

From Stdlib Require Import SpecFloat.
From S2P Require Import Prelude.

Definition f64 : Type := spec_float.

(** ** Arithmetic *)

Definition fadd (x y : f64) : f64 := SFadd 53 1024 x y.
Definition fsub (x y : f64) : f64 := SFsub 53 1024 x y.
Definition fmul (x y : f64) : f64 := SFmul 53 1024 x y.
Definition fdiv (x y : f64) : f64 := SFdiv 53 1024 x y.
Definition fsqrt (x : f64) : f64 := SFsqrt 53 1024 x.
Definition fneg (x : f64) : f64 := SFopp x.
Definition fabs (x : f64) : f64 := SFabs x.

Definition feq (x y : f64) : bool := SFeqb x y.
Definition flt (x y : f64) : bool := SFltb x y.
Definition fle (x y : f64) : bool := SFleb x y.

(** [float64(n)]. *)
Definition f_of_Z (n : Z) : f64 := binary_normalize 53 1024 n 0 false.

(** A decimal literal [n / d]: the division of two exact operands is the
    correctly rounded constant the compiler stores. *)
Definition f_lit (n d : Z) : f64 := fdiv (f_of_Z n) (f_of_Z d).

Definition f0 : f64 := S754_zero false.
Definition f1 : f64 := f_of_Z 1.

(** [constants.NOW] and [constants.NEVER]. *)
Definition NOW : f64 := f0.
Definition NEVER : f64 := f_of_Z 9999999999999999.

Definition is_nan (x : f64) : bool := match x with S754_nan => true | _ => false end.

(** [int(x)] on a 64-bit target: truncation, with the indefinite value for
    what does not fit. *)
Definition f_trunc (x : f64) : Z :=
  match x with
  | S754_zero _ => 0
  | S754_finite s m e =>
      let a := if 0 <=? e then Z.pos m * 2 ^ e else Z.pos m / 2 ^ (- e) in
      let z := if s then - a else a in
      if bool_decide (- 2 ^ 63 ≤ z < 2 ^ 63) then z else - 2 ^ 63
  | _ => - 2 ^ 63
  end.

(** [math.Round]: half away from zero; the sign of a zero result is kept. *)
Definition f_round (x : f64) : f64 :=
  match x with
  | S754_finite sgn m e =>
      if e <? 0 then
        let q := (Z.pos m + 2 ^ (- e - 1)) / 2 ^ (- e) in
        if q =? 0 then S754_zero sgn else f_of_Z (if sgn then - q else q)
      else x
  | _ => x
  end.

Definition signbit (x : f64) : bool :=
  match x with
  | S754_zero s | S754_infinity s | S754_finite s _ _ => s
  | S754_nan => false
  end.

(** [math.Max] and [math.Min], with their special cases in source order. *)
Definition fmax (x y : f64) : f64 :=
  match x, y with
  | S754_infinity false, _ | _, S754_infinity false => S754_infinity false
  | S754_nan, _ | _, S754_nan => S754_nan
  | _, _ =>
      if feq x f0 && feq x y then (if signbit x then y else x)
      else if flt y x then x else y
  end.

Definition fmin (x y : f64) : f64 :=
  match x, y with
  | S754_infinity true, _ | _, S754_infinity true => S754_infinity true
  | S754_nan, _ | _, S754_nan => S754_nan
  | _, _ =>
      if feq x f0 && feq x y then (if signbit x then x else y)
      else if flt x y then x else y
  end.

(** ** Order *)

(** The position of a number in the order: sign class, exponent, mantissa. *)
Definition fkey (x : f64) : Z * Z * Z :=
  match x with
  | S754_nan => (3, 0, 0)
  | S754_infinity s => (if s then -2 else 2, 0, 0)
  | S754_zero _ => (0, 0, 0)
  | S754_finite false m e => (1, e, Z.pos m)
  | S754_finite true m e => (-1, - e, - Z.pos m)
  end.

Definition klt (a b : Z * Z * Z) : Prop :=
  a.1.1 < b.1.1 ∨ a.1.1 = b.1.1 ∧ (a.1.2 < b.1.2 ∨ a.1.2 = b.1.2 ∧ a.2 < b.2).

Local Ltac by_key :=
  repeat match goal with
         | |- context [Z.compare ?a ?b] => destruct (Z.compare_spec a b)
         | |- context [Pos.compare_cont Eq ?a ?b] =>
             change (Pos.compare_cont Eq a b) with (Pos.compare a b);
             destruct (Pos.compare_spec a b)
         end; subst; simpl; try lia.

Lemma flt_klt x y :
  is_nan x = false → is_nan y = false → flt x y = true ↔ klt (fkey x) (fkey y).
Proof.
  intros Hx Hy. unfold flt, SFltb, SFcompare, klt.
  destruct x as [[]|[]| |[] m e], y as [[]|[]| |[] m' e']; try discriminate; simpl;
    by_key; split; intros; try done; try lia.
Qed.

Lemma feq_key x y :
  is_nan x = false → is_nan y = false → feq x y = true ↔ fkey x = fkey y.
Proof.
  intros Hx Hy. unfold feq, SFeqb, SFcompare.
  destruct x as [[]|[]| |[] m e], y as [[]|[]| |[] m' e']; try discriminate; simpl;
    by_key; split; intros H'; try done; try congruence; inversion H'; subst; lia.
Qed.

Lemma fle_klt x y :
  is_nan x = false → is_nan y = false → fle x y = true ↔ ¬ klt (fkey y) (fkey x).
Proof.
  intros Hx Hy. unfold fle, SFleb, SFcompare, klt.
  destruct x as [[]|[]| |[] m e], y as [[]|[]| |[] m' e']; try discriminate; simpl;
    by_key; split; intros; try done; try lia.
Qed.

Lemma fle_not_nan x y : fle x y = true → is_nan x = false ∧ is_nan y = false.
Proof. by destruct x as [[]|[]| |[]], y as [[]|[]| |[]]. Qed.

Lemma flt_not_nan x y : flt x y = true → is_nan x = false ∧ is_nan y = false.
Proof. by destruct x as [[]|[]| |[]], y as [[]|[]| |[]]. Qed.

Lemma fle_refl x : is_nan x = false → fle x x = true.
Proof. intros. apply fle_klt; [done..|]. unfold klt. lia. Qed.

Lemma fle_trans x y z : fle x y = true → fle y z = true → fle x z = true.
Proof.
  intros H1 H2. destruct (fle_not_nan _ _ H1), (fle_not_nan _ _ H2).
  apply fle_klt in H1, H2; try done. apply fle_klt; try done. unfold klt in *. lia.
Qed.

Lemma flt_fle x y : flt x y = true → fle x y = true.
Proof.
  intros H. destruct (flt_not_nan _ _ H). apply flt_klt in H; try done.
  apply fle_klt; try done. unfold klt in *. lia.
Qed.

Lemma flt_false_fle x y :
  is_nan x = false → is_nan y = false → flt x y = false → fle y x = true.
Proof.
  intros Hx Hy H. apply fle_klt; try done. rewrite <- flt_klt by done. by rewrite H.
Qed.

Lemma flt_fle_trans x y z : flt x y = true → fle y z = true → flt x z = true.
Proof.
  intros H1 H2. destruct (flt_not_nan _ _ H1), (fle_not_nan _ _ H2).
  apply flt_klt in H1; try done. apply fle_klt in H2; try done.
  apply flt_klt; try done. unfold klt in *. lia.
Qed.

Lemma fle_flt_trans x y z : fle x y = true → flt y z = true → flt x z = true.
Proof.
  intros H1 H2. destruct (fle_not_nan _ _ H1), (flt_not_nan _ _ H2).
  apply fle_klt in H1; try done. apply flt_klt in H2; try done.
  apply flt_klt; try done. unfold klt in *. lia.
Qed.

Lemma flt_irrefl x : flt x x = false.
Proof.
  destruct (is_nan x) eqn:Hx; [by destruct x|]. apply not_true_is_false.
  rewrite flt_klt by done. unfold klt. lia.
Qed.

Lemma fle_flt_false x y : fle x y = true → flt y x = false.
Proof.
  intros H. destruct (fle_not_nan _ _ H) as [Hx Hy]. apply not_true_is_false.
  rewrite flt_klt by done. by apply fle_klt.
Qed.

Lemma feq_sym x y : feq x y = feq y x.
Proof.
  apply eq_bool_prop_intro.
  destruct (is_nan x) eqn:Hx; [by destruct x, y as [[]|[]| |[]]|].
  destruct (is_nan y) eqn:Hy; [by destruct y, x as [[]|[]| |[]]|].
  rewrite !Is_true_true, !feq_key by done. done.
Qed.

Lemma feq_fle x y : feq x y = true → fle x y = true.
Proof.
  destruct (is_nan x) eqn:Hx; [by destruct x, y as [[]|[]| |[]]|].
  destruct (is_nan y) eqn:Hy; [by destruct y, x as [[]|[]| |[]]|].
  rewrite feq_key by done. intros H. apply fle_klt; try done. rewrite H. unfold klt. lia.
Qed.

(** [math.Min] returns one of its arguments and is below both. *)
Lemma fmin_cases x y :
  is_nan x = false → is_nan y = false →
  (fmin x y = x ∨ fmin x y = y) ∧ fle (fmin x y) x = true ∧ fle (fmin x y) y = true.
Proof.
  intros Hx Hy.
  assert (Hdef : fmin x y = x ∧ fle x y = true ∨ fmin x y = y ∧ fle y x = true).
  { unfold fmin.
    destruct x as [sx|[]| |sx mx ex], y as [sy|[]| |sy my ey]; try discriminate; auto;
      repeat case_match; auto;
      try (left; split; [done|]; apply flt_fle; assumption);
      try (right; split; [done|]; apply flt_false_fle; assumption).
    all: match goal with H : feq _ _ && _ = true |- _ =>
           apply andb_true_iff in H as [? ?] end.
    all: try (left; split; [done|]; by apply feq_fle).
    all: try (right; split; [done|]; apply feq_fle; by rewrite feq_sym). }
  destruct Hdef as [[-> Hle]|[-> Hle]]; split_and!; auto using fle_refl.
Qed.

(** What is below a minimum is below both, with NaN below nothing. *)
Lemma flt_fmin a x y : flt a (fmin x y) = true → flt a x = true ∧ flt a y = true.
Proof.
  intros H. destruct (flt_not_nan _ _ H) as [_ Hn].
  assert (is_nan x = false ∧ is_nan y = false ∨ x = S754_infinity true ∨ y = S754_infinity true) as [[Hx Hy]|[-> | ->]].
  { destruct x as [?|[]| |???], y as [?|[]| |???]; auto. }
  - destruct (fmin_cases x y Hx Hy) as (_ & H1 & H2). split; by eapply flt_fle_trans.
  - by destruct a as [?|[]| |[]].
  - assert (Hm : fmin x (S754_infinity true) = S754_infinity true) by by destruct x as [?|[]| |???].
    rewrite Hm in H. by destruct a as [?|[]| |[]].
Qed.

(** ** Numbers that are not negative *)

Definition nonneg (x : f64) : bool :=
  match x with
  | S754_zero _ | S754_infinity false | S754_finite false _ _ => true
  | _ => false
  end.

Lemma nonneg_not_nan x : nonneg x = true → is_nan x = false.
Proof. by destruct x. Qed.

Lemma nonneg_ge_0 x : nonneg x = true → fle f0 x = true.
Proof. by destruct x as [[]|[]| |[]]. Qed.

Local Lemma shr_m_nonneg p mrs : 0 ≤ shr_m mrs → 0 ≤ shr_m (SpecFloat.iter_pos shr_1 p mrs).
Proof.
  assert (H1 : ∀ mrs, 0 ≤ shr_m mrs → 0 ≤ shr_m (shr_1 mrs)).
  { intros [[|[]|] r s'] H; simpl in *; lia. }
  revert mrs. induction p as [p IH|p IH|]; intros mrs H; simpl; auto.
Qed.

Local Lemma shr_fexp_nonneg m e l : 0 ≤ m → 0 ≤ shr_m (shr_fexp 53 1024 m e l).1.
Proof.
  intros H. unfold shr_fexp, shr.
  assert (Hr : 0 ≤ shr_m (shr_record_of_loc m l)) by by destruct l as [|[]].
  case_match; simpl; auto using shr_m_nonneg.
Qed.

Lemma round_nonneg mx ex lx : 0 ≤ mx → nonneg (binary_round_aux 53 1024 false mx ex lx) = true.
Proof.
  intros H. unfold binary_round_aux. pose proof (shr_fexp_nonneg mx ex lx H) as H1.
  destruct (shr_fexp 53 1024 mx ex lx) as [mrs e]. simpl in H1.
  set (m1 := round_nearest_even (shr_m mrs) (loc_of_shr_record mrs)).
  assert (H2 : 0 ≤ m1) by (unfold m1, round_nearest_even; repeat case_match; lia).
  pose proof (shr_fexp_nonneg m1 e loc_Exact H2) as H3.
  destruct (shr_fexp 53 1024 m1 e loc_Exact) as [mrs' e']. simpl in *.
  destruct (shr_m mrs'); [done| |lia]. by destruct (e' <=? _).
Qed.

Local Lemma binary_round_nonneg m e : nonneg (binary_round 53 1024 false m e) = true.
Proof. unfold binary_round. destruct (shl_align _ _ _). by apply round_nonneg. Qed.

Lemma fadd_nonneg x y : nonneg x = true → nonneg y = true → nonneg (fadd x y) = true.
Proof.
  unfold fadd. destruct x as [[]|[]| |[] mx ex], y as [[]|[]| |[] my ey]; try done. intros _ _.
  apply binary_round_nonneg.
Qed.

Lemma fmul_nonneg x m e : nonneg x = true → nonneg (fmul x (S754_finite false m e)) = true.
Proof.
  unfold fmul. destruct x as [[]|[]| |[] mx ex]; try done. intros _. by apply round_nonneg.
Qed.

Lemma fmin_nonneg x y : nonneg x = true → nonneg y = true → nonneg (fmin x y) = true.
Proof.
  intros Hx Hy. destruct (fmin_cases x y) as [[-> | ->] _]; auto using nonneg_not_nan.
Qed.

Lemma fmin_le_l x y : nonneg x = true → nonneg y = true → fle (fmin x y) x = true.
Proof. intros. apply fmin_cases; auto using nonneg_not_nan. Qed.

Lemma fmin_le_r x y : nonneg x = true → nonneg y = true → fle (fmin x y) y = true.
Proof. intros. apply fmin_cases; auto using nonneg_not_nan. Qed.

(** Not negative, or NaN: what the arithmetic of limits stays within. *)
Definition notneg (x : f64) : bool := nonneg x || is_nan x.

Lemma notneg_nonneg x : nonneg x = true → notneg x = true.
Proof. unfold notneg. by intros ->. Qed.

Lemma notneg_num x : notneg x = true → is_nan x = false → nonneg x = true.
Proof. unfold notneg. intros [H|H]%orb_true_iff; congruence. Qed.

Lemma fmul_notneg x y : notneg x = true → notneg y = true → notneg (fmul x y) = true.
Proof.
  unfold fmul. destruct x as [[]|[]| |[] mx ex], y as [[]|[]| |[] my ey]; try done. intros _ _.
  apply notneg_nonneg. by apply round_nonneg.
Qed.

Lemma fdiv_notneg x y : notneg x = true → flt f0 y = true → notneg (fdiv x y) = true.
Proof.
  unfold fdiv. destruct x as [[]|[]| |[] mx ex], y as [[]|[]| |[] my ey]; try done. intros _ _.
  apply notneg_nonneg. cbn [SFdiv xorb].
  destruct (SFdiv_core_binary _ _ _ _ _ _) as [[mz ez] lz] eqn:E. apply round_nonneg.
  unfold SFdiv_core_binary in E. destruct (Z.div_eucl _ _) as [q r] eqn:D. simplify_eq.
  match type of D with Z.div_eucl ?a ?b = _ => assert (mz = a / b) as -> by (unfold Z.div; by rewrite D) end.
  apply Z.div_pos; [|lia]. case_match; try lia. apply Z.shiftl_nonneg. lia.
Qed.

Lemma fsqrt_notneg x : notneg x = true → notneg (fsqrt x) = true.
Proof.
  unfold fsqrt. destruct x as [[]|[]| |[] mx ex]; try done. intros _. apply notneg_nonneg.
  cbn [SFsqrt]. destruct (SFsqrt_core_binary _ _ _ _) as [[mz ez] lz] eqn:E. apply round_nonneg.
  unfold SFsqrt_core_binary in E. destruct (Z.sqrtrem _) as [q r] eqn:D. simplify_eq.
  match type of D with Z.sqrtrem ?a = _ => assert (mz = Z.sqrt a) as -> by (by rewrite <- Z.sqrtrem_sqrt, D) end.
  apply Z.sqrt_nonneg.
Qed.

(** A square is not negative. *)
Lemma fmul_square_notneg x : notneg (fmul x x) = true.
Proof.
  unfold fmul. destruct x as [[]|[]| |[] mx ex]; try done; apply notneg_nonneg; by apply round_nonneg.
Qed.

(** ** Positive finite numbers, and finite numbers *)

Definition fpos (x : f64) : bool := match x with S754_finite false _ _ => true | _ => false end.
Definition ffin (x : f64) : bool := match x with S754_finite _ _ _ | S754_zero _ => true | _ => false end.

Lemma fpos_nonneg x : fpos x = true → nonneg x = true.
Proof. by destruct x as [| | |[]]. Qed.

Lemma fmul_positive x y : nonneg x = true → fpos y = true → nonneg (fmul x y) = true.
Proof. destruct y as [| | |[]]; try done. intros. by apply fmul_nonneg. Qed.

Lemma fmin_positive x y : fpos x = true → flt f0 y = true → fpos (fmin x y) = true.
Proof.
  intros Hx Hy. destruct y as [[]|[]| |[] m e] eqn:E; try done; [by destruct x as [| | |[]]|].
  rewrite <- E. destruct (fmin_cases x y) as [[-> | ->] _]; subst; auto using nonneg_not_nan, fpos_nonneg.
Qed.

Lemma fabs_nonneg x : is_nan x = false → nonneg (fabs x) = true.
Proof. by destruct x. Qed.

Local Lemma round_not_nan s m e : is_nan (binary_round_aux 53 1024 s m e loc_Exact) = false ∨ m < 0.
Proof.
  destruct (decide (m < 0)); [auto|left]. unfold binary_round_aux.
  pose proof (shr_fexp_nonneg m e loc_Exact ltac:(lia)) as H1.
  destruct (shr_fexp 53 1024 m e loc_Exact) as [mrs e1]. simpl in H1.
  set (m1 := round_nearest_even (shr_m mrs) (loc_of_shr_record mrs)).
  assert (H2 : 0 ≤ m1) by (unfold m1, round_nearest_even; repeat case_match; lia).
  pose proof (shr_fexp_nonneg m1 e1 loc_Exact H2) as H3.
  destruct (shr_fexp 53 1024 m1 e1 loc_Exact) as [mrs' e']. simpl in *.
  destruct (shr_m mrs'); [done| |lia]. by destruct (e' <=? _).
Qed.

Local Lemma normalize_not_nan m e s : is_nan (binary_normalize 53 1024 m e s) = false.
Proof.
  unfold binary_normalize, binary_round. destruct m; [done| |];
    destruct (shl_align _ _ _) as [m' e']; destruct (round_not_nan false (Z.pos m') e'), (round_not_nan true (Z.pos m') e'); done || lia.
Qed.

(** The difference of two finite numbers is a number. *)
Lemma fsub_finite x y : ffin x = true → ffin y = true → is_nan (fsub x y) = false.
Proof.
  unfold fsub. destruct x as [[]|[]| |[] mx ex], y as [[]|[]| |[] my ey]; try done; intros _ _; apply normalize_not_nan.
Qed.

Lemma fsqrt_number m e : is_nan (fsqrt (S754_finite false m e)) = false.
Proof.
  unfold fsqrt. cbn [SFsqrt]. destruct (SFsqrt_core_binary _ _ _ _) as [[mz ez] lz] eqn:E.
  unfold SFsqrt_core_binary in E. destruct (Z.sqrtrem _) as [q r] eqn:D. simplify_eq.
  apply nonneg_not_nan, round_nonneg.
  match type of D with Z.sqrtrem ?a = _ => assert (mz = Z.sqrt a) as -> by (by rewrite <- Z.sqrtrem_sqrt, D) end.
  apply Z.sqrt_nonneg.
Qed.

(** [math.Sqrt(math.Max(x, 0))]. *)
Lemma fsqrt_clamped x : notneg (fsqrt (fmax x f0)) = true.
Proof.
  apply fsqrt_notneg. by destruct x as [[]|[]| |[] m e].
Qed.

(** [math.Max] returns one of its arguments and is above both. *)
Lemma fmax_cases x y :
  is_nan x = false → is_nan y = false →
  (fmax x y = x ∨ fmax x y = y) ∧ fle x (fmax x y) = true ∧ fle y (fmax x y) = true.
Proof.
  intros Hx Hy.
  assert (Hdef : fmax x y = x ∧ fle y x = true ∨ fmax x y = y ∧ fle x y = true).
  { unfold fmax.
    destruct x as [sx|[]| |sx mx ex], y as [sy|[]| |sy my ey]; try discriminate; auto;
      repeat case_match; auto;
      try (left; split; [done|]; apply flt_fle; assumption);
      try (right; split; [done|]; apply flt_false_fle; assumption).
    all: match goal with H : feq _ _ && _ = true |- _ => apply andb_true_iff in H as [? ?] end.
    all: try (right; split; [done|]; by apply feq_fle).
    all: try (left; split; [done|]; apply feq_fle; by rewrite feq_sym). }
  destruct Hdef as [[-> Hle]|[-> Hle]]; split_and!; auto using fle_refl.
Qed.

Lemma feq_refl x : is_nan x = false → feq x x = true.
Proof. intros. by apply feq_key. Qed.

Lemma fle_antisym x y : fle x y = true → fle y x = true → feq x y = true.
Proof.
  intros H1 H2. destruct (fle_not_nan _ _ H1). apply fle_klt in H1, H2; [|done..].
  apply feq_key; [done..|]. destruct (fkey x) as [[] ], (fkey y) as [[] ]. unfold klt in *. simpl in *. f_equal; [f_equal|]; lia.
Qed.

Lemma feq_trans x y z : feq x y = true → feq y z = true → feq x z = true.
Proof.
  intros H1 H2. apply fle_antisym; eapply fle_trans; apply feq_fle; try done; by rewrite feq_sym.
Qed.
