(* ===== verification/GoFloatRound.v ===== *)
(** * Rounding

    What rounding to nearest does to sums: the result is canonical, a sum with a
    number that is not negative is not below the other operand, and it is above
    it as soon as the summand is one unit in the last place
    ([fadd_ge], [fadd_progress]). *)

From Stdlib Require Import SpecFloat.
From S2P Require Import Prelude GoFloat.

Local Abbreviation fexp := (SpecFloat.fexp 53 1024).
Local Abbreviation round_aux := (binary_round_aux 53 1024).

Lemma fexp_max e : fexp e = Z.max (e - 53) (-1074).
Proof. reflexivity. Qed.

Lemma digits_bounds p : 2 ^ (Z.pos (digits2_pos p) - 1) ≤ Z.pos p < 2 ^ Z.pos (digits2_pos p).
Proof.
  induction p as [p IH|p IH|]; cbn [digits2_pos]; [| |lia];
    rewrite !Pos2Z.inj_succ; replace (Z.succ _ - 1) with (Z.succ (Z.pos (digits2_pos p) - 1)) by lia;
    rewrite !Z.pow_succ_r by lia; lia.
Qed.

(** The digits are determined by the bounds. *)
Lemma digits_unique p d : 0 < d → 2 ^ (d - 1) ≤ Z.pos p < 2 ^ d → Z.pos (digits2_pos p) = d.
Proof.
  intros Hd [H1 H2]. destruct (digits_bounds p) as [H3 H4].
  assert (d - 1 < Z.pos (digits2_pos p)) by (apply (Z.pow_lt_mono_r_iff 2); lia).
  assert (Z.pos (digits2_pos p) - 1 < d) by (apply (Z.pow_lt_mono_r_iff 2); lia). lia.
Qed.

(** A number as the rounding leaves it. *)
Definition canon (x : f64) : bool :=
  match x with S754_finite _ m e => bool_decide (e = fexp (Z.pos (digits2_pos m) + e)) && (e <=? 971) | _ => true end.

Lemma shr_m_1 r : 0 ≤ shr_m r → shr_m (shr_1 r) = shr_m r / 2.
Proof. destruct r as [[|[p|p|]|p] ? ?]; simpl; intros; try lia; dlia. Qed.

Lemma shr_m_iter p r : 0 ≤ shr_m r → shr_m (SpecFloat.iter_pos shr_1 p r) = shr_m r / 2 ^ Z.pos p.
Proof.
  assert (Hpos : ∀ a n, 0 ≤ a → 0 ≤ a / 2 ^ Z.pos n) by (intros; apply Z.div_pos; lia).
  revert r. induction p as [p IH|p IH|]; intros r H; cbn [SpecFloat.iter_pos].
  - pose proof (shr_m_1 r H) as H1. assert (0 ≤ shr_m r / 2) by (apply Z.div_pos; lia).
    rewrite IH by (rewrite IH by lia; rewrite H1; auto). rewrite IH, H1 by lia.
    rewrite !Z.div_div by lia. f_equal. rewrite (Pos2Z.inj_xI p), (Z.pow_add_r 2 (2 * _)), Z.pow_twice_r by lia. lia.
  - rewrite IH by (rewrite IH by done; auto). rewrite IH by done. rewrite Z.div_div by lia. f_equal.
    rewrite (Pos2Z.inj_xO p), Z.pow_twice_r by lia. lia.
  - by rewrite shr_m_1.
Qed.

Lemma shr_shift m e l n : 0 ≤ m → 0 ≤ n →
  shr_m (shr (shr_record_of_loc m l) e n).1 = m / 2 ^ n ∧ (shr (shr_record_of_loc m l) e n).2 = e + n.
Proof.
  intros Hm Hn. assert (Hr : shr_m (shr_record_of_loc m l) = m) by by destruct l as [|[]].
  unfold shr. destruct n as [|p|p]; [|cbn [fst snd]|lia].
  - rewrite Z.div_1_r. simpl. split; [done|lia].
  - rewrite shr_m_iter by lia. by rewrite Hr.
Qed.

Lemma shr_fexp_shift m e l (n := Z.max 0 (fexp (Zdigits2 m + e) - e)) : 0 ≤ m →
  shr_m (shr_fexp 53 1024 m e l).1 = m / 2 ^ n ∧ (shr_fexp 53 1024 m e l).2 = e + n.
Proof.
  intros Hm. unfold shr_fexp. set (x := fexp (Zdigits2 m + e) - e) in *.
  destruct (decide (0 ≤ x)); [replace x with n by lia; apply shr_shift; lia|].
  replace n with 0 by lia. rewrite Z.div_1_r, Z.add_0_r. destruct x; [lia|lia|]. by destruct l as [|[]].
Qed.

Lemma round_nearest_even_bounds q l : q ≤ round_nearest_even q l ≤ q + 1.
Proof. destruct l as [|[]]; simpl; try lia. destruct (Z.even q); lia. Qed.

(** The second normalisation, of a rounded mantissa on the grid [f]. *)
Lemma renormalise p f (r := shr_fexp 53 1024 (Z.pos p) f loc_Exact) :
  -1074 ≤ f → Z.pos p ≤ 2 ^ 53 → (-1074 < f → 2 ^ 52 ≤ Z.pos p) →
  ∃ m' e', shr_m r.1 = Z.pos m' ∧ r.2 = e' ∧ e' = fexp (Z.pos (digits2_pos m') + e') ∧
    (e' = f ∧ m' = p ∨ e' = f + 1).
Proof.
  intros Hf Hp Hn. subst r. destruct (shr_fexp_shift (Z.pos p) f loc_Exact) as [Hm He]; [lia|].
  set (n := Z.max 0 _) in *. cbn [Zdigits2] in n. pose proof (digits_bounds p) as Hd.
  destruct (decide (Z.pos p = 2 ^ 53)) as [E|E].
  - assert (D : Z.pos (digits2_pos p) = 54) by (apply digits_unique; lia).
    assert (Hn1 : n = 1) by (unfold n; rewrite D, fexp_max; lia).
    rewrite Hn1 in *. rewrite Hm, He, E. exists (2 ^ 52)%positive, (f + 1). split_and!; [done..| |by right].
    rewrite fexp_max, (digits_unique _ 53) by lia. lia.
  - assert (D : Z.pos (digits2_pos p) ≤ 53).
    { assert (Z.pos (digits2_pos p) - 1 < 53) by (apply (Z.pow_lt_mono_r_iff 2); lia). lia. }
    assert (Hn0 : n = 0) by (unfold n; rewrite fexp_max; lia).
    rewrite Hn0, Z.div_1_r in Hm. rewrite Hn0, Z.add_0_r in He. exists p, f. split_and!; [done..| |by left].
    rewrite fexp_max. destruct (decide (f = -1074)); [lia|].
    rewrite (digits_unique _ 53) by lia. lia.
Qed.

(** The outcome of rounding [m * 2 ^ e], aligned at or below its grid [f]: infinity,
    zero, a canonical number on the grid not below the truncated value, or a
    number of the next binade. *)
Lemma round_cases s m e (f := fexp (Z.pos (digits2_pos m) + e)) :
  e ≤ f →
  round_aux s (Z.pos m) e loc_Exact = S754_infinity s ∨
  (Z.pos m / 2 ^ (f - e) = 0 ∧ round_aux s (Z.pos m) e loc_Exact = S754_zero s) ∨
  ∃ m' e', round_aux s (Z.pos m) e loc_Exact = S754_finite s m' e' ∧ canon (S754_finite false m' e') = true ∧
    (e' = f ∧ Z.pos m / 2 ^ (f - e) ≤ Z.pos m' ∨ e' = f + 1).
Proof.
  intros He. set (d := Z.pos (digits2_pos m)) in *. pose proof (digits_bounds m) as Hd. fold d in Hd.
  unfold binary_round_aux. destruct (shr_fexp_shift (Z.pos m) e loc_Exact) as [Hm1 He1]; [lia|].
  cbn [Zdigits2] in Hm1, He1. fold d f in Hm1, He1. rewrite Z.max_r in Hm1, He1 by lia. set (k := f - e) in *.
  destruct (shr_fexp 53 1024 (Z.pos m) e loc_Exact) as [r1 e1]. cbn [fst snd] in *.
  pose proof (round_nearest_even_bounds (shr_m r1) (loc_of_shr_record r1)) as Hr. rewrite Hm1 in *.
  set (q := Z.pos m / 2 ^ k) in *. set (m1 := round_nearest_even q _) in *.
  assert (Hf : f = d + e - 53 ∧ -1074 ≤ f ∨ f = -1074 ∧ d + e - 53 ≤ f) by (unfold f; rewrite fexp_max; lia).
  assert (Hq : 0 ≤ q < 2 ^ 53).
  { split; [apply Z.div_pos; lia|]. apply Z.div_lt_upper_bound; [lia|].
    rewrite <- Z.pow_add_r by lia. eapply Z.lt_le_trans; [apply Hd|]. apply Z.pow_le_mono_r; lia. }
  assert (Hq2 : -1074 < f → 2 ^ 52 ≤ q).
  { intros. apply Z.div_le_lower_bound; [lia|]. rewrite <- Z.pow_add_r by lia.
    eapply Z.le_trans; [|apply Hd]. apply Z.pow_le_mono_r; lia. }
  replace e1 with f by lia. clearbody m1. destruct m1 as [|p|p]; [| |lia].
  - right; left. split; [lia|]. destruct (shr_fexp_shift 0 f loc_Exact) as [Hz _]; [lia|].
    destruct (shr_fexp 53 1024 0 f loc_Exact) as [r2 e2]. cbn [fst] in Hz. by rewrite Hz.
  - destruct (renormalise p f) as (m' & e' & H1 & H2 & H3 & H4); [lia..|].
    destruct (shr_fexp 53 1024 (Z.pos p) f loc_Exact) as [r2 e2]. cbn [fst snd] in *. rewrite H1, H2.
    destruct (e' <=? _) eqn:E'; [|by left]. right; right. exists m', e'.
    split_and!; [done|change (1024 - 53) with 971 in E'; simpl; by rewrite bool_decide_true, E'|].
    destruct H4 as [[-> ->]|]; [left; split; [done|lia]|by right].
Qed.

(** Alignment on a lower exponent keeps the value. *)
Lemma shl_align_value m e e' : e' ≤ e → Z.pos (shl_align m e e').1 = Z.pos m * 2 ^ (e - e') ∧ (shl_align m e e').2 = e'.
Proof.
  intros H. unfold shl_align. destruct (e' - e) as [|p|p] eqn:E; [|lia|].
  - replace (e - e') with 0 by lia. simpl. lia.
  - replace (e - e') with (Z.pos p) by lia. cbn [fst snd]. split; [|done]. clear E H.
    induction p as [|p IH] using Pos.peano_ind; [simpl; lia|].
    rewrite Pos.iter_succ, Pos2Z.inj_xO, IH, Pos2Z.inj_succ, Z.pow_succ_r by lia. lia.
Qed.

Lemma digits_shift m n p : 0 ≤ n → Z.pos p = Z.pos m * 2 ^ n → Z.pos (digits2_pos p) = Z.pos (digits2_pos m) + n.
Proof.
  intros Hn Hp. pose proof (digits_bounds m) as [H1 H2]. apply digits_unique; [lia|]. rewrite Hp.
  replace (_ + n - 1) with (Z.pos (digits2_pos m) - 1 + n) by lia. rewrite !Z.pow_add_r by lia. nia.
Qed.

Lemma binary_round_cases s m e (f := fexp (Z.pos (digits2_pos m) + e)) (r := binary_round 53 1024 s m e) :
  r = S754_infinity s ∨ (e ≤ f ∧ Z.pos m / 2 ^ (f - e) = 0 ∧ r = S754_zero s) ∨
  ∃ m' e', r = S754_finite s m' e' ∧ canon (S754_finite false m' e') = true ∧
    (e ≤ f → e' = f ∧ Z.pos m / 2 ^ (f - e) ≤ Z.pos m' ∨ e' = f + 1).
Proof.
  subst r. unfold binary_round. fold f. destruct (decide (e ≤ f)) as [Hle|Hgt].
  - assert (E : shl_align m e f = (m, e)) by (unfold shl_align; destruct (f - e) eqn:?; [done..|lia]).
    rewrite E. destruct (round_cases s m e Hle) as [?|[[??]|(m' & e' & ? & ? & ?)]]; [by left|right; by left|].
    right; right. by exists m', e'.
  - destruct (shl_align_value m e f) as [H1 H2]; [lia|]. destruct (shl_align m e f) as [mz ez]. simpl in H1, H2. subst ez.
    assert (Hd : fexp (Z.pos (digits2_pos mz) + f) = f).
    { rewrite (digits_shift m (e - f)) by (lia || done). unfold f at 2. f_equal. lia. }
    destruct (round_cases s mz f) as [?|[[Hz ?]|(m' & e' & ? & ? & ?)]]; [lia|by left| |right; right; exists m', e'; split_and!; [done..|lia]].
    rewrite Hd, Z.sub_diag, Z.div_1_r in Hz. lia.
Qed.

Lemma binary_round_canon s m e : canon (binary_round 53 1024 s m e) = true.
Proof. destruct (binary_round_cases s m e) as [-> |[(_ & _ & ->)|(m' & e' & -> & H & _)]]; done. Qed.

(** Rounding a value that is not below a canonical number gives no less, and
    more when the value is a unit above. *)
Lemma binary_round_ge mx ex m e (x := S754_finite false mx ex) (r := binary_round 53 1024 false m e) :
  canon x = true → e ≤ ex → Z.pos mx * 2 ^ (ex - e) ≤ Z.pos m →
  fle x r = true ∧ ((Z.pos mx + 1) * 2 ^ (ex - e) ≤ Z.pos m → flt x r = true).
Proof.
  intros Hx He Hm. pose proof (digits_bounds mx) as Hdx. pose proof (digits_bounds m) as Hdm.
  set (f := fexp (Z.pos (digits2_pos m) + e)). apply andb_true_iff in Hx as [Hx%bool_decide_eq_true _].
  assert (Hd : Z.pos (digits2_pos mx) - 1 + (ex - e) < Z.pos (digits2_pos m)).
  { apply (Z.pow_lt_mono_r_iff 2); [lia..|]. rewrite Z.pow_add_r by lia. nia. }
  assert (Hf : ex ≤ f ∧ e ≤ f) by (unfold f; rewrite fexp_max in *; lia).
  assert (Hq : Z.pos mx ≤ Z.pos m / 2 ^ (f - e) ∨ ex < f ∧ 1 ≤ Z.pos m / 2 ^ (f - e)).
  { destruct (decide (ex = f)) as [<-|]; [left|right; split; [lia|]]; apply Z.div_le_lower_bound; try lia.
    rewrite Z.mul_1_r. eapply Z.le_trans; [|apply Hdm]. apply Z.pow_le_mono_r; [lia|].
    unfold f. rewrite fexp_max in *. lia. }
  assert (Hq' : (Z.pos mx + 1) * 2 ^ (ex - e) ≤ Z.pos m → ex = f → Z.pos mx + 1 ≤ Z.pos m / 2 ^ (f - e)).
  { intros H <-. apply Z.div_le_lower_bound; lia. }
  destruct (binary_round_cases false m e) as [Hr|[(_ & Hz & _)|(m' & e' & Hr & Hc & Hcase)]].
  - fold r in Hr. by rewrite Hr.
  - fold f in Hz. lia.
  - fold f in Hcase. fold r in Hr. rewrite Hr. specialize (Hcase (proj2 Hf)).
    split; [apply fle_klt|intros H1; specialize (Hq' H1); apply flt_klt]; try done; unfold klt; simpl; lia.
Qed.

(** ** Sums *)

Lemma fadd_round mx ex my ey :
  ∃ m e, fadd (S754_finite false mx ex) (S754_finite false my ey) = binary_round 53 1024 false m e ∧ e ≤ ex ∧ e ≤ ey ∧
    Z.pos m = Z.pos mx * 2 ^ (ex - e) + Z.pos my * 2 ^ (ey - e).
Proof.
  set (e := Z.min ex ey). exists ((shl_align mx ex e).1 + (shl_align my ey e).1)%positive, e.
  destruct (shl_align_value mx ex e) as [<- _]; [lia|]. destruct (shl_align_value my ey e) as [<- _]; [lia|].
  split_and!; [reflexivity|lia..].
Qed.

Lemma fadd_canon x y : canon x = true → canon y = true → canon (fadd x y) = true.
Proof.
  unfold fadd. destruct x as [[]|[]| |sx mx ex], y as [[]|[]| |sy my ey]; try done. intros _ _. cbn [SFadd].
  unfold binary_normalize. case_match; [done|apply binary_round_canon..].
Qed.

Lemma fsub_canon x y : canon x = true → canon y = true → canon (fsub x y) = true.
Proof.
  unfold fsub. destruct x as [[]|[]| |sx mx ex], y as [[]|[]| |sy my ey]; try done. intros _ _. cbn [SFsub].
  unfold binary_normalize. case_match; [done|apply binary_round_canon..].
Qed.

(** Adding a number that is not negative gives no less. *)
Lemma fadd_ge x y : canon x = true → nonneg x = true → nonneg y = true → fle x (fadd x y) = true.
Proof.
  intros Hc Hx Hy. destruct x as [sx|[]| |[] mx ex], y as [sy|[]| |[] my ey]; try done; try (by destruct sx, sy).
  - by apply fle_refl.
  - destruct (fadd_round mx ex my ey) as (m & e & -> & H1 & H2 & Hm). apply binary_round_ge; [done|done|lia].
Qed.

(** One unit in the last place of [x], or the least number for zero. *)
Definition ulp_le (x y : f64) : bool :=
  match x, y with
  | S754_zero _, S754_finite false _ _ => true
  | S754_finite false _ ex, S754_finite false my ey => bool_decide (2 ^ (ex - Z.min ex ey) ≤ Z.pos my * 2 ^ (ey - Z.min ex ey))
  | _, _ => false
  end.

(** Adding at least a unit in the last place makes progress. *)
Lemma fadd_progress x y : canon x = true → ulp_le x y = true → flt x (fadd x y) = true.
Proof.
  intros Hc H. destruct x as [sx|[]| |[] mx ex], y as [sy|[]| |[] my ey]; try done; try (by destruct sx).
  apply bool_decide_eq_true in H. destruct (fadd_round mx ex my ey) as (m & e & -> & H1 & H2 & Hm).
  set (e0 := Z.min ex ey) in *.
  apply (binary_round_ge mx ex m e); [done|done|lia|]. rewrite Hm.
  enough (2 ^ (ex - e) ≤ Z.pos my * 2 ^ (ey - e)) by lia.
  replace (ex - e) with (ex - e0 + (e0 - e)) by lia. replace (ey - e) with (ey - e0 + (e0 - e)) by lia.
  rewrite !Z.pow_add_r by lia. nia.
Qed.

Lemma fadd_ge_r x y : canon y = true → nonneg x = true → nonneg y = true → fle y (fadd x y) = true.
Proof.
  intros Hc Hx Hy. destruct x as [sx|[]| |[] mx ex], y as [sy|[]| |[] my ey]; try done; try (by destruct sx, sy).
  - by apply fle_refl.
  - destruct (fadd_round mx ex my ey) as (m & e & -> & H1 & H2 & Hm). apply binary_round_ge; [done|done|lia].
Qed.

(** ** Counting *)

(** The place of a number among those that are not negative. *)
Definition place (x : f64) : Z :=
  match x with S754_finite false m e => (e + 1074) * 2 ^ 53 + Z.pos m | _ => 0 end.

Lemma canon_bounds s m e : canon (S754_finite s m e) = true → -1074 ≤ e ≤ 971 ∧ Z.pos m < 2 ^ 53.
Proof.
  intros [H1%bool_decide_eq_true H2]%andb_true_iff. rewrite fexp_max in H1. split; [lia|].
  eapply Z.lt_le_trans; [apply digits_bounds|]. apply Z.pow_le_mono_r; lia.
Qed.

Lemma place_bounds x : canon x = true → nonneg x = true → 0 ≤ place x < 2 ^ 64.
Proof.
  destruct x as [[]|[]| |[] m e]; try done; intros Hc _. apply canon_bounds in Hc. unfold place. lia.
Qed.

Lemma place_lt x y : canon x = true → canon y = true → nonneg x = true → ffin y = true → flt x y = true → place x < place y.
Proof.
  intros Hx Hy Hn Hf H. destruct (flt_not_nan _ _ H). apply flt_klt in H; [|done..].
  destruct x as [sx|[]| |[] mx ex], y as [sy|[]| |[] my ey]; try done; unfold klt in H; simpl in H; unfold place; try lia.
  all: repeat match goal with E : canon _ = true |- _ => apply canon_bounds in E end; lia.
Qed.

Lemma ulp_le_fin x y : ulp_le x y = true → ffin x = true ∧ ffin y = true.
Proof. by destruct x as [|[]| |[]], y as [|[]| |[]]. Qed.

Lemma ulp_le_mono x w y : nonneg x = true → fle x w = true → ulp_le w y = true → ulp_le x y = true.
Proof.
  intros Hx Hle Hu. destruct (fle_not_nan _ _ Hle). apply fle_klt in Hle; [|done..].
  destruct x as [sx|[]| |[] mx ex], w as [sw|[]| |[] mw ew], y as [sy|[]| |[] my ey]; try done; unfold klt in Hle; simpl in Hle; try lia.
  apply bool_decide_eq_true in Hu. apply bool_decide_eq_true.
  set (e0 := Z.min ex ey). set (e1 := Z.min ew ey) in *.
  assert (H1 : 2 ^ (ex - e0) ≤ 2 ^ (ew - e0)) by (apply Z.pow_le_mono_r; lia).
  replace (ew - e0) with (ew - e1 + (e1 - e0)) in H1 by lia. replace (ey - e0) with (ey - e1 + (e1 - e0)) by lia.
  rewrite Z.pow_add_r in H1 by lia. rewrite Z.pow_add_r by lia. nia.
Qed.

Lemma flt_fin x y : nonneg x = true → flt x y = true → ffin x = true.
Proof. by destruct x as [|[]| |[]], y as [[]|[]| |[]]. Qed.
