(* ===== verification/GoFloatInt.v ===== *)
(** * Integers and quotients in [float64]

    Integers below 2^53 are exact ([f_of_Z_exact]), conversion from integers is
    monotone against them, and the quotient of a number by a larger one is at most
    one ([fdiv_le_1]).  A sum counts: adding at least one to at least [n] gives at
    least [n + 1] ([fadd_count]). *)

From S2P Require Import Prelude GoFloat GoFloatRound.
From Stdlib Require Import SpecFloat FloatOps.

(** Rounding a number that is on the grid already. *)
Lemma round_exact s m e : fexp 53 1024 (Z.pos (digits2_pos m) + e) = e → e ≤ 971 →
  binary_round_aux 53 1024 s (Z.pos m) e loc_Exact = S754_finite s m e.
Proof.
  intros He Hb. unfold binary_round_aux. assert (E : shr_fexp 53 1024 (Z.pos m) e loc_Exact = (shr_record_of_loc (Z.pos m) loc_Exact, e)).
  { unfold shr_fexp. cbn [Zdigits2]. by rewrite He, Z.sub_diag. }
  rewrite E. cbn [shr_record_of_loc shr_m loc_of_shr_record shr_r shr_s round_nearest_even]. rewrite E. cbn [shr_record_of_loc shr_m].
  change (1024 - 53) with 971. destruct (e <=? 971) eqn:E1; [done|lia].
Qed.

Lemma f_of_Z_exact n : 0 < n < 2 ^ 53 → ∃ m e, f_of_Z n = S754_finite false m e ∧ e ≤ 0 ∧ Z.pos m = n * 2 ^ (- e) ∧
  canon (S754_finite false m e) = true.
Proof.
  intros Hn. destruct n as [|p|p]; [lia| |lia]. unfold f_of_Z, binary_normalize, binary_round.
  pose proof (digits_bounds p) as Hd. set (d := Z.pos (digits2_pos p)) in *.
  assert (Hd53 : d ≤ 53). { assert (d - 1 < 53); [|lia]. apply (Z.pow_lt_mono_r_iff 2); lia. }
  set (f := fexp 53 1024 (d + 0)). assert (Hf : f = d - 53) by (unfold f; rewrite fexp_max; lia).
  destruct (shl_align_value p 0 f) as [H1 H2]; [lia|]. destruct (shl_align p 0 f) as [m e]. cbn [fst snd] in *. subst e.
  assert (Hg : fexp 53 1024 (Z.pos (digits2_pos m) + f) = f).
  { rewrite (digits_shift p (0 - f)) by (lia || done). fold d. unfold f at 3. f_equal. lia. }
  rewrite round_exact by (done || lia). exists m, f. split_and!; [done|lia|by rewrite H1|].
  unfold canon. apply andb_true_iff. split; [by apply bool_decide_eq_true|apply Z.leb_le; lia].
Qed.

Lemma f_trunc_of_Z n : 0 ≤ n < 2 ^ 53 → f_trunc (f_of_Z n) = n.
Proof.
  intros Hn. destruct (decide (n = 0)) as [->|]; [done|]. destruct (f_of_Z_exact n) as (m & e & -> & He & Hm & _); [lia|].
  unfold f_trunc. rewrite Hm. destruct (0 <=? e) eqn:E.
  - replace e with 0 by lia. rewrite Z.mul_1_r. cbn [Z.opp]. rewrite Z.mul_1_r. rewrite bool_decide_true by lia. done.
  - rewrite Z.div_mul by lia. by rewrite bool_decide_true by lia.
Qed.

(** The bounds that being canonical puts on a mantissa above the subnormals. *)
Lemma canon_mantissa s m e : canon (S754_finite s m e) = true → -1074 < e → 2 ^ 52 ≤ Z.pos m < 2 ^ 53.
Proof.
  intros Hc He. pose proof (canon_bounds s m e Hc) as [_ Hu]. split; [|done]. unfold canon in Hc. apply andb_true_iff in Hc as [Hc _].
  apply bool_decide_eq_true in Hc. rewrite fexp_max in Hc. pose proof (digits_bounds m) as [Hd _].
  replace 52 with (Z.pos (digits2_pos m) - 1) by lia. done.
Qed.

(** Conversion keeps the order against an exact integer. *)
Lemma f_of_Z_lt k n : 0 < k → 0 < n < 2 ^ 53 → flt (f_of_Z n) (f_of_Z k) = false → k ≤ n.
Proof.
  intros Hk Hn H. destruct (f_of_Z_exact n) as (mn & en & En & Hen & Hmn & Hcn); [lia|].
  pose proof (canon_bounds _ _ _ Hcn) as [Hb1 Hb2].
  destruct (decide (k < 2 ^ 53)) as [Hk53|Hk53].
  - destruct (f_of_Z_exact k) as (mk & ek & Ek & Hek & Hmk & Hck); [lia|]. pose proof (canon_bounds _ _ _ Hck) as [Hb3 Hb4].
    rewrite En, Ek in H. destruct (decide (k ≤ n)) as [|Hgt]; [done|exfalso].
    assert (Hlt : flt (S754_finite false mn en) (S754_finite false mk ek) = true); [|by rewrite Hlt in H].
    apply flt_klt; [done..|]. unfold klt. cbn [fkey fst snd]. right. split; [done|].
    assert (Hle : en ≤ ek).
    { destruct (decide (en ≤ ek)) as [|Hlt]; [done|exfalso]. assert (-1074 < en) by lia.
      pose proof (canon_mantissa _ _ _ Hcn ltac:(lia)) as [Hm52 _].
      assert (Hp : 2 ^ (- ek) = 2 ^ (- en) * 2 ^ (en - ek)) by (rewrite <- Z.pow_add_r by lia; f_equal; lia).
      assert (2 ≤ 2 ^ (en - ek)) by (change 2 with (2 ^ 1) at 1; apply Z.pow_le_mono_r; lia).
      assert (0 < 2 ^ (- en)) by (apply Z.pow_pos_nonneg; lia). nia. }
    destruct (decide (en = ek)) as [->|]; [right; split; [done|nia]|left; lia].
  - exfalso. destruct k as [|p|p]; [lia| |lia]. rewrite En in H. unfold f_of_Z, binary_normalize in H.
    pose proof (digits_bounds p) as Hd. set (d := Z.pos (digits2_pos p)) in *.
    assert (53 < d) by (apply (Z.pow_lt_mono_r_iff 2); lia).
    destruct (binary_round_cases false p 0) as [Hr|[(_ & Hz & _)|(m' & e' & Hr & Hc & Hcase)]].
    + by rewrite Hr in H.
    + fold d in Hz. rewrite fexp_max in Hz. apply Z.div_small_iff in Hz; [|lia]. destruct Hz as [Hz|Hz]; [|lia].
      assert (2 ^ (Z.max (d + 0 - 53) (-1074) - 0) ≤ 2 ^ (d - 1)) by (apply Z.pow_le_mono_r; lia). lia.
    + rewrite Hr in H. fold d in Hcase. rewrite fexp_max in Hcase.
      assert (Hlt : flt (S754_finite false mn en) (S754_finite false m' e') = true); [|by rewrite Hlt in H].
      apply flt_klt; [done..|]. unfold klt. cbn [fkey fst snd]. right. split; [done|]. left. lia.
Qed.

(** ** Quotients *)

Local Lemma digits_nonneg q : 0 ≤ q → q < 2 ^ Zdigits2 q ∧ 0 ≤ Zdigits2 q.
Proof. destruct q as [|p|p]; [done| |lia]. intros _. cbn [Zdigits2]. pose proof (digits_bounds p). lia. Qed.

Local Lemma digits_le q k : 0 ≤ k → 0 ≤ q < 2 ^ k → Zdigits2 q ≤ k.
Proof.
  intros Hk Hq. destruct q as [|p|p]; [done| |lia]. cbn [Zdigits2]. pose proof (digits_bounds p) as [H _].
  assert (Z.pos (digits2_pos p) - 1 < k); [|lia]. apply (Z.pow_lt_mono_r_iff 2); lia.
Qed.

(** What the second normalisation makes of a rounded mantissa on a grid at or below 2^-53. *)
Local Lemma one_not_below M E (r := shr_fexp 53 1024 M E loc_Exact) :
  0 ≤ M ≤ 2 ^ 53 → E ≤ -53 →
  flt f1 (match shr_m r.1 with
          | Z0 => S754_zero false
          | Zpos m => if r.2 <=? 1024 - 53 then S754_finite false m r.2 else S754_infinity false
          | Zneg _ => S754_nan
          end) = false.
Proof.
  intros HM HE. destruct (shr_fexp_shift M E loc_Exact) as [Hm He]; [lia|]. fold r in Hm, He. set (n := Z.max 0 _) in *.
  rewrite Hm, He. assert (Hp : 0 < 2 ^ n) by (apply Z.pow_pos_nonneg; lia).
  assert (Hd : Zdigits2 M ≤ 53 ∨ M = 2 ^ 53).
  { destruct (decide (M = 2 ^ 53)); [by right|left]. apply digits_le; lia. }
  assert (Hn : E + n ≤ -53 ∨ E + n = -52 ∧ M / 2 ^ n ≤ 2 ^ 52).
  { destruct Hd as [Hd| ->]; [left; unfold n; rewrite fexp_max; lia|].
    assert (Hn : n = Z.max 1 (-1074 - E)) by (unfold n; rewrite fexp_max; change (Zdigits2 (2 ^ 53)) with 54; lia).
    destruct (decide (E + n ≤ -53)); [by left|right]. split; [lia|]. apply Z.div_le_upper_bound; [lia|].
    change (2 ^ 53) with (2 ^ 1 * 2 ^ 52). assert (2 ^ 1 ≤ 2 ^ n) by (apply Z.pow_le_mono_r; lia). nia. }
  clear Hm He. destruct (M / 2 ^ n) as [|m|m] eqn:Eq; [done| |done]. destruct (E + n <=? _) eqn:E1; [|lia].
  destruct (flt f1 _) eqn:H; [|done]. exfalso. apply flt_klt in H; [|done..]. unfold klt in H. cbn [fkey fst snd] in H.
  change (fkey f1) with (1, -52, 2 ^ 52) in H. cbn [fst snd] in H. lia.
Qed.

Lemma round_below_one q e l : 0 ≤ q < 2 ^ (- e) → e ≤ -53 → flt f1 (binary_round_aux 53 1024 false q e l) = false.
Proof.
  intros Hq He. unfold binary_round_aux. destruct (shr_fexp_shift q e l) as [Hm1 He1]; [lia|]. set (n := Z.max 0 _) in *.
  assert (Hp : 0 < 2 ^ n) by (apply Z.pow_pos_nonneg; lia). destruct (digits_nonneg q) as [Hd Hd0]; [lia|].
  assert (Hd2 : Zdigits2 q ≤ - e) by (apply digits_le; lia).
  assert (H0 : 0 ≤ q / 2 ^ n < 2 ^ 53).
  { split; [apply Z.div_pos; lia|]. apply Z.div_lt_upper_bound; [lia|]. rewrite <- Z.pow_add_r by lia.
    eapply Z.lt_le_trans; [exact Hd|]. apply Z.pow_le_mono_r; [lia|]. unfold n. rewrite fexp_max. lia. }
  assert (HE : e + n ≤ -53) by (unfold n; rewrite fexp_max; lia).
  destruct (shr_fexp 53 1024 q e l) as [r1 e1]. cbn [fst snd] in Hm1, He1. rewrite Hm1, He1.
  pose proof (round_nearest_even_bounds (q / 2 ^ n) (loc_of_shr_record r1)) as Hr.
  set (M := round_nearest_even _ _) in *. pose proof (one_not_below M (e + n) ltac:(lia) HE) as H.
  by destruct (shr_fexp 53 1024 M (e + n) loc_Exact) as [r2 e2].
Qed.

Local Lemma flt_value m1 e1 m2 e2 : canon (S754_finite false m1 e1) = true → canon (S754_finite false m2 e2) = true →
  flt (S754_finite false m1 e1) (S754_finite false m2 e2) = true → e1 = e2 ∧ Z.pos m1 < Z.pos m2 ∨ e1 < e2 ∧ Z.pos m1 < 2 ^ 53 ∧ 2 ^ 52 ≤ Z.pos m2.
Proof.
  intros H1 H2 H. apply flt_klt in H; [|done..]. unfold klt in H. cbn [fkey fst snd] in H.
  pose proof (canon_bounds _ _ _ H1) as [? ?]. destruct H as [H|(_ & [H|[? H]])]; [lia|right|left; split; [done|lia]].
  split_and!; [lia..|]. apply (canon_mantissa _ _ _ H2). lia.
Qed.

Lemma fdiv_le_1 x y : canon x = true → canon y = true → nonneg x = true → fpos y = true → fle x y = true →
  flt f1 (fdiv x y) = false.
Proof.
  intros Hx Hy Hnx Hpy Hle. destruct y as [| | |[] m2 e2]; try done. destruct x as [s|[]| |[] m1 e1]; try done; try (by destruct s).
  destruct (flt (S754_finite false m1 e1) (S754_finite false m2 e2)) eqn:Hlt.
  - apply (flt_value _ _ _ _ Hx Hy) in Hlt. unfold fdiv, SFdiv, SFdiv_core_binary. cbn [xorb].
    pose proof (digits_bounds m1) as Hd1. pose proof (digits_bounds m2) as Hd2. cbn [Zdigits2].
    set (d1 := Z.pos (digits2_pos m1)) in *. set (d2 := Z.pos (digits2_pos m2)) in *.
    set (e := Z.min _ _). assert (Hde : d1 + e1 ≤ d2 + e2).
    { destruct Hlt as [[-> Hm]|(Hm & Hu & Hl)].
      - assert (d1 - 1 < d2); [apply (Z.pow_lt_mono_r_iff 2); lia|]. lia.
      - assert (d1 - 1 < 53) by (apply (Z.pow_lt_mono_r_iff 2); lia). assert (52 < d2) by (apply (Z.pow_lt_mono_r_iff 2); lia). lia. }
    assert (He : e ≤ -53 ∧ e ≤ e1 - e2) by (unfold e; rewrite fexp_max; lia).
    assert (Hm : Z.pos m1 * 2 ^ (e1 - e2 - e) < Z.pos m2 * 2 ^ (- e)).
    { destruct Hlt as [[-> Hm]|(Hm & Hu & Hl)].
      - replace (e2 - e2 - e) with (- e) by lia. apply Z.mul_lt_mono_pos_r; [|done]. apply Z.pow_pos_nonneg; lia.
      - replace (- e) with (e1 - e2 - e + (e2 - e1)) by lia. rewrite Z.pow_add_r by lia.
        assert (2 ^ 1 ≤ 2 ^ (e2 - e1)) by (apply Z.pow_le_mono_r; lia).
        assert (0 < 2 ^ (e1 - e2 - e)) by (apply Z.pow_pos_nonneg; lia).
        assert (Hb : Z.pos m1 < Z.pos m2 * 2 ^ (e2 - e1)) by nia.
        rewrite (Z.mul_comm (2 ^ (e1 - e2 - e))), Z.mul_assoc. by apply Z.mul_lt_mono_pos_r. }
    match goal with |- context [Z.div_eucl ?m _] => replace m with (Z.pos m1 * 2 ^ (e1 - e2 - e)) end.
    2: { destruct (e1 - e2 - e) as [|p|p] eqn:Es; [lia| |lia]. by rewrite Z.shiftl_mul_pow2 by lia. }
    pose proof (Z.div_lt_upper_bound (Z.pos m1 * 2 ^ (e1 - e2 - e)) (Z.pos m2) _ ltac:(lia) Hm) as Hq. unfold Z.div in Hq.
    pose proof (Z.div_pos (Z.pos m1 * 2 ^ (e1 - e2 - e)) (Z.pos m2) ltac:(apply Z.mul_nonneg_nonneg; [lia|apply Z.pow_nonneg; lia]) ltac:(lia)) as Hq0.
    unfold Z.div in Hq0. destruct (Z.div_eucl _ _) as [q r]. apply round_below_one; lia.
  - apply flt_false_fle in Hlt; [|done..]. pose proof (fle_antisym _ _ Hle Hlt) as Heq. apply feq_key in Heq; [|done..].
    injection Heq as -> ->. unfold fdiv, SFdiv, SFdiv_core_binary. cbn [xorb Zdigits2].
    rewrite !Z.sub_diag. change (Z.min (fexp 53 1024 0) 0) with (-53). change (0 - -53) with 53.
    rewrite Z.shiftl_mul_pow2 by lia. rewrite (Z.mul_comm (Z.pos m2)).
    pose proof (Z_div_mod (2 ^ 53 * Z.pos m2) (Z.pos m2) ltac:(lia)) as Hdm. destruct (Z.div_eucl _ _) as [q r].
    destruct Hdm as [Hdm Hr].
    assert (q = 2 ^ 53 ∧ r = 0) as [-> ->].
    { destruct (Z.div_mod_unique (Z.pos m2) q (2 ^ 53) r 0) as [? ?]; [left; lia..|lia|done]. }
    assert (Hl : new_location (Z.pos m2) 0 = loc_Exact) by (unfold new_location; by destruct (Z.even _)).
    rewrite Hl. by vm_compute.
Qed.

(** ** Rounding off the grid *)

(** Rounding a truncated value with its location, aligned at or below its grid. *)
Lemma round_canon s m e l : 0 < m → e ≤ fexp 53 1024 (Zdigits2 m + e) → canon (binary_round_aux 53 1024 s m e l) = true.
Proof.
  intros Hm He. destruct (digits_nonneg m) as [Hd _]; [lia|]. destruct m as [|mp|mp]; [lia| |lia].
  pose proof (digits_bounds mp) as [Hlow _]. unfold binary_round_aux. destruct (shr_fexp_shift (Z.pos mp) e l) as [Hm1 He1]; [lia|].
  cbn [Zdigits2] in *. set (d := Z.pos (digits2_pos mp)) in *. set (f := fexp 53 1024 (d + e)) in *. rewrite Z.max_r in Hm1, He1 by lia.
  set (k := f - e) in *. destruct (shr_fexp 53 1024 (Z.pos mp) e l) as [r1 e1]. cbn [fst snd] in *.
  pose proof (round_nearest_even_bounds (shr_m r1) (loc_of_shr_record r1)) as Hr. rewrite Hm1 in *.
  set (q := Z.pos mp / 2 ^ k) in *. set (m1 := round_nearest_even q _) in *.
  assert (Hf : f = d + e - 53 ∧ -1074 ≤ f ∨ f = -1074 ∧ d + e - 53 ≤ f) by (unfold f; rewrite fexp_max; lia).
  assert (Hq : 0 ≤ q < 2 ^ 53).
  { split; [apply Z.div_pos; lia|]. apply Z.div_lt_upper_bound; [lia|].
    rewrite <- Z.pow_add_r by lia. eapply Z.lt_le_trans; [exact Hd|]. apply Z.pow_le_mono_r; lia. }
  assert (Hq2 : -1074 < f → 2 ^ 52 ≤ q).
  { intros. apply Z.div_le_lower_bound; [lia|]. rewrite <- Z.pow_add_r by lia. eapply Z.le_trans; [|exact Hlow]. apply Z.pow_le_mono_r; lia. }
  replace e1 with f by lia. clearbody m1. destruct m1 as [|p|p]; [| |lia].
  - destruct (shr_fexp_shift 0 f loc_Exact) as [Hz _]; [lia|]. destruct (shr_fexp 53 1024 0 f loc_Exact) as [r2 e2]. cbn [fst] in Hz. by rewrite Hz.
  - destruct (renormalise p f) as (m' & e' & H1 & H2 & H3 & H4); [lia..|]. destruct (shr_fexp 53 1024 (Z.pos p) f loc_Exact) as [r2 e2].
    cbn [fst snd] in *. rewrite H1, H2. destruct (e' <=? _) eqn:E'; [|done]. unfold canon. apply andb_true_iff. split; [by apply bool_decide_eq_true|done].
Qed.

Lemma fsqrt_canon x : canon (fsqrt x) = true.
Proof.
  destruct x as [s|[]| |[] m e]; try done. unfold fsqrt, SFsqrt, SFsqrt_core_binary. cbn [Zdigits2].
  pose proof (digits_bounds m) as [Hd _]. set (d := Z.pos (digits2_pos m)) in *. set (e' := Z.min _ _).
  assert (He : e' ≤ fexp 53 1024 (Z.div2 (d + e + 1)) ∧ 2 * e' ≤ e).
  { unfold e'. pose proof (Z.div2_odd e). destruct (Z.odd e); cbn in *; lia. }
  match goal with |- context [Z.sqrtrem ?m'] => replace m' with (Z.pos m * 2 ^ (e - 2 * e')) end.
  2: { destruct (e - 2 * e') as [|p|p] eqn:Es; [by rewrite Z.mul_1_r| |lia]. by rewrite Z.shiftl_mul_pow2 by lia. }
  set (m' := Z.pos m * _). assert (Hm' : 2 ^ (d - 1 + (e - 2 * e')) ≤ m').
  { rewrite Z.pow_add_r by lia. unfold m'. apply Z.mul_le_mono_nonneg_r; [apply Z.pow_nonneg; lia|exact Hd]. }
  pose proof (Z.sqrtrem_spec m') as Hs. destruct (Z.sqrtrem m') as [q r]. assert (0 < m') by (pose proof (Z.pow_pos_nonneg 2 (d - 1 + (e - 2 * e'))); lia).
  destruct Hs as [Hq Hr]; [lia|]. set (h := Z.div2 (d + e + 1) - e' - 1).
  assert (Hh : 2 * h ≤ d - 1 + (e - 2 * e')).
  { unfold h. pose proof (Z.div2_odd (d + e + 1)). destruct (Z.odd _); cbn in *; lia. }
  assert (Hq0 : 0 < q) by nia. apply round_canon; [done|]. destruct He as [He _]. etransitivity; [exact He|].
  assert (Hdq : Z.div2 (d + e + 1) ≤ Zdigits2 q + e'); [|rewrite !fexp_max; lia].
  destruct (decide (0 ≤ h)) as [Hh0|Hh0].
  - assert (Hqh : 2 ^ h ≤ q).
    { apply Z.lt_succ_r. destruct (decide (2 ^ h < Z.succ q)) as [|Hn]; [done|exfalso]. assert (q + 1 ≤ 2 ^ h) by lia.
      assert (2 ^ (2 * h) ≤ m') by (etransitivity; [apply Z.pow_le_mono_r; [lia|exact Hh]|done]).
      rewrite Z.pow_twice_r in *. nia. }
    destruct q as [|qp|qp]; [lia| |lia]. cbn [Zdigits2]. pose proof (digits_bounds qp) as [_ Hu].
    assert (h < Z.pos (digits2_pos qp)); [|unfold h in *; lia]. apply (Z.pow_lt_mono_r_iff 2); lia.
  - destruct q as [|qp|qp]; [lia| |lia]. cbn [Zdigits2]. unfold h in *. lia.
Qed.

(** ** Counting with sums *)

(** The value of a number that is not below an integer. *)
Lemma f_of_Z_le_value n m e b : 0 < n < 2 ^ 53 → canon (S754_finite false m e) = true → fle (f_of_Z n) (S754_finite false m e) = true →
  b ≤ e → b ≤ 0 → n * 2 ^ (- b) ≤ Z.pos m * 2 ^ (e - b).
Proof.
  intros Hn Hc Hle Hb Hb0. destruct (f_of_Z_exact n) as (mn & en & En & Hen & Hmn & Hcn); [done|]. rewrite En in Hle.
  pose proof (canon_bounds _ _ _ Hcn) as [Hb1 Hb2]. apply fle_klt in Hle; [|done..]. unfold klt in Hle. cbn [fkey fst snd] in Hle.
  set (c := Z.min b en). assert (H : n * 2 ^ (- c) ≤ Z.pos m * 2 ^ (e - c)).
  { replace (- c) with (- en + (en - c)) by lia. rewrite Z.pow_add_r by lia. rewrite Z.mul_assoc, <- Hmn.
    destruct (decide (en < e)) as [Hlt|Hge].
    - pose proof (canon_mantissa _ _ _ Hc) as Hm. replace (e - c) with (1 + (e - en - 1) + (en - c)) by lia. rewrite !Z.pow_add_r by lia.
      assert (1 ≤ 2 ^ (e - en - 1)) by (apply (Z.pow_le_mono_r 2 0); lia). assert (0 < 2 ^ (en - c)) by lia.
      assert (Z.pos mn ≤ Z.pos m * (2 ^ 1 * 2 ^ (e - en - 1))) by nia. nia.
    - replace (e - c) with (en - c) by lia. apply Z.mul_le_mono_nonneg_r; lia. }
  replace (- c) with (- b + (b - c)) in H by lia. replace (e - c) with (e - b + (b - c)) in H by lia.
  rewrite !Z.pow_add_r, !Z.mul_assoc in H by lia. apply (Z.mul_le_mono_pos_r _ _ (2 ^ (b - c))) in H; [done|lia].
Qed.

(** Adding at least one to at least [n] gives at least [n + 1]. *)
Lemma fadd_count n x d : 0 ≤ n → n + 1 < 2 ^ 53 → canon x = true → canon d = true →
  fle (f_of_Z n) x = true → fle f1 d = true → fle (f_of_Z (n + 1)) (fadd x d) = true.
Proof.
  intros Hn Hn1 Hcx Hcd Hx Hd. destruct (f_of_Z_exact (n + 1)) as (mz & ez & Ez & Hez & Hmz & Hcz); [lia|].
  assert (Hdn : nonneg d = true) by (destruct d as [|[]| |[]]; done).
  destruct (decide (n = 0)) as [->|Hn0].
  { assert (nonneg x = true) by (destruct x as [|[]| |[]]; done). eapply fle_trans; [exact Hd|by apply fadd_ge_r]. }
  destruct (f_of_Z_exact n) as (mn & en & En & Hen & Hmn & Hcn); [lia|].
  destruct x as [sx|[]| |[] mx ex]; try (by rewrite En in Hx); [rewrite Ez; by destruct d as [|[]| |[]]|].
  destruct d as [sd|[]| |[] my ey]; try done; [by rewrite Ez|].
  destruct (fadd_round mx ex my ey) as (m & e & Er & He1 & He2 & Hm). rewrite Ez.
  destruct (decide (e ≤ ez)) as [Hle|Hgt].
  - rewrite Er. apply binary_round_ge; [done|done|]. rewrite Hm.
    pose proof (f_of_Z_le_value n mx ex e) as Hv. pose proof (f_of_Z_le_value 1 my ey e) as Hw.
    replace (Z.pos mz * 2 ^ (ez - e)) with ((n + 1) * 2 ^ (- e)).
    + assert (n * 2 ^ (- e) ≤ Z.pos mx * 2 ^ (ex - e)) by (apply Hv; (done || lia)).
      assert (1 * 2 ^ (- e) ≤ Z.pos my * 2 ^ (ey - e)) by (apply Hw; (done || lia)). lia.
    + rewrite Hmz, <- Z.mul_assoc, <- Z.pow_add_r by lia. do 2 f_equal. lia.
  - apply (fle_trans _ (S754_finite false mx ex)); [|by apply fadd_ge]. apply fle_klt; [done..|]. unfold klt. cbn [fkey fst snd]. lia.
Qed.
