(* ===== verification/GoFloatUpper.v ===== *)
(** * Rounding from above

    Rounding a value that is not above a canonical number gives nothing above it
    ([round_le]); so a product with a factor of at most one is at most the other factor
    ([fmul_le]), and rounding half up by adding one half and truncating stays within an
    integer that bounds the value ([trunc_half_le]).  Differences to a larger number are not
    positive ([fsub_notpos]). *)

From S2P Require Import Prelude GoFloat GoFloatRound GoFloatInt.
From Stdlib Require Import SpecFloat.

(** ** Products are canonical *)

Lemma fmul_number x m e : is_nan x = false → is_nan (fmul x (S754_finite false m e)) = false.
Proof.
  destruct x as [sx|sx| |sx mx ex]; try done. intros _. unfold fmul. cbn [SFmul].
  destruct (GoFloat.round_not_nan (xorb sx false) (Z.pos (mx * m)) (ex + e)) as [H|H]; [exact H|lia].
Qed.

(** The product of canonical mantissas is at or below its grid. *)
Lemma product_grid sx mx ex sy my ey : canon (S754_finite sx mx ex) = true → canon (S754_finite sy my ey) = true →
  ex + ey ≤ fexp 53 1024 (Z.pos (digits2_pos (mx * my)) + (ex + ey)).
Proof.
  intros Cx Cy. rewrite fexp_max. pose proof (canon_bounds _ _ _ Cx) as [Bx _]. pose proof (canon_bounds _ _ _ Cy) as [By _].
  destruct (decide (ex = -1074 ∧ ey = -1074)) as [[-> ->]|Hne]; [lia|].
  assert (Hm : 2 ^ 52 ≤ Z.pos (mx * my)).
  { destruct (decide (ex = -1074)) as [Ex|Ex].
    - destruct (canon_mantissa _ _ _ Cy) as [H _]; [lia|]. lia.
    - destruct (canon_mantissa _ _ _ Cx) as [H _]; [lia|]. lia. }
  pose proof (digits_bounds (mx * my)) as [_ Hd].
  assert (52 < Z.pos (digits2_pos (mx * my))); [|lia]. apply (Z.pow_lt_mono_r_iff 2); lia.
Qed.

Lemma fmul_canon x y : canon x = true → canon y = true → canon (fmul x y) = true.
Proof.
  destruct x as [sx|sx| |sx mx ex], y as [sy|sy| |sy my ey]; try done. intros Cx Cy. unfold fmul. cbn [SFmul]. apply round_canon; [lia|].
  cbn [Zdigits2]. by eapply product_grid.
Qed.

(** ** Integers *)

Lemma f_of_Z_shape k : k ≠ 0 → let s := k <? 0 in
  f_of_Z k = S754_infinity s ∨ f_of_Z k = S754_zero s ∨ ∃ m e, f_of_Z k = S754_finite s m e.
Proof.
  intros Hk. destruct k as [|p|p]; [done|..]; unfold f_of_Z, binary_normalize.
  - destruct (binary_round_cases false p 0) as [-> |[(_ & _ & ->)|(m' & e' & -> & _)]]; eauto.
  - destruct (binary_round_cases true p 0) as [-> |[(_ & _ & ->)|(m' & e' & -> & _)]]; eauto.
Qed.

Lemma f_of_Z_num k : is_nan (f_of_Z k) = false.
Proof. destruct (decide (k = 0)) as [->|Hk]; [done|]. by destruct (f_of_Z_shape k Hk) as [->|[->|(m & e & ->)]]. Qed.

(** ** Rounding *)

Definition exact_record (n : Z) : shr_record := {| shr_m := n; shr_r := false; shr_s := false |}.

Lemma shr_iter_exact p n : 0 < n → SpecFloat.iter_pos shr_1 p (exact_record (n * 2 ^ Z.pos p)) = exact_record n.
Proof.
  assert (H1 : ∀ n, 0 < n → shr_1 (exact_record (2 * n)) = exact_record n) by (intros [|k|k] Hk; [lia|done|lia]).
  revert n. induction p as [p IH|p IH|]; intros n Hn; cbn [SpecFloat.iter_pos].
  - replace (n * 2 ^ Z.pos p~1) with (2 * (n * 2 ^ Z.pos p * 2 ^ Z.pos p)) by (rewrite (Pos2Z.inj_xI p), (Z.pow_add_r 2 (2 * _)), Z.pow_twice_r by lia; lia).
    rewrite H1 by nia. rewrite IH by nia. by apply IH.
  - replace (n * 2 ^ Z.pos p~0) with (n * 2 ^ Z.pos p * 2 ^ Z.pos p) by (rewrite (Pos2Z.inj_xO p), Z.pow_twice_r by lia; lia).
    rewrite IH by nia. by apply IH.
  - replace (n * 2 ^ 1) with (2 * n) by lia. by apply H1.
Qed.

(** A value that is on its grid is not changed. *)
Lemma round_on_grid s m e q (f := fexp 53 1024 (Z.pos (digits2_pos m) + e)) :
  e ≤ f → f ≤ 971 → Z.pos m = Z.pos q * 2 ^ (f - e) → binary_round_aux 53 1024 s (Z.pos m) e loc_Exact = S754_finite s q f.
Proof.
  intros He Hf Hm. assert (Hd : Z.pos (digits2_pos m) = Z.pos (digits2_pos q) + (f - e)) by (apply digits_shift; [lia|done]).
  assert (E : shr_fexp 53 1024 (Z.pos m) e loc_Exact = (exact_record (Z.pos q), f)).
  { unfold shr_fexp. cbn [Zdigits2]. fold f. unfold shr. destruct (f - e) as [|n|n] eqn:En; [|cbn [shr_record_of_loc]|lia].
    - rewrite Z.mul_1_r in Hm. replace f with e by lia. injection Hm as ->. done.
    - fold (exact_record (Z.pos m)). rewrite Hm, shr_iter_exact by lia. f_equal. lia. }
  assert (Hg : fexp 53 1024 (Z.pos (digits2_pos q) + f) = f) by (unfold f at 2; f_equal; lia).
  rewrite <- (round_exact s q f Hg Hf). unfold binary_round_aux. rewrite E. unfold shr_fexp. cbn [Zdigits2]. by rewrite Hg, Z.sub_diag.
Qed.

(** Rounding goes to a neighbour on the grid. *)
Lemma round_value m e (f := fexp 53 1024 (Z.pos (digits2_pos m) + e)) (r := binary_round_aux 53 1024 false (Z.pos m) e loc_Exact) :
  e ≤ f → f ≤ 970 →
  ∃ p, Z.pos m / 2 ^ (f - e) ≤ p ≤ Z.pos m / 2 ^ (f - e) + 1 ∧
    (p = 0 ∧ r = S754_zero false ∨ ∃ m' e', r = S754_finite false m' e' ∧ canon r = true ∧ f ≤ e' ∧ Z.pos m' * 2 ^ (e' - f) = p).
Proof.
  intros He Hf970. set (d := Z.pos (digits2_pos m)) in *. pose proof (digits_bounds m) as Hd. fold d in Hd.
  subst r. unfold binary_round_aux. destruct (shr_fexp_shift (Z.pos m) e loc_Exact) as [Hm1 He1]; [lia|].
  cbn [Zdigits2] in Hm1, He1. fold d f in Hm1, He1. rewrite Z.max_r in Hm1, He1 by lia. set (k := f - e) in *.
  destruct (shr_fexp 53 1024 (Z.pos m) e loc_Exact) as [r1 e1]. cbn [fst snd] in *.
  pose proof (round_nearest_even_bounds (shr_m r1) (loc_of_shr_record r1)) as Hr. rewrite Hm1 in *.
  set (q := Z.pos m / 2 ^ k) in *. set (m1 := round_nearest_even q _) in *.
  assert (Hf : f = d + e - 53 ∧ -1074 ≤ f ∨ f = -1074 ∧ d + e - 53 ≤ f) by (unfold f; rewrite fexp_max; lia).
  assert (Hq : 0 ≤ q < 2 ^ 53).
  { split; [apply Z.div_pos; lia|]. apply Z.div_lt_upper_bound; [lia|].
    rewrite <- Z.pow_add_r by lia. eapply Z.lt_le_trans; [apply Hd|]. apply Z.pow_le_mono_r; lia. }
  assert (Hq2 : -1074 < f → 2 ^ 52 ≤ q).
  { intros. apply Z.div_le_lower_bound; [lia|]. rewrite <- Z.pow_add_r by lia.
    eapply Z.le_trans; [|apply Hd]. apply Z.pow_le_mono_r; lia. }
  replace e1 with f by lia. exists m1. split; [lia|]. clearbody m1. destruct m1 as [|p|p]; [left| |lia].
  - split; [done|]. destruct (shr_fexp_shift 0 f loc_Exact) as [Hz _]; [lia|].
    destruct (shr_fexp 53 1024 0 f loc_Exact) as [r2 e2]. cbn [fst] in Hz. by rewrite Hz.
  - right. destruct (renormalise p f) as (m' & e' & H1 & H2 & H3 & H4); [lia..|]. destruct (shr_fexp_shift (Z.pos p) f loc_Exact) as [S1 S2]; [lia|].
    destruct (shr_fexp 53 1024 (Z.pos p) f loc_Exact) as [r2 e2]. cbn [fst snd] in *. rewrite H1, H2.
    replace (e' <=? 1024 - 53) with true by lia. exists m', e'. split; [done|]. split; [apply andb_true_iff; split; [by apply bool_decide_eq_true|lia]|].
    destruct H4 as [[-> ->]| ->]; [split; [lia|]; rewrite Z.sub_diag; lia|]. split; [lia|]. replace (f + 1 - f) with 1 by lia.
    cbn [Zdigits2] in *. set (n := Z.max 0 _) in *. replace n with 1 in * by lia. rewrite H1 in S1. change (2 ^ 1) with 2 in *.
    pose proof (canon_mantissa false m' (f + 1)) as Hcm. assert (Hc : canon (S754_finite false m' (f + 1)) = true) by (apply andb_true_iff; split; [by apply bool_decide_eq_true|lia]).
    specialize (Hcm Hc ltac:(lia)). pose proof (Z.div_mod (Z.pos p) 2 ltac:(lia)). pose proof (Z.mod_pos_bound (Z.pos p) 2 ltac:(lia)). lia.
Qed.

(** The order of canonical numbers is that of their values. *)
Lemma flt_scaled mx ex my ey g : canon (S754_finite false mx ex) = true → canon (S754_finite false my ey) = true → g ≤ ex → g ≤ ey →
  flt (S754_finite false mx ex) (S754_finite false my ey) = true → Z.pos mx * 2 ^ (ex - g) < Z.pos my * 2 ^ (ey - g).
Proof.
  intros Cx Cy Hx Hy H. apply flt_klt in H; [|done..]. unfold klt in H. cbn [fkey fst snd] in H.
  destruct (decide (ex = ey)) as [->|Hne]; [nia|].
  pose proof (canon_bounds _ _ _ Cx) as [Bx Mx]. pose proof (canon_mantissa _ _ _ Cy ltac:(lia)) as My.
  replace (ey - g) with (1 + (ey - ex - 1) + (ex - g)) by lia. rewrite !Z.pow_add_r by lia.
  assert (Hb : 1 ≤ 2 ^ (ey - ex - 1)) by (apply (Z.pow_le_mono_r 2 0); lia). assert (Ha : 0 < 2 ^ (ex - g)) by lia.
  change (2 ^ 1) with 2. change (2 ^ 53) with (2 * 2 ^ 52) in Mx. generalize dependent (2 ^ (ey - ex - 1)). generalize dependent (2 ^ (ex - g)). intros a Ha b Hb.
  assert (Z.pos mx < Z.pos my * (2 * b)) by nia. nia.
Qed.

Lemma round_le mx ex m e (x := S754_finite false mx ex) :
  canon x = true → ex ≤ 970 → e ≤ fexp 53 1024 (Z.pos (digits2_pos m) + e) → e ≤ ex → Z.pos m ≤ Z.pos mx * 2 ^ (ex - e) →
  flt x (binary_round_aux 53 1024 false (Z.pos m) e loc_Exact) = false.
Proof.
  intros Cx Hex He Hle Hm. set (f := fexp 53 1024 _) in *. pose proof (digits_bounds mx) as Hdx. pose proof (digits_bounds m) as Hdm.
  assert (Hcx : ex = fexp 53 1024 (Z.pos (digits2_pos mx) + ex)) by (by apply andb_true_iff in Cx as [H%bool_decide_eq_true _]).
  assert (Hd : Z.pos (digits2_pos m) - 1 < Z.pos (digits2_pos mx) + (ex - e)).
  { apply (Z.pow_lt_mono_r_iff 2); [lia..|]. rewrite Z.pow_add_r by lia. nia. }
  assert (Hf : f ≤ ex) by (unfold f; rewrite fexp_max in *; lia).
  assert (Ex : 2 ^ (ex - e) = 2 ^ (ex - f) * 2 ^ (f - e)) by (rewrite <- Z.pow_add_r by lia; f_equal; lia).
  destruct (decide (Z.pos m = Z.pos mx * 2 ^ (ex - e))) as [Heq|Hneq].
  - assert (Hdm' : Z.pos (digits2_pos m) = Z.pos (digits2_pos mx) + (ex - e)) by (apply digits_shift; [lia|done]).
    assert (Hfe : f = ex) by (transitivity (fexp 53 1024 (Z.pos (digits2_pos mx) + ex)); [unfold f; f_equal; lia|done]).
    rewrite (round_on_grid false m e mx) by (fold f; rewrite ?Hfe; (done || lia)). fold f. rewrite Hfe. fold x. apply flt_irrefl.
  - destruct (round_value m e) as (p & Hp & Hr); [done|fold f; lia|]. fold f in Hp, Hr.
    assert (Hq : Z.pos m / 2 ^ (f - e) < Z.pos mx * 2 ^ (ex - f)) by (apply Z.div_lt_upper_bound; [lia|]; nia).
    destruct Hr as [[_ ->]|(m' & e' & Er & Cr & Hfe & Hv)]; [done|]. rewrite Er in *. destruct (flt x _) eqn:Hlt; [|done]. exfalso.
    apply (flt_scaled mx ex m' e' f) in Hlt; [lia|done|done|lia|lia].
Qed.

Lemma fle_scaled mx ex my ey g : canon (S754_finite false mx ex) = true → canon (S754_finite false my ey) = true → g ≤ ex → g ≤ ey →
  flt (S754_finite false my ey) (S754_finite false mx ex) = false → Z.pos mx * 2 ^ (ex - g) ≤ Z.pos my * 2 ^ (ey - g).
Proof.
  intros Cx Cy Hx Hy H. destruct (flt (S754_finite false mx ex) (S754_finite false my ey)) eqn:E.
  - apply flt_scaled with (g := g) in E; [lia|done..].
  - assert (Hk : ∀ a b, flt a b = false → is_nan a = false → is_nan b = false → ¬ klt (fkey a) (fkey b)) by (intros a b Hab Ha Hb Hkl; apply flt_klt in Hkl; congruence).
    apply Hk in H; [|done..]. apply Hk in E; [|done..]. unfold klt in H, E. cbn [fkey fst snd] in H, E. assert (ex = ey ∧ Z.pos mx = Z.pos my) as [-> ->] by lia. lia.
Qed.

Lemma binary_round_le mx ex m e (x := S754_finite false mx ex) :
  canon x = true → ex ≤ 970 → e ≤ ex → Z.pos m ≤ Z.pos mx * 2 ^ (ex - e) → flt x (binary_round 53 1024 false m e) = false.
Proof.
  intros Cx Hex Hle Hm. unfold binary_round. set (f := fexp 53 1024 (Z.pos (digits2_pos m) + e)). destruct (decide (e ≤ f)) as [Hf|Hf].
  - assert (E : shl_align m e f = (m, e)) by (unfold shl_align; destruct (f - e) eqn:?; [done..|lia]). rewrite E. by apply round_le.
  - destruct (shl_align_value m e f) as [H1 H2]; [lia|]. destruct (shl_align m e f) as [mz ez]. cbn [fst snd] in *. subst ez.
    assert (Hd : fexp 53 1024 (Z.pos (digits2_pos mz) + f) = f) by (rewrite (digits_shift m (e - f)) by (lia || done); unfold f at 2; f_equal; lia).
    apply round_le; [done|done|lia|lia|]. rewrite H1. replace (ex - f) with (ex - e + (e - f)) by lia. rewrite Z.pow_add_r by lia. nia.
Qed.

(** ** Products and halves *)

Lemma f1_eq : f1 = S754_finite false 4503599627370496 (-52).
Proof. vm_compute. reflexivity. Qed.

Lemma below_one m e : canon (S754_finite false m e) = true → fle (S754_finite false m e) f1 = true → e ≤ -52 ∧ Z.pos m ≤ 2 ^ (- e).
Proof.
  intros C H. rewrite f1_eq in H. apply fle_klt in H; [|done..]. unfold klt in H. cbn [fkey fst snd] in H. assert (He : e ≤ -52) by lia. split; [done|].
  assert (Z.pos m * 2 ^ (e - e) ≤ Z.pos 4503599627370496 * 2 ^ (-52 - e)) as Hv.
  { apply fle_scaled; [done|reflexivity|lia|lia|]. destruct (flt _ _) eqn:E; [|done]. apply flt_klt in E; [|done..]. unfold klt in E. cbn [fkey fst snd] in E. lia. }
  rewrite Z.sub_diag, Z.mul_1_r in Hv. change (Z.pos 4503599627370496) with (2 ^ 52) in Hv. rewrite <- Z.pow_add_r in Hv by lia. by replace (52 + (-52 - e)) with (- e) in Hv by lia.
Qed.

(** A factor of at most one does not enlarge. *)
Lemma fmul_le c my ey (y := S754_finite false my ey) : canon c = true → nonneg c = true → fle c f1 = true → canon y = true → ey ≤ 970 → flt y (fmul c y) = false.
Proof.
  intros Cc Hc Hle Cy Hey. destruct c as [sc|sc| |sc mc ec]; [by destruct sc|by destruct sc|done|]. destruct sc; [done|].
  destruct (below_one mc ec Cc Hle) as [He Hm]. unfold fmul, y. cbn [SFmul xorb]. apply round_le; [done|done|by eapply product_grid|lia|].
  replace (ey - (ec + ey)) with (- ec) by lia. nia.
Qed.

Definition half : f64 := S754_finite false 4503599627370496 (-53).

(** An integer and a half. *)
Lemma half_above n : 0 ≤ n < 2 ^ 52 → ∃ m e, canon (S754_finite false m e) = true ∧ -53 ≤ e ≤ 0 ∧ Z.pos m = (2 * n + 1) * 2 ^ (- e - 1) ∧ e ≤ -1.
Proof.
  intros Hn. destruct (f_of_Z_exact (2 * n + 1)) as (m & e & _ & He & Hm & Hc); [lia|]. pose proof (canon_bounds _ _ _ Hc) as [Hb Hm53].
  assert (-52 ≤ e). { assert (- e < 53); [|lia]. apply (Z.pow_lt_mono_r_iff 2); [lia..|]. nia. }
  exists m, (e - 1). split; [|split; [lia|split; [rewrite Hm; do 2 f_equal; lia|lia]]].
  unfold canon in *. apply andb_true_iff in Hc as [Hc%bool_decide_eq_true _]. apply andb_true_iff. split; [|lia]. apply bool_decide_eq_true. rewrite fexp_max in *. lia.
Qed.

(** Rounding half up by adding one half and truncating keeps an integral bound. *)
Lemma trunc_half_le x n : canon x = true → nonneg x = true → 0 ≤ n < 2 ^ 52 → flt (f_of_Z n) x = false → 0 ≤ f_trunc (fadd x half) ≤ n.
Proof.
  intros Cx Hx Hn Hle. destruct (half_above n Hn) as (m1 & e1 & C1 & He1 & Hm1 & He1').
  assert (Hadd : fadd x half = half ∨ ∃ r, fadd x half = r ∧ canon r = true ∧ nonneg r = true ∧ flt (S754_finite false m1 e1) r = false).
  { destruct x as [sx|[]| |[] mx ex]; [left; by destruct sx|done| |done|done|].
    { exfalso. destruct (decide (n = 0)) as [->|]; [done|]. destruct (f_of_Z_exact n) as (mn & en & En & _); [lia|]. by rewrite En in Hle. }
    right. eexists. split; [reflexivity|]. split; [by apply fadd_canon|]. split; [by apply fadd_nonneg|].
    destruct (decide (n = 0)) as [->|Hn0]; [done|]. destruct (f_of_Z_exact n) as (mn & en & En & Hen & Hmn & Cn); [lia|]. rewrite En in Hle.
    unfold half. destruct (fadd_round mx ex 4503599627370496 (-53)) as (m & e & -> & H1 & H2 & Hm). apply binary_round_le; [done|lia|lia|].
    assert (Hmn53 : Z.pos mn < 2 ^ 53) by (by eapply canon_bounds). assert (-52 ≤ en) by (assert (- en < 53); [apply (Z.pow_lt_mono_r_iff 2); [lia..|]; nia|lia]).
    pose proof (fle_scaled mx ex mn en e Cx Cn H1 ltac:(lia) Hle) as Hv. rewrite Hm. rewrite Hmn, <- Z.mul_assoc, <- Z.pow_add_r in Hv by lia.
    replace (- en + (en - e)) with (1 + (- e - 1)) in Hv by lia. rewrite Z.pow_add_r in Hv by lia.
    change (Z.pos 4503599627370496) with (2 ^ 52). rewrite <- Z.pow_add_r by lia. replace (52 + (-53 - e)) with (- e - 1) by lia.
    rewrite Hm1, <- Z.mul_assoc, <- Z.pow_add_r by lia. replace (- e1 - 1 + (e1 - e)) with (- e - 1) by lia. lia. }
  destruct Hadd as [->|(r & -> & Cr & Hr & Hlt)]; [change (f_trunc half) with 0; lia|].
  destruct r as [s|[]| |[] m e]; [cbn; lia|done|done|done|done|].
  set (g := Z.min e e1). pose proof (fle_scaled m e m1 e1 g Cr C1 ltac:(lia) ltac:(lia) Hlt) as Hv. rewrite Hm1, <- Z.mul_assoc, <- Z.pow_add_r in Hv by lia.
  replace (- e1 - 1 + (e1 - g)) with (- g - 1) in Hv by lia. assert (Hz : 0 ≤ (if 0 <=? e then Z.pos m * 2 ^ e else Z.pos m / 2 ^ (- e)) ≤ n).
  { destruct (0 <=? e) eqn:E.
    - replace (e - g) with (e + 1 + (- g - 1)) in Hv by lia. rewrite Z.pow_add_r in Hv by lia. assert (0 < 2 ^ (- g - 1)) by lia. rewrite (Z.pow_add_r 2 e 1) in Hv by lia. change (2 ^ 1) with 2 in Hv. nia.
    - split; [apply Z.div_pos; lia|]. assert (Z.pos m / 2 ^ (- e) < n + 1); [|lia]. apply Z.div_lt_upper_bound; [lia|].
      assert (Hp : 2 ^ (- e) * 2 ^ (e - g) = 2 * 2 ^ (- g - 1)) by (rewrite <- Z.pow_add_r, <- (Z.pow_succ_r 2) by lia; f_equal; lia).
      assert (0 < 2 ^ (e - g)) by lia. assert (0 < 2 ^ (- g - 1)) by lia. nia. }
  unfold f_trunc. rewrite bool_decide_true by lia. done.
Qed.

(** ** A difference that is not positive *)

Definition notpos (x : f64) : bool := match x with S754_finite s _ _ | S754_infinity s => s | S754_zero _ => true | S754_nan => true end.

Lemma notpos_flt a x : nonneg a = true → notpos x = true → flt a x = false.
Proof. destruct a as [[]|[]| |[]], x as [[]|[]| |[]]; done. Qed.

Lemma round_notpos mx ex lx : notpos (binary_round_aux 53 1024 true mx ex lx) = true.
Proof.
  unfold binary_round_aux. destruct (shr_fexp 53 1024 mx ex lx) as [mrs e].
  destruct (shr_fexp 53 1024 _ e loc_Exact) as [mrs' e']. destruct (shr_m mrs'); [done| |done]. by destruct (e' <=? _).
Qed.

Lemma normalize_notpos m e : m ≤ 0 → notpos (binary_normalize 53 1024 m e false) = true.
Proof.
  intros H. unfold binary_normalize, binary_round. destruct m; [done|lia|]. destruct (shl_align _ _ _). apply round_notpos.
Qed.

(** For canonical numbers that are not negative, the difference to a larger one is not
    positive. *)
Lemma fsub_notpos x y : canon x = true → canon y = true → nonneg x = true → ffin y = true → fle x y = true → notpos (fsub x y) = true.
Proof.
  intros Cx Cy Hx Hy Hle. destruct x as [sx|[]| |[] mx ex], y as [sy|[]| |[] my ey]; try discriminate; try done; try (by destruct sx, sy).
  apply fle_klt in Hle; [|done..]. unfold klt in Hle. cbn [fkey fst snd] in Hle. unfold fsub. cbn [SFsub]. apply normalize_notpos. cbn [cond_Zopp].
  assert (He : ex ≤ ey) by lia. rewrite Z.min_l by lia.
  destruct (shl_align_value mx ex ex) as [-> _]; [lia|]. destruct (shl_align_value my ey ex) as [-> _]; [lia|]. rewrite Z.sub_diag, Z.mul_1_r.
  destruct (decide (ex = ey)) as [->|Hne]; [rewrite Z.sub_diag; lia|].
  pose proof (canon_bounds _ _ _ Cx) as [Hbx Hmx]. destruct (canon_mantissa _ _ _ Cy) as [Hmy _]; [lia|].
  assert (2 ^ 1 ≤ 2 ^ (ey - ex)) by (apply Z.pow_le_mono_r; lia). change (2 ^ 1) with 2 in *. change (2 ^ 52) with 4503599627370496 in *. change (2 ^ 53) with 9007199254740992 in *. nia.
Qed.

(** ** One less a number *)

Lemma one_minus_low v : is_nan v = false → fle v f0 = true → fle f1 (fsub f1 v) = true.
Proof.
  intros Hn Hle. rewrite f1_eq. destruct v as [[]|[]| |[] m e]; try done; try (by rewrite <- f1_eq; vm_compute).
  assert (E : ∀ m1 e1, fsub (S754_finite false m1 e1) (S754_finite true m e) = fadd (S754_finite false m1 e1) (S754_finite false m e)).
  { intros m1 e1. unfold fsub, fadd. cbn [SFsub SFadd cond_Zopp]. by rewrite Z.sub_opp_r. }
  rewrite E. by apply fadd_ge.
Qed.

Lemma one_minus_high v : canon v = true → fle f1 v = true → is_nan (fsub f1 v) = false → fle (fsub f1 v) f0 = true.
Proof.
  intros Cv Hle Hn. assert (Hp : notpos (fsub f1 v) = true).
  { destruct (ffin v) eqn:Hf; [apply fsub_notpos; done|]. rewrite f1_eq in *. by destruct v as [|[]| |[]]. }
  by destruct (fsub f1 v) as [[]|[]| |[]].
Qed.
