(* ===== verification/GoStrings.v ===== *)
(** * Go strings

    The functions of packages [strings], [strconv] and [unicode] that the
    modelled code calls, on byte strings: [strings.Split] on a one-byte
    separator, [HasPrefix], [HasSuffix], [TrimSpace], [ReplaceAll],
    [IndexByte], [Index], [LastIndexByte], [Trim], [Fields], [ToUpper], [strconv.Itoa] and [strconv.ParseInt].  Letter
    case and white space are those of the ASCII range. *)

From S2P Require Import Prelude.
From Stdlib Require Import Ascii String.

(** A byte of a string as an integer. *)
Definition byte_of (c : ascii) : Z := Z.of_N (N_of_ascii c).
Definition ascii_of (z : Z) : ascii := ascii_of_N (Z.to_N z).

(** ** Searching and splitting *)

(** [strings.Split(s, sep)] for a separator of one byte. *)
Fixpoint Split (sep : ascii) (s : string) : list string :=
  match s with
  | EmptyString => [EmptyString]
  | String c s' =>
      if Ascii.eqb c sep then EmptyString :: Split sep s'
      else match Split sep s' with
           | [] => [String c EmptyString]
           | w :: ws => String c w :: ws
           end
  end.

(** [strings.Join(ws, sep)] for a separator of one byte. *)
Fixpoint Join (sep : ascii) (ws : list string) : string :=
  match ws with
  | [] => EmptyString
  | [w] => w
  | w :: ws' => (w ++ String sep (Join sep ws'))%string
  end.

Fixpoint has_char (c : ascii) (s : string) : bool :=
  match s with
  | EmptyString => false
  | String d s' => Ascii.eqb d c || has_char c s'
  end.

Definition HasPrefix (s p : string) : bool := String.prefix p s.

Fixpoint rev_string_onto (s acc : string) : string :=
  match s with
  | EmptyString => acc
  | String c s' => rev_string_onto s' (String c acc)
  end.
Definition rev_string (s : string) : string := rev_string_onto s EmptyString.

Definition HasSuffix (s p : string) : bool := String.prefix (rev_string p) (rev_string s).

(** [strings.IndexByte], -1 when absent. *)
Fixpoint index_byte_from (i : Z) (c : ascii) (s : string) : Z :=
  match s with
  | EmptyString => -1
  | String d s' => if Ascii.eqb d c then i else index_byte_from (i + 1) c s'
  end.
Definition IndexByte (s : string) (c : ascii) : Z := index_byte_from 0 c s.

(** [s[n:]] for a position inside the string. *)
Fixpoint drop_string (n : nat) (s : string) : string :=
  match n, s with
  | O, _ => s
  | S n', String _ s' => drop_string n' s'
  | S _, EmptyString => EmptyString
  end.

(** [strings.ReplaceAll(s, old, new)] for a non-empty [old]: after a match the
    scan resumes behind it, which [skip] counts. *)
Fixpoint replace_from (skip : nat) (old new s : string) : string :=
  match s with
  | EmptyString => EmptyString
  | String c s' =>
      match skip with
      | S k => replace_from k old new s'
      | O => if String.prefix old s
             then (new ++ replace_from (String.length old - 1) old new s')%string
             else String c (replace_from 0 old new s')
      end
  end.
Definition ReplaceAll (s old new : string) : string := replace_from 0 old new s.

(** ** Characters *)

Definition is_space (c : ascii) : bool :=
  let n := byte_of c in (n =? 32) || ((9 <=? n) && (n <=? 13)).
Definition is_digit (c : ascii) : bool :=
  let n := byte_of c in (48 <=? n) && (n <=? 57).
(** [unicode.IsNumber(rune(b))] for one byte: the digits and the Latin-1
    superscripts and fractions. *)
Definition is_number (c : ascii) : bool :=
  let n := byte_of c in
  is_digit c || (n =? 178) || (n =? 179) || (n =? 185) || ((188 <=? n) && (n <=? 190)).

Definition upper_char (c : ascii) : ascii :=
  let n := byte_of c in
  if (97 <=? n) && (n <=? 122) then ascii_of (n - 32) else c.
Fixpoint ToUpper (s : string) : string :=
  match s with
  | EmptyString => EmptyString
  | String c s' => String (upper_char c) (ToUpper s')
  end.

(** [strings.ToLower] on ASCII text. *)
Definition lower_char (c : ascii) : ascii :=
  let n := byte_of c in if (65 <=? n) && (n <=? 90) then ascii_of (n + 32) else c.
Fixpoint ToLower (s : string) : string :=
  match s with EmptyString => EmptyString | String c s' => String (lower_char c) (ToLower s') end.

Fixpoint trim_left (s : string) : string :=
  match s with
  | EmptyString => EmptyString
  | String c s' => if is_space c then trim_left s' else s
  end.
Definition TrimSpace (s : string) : string :=
  rev_string (trim_left (rev_string (trim_left s))).

(** [strings.TrimLeft] and [strings.Trim] for a set of bytes. *)
Fixpoint TrimLeft (cut : ascii → bool) (s : string) : string :=
  match s with
  | EmptyString => EmptyString
  | String c s' => if cut c then TrimLeft cut s' else s
  end.
Definition Trim (cut : ascii → bool) (s : string) : string :=
  rev_string (TrimLeft cut (rev_string (TrimLeft cut s))).

(** [strings.Fields]: the maximal runs without white space. *)
Fixpoint Fields (s : string) : list string :=
  match s with
  | EmptyString => []
  | String c s' =>
      if is_space c then Fields s'
      else match s' with
           | EmptyString => [String c EmptyString]
           | String d _ =>
               if is_space d then String c EmptyString :: Fields s'
               else match Fields s' with
                    | w :: ws => String c w :: ws
                    | [] => [String c EmptyString]
                    end
           end
  end.

(** [strings.Index(s, sub)], -1 when absent. *)
Fixpoint index_from (i : Z) (sub s : string) : Z :=
  if HasPrefix s sub then i
  else match s with EmptyString => -1 | String _ s' => index_from (i + 1) sub s' end.
Definition Index (s sub : string) : Z := index_from 0 sub s.

(** [strings.LastIndexByte]. *)
Fixpoint last_index_from (i : Z) (last : Z) (c : ascii) (s : string) : Z :=
  match s with
  | EmptyString => last
  | String d s' => last_index_from (i + 1) (if Ascii.eqb d c then i else last) c s'
  end.
Definition LastIndexByte (s : string) (c : ascii) : Z := last_index_from 0 (-1) c s.

Fixpoint take_string (n : nat) (s : string) : string :=
  match n, s with
  | S n, String c s' => String c (take_string n s')
  | _, _ => EmptyString
  end.

Definition slen (s : string) : Z := Z.of_nat (String.length s).

(** [s[lo:hi]]. *)
Definition slice_string (s : string) (lo hi : Z) : go string :=
  if (0 <=? lo) && (lo <=? hi) && (hi <=? slen s)
  then Ret (take_string (Z.to_nat (hi - lo)) (drop_string (Z.to_nat lo) s))
  else Panic "slice bounds out of range".

(** ** Numbers *)

Definition digit_char (d : Z) : ascii := ascii_of (48 + d).

(** Decimal digits of a non-negative integer, most significant first. *)
Fixpoint digits_onto (fuel : nat) (n : Z) (acc : string) : string :=
  match fuel with
  | O => acc
  | S fuel' =>
      let acc' := String (digit_char (n mod 10)) acc in
      if n <? 10 then acc' else digits_onto fuel' (n / 10) acc'
  end.
Definition udec (n : Z) : string := digits_onto (S (Z.to_nat (Z.log2 n))) n EmptyString.

(** [strconv.Itoa] and [strconv.FormatInt(_, 10)]. *)
Definition Itoa (n : Z) : string :=
  if n <? 0 then String "-" (udec (- n)) else udec n.

Inductive num_error := ErrSyntax | ErrRange.

(** The digit loop of [strconv.ParseUint(s, 10, 64)]: an overflow is reported
    as soon as it happens, before a later bad character is seen. *)
Fixpoint parse_digits (n : Z) (s : string) : num_error + Z :=
  match s with
  | EmptyString => inr n
  | String c s' =>
      if is_digit c then
        let n1 := n * 10 + (byte_of c - 48) in
        if bool_decide (2 ^ 64 ≤ n1) then inl ErrRange else parse_digits n1 s'
      else inl ErrSyntax
  end.

Definition ParseUint (s : string) : num_error + Z :=
  match s with EmptyString => inl ErrSyntax | _ => parse_digits 0 s end.

(** [strconv.ParseInt(s, 10, bits)]: the value, clamped on a range error and 0
    on a syntax error, and the error. *)
Definition ParseInt (bits : Z) (s : string) : Z * option num_error :=
  let '(neg, body) :=
    match s with
    | String "+" t => (false, t)
    | String "-" t => (true, t)
    | _ => (false, s)
    end in
  let cutoff := 2 ^ (bits - 1) in
  match ParseUint body with
  | inl ErrSyntax => (0, Some ErrSyntax)
  | inl ErrRange => (if neg then - cutoff else cutoff - 1, Some ErrRange)
  | inr un =>
      if negb neg && (cutoff <=? un) then (cutoff - 1, Some ErrRange)
      else if neg && (cutoff <? un) then (- cutoff, Some ErrRange)
      else (if neg then - un else un, None)
  end.

(** [strconv.Atoi] on a 64-bit target. *)
Definition Atoi (s : string) : Z * option num_error := ParseInt 64 s.

(** ** Lemmas *)

Lemma Split_nonempty sep s : Split sep s ≠ [].
Proof. destruct s as [|c s]; simpl; [done|]. repeat case_match; done. Qed.

Lemma Split_nosep sep w : has_char sep w = false → Split sep w = [w].
Proof.
  induction w as [|c w IH]; simpl; [done|]. intros [Hc Hw]%orb_false_iff.
  rewrite Hc. by rewrite IH.
Qed.

Lemma Split_app_sep sep w s :
  has_char sep w = false → Split sep (w ++ String sep s) = w :: Split sep s.
Proof.
  induction w as [|c w IH]; simpl; intros Hw.
  - by rewrite Ascii.eqb_refl.
  - apply orb_false_iff in Hw as [Hc Hw]. rewrite Hc. by rewrite IH.
Qed.

(** Splitting undoes joining when no word holds the separator. *)
Lemma Split_Join sep ws :
  ws ≠ [] → Forall (λ w, has_char sep w = false) ws → Split sep (Join sep ws) = ws.
Proof.
  induction ws as [|w ws IH]; intros Hne Hws; [done|]. inversion_clear Hws.
  destruct ws as [|w' ws]; [by apply Split_nosep|].
  change (Join sep (w :: w' :: ws)) with (w ++ String sep (Join sep (w' :: ws)))%string.
  rewrite Split_app_sep by done. by rewrite IH.
Qed.

(** Joining undoes splitting. *)
Lemma Join_Split sep s : Join sep (Split sep s) = s.
Proof.
  induction s as [|c s IH]; [done|]. simpl.
  destruct (Ascii.eqb_spec c sep) as [->|Hne].
  - pose proof (Split_nonempty sep s).
    destruct (Split sep s) as [|w ws] eqn:E; [done|].
    change (String sep (Join sep (w :: ws)) = String sep s). by rewrite IH.
  - destruct (Split sep s) as [|w ws] eqn:E; [by apply Split_nonempty in E|].
    destruct ws as [|w' ws]; simpl in IH |- *. { by f_equal. }
    rewrite <- IH. reflexivity.
Qed.

Lemma digit_char_byte d : 0 ≤ d < 10 → byte_of (digit_char d) = 48 + d.
Proof.
  intros. apply Z.eqb_eq.
  by_evaluation 10%nat (λ d, byte_of (digit_char d) =? 48 + d) d.
Qed.

Lemma digit_char_is_digit d : 0 ≤ d < 10 → is_digit (digit_char d) = true.
Proof. intros. unfold is_digit. rewrite digit_char_byte by done. lia. Qed.

(** Reading back the digits of [n] onto a suffix continues with [n]. *)
Lemma parse_digits_onto fuel n acc m :
  0 ≤ n < 2 ^ 64 → (Z.log2 n < Z.of_nat fuel) → 0 ≤ m →
  ∃ p, 0 < p ∧ (m * p + n < 2 ^ 64 →
    parse_digits m (digits_onto fuel n acc) = parse_digits (m * p + n) acc).
Proof.
  revert n acc m. induction fuel as [|fuel IH]; intros n acc m Hn Hf Hm.
  { pose proof (Z.log2_nonneg n). lia. }
  assert (Hd : 0 ≤ n mod 10 < 10) by (apply Z.mod_pos_bound; lia).
  assert (Hstep : ∀ k, 0 ≤ k → k * 10 + n mod 10 < 2 ^ 64 →
    parse_digits k (String (digit_char (n mod 10)) acc) = parse_digits (k * 10 + n mod 10) acc).
  { intros k Hk Hlt. cbn [parse_digits]. rewrite digit_char_is_digit, digit_char_byte by done.
    rewrite bool_decide_false by lia. f_equal. lia. }
  simpl. destruct (Z.ltb_spec n 10) as [Hlt|Hge].
  - exists 10. split; [lia|]. intros Hb. rewrite Z.mod_small in Hstep |- * by lia.
    by apply Hstep.
  - destruct (IH (n / 10) (String (digit_char (n mod 10)) acc) m) as (p & Hp & IHp).
    + dlia.
    + assert (Z.log2 (n / 10) < Z.log2 n); [|lia].
      assert (n / 10 ≤ n / 2) by (apply Z.div_le_compat_l; lia).
      pose proof (Z.log2_le_mono (n / 10) (n / 2) ltac:(lia)).
      assert (Z.log2 (n / 2) < Z.log2 n); [|lia].
      rewrite <- Z.div2_div, Z.div2_spec, Z.log2_shiftr by lia.
      assert (1 ≤ Z.log2 n) by (apply (Z.log2_le_mono 2 n); lia). lia.
    + done.
    + exists (p * 10). split; [lia|]. intros Hb.
      assert (Hn' : n = n / 10 * 10 + n mod 10) by dlia.
      rewrite IHp by nia. rewrite Hstep; [f_equal; nia| |]; nia.
Qed.

Lemma parse_udec n : 0 ≤ n < 2 ^ 64 → parse_digits 0 (udec n) = inr n.
Proof.
  intros Hn. unfold udec.
  destruct (parse_digits_onto (S (Z.to_nat (Z.log2 n))) n EmptyString 0) as (p & _ & H);
    [done| |done|].
  { pose proof (Z.log2_nonneg n). lia. }
  by rewrite H by lia.
Qed.

(** A decimal rendering is a non-empty string of digits. *)
Lemma digits_onto_head fuel n acc :
  (0 < fuel)%nat → ∃ d s, 0 ≤ d < 10 ∧ digits_onto fuel n acc = String (digit_char d) s.
Proof.
  revert n acc. induction fuel as [|fuel IH]; intros n acc Hf; [lia|]. simpl.
  assert (0 ≤ n mod 10 < 10) by (apply Z.mod_pos_bound; lia).
  case_match; [eauto|]. destruct fuel; [simpl; eauto|]. apply IH. lia.
Qed.

(** [strconv.ParseInt] reads back what [strconv.Itoa] prints. *)
Lemma ParseInt_Itoa n : - 2 ^ 63 ≤ n < 2 ^ 63 → ParseInt 64 (Itoa n) = (n, None).
Proof.
  intros Hn. unfold Itoa, ParseInt.
  assert (Hsign : ∀ d s, 0 ≤ d < 10 →
    match String (digit_char d) s with
    | String "+" t => (false, t) | String "-" t => (true, t)
    | _ => (false, String (digit_char d) s) end = (false, String (digit_char d) s)).
  { intros d s Hd. assert (d = 0 ∨ d = 1 ∨ d = 2 ∨ d = 3 ∨ d = 4 ∨ d = 5 ∨ d = 6 ∨ d = 7
      ∨ d = 8 ∨ d = 9) as Hc by lia. by destruct_or! Hc; subst. }
  destruct (Z.ltb_spec n 0).
  - assert (ParseUint (udec (- n)) = inr (- n)) as ->.
    { destruct (digits_onto_head (S (Z.to_nat (Z.log2 (- n)))) (- n) EmptyString)
        as (d & s & _ & Hs); [lia|].
      pose proof (parse_udec (- n) ltac:(lia)) as Hp. unfold ParseUint, udec in *.
      by rewrite Hs in *. }
    change (2 ^ (64 - 1)) with (2 ^ 63). simpl negb. cbn [andb].
    destruct (Z.ltb_spec (2 ^ 63) (- n)); [lia|]. f_equal. lia.
  - destruct (digits_onto_head (S (Z.to_nat (Z.log2 n))) n EmptyString)
      as (d & s & Hd & Hs); [lia|].
    pose proof (parse_udec n ltac:(lia)) as Hp. unfold udec in *. rewrite Hs in *.
    rewrite Hsign by done. unfold ParseUint. rewrite Hp.
    change (2 ^ (64 - 1)) with (2 ^ 63). simpl negb. cbn [andb].
    by destruct (Z.leb_spec (2 ^ 63) n); [lia|].
Qed.

(** ** Character classes of whole strings *)

Fixpoint all_chars (f : ascii → bool) (s : string) : bool :=
  match s with EmptyString => true | String c s' => f c && all_chars f s' end.

Definition no_space (s : string) : bool := all_chars (λ c, negb (is_space c)) s.

Lemma all_chars_app f s t : all_chars f (s ++ t) = all_chars f s && all_chars f t.
Proof.
  induction s as [|c s IH]; [done|]. change (String c s ++ t)%string with (String c (s ++ t)).
  simpl. by rewrite IH, andb_assoc.
Qed.

Lemma all_chars_impl (f g : ascii → bool) s :
  (∀ c, f c = true → g c = true) → all_chars f s = true → all_chars g s = true.
Proof.
  intros Hfg. induction s as [|c s IH]; simpl; [done|].
  intros [Hc Hs]%andb_true_iff. by rewrite Hfg, IH.
Qed.

Lemma has_char_all_chars c s :
  all_chars (λ d, negb (Ascii.eqb d c)) s = true → has_char c s = false.
Proof.
  induction s as [|d s IH]; simpl; [done|]. intros [Hd Hs]%andb_true_iff.
  apply negb_true_iff in Hd. by rewrite Hd, IH.
Qed.

Lemma has_char_app c s t : has_char c (s ++ t) = has_char c s || has_char c t.
Proof.
  induction s as [|d s IH]; [done|]. change (String d s ++ t)%string with (String d (s ++ t)).
  simpl. by rewrite IH, orb_assoc.
Qed.

(** The characters of a decimal number. *)
Definition num_char (c : ascii) : bool := is_digit c || Ascii.eqb c "-".

Lemma digits_onto_num fuel n acc :
  all_chars num_char acc = true → all_chars num_char (digits_onto fuel n acc) = true.
Proof.
  revert n acc. induction fuel as [|fuel IH]; intros n acc Hacc; [done|]. simpl.
  assert (num_char (digit_char (n mod 10)) = true).
  { unfold num_char. rewrite digit_char_is_digit; [done|]. apply Z.mod_pos_bound. lia. }
  case_match; [|apply IH]; simpl; by rewrite Hacc, andb_true_r.
Qed.

Lemma Itoa_num n : all_chars num_char (Itoa n) = true.
Proof.
  unfold Itoa, udec. case_match; [|by apply digits_onto_num].
  apply andb_true_iff. split; [done|by apply digits_onto_num].
Qed.

Lemma Itoa_nonempty n : Itoa n ≠ EmptyString.
Proof.
  unfold Itoa, udec. case_match; [done|].
  by destruct (digits_onto_head (S (Z.to_nat (Z.log2 n))) n EmptyString ltac:(lia))
    as (d & s & _ & ->).
Qed.

Lemma num_char_not c d : num_char c = true → num_char d = false → Ascii.eqb c d = false.
Proof. intros Hc Hd. apply Ascii.eqb_neq. congruence. Qed.

Lemma Itoa_has_char c n : num_char c = false → has_char c (Itoa n) = false.
Proof.
  intros Hc. apply has_char_all_chars. eapply all_chars_impl; [|apply Itoa_num].
  intros d Hd. simpl. by rewrite (num_char_not d c).
Qed.

Lemma Itoa_no_space n : no_space (Itoa n) = true.
Proof.
  eapply all_chars_impl; [|apply Itoa_num]. intros c. unfold num_char. intros Hc.
  assert (H : all_below 256 (λ z, implb (is_digit (ascii_of z) || Ascii.eqb (ascii_of z) "-")
                (negb (is_space (ascii_of z)))) = true) by (vm_compute; reflexivity).
  assert (Hb : 0 ≤ byte_of c < 256).
  { unfold byte_of. pose proof (N_ascii_bounded c). lia. }
  apply (all_below_spec 256 _ (byte_of c)) in H; [|lia].
  assert (Hback : ascii_of (byte_of c) = c).
  { unfold ascii_of, byte_of. by rewrite N2Z.id, ascii_N_embedding. }
  cbv beta in H. rewrite Hback in H. destruct (is_space c); [|done].
  unfold implb in H. by rewrite Hc in H.
Qed.

(** ** Trimming *)

Lemma string_app_nil_r s : (s ++ "")%string = s.
Proof. induction s as [|c s IH]; [done|]. change (String c (s ++ "") = String c s)%string. by rewrite IH. Qed.

Lemma string_app_cons c (s t : string) : (String c s ++ t)%string = String c (s ++ t).
Proof. done. Qed.

Lemma string_app_assoc (a b c : string) : ((a ++ b) ++ c = a ++ (b ++ c))%string.
Proof.
  induction a as [|x a IH]; [done|].
  change (String x ((a ++ b) ++ c) = String x (a ++ (b ++ c)))%string. by rewrite IH.
Qed.

Lemma rev_string_onto_app s acc : rev_string_onto s acc = (rev_string s ++ acc)%string.
Proof.
  unfold rev_string. revert acc. induction s as [|c s IH]; intros acc; [done|].
  simpl. rewrite (IH (String c acc)), (IH (String c "")), string_app_assoc. done.
Qed.

Lemma rev_string_cons c s : rev_string (String c s) = (rev_string s ++ String c "")%string.
Proof. unfold rev_string at 1. simpl. apply rev_string_onto_app. Qed.

Lemma rev_string_app s t : rev_string (s ++ t) = (rev_string t ++ rev_string s)%string.
Proof.
  induction s as [|c s IH]; [by rewrite string_app_nil_r|].
  change (String c s ++ t)%string with (String c (s ++ t)).
  by rewrite !rev_string_cons, IH, string_app_assoc.
Qed.

Lemma rev_string_involutive s : rev_string (rev_string s) = s.
Proof.
  induction s as [|c s IH]; [done|]. by rewrite rev_string_cons, rev_string_app, IH.
Qed.

Lemma all_chars_rev f s : all_chars f (rev_string s) = all_chars f s.
Proof.
  induction s as [|c s IH]; [done|]. rewrite rev_string_cons, all_chars_app, IH. simpl.
  rewrite andb_true_r. apply andb_comm.
Qed.

Lemma trim_left_word w t :
  w ≠ EmptyString → no_space w = true → trim_left (w ++ t) = (w ++ t)%string.
Proof.
  destruct w as [|c w]; [done|]. intros _ [Hc _]%andb_true_iff.
  change (String c w ++ t)%string with (String c (w ++ t)). simpl.
  by rewrite (proj1 (negb_true_iff _) Hc).
Qed.

(** A text that begins and ends with a word has nothing to trim. *)
Lemma TrimSpace_words w1 t w2 x :
  w1 ≠ EmptyString → no_space w1 = true → w2 ≠ EmptyString → no_space w2 = true →
  (w1 ++ t)%string = (x ++ w2)%string → TrimSpace (w1 ++ t) = (w1 ++ t)%string.
Proof.
  intros Hn1 Hw1 Hn2 Hw2 Heq. unfold TrimSpace. rewrite trim_left_word by done.
  rewrite Heq, rev_string_app, trim_left_word, <- rev_string_app, rev_string_involutive; [done| |].
  - intros H. apply Hn2. rewrite <- (rev_string_involutive w2), H. done.
  - unfold no_space. by rewrite all_chars_rev.
Qed.

(** The last word of a joined text. *)
Lemma Join_last sep ws w : ∃ x, Join sep (ws ++ [w]) = (x ++ w)%string.
Proof.
  induction ws as [|v ws (x & IH)]; [by exists EmptyString|].
  exists (v ++ String sep x)%string.
  assert (Join sep ((v :: ws) ++ [w]) = (v ++ String sep (Join sep (ws ++ [w])))%string) as ->
    by (by destruct ws).
  by rewrite IH, string_app_assoc.
Qed.

Lemma Join_first sep w ws : ∃ t, Join sep (w :: ws) = (w ++ t)%string.
Proof. destruct ws as [|v ws]; [exists EmptyString; by rewrite string_app_nil_r|by eexists]. Qed.

(** Joining words with spaces produces a text that [TrimSpace] keeps. *)
Lemma TrimSpace_Join sep w ws :
  Forall (λ w, w ≠ EmptyString ∧ no_space w = true) (w :: ws) →
  TrimSpace (Join sep (w :: ws)) = Join sep (w :: ws).
Proof.
  intros Hws. destruct (Join_first sep w ws) as (t & Ht).
  destruct (exists_last (l:=w :: ws)) as (ws' & w2 & Hl); [done|].
  destruct (Join_last sep ws' w2) as (x & Hx). rewrite <- Hl in Hx.
  assert (Hw2 : w2 ≠ EmptyString ∧ no_space w2 = true).
  { rewrite Hl in Hws. by apply Forall_app in Hws as [_ [? _]%Forall_cons]. }
  apply Forall_cons in Hws as [[Hn Hw] _].
  rewrite Ht. apply (TrimSpace_words w t w2 x); [done|done|apply Hw2|apply Hw2|].
  by rewrite <- Ht, Hx.
Qed.

(** ** Cutting strings *)

Lemma take_string_app s t : take_string (String.length s) (s ++ t)%string = s.
Proof. induction s as [|c s IH]; [by destruct t|]. rewrite string_app_cons. simpl. by rewrite IH. Qed.

Lemma drop_string_app s t : drop_string (String.length s) (s ++ t)%string = t.
Proof. induction s as [|c s IH]; [done|]. rewrite string_app_cons. simpl. exact IH. Qed.

Lemma string_length_app s t : String.length (s ++ t)%string = (String.length s + String.length t)%nat.
Proof. induction s as [|c s IH]; [done|]. rewrite string_app_cons. simpl. by rewrite IH. Qed.

Lemma take_drop_string n s : s = (take_string n s ++ drop_string n s)%string.
Proof. revert s. induction n as [|n IH]; intros [|c s]; [done..|]. cbn [take_string drop_string]. rewrite string_app_cons. f_equal. apply IH. Qed.

Lemma slen_app (a b : string) : slen (a ++ b) = slen a + slen b.
Proof. unfold slen. rewrite string_length_app. lia. Qed.

Lemma slen_nonneg s : 0 ≤ slen s.
Proof. unfold slen. lia. Qed.
