(* ===== verification/GoParseFloat.v ===== *)
(** * [strconv.ParseFloat]

    The text of a floating point number as Go reads it: optional sign, [inf],
    [infinity] and [nan] in any case, decimal and hexadecimal mantissas,
    exponents, and underscores between digits.  The value is the number written,
    rounded once.  Decimal numbers printed with [dec_text] are read back as that
    rounding ([ParseFloat_dec_text]). *)

From Stdlib Require Import SpecFloat.
From S2P Require Import Prelude GoFloat GoStrings.
From Stdlib Require Import Ascii String.

(** ** Rounding a fraction *)

(** [± m / d], rounded to nearest even. *)
Definition f_ratio (neg : bool) (m : Z) (d : positive) : f64 :=
  match m with
  | Zpos p => let '(q, e, l) := SFdiv_core_binary 53 1024 (Zpos p) 0 (Zpos d) 0 in binary_round_aux 53 1024 neg q e l
  | _ => S754_zero neg
  end.

(** [± m * base^e]. *)
Definition f_scaled (neg : bool) (m base e : Z) : f64 :=
  if 0 <=? e then f_ratio neg (m * base ^ e) 1 else f_ratio neg m (Z.to_pos (base ^ (- e))).

(** ** Reading *)

(** The mantissa read so far: digits, digits after the point, and what was seen. *)
Record scan := mkScan { digits : Z; frac : Z; sawdot : bool; sawdigits : bool; underscores : bool }.

Definition hex_digit (c : ascii) : option Z :=
  let n := byte_of (lower_char c) in if (97 <=? n) && (n <=? 102) then Some (n - 87) else None.

Definition push_digit (base d : Z) (x : scan) : scan :=
  mkScan (digits x * base + d) (if sawdot x then frac x + 1 else frac x) (sawdot x) true (underscores x).

(** The loop over the mantissa; gives what is left of the text. *)
Fixpoint scan_mantissa (hex : bool) (x : scan) (s : string) : scan * string :=
  match s with
  | EmptyString => (x, s)
  | String c s' =>
      if Ascii.eqb c "_" then scan_mantissa hex (mkScan (digits x) (frac x) (sawdot x) (sawdigits x) true) s'
      else if Ascii.eqb c "." then
        if sawdot x then (x, s)
        else scan_mantissa hex (mkScan (digits x) (frac x) true (sawdigits x) (underscores x)) s'
      else if is_digit c then scan_mantissa hex (push_digit (if hex then 16 else 10) (byte_of c - 48) x) s'
      else match (if hex then hex_digit c else None) with
           | Some d => scan_mantissa hex (push_digit 16 d x) s'
           | None => (x, s)
           end
  end.

(** The digits of the exponent; it stops growing at 10000. *)
Fixpoint scan_exponent (e : Z) (u : bool) (s : string) : Z * bool * string :=
  match s with
  | EmptyString => (e, u, s)
  | String c s' =>
      if Ascii.eqb c "_" then scan_exponent e true s'
      else if is_digit c then scan_exponent (if e <? 10000 then e * 10 + (byte_of c - 48) else e) u s'
      else (e, u, s)
  end.

(** [underscoreOK] after the sign and the base prefix: an underscore must have a
    digit (or the prefix) before it and a digit after it. *)
Fixpoint underscore_from (hex : bool) (prev_digit prev_under : bool) (s : string) : bool :=
  match s with
  | EmptyString => negb prev_under
  | String c s' =>
      if is_digit c || (hex && bool_decide (is_Some (hex_digit c))) then underscore_from hex true false s'
      else if Ascii.eqb c "_" then prev_digit && underscore_from hex false true s'
      else negb prev_under && underscore_from hex false false s'
  end.
Definition underscoreOK (body : string) : bool :=
  match body with
  | String "0" (String c s') =>
      let l := lower_char c in
      if Ascii.eqb l "b" || Ascii.eqb l "o" || Ascii.eqb l "x" then underscore_from (Ascii.eqb l "x") true false s'
      else underscore_from false false false body
  | _ => underscore_from false false false body
  end.

Definition split_sign (s : string) : option bool * string :=
  match s with
  | String "+" t => (Some false, t)
  | String "-" t => (Some true, t)
  | _ => (None, s)
  end.

(** The exponent after the mantissa: [None] when it is malformed, or missing
    from a hexadecimal number. *)
Definition read_exponent (hex : bool) (s : string) : option (Z * bool * string) :=
  match s with
  | String c s' =>
      if Ascii.eqb (lower_char c) (if hex then "p" else "e")%char then
        let '(sg, t) := split_sign s' in
        match t with
        | String d _ =>
            if is_digit d then
              let '(e, u, rest) := scan_exponent 0 false t in
              Some (if default false sg then - e else e, u, rest)
            else None
        | EmptyString => None
        end
      else if hex then None else Some (0, false, s)
  | EmptyString => if hex then None else Some (0, false, s)
  end.

Definition hex_prefix (body : string) : option string :=
  match body with
  | String "0" (String c (String d t)) => if Ascii.eqb (lower_char c) "x" then Some (String d t) else None
  | _ => None
  end.

Definition special (s : string) : option f64 :=
  let '(sg, body) := split_sign s in
  let l := ToLower body in
  if bool_decide (l = "inf"%string) || bool_decide (l = "infinity"%string)
  then Some (S754_infinity (default false sg))
  else if bool_decide (l = "nan"%string) && bool_decide (sg = None) then Some S754_nan
  else None.

(** [strconv.ParseFloat(s, 64)]: the value, 0 on a syntax error and an infinity on a
    range error, and the error. *)
Definition ParseFloat (s : string) : f64 * option num_error :=
  match special s with
  | Some x => (x, None)
  | None =>
      let '(sg, body) := split_sign s in
      let neg := default false sg in
      let '(hex, text) := match hex_prefix body with Some t => (true, t) | None => (false, body) end in
      let '(x, rest) := scan_mantissa hex (mkScan 0 0 false false false) text in
      match read_exponent hex rest with
      | Some (e, u, EmptyString) =>
          if negb (sawdigits x) || ((underscores x || u) && negb (underscoreOK body)) then (f0, Some ErrSyntax)
          else
            let v := if hex then f_scaled neg (digits x) 2 (e - 4 * frac x)
                     else f_scaled neg (digits x) 10 (e - frac x) in
            (v, match v with S754_infinity _ => Some ErrRange | _ => None end)
      | _ => (f0, Some ErrSyntax)
      end
  end.

(** ** Decimal text *)

Fixpoint digit_text (ds : list Z) : string :=
  match ds with [] => EmptyString | d :: ds => String (digit_char d) (digit_text ds) end.

(** The integer that a list of digits writes, after [n]. *)
Definition digits_value (n : Z) (ds : list Z) : Z := fold_left (λ n d, n * 10 + d) ds n.

(** [-ip.fs], without the point when there are no decimals. *)
Definition dec_text (neg : bool) (ip fs : list Z) : string :=
  ((if neg then "-" else "") ++ digit_text ip ++ (match fs with [] => "" | _ => "." ++ digit_text fs end))%string.

Definition digit (d : Z) : Prop := 0 ≤ d < 10.

Lemma eqb_by_byte c d : byte_of c ≠ byte_of d → Ascii.eqb c d = false.
Proof. intros H. apply Ascii.eqb_neq. by intros ->. Qed.

(** A digit is none of the characters with a meaning of their own. *)
Lemma digit_not d c : digit d → is_digit c = false → Ascii.eqb (digit_char d) c = false.
Proof.
  intros Hd Hc. apply Ascii.eqb_neq. intros <-. by rewrite digit_char_is_digit in Hc.
Qed.

Lemma scan_digits ds t x :
  Forall digit ds →
  scan_mantissa false x (digit_text ds ++ t)%string
  = scan_mantissa false (mkScan (digits_value (digits x) ds)
      (if sawdot x then frac x + Z.of_nat (Datatypes.length ds) else frac x) (sawdot x)
      (sawdigits x || negb (bool_decide (ds = []))) (underscores x)) t.
Proof.
  intros H. revert x. induction H as [|d ds Hd _ IH]; intros [n f dot dig u]; cbn [digit_text Datatypes.length digits frac sawdot sawdigits underscores].
  - simpl. rewrite orb_false_r. by destruct dot; [rewrite Z.add_0_r|].
  - rewrite string_app_cons. cbn [scan_mantissa]. rewrite !digit_not, digit_char_is_digit, digit_char_byte by done.
    rewrite IH. unfold push_digit. cbn [digits frac sawdot sawdigits underscores]. f_equal.
    replace (48 + d - 48) with d by lia. f_equal; [destruct dot; lia|]. simpl. by rewrite orb_true_r.
Qed.

Lemma lower_digit d : digit d → lower_char (digit_char d) = digit_char d.
Proof. intros H. unfold lower_char. rewrite digit_char_byte by done. unfold digit in H. by replace (65 <=? 48 + d) with false by lia. Qed.

Lemma split_sign_digit d t : digit d → split_sign (String (digit_char d) t) = (None, String (digit_char d) t).
Proof.
  intros H. pose proof (digit_not d "+" H eq_refl) as H1. pose proof (digit_not d "-" H eq_refl) as H2.
  revert H1 H2. unfold split_sign. generalize (digit_char d). by intros [[] [] [] [] [] [] [] []].
Qed.

Lemma ToLower_digit d s : digit d → ToLower (String (digit_char d) s) = String (digit_char d) (ToLower s).
Proof. intros H. cbn [ToLower]. by rewrite lower_digit. Qed.

(** Text that starts with a digit after its sign is no special value. *)
Lemma special_digit (neg : bool) d t : digit d → special ((if neg then "-" else "") ++ String (digit_char d) t)%string = None.
Proof.
  intros H. unfold special.
  assert (E : split_sign ((if neg then "-" else "") ++ String (digit_char d) t)%string
              = ((if neg then Some true else None), String (digit_char d) t)).
  { destruct neg; [done|]. by apply split_sign_digit. }
  rewrite E, ToLower_digit by done.
  assert (Hn : ∀ c w, is_digit c = false → bool_decide (String (digit_char d) (ToLower t) = String c w) = false).
  { intros c w Hc. apply bool_decide_eq_false. intros [= E' _]. rewrite <- E' in Hc. by rewrite digit_char_is_digit in Hc. }
  by rewrite !Hn.
Qed.

Lemma hex_prefix_decimal d ds t :
  digit d → Forall digit ds → hd "."%char (list_ascii_of_string t) = "."%char → hex_prefix (digit_text (d :: ds) ++ t)%string = None.
Proof.
  intros Hd Hds Ht. cbn [digit_text]. rewrite string_app_cons. unfold hex_prefix.
  assert (E : ∀ c w, lower_char c ≠ "x"%char → match String c w with
     | String c (String d t) => if Ascii.eqb (lower_char c) "x" then Some (String d t) else None | _ => None end = None).
  { intros c w Hc. destruct w; [done|]. by rewrite (proj2 (Ascii.eqb_neq _ _) Hc). }
  assert (E2 : ∀ w, (w = EmptyString ∨ ∃ c v, w = String c v ∧ lower_char c ≠ "x"%char) →
     match String (digit_char d) w with
     | String "0" (String c (String d t)) => if Ascii.eqb (lower_char c) "x" then Some (String d t) else None | _ => None end = None).
  { intros w Hw. generalize (digit_char d). intros c0. destruct Hw as [->|(c & v & -> & Hc)].
    - by destruct c0 as [[] [] [] [] [] [] [] []].
    - pose proof (E c v Hc) as E1. destruct c0 as [[] [] [] [] [] [] [] []]; try done; destruct v; done. }
  apply E2. destruct Hds as [|d' ds Hd' _].
  - destruct t as [|c t]; [by left|]. right. exists c, t. split; [done|]. simpl in Ht. by subst c.
  - right. exists (digit_char d'), (digit_text ds ++ t)%string. split; [done|]. rewrite lower_digit by done.
    intros E'. pose proof (digit_char_is_digit d' Hd') as H. by rewrite E' in H.
Qed.

(** A decimal number is read as its value, rounded. *)
Lemma ParseFloat_dec_text neg ip fs :
  ip ≠ [] → Forall digit ip → Forall digit fs →
  let v := f_scaled neg (digits_value 0 (ip ++ fs)) 10 (- Z.of_nat (Datatypes.length fs)) in
  ParseFloat (dec_text neg ip fs) = (v, match v with S754_infinity _ => Some ErrRange | _ => None end).
Proof.
  intros Hne Hip Hfs v. destruct Hip as [|d ip Hd Hip]; [done|]. unfold dec_text.
  set (tl := match fs with [] => ""%string | _ => ("." ++ digit_text fs)%string end).
  assert (Hscan : scan_mantissa false (mkScan 0 0 false false false) (digit_text (d :: ip) ++ tl)%string
    = (mkScan (digits_value 0 ((d :: ip) ++ fs)) (Z.of_nat (Datatypes.length fs)) (negb (bool_decide (fs = []))) true false, EmptyString)).
  { rewrite scan_digits by by constructor. cbn [digits frac sawdot sawdigits underscores]. unfold tl. destruct fs as [|f fs].
    - by rewrite app_nil_r.
    - change ("." ++ digit_text (f :: fs))%string with (String "." (digit_text (f :: fs))).
      cbn [scan_mantissa]. change (Ascii.eqb "." "_") with false. change (Ascii.eqb "." ".") with true. cbn iota.
      rewrite <- (string_app_nil_r (digit_text (f :: fs))), scan_digits by done. cbn [digits frac sawdot sawdigits underscores scan_mantissa].
      unfold digits_value. rewrite fold_left_app. done. }
  unfold ParseFloat. cbn [digit_text]. rewrite !string_app_cons, special_digit by done.
  assert (E : split_sign ((if neg then "-" else "") ++ String (digit_char d) (digit_text ip ++ tl))%string
              = ((if neg then Some true else None), String (digit_char d) (digit_text ip ++ tl)%string)).
  { destruct neg; [done|]. by apply split_sign_digit. }
  rewrite E. change (String (digit_char d) (digit_text ip ++ tl)%string) with (digit_text (d :: ip) ++ tl)%string.
  rewrite hex_prefix_decimal, Hscan by (try done; unfold tl; by destruct fs).
  cbn [read_exponent sawdigits underscores digits frac negb orb andb]. unfold v. rewrite Z.sub_0_l. by destruct neg.
Qed.
