(* ===== verification/GoState.v ===== *)
(** * Stateful Go code and dynamically typed values

    [M S A] is a computation over a mutable store [S] that may panic; the
    store survives a panic, as Go's heap does, so that [recover] can be
    written ([recovering]).  [any] is the part of Go's [interface{}] that the
    modelled code passes around, with the conversions of package [cast] and
    the tests of package [value] on it. *)

From S2P Require Import Prelude GoFloat GoStrings.

(** ** The state and panic monad *)

Definition M (S A : Type) : Type := S → go A * S.

#[global] Instance M_ret {S} : MRet (M S) := λ A a s, (Ret a, s).
#[global] Instance M_bind {S} : MBind (M S) := λ A B k m s,
  match m s with
  | (Ret a, s') => k a s'
  | (Panic w, s') => (Panic w, s')
  end.

Definition get {S} : M S S := λ s, (Ret s, s).
Definition gets {S A} (f : S → A) : M S A := λ s, (Ret (f s), s).
Definition modify {S} (f : S → S) : M S unit := λ s, (Ret tt, f s).
Definition panic {S A} (why : string) : M S A := λ s, (Panic why, s).
Definition lift {S A} (m : go A) : M S A := λ s, (m, s).

(** [defer func() { if r := recover(); r != nil { h r } }()] around [m]. *)
Definition recovering {S A} (m : M S A) (h : string → M S A) : M S A := λ s,
  match m s with
  | (Ret a, s') => (Ret a, s')
  | (Panic w, s') => h w s'
  end.

(** A loop over a list whose body may leave the loop with a value. *)
Fixpoint mfor {S X} (xs : list X) (body : X → M S unit) : M S unit :=
  match xs with
  | [] => mret tt
  | x :: xs => body x ;; mfor xs body
  end.

(** [for _, x := range xs { if err := body(x); err != nil { return err } }]. *)
Fixpoint mfor_err {S X} (xs : list X) (body : X → M S (option string)) : M S (option string) :=
  match xs with
  | [] => mret None
  | x :: xs =>
      err ← body x;
      match err with
      | Some e => mret (Some e)
      | None => mfor_err xs body
      end
  end.

Lemma M_bind_ret {S A B} (a : A) (k : A → M S B) s : (x ← mret a; k x) s = k a s.
Proof. done. Qed.

Lemma M_bind_inv {S A B} (m : M S A) (k : A → M S B) s b s2 :
  (x ← m; k x) s = (Ret b, s2) → ∃ a s1, m s = (Ret a, s1) ∧ k a s1 = (Ret b, s2).
Proof.
  unfold mbind, M_bind. destruct (m s) as [[a|w] s1]; intros H; [by exists a, s1|discriminate].
Qed.

Lemma M_bind_eq {S A B} (m : M S A) (k : A → M S B) s a s1 :
  m s = (Ret a, s1) → (x ← m; k x) s = k a s1.
Proof. unfold mbind, M_bind. by intros ->. Qed.

Lemma run_result {S A} (m : M S A) (s : S) (r : go A) : (m s).1 = r → m s = (r, (m s).2).
Proof. destruct (m s). simpl. by intros ->. Qed.

(** ** Dynamically typed values *)

Inductive any : Type :=
| ANil
| AInt (z : Z)
| AInt64 (z : Z)
| ABool (b : bool)
| AFloat (f : f64)
| AStr (s : string).

Definition StringNone : string := "____none____".

(** [value.IsNone] on these values. *)
Definition IsNone (i : any) : bool :=
  match i with
  | ANil => true
  | AFloat v => is_nan v
  | AStr v => bool_decide (v = StringNone)
  | _ => false
  end.

(** [value.False]. *)
Definition is_False (i : any) : bool :=
  match i with
  | ABool v => negb v
  | AStr v => bool_decide (v = EmptyString)
  | AInt v | AInt64 v => bool_decide (v = 0)
  | AFloat v => feq v f0
  | ANil => false
  end.

(** [value.True]. *)
Definition is_True (i : any) : bool := negb (is_False i).

(** [cast.ToInt64]: the value part of [ToInt64E]; a string that does not parse
    gives what [strconv.ParseInt] returns with its error. *)
Definition ToInt64 (i : any) : Z :=
  match i with
  | AInt64 v | AInt v => v
  | AFloat v => f_trunc v
  | AStr v => (ParseInt 64 v).1
  | ABool v => if v then 1 else 0
  | ANil => 0
  end.

(** [cast.ToInt] at 64 bits. *)
Definition ToInt (i : any) : Z := ToInt64 i.

(** [cast.ToBool] on booleans and integers. *)
Definition ToBool_int (v : Z) : bool := bool_decide (v = 1).

(** [sort.Strings]. *)
Fixpoint insert_string (x : string) (l : list string) : list string :=
  match l with
  | [] => [x]
  | y :: l' => if String.leb x y then x :: l else y :: insert_string x l'
  end.
Definition sort_strings (l : list string) : list string := foldr insert_string [] l.

Lemma insert_string_perm x l : insert_string x l ≡ₚ x :: l.
Proof.
  induction l as [|y l IH]; simpl; [done|]. destruct (String.leb x y); [done|].
  rewrite IH. apply Permutation_swap.
Qed.

Lemma sort_strings_perm l : sort_strings l ≡ₚ l.
Proof.
  induction l as [|x l IH]; simpl; [done|]. by rewrite insert_string_perm, IH.
Qed.

(** ** Assertions about stateful code *)

(** From a state satisfying [P], [m] ends, normally or by a panic, in an outcome
    satisfying [Q]. *)
Definition hoare {S A} (P : S → Prop) (m : M S A) (Q : go A → S → Prop) : Prop :=
  ∀ s, P s → Q (m s).1 (m s).2.

(** Outcomes that constrain normal returns only. *)
Definition onret {S A} (Q : A → S → Prop) : go A → S → Prop :=
  λ r s, match r with Ret a => Q a s | Panic _ => True end.

Lemma hoare_ret {S A} (P : S → Prop) (a : A) (Q : A → S → Prop) :
  (∀ s, P s → Q a s) → hoare P (mret a) (onret Q).
Proof. intros HPQ s Hs. by apply HPQ. Qed.

Lemma hoare_bind {S A B} (P : S → Prop) (m : M S A) (R : A → S → Prop) (k : A → M S B)
    (Q : B → S → Prop) :
  hoare P m (onret R) → (∀ a, hoare (R a) (k a) (onret Q)) → hoare P (x ← m; k x) (onret Q).
Proof.
  intros Hm Hk s Hs. specialize (Hm s Hs). unfold mbind, M_bind.
  destruct (m s) as [[a|w] s1]; simpl in *; [by apply Hk|done].
Qed.

Lemma hoare_weaken {S A} (P P' : S → Prop) (m : M S A) (Q Q' : A → S → Prop) :
  hoare P' m (onret Q') → (∀ s, P s → P' s) → (∀ a s, Q' a s → Q a s) → hoare P m (onret Q).
Proof.
  intros Hm HP HQ s Hs. specialize (Hm s (HP s Hs)).
  destruct (m s) as [[a|w] s1]; simpl in *; auto.
Qed.

Lemma hoare_gets {S A} (P : S → Prop) (f : S → A) (Q : A → S → Prop) :
  (∀ s, P s → Q (f s) s) → hoare P (gets f) (onret Q).
Proof. intros HPQ s Hs. by apply HPQ. Qed.

Lemma hoare_modify {S} (P : S → Prop) (f : S → S) (Q : unit → S → Prop) :
  (∀ s, P s → Q tt (f s)) → hoare P (modify f) (onret Q).
Proof. intros HPQ s Hs. by apply HPQ. Qed.

Lemma hoare_run {S A} (P : S → Prop) (m : M S A) (Q : A → S → Prop) s a s' :
  hoare P m (onret Q) → P s → m s = (Ret a, s') → Q a s'.
Proof. intros Hm Hs Heq. specialize (Hm s Hs). by rewrite Heq in Hm. Qed.

(** Splits a precondition on a fixed value of the state. *)
Lemma hoare_fix {S A} (P : S → Prop) (m : M S A) Q :
  (∀ s0, P s0 → hoare (λ s, s = s0) m Q) → hoare P m Q.
Proof. intros Hfix s Hs. by apply (Hfix s Hs). Qed.

(** Sequencing for assertions on every outcome. *)
Lemma hoare_seq {S A B} (P : S → Prop) (m : M S A) (R : A → S → Prop) (k : A → M S B) (Q : go B → S → Prop) :
  hoare P m (λ r s, match r with Ret a => R a s | Panic w => Q (Panic w) s end) →
  (∀ a, hoare (R a) (k a) Q) → hoare P (x ← m; k x) Q.
Proof.
  intros Hm Hk s Hs. specialize (Hm s Hs). unfold mbind, M_bind.
  destruct (m s) as [[a|w] s1]; simpl in *; [by apply Hk|done].
Qed.

Lemma hoare_recovering {S A} (P : S → Prop) (m : M S A) (R : string → S → Prop) (h : string → M S A)
    (Q : go A → S → Prop) :
  hoare P m (λ r s, match r with Ret a => Q (Ret a) s | Panic w => R w s end) →
  (∀ w, hoare (R w) (h w) Q) → hoare P (recovering m h) Q.
Proof.
  intros Hm Hh s Hs. specialize (Hm s Hs). unfold recovering.
  destruct (m s) as [[a|w] s1]; simpl in *; [done|by apply Hh].
Qed.

(** An assertion that a computation keeps on every normal return. *)
Definition keeps {S A} (I : S → Prop) (m : M S A) : Prop := hoare I m (onret (λ _ s, I s)).

Lemma keeps_ret {S A} (I : S → Prop) (a : A) : keeps I (mret a).
Proof. by apply hoare_ret. Qed.
Lemma keeps_gets {S A} (I : S → Prop) (f : S → A) : keeps I (gets f).
Proof. by apply hoare_gets. Qed.
Lemma keeps_bind {S A B} (I : S → Prop) (m : M S A) (k : A → M S B) :
  keeps I m → (∀ a, keeps I (k a)) → keeps I (x ← m; k x).
Proof. intros Hm Hk. by eapply hoare_bind. Qed.
Lemma keeps_modify {S} (I : S → Prop) (f : S → S) : (∀ s, I s → I (f s)) → keeps I (modify f).
Proof. intros Hf. by apply hoare_modify. Qed.
Lemma keeps_mfor_err {S X} (I : S → Prop) (xs : list X) body :
  (∀ x, keeps I (body x)) → keeps I (mfor_err (S := S) xs body).
Proof.
  intros Hb. induction xs as [|x xs IH]; cbn [mfor_err]; [apply keeps_ret|].
  apply keeps_bind; [apply Hb|]. intros [e|]; [apply keeps_ret|exact IH].
Qed.

Lemma keeps_mfor {S X} (I : S → Prop) (xs : list X) body :
  (∀ x, keeps I (body x)) → keeps I (mfor (S := S) xs body).
Proof.
  intros Hb. induction xs as [|x xs IH]; cbn [mfor]; [apply keeps_ret|].
  apply keeps_bind; [apply Hb|]. intros ?. exact IH.
Qed.

Create HintDb keeps.
#[global] Hint Resolve keeps_ret keeps_gets keeps_mfor_err : keeps.

(** Walks through a program, leaving the steps that change the state. *)
Ltac keeps_steps :=
  repeat first
    [ solve [eauto 2 with keeps]
    | apply keeps_bind; [|intros ?]
    | case_bool_decide
    | match goal with |- keeps _ (if ?b then _ else _) => destruct b end
    | match goal with |- keeps _ (match ?x with _ => _ end) => destruct x end ].

(** An assertion that a computation keeps on every outcome, panics included. *)
Definition always {S A} (I : S → Prop) (m : M S A) : Prop := hoare I m (λ _ s, I s).

Lemma always_ret {S A} (I : S → Prop) (a : A) : always I (mret a).
Proof. by intros s. Qed.
Lemma always_gets {S A} (I : S → Prop) (f : S → A) : always I (gets f).
Proof. by intros s. Qed.
Lemma always_lift {S A} (I : S → Prop) (m : go A) : always I (lift m).
Proof. by intros s. Qed.
Lemma always_panic {S A} (I : S → Prop) w : always (A := A) I (panic w).
Proof. by intros s. Qed.
Lemma always_modify {S} (I : S → Prop) (f : S → S) : (∀ s, I s → I (f s)) → always I (modify f).
Proof. intros Hf s. apply Hf. Qed.
Lemma always_bind {S A B} (I : S → Prop) (m : M S A) (k : A → M S B) :
  always I m → (∀ a, always I (k a)) → always I (x ← m; k x).
Proof.
  intros Hm Hk s Hs. specialize (Hm s Hs). unfold mbind, M_bind.
  destruct (m s) as [[a|w] s1]; simpl in *; [by apply Hk|done].
Qed.
Lemma always_recovering {S A} (I : S → Prop) (m : M S A) h :
  always I m → (∀ w, always I (h w)) → always I (recovering m h).
Proof.
  intros Hm Hh s Hs. specialize (Hm s Hs). unfold recovering.
  destruct (m s) as [[a|w] s1]; simpl in *; [done|by apply Hh].
Qed.

#[global] Hint Resolve always_ret always_gets always_lift always_panic : keeps.

(** Walks through a program like [keeps_steps]. *)
Ltac always_steps :=
  repeat first
    [ solve [eauto 2 with keeps]
    | apply always_bind; [|intros ?]
    | apply always_recovering; [|intros ?]
    | match goal with |- always _ (if ?b then _ else _) => destruct b end
    | match goal with |- always _ (match ?x with _ => _ end) => destruct x end ].
