(* ===== verification/Reactor.v ===== *)
(** * The reactor

    [src/internal/pkg/reactor/reactor.go]: the timers of the event loop.  Timers
    are objects in a store, named by numbers; what a timer's callback does, and
    what other greenlets do while this one is switched away, are parameters over
    the reactor and the rest [U] of the program's state.  File descriptors,
    completions and the asynchronous callbacks are left out. *)

From stdpp Require Import relations.
From S2P Require Import Prelude GoFloat GoStrings GoState.

Record reactor := mkReactor {
  r_process : bool;
  r_next_timer : f64;
  r_timers : list nat;
  r_wake : gmap nat f64;              (* waketime of every timer made *)
  r_fresh : nat;                      (* name of the next timer *)
  r_dispatch : option nat;            (* _g_dispatch *)
  r_greenlets : list nat;             (* _greenlets *)
  r_gtimer : gmap nat nat             (* Timer of a greenlet *)
}.


Definition waketime (r : reactor) (t : nat) : f64 := default f0 (r_wake r !! t).

Definition set_wake (t : nat) (w : f64) (r : reactor) : reactor :=
  mkReactor (r_process r) (r_next_timer r) (r_timers r) (<[t := w]> (r_wake r)) (r_fresh r) (r_dispatch r)
    (r_greenlets r) (r_gtimer r).
Definition set_next (w : f64) (r : reactor) : reactor :=
  mkReactor (r_process r) w (r_timers r) (r_wake r) (r_fresh r) (r_dispatch r) (r_greenlets r) (r_gtimer r).
Definition set_timers (l : list nat) (r : reactor) : reactor :=
  mkReactor (r_process r) (r_next_timer r) l (r_wake r) (r_fresh r) (r_dispatch r) (r_greenlets r) (r_gtimer r).
Definition set_dispatch (g : option nat) (r : reactor) : reactor :=
  mkReactor (r_process r) (r_next_timer r) (r_timers r) (r_wake r) (r_fresh r) g (r_greenlets r) (r_gtimer r).
Definition cache_greenlet (g : nat) (r : reactor) : reactor :=
  mkReactor (r_process r) (r_next_timer r) (r_timers r) (r_wake r) (r_fresh r) (r_dispatch r) (r_greenlets r ++ [g])
    (delete g (r_gtimer r)).
(** [self._next_timer = math.Min(self._next_timer, w)]. *)
Definition next_min (w : f64) (r : reactor) : reactor := set_next (fmin (r_next_timer r) w) r.

(** ** Timers *)

Definition Update_timer (t : nat) (w : f64) (r : reactor) : reactor := next_min w (set_wake t w r).

Definition Register_timer (w : f64) (r : reactor) : nat * reactor :=
  let t := r_fresh r in
  (t, next_min w (mkReactor (r_process r) (r_next_timer r) (r_timers r ++ [t]) (<[t := w]> (r_wake r)) (S t)
        (r_dispatch r) (r_greenlets r) (r_gtimer r))).

Definition Unregister_timer (t : nat) (r : reactor) : reactor :=
  let r := set_wake t NEVER r in set_timers (filter (λ t', t' ≠ t) (r_timers r)) r.

(** [PollReactor.Unregister_timer]: [self._timers[:copy(self._timers, self._timers[i:])]]
    moves the tail from [i] to the front. *)
Fixpoint from_timer (t : nat) (l : list nat) : option (list nat) :=
  match l with
  | [] => None
  | t' :: l' => if bool_decide (t' = t) then Some l else from_timer t l'
  end.
Definition poll_Unregister_timer (t : nat) (r : reactor) : reactor :=
  let r := set_wake t NEVER r in
  match from_timer t (r_timers r) with Some l => set_timers l r | None => r end.

Section Loop.
Context {U : Type}.
Notation St := (reactor * U)%type.
(** The callbacks, and the other greenlets. *)
Variables (callback : nat → f64 → M St f64) (SwitchTo : nat → M St unit).

Definition self : M St reactor := gets fst.
Definition upd (f : reactor → reactor) : M St unit := modify (λ s, (f s.1, s.2)).

Definition _end_greenlet (g_old : option nat) : M St unit :=
  match g_old with
  | None => panic "invalid memory address or nil pointer dereference"
  | Some g =>
      r ← self;
      match r_gtimer r !! g with
      | None => panic "interface conversion: interface {} is nil, not *reactor.ReactorTimer"
      | Some t =>
          _ ← upd (cache_greenlet g);
          _ ← upd (Unregister_timer t);
          r ← self;
          match r_process r, r_dispatch r with
          | true, Some d => _ ← SwitchTo d; upd (set_dispatch (Some g))
          | _, _ => upd (set_dispatch (Some g))
          end
      end
  end.

(** The loop over the timers present at its start.  The select reactor
    declares a second [waketime] inside the branch ([shadow]), so that the
    value the callback returned is not the one it takes the minimum with. *)
Fixpoint check_loop (shadow : bool) (eventtime : f64) (g_dispatch : option nat) (timers : list nat) : M St unit :=
  match timers with
  | [] => mret tt
  | t :: timers =>
      r ← self;
      let old := waketime r t in
      if fle old eventtime then
        _ ← upd (set_wake t NEVER);
        new ← callback t eventtime;
        _ ← upd (set_wake t new);
        r ← self;
        if bool_decide (r_dispatch r ≠ g_dispatch) then
          _ ← upd (next_min new); _end_greenlet g_dispatch
        else
          _ ← upd (next_min (if shadow then old else new)); check_loop shadow eventtime g_dispatch timers
      else
        _ ← upd (next_min old); check_loop shadow eventtime g_dispatch timers
  end.

Definition _check_timers (shadow : bool) (eventtime : f64) (busy : bool) : M St f64 :=
  r ← self;
  if flt eventtime (r_next_timer r) then
    if busy then mret f0
    else mret (fmin f1 (fmax (f_lit 1 1000) (fsub (r_next_timer r) eventtime)))
  else
    _ ← upd (set_next NEVER);
    r ← self;
    _ ← check_loop shadow eventtime (r_dispatch r) (r_timers r);
    mret f0.

Definition select_check_timers : f64 → bool → M St f64 := _check_timers true.
Definition epoll_check_timers : f64 → bool → M St f64 := _check_timers false.
End Loop.

(** ** No wakeup is lost *)



(** What callbacks may do to the reactor. *)
Inductive op_step (r : reactor) : reactor → Prop :=
| op_register w : op_step r (Register_timer w r).2
| op_update t w : op_step r (Update_timer t w r)
| op_unregister t : op_step r (Unregister_timer t r).






Section NoLoss.
Context {U : Type} (callback : nat → f64 → M (reactor * U) f64) (SwitchTo : nat → M (reactor * U) unit).
(** Callbacks use the reactor through its operations and do not switch greenlets. *)
Hypothesis callback_ops : ∀ t ev s, rtc op_step s.1 (callback t ev s).2.1.
Hypothesis callback_stays : ∀ t ev s, r_dispatch (callback t ev s).2.1 = r_dispatch s.1.


(** Names of registered timers are distinct and have been given out. *)
Definition names_ok (r : reactor) : Prop := NoDup (r_timers r) ∧ ∀ t, t ∈ r_timers r → (t < r_fresh r)%nat.

Lemma op_names r r' : op_step r r' → names_ok r → names_ok r'.
Proof.
  intros [w|t w|t] [Hnd Hlt]; [| done |].
  - split; simpl.
    + apply NoDup_app. split_and!; [done| |apply NoDup_singleton].
      intros t Ht ->%list_elem_of_singleton. apply Hlt in Ht. lia.
    + intros t [Ht|Ht%list_elem_of_singleton]%elem_of_app; [apply Hlt in Ht; lia|lia].
  - split; simpl; [by apply NoDup_filter|]. intros t' [_ Ht]%list_elem_of_filter. by apply Hlt.
Qed.

Lemma ops_names r r' : rtc op_step r r' → names_ok r → names_ok r'.
Proof. induction 1; eauto using op_names. Qed.





End NoLoss.





(** [PollReactor.Unregister_timer] keeps the timer and drops those before it. *)
Lemma poll_unregister_drops_others t l1 l2 r :
  r_timers r = l1 ++ t :: l2 → t ∉ l1 → r_timers (poll_Unregister_timer t r) = t :: l2.
Proof.
  intros Hr Ht. unfold poll_Unregister_timer. simpl. rewrite Hr.
  assert (Hf : from_timer t (l1 ++ t :: l2) = Some (t :: l2)); [|by rewrite Hf].
  clear Hr. induction l1 as [|x l1 IH]; simpl; [by rewrite bool_decide_true|].
  apply not_elem_of_cons in Ht as [Hx Ht]. rewrite bool_decide_false by done. by apply IH.
Qed.
