(* ===== verification/ReactorMutex.v ===== *)
(** * The mutex of the reactor

    [ReactorMutex] of [src/internal/pkg/reactor/reactor.go]: greenlets that
    find it locked queue up and sleep; unlocking hands it to the first in the
    queue, which takes it when it wakes up.  Greenlets are named by numbers and
    run one at a time; the transitions are their calls and their wakeups, which
    may also happen without a reason. *)

From stdpp Require Import relations.
From S2P Require Import Prelude GoFloat GoStrings GoState.

Record ReactorMutex := mkMutex {
  is_locked : bool;
  next_pending : bool;
  waiters : list nat
}.

Definition NewReactorMutex (locked : bool) : ReactorMutex := mkMutex locked false [].

(** [__enter__] up to its loop: whether the caller has the mutex. *)
Definition __enter__ (g : nat) (m : ReactorMutex) : bool * ReactorMutex :=
  if negb (is_locked m) then (true, mkMutex true (next_pending m) (waiters m))
  else (false, mkMutex (is_locked m) (next_pending m) (waiters m ++ [g])).

(** One turn of the loop of [__enter__], after [Pause] returned. *)
Definition resumed (g : nat) (m : ReactorMutex) : go (bool * ReactorMutex) :=
  if next_pending m then
    first ← (waiters m).[0];
    if bool_decide (first = g) then
      rest ← slice (waiters m) 1 (len (waiters m));
      Ret (true, mkMutex (is_locked m) false rest)
    else Ret (false, m)
  else Ret (false, m).

(** [__exit__], with the greenlet whose timer is set to run at once. *)
Definition __exit__ (m : ReactorMutex) : option nat * ReactorMutex :=
  match waiters m with
  | [] => (None, mkMutex false (next_pending m) [])
  | g :: _ => (Some g, mkMutex (is_locked m) true (waiters m))
  end.

(** ** The system *)

(** The mutex, the greenlets that have it, and the orders in which greenlets
    asked for it and were given it. *)
Record sys := mkSys {
  mtx : ReactorMutex;
  inside : list nat;
  asked : list nat;
  granted : list nat
}.

Definition on_enter (g : nat) (s : sys) : sys :=
  let '(ok, m) := __enter__ g (mtx s) in
  if ok then mkSys m (inside s ++ [g]) (asked s ++ [g]) (granted s ++ [g])
  else mkSys m (inside s) (asked s ++ [g]) (granted s).

Definition on_exit (g : nat) (s : sys) : sys :=
  mkSys (__exit__ (mtx s)).2 (filter (λ g', g' ≠ g) (inside s)) (asked s) (granted s).

Inductive step (s : sys) : sys → Prop :=
| step_enter g : g ∉ inside s → g ∉ waiters (mtx s) → step s (on_enter g s)
| step_wake g m : g ∈ waiters (mtx s) → resumed g (mtx s) = Ret (true, m) →
    step s (mkSys m (inside s ++ [g]) (asked s) (granted s ++ [g]))
| step_sleep g m : g ∈ waiters (mtx s) → resumed g (mtx s) = Ret (false, m) →
    step s (mkSys m (inside s) (asked s) (granted s))
| step_exit g : g ∈ inside s → step s (on_exit g s).

(** A new mutex; a locked one belongs to greenlet [g0]. *)
Definition start (locked : bool) (g0 : nat) : sys :=
  let l := if locked then [g0] else [] in mkSys (NewReactorMutex locked) l l l.

(** The states of the mutex: free, taken, or being handed over. *)
Inductive mutex_state (s : sys) : Prop :=
| ms_free : is_locked (mtx s) = false → next_pending (mtx s) = false → waiters (mtx s) = [] → inside s = [] →
    mutex_state s
| ms_taken g : is_locked (mtx s) = true → next_pending (mtx s) = false → inside s = [g] → mutex_state s
| ms_handing g q : is_locked (mtx s) = true → next_pending (mtx s) = true → waiters (mtx s) = g :: q → inside s = [] →
    mutex_state s.

Definition mutex_inv (s : sys) : Prop := mutex_state s ∧ granted s ++ waiters (mtx s) = asked s.

Lemma resumed_cons g h q locked :
  resumed g (mkMutex locked true (h :: q)) =
    Ret (if bool_decide (h = g) then (true, mkMutex locked false q) else (false, mkMutex locked true (h :: q))).
Proof.
  unfold resumed. cbn [next_pending waiters is_locked]. rewrite index_0. cbn [mbind go_bind].
  case_bool_decide; [|done].
  pose proof (slice_app_mid [h] q [] 1 (len (h :: q))) as Hs. rewrite app_nil_r in Hs. cbn [app] in Hs.
  rewrite Hs; [done|by rewrite len_one|by rewrite len_cons, len_one].
Qed.

Lemma resumed_inv g m b m' :
  resumed g m = Ret (b, m') →
  if b then next_pending m = true ∧ ∃ q, waiters m = g :: q ∧ m' = mkMutex (is_locked m) false q else m' = m.
Proof.
  destruct m as [locked [|] [|h q]]; [discriminate| |by intros [= <- <-]..].
  rewrite resumed_cons. case_bool_decide; intros [= <- <-]; [|done]. subst h. split; [done|]. by exists q.
Qed.

Lemma step_inv s s' : step s s' → mutex_inv s → mutex_inv s'.
Proof.
  intros Hstep [Hst Hlog]. destruct Hstep as [g Hi Hw|g m Hg Hr|g m Hg Hr|g Hg].
  - unfold on_enter, __enter__. destruct Hst as [Hl Hp Hq Hin|g' Hl Hp Hin|g' q Hl Hp Hq Hin]; rewrite Hl; simpl.
    + split; [apply (ms_taken _ g); simpl; [done..|by rewrite Hin]|]. simpl. rewrite Hq in *. by rewrite <- Hlog, !app_nil_r.
    + split; [by apply (ms_taken _ g')|]. simpl. by rewrite <- Hlog, app_assoc.
    + split; [apply (ms_handing _ g' (q ++ [g])); simpl; [done..|by rewrite Hq|done]|]. simpl. by rewrite <- Hlog, app_assoc.
  - apply resumed_inv in Hr as (Hp' & q' & Hq' & ->).
    destruct Hst as [Hl Hp Hq Hin|g' Hl Hp Hin|g' q Hl Hp Hq Hin]; [congruence..|].
    split; [apply (ms_taken _ g); simpl; [done..|by rewrite Hin]|]. simpl.
    rewrite <- Hlog, Hq', <- app_assoc. done.
  - apply resumed_inv in Hr as ->. by destruct s.
  - destruct Hst as [Hl Hp Hq Hin|g' Hl Hp Hin|g' q Hl Hp Hq Hin]; rewrite Hin in Hg;
      [by apply not_elem_of_nil in Hg| |by apply not_elem_of_nil in Hg].
    apply list_elem_of_singleton in Hg as ->. unfold on_exit, __exit__.
    assert (Hempty : filter (λ x, x ≠ g') [g'] = []) by (rewrite filter_cons_False, filter_nil; [done|tauto]).
    destruct (waiters (mtx s)) as [|h q] eqn:Hq; simpl; rewrite Hin, Hempty.
    + split; [by apply ms_free|done].
    + split; [apply (ms_handing _ h q); done|done].
Qed.

(** C25. Along any interleaving of greenlets that enter, resume and leave, at most one is
    inside the mutex, and those waiting get in in the order in which they asked. *)
Theorem mutex_exclusive_and_fair (locked : bool) (g0 : nat) (s : sys) :
  rtc step (start locked g0) s →
  (length (inside s) ≤ 1)%nat ∧
  granted s ++ waiters (mtx s) = asked s ∧
  (∀ g, returns (resumed g (mtx s)) = true) ∧
  (is_locked (mtx s) = false ↔ inside s = [] ∧ waiters (mtx s) = []) ∧
  (∀ g q, waiters (mtx s) = g :: q → inside s = [] → ∃ m, resumed g (mtx s) = Ret (true, m)).
Proof.
  intros Hreach. assert (Hinv : mutex_inv s).
  { assert (H0 : mutex_inv (start locked g0)).
    { destruct locked; split; [by apply (ms_taken _ g0)|done|by apply ms_free|done]. }
    revert H0. induction Hreach; eauto using step_inv. }
  destruct Hinv as [Hst Hlog]. destruct s as [[l p ws] ins ask gr]; simpl in *.
  destruct Hst as [Hl Hp Hq Hin|g' Hl Hp Hin|g' q' Hl Hp Hq Hin]; simpl in *; subst; split_and!; try done; try (simpl; lia);
    try by split; [|intros [? ?]].
  - intros g. by rewrite resumed_cons.
  - intros g q [= -> ->] _. rewrite resumed_cons, bool_decide_true by done. by eexists.
Qed.

(** Three greenlets ask in turn; the first gives the mutex up. *)
Definition demo_sys : sys :=
  let s := on_exit 1 (on_enter 3 (on_enter 2 (on_enter 1 (start false 0)))) in
  mkSys (mkMutex true false [3%nat]) (inside s ++ [2%nat]) (asked s) (granted s ++ [2%nat]).

Lemma mutex_exclusive_and_fair_witness : granted demo_sys ++ waiters (mtx demo_sys) = [1; 2; 3]%nat.
Proof.
  refine (eq_trans (proj1 (proj2 (mutex_exclusive_and_fair false 0 demo_sys _))) _); [|reflexivity].
  eapply rtc_l; [apply (step_enter _ 1); by_decide|].
  eapply rtc_l; [apply (step_enter _ 2); by_decide|].
  eapply rtc_l; [apply (step_enter _ 3); by_decide|].
  eapply rtc_l; [apply (step_exit _ 1); by_decide|].
  apply rtc_once.
  exact (step_wake (on_exit 1 (on_enter 3 (on_enter 2 (on_enter 1 (start false 0))))) 2 (mkMutex true false [3%nat])
    ltac:(by_decide) ltac:(reflexivity)).
Defined.
