(* ===== verification/LookAhead.v ===== *)
(** * The look-ahead queue

    [src/internal/pkg/motion/move_queue.go]: the moves waiting to be sent, their
    speed limits, and the pass that chooses the speed at every junction;
    [move_batch.go]: handing a batch of planned moves to the steppers.  All
    speeds are squared ([_v2]).  Timing callbacks are named by numbers. *)

From S2P Require Import Prelude GoFloat GoStrings GoState.

Record MoveConfig := mkConfig {
  Max_accel : f64;
  config_Junction_deviation : f64;
  Max_velocity : f64;
  Max_accel_to_decel : f64
}.

Record Move := mkMove {
  Start_pos : list f64;
  End_pos : list f64;
  Accel : f64;
  Junction_deviation : f64;
  Timing_callbacks : list nat;
  Is_kinematic_move : bool;
  Axes_d : list f64;
  Move_d : f64;
  Axes_r : list f64;
  Min_move_t : f64;
  Max_start_v2 : f64;
  Max_cruise_v2 : f64;
  Delta_v2 : f64;
  Next_junction_v2 : f64;
  Max_mcr_start_v2 : f64;
  Mcr_delta_v2 : f64;
  Max_smoothed_v2 : f64;
  Smooth_delta_v2 : f64;
  Start_v : f64;
  Cruise_v : f64;
  End_v : f64;
  Accel_t : f64;
  Cruise_t : f64;
  Decel_t : f64
}.

Definition half : f64 := f_lit 1 2.
Definition f2 : f64 := f_of_Z 2.

(** ** Moves *)

Definition NewMove (config : MoveConfig) (start_pos end_pos : list f64) (speed : f64) : go Move :=
  e0 ← end_pos.[0]; s0 ← start_pos.[0]; e1 ← end_pos.[1]; s1 ← start_pos.[1];
  e2 ← end_pos.[2]; s2 ← start_pos.[2]; e3 ← end_pos.[3]; s3 ← start_pos.[3];
  let d0 := fsub e0 s0 in let d1 := fsub e1 s1 in let d2 := fsub e2 s2 in let d3 := fsub e3 s3 in
  let move_d := fsqrt (fadd (fadd (fmul d0 d0) (fmul d1 d1)) (fmul d2 d2)) in
  let extrude := flt move_d (f_lit 1 1000000000) in
  let endp := if extrude then [s0; s1; s2; e3] else end_pos in
  let axes_d := if extrude then [f0; f0; f0; d3] else [d0; d1; d2; d3] in
  let move_d := if extrude then fabs d3 else move_d in
  let inv_move_d := if extrude then (if negb (feq move_d f0) then fdiv f1 move_d else f0) else fdiv f1 move_d in
  let accel := if extrude then f_lit 999999999 10 else Max_accel config in
  let velocity := if extrude then speed else fmin speed (Max_velocity config) in
  let mcr := fmul (fmul f2 move_d) (Max_accel_to_decel config) in
  Ret (mkMove start_pos endp accel (config_Junction_deviation config) [] (negb extrude) axes_d move_d
    ((λ d, fmul d inv_move_d) <$> axes_d) (fdiv move_d velocity) f0 (fmul velocity velocity)
    (fmul (fmul f2 move_d) accel) (f_lit 9999999999 10) f0 mcr f0 mcr f0 f0 f0 f0 f0 f0).

Definition Limit_speed (speed accel : f64) (m : Move) : Move :=
  let speed2 := fmul speed speed in
  let slower := flt speed2 (Max_cruise_v2 m) in
  let cruise := if slower then speed2 else Max_cruise_v2 m in
  let min_t := if slower then fdiv (Move_d m) speed else Min_move_t m in
  let accel := fmin (Accel m) accel in
  let delta := fmul (fmul f2 (Move_d m)) accel in
  let mcr := fmin (Mcr_delta_v2 m) delta in
  mkMove (Start_pos m) (End_pos m) accel (Junction_deviation m) (Timing_callbacks m) (Is_kinematic_move m)
    (Axes_d m) (Move_d m) (Axes_r m) min_t (Max_start_v2 m) cruise delta (Next_junction_v2 m) (Max_mcr_start_v2
    m) mcr (Max_smoothed_v2 m) mcr (Start_v m) (Cruise_v m) (End_v m) (Accel_t m) (Cruise_t m) (Decel_t m).

Definition Limit_next_junction_speed (speed : f64) (m : Move) : Move :=
  let v2 := fmin (Next_junction_v2 m) (fmul speed speed) in
  mkMove (Start_pos m) (End_pos m) (Accel m) (Junction_deviation m) (Timing_callbacks m) (Is_kinematic_move m)
    (Axes_d m) (Move_d m) (Axes_r m) (Min_move_t m) (Max_start_v2 m) (Max_cruise_v2 m) (Delta_v2 m) v2
    (Max_mcr_start_v2 m) (Mcr_delta_v2 m) (Max_smoothed_v2 m) (Smooth_delta_v2 m) (Start_v m) (Cruise_v m)
    (End_v m) (Accel_t m) (Cruise_t m) (Decel_t m).

Definition customMin (values : list f64) : f64 :=
  match values with
  | [] => f0
  | v :: values => fold_left (λ minValue v, if flt v minValue then v else minValue) values v
  end.

(** The three limits that a junction sets. *)
Definition with_start (max_start mcr_start : f64) (m : Move) : Move :=
  mkMove (Start_pos m) (End_pos m) (Accel m) (Junction_deviation m) (Timing_callbacks m) (Is_kinematic_move m)
    (Axes_d m) (Move_d m) (Axes_r m) (Min_move_t m) max_start (Max_cruise_v2 m) (Delta_v2 m) (Next_junction_v2
    m) mcr_start (Mcr_delta_v2 m) mcr_start (Smooth_delta_v2 m) (Start_v m) (Cruise_v m) (End_v m) (Accel_t m)
    (Cruise_t m) (Decel_t m).

(** The limits on the speed at the corner with the previous move. *)
Definition corner_limits (prev m : Move) (max_start_v2 : f64) : go f64 :=
  a0 ← (Axes_r m).[0]; p0 ← (Axes_r prev).[0]; a1 ← (Axes_r m).[1]; p1 ← (Axes_r prev).[1];
  a2 ← (Axes_r m).[2]; p2 ← (Axes_r prev).[2];
  let junction_cos_theta := fneg (fadd (fadd (fmul a0 p0) (fmul a1 p1)) (fmul a2 p2)) in
  let sin_theta_d2 := fsqrt (fmax (fmul half (fsub f1 junction_cos_theta)) f0) in
  let cos_theta_d2 := fsqrt (fmax (fmul half (fadd f1 junction_cos_theta)) f0) in
  let one_minus_sin_theta_d2 := fsub f1 sin_theta_d2 in
  Ret (if flt f0 one_minus_sin_theta_d2 && flt f0 cos_theta_d2 then
         let R_jd := fdiv sin_theta_d2 one_minus_sin_theta_d2 in
         let quarter_tan_theta_d2 := fdiv (fmul (f_lit 1 4) sin_theta_d2) cos_theta_d2 in
         customMin [max_start_v2;
           fmul (fmul R_jd (Junction_deviation m)) (Accel m);
           fmul (fmul R_jd (Junction_deviation prev)) (Accel prev);
           fmul (Delta_v2 m) quarter_tan_theta_d2;
           fmul (Delta_v2 prev) quarter_tan_theta_d2]
       else max_start_v2).

(** [extruder] is the calculator of the extruder, if there is one. *)
Definition Calc_junction (prev : Move) (extruder : option (Move → Move → f64)) (m : Move) : go Move :=
  if negb (Is_kinematic_move m) || negb (Is_kinematic_move prev) then Ret m
  else
    let extruder_v2 := match extruder with Some f => f prev m | None => Max_cruise_v2 m end in
    max_start_v2 ← corner_limits prev m
      (customMin [extruder_v2; Max_cruise_v2 m; Max_cruise_v2 prev; Next_junction_v2 prev;
         fadd (Max_start_v2 prev) (Delta_v2 prev)]);
    Ret (with_start max_start_v2 (fmin max_start_v2 (fadd (Max_mcr_start_v2 prev) (Mcr_delta_v2 prev))) m).

Definition Set_junction (start_v2 cruise_v2 end_v2 : f64) (m : Move) : Move :=
  let half_inv_accel := fdiv half (Accel m) in
  let accel_d := fmul (fsub cruise_v2 start_v2) half_inv_accel in
  let decel_d := fmul (fsub cruise_v2 end_v2) half_inv_accel in
  let cruise_d := fsub (fsub (Move_d m) accel_d) decel_d in
  let start_v := fsqrt start_v2 in
  let cruise_v := fsqrt cruise_v2 in
  let end_v := fsqrt end_v2 in
  let accel_t := fdiv accel_d (fmul (fadd start_v cruise_v) half) in
  let cruise_t := fdiv cruise_d cruise_v in
  let decel_t := fdiv decel_d (fmul (fadd end_v cruise_v) half) in
  mkMove (Start_pos m) (End_pos m) (Accel m) (Junction_deviation m) (Timing_callbacks m) (Is_kinematic_move m)
    (Axes_d m) (Move_d m) (Axes_r m) (Min_move_t m) (Max_start_v2 m) (Max_cruise_v2 m) (Delta_v2 m)
    (Next_junction_v2 m) (Max_mcr_start_v2 m) (Mcr_delta_v2 m) (Max_smoothed_v2 m) (Smooth_delta_v2 m) start_v
    cruise_v end_v accel_t cruise_t decel_t.

(** ** The queue *)

Definition LOOKAHEAD_FLUSH_TIME : f64 := f_lit 150 1000.

Record LookAheadQueue := mkQueue { queue : list Move; junction_flush : f64 }.

Definition NewMoveQueue : LookAheadQueue := mkQueue [] LOOKAHEAD_FLUSH_TIME.
Definition Reset (q : LookAheadQueue) : LookAheadQueue := mkQueue [] LOOKAHEAD_FLUSH_TIME.
Definition Set_flush_time (t : f64) (q : LookAheadQueue) : LookAheadQueue := mkQueue (queue q) t.
Definition Get_last (q : LookAheadQueue) : option Move := last (queue q).

Definition Add_move (m : Move) (extruder : option (Move → Move → f64)) (q : LookAheadQueue)
    : go (bool * LookAheadQueue) :=
  match last (queue q) with
  | None => Ret (false, mkQueue (queue q ++ [m]) (junction_flush q))
  | Some prev =>
      m ← Calc_junction prev extruder m;
      let t := fsub (junction_flush q) (Min_move_t m) in
      Ret (fle t f0, mkQueue (queue q ++ [m]) t)
  end.

(** [Toolhead.Register_lookahead_callback] on a queue that is not empty. *)
Definition with_callback (cb : nat) (m : Move) : Move :=
  mkMove (Start_pos m) (End_pos m) (Accel m) (Junction_deviation m) (Timing_callbacks m ++ [cb]) (Is_kinematic_move
    m) (Axes_d m) (Move_d m) (Axes_r m) (Min_move_t m) (Max_start_v2 m) (Max_cruise_v2 m) (Delta_v2 m)
    (Next_junction_v2 m) (Max_mcr_start_v2 m) (Mcr_delta_v2 m) (Max_smoothed_v2 m) (Smooth_delta_v2 m) (Start_v m)
    (Cruise_v m) (End_v m) (Accel_t m) (Cruise_t m) (Decel_t m).

Definition note_callback (cb : nat) (q : LookAheadQueue) : LookAheadQueue :=
  match last (queue q) with
  | Some m => mkQueue (removelast (queue q) ++ [with_callback cb m]) (junction_flush q)
  | None => q
  end.

(** ** The flush *)

Record junctionNode := mkNode {
  n_move : Move;
  StartV2 : f64;
  CruiseV2 : option f64;              (* HasCruiseV2, CruiseV2 *)
  NextStartV2 : f64
}.

(** The variables of the backward pass, the nodes filled so far in queue order. *)
Record pass := mkPass {
  next_start_v2 : f64;
  next_mcr_start_v2 : f64;
  peak_cruise_v2 : f64;
  pending_cruise_assign : Z;
  flush_count : Z;
  update_flush_count : bool;
  nodes : list junctionNode
}.

(** The body of the backward pass at index [i]. *)
Definition pass_step (i : Z) (move : Move) (p : pass) : pass :=
  let reachable_start_v2 := fadd (next_start_v2 p) (Delta_v2 move) in
  let start_v2 := fmin (Max_start_v2 move) reachable_start_v2 in
  let pending := pending_cruise_assign p + 1 in
  let reachable_mcr_start_v2 := fadd (next_mcr_start_v2 p) (Mcr_delta_v2 move) in
  let mcr_start_v2 := fmin (Max_mcr_start_v2 move) reachable_mcr_start_v2 in
  if flt mcr_start_v2 reachable_mcr_start_v2 then
    let new_peak := flt (next_mcr_start_v2 p) (fadd mcr_start_v2 (Mcr_delta_v2 move)) || bool_decide (1 < pending) in
    let settle := new_peak && update_flush_count p && negb (feq (peak_cruise_v2 p) f0) in
    let peak := if new_peak then fmul (fadd mcr_start_v2 reachable_mcr_start_v2) half else peak_cruise_v2 p in
    let cruise_v2 := customMin [fmul (fadd start_v2 reachable_start_v2) half; Max_cruise_v2 move; peak] in
    mkPass start_v2 mcr_start_v2 peak 0 (if settle then i + pending else flush_count p)
      (if settle then false else update_flush_count p) (mkNode move start_v2 (Some cruise_v2) (next_start_v2 p) :: nodes p)
  else
    mkPass start_v2 mcr_start_v2 (peak_cruise_v2 p) pending (flush_count p) (update_flush_count p)
      (mkNode move start_v2 None (next_start_v2 p) :: nodes p).

(** The pass over the moves from index [i] on, last one first. *)
Fixpoint backward (lazy : bool) (i : Z) (moves : list Move) : pass :=
  match moves with
  | [] => mkPass f0 f0 f0 0 i lazy []
  | move :: moves => pass_step i move (backward lazy (i + 1) moves)
  end.

(** The forward pass: the junctions of the nodes, given the cruise speed before. *)
Fixpoint assign_junctions (prev_cruise_v2 : f64) (ns : list junctionNode) : list Move :=
  match ns with
  | [] => []
  | n :: ns =>
      let cruise_v2 := match CruiseV2 n with Some c => c | None => fmin prev_cruise_v2 (StartV2 n) end in
      Set_junction (fmin (StartV2 n) cruise_v2) cruise_v2 (fmin (NextStartV2 n) cruise_v2) (n_move n)
        :: assign_junctions cruise_v2 ns
  end.

(** The moves handed to [Process_moves] and the queue afterwards. *)
Definition Flush (lazy : bool) (q : LookAheadQueue) : list Move * LookAheadQueue :=
  let p := backward lazy 0 (queue q) in
  if update_flush_count p || bool_decide (flush_count p ≤ 0) then ([], mkQueue (queue q) LOOKAHEAD_FLUSH_TIME)
  else
    let n := Z.to_nat (flush_count p) in
    (assign_junctions f0 (take n (nodes p)), mkQueue (drop n (queue q)) LOOKAHEAD_FLUSH_TIME).

(** ** Handing a batch over *)

(** What the sink and the callbacks are told, in order. *)
Inductive batch_event :=
| QueueKinematicMove (printTime : f64) (m : Move)
| QueueExtruderMove (printTime : f64) (m : Move)
| TimingCallback (cb : nat) (printTime : f64).

Fixpoint QueueMoveBatch (nextMoveTime : f64) (moves : list Move) : go (list batch_event * f64) :=
  match moves with
  | [] => Ret ([], nextMoveTime)
  | m :: moves =>
      e ← (Axes_d m).[3];
      let t' := fadd nextMoveTime (fadd (fadd (Accel_t m) (Cruise_t m)) (Decel_t m)) in
      '(evs, t) ← QueueMoveBatch t' moves;
      Ret ((if Is_kinematic_move m then [QueueKinematicMove nextMoveTime m] else []) ++
           (if negb (feq e f0) then [QueueExtruderMove nextMoveTime m] else []) ++
           ((λ cb, TimingCallback cb t') <$> Timing_callbacks m) ++ evs, t)
  end.
