(* ===== verification/LookAheadThy.v ===== *)
(** * Theorems on the look-ahead queue

    Every flush hands over a prefix of the queue in order and keeps the rest
    ([Flush_conserves_moves]); for a queue filled through [NewMove], the limits
    and [Add_move], the speeds that it plans respect every limit of the moves
    ([Flush_respects_limits]). *)

From S2P Require Import Prelude GoFloat GoStrings GoState LookAhead.

Create HintDb speeds.
#[export] Hint Resolve nonneg_not_nan nonneg_ge_0 fadd_nonneg fmin_nonneg notneg_nonneg fmul_notneg
  fmul_square_notneg fsqrt_notneg fle_refl Forall_nil_2 Forall_cons_2 : speeds.
Ltac speed := eauto 20 with speeds nocore.

(** ** What a move must satisfy to be planned *)

Record move_ok (m : Move) : Prop := {
  ok_start : nonneg (Max_start_v2 m) = true;
  ok_cruise : nonneg (Max_cruise_v2 m) = true;
  ok_delta : nonneg (Delta_v2 m) = true;
  ok_mcr_start : nonneg (Max_mcr_start_v2 m) = true;
  ok_mcr_delta : nonneg (Mcr_delta_v2 m) = true;
  ok_next : nonneg (Next_junction_v2 m) = true;
  ok_start_cruise : fle (Max_start_v2 m) (Max_cruise_v2 m) = true;
  ok_accel : fpos (Accel m) = true;
  ok_deviation : nonneg (Junction_deviation m) = true;
  ok_distance : nonneg (Move_d m) = true
}.
#[export] Hint Resolve ok_start ok_cruise ok_delta ok_mcr_start ok_mcr_delta ok_next ok_start_cruise
  ok_accel ok_deviation ok_distance fpos_nonneg : speeds.

(** [customMin] keeps a number that is not NaN, never picks a NaN, and is below
    its first argument. *)
Lemma customMin_spec v vs :
  nonneg v = true → Forall (λ x, notneg x = true) vs →
  nonneg (customMin (v :: vs)) = true ∧ fle (customMin (v :: vs)) v = true.
Proof.
  simpl. revert v. induction vs as [|x vs IH]; intros v Hv Hvs; simpl; [split; speed|].
  apply Forall_cons in Hvs as [Hx Hvs]. destruct (flt x v) eqn:E; [|auto].
  destruct (flt_not_nan _ _ E). destruct (IH x) as [H1 H2]; [by apply notneg_num|done|].
  split; [done|]. eapply fle_trans; [done|]. by apply flt_fle.
Qed.

Lemma customMin_le v vs x :
  nonneg v = true → Forall (λ x, nonneg x = true) vs → x ∈ v :: vs → fle (customMin (v :: vs)) x = true.
Proof.
  simpl. revert v. induction vs as [|y vs IH]; intros v Hv Hvs Hx; simpl.
  { apply list_elem_of_singleton in Hx as ->. speed. }
  apply Forall_cons in Hvs as [Hy Hvs].
  assert (Hle : ∀ w, nonneg w = true → fle (fold_left (λ minValue v, if flt v minValue then v else minValue) vs w) w = true).
  { intros w Hw. apply (customMin_spec w vs); [done|]. eapply Forall_impl; [done|]. speed. }
  apply elem_of_cons in Hx as [-> |[-> |Hx]%elem_of_cons].
  - destruct (flt y v) eqn:E; [|by apply Hle]. eapply fle_trans; [by apply Hle|]. by apply flt_fle.
  - destruct (flt y v) eqn:E; [by apply Hle|]. eapply fle_trans; [by apply Hle|].
    apply flt_false_fle; speed.
  - apply IH; [by destruct (flt y v)|done|set_solver].
Qed.

#[local] Arguments customMin : simpl never.

(** ** The backward pass *)

Definition head_start (ns : list junctionNode) : f64 := match ns with [] => f0 | n :: _ => StartV2 n end.

Record node_ok (n : junctionNode) : Prop := {
  nd_move : move_ok (n_move n);
  nd_start : StartV2 n = fmin (Max_start_v2 (n_move n)) (fadd (NextStartV2 n) (Delta_v2 (n_move n)));
  nd_next : nonneg (NextStartV2 n) = true;
  nd_cruise c : CruiseV2 n = Some c → nonneg c = true ∧ fle c (Max_cruise_v2 (n_move n)) = true
}.

Fixpoint linked (ns : list junctionNode) : Prop :=
  match ns with [] => True | n :: ns => NextStartV2 n = head_start ns ∧ linked ns end.

Record pass_ok (p : pass) : Prop := {
  ps_start : next_start_v2 p = head_start (nodes p);
  ps_nonneg : nonneg (next_start_v2 p) = true;
  ps_mcr : nonneg (next_mcr_start_v2 p) = true;
  ps_peak : nonneg (peak_cruise_v2 p) = true;
  ps_nodes : Forall node_ok (nodes p);
  ps_linked : linked (nodes p)
}.
#[export] Hint Resolve ps_nonneg ps_mcr ps_peak nd_next nd_move : speeds.

Lemma half_nonneg x : nonneg x = true → nonneg (fmul x half) = true.
Proof. apply fmul_nonneg. Qed.
#[export] Hint Resolve half_nonneg : speeds.

Lemma pass_step_ok i m p : move_ok m → pass_ok p → pass_ok (pass_step i m p).
Proof.
  intros Hm Hp. unfold pass_step.
  set (start := fmin (Max_start_v2 m) _). set (mcr := fmin (Max_mcr_start_v2 m) _).
  assert (nonneg start = true) by (unfold start; speed).
  assert (nonneg mcr = true) by (unfold mcr; speed).
  assert (Hn : ∀ c, (∀ v, c = Some v → nonneg v = true ∧ fle v (Max_cruise_v2 m) = true) →
    node_ok (mkNode m start c (next_start_v2 p))).
  { intros c Hc. by constructor; simpl; speed. }
  destruct (flt mcr _) eqn:E.
  - set (peak := if _ || _ then _ else _).
    assert (nonneg peak = true) by (unfold peak; destruct (_ || _); speed).
    constructor; simpl; try done; [constructor; [|apply Hp]|split; [apply Hp|apply Hp]].
    apply Hn. intros v [= <-]. split.
    + apply customMin_spec; speed.
    + apply customMin_le; [speed|speed|set_solver].
  - constructor; simpl; try done; [apply Hp|constructor; [by apply Hn|apply Hp]|split; [apply Hp|apply Hp]].
Qed.

Lemma backward_ok lazy i ms : Forall move_ok ms → pass_ok (backward lazy i ms).
Proof.
  intros H. revert i. induction H as [|m ms Hm _ IH]; intros i; simpl; [by constructor|].
  by apply pass_step_ok.
Qed.

Lemma backward_moves lazy i ms : n_move <$> nodes (backward lazy i ms) = ms.
Proof.
  revert i. induction ms as [|m ms IH]; intros i; simpl; [done|].
  unfold pass_step. destruct (flt _ _); simpl; by rewrite IH.
Qed.

Lemma backward_length lazy i ms : length (nodes (backward lazy i ms)) = length ms.
Proof. by rewrite <- (backward_moves lazy i ms) at 2; rewrite length_fmap. Qed.

(** The count of moves to flush never exceeds the moves seen. *)
Lemma backward_count lazy i ms (p := backward lazy i ms) :
  0 ≤ pending_cruise_assign p ≤ len ms ∧ flush_count p ≤ i + len ms.
Proof.
  subst p. revert i. induction ms as [|m ms IH]; intros i; simpl; [unfold len; simpl; lia|].
  specialize (IH (i + 1)). rewrite len_cons. unfold pass_step.
  destruct (flt _ _); simpl; [|lia]. destruct (_ && _); simpl; lia.
Qed.

Lemma backward_eager i ms (p := backward false i ms) :
  update_flush_count p = false ∧ flush_count p = i + len ms.
Proof.
  subst p. revert i. induction ms as [|m ms IH]; intros i; simpl; [unfold len; simpl; lia|].
  destruct (IH (i + 1)) as [Hu Hc]. rewrite len_cons. unfold pass_step. rewrite Hu.
  destruct (flt _ _); simpl; rewrite ?andb_false_r; simpl; split; [done|lia|done|lia].
Qed.

(** ** The forward pass *)

Lemma assign_junctions_lookup prev ns i m :
  assign_junctions prev ns !! i = Some m →
  ∃ n c, ns !! i = Some n ∧ m = Set_junction (fmin (StartV2 n) c) c (fmin (NextStartV2 n) c) (n_move n) ∧
    (nonneg prev = true → Forall node_ok ns → nonneg c = true ∧ fle c (Max_cruise_v2 (n_move n)) = true).
Proof.
  revert prev i. induction ns as [|n ns IH]; intros prev i; simpl; [done|].
  set (c := match CruiseV2 n with Some _ => _ | None => _ end).
  assert (Hc : nonneg prev = true → node_ok n → nonneg c = true ∧ fle c (Max_cruise_v2 (n_move n)) = true).
  { intros Hp Hn. subst c. destruct (CruiseV2 n) as [c|] eqn:E; [by apply Hn|].
    rewrite (nd_start _ Hn). assert (nonneg (fmin (Max_start_v2 (n_move n)) (fadd (NextStartV2 n) (Delta_v2
      (n_move n)))) = true) by speed. split; [by apply fmin_nonneg|].
    eapply fle_trans; [by apply fmin_le_r|]. pose proof (nd_move _ Hn).
    eapply fle_trans; [apply fmin_le_l; speed|by apply ok_start_cruise]. }
  destruct i as [|i]; simpl.
  - intros [= <-]. exists n, c. split_and!; [done..|]. intros Hp [??]%Forall_cons. auto.
  - intros H. destruct (IH _ _ H) as (n' & c' & ? & ? & Hc'). exists n', c'. split_and!; [done..|].
    intros Hp [Hn ?]%Forall_cons. apply Hc'; [|done]. by apply Hc.
Qed.

Lemma assign_junctions_length prev ns : length (assign_junctions prev ns) = length ns.
Proof. revert prev. induction ns as [|n ns IH]; intros prev; simpl; [done|by rewrite IH]. Qed.

(** ** The moves of the queue are well formed *)

Definition config_ok (c : MoveConfig) : Prop :=
  fpos (Max_accel c) = true ∧ fpos (Max_accel_to_decel c) = true ∧ nonneg (config_Junction_deviation c) = true.

Definition finite_position (p : list f64) : Prop := Forall (λ x, ffin x = true) p.

(** A move before it joins the queue: the head starts it from rest. *)
Definition fresh (m : Move) : Prop := move_ok m ∧ Max_start_v2 m = f0.

Lemma square_nonneg x : is_nan x = false → nonneg (fmul x x) = true.
Proof.
  intros H. apply notneg_num; [speed|]. destruct x as [[]|[]| |[] mx ex]; try done;
    apply nonneg_not_nan, round_nonneg; done.
Qed.

Lemma f2_nonneg x : nonneg x = true → nonneg (fmul f2 x) = true.
Proof. intros H. destruct x as [[]|[]| |[] mx ex]; try done. by apply round_nonneg. Qed.

Lemma index_finite p i x : finite_position p → p.[i] = Ret x → ffin x = true.
Proof. intros H E. apply index_Ret_inv in E as [_ E]. by eapply Forall_lookup in H. Qed.

#[export] Hint Resolve square_nonneg f2_nonneg fmul_positive fsub_finite fabs_nonneg : speeds.

Lemma NewMove_fresh config start_pos end_pos spd m :
  config_ok config → finite_position start_pos → finite_position end_pos →
  is_nan spd = false → is_nan (Max_velocity config) = false →
  NewMove config start_pos end_pos spd = Ret m → fresh m.
Proof.
  intros (Ha & Hd & Hj) Hs He Hv Hmax H. unfold NewMove in H.
  repeat (apply bind_ret_inv in H as (? & ? & H)). apply Ret_inj in H as <-.
  repeat match goal with I : _.[_] = Ret _ |- _ => apply index_finite in I; [|done] end.
  set (d := fsqrt _).
  assert (Hnd : nonneg d = true).
  { assert (Hsum : nonneg (fadd (fadd (fmul (fsub x x0) (fsub x x0)) (fmul (fsub x1 x2) (fsub x1 x2)))
      (fmul (fsub x3 x4) (fsub x3 x4))) = true) by speed.
    unfold d. destruct (fadd _ _) as [[]|[]| |[] mx ex]; try done.
    apply notneg_num; [by apply fsqrt_notneg|]. apply (fsqrt_number _ _). }
  split; [|done]. set (ex := flt d _).
  assert (nonneg (if ex then fabs (fsub x5 x6) else d) = true) by (destruct ex; speed).
  assert (is_nan (if ex then spd else fmin spd (Max_velocity config)) = false).
  { destruct ex; [done|]. by destruct (fmin_cases spd (Max_velocity config)) as [[-> | ->] _]. }
  assert (fpos (if ex then f_lit 999999999 10 else Max_accel config) = true) by (by destruct ex).
  constructor; cbn [Max_start_v2 Max_cruise_v2 Delta_v2 Max_mcr_start_v2 Mcr_delta_v2 Next_junction_v2 Accel
    Junction_deviation Move_d]; try reflexivity; speed.
Qed.

Lemma Limit_speed_fresh spd a m :
  flt f0 a = true → fresh m → fresh (Limit_speed spd a m).
Proof.
  intros Ha [Hm H0]. assert (Hacc : fpos (fmin (Accel m) a) = true) by (apply fmin_positive; speed).
  assert (Hdelta : nonneg (fmul (fmul f2 (Move_d m)) (fmin (Accel m) a)) = true) by speed.
  assert (Hcr : nonneg (if flt (fmul spd spd) (Max_cruise_v2 m) then fmul spd spd else Max_cruise_v2 m) = true).
  { destruct (flt (fmul spd spd) _) eqn:E; [|speed]. apply flt_not_nan in E as [E _]. apply notneg_num; speed. }
  split; [|done]. unfold Limit_speed. constructor; cbn [Max_start_v2 Max_cruise_v2 Delta_v2 Max_mcr_start_v2
    Mcr_delta_v2 Next_junction_v2 Accel Junction_deviation Move_d]; rewrite ?H0; try reflexivity; speed.
Qed.

Lemma Limit_next_junction_speed_fresh spd m :
  is_nan spd = false → fresh m → fresh (Limit_next_junction_speed spd m).
Proof. intros Hs [Hm H0]. split; [|done]. destruct Hm. constructor; simpl; speed. Qed.

(** The junction with the previous move keeps a move well formed. *)
Lemma corner_limits_ok prev m v r :
  move_ok prev → move_ok m → nonneg v = true → corner_limits prev m v = Ret r →
  nonneg r = true ∧ fle r v = true.
Proof.
  intros Hp Hm Hv H. unfold corner_limits in H.
  repeat (apply bind_ret_inv in H as (? & ? & H)). apply Ret_inj in H as <-.
  set (sin := fsqrt (fmax (fmul half (fsub _ _)) _)). set (cos := fsqrt (fmax (fmul half (fadd _ _)) _)).
  destruct (flt f0 (fsub f1 sin) && flt f0 cos) eqn:E; [|split; speed].
  apply andb_true_iff in E as [E1 E2]. assert (Hs : notneg sin = true) by apply fsqrt_clamped.
  assert (notneg (fdiv sin (fsub f1 sin)) = true) by by apply fdiv_notneg.
  assert (notneg (fdiv (fmul (f_lit 1 4) sin) cos) = true) by (apply fdiv_notneg; [apply fmul_notneg; done|done]).
  apply customMin_spec; [done|]. repeat apply Forall_cons_2; speed.
Qed.

Lemma Calc_junction_ok prev ext m m' :
  move_ok prev → move_ok m → (∀ f, ext = Some f → nonneg (f prev m) = true) →
  Calc_junction prev ext m = Ret m' → move_ok m'.
Proof.
  intros Hp Hm Hext H. unfold Calc_junction in H. destruct (_ || _); [by apply Ret_inj in H as <-|].
  apply bind_ret_inv in H as (r & Hr & H). apply Ret_inj in H as <-.
  set (e := match ext with Some f => f prev m | None => Max_cruise_v2 m end) in Hr.
  assert (He : nonneg e = true) by (subst e; destruct ext; [by apply Hext|speed]).
  match type of Hr with corner_limits _ _ (customMin (_ :: ?l)) = _ =>
    assert (Hl : Forall (λ x, nonneg x = true) l) by (repeat apply Forall_cons_2; speed);
    assert (Hv : nonneg (customMin (e :: l)) = true)
      by (apply customMin_spec; [done|]; eapply Forall_impl; [exact Hl|]; speed) end.
  destruct (corner_limits_ok _ _ _ _ Hp Hm Hv Hr) as [Hr0 Hle].
  assert (Hle' : fle r (Max_cruise_v2 m) = true).
  { eapply fle_trans; [done|]. apply customMin_le; [done..|set_solver]. }
  constructor; cbn [with_start Max_start_v2 Max_cruise_v2 Delta_v2 Max_mcr_start_v2 Mcr_delta_v2 Next_junction_v2
    Accel Junction_deviation Move_d]; speed.
Qed.

(** ** Queues that the toolhead builds *)

(** A move as the toolhead and the kinematics prepare it. *)
Inductive prepared : Move → Prop :=
| prepared_new config start_pos end_pos spd m :
    config_ok config → finite_position start_pos → finite_position end_pos →
    is_nan spd = false → is_nan (Max_velocity config) = false →
    NewMove config start_pos end_pos spd = Ret m → prepared m
| prepared_limit spd a m : flt f0 a = true → prepared m → prepared (Limit_speed spd a m)
| prepared_junction spd m : is_nan spd = false → prepared m → prepared (Limit_next_junction_speed spd m).

(** The calculator of the extruder answers with a squared speed. *)
Definition calculator_ok (ext : option (Move → Move → f64)) : Prop :=
  ∀ f prev m, ext = Some f → nonneg (f prev m) = true.

Inductive reachable : LookAheadQueue → Prop :=
| reach_new : reachable NewMoveQueue
| reach_reset q : reachable q → reachable (Reset q)
| reach_flush_time t q : reachable q → reachable (Set_flush_time t q)
| reach_add m ext b q q' : reachable q → prepared m → calculator_ok ext →
    Add_move m ext q = Ret (b, q') → reachable q'
| reach_callback cb q : reachable q → reachable (note_callback cb q)
| reach_flush lazy q : reachable q → reachable (Flush lazy q).2.

Lemma prepared_fresh m : prepared m → fresh m.
Proof.
  induction 1; eauto using NewMove_fresh, Limit_speed_fresh, Limit_next_junction_speed_fresh.
Qed.

Lemma Add_move_ok m ext b q q' :
  Forall move_ok (queue q) → fresh m → calculator_ok ext → Add_move m ext q = Ret (b, q') →
  Forall move_ok (queue q').
Proof.
  intros Hq [Hm _] Hext H. unfold Add_move in H. destruct (last (queue q)) as [prev|] eqn:E.
  - apply bind_ret_inv in H as (m' & Hj & H). injection H as _ <-. apply Forall_app. split; [done|].
    constructor; [|done]. eapply Calc_junction_ok; [|done| |done]; [|intros; by eapply Hext].
    apply last_Some in E as [l El]. rewrite El in Hq. apply Forall_app in Hq as [_ Hq]. by inversion Hq.
  - injection H as _ <-. apply Forall_app. auto.
Qed.

Lemma note_callback_ok cb q : Forall move_ok (queue q) → Forall move_ok (queue (note_callback cb q)).
Proof.
  unfold note_callback. destruct (last (queue q)) as [m|] eqn:E; [|done].
  apply last_Some in E as [l El]. simpl. rewrite El, removelast_last. intros [Hl Hm]%Forall_app.
  apply Forall_app. split; [done|]. inversion Hm as [|?? H]; subst. constructor; [|done]. by destruct H.
Qed.

Lemma reachable_ok q : reachable q → Forall move_ok (queue q).
Proof.
  induction 1 as [|q _ IH|t q _ IH|m ext b q q' _ IH Hm Hext Ha|cb q _ IH|lazy q _ IH]; try done.
  - eauto using Add_move_ok, prepared_fresh.
  - by apply note_callback_ok.
  - unfold Flush. destruct (_ || _); simpl; [done|]. by apply Forall_drop.
Qed.

(** ** The flush *)

(** A move without its plan. *)
Definition unplanned (m : Move) : Move :=
  mkMove (Start_pos m) (End_pos m) (Accel m) (Junction_deviation m) (Timing_callbacks m) (Is_kinematic_move m)
    (Axes_d m) (Move_d m) (Axes_r m) (Min_move_t m) (Max_start_v2 m) (Max_cruise_v2 m) (Delta_v2 m)
    (Next_junction_v2 m) (Max_mcr_start_v2 m) (Mcr_delta_v2 m) (Max_smoothed_v2 m) (Smooth_delta_v2 m) f0 f0 f0
    f0 f0 f0.

Lemma assign_junctions_unplanned prev ns : unplanned <$> assign_junctions prev ns = unplanned <$> (n_move <$> ns).
Proof. revert prev. induction ns as [|n ns IH]; intros prev; csimpl; [done|]. by rewrite IH. Qed.

(** What a flush does, as a prefix of the queue of some length. *)
Lemma Flush_prefix lazy q :
  ∃ n, (n ≤ length (queue q))%nat ∧
    Flush lazy q = (assign_junctions f0 (take n (nodes (backward lazy 0 (queue q)))),
                    mkQueue (drop n (queue q)) LOOKAHEAD_FLUSH_TIME) ∧
    (lazy = false → n = length (queue q)).
Proof.
  unfold Flush. destruct (backward_count lazy 0 (queue q)) as [_ Hc].
  set (p := backward lazy 0 (queue q)) in *. destruct (_ || _) eqn:E.
  - exists 0%nat. rewrite take_0, drop_0. split_and!; [lia|done|]. intros ->.
    destruct (backward_eager 0 (queue q)) as [Hu Hf]. subst p. rewrite Hu in E. simpl in E.
    apply bool_decide_eq_true in E. unfold len in *. lia.
  - exists (Z.to_nat (flush_count p)). unfold len in *. split_and!; [lia|done|]. intros ->.
    destruct (backward_eager 0 (queue q)) as [_ Hf]. subst p. unfold len in *. lia.
Qed.

(** C23. A flush of the look-ahead queue hands over a prefix of the queue in order, each
    move unchanged except for its planned speeds and times, and keeps the rest
    untouched; a flush that is not lazy hands over everything. *)
Theorem Flush_conserves_moves (lazy : bool) (q : LookAheadQueue) :
  let '(moves, q') := Flush lazy q in
  (unplanned <$> moves) ++ (unplanned <$> queue q') = unplanned <$> queue q ∧
  queue q' = drop (length moves) (queue q) ∧
  junction_flush q' = LOOKAHEAD_FLUSH_TIME ∧
  (lazy = false → queue q' = []).
Proof.
  destruct (Flush_prefix lazy q) as (n & Hn & -> & Hall). simpl.
  rewrite assign_junctions_length, length_take, backward_length, Nat.min_l by done.
  rewrite assign_junctions_unplanned, fmap_take, backward_moves, <- fmap_app, take_drop.
  split_and!; [done..|]. intros ->%Hall. by apply drop_all.
Qed.

Lemma linked_lookup ns i n :
  linked ns → ns !! i = Some n → NextStartV2 n = match ns !! S i with Some n' => StartV2 n' | None => f0 end.
Proof.
  revert i. induction ns as [|x ns IH]; intros i; simpl; [done|].
  intros [Hx Hl]. destruct i as [|i]; simpl; [intros [= <-]; by destruct ns|]. by apply IH.
Qed.

(** C10. For a queue filled with moves made by NewMove and limited by the kinematics, every
    move that a flush plans cruises at most at its own limit, starts no faster than its
    junction allows, than it cruises and than it can brake from to the next junction,
    ends no faster than it cruises or than the junction of the next move allows, and the
    last move of the queue ends at rest. *)
Theorem Flush_respects_limits (lazy : bool) (q : LookAheadQueue) (i : nat) (planned : Move) :
  reachable q →
  (Flush lazy q).1 !! i = Some planned →
  ∃ m start_v2 cruise_v2 end_v2 next_v2,
    queue q !! i = Some m ∧
    planned = Set_junction start_v2 cruise_v2 end_v2 m ∧
    fle cruise_v2 (Max_cruise_v2 m) = true ∧
    fle start_v2 (Max_start_v2 m) = true ∧ fle start_v2 cruise_v2 = true ∧
    fle start_v2 (fadd next_v2 (Delta_v2 m)) = true ∧
    fle end_v2 cruise_v2 = true ∧ fle end_v2 next_v2 = true ∧
    match queue q !! S i with
    | Some m' => fle next_v2 (Max_start_v2 m') = true
    | None => next_v2 = f0
    end.
Proof.
  intros Hq H. pose proof (reachable_ok q Hq) as Hok. destruct (Flush_prefix lazy q) as (n & Hn & E & _).
  rewrite E in H. destruct (assign_junctions_lookup _ _ _ _ H) as (nd & c & Hnd & -> & Hc).
  pose proof (backward_ok lazy 0 (queue q) Hok) as Hp. pose proof (backward_moves lazy 0 (queue q)) as Hm.
  set (ns := nodes (backward lazy 0 (queue q))) in *.
  destruct Hc as [Hc0 Hc]; [done|by apply Forall_take, (ps_nodes _ Hp)|].
  apply lookup_take_Some in Hnd as [Hnd _].
  pose proof (Forall_lookup_1 _ _ _ _ (ps_nodes _ Hp) Hnd) as Hn'.
  pose proof (linked_lookup _ _ _ (ps_linked _ Hp) Hnd) as Hl. fold ns in Hl.
  assert (Hs : nonneg (StartV2 nd) = true) by (rewrite (nd_start _ Hn'); speed).
  exists (n_move nd), (fmin (StartV2 nd) c), c, (fmin (NextStartV2 nd) c), (NextStartV2 nd).
  assert (Hstart : fle (fmin (StartV2 nd) c) (StartV2 nd) = true) by (apply fmin_le_l; done).
  split_and!; try done; try (apply fmin_le_r; speed); try (apply fmin_le_l; speed).
  - rewrite <- Hm, list_lookup_fmap. by rewrite Hnd.
  - eapply fle_trans; [done|]. rewrite (nd_start _ Hn'). apply fmin_le_l; speed.
  - eapply fle_trans; [done|]. rewrite (nd_start _ Hn'). apply fmin_le_r; speed.
  - rewrite <- Hm, list_lookup_fmap, Hl. destruct (ns !! S i) as [n2|] eqn:E2; [|done]. simpl.
    pose proof (Forall_lookup_1 _ _ _ _ (ps_nodes _ Hp) E2) as Hn2.
    rewrite (nd_start _ Hn2). apply fmin_le_l; speed.
Qed.

(** ** A corner *)

Definition demo_config : MoveConfig := mkConfig (f_of_Z 3000) (f_lit 13 1000) (f_of_Z 300) (f_of_Z 1500).
Definition demo_pos (x y : Z) : list f64 := [f_of_Z x; f_of_Z y; f0; f0].
Definition no_move : Move := mkMove [] [] f0 f0 [] false [] f0 [] f0 f0 f0 f0 f0 f0 f0 f0 f0 f0 f0 f0 f0 f0 f0.
Definition demo_move1 : Move :=
  match NewMove demo_config (demo_pos 0 0) (demo_pos 20 0) (f_of_Z 100) with Ret m => m | Panic _ => no_move end.
Definition demo_move2 : Move :=
  match NewMove demo_config (demo_pos 20 0) (demo_pos 40 10) (f_of_Z 100) with Ret m => m | Panic _ => no_move end.
Definition demo_add (m : Move) (q : LookAheadQueue) : LookAheadQueue :=
  match Add_move m None q with Ret (_, q') => q' | Panic _ => q end.
Definition demo_queue : LookAheadQueue := demo_add demo_move2 (demo_add demo_move1 NewMoveQueue).
Definition demo_planned : Move := default no_move ((Flush false demo_queue).1 !! 0%nat).

Lemma demo_prepared1 : prepared demo_move1.
Proof.
  apply (prepared_new demo_config (demo_pos 0 0) (demo_pos 20 0) (f_of_Z 100)); [done|by repeat constructor..|done|done|].
  vm_compute. reflexivity.
Qed.

Lemma demo_prepared2 : prepared demo_move2.
Proof.
  apply (prepared_new demo_config (demo_pos 20 0) (demo_pos 40 10) (f_of_Z 100)); [done|by repeat constructor..|done|done|].
  vm_compute. reflexivity.
Qed.

Lemma demo_reachable : reachable demo_queue.
Proof.
  assert (H1 : reachable (demo_add demo_move1 NewMoveQueue)).
  { apply (reach_add demo_move1 None false NewMoveQueue); [constructor|apply demo_prepared1|done|reflexivity]. }
  apply (reach_add demo_move2 None true (demo_add demo_move1 NewMoveQueue)); [done|apply demo_prepared2|done|].
  vm_compute. reflexivity.
Qed.

Lemma demo_planned_ok : (Flush false demo_queue).1 !! 0%nat = Some demo_planned.
Proof. vm_compute. reflexivity. Qed.

Lemma Flush_respects_limits_witness :
  ∃ m start_v2 cruise_v2 end_v2 next_v2,
    queue demo_queue !! 0%nat = Some m ∧ demo_planned = Set_junction start_v2 cruise_v2 end_v2 m ∧
    fle cruise_v2 (Max_cruise_v2 m) = true ∧
    fle start_v2 (Max_start_v2 m) = true ∧ fle start_v2 cruise_v2 = true ∧
    fle start_v2 (fadd next_v2 (Delta_v2 m)) = true ∧
    fle end_v2 cruise_v2 = true ∧ fle end_v2 next_v2 = true ∧
    match queue demo_queue !! 1%nat with
    | Some m' => fle next_v2 (Max_start_v2 m') = true
    | None => next_v2 = f0
    end.
Proof. exact (Flush_respects_limits false demo_queue 0 demo_planned demo_reachable demo_planned_ok). Defined.
