(* ===== verification/Kinematics.v ===== *)
(** * Cartesian and CoreXY kinematics

    [src/internal/pkg/motion/kinematics/cartesian.go] and [corexy.go]: the limits
    of the axes, which are crossed while an axis is not homed, and the check that
    every kinematic move passes before it is queued.  The two files share the
    bodies of the operations modelled here.  A rail is the range that it answers
    from [Get_range].  A panic carries the message of [Move_error] without the
    coordinates it ends with. *)

From S2P Require Import Prelude GoFloat GoFloatRound GoStrings GoState LookAhead.

Record Kin := mkKin {
  rails : list (f64 * f64);
  maxZVelocity : f64;
  maxZAccel : f64;
  limits : list (f64 * f64);
  rail_positions : list (list f64)          (* what each rail was last set to *)
}.

Definition fm1 : f64 := f_of_Z (-1).
Definition unhomed : f64 * f64 := (f1, fm1).

Definition NewCartesian (ranges : list (f64 * f64)) (zv za : f64) : Kin :=
  mkKin ranges zv za [unhomed; unhomed; unhomed] (replicate (length ranges) []).

(** ** Homing state *)

(** The loop over the rails of [SetPosition], from rail [i]. *)
Fixpoint set_limits (i : nat) (ranges : list (f64 * f64)) (homingAxes : list Z) (lim : list (f64 * f64))
    : go (list (f64 * f64)) :=
  match ranges with
  | [] => Ret lim
  | r :: ranges =>
      lim ← (if bool_decide (Z.of_nat i ∈ homingAxes) then
               if bool_decide (i < length lim)%nat then Ret (<[i := r]> lim) else Panic "index out of range"
             else Ret lim);
      set_limits (S i) ranges homingAxes lim
  end.

Definition SetPosition (newpos : list f64) (homingAxes : list Z) (k : Kin) : go Kin :=
  lim ← set_limits 0 (rails k) homingAxes (limits k);
  Ret (mkKin (rails k) (maxZVelocity k) (maxZAccel k) lim (replicate (length (rails k)) newpos)).

Definition with_limits (lim : list (f64 * f64)) (k : Kin) : Kin :=
  mkKin (rails k) (maxZVelocity k) (maxZAccel k) lim (rail_positions k).

Definition NoteZNotHomed (k : Kin) : go Kin :=
  if bool_decide (2 < length (limits k))%nat then Ret (with_limits (<[2%nat := unhomed]> (limits k)) k)
  else Panic "index out of range".

Definition MotorOff (k : Kin) : Kin := with_limits [unhomed; unhomed; unhomed] k.

(** [Status], the part that names the homed axes. *)
Definition homed_axes (k : Kin) : go string :=
  x ← (limits k).[0]; y ← (limits k).[1]; z ← (limits k).[2];
  Ret ((if fle x.1 x.2 then "x" else "") +:+ (if fle y.1 y.2 then "y" else "") +:+
       (if fle z.1 z.2 then "z" else ""))%string.

(** ** The check of a move *)

Definition limit_slack : f64 := f_lit 1 10000000.

Definition Check_above_limit (a b : f64) : bool := flt b a && flt limit_slack (fabs (fsub a b)).
Definition Check_below_limit (a b : f64) : bool := flt a b && flt limit_slack (fabs (fsub b a)).

(** The body of the loop of [CheckEndstops] at axis [i]. *)
Definition check_axis (k : Kin) (m : Move) (i : Z) : go (option string) :=
  d ← (Axes_d m).[i];
  if feq d f0 then Ret None
  else
    e ← (End_pos m).[i]; l ← (limits k).[i];
    Ret (if Check_below_limit e l.1 || Check_above_limit e l.2 then
           Some (if flt l.2 l.1 then "Must home axis first" else "Move out of range")%string
         else None).

Fixpoint check_axes (k : Kin) (m : Move) (axes : list Z) : go (option string) :=
  match axes with
  | [] => Ret None
  | i :: axes => err ← check_axis k m i; match err with Some e => Ret (Some e) | None => check_axes k m axes end
  end.

Definition CheckEndstops (k : Kin) (m : Move) : go (option string) := check_axes k m [0; 1; 2].

Definition CheckMove (k : Kin) (m : Move) : go Move :=
  e0 ← (End_pos m).[0]; l0 ← (limits k).[0]; e1 ← (End_pos m).[1]; l1 ← (limits k).[1];
  err ← (if Check_below_limit e0 l0.1 || Check_above_limit e0 l0.2 || Check_below_limit e1 l1.1 ||
            Check_above_limit e1 l1.2
         then CheckEndstops k m else Ret None);
  match err with
  | Some e => Panic e
  | None =>
      d2 ← (Axes_d m).[2];
      if feq d2 f0 then Ret m
      else
        err ← CheckEndstops k m;
        match err with
        | Some e => Panic e
        | None =>
            let zRatio := fdiv (Move_d m) (fabs d2) in
            Ret (Limit_speed (fmul (maxZVelocity k) zRatio) (fmul (maxZAccel k) zRatio) m)
        end
  end.

(** ** Homing an axis *)

Record RailHomingInfo := mkHoming { PositionEndstop : f64; PositiveDir : bool }.

(** [HomeAxis]: the position from which the move to the endstop is forced to
    start, and the position at which it ends, as handed to [HomeRails]. *)
Definition HomeAxis (range : f64 * f64) (hi : RailHomingInfo) : f64 * f64 :=
  let homepos := PositionEndstop hi in
  let forcepos :=
    if PositiveDir hi then fsub homepos (fmul (f_lit 15 10) (fsub (PositionEndstop hi) range.1))
    else fadd homepos (fmul (f_lit 15 10) (fsub range.2 (PositionEndstop hi))) in
  (forcepos, homepos).

(** [CoreXYKinematics.Home] homes Y before X: the first occurrences of axis 0 and
    axis 1 are exchanged when 0 comes first. *)
Definition corexy_order (axes : list Z) : list Z :=
  match list_find (λ a, a = 0) axes, list_find (λ a, a = 1) axes with
  | Some (x, _), Some (y, _) =>
      if bool_decide (1 < length axes)%nat && bool_decide (x < y)%nat then <[x := 1]> (<[y := 0]> axes) else axes
  | _, _ => axes
  end.

(** [CoreXYKinematics.CalcPosition] from the positions of the three rails. *)
Definition corexy_CalcPosition (pos : list f64) : go (list f64) :=
  a ← pos.[0]; b ← pos.[1]; z ← pos.[2];
  Ret [fmul half (fadd a b); fmul half (fsub a b); z].
