(* ===== verification/KinematicsThy.v ===== *)
(** * Theorems on the kinematics

    [CheckMove] accepts exactly the moves whose moved axes end within their limits
    ([CheckMove_spec]), and no history of homing and motor-off events lets an axis
    move that has not been homed since ([unhomed_axis_never_moves]). *)

From S2P Require Import Prelude GoFloat GoFloatRound GoStrings GoState LookAhead Kinematics.

(** ** Limits that are crossed reject every position *)

Lemma fsub_of_negative x y :
  nonneg x = true → nonneg y = true → fsub x (fneg y) = fadd x y.
Proof. by destruct x as [[]|[]| |[] mx ex], y as [[]|[]| |[] my ey]. Qed.

Lemma slack_below x : nonneg x = true → flt limit_slack (fabs (fadd f1 x)) = true ∧ flt limit_slack (fabs (fadd x f1)) = true.
Proof.
  intros Hx.
  assert (H : ∀ y, nonneg y = true → fle f1 y = true → flt limit_slack (fabs y) = true).
  { intros y Hy Hle. apply (flt_fle_trans _ f1); [done|]. by destruct y as [[]|[]| |[]]. }
  split; apply H; auto using fadd_nonneg; [by apply fadd_ge|by apply fadd_ge_r].
Qed.

Lemma unhomed_rejects x :
  is_nan x = false → Check_below_limit x unhomed.1 || Check_above_limit x unhomed.2 = true.
Proof.
  intros Hx. apply orb_true_iff. destruct (nonneg x) eqn:Hn; [right|left].
  - apply andb_true_iff. split; [by destruct x as [[]|[]| |[]]|].
    change unhomed.2 with (fneg f1). rewrite fsub_of_negative by done. by apply slack_below.
  - apply andb_true_iff. split; [by destruct x as [[]|[]| |[]]|].
    assert (E : x = fneg (fneg x)) by by destruct x as [[]|[]| |[]].
    assert (Hp : nonneg (fneg x) = true) by by destruct x as [[]|[]| |[]].
    rewrite E, fsub_of_negative by done. by apply slack_below.
Qed.

(** ** What the check accepts *)

Record move_shape (k : Kin) (m : Move) : Prop := {
  shape_d : (3 ≤ length (Axes_d m))%nat;
  shape_e : (3 ≤ length (End_pos m))%nat;
  shape_l : length (limits k) = 3%nat
}.

(** The verdict on one axis: what is wrong with it, if anything. *)
Definition axis_error (k : Kin) (m : Move) (i : nat) : option string :=
  let d := default f0 (Axes_d m !! i) in
  let e := default f0 (End_pos m !! i) in
  let l := default unhomed (limits k !! i) in
  if feq d f0 then None
  else if Check_below_limit e l.1 || Check_above_limit e l.2 then
    Some (if flt l.2 l.1 then "Must home axis first" else "Move out of range")%string
  else None.

Definition first_error (k : Kin) (m : Move) : option string :=
  match axis_error k m 0, axis_error k m 1, axis_error k m 2 with
  | Some e, _, _ => Some e
  | None, Some e, _ => Some e
  | None, None, r => r
  end.

Lemma index_default {A} (d : A) (l : list A) (i : nat) : (i < length l)%nat → l.[Z.of_nat i] = Ret (default d (l !! i)).
Proof.
  intros H. destruct (lookup_lt_is_Some_2 l i H) as [x Hx]. rewrite Hx. simpl.
  unfold index. rewrite bool_decide_true by lia. by rewrite Nat2Z.id, Hx.
Qed.

Lemma check_axis_spec k m i : move_shape k m → (i < 3)%nat → check_axis k m (Z.of_nat i) = Ret (axis_error k m i).
Proof.
  intros [Hd He Hl] Hi. unfold check_axis, axis_error.
  rewrite (index_default f0 (Axes_d m)), (index_default f0 (End_pos m)), (index_default unhomed (limits k)) by lia.
  simpl. by destruct (feq _ _).
Qed.

Lemma CheckEndstops_spec k m : move_shape k m → CheckEndstops k m = Ret (first_error k m).
Proof.
  intros H. unfold CheckEndstops, first_error. cbn [check_axes].
  change 0 with (Z.of_nat 0). change 1 with (Z.of_nat 1). change 2 with (Z.of_nat 2).
  rewrite !check_axis_spec by (done || lia). cbn [mbind go_bind]. by repeat case_match.
Qed.

Lemma CheckMove_eq (k : Kin) (m : Move) :
  move_shape k m →
  CheckMove k m =
    match first_error k m with
    | Some e => Panic e
    | None =>
        let d := default f0 (Axes_d m !! 2%nat) in
        if feq d f0 then Ret m
        else let r := fdiv (Move_d m) (fabs d) in Ret (Limit_speed (fmul (maxZVelocity k) r) (fmul (maxZAccel k) r) m)
    end.
Proof.
  intros H. unfold CheckMove. rewrite CheckEndstops_spec by done. destruct H as [Hd He Hl].
  change 0 with (Z.of_nat 0). change 1 with (Z.of_nat 1). change 2 with (Z.of_nat 2).
  rewrite (index_default f0 (Axes_d m)), !(index_default f0 (End_pos m)), !(index_default unhomed (limits k)) by lia.
  cbn [mbind go_bind]. destruct (_ || _) eqn:E; [by destruct (first_error k m); [|destruct (feq _ _)]|].
  destruct (feq (default f0 (Axes_d m !! 2%nat)) f0) eqn:E2.
  - unfold first_error, axis_error. apply orb_false_iff in E as [[E1 E3]%orb_false_iff E4].
    apply orb_false_iff in E1 as [E0 E1]. rewrite E0, E1, E3, E4, E2. simpl. by repeat case_match.
  - by destruct (first_error k m).
Qed.

Lemma first_error_none k m : first_error k m = None ↔ ∀ i, (i < 3)%nat → axis_error k m i = None.
Proof.
  unfold first_error. split.
  - intros H i Hi. destruct i as [|[|[|]]]; [..|lia]; repeat case_match; done.
  - intros H. rewrite !H by lia. done.
Qed.

(** What a move becomes when it is accepted: slowed down on the Z axis. *)
Definition accepted (k : Kin) (m : Move) : Move :=
  let d := default f0 (Axes_d m !! 2%nat) in
  if feq d f0 then m
  else let r := fdiv (Move_d m) (fabs d) in Limit_speed (fmul (maxZVelocity k) r) (fmul (maxZAccel k) r) m.

(** C24. CheckMove accepts a move exactly when every axis that moves ends within its limits,
    whatever subset of the tests it reaches, and then only limits the speed of moves
    along Z; otherwise it panics with the message of the first axis at fault. *)
Theorem CheckMove_spec (k : Kin) (m : Move) :
  move_shape k m →
  (∀ m', CheckMove k m = Ret m' ↔ (∀ i, (i < 3)%nat → axis_error k m i = None) ∧ m' = accepted k m) ∧
  (∀ why, CheckMove k m = Panic why ↔
     ∃ i, (i < 3)%nat ∧ axis_error k m i = Some why ∧ ∀ j, (j < i)%nat → axis_error k m j = None).
Proof.
  intros H. rewrite CheckMove_eq by done. unfold accepted. split.
  - intros m'. rewrite <- first_error_none. destruct (first_error k m); [naive_solver|].
    split; [|intros [_ ->]]; case_match; naive_solver.
  - intros why. split.
    + intros Hp. assert (Hf : first_error k m = Some why) by (repeat case_match; naive_solver).
      unfold first_error in Hf. destruct (axis_error k m 0) as [e0|] eqn:E0; [exists 0%nat; split_and!; [lia|congruence|lia]|].
      destruct (axis_error k m 1) as [e1|] eqn:E1; [exists 1%nat; split_and!; [lia|congruence|]|exists 2%nat; split_and!; [lia|done|]].
      * intros j Hj. by replace j with 0%nat by lia.
      * intros j Hj. destruct j as [|[|]]; [done..|lia].
    + intros (i & Hi & He & Hbefore). unfold first_error.
      destruct i as [|[|[|]]]; [| | |lia]; rewrite ?(Hbefore 0%nat), ?(Hbefore 1%nat) by lia; by rewrite He.
Qed.

(** The check changes at most the limits of a move. *)
Lemma CheckMove_result k m m' : CheckMove k m = Ret m' → m' = m ∨ ∃ spd a, m' = Limit_speed spd a m.
Proof.
  unfold CheckMove. intros H.
  apply bind_ret_inv in H as (e0 & _ & H). apply bind_ret_inv in H as (l0 & _ & H).
  apply bind_ret_inv in H as (e1 & _ & H). apply bind_ret_inv in H as (l1 & _ & H).
  apply bind_ret_inv in H as ([e|] & _ & H); [done|]. apply bind_ret_inv in H as (d2 & _ & H).
  destruct (feq d2 f0); [apply Ret_inj in H; auto|]. apply bind_ret_inv in H as ([e|] & _ & H); [done|].
  apply Ret_inj in H as <-. eauto.
Qed.

(** ** The limits follow the homing history *)

Inductive kin_op := OpSetPosition (newpos : list f64) (homingAxes : list Z) | OpNoteZNotHomed | OpMotorOff.

Definition apply_op (op : kin_op) (k : Kin) : go Kin :=
  match op with
  | OpSetPosition newpos axes => SetPosition newpos axes k
  | OpNoteZNotHomed => NoteZNotHomed k
  | OpMotorOff => Ret (MotorOff k)
  end.

(** Histories are listed latest first. *)
Definition after (h : list kin_op) (k : Kin) : go Kin := foldr (λ op r, k ← r; apply_op op k) (Ret k) h.

Fixpoint homed (h : list kin_op) (i : nat) : bool :=
  match h with
  | [] => false
  | OpSetPosition _ axes :: h => bool_decide (Z.of_nat i ∈ axes) || homed h i
  | OpNoteZNotHomed :: h => negb (bool_decide (i = 2%nat)) && homed h i
  | OpMotorOff :: h => false
  end.

Lemma set_limits_spec ranges axes i lim :
  (i + length ranges ≤ length lim)%nat →
  ∃ lim', set_limits i ranges axes lim = Ret lim' ∧ length lim' = length lim ∧
    ∀ j, lim' !! j = if decide (i ≤ j)%nat then match ranges !! (j - i)%nat with
                     | Some r => if bool_decide (Z.of_nat j ∈ axes) then Some r else lim !! j
                     | None => lim !! j end else lim !! j.
Proof.
  revert i lim. induction ranges as [|r ranges IH]; intros i lim Hlen; simpl in *.
  { exists lim. split_and!; [done..|]. intros j. by destruct (decide _). }
  set (lim1 := if bool_decide (Z.of_nat i ∈ axes) then <[i := r]> lim else lim).
  assert (Hl1 : length lim1 = length lim) by (unfold lim1; case_match; by rewrite ?length_insert).
  destruct (IH (S i) lim1) as (lim' & H1 & H2 & H3); [lia|]. exists lim'. split_and!; [|lia|].
  { rewrite (bool_decide_true (i < length lim)%nat) by lia. rewrite <- H1. unfold lim1. by case_bool_decide. }
  intros j. rewrite H3. destruct (decide (i ≤ j)%nat) as [Hij|Hij].
  - destruct (decide (S i ≤ j)%nat).
    + replace (j - i)%nat with (S (j - S i)) by lia. simpl.
      assert (E : lim1 !! j = lim !! j) by (unfold lim1; case_match; rewrite ?list_lookup_insert_ne by lia; done).
      by rewrite E.
    + assert (j = i) as -> by lia. rewrite Nat.sub_diag. simpl. unfold lim1.
      case_match; [rewrite list_lookup_insert_eq by lia|]; done.
  - destruct (decide _); [lia|]. unfold lim1. case_match; [rewrite list_lookup_insert_ne by lia|]; done.
Qed.

(** Every axis of a history has the range of its rail or crossed limits. *)
Lemma limits_follow_homing h ranges zv za :
  length ranges = 3%nat →
  ∃ k, after h (NewCartesian ranges zv za) = Ret k ∧ rails k = ranges ∧ length (limits k) = 3%nat ∧
    ∀ i r, ranges !! i = Some r → limits k !! i = Some (if homed h i then r else unhomed).
Proof.
  intros Hr. assert (H3 : ∀ i r, ranges !! i = Some r → (i < 3)%nat).
  { intros i r Hi. apply lookup_lt_Some in Hi. lia. }
  assert (Hoff : ∀ i r, ranges !! i = Some r → [unhomed; unhomed; unhomed] !! i = Some unhomed).
  { intros i r Hi. specialize (H3 i r Hi). by destruct i as [|[|[|]]]; [..|lia]. }
  induction h as [|op h (k & Hk & Hrk & Hlk & Hlim)]; [by exists (NewCartesian ranges zv za)|]. simpl. rewrite Hk. simpl.
  destruct op as [newpos axes| |]; simpl.
  - unfold SetPosition. destruct (set_limits_spec ranges axes 0 (limits k)) as (lim & H1 & H2 & Hl); [lia|].
    rewrite Hrk, H1. eexists. split_and!; [done|done|simpl; lia|]. intros i r Hi. simpl. rewrite Hl. simpl.
    rewrite Nat.sub_0_r, Hi. case_bool_decide; simpl; [done|]. by apply Hlim.
  - unfold NoteZNotHomed. rewrite bool_decide_true by lia. eexists. split_and!; [done|done|simpl; by rewrite length_insert|].
    intros i r Hi. simpl. destruct (decide (i = 2%nat)) as [-> |].
    + rewrite list_lookup_insert_eq by lia. done.
    + rewrite list_lookup_insert_ne, bool_decide_false by done. by apply Hlim.
  - eexists. split_and!; [done..|]. apply Hoff.
Qed.

(** C13. After any history of homing, motor-off and lost-Z events, a move along an axis that
    has not been homed since is rejected: the crossed limits of an unhomed axis leave no
    floating point position between them. *)
Theorem unhomed_axis_never_moves (h : list kin_op) (ranges : list (f64 * f64)) (zv za : f64) (m : Move) (i : nat) (d : f64) :
  length ranges = 3%nat → (3 ≤ length (Axes_d m))%nat → (3 ≤ length (End_pos m))%nat →
  Forall (λ x, is_nan x = false) (End_pos m) →
  (i < 3)%nat → Axes_d m !! i = Some d → feq d f0 = false → homed h i = false →
  ∃ k why, after h (NewCartesian ranges zv za) = Ret k ∧ CheckMove k m = Panic why ∧
    (why = "Must home axis first" ∨ why = "Move out of range")%string.
Proof.
  intros Hr Hd He Hnan Hi Hdi Hne Hh. destruct (limits_follow_homing h ranges zv za Hr) as (k & Hk & _ & Hl & Hlim).
  destruct (lookup_lt_is_Some_2 ranges i) as [r Hri]; [lia|]. destruct (lookup_lt_is_Some_2 (End_pos m) i) as [e Hei]; [lia|].
  assert (Herr : axis_error k m i = Some "Must home axis first"%string).
  { unfold axis_error. rewrite Hdi, Hei, (Hlim i r Hri), Hh. simpl. rewrite Hne.
    rewrite unhomed_rejects by (by eapply Forall_lookup_1 in Hnan). done. }
  assert (Hmsg : ∀ j e', axis_error k m j = Some e' → (e' = "Must home axis first" ∨ e' = "Move out of range")%string).
  { intros j e'. unfold axis_error. repeat case_match; intros [= <-]; auto. }
  assert (Hf : ∃ why, first_error k m = Some why ∧ (why = "Must home axis first" ∨ why = "Move out of range")%string).
  { unfold first_error. destruct (axis_error k m 0) as [e0|] eqn:E0; [eauto|]. destruct (axis_error k m 1) as [e1|] eqn:E1; [eauto|].
    destruct i as [|[|[|]]]; [congruence..| |lia]. eauto. }
  destruct Hf as (why & Hf & Hw). exists k, why. split_and!; [done| |done].
  rewrite CheckMove_eq by done. by rewrite Hf.
Qed.

(** ** A printer that homed X and Y, then lost power to its motors *)

Definition demo_ranges : list (f64 * f64) := [(f0, f_of_Z 220); (f0, f_of_Z 220); (f0, f_of_Z 250)].
Definition demo_kin : Kin := NewCartesian demo_ranges (f_of_Z 15) (f_of_Z 100).
Definition demo_pos3 (x y z : Z) : list f64 := [f_of_Z x; f_of_Z y; f_of_Z z; f0].
Definition kin_no_move : Move := mkMove [] [] f0 f0 [] false [] f0 [] f0 f0 f0 f0 f0 f0 f0 f0 f0 f0 f0 f0 f0 f0 f0.
Definition demo_move : Move :=
  match NewMove (mkConfig (f_of_Z 3000) (f_lit 13 1000) (f_of_Z 300) (f_of_Z 1500)) (demo_pos3 0 0 0) (demo_pos3 20 10 0)
    (f_of_Z 100) with Ret m => m | Panic _ => kin_no_move end.
Definition demo_history : list kin_op := [OpSetPosition (demo_pos3 0 0 0) [1]; OpMotorOff; OpSetPosition (demo_pos3 0 0 0) [0; 1]].
Definition demo_homed : Kin :=
  match after [OpSetPosition (demo_pos3 0 0 0) [0; 1]] demo_kin with Ret k => k | Panic _ => demo_kin end.

Lemma unhomed_axis_never_moves_witness :
  ∃ k why, after demo_history demo_kin = Ret k ∧ CheckMove k demo_move = Panic why ∧
    (why = "Must home axis first" ∨ why = "Move out of range")%string.
Proof.
  apply (unhomed_axis_never_moves demo_history demo_ranges (f_of_Z 15) (f_of_Z 100) demo_move 0
    (default f0 (Axes_d demo_move !! 0%nat))); [done|vm_compute; lia|vm_compute; lia| |lia|done|done|done].
  vm_compute. repeat constructor.
Defined.

Lemma CheckMove_spec_witness :
  CheckMove demo_homed demo_move = Ret demo_move ∧ axis_error demo_homed demo_move 0 = None.
Proof.
  assert (S : move_shape demo_homed demo_move) by (constructor; vm_compute; [lia|lia|done]).
  destruct (proj1 (CheckMove_spec demo_homed demo_move S) demo_move) as [H _].
  assert (E : CheckMove demo_homed demo_move = Ret demo_move) by (vm_compute; reflexivity).
  split; [exact E|]. exact (proj1 (H E) 0%nat ltac:(lia)).
Defined.
