(* ===== verification/ToolheadTiming.v ===== *)
(** * The toolhead's clock

    [src/internal/pkg/motion/toolhead_runtime.go]: the times up to which moves are
    planned, steps generated and queues flushed, and the operations that move
    them; [toolhead_flush.go], [toolhead_pause.go]: when the background timer
    flushes and when the caller waits.  The callbacks of [FlushActions] are events
    in the order of the calls. *)

From S2P Require Import Prelude GoFloat GoFloatRound GoStrings GoState.

Record ToolheadTimingConfig := mkTimingConfig {
  BufferTimeStart : f64;
  MinKinTime : f64;
  MoveBatchTime : f64;
  MoveHistoryExpire : f64;
  ScanTimeOffset : f64;
  StepcompressFlushTime : f64
}.

Definition DefaultSdsCheckTime : f64 := f_lit 1 1000.

Definition DefaultTimingConfig : ToolheadTimingConfig :=
  mkTimingConfig (f_lit 250 1000) (f_lit 100 1000) (f_lit 500 1000) (f_of_Z 30) DefaultSdsCheckTime (f_lit 50 1000).

Record ToolheadTimingState := mkTiming {
  PrintTime : f64;
  LastFlushTime : f64;
  LastStepGenTime : f64;
  MinRestartTime : f64;
  NeedFlushTime : f64;
  StepGenTime : f64;
  ClearHistoryTime : f64;
  KinFlushDelay : f64;
  KinFlushTimes : list f64;
  DoKickFlushTimer : bool;
  CanPause : bool
}.

(** The callbacks that are there: the number of step generators and drivers, and
    whether the other two are set. *)
Record FlushActions := mkActions {
  StepGenerators : nat;
  FinalizeMoves : bool;
  UpdateExtruderMoveTime : bool;
  FlushDrivers : nat
}.

Inductive flush_event :=
| GenerateSteps (generator : nat) (flushTime : f64)
| Finalize (freeTime clearHistoryTime : f64)
| ExtruderMoveTime (freeTime clearHistoryTime : f64)
| FlushMoves (driver : nat) (flushTime clearHistoryTime : f64).

(** ** Flushing *)

Definition AdvanceFlushTime (flushTime : f64) (config : ToolheadTimingConfig) (actions : FlushActions)
    (t : ToolheadTimingState) : list flush_event * ToolheadTimingState :=
  let flushTime := fmax flushTime (LastFlushTime t) in
  let sgFlushWant := fmin (fadd flushTime (StepcompressFlushTime config)) (fsub (PrintTime t) (KinFlushDelay t)) in
  let sgFlushTime := fmax sgFlushWant flushTime in
  let freeTime := fsub sgFlushTime (KinFlushDelay t) in
  let clearHistoryTime :=
    if CanPause t then ClearHistoryTime t else fmax f0 (fsub freeTime (MoveHistoryExpire config)) in
  (((λ i, GenerateSteps i sgFlushTime) <$> seq 0 (StepGenerators actions)) ++
   (if FinalizeMoves actions then [Finalize freeTime clearHistoryTime] else []) ++
   (if UpdateExtruderMoveTime actions then [ExtruderMoveTime freeTime clearHistoryTime] else []) ++
   ((λ i, FlushMoves i flushTime clearHistoryTime) <$> seq 0 (FlushDrivers actions)),
   mkTiming (PrintTime t) flushTime sgFlushTime (fmax (MinRestartTime t) sgFlushTime) (NeedFlushTime t) (StepGenTime t)
     (ClearHistoryTime t) (KinFlushDelay t) (KinFlushTimes t) (DoKickFlushTimer t) (CanPause t)).

Definition set_PrintTime (v : f64) (t : ToolheadTimingState) : ToolheadTimingState :=
  mkTiming v (LastFlushTime t) (LastStepGenTime t) (MinRestartTime t) (NeedFlushTime t) (StepGenTime t)
    (ClearHistoryTime t) (KinFlushDelay t) (KinFlushTimes t) (DoKickFlushTimer t) (CanPause t).

(** One round of the loop of [AdvanceMoveTime]. *)
Definition move_round (wantFlushTime : f64) (config : ToolheadTimingConfig) (actions : FlushActions)
    (s : f64 * (list flush_event * ToolheadTimingState))
    : f64 * (list flush_event * ToolheadTimingState) + list flush_event * ToolheadTimingState :=
  let '(flushTime, (evs, t)) := s in
  let flushTime := fmin (fadd flushTime (MoveBatchTime config)) wantFlushTime in
  let '(more, t) := AdvanceFlushTime flushTime config actions t in
  if fle wantFlushTime flushTime then inr (evs ++ more, t) else inl (flushTime, (evs ++ more, t)).

Definition ptDelay (config : ToolheadTimingConfig) (t : ToolheadTimingState) : f64 :=
  fadd (KinFlushDelay t) (StepcompressFlushTime config).

(** More rounds than there are numbers that are not negative. *)
Definition flush_rounds : positive := (2 ^ 65)%positive.

Definition AdvanceMoveTime (nextPrintTime : f64) (config : ToolheadTimingConfig) (actions : FlushActions)
    (t : ToolheadTimingState) : option (list flush_event * ToolheadTimingState) :=
  let flushTime := fmax (LastFlushTime t) (fsub (PrintTime t) (ptDelay config t)) in
  let t := set_PrintTime (fmax (PrintTime t) nextPrintTime) t in
  let wantFlushTime := fmax flushTime (fsub (PrintTime t) (ptDelay config t)) in
  match while flush_rounds (move_round wantFlushTime config actions) (flushTime, ([], t)) with
  | inr r => Some r
  | inl _ => None
  end.

(** ** The other operations *)

(** [estPrintTime] is the answer of the print-time source; the flag says whether the
    notifier is told of a new print time. *)
Definition CalcPrintTime (config : ToolheadTimingConfig) (estPrintTime : f64) (t : ToolheadTimingState)
    : bool * ToolheadTimingState :=
  let kinTime := fadd (fmax (fadd estPrintTime (MinKinTime config)) (MinRestartTime t)) (KinFlushDelay t) in
  let minPrintTime := fmax (fadd estPrintTime (BufferTimeStart config)) kinTime in
  if fle minPrintTime (PrintTime t) then (false, t) else (true, set_PrintTime minPrintTime t).

(** [append(s[:i], s[i+1:]...)] at the first element equal to [old]. *)
Fixpoint remove_first (old : f64) (l : list f64) : list f64 :=
  match l with
  | [] => []
  | v :: l => if feq v old then l else v :: remove_first old l
  end.

Definition UpdateStepGenerationScanDelay (delay oldDelay : f64) (config : ToolheadTimingConfig)
    (t : ToolheadTimingState) : ToolheadTimingState :=
  let times := if negb (feq oldDelay f0) then remove_first oldDelay (KinFlushTimes t) else KinFlushTimes t in
  let times := if negb (feq delay f0) then times ++ [delay] else times in
  let newDelay :=
    fold_left (λ newDelay value, let value := fadd value (ScanTimeOffset config) in
                 if flt newDelay value then value else newDelay) times f0 in
  mkTiming (PrintTime t) (LastFlushTime t) (LastStepGenTime t) (MinRestartTime t) (NeedFlushTime t) (StepGenTime t)
    (ClearHistoryTime t) newDelay times (DoKickFlushTimer t) (CanPause t).

Definition NoteMovequeueActivity (mqTime : f64) (setStepGenTime : bool) (t : ToolheadTimingState)
    : bool * ToolheadTimingState :=
  (DoKickFlushTimer t,
   mkTiming (PrintTime t) (LastFlushTime t) (LastStepGenTime t) (MinRestartTime t) (fmax (NeedFlushTime t) mqTime)
     (if setStepGenTime then fmax (StepGenTime t) mqTime else StepGenTime t) (ClearHistoryTime t) (KinFlushDelay t)
     (KinFlushTimes t) false (CanPause t)).

Definition set_MinRestartTime (v : f64) (t : ToolheadTimingState) : ToolheadTimingState :=
  mkTiming (PrintTime t) (LastFlushTime t) (LastStepGenTime t) v (NeedFlushTime t) (StepGenTime t)
    (ClearHistoryTime t) (KinFlushDelay t) (KinFlushTimes t) (DoKickFlushTimer t) (CanPause t).

(** The timing part of [NewToolheadCoreState]. *)
Definition NewTiming (canPause : bool) : ToolheadTimingState :=
  mkTiming f0 f0 f0 f0 f0 f0 f0 DefaultSdsCheckTime [] true canPause.
