(* ===== verification/ToolheadTimingThy.v ===== *)
(** * Theorems on the toolhead's clock

    The flush loop of [AdvanceMoveTime] ends and reaches the wanted time
    ([AdvanceMoveTime_reaches]); over any history the flush times never go back
    and steps are generated at least that far ([flush_times_monotone]). *)

From Stdlib Require Import Sorted.
From S2P Require Import Prelude GoFloat GoFloatRound GoStrings GoState ToolheadTiming.

Create HintDb clock.
Ltac clock := eauto 12 with clock nocore.

(** ** Times *)

(** A time: a number of the format, not negative. *)
Definition time (x : f64) : Prop := canon x = true ∧ nonneg x = true.

Lemma time_not_nan x : time x → is_nan x = false.
Proof. intros [_ ?]. by apply nonneg_not_nan. Qed.

Lemma fin_not_nan x : ffin x = true → is_nan x = false.
Proof. by destruct x. Qed.

Lemma time_fadd x y : time x → time y → time (fadd x y).
Proof. intros [??] [??]. split; [by apply fadd_canon|by apply fadd_nonneg]. Qed.

Lemma time_fmin x y : time x → time y → time (fmin x y).
Proof.
  intros Hx Hy. destruct (fmin_cases x y) as [[-> | ->] _]; auto using time_not_nan.
Qed.

Lemma nonneg_fle x y : nonneg x = true → fle x y = true → nonneg y = true ∨ is_nan y = true.
Proof. destruct x as [[]|[]| |[] mx ex], y as [[]|[]| |[] my ey]; auto. Qed.

(** The maximum of a time and a canonical number is a time. *)
Lemma time_fmax_l x y : time x → canon y = true → is_nan y = false → time (fmax x y).
Proof.
  intros [Hcx Hx] Hcy Hy. destruct (fmax_cases x y) as (H1 & H2 & _); auto using nonneg_not_nan.
  split; [by destruct H1 as [-> | ->]|]. destruct (nonneg_fle _ _ Hx H2) as [?|Hn]; [done|].
  destruct H1 as [E|E]; rewrite E in *; destruct x, y; done.
Qed.

Lemma time_fmax_r x y : canon x = true → is_nan x = false → time y → time (fmax x y).
Proof.
  intros Hcx Hx [Hcy Hy]. destruct (fmax_cases x y) as (H1 & _ & H2); auto using nonneg_not_nan.
  split; [by destruct H1 as [-> | ->]|]. destruct (nonneg_fle _ _ Hy H2) as [?|Hn]; [done|].
  destruct H1 as [E|E]; rewrite E in *; destruct x, y; done.
Qed.

Lemma fmax_ge_l x y : is_nan x = false → is_nan y = false → fle x (fmax x y) = true.
Proof. apply fmax_cases. Qed.

Lemma fmax_ge_r x y : is_nan x = false → is_nan y = false → fle y (fmax x y) = true.
Proof. apply fmax_cases. Qed.

Lemma canon_fmin x y : is_nan x = false → is_nan y = false → canon x = true → canon y = true → canon (fmin x y) = true ∧ is_nan (fmin x y) = false.
Proof. intros Hx Hy ??. by destruct (fmin_cases x y Hx Hy) as [[-> | ->] _]. Qed.

#[export] Hint Resolve time_not_nan fin_not_nan time_fadd time_fmin time_fmax_l time_fmax_r fmax_ge_l fmax_ge_r
  fsub_canon fsub_finite fle_refl : clock.

(** ** The order of the clock *)

Record timing_ok (c : ToolheadTimingConfig) : Prop := {
  cfg_batch : time (MoveBatchTime c);
  cfg_compress : time (StepcompressFlushTime c)
}.

Record clock_ok (t : ToolheadTimingState) : Prop := {
  ck_print : canon (PrintTime t) = true ∧ ffin (PrintTime t) = true;
  ck_delay : canon (KinFlushDelay t) = true ∧ ffin (KinFlushDelay t) = true;
  ck_flush : time (LastFlushTime t);
  ck_restart : time (MinRestartTime t);
  ck_flush_gen : fle (LastFlushTime t) (LastStepGenTime t) = true;
  ck_gen_restart : fle (LastStepGenTime t) (MinRestartTime t) = true
}.

(** What a flush does to the clock. *)
Lemma AdvanceFlushTime_ok x c a t (r := AdvanceFlushTime x c a t) :
  timing_ok c → clock_ok t → canon x = true → is_nan x = false →
  clock_ok r.2 ∧
  fle x (LastFlushTime r.2) = true ∧ fle (LastFlushTime t) (LastFlushTime r.2) = true ∧
  fle (MinRestartTime t) (MinRestartTime r.2) = true ∧
  LastFlushTime r.2 = fmax x (LastFlushTime t).
Proof.
  intros [_ Hc] [[Hp Hp'] [Hd Hd'] Hf Hr H1 H2] Hx Hx'. subst r. unfold AdvanceFlushTime. cbn [fst snd].
  set (ft := fmax x (LastFlushTime t)). assert (Hft : time ft) by (unfold ft; clock).
  set (w := fmin _ _). assert (Hw : canon w = true ∧ is_nan w = false).
  { apply canon_fmin; clock. by apply time_fadd. }
  set (sg := fmax w ft). assert (Hsg : time sg) by (destruct Hw; unfold sg; clock).
  split_and!; [constructor|..]; cbn [PrintTime KinFlushDelay LastFlushTime MinRestartTime LastStepGenTime];
    try done; try (unfold ft; by clock); try (destruct Hw, Hsg; apply time_fmax_l; clock).
  destruct Hw. unfold sg. clock.
Qed.

(** ** The flush loop *)

(** The loop with the times that it moves. *)
Record loop_ok (c : ToolheadTimingConfig) (t0 : ToolheadTimingState) (want : f64)
    (s : f64 * (list flush_event * ToolheadTimingState)) : Prop := {
  lp_time : time s.1;
  lp_want : fle s.1 want = true;
  lp_clock : clock_ok s.2.2;
  lp_print : PrintTime s.2.2 = PrintTime t0;
  lp_flush : fle (LastFlushTime s.2.2) s.1 = true
}.

Lemma move_round_ok c a t0 want s :
  timing_ok c → time want → ulp_le want (MoveBatchTime c) = true → loop_ok c t0 want s →
  match move_round want c a s with
  | inl s' => loop_ok c t0 want s' ∧ 0 ≤ place want - place s'.1 < place want - place s.1
  | inr r => clock_ok r.2 ∧ PrintTime r.2 = PrintTime t0 ∧ feq (LastFlushTime r.2) want = true
  end.
Proof.
  intros Hc Hw Hu [Hx Hxw Ht Hp Hf]. destruct s as [x [evs t]]. cbn [fst snd] in *. unfold move_round.
  set (y := fmin (fadd x (MoveBatchTime c)) want).
  assert (Hb : time (fadd x (MoveBatchTime c))) by (apply time_fadd; [done|apply Hc]).
  assert (Hy : time y) by (unfold y; clock).
  assert (Hyw : fle y want = true) by (apply fmin_cases; clock).
  assert (Hyx : fle x y = true).
  { destruct (fmin_cases (fadd x (MoveBatchTime c)) want) as [[E|E] _]; [clock..| |unfold y; by rewrite E].
    unfold y. rewrite E. destruct Hx, (cfg_batch _ Hc). by apply fadd_ge. }
  destruct (AdvanceFlushTime_ok y c a t Hc Ht) as (Ht' & _ & _ & _ & Hl); [apply Hy|clock|].
  assert (Hpt : PrintTime (AdvanceFlushTime y c a t).2 = PrintTime t0) by exact Hp.
  destruct (AdvanceFlushTime y c a t) as [more t']. cbn [fst snd] in *.
  assert (Hfl : feq (LastFlushTime t') y = true).
  { rewrite Hl. destruct (fmax_cases y (LastFlushTime t)) as ([E|E] & H1 & H2); [clock|apply time_not_nan, Ht|..].
    - rewrite E. apply feq_refl. clock.
    - rewrite E in *. apply fle_antisym; [by apply (fle_trans _ x)|done]. }
  destruct (fle want y) eqn:E.
  - split_and!; [done..|]. eapply feq_trans; [done|]. by apply fle_antisym.
  - assert (Hlt : flt y want = true).
    { destruct (flt y want) eqn:E2; [done|]. apply flt_false_fle in E2; [congruence|clock..]. }
    assert (Hyb : y = fadd x (MoveBatchTime c)).
    { destruct (fmin_cases (fadd x (MoveBatchTime c)) want) as [[E2|E2] _]; [clock..|done|].
      unfold y in E. rewrite E2, fle_refl in E by clock. done. }
    assert (Hprog : flt x y = true).
    { rewrite Hyb. apply fadd_progress; [apply Hx|]. destruct Hx. by apply (ulp_le_mono x want). }
    split; [constructor; cbn [fst snd]; try done; by apply feq_fle|].
    destruct Hx, Hy, Hw. assert (Hyf : ffin y = true) by (by apply (flt_fin y want)).
    assert (place x < place y) by (apply place_lt; done).
    assert (place y < place want) by (apply place_lt; try done; by apply (ulp_le_fin _ _ Hu)). cbn [fst]. lia.
Qed.

(** The time that the loop of [AdvanceMoveTime] flushes up to. *)
Definition want_flush_time (next : f64) (c : ToolheadTimingConfig) (t : ToolheadTimingState) : f64 :=
  fmax (fmax (LastFlushTime t) (fsub (PrintTime t) (ptDelay c t))) (fsub (fmax (PrintTime t) next) (ptDelay c t)).

Lemma AdvanceMoveTime_eq next c a t :
  AdvanceMoveTime next c a t =
    match while flush_rounds (move_round (want_flush_time next c t) c a)
      (fmax (LastFlushTime t) (fsub (PrintTime t) (ptDelay c t)), ([], set_PrintTime (fmax (PrintTime t) next) t)) with
    | inr r => Some r
    | inl _ => None
    end.
Proof. reflexivity. Qed.

Lemma set_PrintTime_ok v t : canon v = true → ffin v = true → clock_ok t → clock_ok (set_PrintTime v t).
Proof. intros ?? []. by constructor. Qed.

Lemma fmax_fin x y : is_nan x = false → is_nan y = false → canon x = true → canon y = true → ffin x = true → ffin y = true →
  canon (fmax x y) = true ∧ ffin (fmax x y) = true.
Proof. intros Hx Hy ????. by destruct (fmax_cases x y Hx Hy) as [[-> | ->] _]. Qed.

Lemma AdvanceMoveTime_ok next c a t (want := want_flush_time next c t) :
  timing_ok c → clock_ok t → canon next = true → ffin next = true → ffin (ptDelay c t) = true →
  ulp_le want (MoveBatchTime c) = true →
  ∃ evs t', AdvanceMoveTime next c a t = Some (evs, t') ∧ clock_ok t' ∧
    PrintTime t' = fmax (PrintTime t) next ∧ feq (LastFlushTime t') want = true.
Proof.
  intros Hc Ht Hn Hn' Hd Hu. destruct (ck_print _ Ht) as [Hp Hp'], (ck_delay _ Ht) as [Hk Hk'].
  destruct (fmax_fin (PrintTime t) next) as [Hm Hm']; [clock..|].
  assert (Hpd : canon (ptDelay c t) = true) by (unfold ptDelay; apply fadd_canon; [done|apply Hc]).
  set (x := fmax (LastFlushTime t) (fsub (PrintTime t) (ptDelay c t))).
  assert (Hx : time x) by (apply time_fmax_l; [apply Ht|clock..]).
  assert (Hw : time want) by (apply time_fmax_l; [done|clock..]).
  rewrite AdvanceMoveTime_eq. fold x want. set (t1 := set_PrintTime (fmax (PrintTime t) next) t).
  destruct (while_leaves (loop_ok c t1 want) (λ r, clock_ok r.2 ∧ PrintTime r.2 = PrintTime t1 ∧ feq (LastFlushTime r.2) want = true)
    (λ s, place want - place s.1) flush_rounds (move_round want c a) (x, ([], t1))) as ([evs t'] & -> & H1 & H2 & H3).
  - intros s Hs. by apply move_round_ok.
  - constructor; cbn [fst snd]; [done|unfold want, want_flush_time; fold x; clock|by apply set_PrintTime_ok|done|].
    apply fmax_ge_l; [apply time_not_nan, Ht|clock].
  - cbn [fst]. destruct Hw, Hx. pose proof (place_bounds want). pose proof (place_bounds x).
    unfold flush_rounds. assert (place want < 2 ^ 64) by (by apply place_bounds). assert (0 ≤ place x) by (by apply place_bounds). lia.
  - by exists evs, t'.
Qed.

(** C22. The flush loop of AdvanceMoveTime ends, as long as the batch time is at least one
    unit in the last place of the time to reach, with the print time advanced and
    everything flushed exactly up to the wanted time. *)
Theorem AdvanceMoveTime_reaches (next : f64) (c : ToolheadTimingConfig) (a : FlushActions) (t : ToolheadTimingState) :
  timing_ok c → clock_ok t → canon next = true → ffin next = true → ffin (ptDelay c t) = true →
  ulp_le (want_flush_time next c t) (MoveBatchTime c) = true →
  ∃ evs t', AdvanceMoveTime next c a t = Some (evs, t') ∧ clock_ok t' ∧
    PrintTime t' = fmax (PrintTime t) next ∧
    fle (LastFlushTime t) (LastFlushTime t') = true ∧
    feq (LastFlushTime t') (want_flush_time next c t) = true.
Proof.
  intros Hc Ht Hn Hf Hd Hu. destruct (AdvanceMoveTime_ok next c a t) as (evs & t' & H1 & H2 & H3 & H4); [done..|].
  exists evs, t'. split_and!; [done..| |done].
  apply (fle_trans _ (want_flush_time next c t)); [|apply feq_fle; by rewrite feq_sym].
  destruct (ck_print _ Ht) as [Hp Hp']. destruct (fmax_fin (PrintTime t) next) as [_ Hm]; [clock..|].
  assert (Hl := time_not_nan _ (ck_flush _ Ht)).
  apply (fle_trans _ (fmax (LastFlushTime t) (fsub (PrintTime t) (ptDelay c t)))); [clock|].
  apply fmax_ge_l; [|clock]. by destruct (fmax_cases (LastFlushTime t) (fsub (PrintTime t) (ptDelay c t))) as [[-> | ->] _]; clock.
Qed.

(** ** Histories *)

Definition flush_times (evs : list flush_event) : list f64 :=
  omap (λ e, match e with FlushMoves _ x _ => Some x | _ => None end) evs.

(** Before a driver is flushed to a time, every generator has run that far. *)
Definition generated_first (a : FlushActions) (evs : list flush_event) : Prop :=
  ∀ pre d x cl post, evs = pre ++ FlushMoves d x cl :: post →
  ∀ g, (g < StepGenerators a)%nat → ∃ y, GenerateSteps g y ∈ pre ∧ fle x y = true.

Definition in_order (a : FlushActions) (evs : list flush_event) (t : ToolheadTimingState) : Prop :=
  clock_ok t ∧ StronglySorted (λ x y, fle x y = true) (flush_times evs) ∧
  Forall (λ x, fle x (LastFlushTime t) = true) (flush_times evs) ∧ generated_first a evs.

(** The flushes of one call: all at the new flush time, after all the generators. *)
Lemma AdvanceFlushTime_events x c a t (r := AdvanceFlushTime x c a t) :
  timing_ok c → clock_ok t → canon x = true → is_nan x = false →
  ∃ gens flushes, r.1 = gens ++ flushes ∧ flush_times gens = [] ∧
    (∀ g, (g < StepGenerators a)%nat → GenerateSteps g (LastStepGenTime r.2) ∈ gens) ∧
    ∃ cl, flushes = (λ i, FlushMoves i (LastFlushTime r.2) cl) <$> seq 0 (FlushDrivers a).
Proof.
  intros. subst r. unfold AdvanceFlushTime. cbn [fst snd LastStepGenTime LastFlushTime].
  generalize (fmax x (LastFlushTime t)) as ft. intros ft.
  generalize (fmax (fmin (fadd ft (StepcompressFlushTime c)) (fsub (PrintTime t) (KinFlushDelay t))) ft) as sg. intros sg.
  generalize (fsub sg (KinFlushDelay t)) as free. intros free.
  generalize (if CanPause t then ClearHistoryTime t else fmax f0 (fsub free (MoveHistoryExpire c))) as cl. intros cl.
  exists (((λ i, GenerateSteps i sg) <$> seq 0 (StepGenerators a)) ++ (if FinalizeMoves a then [Finalize free cl] else []) ++
    (if UpdateExtruderMoveTime a then [ExtruderMoveTime free cl] else [])),
    ((λ i, FlushMoves i ft cl) <$> seq 0 (FlushDrivers a)).
  split_and!; [by rewrite <- !app_assoc| | |by exists cl].
  - unfold flush_times. rewrite !omap_app. replace (omap _ (_ <$> _)) with (@nil f64).
    + by destruct (FinalizeMoves a), (UpdateExtruderMoveTime a).
    + symmetry. induction (seq 0 (StepGenerators a)); csimpl; done.
  - intros g Hg. rewrite !elem_of_app. left. apply list_elem_of_fmap. exists g.
    split; [done|]. apply elem_of_seq. lia.
Qed.

Lemma flush_times_const x cl l : flush_times ((λ i, FlushMoves i x cl) <$> l) = replicate (length l) x.
Proof. unfold flush_times. induction l as [|i l IH]; csimpl; [done|]. by rewrite IH. Qed.

Lemma sorted_app_const (l : list f64) x n :
  StronglySorted (λ x y, fle x y = true) l → Forall (λ y, fle y x = true) l → fle x x = true →
  StronglySorted (λ x y, fle x y = true) (l ++ replicate n x).
Proof.
  intros Hs Hf Hx. induction Hs as [|y l Hs IH Hy]; simpl.
  - induction n as [|n IH]; simpl; constructor; [done|]. by apply Forall_replicate.
  - apply Forall_cons in Hf as [Hyx Hf]. constructor; [by apply IH|]. apply Forall_app. split; [done|].
    by apply Forall_replicate.
Qed.

(** A flush keeps the order. *)
Lemma in_order_flush a c x evs t (r := AdvanceFlushTime x c a t) :
  timing_ok c → canon x = true → is_nan x = false → in_order a evs t → in_order a (evs ++ r.1) r.2.
Proof.
  intros Hc Hx Hx' (Ht & Hs & Hf & Hcov). destruct (AdvanceFlushTime_ok x c a t) as (Ht' & _ & Hle & _ & _); [done..|].
  destruct (AdvanceFlushTime_events x c a t) as (gens & flushes & E & Hg0 & Hg & cl & Hfl); [done..|].
  fold r in Ht', Hle, E, Hg, Hfl. clearbody r.
  assert (Hft : flush_times (evs ++ r.1) = flush_times evs ++ replicate (FlushDrivers a) (LastFlushTime r.2)).
  { rewrite E, Hfl. unfold flush_times in *. rewrite !omap_app, Hg0. simpl. f_equal.
    pose proof (flush_times_const (LastFlushTime r.2) cl (seq 0 (FlushDrivers a))) as H. by rewrite length_seq in H. }
  assert (Hf' : Forall (λ y, fle y (LastFlushTime r.2) = true) (flush_times evs)).
  { eapply Forall_impl; [exact Hf|]. intros y Hy. by apply (fle_trans _ (LastFlushTime t)). }
  assert (Hrefl : fle (LastFlushTime r.2) (LastFlushTime r.2) = true) by (apply fle_refl, time_not_nan, Ht').
  split_and!; [done| | |].
  - rewrite Hft. by apply sorted_app_const.
  - rewrite Hft. apply Forall_app. split; [done|]. by apply Forall_replicate.
  - assert (Hno : ∀ pre d y cl' post, gens ≠ pre ++ FlushMoves d y cl' :: post).
    { intros pre d y cl' post ->. unfold flush_times in Hg0. rewrite omap_app in Hg0. by apply app_nil in Hg0 as [_ ?]. }
    assert (Hlast : ∀ y, y ∈ flush_times flushes → fle y (LastStepGenTime r.2) = true).
    { intros y. rewrite Hfl, flush_times_const. intros [-> _]%elem_of_replicate. apply Ht'. }
    intros pre d y cl' post Epre g Hgen. rewrite E, app_assoc in Epre.
    apply app_eq_inv in Epre as [([|e k] & E1 & E2)|(k & E1 & E2)]; [| |].
    + rewrite app_nil_r in E1. subst pre. exists (LastStepGenTime r.2). simpl in E2.
      split; [rewrite elem_of_app; right; by apply Hg|]. apply Hlast. rewrite <- E2. unfold flush_times. simpl. set_solver.
    + simpl in E2. injection E2 as <- _. apply app_eq_inv in E1 as [([|e k'] & E3 & E4)|(k' & _ & E4)].
      * by destruct (Hno [] d y cl' k).
      * simpl in E4. injection E4 as <- _. by eapply Hcov.
      * by destruct (Hno k' d y cl' k).
    + subst pre. exists (LastStepGenTime r.2). split; [rewrite !elem_of_app; left; right; by apply Hg|].
      apply Hlast. rewrite E2. unfold flush_times. rewrite omap_app. simpl. set_solver.
Qed.

Lemma in_order_move a c next evs t more t' :
  timing_ok c → canon next = true → ffin next = true → ffin (ptDelay c t) = true →
  in_order a evs t → AdvanceMoveTime next c a t = Some (more, t') → in_order a (evs ++ more) t'.
Proof.
  intros Hc Hn Hn' Hd Ho H. pose proof Ho as (Ht & Hs & Hf & Hcov). destruct (ck_print _ Ht) as [Hp Hp'], (ck_delay _ Ht) as [Hk Hk'].
  destruct (fmax_fin (PrintTime t) next) as [Hm Hm']; [clock..|].
  assert (Hpd : canon (ptDelay c t) = true) by (unfold ptDelay; apply fadd_canon; [done|apply Hc]).
  rewrite AdvanceMoveTime_eq in H. set (x := fmax (LastFlushTime t) (fsub (PrintTime t) (ptDelay c t))) in H.
  assert (Hx : time x) by (apply time_fmax_l; [apply Ht|clock..]).
  assert (Hw : time (want_flush_time next c t)) by (apply time_fmax_l; [done|clock..]).
  revert H. generalize (want_flush_time next c t) as want, flush_rounds as n, Hw. clear Hw. intros want n Hw H.
  destruct (while _ _ _) as [|r] eqn:E; [done|]. injection H as ->.
  refine (while_inv (λ s, time s.1 ∧ in_order a (evs ++ s.2.1) s.2.2) (λ r, in_order a (evs ++ r.1) r.2) _ _ _ _ _ _ E).
  - intros [y [evs' t2]] [Hy Ho']. cbn [fst snd] in *. unfold move_round. set (z := fmin _ _).
    assert (Hz : time z) by (unfold z; apply time_fmin; [apply time_fadd; [done|apply Hc]|done]).
    pose proof (in_order_flush a c z _ t2 Hc (proj1 Hz) (time_not_nan _ Hz) Ho') as Hnext. rewrite <- app_assoc in Hnext.
    destruct (AdvanceFlushTime z c a t2) as [more' t3]. cbn [fst snd] in Hnext. by destruct (fle want z).
  - cbn [fst snd]. rewrite app_nil_r. split; [done|]. split_and!; [by apply set_PrintTime_ok|done..].
Qed.

(** The operations of the clock, with the flushes they cause, in order. *)
Inductive clock_run (c : ToolheadTimingConfig) (a : FlushActions) : list flush_event → ToolheadTimingState → Prop :=
| run_new canPause : clock_run c a [] (NewTiming canPause)
| run_flush x evs t : canon x = true → is_nan x = false → clock_run c a evs t →
    clock_run c a (evs ++ (AdvanceFlushTime x c a t).1) (AdvanceFlushTime x c a t).2
| run_move next evs t more t' : canon next = true → ffin next = true → ffin (ptDelay c t) = true →
    clock_run c a evs t → AdvanceMoveTime next c a t = Some (more, t') → clock_run c a (evs ++ more) t'
| run_calc est evs t (t' := (CalcPrintTime c est t).2) : clock_run c a evs t →
    canon (PrintTime t') = true → ffin (PrintTime t') = true → clock_run c a evs t'
| run_scan delay oldDelay evs t (t' := UpdateStepGenerationScanDelay delay oldDelay c t) : clock_run c a evs t →
    canon (KinFlushDelay t') = true → ffin (KinFlushDelay t') = true → clock_run c a evs t'
| run_note mqTime b evs t : clock_run c a evs t → clock_run c a evs (NoteMovequeueActivity mqTime b t).2
| run_restart evs t : clock_run c a evs t →
    clock_run c a evs (set_MinRestartTime (fmax (MinRestartTime t) (PrintTime t)) t).

(** C15. Over any history of the toolhead clock the times to which the MCU queues are
    flushed never go back, every step generator has run at least that far before a queue
    is flushed, and the restart time is never before the generated steps. *)
Theorem flush_times_monotone (c : ToolheadTimingConfig) (a : FlushActions) (evs : list flush_event) (t : ToolheadTimingState) :
  timing_ok c → clock_run c a evs t →
  StronglySorted (λ x y, fle x y = true) (flush_times evs) ∧
  Forall (λ x, fle x (LastFlushTime t) = true) (flush_times evs) ∧
  generated_first a evs ∧
  fle (LastFlushTime t) (LastStepGenTime t) = true ∧ fle (LastStepGenTime t) (MinRestartTime t) = true.
Proof.
  intros Hc Hrun. enough (in_order a evs t) as (Ht & ? & ? & ?) by (split_and!; [done..|apply Ht|apply Ht]).
  induction Hrun as [canPause|x evs t ?? _ IH|next evs t more t' ??? _ IH H|est evs t t' _ (Ht & Ho) ??
    |delay oldDelay evs t t' _ (Ht & Ho) ??|mqTime b evs t _ (Ht & Ho)|evs t _ (Ht & Ho)].
  - split_and!; [by constructor|constructor|constructor|]. by intros [|??] ?????.
  - by apply in_order_flush.
  - by eapply in_order_move.
  - assert (E : t' = set_PrintTime (PrintTime t') t) by (unfold t', CalcPrintTime; case_match; [by destruct t|done]).
    rewrite E. split; [by apply set_PrintTime_ok|done].
  - split; [|done]. destruct Ht. by constructor.
  - split; [|done]. destruct Ht. by constructor.
  - split; [|done]. destruct Ht as [[Hp Hp'] ?? Hr ? Hgr]. constructor; try done.
    + apply time_fmax_l; clock.
    + apply (fle_trans _ (MinRestartTime t)); [done|]. apply fmax_ge_l; clock.
Qed.

(** ** A toolhead with three generators and one driver *)

Definition demo_actions : FlushActions := mkActions 3 true true 1.
Definition demo_clock : ToolheadTimingState := NewTiming true.
Definition demo_advanced : list flush_event * ToolheadTimingState :=
  default ([], demo_clock) (AdvanceMoveTime (f_of_Z 2) DefaultTimingConfig demo_actions demo_clock).

Lemma default_timing_ok : timing_ok DefaultTimingConfig.
Proof. constructor; vm_compute; done. Qed.

Lemma demo_clock_ok : clock_ok demo_clock.
Proof. constructor; vm_compute; done. Qed.

Lemma AdvanceMoveTime_reaches_witness :
  ∃ evs t', AdvanceMoveTime (f_of_Z 2) DefaultTimingConfig demo_actions demo_clock = Some (evs, t') ∧ clock_ok t' ∧
    PrintTime t' = fmax (PrintTime demo_clock) (f_of_Z 2) ∧
    fle (LastFlushTime demo_clock) (LastFlushTime t') = true ∧
    feq (LastFlushTime t') (want_flush_time (f_of_Z 2) DefaultTimingConfig demo_clock) = true.
Proof.
  exact (AdvanceMoveTime_reaches (f_of_Z 2) DefaultTimingConfig demo_actions demo_clock default_timing_ok demo_clock_ok
    ltac:(vm_compute; reflexivity) ltac:(vm_compute; reflexivity) ltac:(vm_compute; reflexivity) ltac:(vm_compute; reflexivity)).
Defined.

Lemma demo_advanced_ok : AdvanceMoveTime (f_of_Z 2) DefaultTimingConfig demo_actions demo_clock = Some (demo_advanced.1, demo_advanced.2).
Proof. vm_compute. reflexivity. Qed.

Lemma demo_run_ok : clock_run DefaultTimingConfig demo_actions demo_advanced.1 demo_advanced.2.
Proof.
  exact (run_move DefaultTimingConfig demo_actions (f_of_Z 2) [] demo_clock demo_advanced.1 demo_advanced.2 ltac:(vm_compute; reflexivity)
    ltac:(vm_compute; reflexivity) ltac:(vm_compute; reflexivity) (run_new _ _ true) demo_advanced_ok).
Qed.

Lemma flush_times_monotone_witness :
  length (flush_times demo_advanced.1) = 4%nat ∧ StronglySorted (λ x y, fle x y = true) (flush_times demo_advanced.1).
Proof.
  split; [vm_compute; reflexivity|].
  exact (proj1 (flush_times_monotone DefaultTimingConfig demo_actions demo_advanced.1 demo_advanced.2 default_timing_ok demo_run_ok)).
Defined.
