(* ===== verification/Toolhead.v ===== *)
(** * The toolhead

    [Toolhead] of [src/project/goklipper.go] over the functions of
    [src/internal/pkg/motion/toolhead_*.go], [extrusion.go] and
    [extruder_runtime.go]: the commanded position, the look-ahead queue, the
    kinematics, the extruder and the clock, composed as the code composes them.
    [ToolheadCoreState] is the record here less its timing part, which is the
    [timing] field.  Calls that leave the component (trapezoid queue, timers,
    events, callbacks) are recorded in order.  The reactor and the MCU clock are an
    oracle: the [n]-th observation is an event time with the print time estimated
    for it; the [n]-th test of the drip completion is an oracle too. *)

From S2P Require Import Prelude GoFloat GoFloatRound GoStrings GoState LookAhead Kinematics ToolheadTiming.

(** ** Extrusion *)

Record ExtrusionLimits := mkExtrusion {
  CanExtrude : bool;
  NozzleDiameter : f64;
  FilamentArea : f64;
  MaxExtrudeRatio : f64;
  MaxEVelocity : f64;
  MaxEAccel : f64;
  MaxEDistance : f64;
  InstantCornerV : f64
}.

(** The error, without the numbers it reports, or the move with its new limits. *)
Definition CheckExtrusionMove (m : Move) (limits : ExtrusionLimits) : go (string + Move) :=
  axisR ← (Axes_r m).[3];
  if negb (CanExtrude limits) then Ret (inl "Extrude below minimum temp"%string)
  else
    d0 ← (Axes_d m).[0]; d1 ← (Axes_d m).[1]; d3 ← (Axes_d m).[3];
    if (feq d0 f0 && feq d1 f0) || flt axisR f0 then
      if flt (MaxEDistance limits) (fabs d3) then Ret (inl "Extrude only move too long"%string)
      else
        let invExtrudeR := fdiv f1 (fabs axisR) in
        Ret (inr (Limit_speed (fmul (MaxEVelocity limits) invExtrudeR) (fmul (MaxEAccel limits) invExtrudeR) m))
    else if flt (MaxExtrudeRatio limits) axisR then
      if fle d3 (fmul (NozzleDiameter limits) (MaxExtrudeRatio limits)) then Ret (inr m)
      else Ret (inl "Move exceeds maximum extrusion"%string)
    else Ret (inr m).

Definition CalcExtrusionJunction (prevMove m : Move) (instantCornerV : f64) : f64 :=
  match Axes_r m !! 3%nat, Axes_r prevMove !! 3%nat with
  | Some r, Some p =>
      let diffR := fsub r p in
      if negb (feq diffR f0) then let v := fdiv instantCornerV (fabs diffR) in fmul v v else Max_cruise_v2 m
  | _, _ => Max_cruise_v2 m
  end.

(** ** State *)

Inductive th_event :=
| TrapqAppend (printTime : f64) (m : Move)
| ExtruderTrapqAppend (printTime : f64) (m : Move)
| TimingCall (cb : nat) (printTime : f64)
| Clock (e : flush_event)
| SyncPrintTime (printTime : f64)
| UpdateFlushTimer (waketime : f64)
| UpdatePrimingTimer (waketime : f64)
| TrapqSetPosition (printTime : f64) (pos : list f64)
| SetPositionEvent
| ManualMoveEvent
| FinalizeDripMoves.

Record ToolheadVelocitySettings := mkVelocity {
  MaxVelocity : f64;
  MaxAccel : f64;
  RequestedAccelToDecel : f64;
  SquareCornerVelocity : f64
}.

Record Toolhead := mkToolhead {
  timing : ToolheadTimingState;
  CommandedPos : list f64;
  velocity : ToolheadVelocitySettings;
  MaxAccelToDecel : f64;
  th_JunctionDeviation : f64;
  CheckStallTime : f64;
  SpecialQueuingState : string;
  NeedCheckPause : f64;
  PrintStall : f64;
  lookahead : LookAheadQueue;
  kin : Kin;
  extruder : option ExtrusionLimits;         (* None: the dummy extruder *)
  Last_position : f64;
  priming_timer : bool;                      (* registered *)
  generators : nat;
  drivers : nat;
  now : nat;                                 (* observations made *)
  tests : nat;                               (* drip tests made *)
  trace : list th_event
}.

Definition set_timing (v : ToolheadTimingState) (th : Toolhead) : Toolhead :=
  mkToolhead v (CommandedPos th) (velocity th) (MaxAccelToDecel th) (th_JunctionDeviation th) (CheckStallTime th)
    (SpecialQueuingState th) (NeedCheckPause th) (PrintStall th) (lookahead th) (kin th) (extruder th) (Last_position
    th) (priming_timer th) (generators th) (drivers th) (now th) (tests th) (trace th).
Definition set_pos (v : list f64) (th : Toolhead) : Toolhead :=
  mkToolhead (timing th) v (velocity th) (MaxAccelToDecel th) (th_JunctionDeviation th) (CheckStallTime th)
    (SpecialQueuingState th) (NeedCheckPause th) (PrintStall th) (lookahead th) (kin th) (extruder th) (Last_position
    th) (priming_timer th) (generators th) (drivers th) (now th) (tests th) (trace th).
Definition set_velocity (v : ToolheadVelocitySettings) (jd atd : f64) (th : Toolhead) : Toolhead :=
  mkToolhead (timing th) (CommandedPos th) v atd jd (CheckStallTime th)
    (SpecialQueuingState th) (NeedCheckPause th) (PrintStall th) (lookahead th) (kin th) (extruder th) (Last_position
    th) (priming_timer th) (generators th) (drivers th) (now th) (tests th) (trace th).
(** The fields of [ToolheadPauseState] other than the print time. *)
Definition set_pause (stall : f64) (special : string) (need : f64) (stalls : f64) (th : Toolhead) : Toolhead :=
  mkToolhead (timing th) (CommandedPos th) (velocity th) (MaxAccelToDecel th) (th_JunctionDeviation th) stall special
    need stalls (lookahead th) (kin th) (extruder th) (Last_position th) (priming_timer th) (generators th) (drivers
    th) (now th) (tests th) (trace th).
Definition set_lookahead (v : LookAheadQueue) (th : Toolhead) : Toolhead :=
  mkToolhead (timing th) (CommandedPos th) (velocity th) (MaxAccelToDecel th) (th_JunctionDeviation th) (CheckStallTime
    th) (SpecialQueuingState th) (NeedCheckPause th) (PrintStall th) v (kin th) (extruder th) (Last_position th)
    (priming_timer th) (generators th) (drivers th) (now th) (tests th) (trace th).
Definition set_kin (v : Kin) (th : Toolhead) : Toolhead :=
  mkToolhead (timing th) (CommandedPos th) (velocity th) (MaxAccelToDecel th) (th_JunctionDeviation th) (CheckStallTime
    th) (SpecialQueuingState th) (NeedCheckPause th) (PrintStall th) (lookahead th) v (extruder th) (Last_position th)
    (priming_timer th) (generators th) (drivers th) (now th) (tests th) (trace th).
Definition set_extruder (v : option ExtrusionLimits) (lastPos : f64) (th : Toolhead) : Toolhead :=
  mkToolhead (timing th) (CommandedPos th) (velocity th) (MaxAccelToDecel th) (th_JunctionDeviation th) (CheckStallTime
    th) (SpecialQueuingState th) (NeedCheckPause th) (PrintStall th) (lookahead th) (kin th) v lastPos
    (priming_timer th) (generators th) (drivers th) (now th) (tests th) (trace th).
Definition set_priming (v : bool) (th : Toolhead) : Toolhead :=
  mkToolhead (timing th) (CommandedPos th) (velocity th) (MaxAccelToDecel th) (th_JunctionDeviation th) (CheckStallTime
    th) (SpecialQueuingState th) (NeedCheckPause th) (PrintStall th) (lookahead th) (kin th) (extruder th)
    (Last_position th) v (generators th) (drivers th) (now th) (tests th) (trace th).
Definition set_oracle (n t : nat) (th : Toolhead) : Toolhead :=
  mkToolhead (timing th) (CommandedPos th) (velocity th) (MaxAccelToDecel th) (th_JunctionDeviation th) (CheckStallTime
    th) (SpecialQueuingState th) (NeedCheckPause th) (PrintStall th) (lookahead th) (kin th) (extruder th)
    (Last_position th) (priming_timer th) (generators th) (drivers th) n t (trace th).
Definition add_trace (evs : list th_event) (th : Toolhead) : Toolhead :=
  mkToolhead (timing th) (CommandedPos th) (velocity th) (MaxAccelToDecel th) (th_JunctionDeviation th) (CheckStallTime
    th) (SpecialQueuingState th) (NeedCheckPause th) (PrintStall th) (lookahead th) (kin th) (extruder th)
    (Last_position th) (priming_timer th) (generators th) (drivers th) (now th) (tests th) (trace th ++ evs).

Definition emit (evs : list th_event) : M Toolhead unit := modify (add_trace evs).

Definition NeedPrime : string := "NeedPrime".
Definition Priming : string := "Priming".
Definition Drip : string := "Drip".
Definition BUFFER_TIME_HIGH : f64 := f1.
Definition BUFFER_TIME_LOW : f64 := f1.

(** [DefaultPauseConfig], [DefaultDripConfig]. *)
Definition PauseCheckOffset : f64 := f_lit 100 1000.
Definition MaxPauseDuration : f64 := f1.
Definition MinPrimingDelay : f64 := f_lit 100 1000.
Definition WaitMoveDelay : f64 := f_lit 100 1000.
Definition DripTime : f64 := f_lit 100 1000.
Definition DripSegmentTime : f64 := f_lit 50 1000.

(** ** The clock within the toolhead *)

Section Toolhead.
Context (obs : nat → f64 * f64) (drip_done : nat → bool).
(** What the other tasks of the reactor do while this one waits: in a drip move,
    and elsewhere. *)
Context (drip_others others : M Toolhead unit).
(** The rounds that a waiting loop is given; how many it needs is up to the clock. *)
Context (fuel : nat).

Definition actions (th : Toolhead) : FlushActions := mkActions (generators th) true true (drivers th).

(** [Monotonic] or [Pause], then [EstimatedPrintTime]. *)
Definition observe : M Toolhead (f64 * f64) :=
  th ← get; modify (set_oracle (S (now th)) (tests th));; mret (obs (now th)).

Definition advance_flush_time (flush_time : f64) : M Toolhead unit :=
  th ← get;
  let '(evs, t) := AdvanceFlushTime flush_time DefaultTimingConfig (actions th) (timing th) in
  modify (set_timing t);; emit (Clock <$> evs).

Definition advance_move_time (next_print_time : f64) : M Toolhead unit :=
  th ← get;
  match AdvanceMoveTime next_print_time DefaultTimingConfig (actions th) (timing th) with
  | Some (evs, t) => modify (set_timing t);; emit (Clock <$> evs)
  | None => panic "the flush loop does not end"
  end.

Definition calc_print_time : M Toolhead unit :=
  '(_, est) ← observe; th ← get;
  let '(moved, t) := CalcPrintTime DefaultTimingConfig est (timing th) in
  modify (set_timing t);; if moved then emit [SyncPrintTime (PrintTime t)] else mret tt.

Definition Note_mcu_movequeue_activity (mq_time : f64) (set_step_gen_time : bool) : M Toolhead unit :=
  th ← get;
  let '(kick, t) := NoteMovequeueActivity mq_time set_step_gen_time (timing th) in
  modify (set_timing t);; if kick then emit [UpdateFlushTimer NOW] else mret tt.

(** ** Handing moves over *)

Definition ErrDripModeEnd : string := "drip mode ended".

(** One round of [UpdateToolheadDripTime]; [true] when the completion ended it. *)
Definition drip_round (nextPrintTime flushDelay : f64) : M Toolhead (option bool) :=
  th ← get;
  if negb (flt (PrintTime (timing th)) nextPrintTime) then mret (Some false)
  else
    modify (set_oracle (now th) (S (tests th)));;
    if drip_done (tests th) then mret (Some true)
    else
      '(_, est) ← observe; th ← get;
      let waitTime := fsub (fsub (PrintTime (timing th)) est) flushDelay in
      if flt f0 waitTime && CanPause (timing th) then drip_others;; mret None
      else
        let next := fmin (fadd (PrintTime (timing th)) DripSegmentTime) nextPrintTime in
        Note_mcu_movequeue_activity (fadd next (KinFlushDelay (timing th))) true;;
        advance_move_time next;; mret None.

Fixpoint drip_loop (n : nat) (nextPrintTime flushDelay : f64) : M Toolhead bool :=
  match n with
  | O => panic "the drip loop does not end"
  | S n =>
      r ← drip_round nextPrintTime flushDelay;
      match r with Some ended => mret ended | None => drip_loop n nextPrintTime flushDelay end
  end.

Definition UpdateToolheadDripTime (nextPrintTime : f64) : M Toolhead bool :=
  th ← get;
  drip_loop fuel nextPrintTime
    (fadd (fadd DripTime (StepcompressFlushTime DefaultTimingConfig)) (KinFlushDelay (timing th))).

(** The calls of [QueueMoveBatch] as the toolhead's sink answers them. *)
Definition sink_event (e : batch_event) : M Toolhead unit :=
  match e with
  | QueueKinematicMove t m => emit [TrapqAppend t m]
  | QueueExtruderMove t m =>
      th ← get;
      match extruder th with
      | None => mret tt
      | Some lim =>
          e3 ← lift ((End_pos m).[3]);
          emit [ExtruderTrapqAppend t m];; modify (set_extruder (Some lim) e3)
      end
  | TimingCallback cb t => emit [TimingCall cb t]
  end.

Definition ProcessToolheadMoveBatch (moves : list Move) : M Toolhead bool :=
  th ← get;
  (if bool_decide (SpecialQueuingState th = EmptyString) then mret tt
   else
     (if bool_decide (SpecialQueuingState th = Drip) then mret tt
      else modify (set_pause (CheckStallTime th) EmptyString fm1 (PrintStall th)));;
     calc_print_time);;
  th ← get;
  '(evs, nextMoveTime) ← lift (QueueMoveBatch (PrintTime (timing th)) moves);
  mfor evs sink_event;;
  th ← get;
  ended ← (if bool_decide (SpecialQueuingState th = EmptyString) then mret false else UpdateToolheadDripTime nextMoveTime);
  if ended : bool then mret true
  else
    th ← get;
    Note_mcu_movequeue_activity (fadd nextMoveTime (KinFlushDelay (timing th))) true;;
    advance_move_time nextMoveTime;; mret false.

Definition Process_moves (moves : list Move) : M Toolhead unit :=
  ended ← ProcessToolheadMoveBatch moves; if ended : bool then panic ErrDripModeEnd else mret tt.

(** [LookAheadQueue.Flush] with the toolhead as processor: the moves are planned in
    place, handed over, and then leave the queue. *)
Definition lookahead_flush (lazy : bool) : M Toolhead unit :=
  th ← get;
  let '(moves, q) := Flush lazy (lookahead th) in
  modify (set_lookahead (mkQueue (moves ++ queue q) (junction_flush q)));;
  match moves with
  | [] => mret tt
  | _ =>
      Process_moves moves;;
      th ← get;
      modify (set_lookahead (mkQueue (drop (length moves) (queue (lookahead th))) (junction_flush (lookahead th))))
  end.

(** ** Flushing *)

Definition _flush_lookahead : M Toolhead unit :=
  th ← get;
  modify (set_pause f0 NeedPrime fm1 (PrintStall th));;
  lookahead_flush false;;
  th ← get; modify (set_lookahead (Set_flush_time BUFFER_TIME_HIGH (lookahead th))).

Definition Flush_step_generation : M Toolhead unit :=
  _flush_lookahead;;
  th ← get; advance_flush_time (StepGenTime (timing th));;
  th ← get;
  modify (set_timing (set_MinRestartTime (fmax (MinRestartTime (timing th)) (PrintTime (timing th))) (timing th))).

Definition Get_last_move_time : M Toolhead f64 :=
  th ← get;
  (if bool_decide (SpecialQueuingState th = EmptyString) then lookahead_flush false
   else _flush_lookahead;; calc_print_time);;
  th ← get; mret (PrintTime (timing th)).

(** ** The background flush *)

Definition BgFlushLowTime : f64 := f_lit 200 1000.
Definition BgFlushHighTime : f64 := f_lit 400 1000.
Definition BgFlushSgLowTime : f64 := f_lit 450 1000.
Definition BgFlushSgHighTime : f64 := f_lit 700 1000.
Definition BgFlushExtraTime : f64 := f_lit 250 1000.

Record ToolheadFlushHandlerPlan := mkPlan {
  ShouldFlushLookahead : bool;
  AdvanceFlushTimes : list f64;
  NextWakeTime : f64;                        (* NEVER for ReturnNever *)
  KickFlushTimer : bool
}.

(** The end of [BuildToolheadFlushHandlerPlan]: the queues are kept ahead. *)
Definition plan_flush (eventtime est : f64) (flushLookahead : bool) (advance : list f64) (lastFlushTime : f64)
    (t : ToolheadTimingState) : ToolheadFlushHandlerPlan :=
  let endFlush := fadd (NeedFlushTime t) BgFlushExtraTime in
  let flushTime := fmin (fadd est BgFlushHighTime) endFlush in
  let go_on := flt lastFlushTime endFlush && flt lastFlushTime flushTime in
  let advance := if go_on then advance ++ [flushTime] else advance in
  let lastFlushTime := if go_on then flushTime else lastFlushTime in
  if fle endFlush lastFlushTime then mkPlan flushLookahead advance NEVER true
  else mkPlan flushLookahead advance (fsub (fsub (fadd eventtime lastFlushTime) BgFlushLowTime) est) false.

Definition BuildToolheadFlushHandlerPlan (eventtime est : f64) (special : string) (t : ToolheadTimingState)
    : ToolheadFlushHandlerPlan :=
  let main := bool_decide (special = EmptyString) in
  let bufferTime := fsub (PrintTime t) est in
  if main && flt BUFFER_TIME_LOW bufferTime
  then mkPlan false [] (fsub (fadd eventtime bufferTime) BUFFER_TIME_LOW) false
  else
    let lastFlushTime := LastFlushTime t in
    let lastStepGenTime := LastStepGenTime t in
    let aggressiveStepGenTime := fsub (StepGenTime t) (fmul f2 (KinFlushDelay t)) in
    if flt lastStepGenTime aggressiveStepGenTime then
      let wantStepGenTime := fadd est BgFlushSgHighTime in
      let batchTime := fsub BgFlushSgHighTime BgFlushSgLowTime in
      let nextBatchTime := fadd lastStepGenTime batchTime in
      let wantStepGenTime :=
        if flt est nextBatchTime then
          if flt (fadd wantStepGenTime (f_lit 5 1000)) nextBatchTime then lastStepGenTime else nextBatchTime
        else wantStepGenTime in
      let wantStepGenTime := fmin wantStepGenTime aggressiveStepGenTime in
      let go_on := flt lastStepGenTime wantStepGenTime in
      let flushTime := fmax lastFlushTime (fsub wantStepGenTime (StepcompressFlushTime DefaultTimingConfig)) in
      let advance := if go_on then [flushTime] else [] in
      let lastFlushTime := if go_on then flushTime else lastFlushTime in
      let lastStepGenTime := if go_on then wantStepGenTime else lastStepGenTime in
      if flt lastStepGenTime aggressiveStepGenTime
      then mkPlan main advance (fsub (fsub (fadd eventtime lastStepGenTime) BgFlushSgLowTime) est) false
      else plan_flush eventtime est main advance lastFlushTime t
    else plan_flush eventtime est main [] lastFlushTime t.

Definition set_kick (b : bool) (t : ToolheadTimingState) : ToolheadTimingState :=
  mkTiming (PrintTime t) (LastFlushTime t) (LastStepGenTime t) (MinRestartTime t) (NeedFlushTime t) (StepGenTime t)
    (ClearHistoryTime t) (KinFlushDelay t) (KinFlushTimes t) b (CanPause t).

(** [HandleToolheadFlushCallback]: answers the next wake time. *)
Definition HandleToolheadFlushCallback (eventtime est : f64) : M Toolhead f64 :=
  th ← get;
  let plan := BuildToolheadFlushHandlerPlan eventtime est (SpecialQueuingState th) (timing th) in
  (if ShouldFlushLookahead plan then
     let printTime := PrintTime (timing th) in
     _flush_lookahead;;
     th ← get;
     if feq printTime (PrintTime (timing th)) then mret tt
     else modify (set_pause (PrintTime (timing th)) (SpecialQueuingState th) (NeedCheckPause th) (PrintStall th))
   else mret tt);;
  mfor (AdvanceFlushTimes plan) advance_flush_time;;
  (if KickFlushTimer plan then modify (λ th, set_timing (set_kick true (timing th)) th) else mret tt);;
  mret (NextWakeTime plan).

(** ** Waiting *)

(** [Pause], then [EstimatedPrintTime]. *)
Definition pause : M Toolhead (f64 * f64) := others;; observe.

Record ToolheadPauseState := mkPause {
  p_PrintTime : f64;
  p_CheckStallTime : f64;
  p_PrintStall : f64;
  p_SpecialQueuingState : string;
  p_NeedCheckPause : f64;
  p_CanPause : bool
}.

Definition PauseState (th : Toolhead) : ToolheadPauseState :=
  mkPause (PrintTime (timing th)) (CheckStallTime th) (PrintStall th) (SpecialQueuingState th) (NeedCheckPause th)
    (CanPause (timing th)).

Definition set_CanPause (b : bool) (t : ToolheadTimingState) : ToolheadTimingState :=
  mkTiming (PrintTime t) (LastFlushTime t) (LastStepGenTime t) (MinRestartTime t) (NeedFlushTime t) (StepGenTime t)
    (ClearHistoryTime t) (KinFlushDelay t) (KinFlushTimes t) (DoKickFlushTimer t) b.

Definition ApplyPauseState (p : ToolheadPauseState) (th : Toolhead) : Toolhead :=
  set_timing (set_CanPause (p_CanPause p) (set_PrintTime (p_PrintTime p) (timing th)))
    (set_pause (p_CheckStallTime p) (p_SpecialQueuingState p) (p_NeedCheckPause p) (p_PrintStall p) th).

(** The loop of [RunToolheadPauseCheck]: the last estimate, or [None] when the
    toolhead cannot pause.  It reads the state taken at the start. *)
Fixpoint pause_loop (n : nat) (p : ToolheadPauseState) (est : f64) : M Toolhead (option f64) :=
  match n with
  | O => panic "the pause does not end"
  | S n =>
      let pauseTime := fsub (fsub (p_PrintTime p) est) BUFFER_TIME_HIGH in
      if fle pauseTime f0 then mret (Some est)
      else if p_CanPause p then '(_, est) ← pause; pause_loop n p est
      else mret None
  end.

(** The new state, and the wake time of the priming timer. *)
Definition RunToolheadPauseCheck (p : ToolheadPauseState) : M Toolhead (ToolheadPauseState * option f64) :=
  '(eventtime, est) ← observe;
  let special := negb (bool_decide (p_SpecialQueuingState p = EmptyString)) in
  let bufferTime := fsub (p_PrintTime p) est in
  let stalls := if special && flt f0 (p_CheckStallTime p) && flt est (p_CheckStallTime p)
                then fadd (p_PrintStall p) f1 else p_PrintStall p in
  let stall := if special then fm1 else p_CheckStallTime p in
  let state := if special then Priming else p_SpecialQueuingState p in
  let wake := if special then Some (fadd eventtime (fmax MinPrimingDelay (fsub bufferTime BUFFER_TIME_LOW))) else None in
  r ← pause_loop fuel p est;
  let need :=
    match r with
    | None => NEVER
    | Some est => if special then p_NeedCheckPause p else fadd (fadd est BUFFER_TIME_HIGH) PauseCheckOffset
    end in
  mret (mkPause (p_PrintTime p) stall stalls state need (p_CanPause p), wake).

Definition EnsurePrimingTimer (waketime : f64) : M Toolhead unit :=
  modify (set_priming true);; emit [UpdatePrimingTimer waketime].

Definition CheckToolheadPause : M Toolhead unit :=
  th ← get;
  '(p, wake) ← RunToolheadPauseCheck (PauseState th);
  modify (ApplyPauseState p);;
  match wake with Some w => EnsurePrimingTimer w | None => mret tt end.

(** The loop of [WaitToolheadMoves], on the state taken after the flush. *)
Fixpoint wait_loop (n : nat) (special : string) (printTime : f64) (canPause : bool) (est : f64) : M Toolhead unit :=
  match n with
  | O => panic "the moves do not end"
  | S n =>
      if bool_decide (special = EmptyString) || fle est printTime then
        if canPause then '(_, est) ← pause; wait_loop n special printTime canPause est else mret tt
      else mret tt
  end.

Definition Wait_moves : M Toolhead unit :=
  _flush_lookahead;;
  th ← get;
  '(_, est) ← observe;
  wait_loop fuel (SpecialQueuingState th) (PrintTime (timing th)) (CanPause (timing th)) est.

(** ** Moving *)

Definition MoveConfig_of (th : Toolhead) : MoveConfig :=
  mkConfig (MaxAccel (velocity th)) (th_JunctionDeviation th) (MaxVelocity (velocity th)) (MaxAccelToDecel th).

Definition CheckKinematicMove (m : Move) : M Toolhead Move := th ← get; lift (CheckMove (kin th) m).

(** [self.Extruder.Check_move(move)]: the error that it returns is dropped. *)
Definition CheckExtruderMove (m : Move) : M Toolhead Move :=
  th ← get;
  match extruder th with
  | None => mret m
  | Some lim => r ← lift (CheckExtrusionMove m lim); match r with inl _ => mret m | inr m => mret m end
  end.

Definition junction_calculator (th : Toolhead) : option (Move → Move → f64) :=
  Some (λ prev m, match extruder th with
                  | None => Max_cruise_v2 m
                  | Some lim => CalcExtrusionJunction prev m (InstantCornerV lim)
                  end).

Definition QueueMove (m : Move) : M Toolhead unit :=
  th ← get;
  '(full, q) ← lift (Add_move m (junction_calculator th) (lookahead th));
  modify (set_lookahead q);; if full : bool then lookahead_flush true else mret tt.

Definition RunToolheadMove (newpos : list f64) (speed : f64) : M Toolhead bool :=
  th ← get;
  m ← lift (NewMove (MoveConfig_of th) (CommandedPos th) newpos speed);
  if feq (Move_d m) f0 then mret false
  else
    m ← (if Is_kinematic_move m then CheckKinematicMove m else mret m);
    d3 ← lift ((Axes_d m).[3]);
    m ← (if negb (feq d3 f0) then CheckExtruderMove m else mret m);
    modify (set_pos (End_pos m));;
    QueueMove m;;
    th ← get;
    (if flt (NeedCheckPause th) (PrintTime (timing th)) then CheckToolheadPause else mret tt);;
    mret true.

(** A coordinate of a manual move is a number or nil. *)
Fixpoint merge_coord (cur : list f64) (coord : list (option f64)) : list f64 :=
  match coord, cur with
  | [], _ => cur
  | c :: coord, [] => default f0 c :: merge_coord [] coord
  | c :: coord, x :: cur => default x c :: merge_coord cur coord
  end.
Definition BuildToolheadManualMoveTarget : list f64 → list (option f64) → list f64 := merge_coord.

Definition RunToolheadManualMove (coord : list (option f64)) (speed : f64) : M Toolhead unit :=
  th ← get;
  RunToolheadMove (BuildToolheadManualMoveTarget (CommandedPos th) coord) speed;;
  emit [ManualMoveEvent].

Definition RunToolheadDwell (delay : f64) : M Toolhead unit :=
  t ← Get_last_move_time;
  advance_move_time (fadd t (fmax f0 delay));; CheckToolheadPause.

Definition ApplyToolheadSetPosition (newpos : list f64) (homingAxes : list Z) : M Toolhead unit :=
  Flush_step_generation;;
  th ← get;
  _ ← lift (newpos.[0]); _ ← lift (newpos.[1]); _ ← lift (newpos.[2]);
  emit [TrapqSetPosition (PrintTime (timing th)) newpos];;
  modify (set_pos newpos);;
  th ← get; k ← lift (SetPosition newpos homingAxes (kin th));
  modify (set_kin k);; emit [SetPositionEvent].

(** [Set_extruder] as [ACTIVATE_EXTRUDER] calls it, after a flush. *)
Definition Set_extruder (e : option ExtrusionLimits) (extrude_pos : f64) : M Toolhead unit :=
  th ← get;
  modify (set_extruder e (Last_position th));;
  if bool_decide (3 < length (CommandedPos th))%nat then modify (set_pos (<[3%nat := extrude_pos]> (CommandedPos th)))
  else panic "index out of range".

Definition Activate_extruder (e : option ExtrusionLimits) (extrude_pos : f64) : M Toolhead unit :=
  Flush_step_generation;; Set_extruder e extrude_pos.

(** ** Timers and events *)

(** [HandleToolheadPrimingCallback]; a panic is one of the model, and the shutdown that
    [Priming_handler] makes of it is left out. *)
Definition Priming_handler : M Toolhead unit :=
  modify (set_priming false);;
  th ← get;
  if bool_decide (SpecialQueuingState th = Priming) then
    let printTime := PrintTime (timing th) in
    _flush_lookahead;;
    th ← get; modify (set_pause printTime (SpecialQueuingState th) (NeedCheckPause th) (PrintStall th))
  else mret tt.

Definition Register_lookahead_callback (cb : nat) : M Toolhead unit :=
  th ← get;
  match Get_last (lookahead th) with
  | None => t ← Get_last_move_time; emit [TimingCall cb t]
  | Some _ => modify (set_lookahead (note_callback cb (lookahead th)))
  end.

Definition Note_step_generation_scan_time (delay old_delay : f64) : M Toolhead unit :=
  Flush_step_generation;;
  th ← get; modify (set_timing (UpdateStepGenerationScanDelay delay old_delay DefaultTimingConfig (timing th))).

Definition Handle_shutdown : M Toolhead unit :=
  th ← get;
  let t := timing th in
  modify (set_timing (mkTiming (PrintTime t) (LastFlushTime t) (LastStepGenTime t) (MinRestartTime t) (NeedFlushTime t)
    (StepGenTime t) (ClearHistoryTime t) (KinFlushDelay t) (KinFlushTimes t) (DoKickFlushTimer t) false));;
  modify (set_lookahead (Reset (lookahead th))).

(** ** Drip moves *)

(** [recovered.( *CommandError)]: nothing in the repository panics with such a value;
    the kinematics panic with a plain error. *)
Definition IsCommandError (recovered : string) : bool := false.

Definition SetDoKickFlushTimer (b : bool) : M Toolhead unit :=
  modify (λ th, set_timing (set_kick b (timing th)) th).
Definition SetLookaheadFlushTime (t : f64) : M Toolhead unit :=
  modify (λ th, set_lookahead (Set_flush_time t (lookahead th)) th).

Definition RunToolheadDripMove (newpos : list f64) (speed : f64) : M Toolhead unit :=
  th ← get; RunToolheadDwell (KinFlushDelay (timing th));;
  lookahead_flush false;;
  th ← get; modify (set_pause f0 Drip NEVER (PrintStall th));;
  emit [UpdateFlushTimer NEVER];;
  SetDoKickFlushTimer false;; SetLookaheadFlushTime BUFFER_TIME_HIGH;;
  recovering (RunToolheadMove newpos speed;; mret tt)
    (λ w, (if IsCommandError w then emit [UpdateFlushTimer NOW];; Flush_step_generation else mret tt);; panic w);;
  recovering (lookahead_flush false)
    (λ w, if bool_decide (w = ErrDripModeEnd) then
            th ← get; modify (set_lookahead (Reset (lookahead th)));; emit [FinalizeDripMoves]
          else panic w);;
  emit [UpdateFlushTimer NOW];;
  Flush_step_generation.

(** ** Velocity limits *)

Definition CalcToolheadJunctionDeviation (squareCornerVelocity maxAccel requestedAccelToDecel : f64) : f64 * f64 :=
  let scv2 := fmul squareCornerVelocity squareCornerVelocity in
  (fdiv (fmul scv2 (fsub (fsqrt f2) f1)) maxAccel, fmin requestedAccelToDecel maxAccel).

Definition ApplyToolheadVelocityLimitUpdate (maxVelocity maxAccel requested scv : option f64) : M Toolhead unit :=
  th ← get;
  let v := velocity th in
  let v := mkVelocity (default (MaxVelocity v) maxVelocity) (default (MaxAccel v) maxAccel)
             (default (RequestedAccelToDecel v) requested) (default (SquareCornerVelocity v) scv) in
  let '(jd, atd) := CalcToolheadJunctionDeviation (SquareCornerVelocity v) (MaxAccel v) (RequestedAccelToDecel v) in
  modify (set_velocity v jd atd).

End Toolhead.
