(* ===== verification/ToolheadThy.v ===== *)
(** * Theorems on the toolhead

    The motion handed to the step generators has no jump ([motion_is_continuous]);
    a rejected move changes nothing ([rejected_move_changes_nothing]); and three
    ways in which the code loses what it was told: the extruder's verdict, the
    clock moved during a pause, and the end of a wait. *)

From S2P Require Import Prelude GoFloat GoFloatRound GoStrings GoState LookAhead LookAheadThy Kinematics KinematicsThy ToolheadTiming Toolhead.

(** ** The path *)

Definition xyz (p : list f64) : list f64 := take 3 p.

(** Where the trapezoid queue stands after some calls: unknown before the first
    one and after a drip move was cut off. *)
Definition pen_step (p : option (list f64)) (e : th_event) : option (list f64) :=
  match e with
  | TrapqAppend _ m => Some (xyz (End_pos m))
  | TrapqSetPosition _ pos => Some (xyz pos)
  | FinalizeDripMoves => None
  | _ => p
  end.
Definition pen (evs : list th_event) : option (list f64) := fold_left pen_step evs None.

(** Every move starts where the queue stands. *)
Definition continuous (evs : list th_event) : Prop :=
  ∀ pre t m post, evs = pre ++ TrapqAppend t m :: post → pen pre = None ∨ pen pre = Some (xyz (Start_pos m)).

Fixpoint connected (p : list f64) (ms : list Move) (q : list f64) : Prop :=
  match ms with
  | [] => p = q
  | m :: ms => Start_pos m = p ∧ (Is_kinematic_move m = false → xyz (End_pos m) = xyz (Start_pos m)) ∧ connected (End_pos m) ms q
  end.

(** The queue leads from where the trapezoid queue stands to the commanded position. *)
Definition on_path (th : Toolhead) : Prop :=
  continuous (trace th) ∧
  ∃ p, connected p (queue (lookahead th)) (CommandedPos th) ∧ (pen (trace th) = None ∨ pen (trace th) = Some (xyz p)).

Lemma pen_app evs e : pen (evs ++ [e]) = pen_step (pen evs) e.
Proof. unfold pen. by rewrite fold_left_app. Qed.

Lemma continuous_snoc evs e :
  continuous evs →
  (∀ t m, e = TrapqAppend t m → pen evs = None ∨ pen evs = Some (xyz (Start_pos m))) →
  continuous (evs ++ [e]).
Proof.
  intros Hc He pre t m post E. destruct post as [|x post _] using rev_ind.
  - apply app_inj_tail in E as [<- ->]. by eapply He.
  - rewrite app_comm_cons, app_assoc in E. apply app_inj_tail in E as [-> _]. by eapply Hc.
Qed.

(** Events other than the trapezoid queue's. *)
Definition off_path (e : th_event) : bool :=
  match e with TrapqAppend _ _ | TrapqSetPosition _ _ | FinalizeDripMoves => false | _ => true end.

Lemma off_path_events evs more :
  Forall (λ e, off_path e = true) more → pen (evs ++ more) = pen evs ∧ (continuous evs → continuous (evs ++ more)).
Proof.
  revert evs. induction more as [|e more IH]; intros evs H; [by rewrite app_nil_r|].
  apply Forall_cons in H as [He H]. replace (evs ++ e :: more) with ((evs ++ [e]) ++ more) by by rewrite <- app_assoc.
  destruct (IH (evs ++ [e]) H) as [H1 H2]. split.
  - rewrite H1, pen_app. by destruct e.
  - intros Hc. apply H2, continuous_snoc; [done|]. by intros t m ->.
Qed.

(** ** What the clock leaves alone *)

(** The queue and the position are these, and the path is where it was. *)
Record same_path (q : LookAheadQueue) (pos : list f64) (p : option (list f64)) (th : Toolhead) : Prop := {
  sp_queue : lookahead th = q;
  sp_pos : CommandedPos th = pos;
  sp_pen : pen (trace th) = p;
  sp_cont : continuous (trace th)
}.

Lemma same_emit q pos p evs : Forall (λ e, off_path e = true) evs → always (same_path q pos p) (emit evs).
Proof.
  intros H. apply always_modify. intros th [H1 H2 H3 H4]. destruct (off_path_events (trace th) evs H) as [E1 E2].
  constructor; simpl; [done|done|by rewrite E1|auto].
Qed.

Lemma clock_quiet evs : Forall (λ e, off_path e = true) (Clock <$> evs).
Proof. apply Forall_fmap, Forall_true. done. Qed.

Lemma always_get {S} (I : S → Prop) : always I (get (S := S)).
Proof. by intros s. Qed.
#[export] Hint Resolve always_get : keeps.

Lemma same_set q pos p f :
  (∀ th, lookahead (f th) = lookahead th ∧ CommandedPos (f th) = CommandedPos th ∧ trace (f th) = trace th) →
  always (same_path q pos p) (modify f).
Proof.
  intros H. apply always_modify. intros th [H1 H2 H3 H4]. destruct (H th) as (E1 & E2 & E3). by constructor; rewrite ?E1, ?E2, ?E3.
Qed.

Ltac same_steps := always_steps; try (apply same_set; by intros); try (apply same_emit; apply clock_quiet || by repeat constructor).

Section Paths.
Context (obs : nat → f64 * f64) (drip_done : nat → bool) (drip_others others : M Toolhead unit) (fuel : nat).
Hypothesis drip_quiet : ∀ q pos p, always (same_path q pos p) drip_others.

Context (q : LookAheadQueue) (pos : list f64) (p : option (list f64)).
Local Abbreviation same := (same_path q pos p).

Lemma same_observe : always same (observe obs).
Proof. unfold observe. same_steps. Qed.
#[local] Hint Resolve same_observe : keeps.

Lemma same_advance_flush x : always same (advance_flush_time x).
Proof. unfold advance_flush_time. same_steps. Qed.

Lemma same_advance_move x : always same (advance_move_time x).
Proof. unfold advance_move_time. same_steps. Qed.

Lemma same_calc : always same (calc_print_time obs).
Proof. unfold calc_print_time. same_steps. Qed.

Lemma same_note x b : always same (Note_mcu_movequeue_activity x b).
Proof. unfold Note_mcu_movequeue_activity. same_steps. Qed.
#[local] Hint Resolve same_advance_flush same_advance_move same_calc same_note : keeps.

Lemma same_drip x : always same (UpdateToolheadDripTime obs drip_done drip_others fuel x).
Proof using drip_quiet.
  unfold UpdateToolheadDripTime. apply always_bind; [apply always_get|intros th]. generalize fuel as n. intros n.
  revert x. induction n as [|n IH]; intros x; cbn [drip_loop]; [apply always_panic|].
  unfold drip_round. same_steps.
Qed.
End Paths.
#[export] Hint Resolve same_observe same_advance_flush same_advance_move same_calc same_note same_drip : keeps.

(** ** Handing a batch over *)

(** The queue and the position are these, and the path stands at [p] if it is known. *)
Definition at_pen (q : LookAheadQueue) (pos p : list f64) (th : Toolhead) : Prop :=
  same_path q pos None th ∨ same_path q pos (Some (xyz p)) th.

(** After a panic only the past of the path is known. *)
Definition past_ok (q : LookAheadQueue) (pos : list f64) (th : Toolhead) : Prop :=
  lookahead th = q ∧ CommandedPos th = pos ∧ continuous (trace th).

Definition or_past {A} (Q : A → Toolhead → Prop) q pos : go A → Toolhead → Prop :=
  λ r th, match r with Ret a => Q a th | Panic _ => past_ok q pos th end.

Lemma at_pen_past q pos p th : at_pen q pos p th → past_ok q pos th.
Proof. by intros [[]|[]]. Qed.

(** What leaves the path alone may run anywhere. *)
Lemma same_at_pen {A} q pos p (m : M Toolhead A) :
  (∀ o, always (same_path q pos o) m) → hoare (at_pen q pos p) m (or_past (λ _, at_pen q pos p) q pos).
Proof.
  intros H th [Hth|Hth]; pose proof (H _ th Hth) as H'; destruct (m th) as [[a|w] th']; simpl in *;
    [by left|by destruct H'|by right|by destruct H'].
Qed.

Lemma hoare_past {A B} (P : Toolhead → Prop) (m : M Toolhead A) (R : A → Toolhead → Prop) (k : A → M Toolhead B) Q q pos :
  hoare P m (or_past R q pos) → (∀ a, hoare (R a) (k a) (or_past Q q pos)) → hoare P (x ← m; k x) (or_past Q q pos).
Proof. intros Hm Hk. eapply hoare_seq; [exact Hm|done]. Qed.

Lemma mfor_app {S X} (xs ys : list X) (body : X → M S unit) s :
  mfor (xs ++ ys) body s = (mfor xs body;; mfor ys body) s.
Proof.
  revert s. induction xs as [|x xs IH]; intros s; [done|]. cbn [app mfor]. unfold mbind, M_bind.
  destruct (body x s) as [[[]|w] s1]; [|done]. rewrite IH. done.
Qed.

Lemma sink_kinematic q pos t m :
  hoare (at_pen q pos (Start_pos m)) (sink_event (QueueKinematicMove t m)) (or_past (λ _, at_pen q pos (End_pos m)) q pos).
Proof.
  intros th Hth. right. assert (Hc : continuous (trace th)) by by destruct Hth as [[]|[]].
  assert (Hp : pen (trace th) = None ∨ pen (trace th) = Some (xyz (Start_pos m))) by (destruct Hth as [[]|[]]; auto).
  destruct Hth as [[]|[]]; constructor; simpl; try done; try (by rewrite pen_app).
  all: apply continuous_snoc; [done|]; by intros ?? [= <- <-].
Qed.

Lemma same_sink q pos p e : (∀ t m, e ≠ QueueKinematicMove t m) → always (same_path q pos p) (sink_event e).
Proof. intros H. destruct e as [t m|t m|cb t]; [by destruct (H t m)|..]; unfold sink_event; same_steps. Qed.

Lemma mfor_quiet q pos p evs :
  Forall (λ e, ∀ t m, e ≠ QueueKinematicMove t m) evs →
  hoare (at_pen q pos p) (mfor evs sink_event) (or_past (λ _, at_pen q pos p) q pos).
Proof.
  intros H. apply same_at_pen. intros o. induction H as [|e evs He _ IH]; cbn [mfor]; [apply always_ret|].
  apply always_bind; [by apply same_sink|intros _; exact IH].
Qed.

Lemma sink_batch q pos moves t evs t' p p' :
  connected p moves p' → QueueMoveBatch t moves = Ret (evs, t') →
  hoare (at_pen q pos p) (mfor evs sink_event) (or_past (λ _, at_pen q pos p') q pos).
Proof.
  revert t t' evs p. induction moves as [|m moves IH]; intros t t' evs p; cbn [QueueMoveBatch connected].
  { intros -> [= <- _]. apply mfor_quiet. constructor. }
  intros (Hs & Hk & Hc) H. apply bind_ret_inv in H as (e3 & _ & H). apply bind_ret_inv in H as ([evs' t2] & Hq & H).
  injection H as <- _. set (rest := (if negb (feq e3 f0) then _ else _) ++ _ ++ evs').
  assert (Hrest : hoare (at_pen q pos (End_pos m)) (mfor rest sink_event) (or_past (λ _, at_pen q pos p') q pos)).
  { unfold rest. rewrite app_assoc. set (qs := (if negb (feq e3 f0) then _ else _) ++ _).
    intros th Hth. rewrite mfor_app. revert th Hth.
    apply (hoare_past (at_pen q pos (End_pos m)) (mfor qs sink_event) (λ _, at_pen q pos (End_pos m)) (λ _, mfor evs' sink_event)).
    - apply mfor_quiet, Forall_app. split; [by destruct (feq e3 f0); repeat constructor|].
      apply Forall_fmap, Forall_true. done.
    - intros _. by apply (IH _ _ _ _ Hc Hq). }
  subst p. destruct (Is_kinematic_move m); simpl.
  - eapply hoare_past; [apply sink_kinematic|intros a; exact Hrest].
  - intros th Hth. apply Hrest. unfold at_pen in *. by rewrite Hk.
Qed.

(** ** Operations that follow the path *)

(** From a connected state a normal return leaves a connected state, and a panic a
    continuous past. *)
Definition follows {A} (m : M Toolhead A) : Prop :=
  hoare on_path m (λ r th, match r with Ret _ => on_path th | Panic _ => continuous (trace th) end).

Lemma follows_bind {A B} (m : M Toolhead A) (k : A → M Toolhead B) :
  follows m → (∀ a, follows (k a)) → follows (x ← m; k x).
Proof. intros Hm Hk. apply (hoare_seq on_path m (λ _, on_path)); [exact Hm|exact Hk]. Qed.

(** The outcome of one run. *)
Definition ends_ok {A} (r : go A * Toolhead) : Prop :=
  match r.1 with Ret _ => on_path r.2 | Panic _ => continuous (trace r.2) end.

Lemma ends_bind {A B} (m : M Toolhead A) (k : A → M Toolhead B) th :
  ends_ok (m th) → (∀ a, follows (k a)) → ends_ok ((x ← m; k x) th).
Proof.
  unfold mbind, M_bind. destruct (m th) as [[a|w] th']; intros H Hk; [by apply (Hk a)|done].
Qed.

Lemma on_path_same th : on_path th →
  ∃ p, connected p (queue (lookahead th)) (CommandedPos th) ∧ at_pen (lookahead th) (CommandedPos th) p th.
Proof. intros (Hc & p & Hq & [Hp|Hp]); exists p; (split; [done|]); [left|right]; by constructor. Qed.

Lemma at_pen_on_path q pos p th : connected p (queue q) pos → at_pen q pos p th → on_path th.
Proof. intros Hq [[<- <- Hp Hc]|[<- <- Hp Hc]]; (split; [done|]); exists p; auto. Qed.

Lemma follows_same {A} (m : M Toolhead A) : (∀ q pos p, always (same_path q pos p) m) → follows m.
Proof.
  intros H th Hth. destruct (on_path_same th Hth) as (p & Hq & Hp).
  pose proof (same_at_pen _ _ p m (H _ _) th Hp) as H'. destruct (m th) as [[a|w] th']; simpl in *.
  - by eapply at_pen_on_path.
  - apply H'.
Qed.

Lemma follows_ret {A} (a : A) : follows (mret a).
Proof. by apply follows_same; intros; apply always_ret. Qed.
Lemma follows_get : follows get.
Proof. by apply follows_same; intros; apply always_get. Qed.
Lemma follows_lift {A} (m : go A) : follows (lift m).
Proof. by apply follows_same; intros; apply always_lift. Qed.
Lemma follows_panic {A} w : follows (A := A) (panic w).
Proof. by apply follows_same; intros; apply always_panic. Qed.
Lemma follows_mfor {X} (xs : list X) body : (∀ x, follows (body x)) → follows (mfor xs body).
Proof.
  intros H. induction xs as [|x xs IH]; cbn [mfor]; [apply follows_ret|]. apply follows_bind; [apply H|by intros _].
Qed.

Create HintDb path.
#[export] Hint Resolve follows_ret follows_get follows_lift follows_panic : path.

(** Walks through a program, leaving the steps that touch the path. *)
Ltac follow :=
  repeat first
    [ solve [eauto 2 with path]
    | apply follows_bind; [|intros ?]
    | match goal with |- follows (if ?b then _ else _) => destruct b end
    | match goal with |- follows (match ?x with _ => _ end) => destruct x end
    | apply follows_same; intros; apply same_set; by intros
    | apply follows_same; intros; apply same_emit; by repeat constructor ].

Lemma connected_unplanned p ms ms' q : unplanned <$> ms = unplanned <$> ms' → connected p ms q → connected p ms' q.
Proof.
  revert p ms'. induction ms as [|m ms IH]; intros p [|m' ms']; csimpl; try done.
  intros [= H1 H2 H3 H4 H5 H6 H7 H8 H9 H10 H11 H12 H13 H14 H15 H16 H17 H18 H]. rewrite H1, H2, H6.
  intros (? & ? & ?). split_and!; [done..|]. by apply IH.
Qed.

Lemma connected_app p ms ms' q : connected p (ms ++ ms') q ↔ ∃ r, connected p ms r ∧ connected r ms' q.
Proof.
  revert p. induction ms as [|m ms IH]; intros p; simpl; [naive_solver|]. setoid_rewrite IH. naive_solver.
Qed.

(** The moves of a flush and those it leaves, connected as the queue was. *)
Lemma Flush_connected lazy q p pos moves q' :
  Flush lazy q = (moves, q') → connected p (queue q) pos →
  ∃ r, connected p moves r ∧ connected r (queue q') pos.
Proof.
  intros E Hc. apply connected_app. eapply connected_unplanned; [|exact Hc].
  destruct (Flush_prefix lazy q) as (n & Hn & E' & _). rewrite E in E'. injection E' as -> ->. simpl.
  by rewrite fmap_app, assign_junctions_unplanned, fmap_take, backward_moves, <- fmap_app, take_drop.
Qed.

Section Follows.
Context (obs : nat → f64 * f64) (drip_done : nat → bool) (drip_others others : M Toolhead unit) (fuel : nat).
Hypothesis drip_quiet : ∀ q pos p, always (same_path q pos p) drip_others.
Hypothesis others_follow : follows others.

Lemma process_path q pos p r moves :
  connected p moves r →
  hoare (at_pen q pos p) (Process_moves obs drip_done drip_others fuel moves) (or_past (λ _, at_pen q pos r) q pos).
Proof using drip_quiet.
  intros Hc. unfold Process_moves, ProcessToolheadMoveBatch.
  apply (hoare_past _ _ (λ _, at_pen q pos r)); [|intros []; apply same_at_pen; intros; same_steps].
  apply (hoare_past _ _ (λ _, at_pen q pos p)); [apply same_at_pen; intros; same_steps|intros th0].
  apply (hoare_past _ _ (λ _, at_pen q pos p)).
  { apply same_at_pen. intros o. same_steps. }
  intros _. apply (hoare_past _ _ (λ _, at_pen q pos p)); [apply same_at_pen; intros; same_steps|intros th1].
  destruct (QueueMoveBatch (PrintTime (timing th1)) moves) as [[evs t']|w] eqn:E.
  2: { intros th Hth. by eapply at_pen_past. }
  apply (hoare_past _ _ (λ v th, v = (evs, t') ∧ at_pen q pos p th)); [by intros th Hth|]. intros v.
  apply hoare_fix. intros s0 [-> Hs0]. revert Hs0. intros Hs0.
  enough (H : hoare (at_pen q pos p) (mfor evs sink_event;; th ← get;
    ended ← (if bool_decide (SpecialQueuingState th = EmptyString) then mret false
             else UpdateToolheadDripTime obs drip_done drip_others fuel t');
    if ended : bool then mret true
    else th ← get; Note_mcu_movequeue_activity (fadd t' (KinFlushDelay (timing th))) true;;
         advance_move_time t';; mret false) (or_past (λ _, at_pen q pos r) q pos)) by (intros s ->; by apply H).
  apply (hoare_past _ _ (λ _, at_pen q pos r)); [by eapply sink_batch|intros _].
  apply same_at_pen. intros o. same_steps.
Qed.

Lemma lookahead_flush_eq lazy th :
  lookahead_flush obs drip_done drip_others fuel lazy th =
  let '(moves, q) := Flush lazy (lookahead th) in
  let th1 := set_lookahead (mkQueue (moves ++ queue q) (junction_flush q)) th in
  match moves with
  | [] => (Ret tt, th1)
  | _ =>
      match Process_moves obs drip_done drip_others fuel moves th1 with
      | (Ret _, th2) =>
          (Ret tt, set_lookahead (mkQueue (drop (length moves) (queue (lookahead th2))) (junction_flush (lookahead th2))) th2)
      | (Panic w, th2) => (Panic w, th2)
      end
  end.
Proof.
  unfold lookahead_flush, mbind, M_bind, get, modify. destruct (Flush lazy (lookahead th)) as [[|m moves] q]; [done|].
  by destruct (Process_moves _ _ _ _ _ _) as [[]].
Qed.

Lemma follows_flush lazy : follows (lookahead_flush obs drip_done drip_others fuel lazy).
Proof using drip_quiet.
  intros th Hth. destruct (on_path_same th Hth) as (p & Hq & Hp). rewrite lookahead_flush_eq.
  destruct (Flush lazy (lookahead th)) as [moves q'] eqn:E.
  destruct (Flush_connected lazy _ _ _ _ _ E Hq) as (r & Hm & Hr). cbn zeta.
  set (q1 := mkQueue (moves ++ queue q') (junction_flush q')).
  assert (H1 : at_pen q1 (CommandedPos th) p (set_lookahead q1 th)).
  { destruct Hp as [[]|[]]; [left|right]; by constructor. }
  generalize (set_lookahead q1 th), H1. clear H1. intros th1 H1.
  destruct moves as [|m moves]; [cbn [fst snd]; apply (at_pen_on_path q1 (CommandedPos th) p); [|done]|].
  { simpl in Hm. by subst r. }
  pose proof (process_path q1 (CommandedPos th) p r (m :: moves) Hm th1 H1) as H2.
  destruct (Process_moves _ _ _ _ _ th1) as [[[]|w] th2]; cbn [fst snd or_past] in *; [|apply H2].
  assert (Hq2 : lookahead th2 = q1) by by destruct H2 as [[]|[]]. rewrite Hq2.
  apply (at_pen_on_path (mkQueue (queue q') (junction_flush q')) (CommandedPos th) r); [done|].
  unfold q1. cbn [queue junction_flush]. rewrite drop_app_length.
  destruct H2 as [[]|[]]; [left|right]; by constructor.
Qed.
#[local] Hint Resolve follows_flush : path.

(** ** Flushing and waiting *)

(** What reads the state first. *)
Lemma follows_with {A} (k : Toolhead → M Toolhead A) :
  (∀ th, on_path th → match (k th th).1 with Ret _ => on_path (k th th).2 | Panic _ => continuous (trace (k th th).2) end) →
  follows (th ← get; k th).
Proof. intros H th Hth. exact (H th Hth). Qed.

Lemma on_path_queue th q :
  (∀ p pos, connected p (queue (lookahead th)) pos → connected p (queue q) pos) → on_path th → on_path (set_lookahead q th).
Proof. intros H (Hc & p & Hq & Hp). split; [done|]. exists p. auto. Qed.

Lemma follows_flush_lookahead : follows (_flush_lookahead obs drip_done drip_others fuel).
Proof using drip_quiet. unfold _flush_lookahead. follow. Qed.
#[local] Hint Resolve follows_flush_lookahead : path.

Lemma follows_advance_flush x : follows (advance_flush_time x).
Proof. apply follows_same. eauto with keeps. Qed.
Lemma follows_advance_move x : follows (advance_move_time x).
Proof. apply follows_same. eauto with keeps. Qed.
Lemma follows_calc : follows (calc_print_time obs).
Proof. apply follows_same. eauto with keeps. Qed.
Lemma follows_observe : follows (observe obs).
Proof. apply follows_same. eauto with keeps. Qed.
#[local] Hint Resolve follows_advance_flush follows_advance_move follows_calc follows_observe : path.

Lemma follows_step_generation : follows (Flush_step_generation obs drip_done drip_others fuel).
Proof using drip_quiet. unfold Flush_step_generation. follow. Qed.
Lemma follows_last_move_time : follows (Get_last_move_time obs drip_done drip_others fuel).
Proof using drip_quiet. unfold Get_last_move_time. follow. Qed.
#[local] Hint Resolve follows_step_generation follows_last_move_time : path.

Lemma follows_callback eventtime est : follows (HandleToolheadFlushCallback obs drip_done drip_others fuel eventtime est).
Proof using drip_quiet. unfold HandleToolheadFlushCallback. follow; apply follows_mfor; auto with path. Qed.
#[local] Hint Resolve follows_callback : path.

Lemma follows_pause : follows (pause obs others).
Proof using others_follow. unfold pause. follow. Qed.
#[local] Hint Resolve follows_pause : path.

Lemma follows_pause_loop n p e : follows (pause_loop obs others n p e).
Proof using others_follow. revert e. induction n as [|n IH]; intros e; cbn [pause_loop]; follow. Qed.
#[local] Hint Resolve follows_pause_loop : path.

Lemma follows_check_pause : follows (CheckToolheadPause obs others fuel).
Proof using others_follow. unfold CheckToolheadPause, RunToolheadPauseCheck, EnsurePrimingTimer. follow. Qed.
#[local] Hint Resolve follows_check_pause : path.

Lemma follows_wait_loop n s t c e : follows (wait_loop obs others n s t c e).
Proof using others_follow. revert e. induction n as [|n IH]; intros e; cbn [wait_loop]; follow. Qed.
#[local] Hint Resolve follows_wait_loop : path.

Lemma follows_wait_moves : follows (Wait_moves obs drip_done drip_others others fuel).
Proof using drip_quiet others_follow. unfold Wait_moves. follow. Qed.

Lemma follows_dwell d : follows (RunToolheadDwell obs drip_done drip_others others fuel d).
Proof using drip_quiet others_follow. unfold RunToolheadDwell. follow. Qed.
#[local] Hint Resolve follows_dwell : path.

(** ** Moving *)

(** The move that [RunToolheadMove] queues, if any. *)
Definition prepare (th : Toolhead) (newpos : list f64) (speed : f64) : go (option Move) :=
  m ← NewMove (MoveConfig_of th) (CommandedPos th) newpos speed;
  if feq (Move_d m) f0 then Ret None
  else
    m ← (if Is_kinematic_move m then CheckMove (kin th) m else Ret m);
    d3 ← (Axes_d m).[3];
    m ← (if negb (feq d3 f0) then
           match extruder th with
           | None => Ret m
           | Some lim => r ← CheckExtrusionMove m lim; Ret (match r with inl _ => m | inr m => m end)
           end
         else Ret m);
    Ret (Some m).

Lemma RunToolheadMove_eq newpos speed th :
  RunToolheadMove obs drip_done drip_others others fuel newpos speed th =
  match prepare th newpos speed with
  | Panic w => (Panic w, th)
  | Ret None => (Ret false, th)
  | Ret (Some m) =>
      (QueueMove obs drip_done drip_others fuel m;; th ← get;
       (if flt (NeedCheckPause th) (PrintTime (timing th)) then CheckToolheadPause obs others fuel else mret tt);;
       mret true) (set_pos (End_pos m) th)
  end.
Proof.
  unfold RunToolheadMove, prepare. unfold mbind, M_bind, go_bind, get, lift, modify.
  destruct (NewMove _ _ _ _) as [m|w]; [|done]. destruct (feq (Move_d m) f0); [done|].
  assert (H : (if Is_kinematic_move m then CheckKinematicMove m else mret m) th =
              (if Is_kinematic_move m then CheckMove (kin th) m else Ret m, th)) by by destruct (Is_kinematic_move m).
  rewrite H. destruct (if Is_kinematic_move m then CheckMove (kin th) m else Ret m) as [m1|w]; [|done].
  destruct (Axes_d m1).[3] as [d3|w]; [|done].
  assert (H2 : (if negb (feq d3 f0) then CheckExtruderMove m1 else mret m1) th =
    (if negb (feq d3 f0) then
       match extruder th with
       | None => Ret m1
       | Some lim => match CheckExtrusionMove m1 lim with Ret a => Ret (match a with inl _ => m1 | inr m => m end) | Panic w => Panic w end
       end
     else Ret m1, th)).
  { destruct (negb _); [|done]. unfold CheckExtruderMove, mbind, M_bind, get, lift. destruct (extruder th) as [lim|]; [|done].
    by destruct (CheckExtrusionMove m1 lim) as [[|]|]. }
  rewrite H2. match type of H2 with _ = (?v, _) => by destruct v as [m2|w] end.
Qed.

(** A move from one position to another that keeps to the plane of its kind. *)
Definition leads (p : list f64) (m : Move) : Prop :=
  Start_pos m = p ∧ (Is_kinematic_move m = false → xyz (End_pos m) = xyz (Start_pos m)).

Lemma NewMove_leads config p newpos speed m : NewMove config p newpos speed = Ret m → leads p m.
Proof.
  intros H. unfold NewMove in H.
  apply bind_ret_inv in H as (e0 & _ & H). apply bind_ret_inv in H as (s0 & H0 & H).
  apply bind_ret_inv in H as (e1 & _ & H). apply bind_ret_inv in H as (s1 & H1 & H).
  apply bind_ret_inv in H as (e2 & _ & H). apply bind_ret_inv in H as (s2 & H2 & H).
  apply bind_ret_inv in H as (e3 & _ & H). apply bind_ret_inv in H as (s3 & _ & H).
  apply Ret_inj in H as <-. split; [done|]. cbn [Is_kinematic_move End_pos Start_pos].
  destruct (flt _ _); [intros _|done].
  apply index_Ret_inv in H0 as [_ H0], H1 as [_ H1], H2 as [_ H2].
  destruct p as [|x0 [|x1 [|x2 p]]]; try done. change (Some x0 = Some s0) in H0. change (Some x1 = Some s1) in H1.
  change (Some x2 = Some s2) in H2. by simplify_eq.
Qed.

Lemma CheckExtrusionMove_result m lim r :
  CheckExtrusionMove m lim = Ret (inr r) → r = m ∨ ∃ spd a, r = Limit_speed spd a m.
Proof.
  unfold CheckExtrusionMove. intros H. apply bind_ret_inv in H as (r3 & _ & H). destruct (negb _); [done|].
  apply bind_ret_inv in H as (d0 & _ & H). apply bind_ret_inv in H as (d1 & _ & H). apply bind_ret_inv in H as (d3 & _ & H).
  destruct (_ || _); [destruct (flt _ _); [done|]; apply Ret_inj in H; injection H as <-; eauto|].
  destruct (flt _ _); [destruct (fle _ _)|]; apply Ret_inj in H; try done; injection H as <-; auto.
Qed.

(** The move that is queued is the one made, up to its speed limits. *)
Lemma prepare_from th newpos speed m :
  prepare th newpos speed = Ret (Some m) →
  ∃ m0, NewMove (MoveConfig_of th) (CommandedPos th) newpos speed = Ret m0 ∧ Start_pos m = Start_pos m0 ∧
    End_pos m = End_pos m0 ∧ Is_kinematic_move m = Is_kinematic_move m0.
Proof.
  unfold prepare. intros H. apply bind_ret_inv in H as (m0 & Hm & H). exists m0. split; [exact Hm|].
  destruct (feq _ _); [done|]. apply bind_ret_inv in H as (m1 & H1 & H). apply bind_ret_inv in H as (d3 & _ & H).
  apply bind_ret_inv in H as (m2 & H2 & H). apply Ret_inj in H. injection H as <-.
  assert (L1 : m1 = m0 ∨ ∃ spd a, m1 = Limit_speed spd a m0).
  { destruct (Is_kinematic_move m0); [by eapply CheckMove_result|]. apply Ret_inj in H1. auto. }
  assert (L2 : m2 = m1 ∨ ∃ spd a, m2 = Limit_speed spd a m1).
  { destruct (negb _); [|apply Ret_inj in H2; auto]. destruct (extruder th) as [lim|]; [|apply Ret_inj in H2; auto].
    apply bind_ret_inv in H2 as ([e|r] & Hr & H2); apply Ret_inj in H2 as <-; [by left|by eapply CheckExtrusionMove_result]. }
  by destruct L1 as [->|(? & ? & ->)], L2 as [->|(? & ? & ->)].
Qed.

Lemma prepare_leads th newpos speed m : prepare th newpos speed = Ret (Some m) → leads (CommandedPos th) m.
Proof.
  intros H. destruct (prepare_from th newpos speed m H) as (m0 & Hm & E1 & E2 & E3). apply NewMove_leads in Hm.
  unfold leads. by rewrite E1, E2, E3.
Qed.

(** Queueing a move that leads on from the commanded position. *)
Lemma Add_move_queue m ext q b q' :
  Add_move m ext q = Ret (b, q') → ∃ m', queue q' = queue q ++ [m'] ∧ Start_pos m' = Start_pos m ∧
    End_pos m' = End_pos m ∧ Is_kinematic_move m' = Is_kinematic_move m.
Proof.
  unfold Add_move. intros H. destruct (last (queue q)) as [prev|].
  - apply bind_ret_inv in H as (m' & Hm & H). apply Ret_inj in H. injection H as _ <-. exists m'. split; [done|].
    unfold Calc_junction in Hm. destruct (_ || _); [by apply Ret_inj in Hm as <-|].
    apply bind_ret_inv in Hm as (v & _ & Hm). by apply Ret_inj in Hm as <-.
  - apply Ret_inj in H. injection H as _ <-. by exists m.
Qed.

Lemma QueueMove_path m th :
  on_path th → leads (CommandedPos th) m →
  ends_ok (QueueMove obs drip_done drip_others fuel m (set_pos (End_pos m) th)).
Proof using drip_quiet.
  intros Hth [Hs Hk]. unfold QueueMove, mbind, M_bind, get, lift.
  set (th1 := set_pos (End_pos m) th).
  destruct (Add_move m (junction_calculator th1) (lookahead th1)) as [[full q]|w] eqn:E; [|apply Hth].
  destruct (Add_move_queue _ _ _ _ _ E) as (m' & Hq & Es & Ee & Ek). unfold modify.
  assert (H2 : on_path (set_lookahead q th1)).
  { destruct Hth as (Hc & p & Hp & Hpen). split; [done|]. exists p. split; [|done]. cbn [lookahead set_lookahead CommandedPos set_pos th1].
    rewrite Hq. apply connected_app. exists (CommandedPos th). split; [done|]. cbn [connected].
    rewrite Es, Ee, Ek, Hs. rewrite Hs in Hk. done. }
  destruct full; [by apply (follows_flush true)|done].
Qed.

Lemma follows_move newpos speed : follows (RunToolheadMove obs drip_done drip_others others fuel newpos speed).
Proof using drip_quiet others_follow.
  intros th Hth. rewrite RunToolheadMove_eq. destruct (prepare th newpos speed) as [[m|]|w] eqn:E; [|done|apply Hth].
  apply ends_bind; [apply QueueMove_path; [done|by eapply prepare_leads]|intros _; follow].
Qed.
#[local] Hint Resolve follows_move : path.

Lemma follows_manual_move coord speed : follows (RunToolheadManualMove obs drip_done drip_others others fuel coord speed).
Proof using drip_quiet others_follow. unfold RunToolheadManualMove. follow. Qed.
#[local] Hint Resolve follows_manual_move : path.

(** ** Operations that need an empty queue *)

Definition drained (th : Toolhead) : Prop := on_path th ∧ queue (lookahead th) = [].

Definition drains {A} (P : Toolhead → Prop) (m : M Toolhead A) : Prop :=
  hoare P m (λ r th, match r with Ret _ => drained th | Panic _ => continuous (trace th) end).

Lemma drains_same {A} (m : M Toolhead A) : (∀ q pos p, always (same_path q pos p) m) → drains drained m.
Proof.
  intros H th [Hth Hq]. pose proof (follows_same m H th Hth) as Hf.
  destruct (on_path_same th Hth) as (p & _ & Hp).
  pose proof (same_at_pen _ _ p m (H _ _) th Hp) as H'. destruct (m th) as [[a|w] th']; simpl in *; [|done].
  split; [done|]. by destruct H' as [[-> _ _ _]|[-> _ _ _]].
Qed.

Lemma drains_flush : drains on_path (lookahead_flush obs drip_done drip_others fuel false).
Proof using drip_quiet.
  intros th Hth. pose proof (follows_flush false th Hth) as Hf. revert Hf. rewrite lookahead_flush_eq.
  destruct (Flush_prefix false (lookahead th)) as (n & Hn & E & Hall). rewrite E. specialize (Hall eq_refl). subst n.
  set (moves := assign_junctions _ _). rewrite drop_all. cbn [queue junction_flush].
  destruct (on_path_same th Hth) as (p & Hq & Hp). destruct (Flush_connected _ _ _ _ _ _ E Hq) as (r & Hm & _).
  rewrite app_nil_r. set (q1 := mkQueue moves LOOKAHEAD_FLUSH_TIME).
  assert (H1 : at_pen q1 (CommandedPos th) p (set_lookahead q1 th)) by (destruct Hp as [[]|[]]; [left|right]; by constructor).
  pose proof (process_path q1 (CommandedPos th) p r moves Hm _ H1) as H2. clearbody moves. cbn zeta. fold q1.
  destruct moves as [|m ms] eqn:Em; [done|].
  destruct (Process_moves _ _ _ _ _ _) as [[a|w] th2]; cbn [fst snd or_past] in *; [|done].
  intros Hf. split; [done|]. assert (lookahead th2 = q1) as -> by by destruct H2 as [[]|[]]. cbn [lookahead set_lookahead queue q1].
  by rewrite drop_all.
Qed.

Lemma drains_bind {A B} P (m : M Toolhead A) (k : A → M Toolhead B) :
  drains P m → (∀ a, drains drained (k a)) → drains P (x ← m; k x).
Proof. intros Hm Hk. apply (hoare_seq P m (λ _, drained)); [exact Hm|exact Hk]. Qed.

Lemma drains_flush_lookahead : drains on_path (_flush_lookahead obs drip_done drip_others fuel).
Proof using drip_quiet.
  unfold _flush_lookahead. apply (hoare_seq on_path _ (λ _, on_path)); [apply follows_get|intros th].
  apply (hoare_seq on_path _ (λ _, on_path)); [by apply follows_same; intros; apply same_set|intros _].
  apply drains_bind; [apply drains_flush|intros _]. intros th' [Hth Hq]. split; [exact Hth|exact Hq].
Qed.

Lemma drains_step_generation : drains on_path (Flush_step_generation obs drip_done drip_others fuel).
Proof using drip_quiet.
  unfold Flush_step_generation. apply drains_bind; [apply drains_flush_lookahead|intros _].
  apply drains_same. intros. same_steps.
Qed.

(** From an empty queue to a run that ends well. *)
Lemma follows_drained {A} (m : M Toolhead unit) (k : M Toolhead A) :
  drains on_path m → (∀ th, drained th → ends_ok (k th)) → follows (m;; k).
Proof.
  intros Hm Hk th Hth. specialize (Hm th Hth). unfold mbind, M_bind.
  destruct (m th) as [[[]|w] th']; [by apply Hk|done].
Qed.

Lemma follows_set_position newpos axes :
  follows (ApplyToolheadSetPosition obs drip_done drip_others fuel newpos axes).
Proof using drip_quiet.
  unfold ApplyToolheadSetPosition. apply follows_drained; [apply drains_step_generation|].
  intros th [(Hc & p & Hp & Hpen) Hq]. unfold mbind, M_bind, get, lift, emit, modify, ends_ok.
  destruct newpos.[0]; [|done]. destruct newpos.[1]; [|done]. destruct newpos.[2]; [|done]. cbn [fst snd].
  set (th1 := set_pos newpos _).
  assert (H1 : on_path th1).
  { split; [by apply continuous_snoc|]. exists newpos. cbn [th1 lookahead CommandedPos trace set_pos add_trace].
    rewrite Hq, pen_app. split; [done|]. by right. }
  destruct (SetPosition newpos axes (kin th1)) as [k|w]; [|apply H1].
  destruct H1 as (Hc1 & p1 & Hp1 & Hpen1). split; [by apply continuous_snoc|]. exists p1. split; [done|].
  change (pen (trace th1 ++ [SetPositionEvent]) = None ∨ pen (trace th1 ++ [SetPositionEvent]) = Some (xyz p1)).
  by rewrite pen_app.
Qed.

Lemma follows_activate e x : follows (Activate_extruder obs drip_done drip_others fuel e x).
Proof using drip_quiet.
  unfold Activate_extruder. apply follows_drained; [apply drains_step_generation|].
  intros th [(Hc & p & Hp & Hpen) Hq]. rewrite Hq in Hp. cbn [connected] in Hp. subst p.
  unfold Set_extruder, mbind, M_bind, get, modify, ends_ok. case_bool_decide; [|done].
  change (on_path (set_pos (<[3%nat := x]> (CommandedPos th)) (set_extruder e (Last_position th) th))). split; [done|].
  exists (<[3%nat := x]> (CommandedPos th)). split.
  - change (connected (<[3%nat := x]> (CommandedPos th)) (queue (lookahead th)) (<[3%nat := x]> (CommandedPos th))). by rewrite Hq.
  - unfold xyz in *. by rewrite take_insert_ge.
Qed.

(** ** The remaining operations *)

Lemma follows_priming : follows (Priming_handler obs drip_done drip_others fuel).
Proof using drip_quiet. unfold Priming_handler. follow. Qed.

Lemma follows_lookahead_callback cb : follows (Register_lookahead_callback obs drip_done drip_others fuel cb).
Proof using drip_quiet.
  unfold Register_lookahead_callback. apply follows_with. intros th Hth. destruct (Get_last (lookahead th)) as [m|] eqn:E.
  - unfold modify. cbn [fst snd]. apply on_path_queue; [|done]. intros p pos Hc. unfold note_callback.
    unfold Get_last in E. rewrite E. cbn [queue]. apply last_Some in E as [l El]. rewrite El in *. rewrite removelast_last.
    apply connected_app. apply connected_app in Hc as (r & H1 & H2). by exists r.
  - assert (Hf : follows (t ← Get_last_move_time obs drip_done drip_others fuel; emit [TimingCall cb t])) by follow.
    by apply (Hf th).
Qed.

Lemma follows_scan_time d o : follows (Note_step_generation_scan_time obs drip_done drip_others fuel d o).
Proof using drip_quiet. unfold Note_step_generation_scan_time. follow. Qed.

Lemma follows_recovering {A} (m : M Toolhead A) h :
  follows m → (∀ w th, continuous (trace th) → ends_ok (h w th)) → follows (recovering m h).
Proof.
  intros Hm Hh th Hth. specialize (Hm th Hth). unfold recovering. destruct (m th) as [[a|w] th']; [done|]. by apply Hh.
Qed.

Lemma follows_drip newpos speed : follows (RunToolheadDripMove obs drip_done drip_others others fuel newpos speed).
Proof using drip_quiet others_follow.
  assert (Hset : ∀ x, follows (SetLookaheadFlushTime x)) by (intros x th Hth; exact Hth).
  assert (Hmove : follows (recovering (RunToolheadMove obs drip_done drip_others others fuel newpos speed;; mret tt)
    (λ w, (if IsCommandError w then emit [UpdateFlushTimer NOW];; Flush_step_generation obs drip_done drip_others fuel
           else mret tt);; panic w))) by (apply follows_recovering; [follow|by intros w th Hth]).
  assert (Hdrip : follows (recovering (lookahead_flush obs drip_done drip_others fuel false)
    (λ w, if bool_decide (w = ErrDripModeEnd) then
            th ← get; modify (set_lookahead (Reset (lookahead th)));; emit [FinalizeDripMoves] else panic w))).
  { apply follows_recovering; [apply follows_flush|]. intros w th Hth. case_bool_decide; [|exact Hth].
    split; [by apply continuous_snoc|]. exists (CommandedPos th). split; [done|]. left.
    change (pen (trace th ++ [FinalizeDripMoves]) = None). by rewrite pen_app. }
  unfold RunToolheadDripMove, SetDoKickFlushTimer. follow.
Qed.

(** ** Histories of the toolhead *)

Inductive th_op :=
| OMove (newpos : list f64) (speed : f64)
| OManualMove (coord : list (option f64)) (speed : f64)
| ODripMove (newpos : list f64) (speed : f64)
| ODwell (delay : f64)
| OSetPosition (newpos : list f64) (homingAxes : list Z)
| OActivateExtruder (e : option ExtrusionLimits) (extrude_pos : f64)
| OFlushStepGeneration
| OLastMoveTime
| OWaitMoves
| OPriming
| OFlushHandler (eventtime est : f64)
| OCallback (cb : nat)
| OScanTime (delay old_delay : f64)
| ONoteActivity (mq_time : f64) (b : bool)
| OVelocityLimit (v a r s : option f64).

Definition exec_op (op : th_op) : M Toolhead unit :=
  match op with
  | OMove p v => RunToolheadMove obs drip_done drip_others others fuel p v;; mret tt
  | OManualMove c v => RunToolheadManualMove obs drip_done drip_others others fuel c v
  | ODripMove p v => RunToolheadDripMove obs drip_done drip_others others fuel p v
  | ODwell d => RunToolheadDwell obs drip_done drip_others others fuel d
  | OSetPosition p axes => ApplyToolheadSetPosition obs drip_done drip_others fuel p axes
  | OActivateExtruder e x => Activate_extruder obs drip_done drip_others fuel e x
  | OFlushStepGeneration => Flush_step_generation obs drip_done drip_others fuel
  | OLastMoveTime => Get_last_move_time obs drip_done drip_others fuel;; mret tt
  | OWaitMoves => Wait_moves obs drip_done drip_others others fuel
  | OPriming => Priming_handler obs drip_done drip_others fuel
  | OFlushHandler t est => HandleToolheadFlushCallback obs drip_done drip_others fuel t est;; mret tt
  | OCallback cb => Register_lookahead_callback obs drip_done drip_others fuel cb
  | OScanTime d o => Note_step_generation_scan_time obs drip_done drip_others fuel d o
  | ONoteActivity t b => Note_mcu_movequeue_activity t b
  | OVelocityLimit v a r s => ApplyToolheadVelocityLimitUpdate v a r s
  end.

Lemma follows_op op : follows (exec_op op).
Proof using drip_quiet others_follow.
  destruct op; cbn [exec_op]; unfold ApplyToolheadVelocityLimitUpdate;
    auto using follows_drip, follows_set_position, follows_activate, follows_wait_moves, follows_priming,
      follows_lookahead_callback, follows_scan_time, follows_step_generation, follows_dwell, follows_manual_move; follow.
Qed.

(** States that operations reach by returning normally. *)
Inductive th_reachable : Toolhead → Prop :=
| th_start th : queue (lookahead th) = [] → trace th = [] → th_reachable th
| th_step op th th' : th_reachable th → exec_op op th = (Ret tt, th') → th_reachable th'.

(** C1. Whatever operations the toolhead performs, every move handed to the trapezoid queue
    starts where the queue stands, and the moves still waiting lead without a gap from
    there to the commanded position. *)
Theorem motion_is_continuous (th : Toolhead) :
  th_reachable th →
  continuous (trace th) ∧
  ∃ p, connected p (queue (lookahead th)) (CommandedPos th) ∧ (pen (trace th) = None ∨ pen (trace th) = Some (xyz p)).
Proof using drip_quiet others_follow.
  change (th_reachable th → on_path th). induction 1 as [th Hq Ht|op th th' _ IH E].
  - split; [rewrite Ht; by intros [|??] ????|]. exists (CommandedPos th). rewrite Hq, Ht. split; [done|by left].
  - pose proof (follows_op op th IH) as H. by rewrite E in H.
Qed.

(** A move that the kinematics reject leaves the toolhead exactly as it was: commanded
    position, queue and clock included. *)
Theorem rejected_move_changes_nothing (th : Toolhead) (newpos : list f64) (speed : f64) (m : Move) (why : string) :
  NewMove (MoveConfig_of th) (CommandedPos th) newpos speed = Ret m →
  feq (Move_d m) f0 = false → Is_kinematic_move m = true → CheckMove (kin th) m = Panic why →
  RunToolheadMove obs drip_done drip_others others fuel newpos speed th = (Panic why, th).
Proof.
  intros Hm Hd Hk Hc. rewrite RunToolheadMove_eq. unfold prepare. rewrite Hm. cbn [mbind go_bind]. by rewrite Hd, Hk, Hc.
Qed.
End Follows.

(** ** What is lost *)

(** A move that the extruder rejects is queued all the same: the error that
    [CheckExtrusionMove] returns is dropped by [CheckExtruderMove]. *)
Theorem extruder_check_never_rejects (th : Toolhead) (m : Move) (lim : ExtrusionLimits) (axisR : f64) :
  extruder th = Some lim → (Axes_r m).[3] = Ret axisR → CanExtrude lim = false →
  CheckExtrusionMove m lim = Ret (inl "Extrude below minimum temp"%string) ∧ CheckExtruderMove m th = (Ret m, th).
Proof.
  intros He Ha Hc.
  assert (H : CheckExtrusionMove m lim = Ret (inl "Extrude below minimum temp"%string)).
  { unfold CheckExtrusionMove. rewrite Ha. simpl. by rewrite Hc. }
  split; [exact H|]. unfold CheckExtruderMove, mbind, M_bind, get, lift. by rewrite He, H.
Qed.

Section Lost.
Context (obs : nat → f64 * f64) (drip_done : nat → bool) (drip_others others : M Toolhead unit) (fuel : nat).

(** The pause check writes back the copy of the timing state that it took
    before it paused: what other tasks did to it meanwhile is undone. *)
Theorem pause_restores_old_clock (th th' : Toolhead) :
  CheckToolheadPause obs others fuel th = (Ret tt, th') →
  PrintTime (timing th') = PrintTime (timing th) ∧ CanPause (timing th') = CanPause (timing th).
Proof.
  unfold CheckToolheadPause. intros H. apply M_bind_inv in H as (th0 & s0 & [= <- <-] & H).
  apply M_bind_inv in H as ([p wake] & s1 & Hp & H).
  assert (Ep : p_PrintTime p = PrintTime (timing th) ∧ p_CanPause p = CanPause (timing th)).
  { unfold RunToolheadPauseCheck in Hp. apply M_bind_inv in Hp as ([t est] & s2 & _ & Hp).
    apply M_bind_inv in Hp as (r & s3 & _ & Hp). injection Hp as <- _ _. done. }
  apply M_bind_inv in H as ([] & s2 & [= <-] & H). destruct Ep as [<- <-].
  destruct wake as [w|]; [unfold EnsurePrimingTimer in H; apply M_bind_inv in H as ([] & s3 & [= <-] & [= <-])|injection H as <-]; done.
Qed.

(** The main state, in which the toolhead may pause. *)
Definition main_state (th : Toolhead) : Prop := SpecialQueuingState th = EmptyString ∧ CanPause (timing th) = true.

Lemma main_set f : (∀ th, main_state th → main_state (f th)) → always main_state (modify f).
Proof. apply always_modify. Qed.

Lemma AdvanceMoveTime_CanPause next c a t evs t' : AdvanceMoveTime next c a t = Some (evs, t') → CanPause t' = CanPause t.
Proof.
  unfold AdvanceMoveTime. cbn zeta. generalize flush_rounds as n. intros n.
  set (t1 := set_PrintTime (fmax (PrintTime t) next) t).
  destruct (while _ _ _) as [|r] eqn:E; [done|]. intros [= ->].
  refine (while_inv (λ s, CanPause s.2.2 = CanPause t) (λ r, CanPause r.2 = CanPause t) _ _ _ _ _ _ E); [|done].
  intros [x [evs' t2]] H. unfold move_round. set (y := fmin _ _).
  assert (H2 : CanPause (AdvanceFlushTime y c a t2).2 = CanPause t) by exact H.
  destruct (AdvanceFlushTime y c a t2) as [more t3]. by destruct (fle _ y).
Qed.

Lemma main_observe : always main_state (observe obs).
Proof. unfold observe. always_steps. Qed.

Lemma main_timing {A} (f : Toolhead → A * ToolheadTimingState) (k : A → ToolheadTimingState → M Toolhead unit) :
  (∀ th, CanPause (f th).2 = CanPause (timing th)) → (∀ a t, always main_state (k a t)) →
  always main_state (th ← get; let '(a, t) := f th in modify (set_timing t);; k a t).
Proof.
  intros Hf Hk th [Hs Hp]. specialize (Hf th). unfold mbind, M_bind, get, modify.
  destruct (f th) as [a t]. apply Hk. split; [exact Hs|]. simpl in *. congruence.
Qed.

Lemma main_emit evs : always main_state (emit evs).
Proof. by apply always_modify. Qed.

Lemma main_calc : always main_state (calc_print_time obs).
Proof.
  unfold calc_print_time. apply always_bind; [apply main_observe|intros [t est]].
  apply (main_timing (λ th, CalcPrintTime DefaultTimingConfig est (timing th))
    (λ moved t, if moved then emit [SyncPrintTime (PrintTime t)] else mret tt)).
  - intros th. unfold CalcPrintTime. cbn zeta. by case_match.
  - intros [] t'; [apply main_emit|apply always_ret].
Qed.

Lemma main_advance x : always main_state (advance_move_time x).
Proof.
  intros th [Hs Hp]. unfold advance_move_time, mbind, M_bind, get. cbn [fst snd].
  destruct (AdvanceMoveTime x _ _ _) as [[evs t]|] eqn:E; [|done]. apply AdvanceMoveTime_CanPause in E.
  split; [exact Hs|]. simpl. congruence.
Qed.

Lemma main_sink e : always main_state (sink_event e).
Proof. destruct e; unfold sink_event, emit; always_steps; by apply main_set. Qed.

Lemma main_note x b : always main_state (Note_mcu_movequeue_activity x b).
Proof.
  apply (main_timing (λ th, NoteMovequeueActivity x b (timing th))
    (λ kick _, if kick then emit [UpdateFlushTimer NOW] else mret tt)); [done|].
  intros [] t; [apply main_emit|apply always_ret].
Qed.

Lemma always_keeps {S A} (I : S → Prop) (m : M S A) : always I m → keeps I m.
Proof. intros H s Hs. specialize (H s Hs). by destruct (m s) as [[] ?]. Qed.

(** Handing moves over leaves the priming state for the main one. *)
Lemma process_main moves :
  hoare (λ th, SpecialQueuingState th = NeedPrime ∧ CanPause (timing th) = true)
    (Process_moves obs drip_done drip_others fuel moves) (onret (λ _, main_state)).
Proof.
  unfold Process_moves, ProcessToolheadMoveBatch.
  apply (hoare_bind _ _ (λ _, main_state)); [|intros []; apply always_keeps; auto with keeps].
  apply (hoare_bind _ _ (λ th s, th = s ∧ SpecialQueuingState s = NeedPrime ∧ CanPause (timing s) = true)); [by intros s Hs|].
  intros th0. apply (hoare_bind _ _ (λ _, main_state)).
  { intros s (-> & Hs & Hp). rewrite Hs, !bool_decide_false by done. unfold mbind, M_bind, modify.
    pose proof (main_calc (set_pause (CheckStallTime s) EmptyString fm1 (PrintStall s) s)) as H.
    destruct (calc_print_time obs _) as [[[]|w] s']; [by apply H|done]. }
  intros _. apply (hoare_bind _ _ (λ _, main_state)); [by intros s Hs|intros th1].
  apply (hoare_bind _ _ (λ _, main_state)); [apply always_keeps; auto with keeps|intros [evs t]].
  apply (hoare_bind _ _ (λ _, main_state)); [apply keeps_mfor; intros e; apply always_keeps, main_sink|intros _].
  apply (hoare_bind _ _ (λ th s, th = s ∧ main_state s)); [by intros s Hs|intros th2].
  intros s [-> Hs]. rewrite bool_decide_true by apply Hs. revert s Hs. change (keeps main_state
    (ended ← mret false; if ended : bool then mret true else th ← get;
     Note_mcu_movequeue_activity (fadd t (KinFlushDelay (timing th))) true;; advance_move_time t;; mret false)).
  apply always_keeps. apply always_bind; [apply always_ret|intros []; [apply always_ret|]].
  apply always_bind; [apply always_get|intros th]. apply always_bind; [apply main_note|intros _].
  apply always_bind; [apply main_advance|intros _]. apply always_ret.
Qed.

Lemma flush_main th :
  queue (lookahead th) ≠ [] → SpecialQueuingState th = NeedPrime → CanPause (timing th) = true →
  onret (λ _, main_state) (lookahead_flush obs drip_done drip_others fuel false th).1
    (lookahead_flush obs drip_done drip_others fuel false th).2.
Proof.
  intros Hq Hs Hp. rewrite lookahead_flush_eq. destruct (Flush_prefix false (lookahead th)) as (n & _ & E & Hn).
  specialize (Hn eq_refl). subst n. rewrite E. destruct (assign_junctions _ _) as [|m ms] eqn:Ea.
  { apply (f_equal length) in Ea. rewrite assign_junctions_length, length_take, backward_length, Nat.min_id in Ea.
    by destruct (queue (lookahead th)). }
  cbn zeta. set (th1 := set_lookahead _ _). pose proof (process_main (m :: ms) th1 (conj Hs Hp)) as H.
  by destruct (Process_moves _ _ _ _ _ th1) as [[[]|w] th2].
Qed.

(** Waiting for the moves (M400) while moves are queued never returns as long as the
    toolhead can pause: the flush ends in the main state and the wait tests a copy of
    the state taken then. *)
Theorem wait_after_moves_never_ends (th : Toolhead) :
  queue (lookahead th) ≠ [] → CanPause (timing th) = true →
  returns (Wait_moves obs drip_done drip_others others fuel th).1 = false.
Proof.
  intros Hq Hp. unfold Wait_moves.
  assert (Hflush : hoare (λ s, s = th) (_flush_lookahead obs drip_done drip_others fuel) (onret (λ _, main_state))).
  { unfold _flush_lookahead. apply (hoare_bind _ _ (λ a s, a = th ∧ s = th)); [by intros s ->|intros th0].
    apply (hoare_bind _ _ (λ _ s, s = set_pause f0 NeedPrime fm1 (PrintStall th) th)); [by intros s [-> ->]|intros _].
    apply (hoare_bind _ _ (λ _, main_state)); [|by intros _ s Hs]. intros s ->. by apply flush_main. }
  specialize (Hflush th eq_refl). unfold mbind at 1, M_bind at 1.
  destruct (_flush_lookahead _ _ _ _ th) as [[[]|w] th1]; [|done]. destruct Hflush as [Hs Hc]. cbn [fst snd] in *.
  unfold mbind at 1, M_bind at 1, get at 1. rewrite Hs, Hc. unfold mbind at 1, M_bind at 1.
  destruct (observe obs th1) as [[[t0 est]|w] s]; [|done]. generalize (PrintTime (timing th1)) as t. revert est s.
  induction fuel as [|n IH]; intros est s t; [done|]. cbn [wait_loop]. rewrite bool_decide_true by done. cbn [orb].
  unfold mbind, M_bind. destruct (pause obs others s) as [[[t1 est']|w] s']; [apply IH|done].
Qed.
End Lost.

(** ** A printer that is homed and moves *)

Definition demo_obs (n : nat) : f64 * f64 := (f_of_Z (Z.of_nat n), f0).
Definition demo_idle : M Toolhead unit := mret tt.
Definition demo_lim : ExtrusionLimits :=
  mkExtrusion false (f_lit 4 10) (f_lit 24 10) (f_of_Z 1) (f_of_Z 50) (f_of_Z 1000) (f_of_Z 50) f1.
Definition demo_th : Toolhead :=
  mkToolhead (NewTiming true) [f0; f0; f0; f0] (mkVelocity (f_of_Z 300) (f_of_Z 3000) (f_of_Z 1500) (f_of_Z 5)) (f_of_Z 1500)
    (f_lit 3 1000) f0 NeedPrime fm1 f0 (Set_flush_time BUFFER_TIME_HIGH NewMoveQueue)
    (NewCartesian [(f0, f_of_Z 220); (f0, f_of_Z 220); (f0, f_of_Z 250)] (f_of_Z 15) (f_of_Z 100)) (Some demo_lim) f0 false 3 1 0 0 [].
Definition demo_exec (op : th_op) (th : Toolhead) : Toolhead := (exec_op demo_obs (λ _, false) demo_idle demo_idle 3 op th).2.
Definition demo_p (x y : Z) : list f64 := [f_of_Z x; f_of_Z y; f0; f0].
Definition demo_homed_th : Toolhead := demo_exec (OSetPosition (demo_p 0 0) [0; 1; 2]) demo_th.
Definition demo_moved : Toolhead := demo_exec (OMove (demo_p 10 0) (f_of_Z 100)) demo_homed_th.
Definition demo_flushed : Toolhead := demo_exec OFlushStepGeneration demo_moved.

Lemma demo_idle_quiet q pos p : always (same_path q pos p) demo_idle.
Proof. apply always_ret. Qed.

Lemma demo_idle_follows : follows demo_idle.
Proof. apply follows_ret. Qed.

Lemma demo_homed_ok : exec_op demo_obs (λ _, false) demo_idle demo_idle 3 (OSetPosition (demo_p 0 0) [0; 1; 2]) demo_th = (Ret tt, demo_homed_th).
Proof. vm_compute. reflexivity. Qed.

Lemma demo_moved_ok : exec_op demo_obs (λ _, false) demo_idle demo_idle 3 (OMove (demo_p 10 0) (f_of_Z 100)) demo_homed_th = (Ret tt, demo_moved).
Proof. vm_compute. reflexivity. Qed.

Lemma demo_flushed_ok : exec_op demo_obs (λ _, false) demo_idle demo_idle 3 OFlushStepGeneration demo_moved = (Ret tt, demo_flushed).
Proof. vm_compute. reflexivity. Qed.

Lemma demo_th_reachable : th_reachable demo_obs (λ _, false) demo_idle demo_idle 3 demo_flushed.
Proof.
  eapply th_step; [|exact demo_flushed_ok]. eapply th_step; [|exact demo_moved_ok].
  eapply th_step; [|exact demo_homed_ok]. by apply th_start.
Qed.

Lemma motion_is_continuous_witness :
  pen (trace demo_flushed) = Some [f_of_Z 10; f0; f0] ∧ continuous (trace demo_flushed).
Proof.
  split; [vm_compute; reflexivity|].
  exact (proj1 (motion_is_continuous demo_obs (λ _, false) demo_idle demo_idle 3 demo_idle_quiet demo_idle_follows
    demo_flushed demo_th_reachable)).
Defined.

Definition demo_far : Move :=
  match NewMove (MoveConfig_of demo_homed_th) (CommandedPos demo_homed_th) (demo_p 500 0) (f_of_Z 100) with
  | Ret m => m
  | Panic _ => no_move
  end.

Lemma demo_far_ok : NewMove (MoveConfig_of demo_homed_th) (CommandedPos demo_homed_th) (demo_p 500 0) (f_of_Z 100) = Ret demo_far.
Proof. vm_compute. reflexivity. Qed.

Lemma demo_far_rejected : CheckMove (kin demo_homed_th) demo_far = Panic "Move out of range".
Proof. vm_compute. reflexivity. Qed.

Lemma rejected_move_changes_nothing_witness :
  RunToolheadMove demo_obs (λ _, false) demo_idle demo_idle 3 (demo_p 500 0) (f_of_Z 100) demo_homed_th =
  (Panic "Move out of range", demo_homed_th).
Proof.
  exact (rejected_move_changes_nothing demo_obs (λ _, false) demo_idle demo_idle 3 demo_homed_th (demo_p 500 0) (f_of_Z 100)
    demo_far "Move out of range" demo_far_ok ltac:(vm_compute; reflexivity) ltac:(vm_compute; reflexivity) demo_far_rejected).
Defined.

Lemma demo_axis : (Axes_r demo_far).[3] = Ret f0.
Proof. vm_compute. reflexivity. Qed.

Lemma extruder_check_never_rejects_witness :
  CheckExtrusionMove demo_far demo_lim = Ret (inl "Extrude below minimum temp"%string) ∧ CheckExtruderMove demo_far demo_th = (Ret demo_far, demo_th).
Proof. exact (extruder_check_never_rejects demo_th demo_far demo_lim f0 eq_refl demo_axis eq_refl). Defined.

(** While the check pauses, another task moves the print time on. *)
Definition demo_late : M Toolhead unit := modify (λ th, set_timing (set_PrintTime (f_of_Z 20) (timing th)) th).
Definition demo_clock_obs (n : nat) : f64 * f64 := (f_of_Z (Z.of_nat n), f_of_Z (5 * Z.of_nat n)).
Definition demo_busy : Toolhead := set_timing (set_PrintTime (f_of_Z 5) (NewTiming true)) demo_th.
Definition demo_paused : Toolhead := (CheckToolheadPause demo_clock_obs demo_late 3 demo_busy).2.

Lemma demo_paused_ok : CheckToolheadPause demo_clock_obs demo_late 3 demo_busy = (Ret tt, demo_paused).
Proof. vm_compute. reflexivity. Qed.

Lemma pause_restores_old_clock_witness :
  now demo_paused = 2%nat ∧ PrintTime (timing demo_paused) = f_of_Z 5.
Proof.
  split; [vm_compute; reflexivity|].
  exact (proj1 (pause_restores_old_clock demo_clock_obs demo_late 3 demo_busy demo_paused demo_paused_ok)).
Defined.

Lemma demo_waiting : queue (lookahead demo_moved) ≠ [] ∧ CanPause (timing demo_moved) = true.
Proof. vm_compute. done. Qed.

Lemma wait_after_moves_never_ends_witness :
  returns (Wait_moves demo_obs (λ _, false) demo_idle demo_idle 3 demo_moved).1 = false.
Proof.
  exact (wait_after_moves_never_ends demo_obs (λ _, false) demo_idle demo_idle 3 demo_moved (proj1 demo_waiting) (proj2 demo_waiting)).
Defined.

(** A drip move that is rejected leaves the toolhead in the drip state with its
    flush timer off. *)
Lemma rejected_drip_move_stays_in_drip :
  let r := RunToolheadDripMove demo_obs (λ _, false) demo_idle demo_idle 3 (demo_p 500 0) (f_of_Z 100) demo_homed_th in
  r.1 = Panic "Move out of range" ∧ SpecialQueuingState r.2 = Drip ∧ last (trace r.2) = Some (UpdateFlushTimer NEVER).
Proof. vm_compute. done. Qed.
