(* ===== verification/GcodeParse.v ===== *)
(** * Reading G-code

    [src/internal/pkg/gcode/gcode_parse_helpers.go] and [command_params.go], and
    [ParseDispatchCommandLine] of [dispatch_runtime.go]: tokens of a line, the
    parameters of traditional ([G1 X5]) and extended ([SET KEY=VALUE]) commands,
    and the typed accessors of the handlers.  A position inside a line is the rest
    of the line.  Letters, digits and white space are those of ASCII.  What the
    accessors only log is left out. *)

From S2P Require Import Prelude GoFloat GoStrings GoParseFloat.
From Stdlib Require Import Ascii String.

(** ** Tokens *)

Definition IsDigitChar (c : ascii) : bool := is_digit c.
Definition IsDigitString (s : string) : bool :=
  negb (bool_decide (s = EmptyString)) && all_chars is_digit s.
Definition quote : ascii := ascii_of 34.
Definition IsQuote (c : ascii) : bool := Ascii.eqb c quote || Ascii.eqb c "'".
Definition IsValuePart (c : ascii) : bool := IsDigitChar c || Ascii.eqb c "." || Ascii.eqb c "-".

(** The characters up to the first that fails [f], and the rest. *)
Fixpoint span_string (f : ascii → bool) (s : string) : string * string :=
  match s with
  | EmptyString => (EmptyString, EmptyString)
  | String c s' => if f c then let '(a, b) := span_string f s' in (String c a, b) else (EmptyString, s)
  end.
Definition GetKey (s : string) : string * string := span_string (λ c, negb (IsValuePart c)) s.
Definition GetVal (s : string) : string * string := span_string IsValuePart s.

(** The inner loop of [ParseGcodeTokens]; every round consumes a character. *)
Fixpoint part_tokens (n : nat) (part : string) : list string :=
  match n, part with
  | S n, String _ _ =>
      let '(key, r) := GetKey part in
      let '(val, r) := GetVal r in
      key :: val :: part_tokens n r
  | _, _ => []
  end.
Definition ParseGcodeTokens (input : string) : list string :=
  EmptyString :: flat_map (λ part, part_tokens (String.length part) part) (Fields input).

(** ** Command lines *)

Record ParsedDispatchCommand := mkParsed {
  OriginalLine : string;
  p_Command : string;
  p_Params : gmap string string
}.

Fixpoint token_params (params : gmap string string) (parts : list string) : gmap string string :=
  match parts with
  | key :: value :: parts => token_params (<[key := TrimSpace value]> params) parts
  | _ => params
  end.

Fixpoint join_all (ws : list string) : string :=
  match ws with [] => EmptyString | w :: ws => (w ++ join_all ws)%string end.

Definition token_command (parts : list string) : string :=
  if bool_decide (3 ≤ List.length parts)%nat then
    if bool_decide (parts !! 1%nat = Some "N"%string) then TrimSpace (join_all (drop 3 parts))
    else TrimSpace (join_all (take 3 parts))
  else EmptyString.

Definition strip_comment (line : string) : string :=
  let cpos := Index line ";" in
  if bool_decide (cpos = -1) then line else take_string (Z.to_nat cpos) line.

Definition ParseDispatchCommandLine (input : string) : ParsedDispatchCommand :=
  let line := Trim (λ c, Ascii.eqb c " ") input in
  let parts := ParseGcodeTokens (ToUpper (strip_comment line)) in
  mkParsed line (token_command parts) (token_params ∅ (drop 1 parts)).

(** ** Names of commands *)

Definition is_upper (c : ascii) : bool := let n := byte_of c in (65 <=? n) && (n <=? 90).
Definition is_letter (c : ascii) : bool := let n := byte_of (lower_char c) in (97 <=? n) && (n <=? 122).

Definition IsCommandValid (cmd : string) : bool :=
  bool_decide (ToUpper cmd = cmd) &&
  all_chars (λ r, is_letter r || is_digit r) (ReplaceAll cmd "_" "A") &&
  match cmd with
  | String a (String b _) => negb (is_digit a) && negb (is_digit b)
  | String a EmptyString => negb (is_digit a)
  | EmptyString => true
  end.

Definition IsTraditionalGCode (cmd : string) : bool :=
  match Split " " (ToUpper cmd) with
  | String a (String b _) :: _ => is_upper a && is_digit b
  | _ => false
  end.

(** ** Extended parameters *)

Inductive ext_mode := ReadKey | ReadVal.
Record ext_state := mkExt {
  mode : ext_mode;
  currentKey : string;
  params : string;                           (* what is left to read *)
  results : gmap string string
}.

Definition is_blank (c : ascii) : bool := Ascii.eqb c " " || Ascii.eqb c (ascii_of 9).

(** One round of the loop: the next state, or what is returned. *)
Definition ext_round (s : ext_state) : ext_state + (string + gmap string string) :=
  let done r := inr (inr r) in
  match mode s with
  | ReadKey =>
      let eqIdx := IndexByte (params s) "=" in
      if bool_decide (eqIdx = -1) then done (results s)
      else inl (mkExt ReadVal (ToUpper (TrimSpace (take_string (Z.to_nat eqIdx) (params s))))
             (drop_string (Z.to_nat eqIdx + 1) (params s)) (results s))
  | ReadVal =>
      match params s with
      | EmptyString => done (results s)
      | String firstChar rest =>
          if IsQuote firstChar then
            let endQuoteIdx := IndexByte rest firstChar in
            if bool_decide (endQuoteIdx = -1) then inr (inl "malformed command: missing closing quote"%string)
            else
              let results := <[currentKey s := take_string (Z.to_nat endQuoteIdx) rest]> (results s) in
              match drop_string (Z.to_nat endQuoteIdx + 1) rest with
              | EmptyString => done results
              | more => inl (mkExt ReadKey (currentKey s) (TrimLeft is_blank more) results)
              end
          else
            let spaceIdx := IndexByte (params s) " " in
            if bool_decide (spaceIdx = -1) then done (<[currentKey s := TrimSpace (params s)]> (results s))
            else inl (mkExt ReadKey (currentKey s) (TrimLeft is_blank (drop_string (Z.to_nat spaceIdx + 1) (params s)))
                   (<[currentKey s := TrimSpace (take_string (Z.to_nat spaceIdx) (params s))]> (results s)))
      end
  end.

(** Every round consumes a character, so that the number of rounds given is never
    reached ([ext_leaves]). *)
Definition ParseExtendedParams (input : string) : string + gmap string string :=
  let s := mkExt ReadKey EmptyString (TrimSpace input) ∅ in
  match while (Pos.of_succ_nat (String.length (params s))) ext_round s with
  | inr r => r
  | inl s => inr (results s)
  end.

Definition ParseBooleanString (state : string) : bool * bool :=
  if bool_decide (state ∈ ["1"; "true"; "on"; "enable"; "enabled"]%string) then (true, true)
  else if bool_decide (state ∈ ["0"; "false"; "off"; "disable"; "disabled"]%string) then (false, true)
  else (false, false).

(** ** Typed access *)

Record CommandParams := mkParams {
  Params : gmap string string;
  Commandline : string;
  Command : string
}.

(** The default given to an accessor: [object.Sentinel{}] makes the parameter
    mandatory; [nil] stands for the zero value. *)
Inductive deflt (A : Type) := Sentinel | Nil | Value (a : A).
Arguments Sentinel {A}.
Arguments Nil {A}.
Arguments Value {A} a.

Definition missing {A} (zero : A) (d : deflt A) : go A :=
  match d with
  | Sentinel => Panic "missing parameter"
  | Nil => Ret zero
  | Value a => Ret a
  end.

Definition param (self : CommandParams) (name : string) : string := default EmptyString (Params self !! name).

Definition Get (self : CommandParams) (name : string) (d : deflt string) : go string :=
  if bool_decide (param self name = EmptyString) then missing EmptyString d else Ret (param self name).

Definition Get_int (self : CommandParams) (name : string) (d : deflt Z) : go Z :=
  if bool_decide (param self name = EmptyString) then missing 0 d else Ret (ParseInt 32 (param self name)).1.

Definition Get_float (self : CommandParams) (name : string) (d : deflt f64)
    (minval maxval above below : option f64) : go f64 :=
  if bool_decide (param self name = EmptyString) then missing f0 d
  else
    let val := (ParseFloat (param self name)).1 in
    let bound (b : option f64) (bad : f64 → bool) (k : f64) :=
      match b with Some b => if bad b then b else k | None => k end in
    Ret (bound minval (λ b, flt val b) (bound maxval (λ b, flt b val)
          (bound above (λ b, fle val b) (bound below (λ b, fle b val) val)))).

Definition Get_floatP (self : CommandParams) (name : string) (d : option f64) : option f64 :=
  match Params self !! name with Some value => Some (ParseFloat value).1 | None => d end.

Definition Has (self : CommandParams) (name : string) : bool := bool_decide (is_Some (Params self !! name)).

(** [unicode.IsSpace(rune(b))] for one byte. *)
Definition is_space_rune (c : ascii) : bool :=
  is_space c || (byte_of c =? 0x85) || (byte_of c =? 0xA0).

Definition GetRawCommandParameters (self : CommandParams) : go string :=
  let command := Command self in
  let origline := Commandline self in
  head ← slice_string origline 0 (slen command);
  let '(param_start, param_end) :=
    if bool_decide (ToUpper head = command) then (slen command, slen origline)
    else
      let cmdIdx := Index (ToUpper origline) command in
      let e := LastIndexByte origline "*" in
      (if 0 <=? cmdIdx then cmdIdx + slen command else slen command,
       if (0 <=? e) && IsDigitString (drop_string (Z.to_nat e + 1) origline) then e else slen origline) in
  let param_start :=
    match drop_string (Z.to_nat param_start) origline with
    | String c _ => if is_space_rune c then param_start + 1 else param_start
    | EmptyString => param_start
    end in
  if slen origline <=? param_start then Ret EmptyString
  else if param_end <=? param_start then Ret EmptyString
  else slice_string origline param_start param_end.
