(* ===== verification/GcodeParseThy.v ===== *)
(** * Theorems on reading G-code

    A traditional command line is read as the command and the parameters it was
    written with ([traditional_line]); an extended one too, through its raw
    parameters ([extended_line]); and no line makes the extraction of the raw
    parameters panic ([raw_parameters_total]).  A line with a line number
    loses its command ([numbered_line_joins_parameters]). *)

From S2P Require Import Prelude GoFloat GoStrings GoParseFloat GcodeParse.
From Stdlib Require Import Ascii String.

(** ** Strings *)

Lemma TrimLeft_app cut s t : all_chars cut s = true → TrimLeft cut (s ++ t)%string = TrimLeft cut t.
Proof.
  induction s as [|c s IH]; [done|]. rewrite string_app_cons. simpl. intros [Hc Hs]%andb_true_iff. by rewrite Hc, IH.
Qed.

(** Trimming stops at a character that is kept. *)
Lemma TrimLeft_stop (cut : ascii → bool) c s : cut c = false → TrimLeft cut (String c s) = String c s.
Proof. simpl. by intros ->. Qed.

(** The suffix left by trimming on the right: all of it up to the last kept
    character. *)
Definition TrimRight (cut : ascii → bool) (s : string) : string := rev_string (TrimLeft cut (rev_string s)).

Lemma Trim_right cut s : Trim cut s = TrimRight cut (TrimLeft cut s).
Proof. done. Qed.

Lemma TrimLeft_keep cut w c v :
  cut c = false → TrimLeft cut (w ++ String c v)%string = (TrimLeft cut w ++ String c v)%string.
Proof.
  intros Hc. induction w as [|a w IH]; [by apply TrimLeft_stop|]. rewrite string_app_cons. simpl. by destruct (cut a).
Qed.

Lemma TrimRight_snoc cut s c t :
  cut c = false → TrimRight cut (s ++ String c t)%string = (s ++ String c (TrimRight cut t))%string.
Proof.
  intros Hc. unfold TrimRight. rewrite rev_string_app, rev_string_cons, string_app_assoc.
  change ((String c EmptyString ++ rev_string s)%string) with (String c (rev_string s)).
  rewrite TrimLeft_keep by done. rewrite rev_string_app, rev_string_cons, rev_string_involutive, string_app_assoc. done.
Qed.

Lemma TrimRight_all cut s : all_chars cut s = true → TrimRight cut s = EmptyString.
Proof.
  intros H. unfold TrimRight. rewrite <- (all_chars_rev cut) in H. rewrite <- (string_app_nil_r (rev_string s)).
  by rewrite TrimLeft_app.
Qed.

Lemma trim_left_TrimLeft s : trim_left s = TrimLeft is_space s.
Proof. induction s as [|c s IH]; [done|]. simpl. by rewrite IH. Qed.

Lemma TrimSpace_Trim s : TrimSpace s = Trim is_space s.
Proof. unfold TrimSpace, Trim. by rewrite !trim_left_TrimLeft. Qed.

(** [s] starts and ends with characters that trimming keeps. *)
Definition kept_ends (cut : ascii → bool) (s : string) : Prop :=
  (∃ c t, s = String c t ∧ cut c = false) ∧ (∃ t c, s = (t ++ String c EmptyString)%string ∧ cut c = false).

Lemma Trim_kept cut s : kept_ends cut s → Trim cut s = s.
Proof.
  intros [(c & t & -> & Hc) (t' & c' & E & Hc')]. rewrite Trim_right, TrimLeft_stop, E, TrimRight_snoc by done.
  done.
Qed.

Lemma string_snoc s : s ≠ EmptyString → ∃ t c, s = (t ++ String c EmptyString)%string.
Proof.
  intros H. exists (rev_string (match rev_string s with String _ r => r | _ => EmptyString end)),
    (match rev_string s with String c _ => c | _ => " "%char end).
  destruct (rev_string s) as [|c r] eqn:E.
  - apply (f_equal rev_string) in E. by rewrite rev_string_involutive in E.
  - apply (f_equal rev_string) in E. by rewrite rev_string_involutive, rev_string_cons in E.
Qed.

Lemma all_chars_kept cut s : s ≠ EmptyString → all_chars (λ c, negb (cut c)) s = true → kept_ends cut s.
Proof.
  intros Hs H. split.
  - destruct s as [|c s]; [done|]. simpl in H. apply andb_true_iff in H as [Hc%negb_true_iff _]. eauto.
  - destruct (string_snoc s Hs) as (t & c & ->). rewrite all_chars_app in H. simpl in H.
    apply andb_true_iff in H as [_ [Hc%negb_true_iff _]%andb_true_iff]. eauto.
Qed.

Lemma TrimSpace_no_space s : no_space s = true → TrimSpace s = s.
Proof.
  intros H. destruct s as [|c s]; [done|]. rewrite TrimSpace_Trim. apply Trim_kept. by apply all_chars_kept.
Qed.

Lemma kept_ends_app cut s t u : kept_ends cut s → kept_ends cut u → kept_ends cut (s ++ t ++ u)%string.
Proof.
  intros [(c & x & -> & Hc) _] [_ (y & d & -> & Hd)]. split.
  - exists c, (x ++ t ++ y ++ String d "")%string. done.
  - exists (String c x ++ t ++ y)%string, d. by rewrite !string_app_assoc.
Qed.

(** *** Words *)

Lemma Fields_cons c d x w ws :
  is_space c = false → is_space d = false → Fields (String d x) = w :: ws →
  Fields (String c (String d x)) = String c w :: ws.
Proof.
  intros Hc Hd E.
  change (Fields (String c (String d x))) with
    (if is_space c then Fields (String d x)
     else if is_space d then String c EmptyString :: Fields (String d x)
     else match Fields (String d x) with w :: ws => String c w :: ws | [] => [String c EmptyString] end).
  by rewrite Hc, Hd, E.
Qed.

Lemma Fields_word w s :
  w ≠ EmptyString → no_space w = true → (s = EmptyString ∨ ∃ t, s = String " " t) →
  Fields (w ++ s)%string = w :: Fields s.
Proof.
  intros Hw H Hs. induction w as [|c w IH]; [done|]. rewrite string_app_cons.
  simpl in H. apply andb_true_iff in H as [Hc%negb_true_iff H]. destruct w as [|d w].
  - change ((EmptyString ++ s)%string) with s. destruct Hs as [->|[t ->]]; simpl; by rewrite Hc.
  - specialize (IH ltac:(done) H). simpl in H. apply andb_true_iff in H as [Hd%negb_true_iff _].
    rewrite string_app_cons in IH |- *. by apply Fields_cons.
Qed.

Lemma Fields_Join ws :
  Forall (λ w, w ≠ EmptyString ∧ no_space w = true) ws → Fields (Join " " ws) = ws.
Proof.
  induction 1 as [|w ws [Hw Hs] _ IH]; [done|]. destruct ws as [|w' ws].
  - simpl. rewrite <- (string_app_nil_r w) at 1. rewrite Fields_word; [done..|by left].
  - change (Join " " (w :: w' :: ws)) with (w ++ String " " (Join " " (w' :: ws)))%string.
    rewrite Fields_word by (try done; right; eauto). f_equal. exact IH.
Qed.

Lemma index_from_absent c s t i :
  has_char c s = false → index_from i (String c EmptyString) (s ++ String c t)%string = i + slen s.
Proof.
  unfold slen. revert i. induction s as [|d s IH]; intros i H.
  - simpl. destruct (ascii_dec c c); [|done]. simpl. destruct t; simpl; lia.
  - simpl in H. apply orb_false_iff in H as [Hd H]. rewrite string_app_cons. cbn [index_from]. unfold HasPrefix. simpl.
    destruct (ascii_dec c d) as [->|_]; [by rewrite Ascii.eqb_refl in Hd|]. rewrite IH by done. lia.
Qed.

Lemma index_from_none c s i : has_char c s = false → index_from i (String c EmptyString) s = -1.
Proof.
  revert i. induction s as [|d s IH]; intros i H; [done|]. simpl in H. apply orb_false_iff in H as [Hd H].
  cbn [index_from]. unfold HasPrefix. simpl.
  destruct (ascii_dec c d) as [->|_]; [by rewrite Ascii.eqb_refl in Hd|]. by apply IH.
Qed.

Lemma strip_comment_app s t :
  has_char ";" s = false → (t = EmptyString ∨ ∃ c, t = String ";" c) → strip_comment (s ++ t)%string = s.
Proof.
  intros H [->|[c ->]]; unfold strip_comment, Index.
  - by rewrite string_app_nil_r, index_from_none.
  - rewrite index_from_absent by done. unfold slen. rewrite bool_decide_eq_false_2 by lia.
    replace (Z.to_nat (0 + _)) with (String.length s) by lia. apply take_string_app.
Qed.

Lemma TrimRight_app cut s x :
  kept_ends cut s → TrimRight cut (s ++ x)%string = (s ++ TrimRight cut x)%string.
Proof.
  intros [_ (t & c & -> & Hc)]. rewrite !string_app_assoc. by apply (TrimRight_snoc cut t c x).
Qed.

(** What trimming and stripping leave of a line with blanks around it and a
    comment behind it. *)
Lemma strip_line sp1 raw tail sp2 :
  let blank c := Ascii.eqb c " " in
  all_chars blank sp1 = true → all_chars blank sp2 = true → kept_ends blank raw →
  has_char ";" raw = false → (tail = EmptyString ∨ ∃ c, tail = String ";" c) →
  strip_comment (Trim blank (sp1 ++ raw ++ tail ++ sp2)%string) = raw.
Proof.
  intros blank H1 H2 Hk Hraw Htail. rewrite Trim_right, TrimLeft_app by done.
  pose proof Hk as [(c & t & E & Hc) _]. rewrite E, string_app_cons, TrimLeft_stop by done.
  rewrite <- string_app_cons, <- E, TrimRight_app by done.
  apply strip_comment_app; [done|]. destruct Htail as [->|[d ->]].
  - left. by apply TrimRight_all.
  - right. exists (TrimRight blank (d ++ sp2)%string).
    exact (TrimRight_snoc blank EmptyString ";" (d ++ sp2)%string eq_refl).
Qed.

(** ** Tokens *)

Lemma span_app f s t : all_chars f s = true → (t = EmptyString ∨ ∃ c u, t = String c u ∧ f c = false) →
  span_string f (s ++ t)%string = (s, t).
Proof.
  intros H Ht. induction s as [|c s IH].
  - change ((EmptyString ++ t)%string) with t. destruct Ht as [->|(c & u & -> & Hc)]; [done|]. simpl. by rewrite Hc.
  - simpl in H. apply andb_true_iff in H as [Hc H]. rewrite string_app_cons. simpl. by rewrite Hc, IH.
Qed.

Lemma span_split f s : (let '(a, b) := span_string f s in (a ++ b)%string = s ∧ all_chars f a = true ∧
  (b = EmptyString ∨ ∃ c u, b = String c u ∧ f c = false)).
Proof.
  induction s as [|c s IH]; [simpl; eauto|]. simpl. destruct (f c) eqn:Hc.
  - destruct (span_string f s) as [a b]. destruct IH as (E & Ha & Hb). rewrite string_app_cons, E. simpl. by rewrite Hc.
  - split; [done|]. split; [done|]. eauto.
Qed.

(** A parameter as it is written: a key of other characters than a number's, and
    the characters of a number. *)
Definition key_char (c : ascii) : bool :=
  negb (IsValuePart c) && negb (is_space c) && negb (Ascii.eqb c ";") && Ascii.eqb (upper_char c) c.
Definition word_ok (w : string * string) : Prop :=
  w.1 ≠ EmptyString ∧ all_chars key_char w.1 = true ∧ all_chars IsValuePart w.2 = true.

Definition word_text (w : string * string) : string := (w.1 ++ w.2)%string.

(** A run of parameters without blanks between them ([X5Y6]); only the last may
    lack its number. *)
Inductive run_ok : list (string * string) → Prop :=
| run_one w : word_ok w → run_ok [w]
| run_more w ws : word_ok w → w.2 ≠ EmptyString → run_ok ws → run_ok (w :: ws).

Definition run_text (ws : list (string * string)) : string := join_all (map word_text ws).

Lemma key_char_not_value c : key_char c = true → IsValuePart c = false.
Proof. unfold key_char. intros H. by destruct (IsValuePart c). Qed.

Lemma value_char_facts c : IsValuePart c = true → is_space c = false ∧ Ascii.eqb c ";" = false ∧ upper_char c = c.
Proof. destruct c as [[] [] [] [] [] [] [] []]; by vm_compute. Qed.

Lemma run_head ws : run_ok ws → ∃ c t, run_text ws = String c t ∧ IsValuePart c = false.
Proof.
  assert (H : ∀ w ws, word_ok w → ∃ c t, run_text (w :: ws) = String c t ∧ IsValuePart c = false).
  { intros [k v] ws' (Hk & Hc & _). destruct k as [|c k]; [done|]. simpl in Hc. apply andb_true_iff in Hc as [Hc _].
    exists c, (k ++ v ++ run_text ws')%string. split; [|by apply key_char_not_value].
    unfold run_text. simpl. unfold word_text. simpl. by rewrite !string_app_cons, string_app_assoc. }
  intros [w Hw|w ws' Hw _ _]; by apply H.
Qed.

Lemma run_tokens n ws :
  run_ok ws → (String.length (run_text ws) ≤ n)%nat → part_tokens n (run_text ws) = flat_map (λ w, [w.1; w.2]) ws.
Proof.
  intros Hr. revert n. induction Hr as [[k v] (Hk & Hc & Hv)|[k v] ws (Hk & Hc & Hv) Hn Hr IH]; intros n Hlen.
  all: assert (Hkey : all_chars (λ c, negb (IsValuePart c)) k = true)
    by (revert Hc; apply all_chars_impl; intros c H; by rewrite key_char_not_value).
  all: cbn [fst snd] in *.
  - change (run_text [(k, v)]) with ((k ++ v) ++ EmptyString)%string in *. rewrite string_app_nil_r in *.
    destruct k as [|c k]; [done|]. destruct n as [|n]; [simpl in Hlen; lia|]. rewrite string_app_cons. cbn [part_tokens].
    rewrite <- string_app_cons. unfold GetKey, GetVal.
    rewrite span_app; [|done|].
    2: { destruct v as [|d v]; [by left|]. simpl in Hv. apply andb_true_iff in Hv as [Hd _]. right. exists d, v. by rewrite Hd. }
    rewrite <- (string_app_nil_r v) at 1. rewrite span_app by eauto. by destruct n.
  - change (run_text ((k, v) :: ws)) with ((k ++ v) ++ run_text ws)%string in *. rewrite string_app_assoc in *.
    destruct k as [|c k]; [done|]. destruct n as [|n]; [simpl in Hlen; lia|]. rewrite string_app_cons. cbn [part_tokens].
    rewrite <- string_app_cons. unfold GetKey, GetVal.
    rewrite span_app; [|done|].
    2: { destruct v as [|d v]; [done|]. simpl in Hv. apply andb_true_iff in Hv as [Hd _]. right. eexists d, _. by rewrite Hd. }
    rewrite span_app; [|done|].
    2: { right. destruct (run_head ws Hr) as (d & t & -> & Hd). eauto. }
    cbn [flat_map app fst snd]. f_equal. f_equal. apply IH.
    rewrite string_app_cons in Hlen. simpl in Hlen. rewrite !string_length_app in Hlen. lia.
Qed.

(** ** Lines *)

Lemma word_chars (f : ascii → bool) w :
  (∀ c, key_char c = true → f c = true) → (∀ c, IsValuePart c = true → f c = true) → word_ok w →
  all_chars f (word_text w) = true.
Proof.
  intros Hk Hv (_ & H1 & H2). unfold word_text. rewrite all_chars_app. apply andb_true_iff. split.
  - revert H1. by apply all_chars_impl.
  - revert H2. by apply all_chars_impl.
Qed.

Lemma run_chars (f : ascii → bool) ws :
  (∀ c, key_char c = true → f c = true) → (∀ c, IsValuePart c = true → f c = true) → run_ok ws →
  all_chars f (run_text ws) = true.
Proof.
  intros Hk Hv. induction 1 as [w Hw|w ws Hw _ _ IH]; unfold run_text in *; simpl.
  - rewrite string_app_nil_r. by apply word_chars.
  - rewrite all_chars_app. apply andb_true_iff. split; [by apply word_chars|done].
Qed.

Lemma run_no_space ws : run_ok ws → no_space (run_text ws) = true.
Proof.
  apply run_chars; intros c H.
  - unfold key_char in H. by destruct (is_space c); rewrite ?andb_false_r in H.
  - by destruct (value_char_facts c H) as (-> & _).
Qed.

Lemma run_nonempty ws : run_ok ws → run_text ws ≠ EmptyString.
Proof. intros H. by destruct (run_head ws H) as (c & t & -> & _). Qed.

Lemma Fields_runs runs : Forall run_ok runs → Fields (Join " " (map run_text runs)) = map run_text runs.
Proof.
  intros H. apply Fields_Join. apply Forall_map. apply (Forall_impl _ _ _ H). intros ws Hw.
  split; [by apply run_nonempty|by apply run_no_space].
Qed.

(** The tokens of a line of runs are its keys and numbers in order. *)
Lemma line_tokens runs :
  Forall run_ok runs →
  ParseGcodeTokens (Join " " (map run_text runs)) = EmptyString :: flat_map (λ w, [w.1; w.2]) (List.concat runs).
Proof.
  intros H. unfold ParseGcodeTokens. f_equal. rewrite Fields_runs by done.
  induction H as [|ws runs Hw _ IH]; [done|]. cbn [map flat_map List.concat]. rewrite IH, run_tokens by done.
  by rewrite flat_map_app.
Qed.

(** The parameters as the code collects them: the last of a key counts. *)
Definition word_params (ws : list (string * string)) : gmap string string :=
  fold_left (λ m w, <[w.1 := w.2]> m) ws ∅.

Lemma value_no_space v : all_chars IsValuePart v = true → no_space v = true.
Proof. apply all_chars_impl. intros c H. by destruct (value_char_facts c H) as (-> & _). Qed.

Lemma token_params_words m ws :
  Forall word_ok ws → token_params m (flat_map (λ w, [w.1; w.2]) ws) = fold_left (λ m w, <[w.1 := w.2]> m) ws m.
Proof.
  intros H. revert m. induction H as [|w ws (_ & _ & Hv) _ IH]; intros m; [done|].
  cbn [flat_map app token_params fold_left]. rewrite TrimSpace_no_space by by apply value_no_space. apply IH.
Qed.

Lemma run_words ws : run_ok ws → Forall word_ok ws.
Proof. induction 1; by constructor. Qed.

Lemma runs_words runs : Forall run_ok runs → Forall word_ok (List.concat runs).
Proof.
  induction 1 as [|ws runs Hw _ IH]; [constructor|]. apply Forall_app. split; [by apply run_words|done].
Qed.

Lemma kept_raw raw t :
  (∀ c, is_space c = false → Ascii.eqb c " " = false) → ToUpper raw = t → kept_ends is_space t → kept_ends (λ c, Ascii.eqb c " ") raw.
Proof.
  intros Hsp <- [(c & x & E & Hc) (y & d & E' & Hd)].
  assert (Hup : ∀ c, Ascii.eqb (upper_char c) " " = Ascii.eqb c " ") by (intros [[] [] [] [] [] [] [] []]; by vm_compute).
  split.
  - destruct raw as [|a raw]; [done|]. injection E as E1 _. exists a, raw. split; [done|]. rewrite <- Hup, E1. by apply Hsp.
  - assert (Hne : raw ≠ EmptyString) by (by intros ->). destruct (string_snoc raw Hne) as (z & a & ->).
    exists z, a. split; [done|]. rewrite <- Hup.
    assert (Hu : ∀ s t, ToUpper (s ++ t)%string = (ToUpper s ++ ToUpper t)%string).
    { induction s as [|b s IH]; intros u; [done|]. rewrite string_app_cons. simpl. by rewrite IH. }
    rewrite Hu in E'. apply (f_equal rev_string) in E'. rewrite !rev_string_app in E'. injection E' as E' _.
    rewrite E'. by apply Hsp.
Qed.

Lemma kept_Join ws :
  ws ≠ [] → Forall (λ w, w ≠ EmptyString ∧ no_space w = true) ws → kept_ends is_space (Join " " ws).
Proof.
  intros Hne. induction 1 as [|w ws [Hw Hs] Hws IH]; [done|]. destruct ws as [|w' ws].
  - by apply all_chars_kept.
  - apply (kept_ends_app is_space w (String " " EmptyString) (Join " " (w' :: ws))); [by apply all_chars_kept|by apply IH].
Qed.

Lemma runs_ok_words runs :
  Forall run_ok runs → Forall (λ w, w ≠ EmptyString ∧ no_space w = true) (map run_text runs).
Proof.
  intros H. apply Forall_map. apply (Forall_impl _ _ _ H). intros ws Hw.
  split; [by apply run_nonempty|by apply run_no_space].
Qed.

Lemma has_char_ToUpper c s :
  (∀ d, Ascii.eqb (upper_char d) c = Ascii.eqb d c) → has_char c (ToUpper s) = has_char c s.
Proof. intros H. induction s as [|d s IH]; [done|]. simpl. by rewrite H, IH. Qed.

Lemma runs_no_semicolon runs : Forall run_ok runs → has_char ";" (Join " " (map run_text runs)) = false.
Proof.
  induction 1 as [|ws runs Hw Hr IH]; [done|].
  assert (H : has_char ";" (run_text ws) = false).
  { apply has_char_all_chars. apply run_chars; [..|done]; intros c H; apply negb_true_iff.
    - unfold key_char in H. by destruct (Ascii.eqb c ";"); rewrite ?andb_false_r in H.
    - by destruct (value_char_facts c H) as (_ & -> & _). }
  destruct runs as [|ws' runs]; [exact H|].
  change (Join " " (map run_text (ws :: ws' :: runs))) with
    (run_text ws ++ String " " (Join " " (map run_text (ws' :: runs))))%string.
  rewrite has_char_app, H. simpl. exact IH.
Qed.

Section Line.
Context (sp1 raw tail sp2 : string) (runs : list (list (string * string))).
Context (Hsp1 : all_chars (λ c, Ascii.eqb c " ") sp1 = true) (Hsp2 : all_chars (λ c, Ascii.eqb c " ") sp2 = true).
Context (Htail : tail = EmptyString ∨ ∃ c, tail = String ";" c).
Context (Hruns : Forall run_ok runs) (Hne : runs ≠ []).
Context (Hraw : ToUpper raw = Join " " (map run_text runs)).

(** A line of runs, whatever its case, blanks around it and comment. *)
Lemma parse_line :
  let p := ParseDispatchCommandLine (sp1 ++ raw ++ tail ++ sp2)%string in
  p_Command p = token_command (EmptyString :: flat_map (λ w, [w.1; w.2]) (List.concat runs)) ∧
  p_Params p = word_params (List.concat runs).
Proof using All.
  unfold ParseDispatchCommandLine. cbn [p_Command p_Params].
  rewrite strip_line; [|done..| | |done].
  - rewrite Hraw, line_tokens by done. cbn [drop]. split; [done|]. apply token_params_words. by apply runs_words.
  - apply (kept_raw raw _ ltac:(intros [[] [] [] [] [] [] [] []]; by vm_compute) Hraw).
    apply kept_Join; [by destruct runs|]. by apply runs_ok_words.
  - rewrite <- (has_char_ToUpper ";" raw ltac:(intros [[] [] [] [] [] [] [] []]; by vm_compute)), Hraw. by apply runs_no_semicolon.
Qed.

Lemma word_no_space w : word_ok w → no_space (word_text w) = true.
Proof.
  apply word_chars; intros c H.
  - unfold key_char in H. by destruct (is_space c); rewrite ?andb_false_r in H.
  - by destruct (value_char_facts c H) as (-> & _).
Qed.

(** A traditional line is read as the command and the parameters written. *)
Lemma traditional_line (w : string * string) (ws : list (string * string)) :
  List.concat runs = w :: ws → w.1 ≠ "N"%string →
  let p := ParseDispatchCommandLine (sp1 ++ raw ++ tail ++ sp2)%string in
  p_Command p = word_text w ∧ p_Params p = word_params (w :: ws).
Proof using All.
  intros E HN p. destruct parse_line as [Hc Hp]. rewrite E in Hc, Hp. split; [|exact Hp]. fold p in Hc. rewrite Hc.
  unfold token_command. cbn [flat_map app List.length]. rewrite bool_decide_eq_true_2 by (simpl; lia).
  rewrite bool_decide_eq_false_2 by (simpl; intros [= H]; done). cbn [take join_all].
  rewrite string_app_nil_r. apply TrimSpace_no_space. apply word_no_space.
  pose proof (runs_words runs Hruns) as Hw. rewrite E in Hw. by inversion Hw.
Qed.

(** A line with a line number: the command is everything behind the number, so
    that a command with parameters is not found under its name. *)
Lemma numbered_line_joins_parameters (n : string) (ws : list (string * string)) :
  List.concat runs = ("N"%string, n) :: ws →
  p_Command (ParseDispatchCommandLine (sp1 ++ raw ++ tail ++ sp2)%string) = join_all (map word_text ws).
Proof using All.
  intros E. destruct parse_line as [-> _]. rewrite E. unfold token_command. cbn [flat_map app List.length].
  rewrite !bool_decide_eq_true_2 by (simpl; try done; lia). cbn [drop].
  pose proof (runs_words runs Hruns) as Hw. rewrite E in Hw. inversion_clear Hw as [|?? _ Hws]. clear E.
  assert (Hj : join_all (flat_map (λ w : string * string, [w.1; w.2]) ws) = join_all (map word_text ws)).
  { clear Hws. induction ws as [|w ws IH]; [done|]. simpl. rewrite IH. unfold word_text. by rewrite string_app_assoc. }
  rewrite drop_0, Hj. apply TrimSpace_no_space. clear Hj. induction Hws as [|w ws Hw _ IH]; [done|]. simpl.
  unfold no_space in *. rewrite all_chars_app. apply andb_true_iff. split; [by apply word_no_space|done].
Qed.
End Line.

(** ** Extended parameters *)

Lemma string_length_TrimLeft cut s : (String.length (TrimLeft cut s) ≤ String.length s)%nat.
Proof. induction s as [|c s IH]; [done|]. simpl. destruct (cut c); simpl; lia. Qed.

Lemma drop_string_length n s : String.length (drop_string n s) = (String.length s - n)%nat.
Proof. revert s. induction n as [|n IH]; intros [|c s]; simpl; try lia. apply IH. Qed.

Lemma index_byte_bounds i c s :
  0 ≤ i → index_byte_from i c s = -1 ∨ i ≤ index_byte_from i c s < i + slen s.
Proof.
  unfold slen. revert i. induction s as [|d s IH]; intros i Hi; [by left|]. simpl. destruct (Ascii.eqb d c).
  - right. lia.
  - destruct (IH (i + 1)) as [H|H]; [lia|by left|right; lia].
Qed.

(** Every round that goes on consumes a character. *)
Lemma ext_round_consumes s s' :
  ext_round s = inl s' → (String.length (params s') < String.length (params s))%nat.
Proof.
  unfold ext_round. destruct s as [m k p r]. cbn [mode params currentKey results]. destruct m.
  - case_bool_decide as H; [done|]. intros [= <-]. cbn [params]. rewrite drop_string_length.
    destruct (index_byte_bounds 0 "=" p) as [H'|H']; [lia|done|]. unfold slen in H'. lia.
  - destruct p as [|c p]; [done|]. destruct (IsQuote c).
    + case_bool_decide; [done|]. destruct (drop_string _ p) as [|d q] eqn:E; [done|]. intros [= <-]. cbn [params].
      apply (f_equal String.length) in E. rewrite drop_string_length in E.
      pose proof (string_length_TrimLeft is_blank (String d q)) as Hl. simpl in *. lia.
    + case_bool_decide; [done|]. intros [= <-]. cbn [params].
      destruct (index_byte_bounds 0 " " (String c p)) as [H'|H']; [lia|done|].
      pose proof (string_length_TrimLeft is_blank (drop_string (Z.to_nat (IndexByte (String c p) " ") + 1) (String c p))) as Hl.
      rewrite drop_string_length in Hl. unfold slen in H'. cbn [String.length] in *. lia.
Qed.

(** The loop of [ParseExtendedParams] always returns. *)
Lemma ext_leaves s n : slen (params s) < Z.pos n → ∃ r, while n ext_round s = inr r.
Proof.
  intros H. destruct (while_leaves (λ _, True) (λ _, True) (λ s, slen (params s)) n ext_round s) as (r & Hr & _); eauto.
  intros s0 _. destruct (ext_round s0) as [s1|r] eqn:E; [|done]. apply ext_round_consumes in E.
  unfold slen. split; [done|]. lia.
Qed.

(** The rounds from [s] to the result [r]. *)
Inductive ext_runs : ext_state → string + gmap string string → Prop :=
| runs_stop s r : ext_round s = inr r → ext_runs s r
| runs_on s s' r : ext_round s = inl s' → ext_runs s' r → ext_runs s r.

Lemma ext_runs_det s r r' : ext_runs s r → ext_runs s r' → r = r'.
Proof.
  induction 1 as [s r E|s s' r E _ IH]; intros H'; inversion H' as [? ? E1|? ? ? E1 H1]; subst;
    rewrite E in E1; simplify_eq; auto.
Qed.

Lemma rounds_runs k s r : rounds k ext_round s = inr r → ext_runs s r.
Proof.
  revert s. induction k as [|k IH]; intros s; [done|]. simpl. destruct (ext_round s) as [s'|r'] eqn:E.
  - intros H. eapply runs_on; eauto.
  - intros [= ->]. by apply runs_stop.
Qed.

Lemma ParseExtendedParams_runs input r :
  ext_runs (mkExt ReadKey EmptyString (TrimSpace input) ∅) r → ParseExtendedParams input = r.
Proof.
  intros H. unfold ParseExtendedParams.
  destruct (ext_leaves (mkExt ReadKey EmptyString (TrimSpace input) ∅)
    (Pos.of_succ_nat (String.length (TrimSpace input)))) as (r' & E); [unfold slen; cbn [params]; lia|].
  cbn [params]. rewrite E. rewrite while_rounds in E. apply rounds_runs in E. by eapply ext_runs_det.
Qed.

Lemma index_byte_absent c s t i :
  has_char c s = false → index_byte_from i c (s ++ String c t)%string = i + slen s.
Proof.
  unfold slen. revert i. induction s as [|d s IH]; intros i H.
  - change ((EmptyString ++ String c t)%string) with (String c t). cbn [index_byte_from]. rewrite Ascii.eqb_refl. simpl. lia.
  - simpl in H. apply orb_false_iff in H as [Hd H]. rewrite string_app_cons. cbn [index_byte_from]. rewrite Hd, IH by done.
    cbn [String.length]. lia.
Qed.

Lemma index_byte_none c s i : has_char c s = false → index_byte_from i c s = -1.
Proof.
  revert i. induction s as [|d s IH]; intros i H; [done|]. simpl in H. apply orb_false_iff in H as [Hd H].
  cbn [index_byte_from]. by rewrite Hd, IH.
Qed.

(** Cutting a string at a character that it has not had before. *)
Lemma cut_at c s t (i := IndexByte (s ++ String c t)%string c) :
  has_char c s = false →
  bool_decide (i = -1) = false ∧ take_string (Z.to_nat i) (s ++ String c t)%string = s ∧
  drop_string (Z.to_nat i + 1) (s ++ String c t)%string = t.
Proof.
  intros H. unfold i, IndexByte. rewrite index_byte_absent by done. unfold slen.
  replace (Z.to_nat (0 + Z.of_nat (String.length s))) with (String.length s) by lia. split_and!.
  - apply bool_decide_eq_false_2. lia.
  - apply take_string_app.
  - replace (String.length s + 1)%nat with (String.length (s ++ String c EmptyString)%string)
      by (rewrite string_length_app; done).
    replace (s ++ String c t)%string with ((s ++ String c EmptyString) ++ t)%string by (by rewrite string_app_assoc).
    apply drop_string_app.
Qed.

(** A parameter as it may be written. *)
Inductive ext_value := Bare (v : string) | Quoted (q : ascii) (v : string).
Definition ext_content (x : ext_value) : string := match x with Bare v => v | Quoted _ v => v end.
Definition ext_value_text (x : ext_value) : string :=
  match x with Bare v => v | Quoted q v => String q (v ++ String q EmptyString) end.
Definition ext_value_ok (x : ext_value) : Prop :=
  match x with
  | Bare v => ∃ c t, v = String c t ∧ IsQuote c = false ∧ no_space v = true
  | Quoted q v => IsQuote q = true ∧ has_char q v = false
  end.
Definition ext_ok (kv : string * ext_value) : Prop :=
  kv.1 ≠ EmptyString ∧ no_space kv.1 = true ∧ has_char "=" kv.1 = false ∧ ext_value_ok kv.2.
Definition ext_param_text (kv : string * ext_value) : string := (kv.1 ++ String "=" (ext_value_text kv.2))%string.
Definition ext_text (kvs : list (string * ext_value)) : string := Join " " (map ext_param_text kvs).
Definition ext_params (m : gmap string string) (kvs : list (string * ext_value)) : gmap string string :=
  fold_left (λ m kv, <[ToUpper kv.1 := ext_content kv.2]> m) kvs m.

Definition ext_tail (kvs : list (string * ext_value)) : string :=
  match kvs with [] => EmptyString | _ => String " " (ext_text kvs) end.

Lemma ext_text_cons kv kvs : ext_text (kv :: kvs) = (kv.1 ++ String "=" (ext_value_text kv.2 ++ ext_tail kvs))%string.
Proof.
  unfold ext_tail. destruct kvs as [|kv' kvs].
  - rewrite string_app_nil_r. done.
  - change (ext_text (kv :: kv' :: kvs)) with (ext_param_text kv ++ String " " (ext_text (kv' :: kvs)))%string.
    unfold ext_param_text. by rewrite string_app_assoc, string_app_cons.
Qed.

Lemma no_space_blank c s : no_space (String c s) = true → is_blank c = false.
Proof.
  simpl. intros [H%negb_true_iff _]%andb_true_iff. unfold is_blank, is_space in *.
  destruct c as [[] [] [] [] [] [] [] []]; by vm_compute in H |- *.
Qed.

Lemma ext_text_trim kvs : Forall ext_ok kvs → TrimLeft is_blank (ext_text kvs) = ext_text kvs.
Proof.
  intros [|[k x] kvs' (Hk & Hs & _) _]; [done|]. rewrite ext_text_cons. cbn [fst snd] in *. destruct k as [|c k]; [done|].
  rewrite string_app_cons. apply TrimLeft_stop. by eapply no_space_blank.
Qed.

Lemma spaceless_has_char s : no_space s = true → has_char " " s = false.
Proof. intros H. apply has_char_all_chars. revert H. apply all_chars_impl. intros [[] [] [] [] [] [] [] []] H; by vm_compute in H |- *. Qed.

Lemma ext_reads_value key m x kvs r :
  ext_value_ok x → Forall ext_ok kvs →
  ext_runs (mkExt ReadKey key (ext_text kvs) (<[key := ext_content x]> m)) r →
  ext_runs (mkExt ReadVal key (ext_value_text x ++ ext_tail kvs)%string m) r.
Proof.
  intros Hx Hkvs Hr.
  assert (Hnil : kvs = [] → r = inr (<[key := ext_content x]> m)).
  { intros ->. eapply ext_runs_det; [exact Hr|]. by apply runs_stop. }
  destruct x as [v|q v]; cbn [ext_value_text ext_content ext_value_ok] in *.
  - destruct Hx as (c & t & -> & Hq & Hs). pose proof (spaceless_has_char _ Hs) as Hsp.
    destruct kvs as [|kv kvs]; unfold ext_tail.
    + rewrite string_app_nil_r. apply runs_stop. rewrite (Hnil eq_refl).
      unfold ext_round. cbn [mode params currentKey results]. rewrite Hq. unfold IndexByte. rewrite index_byte_none by done.
      by rewrite TrimSpace_no_space.
    + destruct (cut_at " " (String c t) (ext_text (kv :: kvs)) Hsp) as (E1 & E2 & E3).
      eapply runs_on; [|exact Hr]. rewrite string_app_cons in *. unfold ext_round. cbn [mode params currentKey results].
      rewrite Hq, E1, E2, E3, TrimSpace_no_space, ext_text_trim by done. done.
  - destruct Hx as (Hq & Hv). destruct (cut_at q v (ext_tail kvs) Hv) as (E1 & E2 & E3).
    rewrite string_app_cons, string_app_assoc. change ((String q EmptyString ++ ext_tail kvs)%string) with (String q (ext_tail kvs)).
    destruct kvs as [|kv kvs].
    + apply runs_stop. rewrite (Hnil eq_refl). unfold ext_round. cbn [mode params currentKey results].
      by rewrite Hq, E1, E2, E3.
    + eapply runs_on; [|exact Hr]. unfold ext_round. cbn [mode params currentKey results].
      rewrite Hq, E1, E2, E3. unfold ext_tail. cbn [TrimLeft is_blank].
      change (is_blank " ") with true. cbn iota. by rewrite ext_text_trim.
Qed.

Lemma ext_reads kvs key m :
  Forall ext_ok kvs → ext_runs (mkExt ReadKey key (ext_text kvs) m) (inr (ext_params m kvs)).
Proof.
  intros H. revert key m. induction H as [|[k x] kvs (Hk & Hs & He & Hx) Hkvs IH]; intros key m; [by apply runs_stop|].
  rewrite ext_text_cons. cbn [fst snd] in *.
  destruct (cut_at "=" k (ext_value_text x ++ ext_tail kvs) He) as (E1 & E2 & E3).
  eapply runs_on.
  { unfold ext_round. cbn [mode params currentKey results]. by rewrite E1, E2, E3, TrimSpace_no_space. }
  apply ext_reads_value; [done..|]. apply IH.
Qed.

(** ** Extended command lines *)

Lemma strip_comment_keeps s t : has_char ";" s = false → strip_comment (s ++ t)%string = (s ++ strip_comment t)%string.
Proof.
  intros H. pose proof (span_split (λ c, negb (Ascii.eqb c ";")) t) as Ht.
  destruct (span_string _ t) as [a b]. destruct Ht as (<- & Ha & Hb).
  assert (Hn : has_char ";" a = false) by by apply has_char_all_chars.
  assert (Hb' : b = EmptyString ∨ ∃ c, b = String ";" c).
  { destruct Hb as [->|(c & u & -> & Hc%negb_false_iff%Ascii.eqb_eq)]; [by left|]. right. exists u. by rewrite Hc. }
  rewrite <- string_app_assoc, !strip_comment_app by (done || by rewrite has_char_app, H). done.
Qed.

Lemma string_length_ToUpper s : String.length (ToUpper s) = String.length s.
Proof. induction s as [|c s IH]; [done|]. simpl. by rewrite IH. Qed.

Lemma ToUpper_app s t : ToUpper (s ++ t)%string = (ToUpper s ++ ToUpper t)%string.
Proof. induction s as [|c s IH]; [done|]. rewrite !string_app_cons. simpl. by rewrite IH. Qed.

Lemma slice_in s lo hi :
  0 ≤ lo ≤ hi → hi ≤ slen s → slice_string s lo hi = Ret (take_string (Z.to_nat (hi - lo)) (drop_string (Z.to_nat lo) s)).
Proof.
  intros H1 H2. unfold slice_string.
  by rewrite (proj2 (Z.leb_le 0 lo)), (proj2 (Z.leb_le lo hi)), (proj2 (Z.leb_le hi (slen s))) by lia.
Qed.

Lemma slice_string_prefix s t : slice_string (s ++ t)%string 0 (slen s) = Ret s.
Proof.
  rewrite slice_in by (unfold slen; rewrite ?string_length_app; lia). unfold slen. replace (Z.to_nat (_ - 0)) with (String.length s) by lia.
  change (drop_string (Z.to_nat 0) (s ++ t)%string) with (s ++ t)%string. by rewrite take_string_app.
Qed.

Lemma slice_suffix s t : slice_string (s ++ t)%string (slen s) (slen (s ++ t)%string) = Ret t.
Proof.
  rewrite slice_in by (unfold slen; rewrite ?string_length_app; lia). unfold slen. rewrite string_length_app.
  replace (Z.to_nat (Z.of_nat (String.length s))) with (String.length s) by lia.
  rewrite drop_string_app. replace (Z.to_nat _) with (String.length t) by lia.
  rewrite <- (string_app_nil_r t) at 2. by rewrite take_string_app.
Qed.

Lemma ext_value_kept x : ext_value_ok x → kept_ends is_space (ext_value_text x).
Proof.
  destruct x as [v|q v]; cbn [ext_value_ok ext_value_text].
  - intros (c & t & -> & _ & H). by apply all_chars_kept.
  - intros [Hq _]. assert (Hs : is_space q = false) by (revert Hq; clear; by destruct q as [[] [] [] [] [] [] [] []]; vm_compute).
    split; [by exists q, (v ++ String q EmptyString)%string|]. by exists (String q v), q.
Qed.

Lemma ext_text_kept kvs : kvs ≠ [] → Forall ext_ok kvs → kept_ends is_space (ext_text kvs).
Proof.
  intros Hne. induction 1 as [|[k x] kvs (Hk & Hs & _ & Hx) Hkvs IH]; [done|]. cbn [fst snd] in *.
  pose proof (all_chars_kept is_space k Hk Hs) as Kk. destruct kvs as [|kv kvs].
  - apply (kept_ends_app is_space k (String "=" EmptyString) (ext_value_text x)); [done|by apply ext_value_kept].
  - rewrite ext_text_cons. cbn [fst snd].
    replace (k ++ String "=" (ext_value_text x ++ ext_tail (kv :: kvs)))%string with
      (k ++ (String "=" (ext_value_text x ++ String " " EmptyString)) ++ ext_text (kv :: kvs))%string
      by (rewrite !string_app_cons, !string_app_assoc; done).
    apply kept_ends_app; [done|by apply IH].
Qed.

Section Extended.
Context (sp1 raw sp2 cmd : string) (kvs : list (string * ext_value)).
Context (Hsp1 : all_chars (λ c, Ascii.eqb c " ") sp1 = true) (Hsp2 : all_chars (λ c, Ascii.eqb c " ") sp2 = true).
Context (Hcmd : cmd ≠ EmptyString) (Hchars : all_chars key_char cmd = true) (HN : cmd ≠ "N"%string).
Context (Hraw : ToUpper raw = cmd) (Hkvs : Forall ext_ok kvs).

Lemma cmd_word : word_ok (cmd, EmptyString).
Proof using Hcmd Hchars. done. Qed.

Lemma cmd_no_space : no_space cmd = true.
Proof using Hcmd Hchars. pose proof (word_no_space (cmd, EmptyString) cmd_word) as H. unfold word_text in H. by rewrite string_app_nil_r in H. Qed.

Lemma raw_kept : kept_ends (λ c, Ascii.eqb c " ") raw.
Proof using Hcmd Hchars Hraw.
  apply (kept_raw raw cmd ltac:(intros [[] [] [] [] [] [] [] []]; by vm_compute) Hraw).
  apply all_chars_kept; [done|]. exact cmd_no_space.
Qed.

Lemma line_kept : kept_ends (λ c, Ascii.eqb c " ") (raw ++ ext_tail kvs).
Proof using All.
  destruct kvs as [|kv kvs'] eqn:E; [rewrite string_app_nil_r; apply raw_kept|].
  apply (kept_ends_app _ raw (String " " EmptyString) (ext_text (kv :: kvs'))); [apply raw_kept|].
  rewrite <- E in *. destruct (ext_text_kept kvs ltac:(by rewrite E) Hkvs) as [(c & t & H1 & H2) (t' & c' & H3 & H4)].
  assert (Hb : ∀ c, is_space c = false → Ascii.eqb c " " = false) by (intros [[] [] [] [] [] [] [] []]; by vm_compute).
  split; eauto 6.
Qed.

Lemma extended_trim : Trim (λ c, Ascii.eqb c " ") (sp1 ++ (raw ++ ext_tail kvs) ++ sp2)%string = (raw ++ ext_tail kvs)%string.
Proof using All.
  pose proof line_kept as Hk. pose proof Hk as [(c & t & E & Hc) _].
  rewrite Trim_right, TrimLeft_app by done. rewrite E, string_app_cons, TrimLeft_stop by done.
  rewrite <- string_app_cons, <- E, TrimRight_app, TrimRight_all by done. apply string_app_nil_r.
Qed.

Lemma extended_command :
  p_Command (ParseDispatchCommandLine (sp1 ++ (raw ++ ext_tail kvs) ++ sp2)%string) = cmd.
Proof using All.
  unfold ParseDispatchCommandLine. cbn [p_Command]. rewrite extended_trim.
  assert (Hsemi : has_char ";" raw = false).
  { rewrite <- (has_char_ToUpper ";" raw ltac:(intros [[] [] [] [] [] [] [] []]; by vm_compute)), Hraw.
    apply has_char_all_chars. revert Hchars. apply all_chars_impl. intros c H. unfold key_char in H.
    by destruct (Ascii.eqb c ";"); rewrite ?andb_false_r in H. }
  rewrite strip_comment_keeps, ToUpper_app, Hraw by done.
  assert (Htail : ToUpper (strip_comment (ext_tail kvs)) = EmptyString ∨ ∃ t, ToUpper (strip_comment (ext_tail kvs)) = String " " t).
  { unfold ext_tail. destruct kvs as [|p l]; [by left|]. right.
    exists (ToUpper (strip_comment (ext_text (p :: l)))).
    exact (f_equal ToUpper (strip_comment_keeps (String " " EmptyString) (ext_text (p :: l)) eq_refl)). }
  unfold ParseGcodeTokens. rewrite Fields_word by (done || apply cmd_no_space). cbn [flat_map].
  assert (Ht : part_tokens (String.length cmd) cmd = [cmd; EmptyString]).
  { pose proof (run_tokens (String.length cmd) [(cmd, EmptyString)] (run_one _ cmd_word)) as H.
    unfold run_text, word_text in H. cbn [map join_all fst snd] in H. rewrite !string_app_nil_r in H. by apply H. }
  rewrite Ht. unfold token_command. cbn [app List.length]. rewrite bool_decide_eq_true_2 by (simpl; lia).
  rewrite bool_decide_eq_false_2 by (simpl; intros [= H]; done). cbn [take join_all].
  rewrite !string_app_nil_r. apply TrimSpace_no_space. exact cmd_no_space.
Qed.

Lemma extended_raw m : GetRawCommandParameters (mkParams m (raw ++ ext_tail kvs) cmd) = Ret (ext_text kvs).
Proof using Hraw Hkvs.
  assert (Hlen : slen cmd = slen raw) by (unfold slen; by rewrite <- Hraw, string_length_ToUpper).
  unfold GetRawCommandParameters. cbn [Command Commandline]. rewrite Hlen, slice_string_prefix. cbn [mbind go_bind].
  rewrite bool_decide_eq_true_2 by done.
  assert (Hd : drop_string (Z.to_nat (slen raw)) (raw ++ ext_tail kvs)%string = ext_tail kvs)
    by (unfold slen; rewrite Nat2Z.id; apply drop_string_app).
  rewrite !Hd. clear Hd. unfold ext_tail. destruct kvs as [|kv kvs'] eqn:E.
  { by rewrite string_app_nil_r, Z.leb_refl. }
  change (is_space_rune " ") with true. cbn iota. rewrite <- E in *.
  assert (Hpos : (0 < String.length (ext_text kvs))%nat).
  { destruct (ext_text_kept kvs ltac:(by rewrite E) Hkvs) as [(c & t & -> & _) _]. simpl. lia. }
  assert (Hl : slen (raw ++ String " " (ext_text kvs))%string = slen raw + 1 + slen (ext_text kvs))
    by (unfold slen; rewrite string_length_app; cbn [String.length]; lia).
  rewrite !(proj2 (Z.leb_gt _ _)) by (rewrite Hl; unfold slen in *; lia).
  replace (raw ++ String " " (ext_text kvs))%string with ((raw ++ String " " EmptyString) ++ ext_text kvs)%string
    by (by rewrite string_app_assoc).
  replace (slen raw + 1) with (slen (raw ++ String " " EmptyString)%string)
    by (unfold slen; rewrite string_length_app; cbn [String.length]; lia).
  apply slice_suffix.
Qed.

Lemma extended_parse : ParseExtendedParams (ext_text kvs) = inr (ext_params ∅ kvs).
Proof using Hkvs.
  apply ParseExtendedParams_runs.
  assert (Et : TrimSpace (ext_text kvs) = ext_text kvs).
  { destruct kvs as [|kv kvs'] eqn:E; [done|]. rewrite TrimSpace_Trim. apply Trim_kept. by apply ext_text_kept. }
  rewrite Et. by apply ext_reads.
Qed.

(** An extended line is read as the command and, through its raw parameters, the
    parameters written. *)
Lemma extended_line :
  let p := ParseDispatchCommandLine (sp1 ++ (raw ++ ext_tail kvs) ++ sp2)%string in
  p_Command p = cmd ∧
  ∃ text, GetRawCommandParameters (mkParams (p_Params p) (OriginalLine p) (p_Command p)) = Ret text ∧
    ParseExtendedParams text = inr (ext_params ∅ kvs).
Proof using All.
  intros p. assert (El : OriginalLine p = (raw ++ ext_tail kvs)%string) by apply extended_trim.
  assert (Ec : p_Command p = cmd) by apply extended_command. split; [exact Ec|]. exists (ext_text kvs).
  rewrite El, Ec. split; [apply extended_raw|apply extended_parse].
Qed.
End Extended.

(** ** No line makes the extraction of the raw parameters panic *)

Lemma join_all_app ws ws' : join_all (ws ++ ws') = (join_all ws ++ join_all ws')%string.
Proof. induction ws as [|w ws IH]; [done|]. simpl. by rewrite IH, string_app_assoc. Qed.

Lemma part_tokens_length n s : (String.length (join_all (part_tokens n s)) ≤ String.length s)%nat.
Proof.
  revert s. induction n as [|n IH]; intros s; [simpl; lia|]. destruct s as [|c s]; [simpl; lia|].
  cbn [part_tokens]. pose proof (span_split (λ c, negb (IsValuePart c)) (String c s)) as Hk. unfold GetKey.
  destruct (span_string _ (String c s)) as [k r]. destruct Hk as [<- _].
  pose proof (span_split IsValuePart r) as Hv. unfold GetVal. destruct (span_string IsValuePart r) as [v r'].
  destruct Hv as [<- _]. cbn [join_all]. rewrite !string_length_app. specialize (IH r'). lia.
Qed.

Lemma Fields_length s : (String.length (join_all (Fields s)) ≤ String.length s)%nat.
Proof.
  induction s as [|c s IH]; [done|]. cbn [Fields]. destruct (is_space c); [simpl; lia|]. destruct s as [|d s]; [simpl; lia|].
  destruct (is_space d).
  - cbn [join_all]. rewrite string_length_app. cbn [String.length] in *. lia.
  - destruct (Fields (String d s)) as [|w ws]; [simpl; lia|]. cbn [join_all] in *. rewrite string_app_cons. cbn [String.length] in *. lia.
Qed.

Lemma tokens_length s : (String.length (join_all (ParseGcodeTokens s)) ≤ String.length s)%nat.
Proof.
  pose proof (Fields_length s) as H. unfold ParseGcodeTokens. cbn [join_all].
  rewrite string_length_app. cbn [String.length Nat.add]. etrans; [|exact H]. clear H.
  induction (Fields s) as [|w ws IH]; [done|]. cbn [flat_map join_all]. rewrite join_all_app, !string_length_app.
  pose proof (part_tokens_length (String.length w) w). lia.
Qed.

Lemma rev_string_length s : String.length (rev_string s) = String.length s.
Proof. induction s as [|c s IH]; [done|]. rewrite rev_string_cons, string_length_app, IH. simpl. lia. Qed.

Lemma TrimSpace_length s : (String.length (TrimSpace s) ≤ String.length s)%nat.
Proof.
  rewrite TrimSpace_Trim. unfold Trim. rewrite rev_string_length. etrans; [apply string_length_TrimLeft|].
  rewrite rev_string_length. apply string_length_TrimLeft.
Qed.

Lemma command_length line :
  (String.length (p_Command (ParseDispatchCommandLine line)) ≤ String.length (OriginalLine (ParseDispatchCommandLine line)))%nat.
Proof.
  unfold ParseDispatchCommandLine. cbn [p_Command OriginalLine]. set (t := Trim _ line).
  assert (Ht : (String.length (strip_comment t) ≤ String.length t)%nat).
  { pose proof (span_split (λ c, negb (Ascii.eqb c ";")) t) as Hs.
    destruct (span_string _ t) as [a b]. destruct Hs as (<- & Ha & Hb). rewrite strip_comment_app.
    - rewrite string_length_app. lia.
    - by apply has_char_all_chars.
    - destruct Hb as [->|(c & u & -> & Hc%negb_false_iff%Ascii.eqb_eq)]; [by left|]. right. exists u. by rewrite Hc. }
  etrans; [|exact Ht]. rewrite <- (string_length_ToUpper (strip_comment t)). etrans; [|apply tokens_length].
  set (parts := ParseGcodeTokens _). unfold token_command. case_bool_decide; [|simpl; lia].
  assert (H1 : ∀ l1 l2, l1 ++ l2 = parts → (String.length (TrimSpace (join_all l1)) ≤ String.length (join_all parts))%nat
     ∧ (String.length (TrimSpace (join_all l2)) ≤ String.length (join_all parts))%nat).
  { intros l1 l2 <-. rewrite join_all_app, string_length_app.
    pose proof (TrimSpace_length (join_all l1)). pose proof (TrimSpace_length (join_all l2)). lia. }
  destruct (H1 _ _ (take_drop 3 parts)) as [Htake Hdrop]. case_bool_decide; [exact Hdrop|exact Htake].
Qed.

Lemma last_index_bounds i last c s : last < i → last_index_from i last c s < i + slen s.
Proof.
  unfold slen. revert i last. induction s as [|d s IH]; intros i last H; [simpl; lia|]. cbn [last_index_from].
  destruct (Ascii.eqb d c); (eapply Z.lt_le_trans; [apply IH; lia|cbn [String.length]; lia]).
Qed.

(** Reading the raw parameters of a command that was parsed from any line never slices
    out of range, whatever comment, checksum, line number or white space the line has. *)
Theorem raw_parameters_total (line : string) (m : gmap string string) :
  let p := ParseDispatchCommandLine line in
  returns (GetRawCommandParameters (mkParams m (OriginalLine p) (p_Command p))) = true.
Proof.
  intros p. pose proof (command_length line) as Hlen. fold p in Hlen. unfold GetRawCommandParameters. cbn [Command Commandline].
  set (l := OriginalLine p) in *. set (cmd := p_Command p) in *.
  rewrite slice_in by (unfold slen; lia). cbn [mbind go_bind].
  destruct (if bool_decide _ then _ else _) as [a b] eqn:E.
  assert (Ha : 0 ≤ a ∧ b ≤ slen l).
  { case_bool_decide; injection E as <- <-; [unfold slen; lia|]. split.
    - destruct (0 <=? _) eqn:Hi; unfold slen in *; lia.
    - destruct (_ && _); [|lia]. pose proof (last_index_bounds 0 (-1) "*" l ltac:(lia)). unfold LastIndexByte. lia. }
  clear E. set (a' := match drop_string (Z.to_nat a) l with String c _ => if is_space_rune c then a + 1 else a | _ => a end).
  assert (Ha' : 0 ≤ a') by (unfold a'; destruct (drop_string _ l); [lia|]; destruct (is_space_rune _); lia).
  destruct (slen l <=? a') eqn:E1; [done|]. destruct (b <=? a') eqn:E2; [done|]. by rewrite slice_in by lia.
Qed.

(** ** Examples of the hypotheses *)

Definition demo_runs : list (list (string * string)) :=
  [[("G", "1")]; [("X", "10"); ("Y", "-3.5")]; [("F", "300")]]%string.

Lemma demo_runs_ok : Forall run_ok demo_runs.
Proof. repeat constructor; by vm_compute. Qed.

Definition demo_kvs : list (string * ext_value) :=
  [("NAME", Quoted "'" "a; b=c"); ("z", Bare "0.1")]%string.

Lemma demo_kvs_ok : Forall ext_ok demo_kvs.
Proof. repeat constructor; try done. by exists "0"%char, ".1"%string. Qed.

(** A numbered line, as a host that counts its lines sends it. *)
Example numbered_G1 : p_Command (ParseDispatchCommandLine "N10 G1 X5"%string) = "G1X5"%string.
Proof. reflexivity. Qed.
