(* ===== verification/Gcode.v ===== *)
(** * Dispatching G-code

    [src/internal/pkg/gcode/dispatch_runtime.go], [dispatch_command.go] and
    [dispatcher.go]: the tables of handlers, the commands chosen by a parameter
    (mux commands), and running a script line by line.  Handlers of other modules
    are named by [H] and run by the parameter [run] on the whole store, the
    dispatcher and the rest [U] of the program; the host is a set of operations on
    the same store.  The responses are kept in order.  [depth] bounds the nesting of
    handler calls, as the stack does.

    [MuxCommands] holds [container/list] values by copy: removing an element from
    such a copy does not unlink it, so that [Cmd_mux] reads the key and the values
    and leaves them. *)

From S2P Require Import Prelude GoFloat GoStrings GoState GoParseFloat GcodeParse.
From Stdlib Require Import Ascii String.

(** ** Commands *)

Record DispatchCommand := mkCmd { cmd_params : CommandParams; Need_ack : bool }.

Definition NewDispatchCommand (command commandline : string) (params : gmap string string) (needAck : bool) : DispatchCommand :=
  mkCmd (mkParams params commandline command) needAck.

(** The commands that the dispatcher registers itself. *)
Inductive own_command := M110 | M115 | M117 | RESTART | FIRMWARE_RESTART | ECHO | STATUS | HELP.

Definition own_name (c : own_command) : string :=
  match c with
  | M110 => "M110" | M115 => "M115" | M117 => "M117" | RESTART => "RESTART"
  | FIRMWARE_RESTART => "FIRMWARE_RESTART" | ECHO => "ECHO" | STATUS => "STATUS" | HELP => "HELP"
  end.
Definition own_commands : list own_command := [M110; M115; M117; RESTART; FIRMWARE_RESTART; ECHO; STATUS; HELP].
Definition own_help (c : own_command) : string :=
  match c with
  | RESTART => "Reload config file and restart host software"
  | FIRMWARE_RESTART => "Restart firmware, host, and reload config"
  | STATUS => "Report the printer status"
  | HELP => "Report the list of available extended G-Code commands"
  | _ => ""
  end.

(** Who handles a command, and whether the handler is wrapped for extended
    parameters ([wrapExtendedCommand]). *)
Inductive target (H : Type) := External (h : H) | Mux (cmd : string) | Own (c : own_command).
Arguments External {H} h.
Arguments Mux {H} cmd.
Arguments Own {H} c.
Record handler (H : Type) := mkHandler { extended : bool; callee : target H }.
Arguments mkHandler {H} extended callee.
Arguments extended {H} h.
Arguments callee {H} h.

(** ** The dispatcher *)

Record Dispatcher (H : Type) := mkDispatcher {
  BaseHandlers : gmap string (handler H);
  ReadyHandlers : gmap string (handler H);
  MuxCommands : gmap string (string * gmap string H);
  Help : gmap string string;
  active_ready : bool;                       (* activeHandlers is ReadyHandlers *)
  isPrinterReady : bool;
  isFileInput : bool;
  responses : list string
}.
Arguments mkDispatcher {H}.
Arguments BaseHandlers {H} d.
Arguments ReadyHandlers {H} d.
Arguments MuxCommands {H} d.
Arguments Help {H} d.
Arguments active_ready {H} d.
Arguments isPrinterReady {H} d.
Arguments isFileInput {H} d.
Arguments responses {H} d.

Section Updates.
Context {H : Type}.
Definition set_tables (b r : gmap string (handler H)) (d : Dispatcher H) : Dispatcher H :=
  mkDispatcher b r (MuxCommands d) (Help d) (active_ready d) (isPrinterReady d) (isFileInput d) (responses d).
Definition set_mux (m : gmap string (string * gmap string H)) (d : Dispatcher H) : Dispatcher H :=
  mkDispatcher (BaseHandlers d) (ReadyHandlers d) m (Help d) (active_ready d) (isPrinterReady d) (isFileInput d) (responses d).
Definition set_help (cmd desc : string) (d : Dispatcher H) : Dispatcher H :=
  mkDispatcher (BaseHandlers d) (ReadyHandlers d) (MuxCommands d) (<[cmd := desc]> (Help d)) (active_ready d)
    (isPrinterReady d) (isFileInput d) (responses d).
Definition SetReady (ready : bool) (d : Dispatcher H) : Dispatcher H :=
  mkDispatcher (BaseHandlers d) (ReadyHandlers d) (MuxCommands d) (Help d) ready (isPrinterReady d) (isFileInput d) (responses d).
Definition set_printer_ready (ready : bool) (d : Dispatcher H) : Dispatcher H :=
  mkDispatcher (BaseHandlers d) (ReadyHandlers d) (MuxCommands d) (Help d) (active_ready d) ready (isFileInput d) (responses d).
Definition add_response (msg : string) (d : Dispatcher H) : Dispatcher H :=
  mkDispatcher (BaseHandlers d) (ReadyHandlers d) (MuxCommands d) (Help d) (active_ready d) (isPrinterReady d)
    (isFileInput d) (responses d ++ [msg]).
Definition ActiveHandlers (d : Dispatcher H) : gmap string (handler H) :=
  if active_ready d then ReadyHandlers d else BaseHandlers d.

(** [DispatchRuntime.RegisterCommand]: without a handler the command is removed and
    its handler returned. *)
Definition RegisterCommand (cmd : string) (h : option (target H)) (whenNotReady : bool) (desc : string)
    (d : Dispatcher H) : go (option (handler H) * Dispatcher H) :=
  match h with
  | None =>
      Ret (ReadyHandlers d !! cmd, set_tables (delete cmd (BaseHandlers d)) (delete cmd (ReadyHandlers d)) d)
  | Some t =>
      if bool_decide (is_Some (ReadyHandlers d !! cmd)) then Panic "gcode command already registered"
      else
        let traditional := IsTraditionalGCode cmd in
        if negb traditional && negb (IsCommandValid cmd) then Panic "Can't register command: invalid name"
        else
          let wrapped := mkHandler (negb traditional) t in
          let d := set_tables (if whenNotReady then <[cmd := wrapped]> (BaseHandlers d) else BaseHandlers d)
                     (<[cmd := wrapped]> (ReadyHandlers d)) d in
          Ret (None, if bool_decide (desc = EmptyString) then d else set_help cmd desc d)
  end.

(** [DispatchRuntime.RegisterMuxCommand]. *)
Definition runtime_RegisterMuxCommand (cmd key value : string) (h : H) (d : Dispatcher H) : go (Dispatcher H) :=
  let '(prevKey, prevValues) := default (key, ∅) (MuxCommands d !! cmd) in
  if bool_decide (prevKey = key) then
    if bool_decide (is_Some (prevValues !! value)) then Panic "mux command already registered"
    else Ret (set_mux (<[cmd := (prevKey, <[value := h]> prevValues)]> (MuxCommands d)) d)
  else Panic "mux command may have only one key".

(** [Dispatcher.Register_mux_command]. *)
Definition Register_mux_command (cmd key value : string) (h : H) (desc : string) (d : Dispatcher H) : go (Dispatcher H) :=
  d ← (if bool_decide (is_Some (MuxCommands d !! cmd)) then Ret d
       else r ← RegisterCommand cmd (Some (Mux cmd)) false desc d; Ret r.2);
  runtime_RegisterMuxCommand cmd key value h d.

(** [Dispatcher.ReplaceCommand]. *)
Definition ReplaceCommand (cmd : string) (h : H) (whenNotReady : bool) (desc : string) (d : Dispatcher H)
    : go (option (handler H) * Dispatcher H) :=
  r ← RegisterCommand cmd None whenNotReady desc d;
  r' ← RegisterCommand cmd (Some (External h)) whenNotReady desc r.2;
  Ret (r.1, r'.2).

Definition empty_dispatcher (file : bool) : Dispatcher H := mkDispatcher ∅ ∅ ∅ ∅ false false file [].

(** [NewDispatcher]. *)
Definition NewDispatcher (file : bool) : go (Dispatcher H) :=
  range (λ d c, r ← RegisterCommand (own_name c) (Some (Own c)) true (own_help c) d; Ret r.2) (empty_dispatcher file) own_commands.
End Updates.

(** ** Running commands *)

(** What the host offers, on the store [S]. *)
Class DispatcherHost (S : Type) := {
  InvokeShutdown : string → M S unit;
  SendEvent : string → option f64 → M S unit;
  RequestExit : string → M S unit;
  StateMessage : M S string;
  Get_last_move_time : M S f64;
  Dwell : f64 → M S unit;
  Wait_moves : M S unit;
  Lock : M S unit;
  Unlock : M S unit
}.

(** [defer cleanup] around [m]. *)
Definition deferring {S A} (m : M S A) (cleanup : M S unit) : M S A :=
  a ← recovering m (λ w, cleanup;; panic w);
  cleanup;;
  mret a.

Fixpoint join_with (sep : string) (ws : list string) : string :=
  match ws with
  | [] => EmptyString
  | [w] => w
  | w :: ws => (w ++ sep ++ join_with sep ws)%string
  end.
Definition newline : ascii := ascii_of 10.
Definition newline_text : string := String newline EmptyString.

(** [fmt.Sprintf("%-10s: %s", cmd, help)]. *)
Definition help_line (cmd help : string) : string :=
  (cmd ++ String.concat "" (repeat " "%string (10 - String.length cmd)) ++ ": " ++ help)%string.

Section Dispatch.
Context {H U : Type} `{!DispatcherHost (Dispatcher H * U)}.
Local Abbreviation Store := (Dispatcher H * U)%type.
(** A handler of another module; it may answer the command itself. *)
Context (run : H → DispatchCommand → M Store (DispatchCommand * option string)).
(** The version reported by M115, and the order in which its two entries are met. *)
Context (version : string) (name_first : bool).

Definition self : M Store (Dispatcher H) := gets fst.
Definition upd (f : Dispatcher H → Dispatcher H) : M Store unit := modify (λ s, (f s.1, s.2)).

Definition Respond_raw (msg : string) : M Store unit := upd (add_response msg).
Definition Respond_info (msg : string) (log : bool) : M Store unit :=
  if log then Respond_raw (join_with (newline_text ++ " // ") (map TrimSpace (Split newline (TrimSpace msg))))
  else mret tt.
Definition Respond_error (msg : string) : M Store unit :=
  let lines := Split newline (TrimSpace msg) in
  (if bool_decide (1 < List.length lines)%nat
   then Respond_info ("[" ++ join_with " " lines ++ "]" ++ newline_text)%string true else mret tt);;
  Respond_raw ("!! " ++ TrimSpace (default EmptyString (lines !! 0%nat)))%string;;
  d ← self;
  if isFileInput d then RequestExit "error_exit" else mret tt.
Definition Respond_state (state : string) : M Store unit := Respond_info ("project state: " ++ state)%string true.

(** [DispatchCommand.Ack]. *)
Definition Ack (msg : string) (gcmd : DispatchCommand) : M Store (DispatchCommand * bool) :=
  if Need_ack gcmd then
    Respond_raw (if bool_decide (msg = EmptyString) then "ok" else "ok " ++ msg)%string;;
    mret (mkCmd (cmd_params gcmd) false, true)
  else mret (gcmd, false).

Definition Request_restart (result : string) : M Store unit :=
  d ← self;
  (if isPrinterReady d then
     printTime ← Get_last_move_time;
     SendEvent "gcode:request_restart" (Some printTime);;
     Dwell (f_lit 1 2);;
     Wait_moves
   else mret tt);;
  RequestExit result.

Definition Cmd_M115 (gcmd : DispatchCommand) : M Store DispatchCommand :=
  let name := "FIRMWARE_NAME:project "%string in
  let ver := ("FIRMWARE_VERSION:" ++ version ++ " ")%string in
  let msg := if name_first then (name ++ ver)%string else (ver ++ name)%string in
  r ← Ack msg gcmd;
  (if (r : DispatchCommand * bool).2 then mret tt else Respond_info msg true);;
  mret (r : DispatchCommand * bool).1.

Definition Cmd_STATUS : M Store unit :=
  d ← self;
  if isPrinterReady d then Respond_state "Ready"
  else msg ← StateMessage; panic (msg ++ newline_text ++ " state: Not ready")%string.

Definition Cmd_HELP : M Store unit :=
  d ← self;
  let keys := sort_strings (map fst (map_to_list (ActiveHandlers d))) in
  let lines := omap (λ cmd, let h := default EmptyString (Help d !! cmd) in
    if bool_decide (h = EmptyString) then None else Some (help_line cmd h)) keys in
  Respond_info (join_with newline_text
    ((if isPrinterReady d then [] else ["Printer is not ready - not all commands available."%string]) ++
     ["Available extended commands:"%string] ++ lines)) true.

Definition Cmd_mux (command : string) (gcmd : DispatchCommand) : M Store (DispatchCommand * option string) :=
  d ← self;
  match MuxCommands d !! command with
  | None => panic "nil pointer dereference"
  | Some (key, values) =>
      keyParam ← lift (Get (cmd_params gcmd) key (if bool_decide (is_Some (values !! EmptyString)) then Nil else Sentinel));
      match values !! (keyParam : string) with
      | None => panic "The value is not valid"
      | Some h => run h gcmd
      end
  end.

(** [wrapExtendedCommand]: the parameters are read again from the raw text; when
    that fails there are none. *)
Definition extendParams (gcmd : DispatchCommand) : go DispatchCommand :=
  text ← GetRawCommandParameters (cmd_params gcmd);
  Ret (mkCmd (mkParams (match ParseExtendedParams text with inr m => m | inl _ => ∅ end)
    (Commandline (cmd_params gcmd)) (Command (cmd_params gcmd))) (Need_ack gcmd)).

Definition with_command (cmd : string) (gcmd : DispatchCommand) : DispatchCommand :=
  mkCmd (mkParams (Params (cmd_params gcmd)) (Commandline (cmd_params gcmd)) cmd) (Need_ack gcmd).

(** [Dispatcher.Cmd_default], given how handlers are called.  [strings.Contains(cmd, "")]
    always holds, so that the branches behind it are never taken. *)
Definition Cmd_default (call : handler H → DispatchCommand → M Store (DispatchCommand * option string))
    (gcmd : DispatchCommand) : M Store (DispatchCommand * option string) :=
  let cmd := Command (cmd_params gcmd) in
  d ← self;
  if bool_decide (cmd = "M105"%string) then r ← Ack "T:0" gcmd; mret ((r : DispatchCommand * bool).1, None)
  else if bool_decide (cmd = "M21"%string) then mret (gcmd, None)
  else if negb (isPrinterReady d) then mret (gcmd, None)
  else
    let realcmd := default EmptyString (Split " " cmd !! 0%nat) in
    match (if bool_decide (realcmd ∈ ["M117"; "M118"; "M23"]%string) then ActiveHandlers d !! realcmd else None) with
    | Some h => call h (with_command realcmd gcmd)
    | None => mret (gcmd, None)
    end.

Definition call_own (call : handler H → DispatchCommand → M Store (DispatchCommand * option string)) (c : own_command)
    (gcmd : DispatchCommand) : M Store (DispatchCommand * option string) :=
  match c with
  | M110 => mret (gcmd, None)
  | M115 => gcmd ← Cmd_M115 gcmd; mret (gcmd, None)
  | M117 => r ← Cmd_default call gcmd; mret ((r : DispatchCommand * option string).1, None)
  | RESTART => Request_restart "restart";; mret (gcmd, None)
  | FIRMWARE_RESTART => Request_restart "firmware_restart";; mret (gcmd, None)
  | ECHO => Respond_info (Commandline (cmd_params gcmd)) true;; mret (gcmd, None)
  | STATUS => Cmd_STATUS;; mret (gcmd, None)
  | HELP => Cmd_HELP;; mret (gcmd, None)
  end.

(** Calling a handler, at most [depth] calls deep. *)
Fixpoint call_handler (depth : nat) (h : handler H) (gcmd : DispatchCommand) : M Store (DispatchCommand * option string) :=
  match depth with
  | O => panic "stack overflow"
  | S depth =>
      gcmd ← (if extended h then lift (extendParams gcmd) else mret gcmd);
      r ← match callee h with
          | External f => run f gcmd
          | Mux cmd => Cmd_mux cmd gcmd
          | Own c => call_own (call_handler depth) c gcmd
          end;
      match (r : DispatchCommand * option string).2 with
      | Some err => if extended h then panic err else mret r
      | None => mret r
      end
  end.

Definition handleDispatchError (command err : string) : M Store unit :=
  let msg := ("Internal error on command: " ++ command ++ " " ++ newline_text)%string in
  InvokeShutdown msg;;
  Respond_error msg;;
  panic err.

(** One round of [ProcessCommands]. *)
Definition process_line (depth : nat) (needAck : bool) (line : string) : M Store unit :=
  let parsed := ParseDispatchCommandLine line in
  let gcmd := NewDispatchCommand (p_Command parsed) (OriginalLine parsed) (p_Params parsed) needAck in
  d ← self;
  r ← match ActiveHandlers d !! p_Command parsed with
      | None => Cmd_default (call_handler depth) gcmd
      | Some h => call_handler depth h gcmd
      end;
  match (r : DispatchCommand * option string).2 with
  | Some err => handleDispatchError (p_Command parsed) err
  | None => Ack EmptyString (r : DispatchCommand * option string).1;; mret tt
  end.

Definition ProcessCommands (depth : nat) (commands : list string) (needAck : bool) : M Store unit :=
  mfor commands (process_line depth needAck).

Definition Run_script_from_command (depth : nat) (script : string) : M Store unit :=
  ProcessCommands depth (Split newline script) false.

Definition Run_script (depth : nat) (script : string) : M Store unit :=
  let cancel := bool_decide (script = "CANCEL_PRINT"%string) in
  (if cancel then SendEvent "project:pre_cancel" None else mret tt);;
  Lock;;
  deferring (ProcessCommands depth (Split newline script) false)
    (Unlock;; if cancel then SendEvent "project:post_cancel" None else mret tt).

Definition Handle_shutdown : M Store unit :=
  d ← self;
  if negb (isPrinterReady d) then mret tt
  else upd (SetReady false);; upd (set_printer_ready false);; Respond_state "Shutdown".
Definition Handle_disconnect : M Store unit := Respond_state "Disconnect".
Definition Handle_ready : M Store unit :=
  upd (SetReady true);; upd (set_printer_ready true);; Respond_state "Ready".
End Dispatch.
