(* ===== verification/GcodeThy.v ===== *)
(** * Theorems on dispatching G-code

    A script made of printed command lines runs the handlers of its commands in
    order with the parameters that were printed, if no name of an extended command has a
    digit ([script_runs_commands], [digit_ends_name]); while the
    printer is not ready only commands registered for that time are found
    ([not_ready_runs_base_commands]).  [M117] calls itself until the stack is
    exhausted ([M117_overflows]). *)

From S2P Require Import Prelude GoFloat GoStrings GoState GoParseFloat GcodeParse GcodeParseThy Gcode.
From Stdlib Require Import Ascii String.

(** ** Scripts *)

(** A command line as it may be written: blanks, either case, a comment. *)
Inductive gline :=
| Traditional (sp1 raw tail sp2 : string) (runs : list (list (string * string))) (w : string * string) (ws : list (string * string))
| ExtendedLine (sp1 raw sp2 cmd : string) (kvs : list (string * ext_value)).

Definition line_text (l : gline) : string :=
  match l with
  | Traditional sp1 raw tail sp2 _ _ _ => sp1 ++ raw ++ tail ++ sp2
  | ExtendedLine sp1 raw sp2 _ kvs => sp1 ++ (raw ++ ext_tail kvs) ++ sp2
  end%string.
Definition line_command (l : gline) : string :=
  match l with Traditional _ _ _ _ _ w _ => word_text w | ExtendedLine _ _ _ cmd _ => cmd end.
Definition line_params (l : gline) : gmap string string :=
  match l with Traditional _ _ _ _ _ w ws => word_params (w :: ws) | ExtendedLine _ _ _ _ kvs => ext_params ∅ kvs end.
Definition line_extended (l : gline) : bool := match l with Traditional _ _ _ _ _ _ _ => false | ExtendedLine _ _ _ _ _ => true end.

Definition blanks (s : string) : Prop := all_chars (λ c, Ascii.eqb c " ") s = true.
Definition line_ok (l : gline) : Prop :=
  has_char newline (line_text l) = false ∧
  match l with
  | Traditional sp1 raw tail sp2 runs w ws =>
      blanks sp1 ∧ blanks sp2 ∧ (tail = EmptyString ∨ ∃ c, tail = String ";" c) ∧ Forall run_ok runs ∧
      ToUpper raw = Join " " (map run_text runs) ∧ List.concat runs = w :: ws ∧ w.1 ≠ "N"%string
  | ExtendedLine sp1 raw sp2 cmd kvs =>
      blanks sp1 ∧ blanks sp2 ∧ cmd ≠ EmptyString ∧ all_chars key_char cmd = true ∧ cmd ≠ "N"%string ∧
      ToUpper raw = cmd ∧ Forall ext_ok kvs
  end.

(** The command that a handler is called with for a line. *)
Definition line_cmd (l : gline) : DispatchCommand :=
  NewDispatchCommand (line_command l) (OriginalLine (ParseDispatchCommandLine (line_text l))) (line_params l) false.

Lemma line_parsed l :
  line_ok l →
  let p := ParseDispatchCommandLine (line_text l) in
  p_Command p = line_command l ∧
  (if line_extended l then extendParams (NewDispatchCommand (p_Command p) (OriginalLine p) (p_Params p) false) = Ret (line_cmd l)
   else NewDispatchCommand (p_Command p) (OriginalLine p) (p_Params p) false = line_cmd l).
Proof.
  destruct l as [sp1 raw tail sp2 runs w ws|sp1 raw sp2 cmd kvs]; intros [_ H]; cbn [line_text line_extended].
  - destruct H as (H1 & H2 & H3 & H4 & H5 & H6 & H7).
    assert (Hne : runs ≠ []) by (by intros ->).
    destruct (traditional_line sp1 raw tail sp2 runs H1 H2 H3 H4 Hne H5 w ws H6 H7) as [Ec Ep].
    split; [exact Ec|]. unfold line_cmd. cbn [line_text line_command line_params]. by rewrite Ec, Ep.
  - destruct H as (H1 & H2 & H3 & H4 & H5 & H6 & H7).
    destruct (extended_line sp1 raw sp2 cmd kvs H1 H2 H3 H4 H5 H6 H7) as (Ec & text & Et & Ep).
    split; [exact Ec|]. unfold extendParams. cbn [cmd_params NewDispatchCommand]. rewrite Et. cbn [mbind go_bind].
    rewrite Ep. unfold line_cmd. cbn [line_text line_command line_params]. by rewrite Ec.
Qed.

Section Scripts.
Context {H U : Type} `{!DispatcherHost (Dispatcher H * U)}.
Local Abbreviation Store := (Dispatcher H * U)%type.
Context (run : H → DispatchCommand → M Store (DispatchCommand * option string)).
Context (version : string) (name_first : bool) (depth : nat).

(** What a line should do: its handler is run, an error of an extended command
    panics, one of a traditional command shuts the printer down. *)
Definition run_line (table : gmap string (handler H)) (l : gline) : M Store unit :=
  match table !! line_command l with
  | Some (mkHandler _ (External h)) =>
      r ← run h (line_cmd l);
      match (r : DispatchCommand * option string).2 with
      | Some err => if line_extended l then panic err else handleDispatchError (line_command l) err
      | None => Ack EmptyString (r : DispatchCommand * option string).1;; mret tt
      end
  | _ => mret tt
  end.

Lemma process_line_runs l h s :
  line_ok l → ActiveHandlers s.1 !! line_command l = Some (mkHandler (line_extended l) (External h)) →
  process_line run version name_first (S depth) false (line_text l) s = run_line (ActiveHandlers s.1) l s.
Proof.
  intros Hl Hh. destruct (line_parsed l Hl) as [Ec Ep]. unfold process_line, run_line, mbind, M_bind, self, gets.
  rewrite Ec, Hh. cbn [call_handler extended callee]. rewrite <- Ec. unfold mbind, M_bind, lift.
  destruct (line_extended l); rewrite Ep; cbn [mret M_ret].
  all: by destruct (run h (line_cmd l) s) as [[[gcmd [err|]]|w] s'].
Qed.

(** Handlers that go on leave the table of commands alone. *)
Definition keeps_table : Prop :=
  ∀ h gcmd s r s', run h gcmd s = (Ret r, s') → ActiveHandlers s'.1 = ActiveHandlers s.1.

Lemma run_line_table l s s' :
  keeps_table → (∃ h, ActiveHandlers s.1 !! line_command l = Some (mkHandler (line_extended l) (External h))) →
  run_line (ActiveHandlers s.1) l s = (Ret tt, s') → ActiveHandlers s'.1 = ActiveHandlers s.1.
Proof.
  intros Hk [h Hh]. unfold run_line. rewrite Hh. intros E. apply M_bind_inv in E as ([gcmd e] & s1 & Hr & E).
  apply Hk in Hr. cbn [fst snd] in E. destruct e as [err|].
  - destruct (line_extended l); [done|]. unfold handleDispatchError in E.
    apply M_bind_inv in E as (? & s2 & _ & E). by apply M_bind_inv in E as (? & s3 & _ & E).
  - unfold Ack in E. destruct (Need_ack gcmd).
    + apply M_bind_inv in E as (? & s2 & E & [= <-]). apply M_bind_inv in E as (? & s3 & [= _ <-] & [= _ <-]). by rewrite <- Hr.
    + injection E as <-. exact Hr.
Qed.

(** C3. A script of lines printed from commands and parameters, traditional ones or extended
    ones whose names have no digit, all of them registered: it runs the handler of each
    command in order, with exactly the parameters printed, and an error of a handler
    ends the script there; as long as no handler changes the table of commands. *)
Theorem script_runs_commands (lines : list gline) (s : Store) :
  lines ≠ [] → Forall line_ok lines → keeps_table →
  Forall (λ l, ∃ h, ActiveHandlers s.1 !! line_command l = Some (mkHandler (line_extended l) (External h))) lines →
  Run_script_from_command run version name_first (S depth) (Join newline (map line_text lines)) s
  = mfor lines (run_line (ActiveHandlers s.1)) s.
Proof.
  intros Hne Hok Hk Hh. unfold Run_script_from_command, ProcessCommands.
  rewrite Split_Join; [|by destruct lines|].
  2: { apply Forall_map. apply (Forall_impl _ _ _ Hok). by intros l [? _]. }
  clear Hne. revert s Hh. induction Hok as [|l lines Hl _ IH]; intros s Hh; [done|].
  inversion Hh as [|? ? [h Hl'] Hls]; subst. cbn [map mfor]. unfold mbind, M_bind.
  rewrite (process_line_runs l h) by done. destruct (run_line (ActiveHandlers s.1) l s) as [[[]|w] s'] eqn:E; [|done].
  apply run_line_table in E; [|done|eauto]. rewrite <- E. rewrite <- E in Hls. by apply IH.
Qed.
End Scripts.

(** ** Before the printer is ready *)

Section Ready.
Context {H U : Type} `{!DispatcherHost (Dispatcher H * U)}.

(** What modules and events do to the dispatcher between commands. *)
Inductive d_op :=
| OpRegister (cmd : string) (h : option (target H)) (whenNotReady : bool) (desc : string)
| OpMux (cmd key value : string) (h : H) (desc : string)
| OpReplace (cmd : string) (h : H) (whenNotReady : bool) (desc : string)
| OpReady
| OpShutdown
| OpRespond (msg : string).

Definition apply_op (op : d_op) (s : Dispatcher H * U) : go unit * (Dispatcher H * U) :=
  match op with
  | OpRegister cmd h late desc =>
      match RegisterCommand cmd h late desc s.1 with Ret r => (Ret tt, (r.2, s.2)) | Panic w => (Panic w, s) end
  | OpMux cmd key value h desc =>
      match Register_mux_command cmd key value h desc s.1 with Ret d => (Ret tt, (d, s.2)) | Panic w => (Panic w, s) end
  | OpReplace cmd h late desc =>
      match ReplaceCommand cmd h late desc s.1 with Ret r => (Ret tt, (r.2, s.2)) | Panic w => (Panic w, s) end
  | OpReady => Handle_ready s
  | OpShutdown => Handle_shutdown s
  | OpRespond msg => Respond_raw msg s
  end.

(** Registered to run while the printer is not ready. *)
Definition late_ops (ops : list d_op) (cmd : string) : Prop :=
  (∃ c, cmd = own_name c) ∨
  ∃ op, op ∈ ops ∧ ((∃ t desc, op = OpRegister cmd (Some t) true desc) ∨ ∃ h desc, op = OpReplace cmd h true desc).

Definition tables_ok (late : string → Prop) (d : Dispatcher H) : Prop :=
  (∀ c h, BaseHandlers d !! c = Some h → ReadyHandlers d !! c = Some h ∧ late c) ∧ active_ready d = isPrinterReady d.

Lemma tables_impl (late late' : string → Prop) d : (∀ c, late c → late' c) → tables_ok late d → tables_ok late' d.
Proof. intros Hl [H1 H2]. split; [|done]. intros c h Hc. destruct (H1 c h Hc). auto. Qed.

(** Registration keeps the tables in step. *)
Lemma register_ok (late : string → Prop) cmd h whenNotReady desc d r :
  tables_ok late d → (is_Some h → whenNotReady = true → late cmd) →
  RegisterCommand cmd h whenNotReady desc d = Ret r → tables_ok late r.2.
Proof.
  intros [H1 H2] Hl. unfold RegisterCommand. destruct h as [t|].
  - case_bool_decide as Hn; [done|]. destruct (negb _ && negb _); [done|]. intros [= <-]. cbn [snd].
    assert (Hnone : ReadyHandlers d !! cmd = None) by (by apply eq_None_not_Some).
    assert (Ht : tables_ok late (set_tables (if whenNotReady then <[cmd := mkHandler (negb (IsTraditionalGCode cmd)) t]> (BaseHandlers d)
        else BaseHandlers d) (<[cmd := mkHandler (negb (IsTraditionalGCode cmd)) t]> (ReadyHandlers d)) d)).
    { split; [|exact H2]. cbn [BaseHandlers ReadyHandlers set_tables]. intros c h Hc. destruct (decide (c = cmd)) as [->|Hne].
      - rewrite lookup_insert_eq. destruct whenNotReady.
        + rewrite lookup_insert_eq in Hc. split; [done|]. by apply Hl.
        + apply H1 in Hc as [Hc _]. congruence.
      - rewrite lookup_insert_ne by done. destruct whenNotReady; [rewrite lookup_insert_ne in Hc by done|]; by apply H1. }
    by case_bool_decide.
  - intros [= <-]. split; [|exact H2]. cbn [snd BaseHandlers ReadyHandlers set_tables]. intros c h.
    rewrite !lookup_delete_Some. intros [Hne Hc]. destruct (H1 c h Hc). auto.
Qed.

Lemma mux_ok (late : string → Prop) cmd key value h desc d d' :
  tables_ok late d → Register_mux_command cmd key value h desc d = Ret d' → tables_ok late d'.
Proof.
  intros Ht E. unfold Register_mux_command in E. apply bind_ret_inv in E as (d1 & E1 & E2).
  assert (H1 : tables_ok late d1).
  { case_bool_decide; [by injection E1 as <-|]. apply bind_ret_inv in E1 as (r & E1 & [= <-]).
    eapply register_ok; [exact Ht| |exact E1]. by intros _. }
  unfold runtime_RegisterMuxCommand in E2. destruct (default _ _) as [k vs]. case_bool_decide; [|done].
  case_bool_decide; [done|]. by injection E2 as <-.
Qed.

Lemma op_ok (late : string → Prop) op s s' :
  tables_ok late s.1 → (∀ cmd, late_ops [op] cmd → late cmd) → apply_op op s = (Ret tt, s') → tables_ok late s'.1.
Proof.
  intros Ht Hl.
  assert (Hreg : ∀ cmd h, (∃ t desc, op = OpRegister cmd (Some t) true desc) ∨ (∃ h desc, op = OpReplace cmd h true desc) → is_Some (h : option (target H)) → late cmd).
  { intros cmd h Hop _. apply Hl. right. exists op. split; [by apply list_elem_of_here|exact Hop]. }
  destruct op as [cmd h late' desc|cmd key value h desc|cmd h late' desc| | |msg]; cbn [apply_op].
  - destruct (RegisterCommand _ _ _ _ _) as [r|w] eqn:E; [|done]. intros [= <-]. cbn [fst].
    eapply register_ok; [exact Ht| |exact E]. intros [t ->] ->. apply (Hreg cmd (Some t)); [|by eexists]. left. eauto.
  - destruct (Register_mux_command _ _ _ _ _ _) as [d|w] eqn:E; [|done]. intros [= <-]. cbn [fst]. by eapply mux_ok.
  - destruct (ReplaceCommand _ _ _ _ _) as [r|w] eqn:E; [|done]. intros [= <-]. cbn [fst]. unfold ReplaceCommand in E.
    apply bind_ret_inv in E as (r1 & E1 & E). apply bind_ret_inv in E as (r2 & E2 & [= <-]). cbn [snd].
    eapply register_ok; [| |exact E2].
    + eapply register_ok; [exact Ht| |exact E1]. by intros [].
    + intros Hs ->. apply (Hreg cmd _ ltac:(right; eauto) Hs).
  - intros [= <-]. destruct Ht as [H1 _]. by split.
  - unfold Handle_shutdown, self, gets, mbind, M_bind. destruct (isPrinterReady s.1) eqn:E; cbn [negb].
    + intros [= <-]. destruct Ht as [H1 _]. by split.
    + intros [= <-]. exact Ht.
  - intros [= <-]. exact Ht.
Qed.

(** The dispatcher after a history of operations that all succeed. *)
Inductive d_history (file : bool) (u : U) : list d_op → Dispatcher H * U → Prop :=
| d_new d : NewDispatcher file = Ret d → d_history file u [] (d, u)
| d_next ops op s s' : d_history file u ops s → apply_op op s = (Ret tt, s') → d_history file u (ops ++ [op]) s'.

(** The operations of a list, all of which must succeed. *)
Fixpoint play_ops (ops : list d_op) (s : Dispatcher H * U) : option (Dispatcher H * U) :=
  match ops with
  | [] => Some s
  | op :: ops => match apply_op op s with (Ret _, s') => play_ops ops s' | (Panic _, _) => None end
  end.

Lemma play_history file u pre s ops s' :
  d_history file u pre s → play_ops ops s = Some s' → d_history file u (pre ++ ops) s'.
Proof.
  revert pre s. induction ops as [|op ops IH]; intros pre s Hs E.
  - injection E as <-. by rewrite app_nil_r.
  - simpl in E. destruct (apply_op op s) as [[[]|w] s1] eqn:E1; [|done].
    change (op :: ops) with ([op] ++ ops). rewrite (assoc_L (++)). eapply IH; [|exact E]. by eapply d_next.
Qed.

Lemma new_ok file d : NewDispatcher file = Ret d → tables_ok (late_ops []) d.
Proof.
  unfold NewDispatcher. generalize own_commands as cs. assert (H0 : tables_ok (late_ops []) (empty_dispatcher (H := H) file)) by done.
  revert H0. generalize (empty_dispatcher (H := H) file) as d0. intros d0 H0 cs. revert d0 H0.
  induction cs as [|c cs IH]; intros d0 H0 E; [by injection E as <-|].
  cbn [range] in E. apply bind_ret_inv in E as (d1 & E1 & E). apply (IH d1); [|exact E].
  apply bind_ret_inv in E1 as (r & E1 & [= <-]). eapply register_ok; [exact H0| |exact E1]. intros _ _. left. eauto.
Qed.

(** Along any history of registrations, replacements and events of the printer, a
    command that the dispatcher would run has its handler in the table of the ready
    printer, and while the printer is not ready it is one registered for then. *)
Theorem not_ready_runs_base_commands (file : bool) (u : U) (ops : list d_op) (s : Dispatcher H * U) (cmd : string) (h : handler H) :
  d_history file u ops s → ActiveHandlers s.1 !! cmd = Some h →
  ReadyHandlers s.1 !! cmd = Some h ∧ (isPrinterReady s.1 = false → late_ops ops cmd).
Proof.
  intros Hh Hc. assert (Ht : tables_ok (late_ops ops) s.1).
  { clear Hc. induction Hh as [d E|ops op s s' _ IH E]; [by eapply new_ok|]. eapply op_ok; [|clear IH|exact E].
    - eapply tables_impl; [|exact IH]. intros c [Hc|(o & Ho & Hc)]; [by left|]. right. exists o. split; [set_solver|done].
    - intros c [Hc|(o & Ho & Hc)]; [by left|]. right. exists o. split; [set_solver|done]. }
  destruct Ht as [H1 H2]. unfold ActiveHandlers in Hc. rewrite H2 in Hc. destruct (isPrinterReady s.1).
  - by split.
  - apply H1 in Hc as [Hc Hl]. by split.
Qed.
End Ready.

(** ** M117 *)

Section Overflow.
Context {H U : Type} `{!DispatcherHost (Dispatcher H * U)}.
Context (run : H → DispatchCommand → M (Dispatcher H * U) (DispatchCommand * option string)).
Context (version : string) (name_first : bool).

(** Once the printer is ready, [M117] is handled by [Cmd_default], which looks up the
    handler of [M117] and calls it. *)
Lemma M117_overflows (s : Dispatcher H * U) (depth : nat) (gcmd : DispatchCommand) :
  isPrinterReady s.1 = true → ActiveHandlers s.1 !! "M117"%string = Some (mkHandler false (Own M117)) →
  Command (cmd_params gcmd) = "M117"%string →
  call_handler run version name_first depth (mkHandler false (Own M117)) gcmd s = (Panic "stack overflow", s).
Proof.
  intros Hr Hh. revert gcmd. induction depth as [|depth IH]; intros gcmd Hc; [done|].
  cbn [call_handler extended callee call_own]. unfold Cmd_default, mbind, M_bind, mret, M_ret, self, gets. rewrite Hc.
  cbn [negb]. rewrite !bool_decide_eq_false_2 by done. rewrite Hr. cbn [negb].
  change (default EmptyString (Split " " "M117" !! 0%nat)) with "M117"%string.
  rewrite bool_decide_eq_true_2 by (apply list_elem_of_here). rewrite Hh. by rewrite IH.
Qed.

Lemma new_M117 file :
  match NewDispatcher (H := H) file with
  | Ret d => ReadyHandlers d !! "M117"%string = Some (mkHandler false (Own M117))
  | Panic _ => False
  end.
Proof. destruct file; vm_compute; reflexivity. Qed.

(** A new dispatcher that becomes ready is in that situation. *)
Lemma M117_line_overflows (d : Dispatcher H) (u : U) (s : Dispatcher H * U) (depth : nat) (line : string) :
  NewDispatcher false = Ret d → Handle_ready (d, u) = (Ret tt, s) →
  p_Command (ParseDispatchCommandLine line) = "M117"%string →
  Run_script_from_command run version name_first depth line s = (Panic "stack overflow", s) ∨ has_char newline line = true.
Proof.
  intros Ed Er Ec. destruct (has_char newline line) eqn:Hn; [by right|left].
  unfold Run_script_from_command, ProcessCommands. rewrite Split_nosep by done. cbn [mfor]. unfold mbind, M_bind, process_line.
  unfold mbind, M_bind, self, gets. rewrite Ec.
  assert (Hs : ActiveHandlers s.1 !! "M117"%string = Some (mkHandler false (Own M117)) ∧ isPrinterReady s.1 = true).
  { pose proof (new_M117 false) as Hn'. rewrite Ed in Hn'. injection Er as <-. by split. }
  destruct Hs as [Hh Hr]. rewrite Hh, M117_overflows; [done..|].
  unfold NewDispatchCommand. cbn [cmd_params Command]. done.
Qed.
End Overflow.

(** ** Examples of the hypotheses *)

(** A host that does nothing and handlers that note the parameters they get. *)
Definition demo_U : Type := list (gmap string string).
Definition demo_run (h : unit) (gcmd : DispatchCommand) : M (Dispatcher unit * demo_U) (DispatchCommand * option string) :=
  modify (λ s, (s.1, s.2 ++ [Params (cmd_params gcmd)]));; mret (gcmd, None).

#[local] Instance demo_host : DispatcherHost (Dispatcher unit * demo_U) := {
  InvokeShutdown _ := mret tt; SendEvent _ _ := mret tt; RequestExit _ := mret tt; StateMessage := mret EmptyString;
  Get_last_move_time := mret f0; Dwell _ := mret tt; Wait_moves := mret tt; Lock := mret tt; Unlock := mret tt
}.

Definition demo_ops : list (@d_op unit) :=
  [OpRegister "G1" (Some (External tt)) false ""; OpRegister "SET_OFFSET" (Some (External tt)) true "help"; OpReady].

Definition demo_store : Dispatcher unit * demo_U :=
  match NewDispatcher false with
  | Ret d => fold_left (λ s op, (apply_op op s).2) demo_ops (d, [])
  | Panic _ => (empty_dispatcher false, [])
  end.

Definition demo_lines : list gline :=
  [Traditional " " "g1 x10Y-3.5 F300" ";go" " " demo_runs ("G", "1") [("X", "10"); ("Y", "-3.5"); ("F", "300")];
   ExtendedLine "" "set_offset" "" "SET_OFFSET" demo_kvs]%string.

Lemma demo_lines_ok : Forall line_ok demo_lines.
Proof.
  constructor; [|constructor; [|constructor]].
  - split; [by vm_compute|]. split_and!; try done; [right; by exists "go"%string|apply demo_runs_ok].
  - split; [by vm_compute|]. split_and!; try done. apply demo_kvs_ok.
Qed.

Lemma demo_found :
  Forall (λ l, ∃ h, ActiveHandlers demo_store.1 !! line_command l = Some (mkHandler (line_extended l) (External h))) demo_lines.
Proof. repeat constructor; exists tt; by vm_compute. Qed.

Lemma script_runs_commands_witness :
  (Run_script_from_command demo_run "1" true 1 (Join newline (map line_text demo_lines)) demo_store).2.2
  = [word_params (List.concat demo_runs); ext_params ∅ demo_kvs].
Proof.
  rewrite (script_runs_commands demo_run "1" true 0 demo_lines demo_store ltac:(done) demo_lines_ok
    ltac:(intros h gcmd s r s' [= _ <-]; done) demo_found).
  by vm_compute.
Defined.

Lemma demo_history : d_history false [] demo_ops demo_store.
Proof.
  pose (d0 := match NewDispatcher (H := unit) false with Ret d => d | Panic _ => empty_dispatcher false end).
  change demo_ops with ([] ++ demo_ops). eapply (play_history false [] [] (d0, [])).
  - apply d_new. vm_compute. reflexivity.
  - vm_compute. reflexivity.
Qed.

Lemma not_ready_runs_base_commands_witness :
  ReadyHandlers demo_store.1 !! "SET_OFFSET"%string = Some (mkHandler true (External tt)).
Proof.
  apply (not_ready_runs_base_commands false [] demo_ops demo_store "SET_OFFSET" (mkHandler true (External tt)) demo_history).
  vm_compute. reflexivity.
Defined.

(** ** Gaps *)

(** A name with a digit is cut after it: LEVIQ3_PROBE, which is registered, runs LEVIQ3. *)
Lemma digit_ends_name : p_Command (ParseDispatchCommandLine "LEVIQ3_PROBE") = p_Command (ParseDispatchCommandLine "LEVIQ3").
Proof. vm_compute. reflexivity. Qed.
