(* ===== verification/GcodeMove.v ===== *)
(** * G-code coordinates

    [src/internal/pkg/gcode/gcode_move_module.go]: the state that turns the
    coordinates of G-code into positions of the machine (modes, origin, offsets,
    factors, saved states), over the [transform] that carries the moves out: the
    toolhead, or a module put before it such as the bed mesh.  Every transform
    copies the positions it is given and returns, so that positions are values.
    The report [GET_POSITION] is left out. *)

From S2P Require Import Prelude GoFloat GoStrings GoState GoParseFloat GcodeParse Gcode.

(** [LegacyMoveTransform], over the store [E]. *)
Record transform (E : Type) := mkTransform {
  t_Move : list f64 → f64 → M E unit;
  t_Get_position : M E (list f64)
}.
Arguments mkTransform {E}.
Arguments t_Move {E} t.
Arguments t_Get_position {E} t.

Record savedState := mkSaved {
  s_absoluteCoord : bool;
  s_absoluteExtrude : bool;
  s_basePosition : list f64;
  s_lastPosition : list f64;
  s_homingPosition : list f64;
  s_speed : f64;
  s_speedFactor : f64;
  s_extrudeFactor : f64
}.

(** The coordinate state proper, without the wiring. *)
Record coords := mkCoords {
  absoluteCoord : bool;
  absoluteExtrude : bool;
  basePosition : list f64;
  lastPosition : list f64;
  homingPosition : list f64;
  speed : f64;
  speedFactor : f64;
  extrudeFactor : f64
}.

Record GCodeMove (E : Type) := mkGCodeMove {
  gm_ready : bool;                           (* isPrinterReady *)
  gm : coords;
  savedStates : gmap string savedState;
  moveTransform : option (transform E);
  moveWithTransform : option (list f64 → f64 → M E unit);
  positionWithTransform : M E (list f64)
}.
Arguments mkGCodeMove {E}.
Arguments gm_ready {E} g.
Arguments gm {E} g.
Arguments savedStates {E} g.
Arguments moveTransform {E} g.
Arguments moveWithTransform {E} g.
Arguments positionWithTransform {E} g.

Definition zeros : list f64 := [f0; f0; f0; f0].
Definition f60 : f64 := f_of_Z 60.
Definition f100 : f64 := f_of_Z 100.
Definition f_NaN : f64 := SpecFloat.S754_nan.

(** [LoadConfigGCodeMove]. *)
Definition new_coords : coords := mkCoords true true zeros zeros zeros (f_of_Z 25) (f_lit 1 60) f1.
Definition LoadConfigGCodeMove {E} : GCodeMove E := mkGCodeMove false new_coords ∅ None None (mret zeros).

(** ** Updates *)

Definition with_absolute (b : bool) (c : coords) : coords :=
  mkCoords b (absoluteExtrude c) (basePosition c) (lastPosition c) (homingPosition c) (speed c) (speedFactor c) (extrudeFactor c).
Definition with_absolute_extrude (b : bool) (c : coords) : coords :=
  mkCoords (absoluteCoord c) b (basePosition c) (lastPosition c) (homingPosition c) (speed c) (speedFactor c) (extrudeFactor c).
Definition with_base (p : list f64) (c : coords) : coords :=
  mkCoords (absoluteCoord c) (absoluteExtrude c) p (lastPosition c) (homingPosition c) (speed c) (speedFactor c) (extrudeFactor c).
Definition with_last (p : list f64) (c : coords) : coords :=
  mkCoords (absoluteCoord c) (absoluteExtrude c) (basePosition c) p (homingPosition c) (speed c) (speedFactor c) (extrudeFactor c).
Definition with_homing (p : list f64) (c : coords) : coords :=
  mkCoords (absoluteCoord c) (absoluteExtrude c) (basePosition c) (lastPosition c) p (speed c) (speedFactor c) (extrudeFactor c).
Definition with_speed (v : f64) (c : coords) : coords :=
  mkCoords (absoluteCoord c) (absoluteExtrude c) (basePosition c) (lastPosition c) (homingPosition c) v (speedFactor c) (extrudeFactor c).
Definition with_speed_factor (v : f64) (c : coords) : coords :=
  mkCoords (absoluteCoord c) (absoluteExtrude c) (basePosition c) (lastPosition c) (homingPosition c) (speed c) v (extrudeFactor c).
Definition with_extrude_factor (v : f64) (c : coords) : coords :=
  mkCoords (absoluteCoord c) (absoluteExtrude c) (basePosition c) (lastPosition c) (homingPosition c) (speed c) (speedFactor c) v.

(** [p[i]] and [p[i] = v]. *)
Definition at_ (p : list f64) (i : nat) : go f64 :=
  match p !! i with Some v => Ret v | None => Panic "index out of range" end.
Definition put (p : list f64) (i : nat) (v : f64) : go (list f64) :=
  if bool_decide (i < length p)%nat then Ret (<[i := v]> p) else Panic "index out of range".

(** ** Changes of the coordinates alone *)

(** One axis of a move. *)
Definition move_axis (params : gmap string string) (pos : nat) (axis : string) (c : coords) : go coords :=
  match params !! axis with
  | None => Ret c
  | Some raw =>
      match ParseFloat raw with
      | (_, Some _) => Ret c                 (* logged *)
      | (value, None) =>
          p ← (if absoluteCoord c then b ← at_ (basePosition c) pos; put (lastPosition c) pos (fadd value b)
               else l ← at_ (lastPosition c) pos; put (lastPosition c) pos (fadd l value));
          Ret (with_last p c)
      end
  end.

Definition move_extruder (params : gmap string string) (c : coords) : go coords :=
  match params !! "E"%string with
  | None => Ret c
  | Some raw =>
      match ParseFloat raw with
      | (_, Some _) => Ret c
      | (eVal, None) =>
          let value := fmul eVal (extrudeFactor c) in
          p ← (if negb (absoluteCoord c) || negb (absoluteExtrude c)
               then l ← at_ (lastPosition c) 3; put (lastPosition c) 3 (fadd l value)
               else b ← at_ (basePosition c) 3; put (lastPosition c) 3 (fadd value b));
          Ret (with_last p c)
      end
  end.

Definition move_speed (params : gmap string string) (c : coords) : go coords :=
  match params !! "F"%string with
  | None => Ret c
  | Some raw =>
      match ParseFloat raw with
      | (_, Some _) => Panic "Unable to parse move"
      | (gcodeSpeed, None) =>
          if fle gcodeSpeed f0 then Panic "Invalid speed" else Ret (with_speed (fmul gcodeSpeed (speedFactor c)) c)
      end
  end.

Definition axes : list (nat * string) := [(0%nat, "X"); (1%nat, "Y"); (2%nat, "Z")]%string.
Definition axes4 : list (nat * string) := (axes ++ [(3%nat, "E"%string)]).

Definition _get_gcode_position (c : coords) : go (list f64) :=
  let p := zip_with fsub (lastPosition c) (basePosition c) in
  e ← at_ p 3;
  put p 3 (fdiv e (extrudeFactor c)).
Definition _get_gcode_speed (c : coords) : f64 := fdiv (speed c) (speedFactor c).
Definition _get_gcode_speed_override (c : coords) : f64 := fmul (speedFactor c) f60.

Definition Cmd_G92 (gcmd : CommandParams) (c : coords) : go coords :=
  offsets ← range (λ offsets '(_, axis),
    value ← Get_float gcmd axis (Value f_NaN) None None None None;
    Ret (offsets ++ [if is_nan value then None else Some value])) [] axes4;
  base ← range (λ base '(i, offset),
    match offset with
    | None => Ret base
    | Some value =>
        let value := if bool_decide (i = 3%nat) then fmul value (extrudeFactor c) else value in
        l ← at_ (lastPosition c) i;
        put base i (fsub l value)
    end) (basePosition c) (imap pair (offsets : list (option f64)));
  Ret (with_base (if forallb (λ o, match o with None => true | Some _ => false end) offsets
    then take (length base) (lastPosition c) ++ drop (length (lastPosition c)) base else base) c).

Definition Cmd_M220 (gcmd : CommandParams) (c : coords) : go coords :=
  s ← Get_float gcmd "S" (Value f100) None None (Some f0) None;
  let value := fdiv s (f_of_Z 6000) in
  Ret (with_speed_factor value (with_speed (fmul (_get_gcode_speed c) value) c)).

Definition Cmd_M221 (gcmd : CommandParams) (c : coords) : go coords :=
  s ← Get_float gcmd "S" (Value f100) None None (Some f0) None;
  let newExtrudeFactor := fdiv s f100 in
  lastEPos ← at_ (lastPosition c) 3;
  base ← at_ (basePosition c) 3;
  let eValue := fdiv (fsub lastEPos base) (extrudeFactor c) in
  p ← put (basePosition c) 3 (fsub lastEPos (fmul eValue newExtrudeFactor));
  Ret (with_extrude_factor newExtrudeFactor (with_base p c)).

(** The loop of [Cmd_SET_GCODE_OFFSET] on one axis, with the [moveDelta] so far. *)
Definition offset_axis (gcmd : CommandParams) (r : list f64 * coords) (a : nat * string) : go (list f64 * coords) :=
  let '(pos, axis) := a in
  let '(moveDelta, c) := r in
  offset ← Get_float gcmd axis (Value f_NaN) None None None None;
  offset ← (if is_nan offset
            then adjust ← Get_float gcmd (axis ++ "_ADJUST")%string (Value f_NaN) None None None None;
                 if is_nan adjust then Ret None
                 else h ← at_ (homingPosition c) pos; Ret (Some (fadd adjust h))
            else Ret (Some offset));
  match offset with
  | None => Ret r
  | Some offset =>
      h ← at_ (homingPosition c) pos;
      let delta := fsub offset h in
      moveDelta ← put moveDelta pos delta;
      b ← at_ (basePosition c) pos;
      base ← put (basePosition c) pos (fadd b delta);
      homing ← put (homingPosition c) pos offset;
      Ret (moveDelta, with_homing homing (with_base base c))
  end.

Definition saved (c : coords) : savedState :=
  mkSaved (absoluteCoord c) (absoluteExtrude c) (basePosition c) (lastPosition c) (homingPosition c) (speed c)
    (speedFactor c) (extrudeFactor c).

(** What [Cmd_RESTORE_GCODE_STATE] does before it moves. *)
Definition restore_coords (state : savedState) (c : coords) : go coords :=
  l ← at_ (lastPosition c) 3;
  s ← at_ (s_lastPosition state) 3;
  b ← at_ (s_basePosition state) 3;
  base ← put (s_basePosition state) 3 (fadd b (fsub l s));
  Ret (mkCoords (s_absoluteCoord state) (s_absoluteExtrude state) base (lastPosition c) (s_homingPosition state)
    (s_speed state) (s_speedFactor state) (s_extrudeFactor state)).

(** ** The module *)

Section Module.
Context {E : Type}.
Local Abbreviation Store := (GCodeMove E * E)%type.

(** [lookupToolhead()]: the toolhead as a transform, and the transform that its
    [Get_transform] answers. *)
Context (toolhead : option (transform E)) (toolhead_transform : option (transform E)).

Definition self_ : M Store (GCodeMove E) := gets fst.
Definition upd_ (f : GCodeMove E → GCodeMove E) : M Store unit := modify (λ s, (f s.1, s.2)).
Definition env {A} (m : M E A) : M Store A := λ s, let '(r, e) := m s.2 in (r, (s.1, e)).

Definition set_coords (c : coords) (g : GCodeMove E) : GCodeMove E :=
  mkGCodeMove (gm_ready g) c (savedStates g) (moveTransform g) (moveWithTransform g) (positionWithTransform g).
Definition set_ready_flag (b : bool) (g : GCodeMove E) : GCodeMove E :=
  mkGCodeMove b (gm g) (savedStates g) (moveTransform g) (moveWithTransform g) (positionWithTransform g).
Definition set_wiring (t : option (transform E)) (x : transform E) (g : GCodeMove E) : GCodeMove E :=
  mkGCodeMove (gm_ready g) (gm g) (savedStates g) t (Some (t_Move x)) (t_Get_position x).
Definition save_state (name : string) (st : savedState) (g : GCodeMove E) : GCodeMove E :=
  mkGCodeMove (gm_ready g) (gm g) (<[name := st]> (savedStates g)) (moveTransform g) (moveWithTransform g) (positionWithTransform g).

(** A change of the coordinates that may panic; what it has changed by then is not
    kept apart: the changes are made in one assignment. *)
Definition change (f : coords → go coords) : M Store unit :=
  g ← self_;
  c ← lift (f (gm g));
  upd_ (set_coords c).

Definition Reset_last_position : M Store unit :=
  g ← self_;
  if gm_ready g then
    p ← env (positionWithTransform g);
    g ← self_;
    upd_ (set_coords (with_last p (gm g)))
  else mret tt.

Definition _handle_ready : M Store unit :=
  upd_ (set_ready_flag true);;
  match toolhead with
  | None => panic "gcode_move requires toolhead runtime"
  | Some th =>
      g ← self_;
      match moveTransform g with None => upd_ (set_wiring None th) | Some _ => mret tt end;;
      Reset_last_position
  end.

Definition _handle_shutdown : M Store unit :=
  g ← self_;
  if negb (gm_ready g) then mret tt else upd_ (set_ready_flag false).

Definition _handle_activate_extruder : M Store unit :=
  Reset_last_position;;
  change (λ c, l ← at_ (lastPosition c) 3; p ← put (basePosition c) 3 l; Ret (with_extrude_factor f1 (with_base p c))).

Definition _handle_home_rails_end (homed : list nat) : M Store unit :=
  Reset_last_position;;
  change (λ c, base ← range (λ base axis, h ← at_ (homingPosition c) axis; put base axis h) (basePosition c) homed;
               Ret (with_base base c)).

Definition Set_move_transform (t : transform E) (force : bool) : M Store (option (transform E)) :=
  g ← self_;
  if bool_decide (is_Some (moveTransform g)) && negb force then panic "G-Code move transform already specified"
  else
    let old := match moveTransform g with
               | Some o => Some o
               | None => match toolhead with Some _ => toolhead_transform | None => None end
               end in
    upd_ (set_wiring (Some t) t);;
    mret old.

(** [self.moveWithTransform(self.lastPosition, speed)], and how it panics when there is
    no transform yet. *)
Definition move_to_last (why : string) (v : f64) : M Store unit :=
  g ← self_;
  match moveWithTransform g with
  | None => panic why
  | Some mv => env (mv (lastPosition (gm g)) v)
  end.

Definition applyMoveParameters (params : gmap string string) : M Store unit :=
  mfor axes (λ '(pos, axis), change (move_axis params pos axis));;
  change (move_extruder params);;
  change (move_speed params);;
  g ← self_;
  move_to_last "gcode_move not ready" (speed (gm g)).

Definition Cmd_G20 : M Store unit := panic "Machine does not support G20 (inches) command".
Definition Cmd_M82 : M Store unit := change (λ c, Ret (with_absolute_extrude true c)).
Definition Cmd_M83 : M Store unit := change (λ c, Ret (with_absolute_extrude false c)).
Definition Cmd_G90 : M Store unit := change (λ c, Ret (with_absolute true c)).
Definition Cmd_G91 : M Store unit := change (λ c, Ret (with_absolute false c)).

Definition Cmd_SET_GCODE_OFFSET (gcmd : CommandParams) : M Store unit :=
  g ← self_;
  r ← lift (range (offset_axis gcmd) (zeros, gm g) axes4);
  upd_ (set_coords (r : list f64 * coords).2);;
  mv ← lift (Get_int gcmd "MOVE" (Value 0));
  if bool_decide (mv = 0) then mret tt
  else
    g ← self_;
    v ← lift (Get_float gcmd "MOVE_SPEED" (Value (speed (gm g))) None None None None);
    change (λ c, p ← range (λ p '(pos, delta), l ← at_ p pos; put p pos (fadd l delta)) (lastPosition c)
                   (imap pair (r : list f64 * coords).1);
                 Ret (with_last p c));;
    move_to_last "nil pointer dereference" v.

Definition Cmd_SAVE_GCODE_STATE (gcmd : CommandParams) : M Store unit :=
  name ← lift (Get gcmd "NAME" (Value "default"%string));
  g ← self_;
  upd_ (save_state name (saved (gm g))).

Definition Cmd_RESTORE_GCODE_STATE (gcmd : CommandParams) : M Store unit :=
  name ← lift (Get gcmd "NAME" (Value "default"%string));
  g ← self_;
  match savedStates g !! (name : string) with
  | None => panic "Unknown g-code state"
  | Some state =>
      change (restore_coords state);;
      mv ← lift (Get_int gcmd "MOVE" (Value 0));
      if bool_decide (mv = 0) then mret tt
      else
        g ← self_;
        v ← lift (Get_float gcmd "MOVE_SPEED" (Value (speed (gm g))) None None (Some f0) None);
        change (λ c, p ← range (λ p pos, s ← at_ (s_lastPosition state) pos; put p pos s) (lastPosition c) [0%nat; 1%nat; 2%nat];
                     Ret (with_last p c));;
        move_to_last "nil pointer dereference" v
  end.

Definition Cmd_M114 : M Store (list f64) := g ← self_; lift (_get_gcode_position (gm g)).

(** The commands that the module registers. *)
Inductive gm_command :=
| G1 | G20 | G21 | M82 | M83 | G90 | G91 | G92 | M220 | M221 | SET_GCODE_OFFSET | SAVE_GCODE_STATE | RESTORE_GCODE_STATE | M114.

Definition run_command (c : gm_command) (gcmd : CommandParams) : M Store unit :=
  match c with
  | G1 => applyMoveParameters (Params gcmd)
  | G20 => Cmd_G20
  | G21 => mret tt
  | M82 => Cmd_M82
  | M83 => Cmd_M83
  | G90 => Cmd_G90
  | G91 => Cmd_G91
  | G92 => change (Cmd_G92 gcmd)
  | M220 => change (Cmd_M220 gcmd)
  | M221 => change (Cmd_M221 gcmd)
  | SET_GCODE_OFFSET => Cmd_SET_GCODE_OFFSET gcmd
  | SAVE_GCODE_STATE => Cmd_SAVE_GCODE_STATE gcmd
  | RESTORE_GCODE_STATE => Cmd_RESTORE_GCODE_STATE gcmd
  | M114 => Cmd_M114;; mret tt
  end.
End Module.
