(* ===== verification/GcodeTrack.v ===== *)
(** * What the G-code state and its transform agree on

    A transform that, after a move or after it was asked for its position, stands at
    that position in the sense of a relation [R], still does so after any command of
    the G-code state that goes through, for the position that this state holds.  The
    toolhead and the bed mesh are such transforms. *)

From S2P Require Import Prelude GoFloat GoStrings GoState GoParseFloat GcodeParse Gcode GcodeMove.

(** What a transform promises about where it stands. *)
Class Tracked {E : Type} (t : transform E) (R : E → list f64 → Prop) := {
  moved_to p v e e' : t_Move t p v e = (Ret tt, e') → R e' p;
  stands_at e p e' : t_Get_position t e = (Ret p, e') → R e' p
}.

Lemma keeps_lift {S A} (I : S → Prop) (m : go A) : keeps I (lift m).
Proof. intros s Hs. unfold lift. by destruct m. Qed.
Lemma keeps_panic {S A} (I : S → Prop) w : keeps (A := A) I (panic w).
Proof. by intros s. Qed.

Section Tracks.
(** [th] is the toolhead that [_handle_ready] finds; [t] the transform in use. *)
Context {U : Type} (th t : transform U) (R : U → list f64 → Prop) `{!Tracked t R}.
Local Abbreviation Store := (GCodeMove U * U)%type.

(** Wired to the transform: by the module that set it, or when ready. *)
Definition wired (s : Store) : Prop :=
  (moveTransform s.1 = None → th = t) ∧
  (gm_ready s.1 = true ∨ moveTransform s.1 ≠ None →
   moveWithTransform s.1 = Some (t_Move t) ∧ positionWithTransform s.1 = t_Get_position t).
Definition tracks (s : Store) : Prop := wired s ∧ (gm_ready s.1 = true → R s.2 (lastPosition (gm s.1))).

Lemma keeps_self I : keeps (S := GCodeMove U * U) I self_.
Proof. by intros s. Qed.

Lemma wired_env {A} (m : M U A) : keeps wired (env m).
Proof. intros s Hs. unfold env. destruct (m s.2) as [[a|w] u]; [exact Hs|done]. Qed.
Lemma wired_change f : keeps wired (change f).
Proof.
  intros s Hs. unfold change, mbind, M_bind, self_, gets, lift. destruct (f (gm s.1)) as [c|w]; [exact Hs|done].
Qed.

(** A change of the coordinates that leaves the position. *)
Lemma tracks_change f : (∀ c c', f c = Ret c' → lastPosition c' = lastPosition c) → keeps tracks (change f).
Proof.
  intros Hf s [Hw Ht]. unfold change, mbind, M_bind, self_, gets, lift. destruct (f (gm s.1)) as [c|w] eqn:E; [|done].
  split; [exact Hw|]. intros Hr. change (R s.2 (lastPosition c)). rewrite (Hf _ _ E). by apply Ht.
Qed.

Lemma Reset_tracks : hoare wired Reset_last_position (onret (λ _, tracks)).
Proof using Tracked0.
  intros [g u] [Hm Hw]. unfold Reset_last_position, mbind, M_bind, self_, gets. cbn [fst snd] in *.
  destruct (gm_ready g) eqn:Hr.
  - destruct (Hw (or_introl eq_refl)) as [H1 H2]. rewrite H2. unfold env. cbn [fst snd].
    destruct (t_Get_position t u) as [[p|w] u'] eqn:E; [|done].
    split; [split; [exact Hm|exact (λ _, conj H1 H2)]|]. intros _. by apply (stands_at u p u').
  - split; [split; [exact Hm|intros [H|H]; apply Hw; [cbn in H; congruence|by right]]|]. intros H. cbn in H. congruence.
Qed.

Lemma move_tracks why v : hoare wired (move_to_last why v) (onret (λ _, tracks)).
Proof using Tracked0.
  intros [g u] [Hm Hw]. unfold move_to_last, mbind, M_bind, self_, gets. cbn [fst snd] in *.
  destruct (moveWithTransform g) as [mv|] eqn:Emv; [|done]. unfold env. cbn [fst snd].
  destruct (mv (lastPosition (gm g)) v u) as [[[]|w] u'] eqn:E; [|done].
  split; [split; [exact Hm|intros H; cbn [fst] in *; rewrite <- Emv in Hw; by apply Hw]|]. cbn [fst snd]. intros Hr. destruct (Hw (or_introl Hr)) as [H1 _].
  injection H1 as ->. exact (moved_to (lastPosition (gm g)) v u u' E).
Qed.

(** What the transform does on its own without leaving where it stands. *)
Lemma keeps_tracks_env {A} (m : M U A) : (∀ p, keeps (λ u, R u p) m) → keeps tracks (env m).
Proof.
  intros Hm s [Hw Ht]. unfold env. pose proof (λ p, Hm p s.2) as Hp. destruct (m s.2) as [[a|w] u]; [|done].
  split; [exact Hw|]. cbn [fst snd]. intros Hr. exact (Hp _ (Ht Hr)).
Qed.

Lemma tracks_wired {A} (m : M (GCodeMove U * U) A) Q : hoare wired m Q → hoare tracks m Q.
Proof. intros H s [Hs _]. by apply H. Qed.

(** First something that keeps the wiring, then something that restores the rest. *)
Lemma wired_then {A B} (m : M (GCodeMove U * U) A) (k : A → M (GCodeMove U * U) B) :
  keeps wired m → (∀ a, hoare wired (k a) (onret (λ _, tracks))) → hoare wired (x ← m; k x) (onret (λ _, tracks)).
Proof. intros Hm Hk. by apply (hoare_bind wired m (λ _, wired)). Qed.

Lemma wired_self {B} (k : GCodeMove U → M (GCodeMove U * U) B) :
  (∀ a, hoare wired (k a) (onret (λ _, tracks))) → hoare wired (x ← self_; k x) (onret (λ _, tracks)).
Proof. apply wired_then. apply keeps_self. Qed.

Lemma G1_tracks params : keeps tracks (applyMoveParameters params).
Proof using Tracked0.
  apply tracks_wired. unfold applyMoveParameters.
  apply wired_then; [|intros _].
  { apply keeps_mfor. intros [pos axis]. apply wired_change. }
  apply wired_then; [apply wired_change|intros _]. apply wired_then; [apply wired_change|intros _].
  apply wired_self. intros g. apply move_tracks.
Qed.

(** Dropping a loop over the axes of a change. *)
Lemma offset_last gcmd xs r r' : range (offset_axis gcmd) r xs = Ret r' → lastPosition r'.2 = lastPosition r.2.
Proof.
  revert r. induction xs as [|[pos axis] xs IH]; intros [d c] E; [by injection E as <-|].
  cbn [range] in E. apply bind_ret_inv in E as ([d1 c1] & E1 & E). rewrite (IH _ E). cbn [snd]. clear E IH.
  unfold offset_axis in E1. apply bind_ret_inv in E1 as (o & _ & E1). apply bind_ret_inv in E1 as ([o'|] & _ & E1).
  - apply bind_ret_inv in E1 as (h & _ & E1). apply bind_ret_inv in E1 as (d2 & _ & E1).
    apply bind_ret_inv in E1 as (b & _ & E1). apply bind_ret_inv in E1 as (b' & _ & E1).
    apply bind_ret_inv in E1 as (h' & _ & E1). by injection E1 as _ <-.
  - by injection E1 as _ <-.
Qed.

Lemma offset_tracks gcmd : keeps tracks (Cmd_SET_GCODE_OFFSET gcmd).
Proof using Tracked0.
  unfold Cmd_SET_GCODE_OFFSET.
  apply (hoare_bind tracks self_ (λ g s, tracks s ∧ s.1 = g)); [by intros s Hs|intros g].
  apply (hoare_bind _ (lift _) (λ r s, tracks s ∧ lastPosition r.2 = lastPosition (gm s.1))); [|intros r].
  { intros s [Hs Eg]. unfold lift. destruct (range _ _ _) as [r|w] eqn:E; [|done]. apply offset_last in E.
    cbn [snd] in E. rewrite <- Eg in E. by split. }
  apply (hoare_bind _ (upd_ _) (λ _, tracks)); [|intros _].
  { intros s [[Hw Ht] E]. split; [exact Hw|]. intros Hr. change (R s.2 (lastPosition r.2)). rewrite E. by apply Ht. }
  apply keeps_bind; [apply keeps_lift|intros mv]. case_bool_decide; [apply keeps_ret|].
  apply tracks_wired. apply wired_self. intros g'. apply wired_then; [apply keeps_lift|intros v].
  apply wired_then; [apply wired_change|intros _]. apply move_tracks.
Qed.

Lemma restore_tracks gcmd : keeps tracks (Cmd_RESTORE_GCODE_STATE gcmd).
Proof using Tracked0.
  unfold Cmd_RESTORE_GCODE_STATE. apply keeps_bind; [apply keeps_lift|intros name].
  apply keeps_bind; [apply keeps_self|intros g]. destruct (savedStates g !! name) as [st|]; [|apply keeps_panic].
  apply keeps_bind; [|intros _].
  { apply tracks_change. intros c c' E. unfold restore_coords in E. apply bind_ret_inv in E as (l & _ & E).
    apply bind_ret_inv in E as (x & _ & E). apply bind_ret_inv in E as (b & _ & E). apply bind_ret_inv in E as (b' & _ & E).
    by injection E as <-. }
  apply keeps_bind; [apply keeps_lift|intros mv]. case_bool_decide; [apply keeps_ret|].
  apply tracks_wired. apply wired_self. intros g'. apply wired_then; [apply keeps_lift|intros v].
  apply wired_then; [apply wired_change|intros _]. apply move_tracks.
Qed.

Lemma keeps_upd (I : Store → Prop) f : (∀ g u, I (g, u) → I (f g, u)) → keeps I (upd_ f).
Proof. intros H. apply keeps_modify. intros [g u]. apply H. Qed.

Lemma command_tracks c gcmd : keeps tracks (run_command c gcmd).
Proof using Tracked0.
  assert (Hret : ∀ f : coords → coords, (∀ c, lastPosition (f c) = lastPosition c) → keeps tracks (change (λ c, Ret (f c)))).
  { intros f Hf. apply tracks_change. intros x x' [= <-]. apply Hf. }
  destruct c; cbn [run_command].
  - apply G1_tracks.
  - apply keeps_panic.
  - apply keeps_ret.
  - by apply Hret.
  - by apply Hret.
  - by apply Hret.
  - by apply Hret.
  - apply tracks_change. intros c c' E. unfold Cmd_G92 in E. apply bind_ret_inv in E as (o & _ & E).
    apply bind_ret_inv in E as (b & _ & E). by injection E as <-.
  - apply tracks_change. intros c c' E. unfold Cmd_M220 in E. apply bind_ret_inv in E as (o & _ & E). by injection E as <-.
  - apply tracks_change. intros c c' E. unfold Cmd_M221 in E. apply bind_ret_inv in E as (o & _ & E).
    apply bind_ret_inv in E as (x & _ & E). apply bind_ret_inv in E as (y & _ & E). apply bind_ret_inv in E as (z & _ & E).
    by injection E as <-.
  - apply offset_tracks.
  - unfold Cmd_SAVE_GCODE_STATE. apply keeps_bind; [apply keeps_lift|intros name].
    apply keeps_bind; [apply keeps_self|intros g]. by apply keeps_upd.
  - apply restore_tracks.
  - unfold Cmd_M114. apply keeps_bind; [|intros _; apply keeps_ret]. apply keeps_bind; [apply keeps_self|intros g; apply keeps_lift].
Qed.

(** ** Events *)

Lemma ready_tracks : keeps tracks (_handle_ready (Some th)).
Proof using Tracked0.
  unfold _handle_ready.
  apply (hoare_bind tracks _ (λ _ s, (moveTransform s.1 = None → th = t) ∧ (moveTransform s.1 ≠ None →
    moveWithTransform s.1 = Some (t_Move t) ∧ positionWithTransform s.1 = t_Get_position t))); [|intros _].
  { intros s [[Hm Hw] _]. split; [exact Hm|]. intros H. apply Hw. by right. }
  apply (hoare_bind _ self_ (λ g s, s.1 = g ∧ (moveTransform s.1 = None → th = t) ∧ (moveTransform s.1 ≠ None →
    moveWithTransform s.1 = Some (t_Move t) ∧ positionWithTransform s.1 = t_Get_position t))); [by intros s Hs|intros g].
  apply (hoare_bind _ _ (λ _, wired)); [|intros _; apply Reset_tracks]. intros s (Hg & Hm & Hw). subst g.
  destruct (moveTransform s.1) as [o|] eqn:Ho.
  - split; [intros H; cbn in *; congruence|]. intros _. by apply Hw.
  - split; [intros _; by apply Hm|]. intros _. cbn. by rewrite (Hm eq_refl).
Qed.

Lemma shutdown_tracks : keeps tracks _handle_shutdown.
Proof.
  unfold _handle_shutdown. apply keeps_bind; [apply keeps_self|intros g]. destruct (negb _); [apply keeps_ret|].
  apply keeps_upd. intros g' u [[Hm Hw] _]. split; [|done]. split; [exact Hm|]. intros [H|H]; [done|]. apply Hw. by right.
Qed.

Lemma reset_keeps_tracks : keeps tracks Reset_last_position.
Proof using Tracked0. apply tracks_wired, Reset_tracks. Qed.

Lemma activate_tracks : hoare wired _handle_activate_extruder (onret (λ _, tracks)).
Proof using Tracked0.
  unfold _handle_activate_extruder. apply (hoare_bind wired Reset_last_position (λ _, tracks)); [apply Reset_tracks|intros _].
  apply tracks_change. intros c c' E. apply bind_ret_inv in E as (l & _ & E). apply bind_ret_inv in E as (b & _ & E). by injection E as <-.
Qed.

Lemma homed_tracks axes : keeps tracks (_handle_home_rails_end axes).
Proof using Tracked0.
  unfold _handle_home_rails_end. apply keeps_bind; [apply reset_keeps_tracks|intros _].
  apply tracks_change. intros c c' E. apply bind_ret_inv in E as (b & _ & E). by injection E as <-.
Qed.
End Tracks.
