(* ===== verification/GcodeMoveThy.v ===== *)
(** * Theorems on G-code coordinates

    Over the toolhead: after any history of commands and events that went through,
    the toolhead stands where the G-code state says ([gcode_tracks_toolhead]); a move
    that is rejected leaves the two apart ([rejected_G1_loses_position]).  Saved
    states: restoring one with a move brings everything back ([restore_returns]). *)

From S2P Require Import Prelude GoFloat GoStrings GoState GoParseFloat LookAhead Kinematics ToolheadTiming Toolhead ToolheadThy GcodeParse Gcode GcodeMove GcodeTrack.

(** ** What leaves the toolhead's position alone *)

Definition stands (p : list f64) (th : Toolhead) : Prop := CommandedPos th = p.

Lemma stands_set p f : (∀ th, CommandedPos (f th) = CommandedPos th) → always (stands p) (modify f).
Proof. intros H. apply always_modify. unfold stands. intros th <-. apply H. Qed.

Lemma stands_emit p evs : always (stands p) (emit evs).
Proof. by apply stands_set. Qed.
#[export] Hint Resolve stands_emit : keeps.

Ltac stand_steps := always_steps; try (apply stands_set; by intros).

Section Stands.
Context (obs : nat → f64 * f64) (drip_done : nat → bool) (drip_others others : M Toolhead unit) (fuel : nat).
Hypothesis drip_stands : ∀ p, always (stands p) drip_others.
Hypothesis others_stand : ∀ p, always (stands p) others.
Context (p : list f64).

Lemma stands_advance_move x : always (stands p) (advance_move_time x).
Proof. unfold advance_move_time. stand_steps. Qed.

Lemma stands_note x b : always (stands p) (Note_mcu_movequeue_activity x b).
Proof. unfold Note_mcu_movequeue_activity. stand_steps. Qed.

Lemma stands_sink e : always (stands p) (sink_event e).
Proof. destruct e; unfold sink_event; stand_steps. Qed.

Lemma stands_observe : always (stands p) (observe obs).
Proof. unfold observe. stand_steps. Qed.
#[local] Hint Resolve stands_observe : keeps.

Lemma stands_calc : always (stands p) (calc_print_time obs).
Proof. unfold calc_print_time. stand_steps. Qed.

#[local] Hint Resolve stands_advance_move stands_calc stands_note : keeps.

Lemma stands_drip x : always (stands p) (UpdateToolheadDripTime obs drip_done drip_others fuel x).
Proof using drip_stands.
  unfold UpdateToolheadDripTime. apply always_bind; [apply always_get|intros th]. generalize fuel as n. intros n.
  revert x. induction n as [|n IH]; intros x; cbn [drip_loop]; [apply always_panic|].
  unfold drip_round. stand_steps.
Qed.
#[local] Hint Resolve stands_drip : keeps.

Lemma stands_mfor {X} (xs : list X) (body : X → M Toolhead unit) :
  (∀ x, always (stands p) (body x)) → always (stands p) (mfor xs body).
Proof. intros H. induction xs as [|x xs IH]; cbn [mfor]; [apply always_ret|]. apply always_bind; [apply H|by intros _]. Qed.

Lemma stands_process moves : always (stands p) (Process_moves obs drip_done drip_others fuel moves).
Proof using drip_stands.
  unfold Process_moves, ProcessToolheadMoveBatch. stand_steps; try (apply stands_mfor; apply stands_sink).
Qed.
#[local] Hint Resolve stands_process : keeps.

Lemma stands_flush lazy : always (stands p) (lookahead_flush obs drip_done drip_others fuel lazy).
Proof using drip_stands. unfold lookahead_flush. stand_steps. Qed.
#[local] Hint Resolve stands_flush : keeps.

Lemma stands_queue m : always (stands p) (QueueMove obs drip_done drip_others fuel m).
Proof using drip_stands. unfold QueueMove. stand_steps. Qed.

Lemma stands_pause_loop n s e : always (stands p) (pause_loop obs others n s e).
Proof using others_stand.
  revert e. induction n as [|n IH]; intros e; cbn [pause_loop]; [apply always_panic|]. unfold pause. stand_steps.
Qed.
#[local] Hint Resolve stands_pause_loop : keeps.

Lemma stands_check_pause : always (stands p) (CheckToolheadPause obs others fuel).
Proof using others_stand. unfold CheckToolheadPause, RunToolheadPauseCheck, EnsurePrimingTimer. stand_steps. Qed.
End Stands.
#[export] Hint Resolve stands_observe stands_advance_move stands_note stands_sink stands_calc stands_drip stands_process
  stands_flush stands_queue stands_pause_loop stands_check_pause : keeps.

(** ** Where a move leads *)

(** The toolhead stands at [l], up to a distance that no move is made for. *)
Definition near (c l : list f64) : Prop :=
  c = l ∨
  ∃ c0 c1 c2 c3 rc l0 l1 l2 l3 rl, c = c0 :: c1 :: c2 :: c3 :: rc ∧ l = l0 :: l1 :: l2 :: l3 :: rl ∧
    (let d0 := fsub l0 c0 in let d1 := fsub l1 c1 in let d2 := fsub l2 c2 in
     flt (fsqrt (fadd (fadd (fmul d0 d0) (fmul d1 d1)) (fmul d2 d2))) (f_lit 1 1000000000) = true) ∧
    (l3 = c3 ∨ feq (fabs (fsub l3 c3)) f0 = true).

Lemma index_cons4 {A} (s : list A) x0 x1 x2 x3 :
  s.[0] = Ret x0 → s.[1] = Ret x1 → s.[2] = Ret x2 → s.[3] = Ret x3 → ∃ r, s = x0 :: x1 :: x2 :: x3 :: r.
Proof.
  intros [_ H0]%index_Ret_inv [_ H1]%index_Ret_inv [_ H2]%index_Ret_inv [_ H3]%index_Ret_inv.
  destruct s as [|y0 [|y1 [|y2 [|y3 r]]]]; try done. exists r.
  change (Some y0 = Some x0) in H0. change (Some y1 = Some x1) in H1. change (Some y2 = Some x2) in H2.
  change (Some y3 = Some x3) in H3. by simplify_eq.
Qed.

Lemma zero_is_tiny x : feq x f0 = true → flt x (f_lit 1 1000000000) = true.
Proof. intros H. destruct x as [s|s| |s m e]; destruct s || idtac; try discriminate H; by vm_compute. Qed.

(** A new move ends near its target; one without length starts near it. *)
Lemma NewMove_near config p newpos v m :
  NewMove config p newpos v = Ret m → near (End_pos m) newpos ∧ (feq (Move_d m) f0 = true → near p newpos).
Proof.
  intros H. unfold NewMove in H.
  apply bind_ret_inv in H as (e0 & E0 & H). apply bind_ret_inv in H as (s0 & S0 & H).
  apply bind_ret_inv in H as (e1 & E1 & H). apply bind_ret_inv in H as (s1 & S1 & H).
  apply bind_ret_inv in H as (e2 & E2 & H). apply bind_ret_inv in H as (s2 & S2 & H).
  apply bind_ret_inv in H as (e3 & E3 & H). apply bind_ret_inv in H as (s3 & S3 & H).
  destruct (index_cons4 _ _ _ _ _ E0 E1 E2 E3) as [re Ee]. destruct (index_cons4 _ _ _ _ _ S0 S1 S2 S3) as [rs Es].
  apply Ret_inj in H as <-. cbn [End_pos Move_d Is_kinematic_move].
  destruct (flt (fsqrt _) (f_lit 1 1000000000)) eqn:Ht.
  - split.
    + right. exists s0, s1, s2, e3, [], e0, e1, e2, e3, re. split_and!; [done..|by left].
    + intros Hd. right. exists s0, s1, s2, s3, rs, e0, e1, e2, e3, re. split_and!; [done..|by right].
  - split; [by left|]. intros Hd. by rewrite (zero_is_tiny _ Hd) in Ht.
Qed.

Section Near.
Context (obs : nat → f64 * f64) (drip_done : nat → bool) (drip_others others : M Toolhead unit) (fuel : nat).
Hypothesis drip_stands : ∀ p, always (stands p) drip_others.
Hypothesis others_stand : ∀ p, always (stands p) others.

(** The toolhead as the transform of the G-code moves. *)
Definition toolhead_as : transform Toolhead :=
  mkTransform (λ p v, RunToolheadMove obs drip_done drip_others others fuel p v;; mret tt) (gets CommandedPos).

Lemma move_near newpos v th th' :
  t_Move toolhead_as newpos v th = (Ret tt, th') → near (CommandedPos th') newpos.
Proof using drip_stands others_stand.
  cbn [t_Move toolhead_as]. intros H. apply M_bind_inv in H as (b & th1 & H & [= ->]).
  rewrite RunToolheadMove_eq in H. destruct (prepare th newpos v) as [[m|]|w] eqn:E; [..|done].
  - destruct (prepare_from th newpos v m E) as (m0 & Hm & _ & Ee & _). apply NewMove_near in Hm as [Hm _]. rewrite <- Ee in Hm.
    assert (Hst : always (stands (End_pos m)) (QueueMove obs drip_done drip_others fuel m;; th ← get;
       (if flt (NeedCheckPause th) (PrintTime (timing th)) then CheckToolheadPause obs others fuel else mret tt);; mret true)).
    { apply always_bind; [by apply stands_queue|intros _]. apply always_bind; [apply always_get|intros t].
      apply always_bind; [|intros _; apply always_ret]. destruct (flt _ _); [by apply stands_check_pause|apply always_ret]. }
    pose proof (Hst (set_pos (End_pos m) th) eq_refl) as Hp. rewrite H in Hp. change (CommandedPos th' = End_pos m) in Hp. by rewrite Hp.
  - injection H as <- <-. unfold prepare in E. apply bind_ret_inv in E as (m0 & Hm & E).
    destruct (feq (Move_d m0) f0) eqn:Hd; [by apply NewMove_near in Hm as [_ Hm]; apply Hm|].
    apply bind_ret_inv in E as (m1 & _ & E). apply bind_ret_inv in E as (d3 & _ & E). by apply bind_ret_inv in E as (m2 & _ & E).
Qed.

(** ** Histories of commands and events *)

(** Operations of the toolhead that do not change where it stands. *)
Definition quiet_op (op : th_op) : bool :=
  match op with
  | OMove _ _ | OManualMove _ _ | ODripMove _ _ | OSetPosition _ _ | OActivateExtruder _ _ => false
  | _ => true
  end.

(** Commands, the events that the module handles after what causes them, and
    operations of the toolhead in between. *)
Inductive gc_op :=
| GCommand (c : gm_command) (gcmd : CommandParams)
| GReady
| GShutdown
| GManualMove (coord : list (option f64)) (v : f64)
| GSetPosition (newpos : list f64) (homingAxes : list Z)
| GHomingMove (target : list f64) (v : f64) (newpos : list f64) (homingAxes : list Z)
| GActivate (e : option ExtrusionLimits) (extrude_pos : f64)
| GHomed (homed : list nat)
| GQuiet (op : th_op) (Hq : quiet_op op = true).

Local Abbreviation th_exec := (exec_op obs drip_done drip_others others fuel).

Definition gc_exec (op : gc_op) : M (GCodeMove Toolhead * Toolhead) unit :=
  match op with
  | GCommand c gcmd => run_command c gcmd
  | GReady => _handle_ready (Some toolhead_as)
  | GShutdown => _handle_shutdown
  | GManualMove coord v => env (th_exec (OManualMove coord v));; Reset_last_position
  | GSetPosition p axes => env (th_exec (OSetPosition p axes));; Reset_last_position
  | GHomingMove t v p axes => env (th_exec (ODripMove t v));; env (th_exec (OSetPosition p axes));; Reset_last_position
  | GActivate e x => env (th_exec (OActivateExtruder e x));; _handle_activate_extruder
  | GHomed axes => _handle_home_rails_end axes
  | GQuiet op _ => env (th_exec op)
  end.

Inductive gc_reachable : GCodeMove Toolhead * Toolhead → Prop :=
| gc_start th : gc_reachable (LoadConfigGCodeMove, th)
| gc_step op s s' : gc_reachable s → gc_exec op s = (Ret tt, s') → gc_reachable s'.

#[local] Instance toolhead_tracked : Tracked toolhead_as (λ th p, near (CommandedPos th) p).
Proof using drip_stands others_stand.
  constructor; [intros p v th th'; apply move_near|]. intros th p th' [= <- <-]. by left.
Qed.

Lemma quiet_stands op p : quiet_op op = true → always (stands p) (th_exec op).
Proof using drip_stands others_stand.
  assert (Hfl : always (stands p) (_flush_lookahead obs drip_done drip_others fuel)) by (unfold _flush_lookahead; stand_steps).
  assert (Haf : ∀ x, always (stands p) (advance_flush_time x)) by (intros x; unfold advance_flush_time; stand_steps).
  assert (Hsg : always (stands p) (Flush_step_generation obs drip_done drip_others fuel))
    by (unfold Flush_step_generation; stand_steps).
  assert (Hlm : always (stands p) (Toolhead.Get_last_move_time obs drip_done drip_others fuel))
    by (unfold Toolhead.Get_last_move_time; stand_steps).
  assert (Hwl : ∀ n s t c e, always (stands p) (wait_loop obs others n s t c e)).
  { induction n as [|n IH]; intros; cbn [wait_loop]; [apply always_panic|]. unfold pause. stand_steps. }
  destruct op; try done; intros _; cbn [exec_op]; unfold RunToolheadDwell, Toolhead.Wait_moves, Priming_handler,
    HandleToolheadFlushCallback, Register_lookahead_callback, Note_step_generation_scan_time, ApplyToolheadVelocityLimitUpdate;
    stand_steps; by apply stands_mfor.
Qed.

Local Abbreviation tracked := (tracks toolhead_as toolhead_as (λ th p, near (CommandedPos th) p)).

Lemma op_tracks op : keeps tracked (gc_exec op).
Proof using drip_stands others_stand.
  pose proof (Reset_tracks toolhead_as toolhead_as (λ th p, near (CommandedPos th) p)) as Hr.
  destruct op; cbn [gc_exec].
  - apply command_tracks, _.
  - apply ready_tracks, _.
  - apply shutdown_tracks.
  - apply tracks_wired, wired_then; [apply wired_env|by intros _].
  - apply tracks_wired, wired_then; [apply wired_env|by intros _].
  - apply tracks_wired, wired_then; [apply wired_env|intros _]. by apply wired_then; [apply wired_env|intros _].
  - apply tracks_wired, wired_then; [apply wired_env|intros _]. apply activate_tracks, _.
  - apply homed_tracks, _.
  - apply keeps_tracks_env. intros p th Hp. pose proof (quiet_stands op (CommandedPos th) Hq th eq_refl) as H.
    destruct (th_exec op th) as [[[]|w] th']; [|done]. change (CommandedPos th' = CommandedPos th) in H. cbn. by rewrite H.
Qed.

(** C2. After any history of commands and events that went through, with manual moves,
    homing moves and position changes in between, the toolhead stands where the G-code
    state of a ready printer says, up to a distance below which no move is made. *)
Theorem gcode_tracks_toolhead (s : GCodeMove Toolhead * Toolhead) :
  gc_reachable s → gm_ready s.1 = true → near (CommandedPos s.2) (lastPosition (gm s.1)).
Proof using drip_stands others_stand.
  intros H. assert (Ht : tracked s); [|by apply Ht]. induction H as [th|op s s' _ IH E].
  { split; [|done]. split; [done|]. by intros [H|H]. }
 
  pose proof (op_tracks op s IH) as H'. by rewrite E in H'.
Qed.
End Near.


(** ** The cartesian machine of the toolhead's examples *)

Local Abbreviation demo_gc := (gc_exec demo_obs (λ _, false) demo_idle demo_idle 3).
Local Abbreviation demo_reachable := (gc_reachable demo_obs (λ _, false) demo_idle demo_idle 3).
Definition demo_G1 (ps : list (string * string)) : gc_op := GCommand G1 (mkParams (list_to_map ps) "" "G1").
Definition demo_ready : GCodeMove Toolhead * Toolhead := (demo_gc GReady (LoadConfigGCodeMove, demo_homed_th)).2.
Definition demo_at_ten : GCodeMove Toolhead * Toolhead := (demo_gc (demo_G1 [("X", "10"); ("F", "6000")]%string) demo_ready).2.

Lemma demo_idle_stands p : always (stands p) demo_idle.
Proof. by intros s. Qed.

Lemma demo_reach_step op s : demo_reachable s → (demo_gc op s).1 = Ret tt → demo_reachable (demo_gc op s).2.
Proof. intros Hs E. apply (gc_step _ _ _ _ _ op s _ Hs). by rewrite <- E, <- surjective_pairing. Qed.

Lemma gcode_tracks_toolhead_witness :
  near (CommandedPos demo_at_ten.2) (lastPosition (gm demo_at_ten.1)) ∧ lastPosition (gm demo_at_ten.1) = demo_p 10 0.
Proof.
  split; [|by vm_compute].
  apply (gcode_tracks_toolhead demo_obs (λ _, false) demo_idle demo_idle 3 demo_idle_stands demo_idle_stands); [|by vm_compute].
  apply demo_reach_step; [|by vm_compute]. apply demo_reach_step; [|by vm_compute]. apply gc_start.
Defined.

(** A move that is rejected leaves the G-code position at its target: nothing sends
    the event that would reset it, and moves along other axes are rejected too. *)
Lemma rejected_G1_loses_position :
  let r := demo_gc (demo_G1 [("X", "500")]%string) demo_at_ten in
  let r2 := demo_gc (demo_G1 [("Y", "5")]%string) r.2 in
  r.1 = Panic "Move out of range" ∧ CommandedPos r.2.2 = demo_p 10 0 ∧ lastPosition (gm r.2.1) = demo_p 500 0 ∧
  r2.1 = Panic "Move out of range".
Proof. by vm_compute. Qed.

(** M220 S0 is clamped to the bound it excludes; the speed is lost with it. *)
Lemma M220_S0_loses_speed :
  let m220 (v : string) := Cmd_M220 (mkParams {["S"%string := v]} "" "M220") in
  (c ← m220 "0"%string new_coords; c ← m220 "100"%string c; Ret (speed c)) = Ret f_NaN.
Proof. by vm_compute. Qed.

(** The first transform that is set before the toolhead's gets no successor. *)
Lemma first_transform_has_no_successor {E} (toolhead : option (transform E)) (t : transform E) s :
  moveTransform s.1 = None → (Set_move_transform toolhead None t false s).1 = Ret None.
Proof.
  intros H. unfold Set_move_transform, mbind, M_bind, self_, gets. rewrite H. by destruct toolhead.
Qed.
