(* ===== verification/GcodeMoveTypes.v ===== *)
(** * The types of G-code positions

    Every position that the G-code state holds has its four coordinates, whatever
    commands and events the module sees and whether they go through or not, so that
    no handler indexes out of range ([coordinates_stay_four]). *)

From S2P Require Import Prelude GoFloat GoStrings GoState GoParseFloat GcodeParse Gcode GcodeMove.

(** ** Positions have four coordinates *)

Definition wf_coords (c : coords) : Prop :=
  length (basePosition c) = 4%nat ∧ length (lastPosition c) = 4%nat ∧ length (homingPosition c) = 4%nat.
Definition wf_saved (st : savedState) : Prop :=
  length (s_basePosition st) = 4%nat ∧ length (s_lastPosition st) = 4%nat ∧ length (s_homingPosition st) = 4%nat.

Definition index_panic : string := "index out of range".

(** A result that is fine: a good value, or a panic for another reason. *)
Definition fine {A} (P : A → Prop) (r : go A) : Prop :=
  match r with Ret a => P a | Panic w => w ≠ index_panic end.

Lemma fine_bind {A B} (P : A → Prop) (Q : B → Prop) (m : go A) (k : A → go B) :
  fine P m → (∀ a, P a → fine Q (k a)) → fine Q (x ← m; k x).
Proof. destruct m as [a|w]; [intros H Hk; exact (Hk a H)|intros H _; exact H]. Qed.

Lemma fine_weaken {A} (P Q : A → Prop) m : fine P m → (∀ a, P a → Q a) → fine Q m.
Proof. destruct m; simpl; auto. Qed.

Lemma fine_range {S X} (I : S → Prop) (f : S → X → go S) xs s :
  (∀ s x, x ∈ xs → I s → fine I (f s x)) → I s → fine I (range f s xs).
Proof.
  revert s. induction xs as [|x xs IH]; intros s Hf Hs; [exact Hs|]. cbn [range].
  eapply fine_bind; [apply Hf; [apply list_elem_of_here|exact Hs]|]. intros s' Hs'. apply IH; [|exact Hs'].
  intros s0 x0 Hx0. apply Hf. by apply list_elem_of_further.
Qed.

Definition four (p : list f64) : Prop := length p = 4%nat.

Lemma at_fine p i : four p → (i < 4)%nat → fine (λ _, True) (at_ p i).
Proof. intros Hp Hi. unfold at_. destruct (lookup_lt_is_Some_2 p i) as [v ->]; [by rewrite Hp|done]. Qed.
Lemma put_fine p i v : four p → (i < 4)%nat → fine four (put p i v).
Proof. intros Hp Hi. unfold put. rewrite bool_decide_eq_true_2 by (by rewrite Hp). unfold fine, four. by rewrite length_insert. Qed.
Lemma Get_float_fine gcmd n d a b e f : fine (λ _, True) (Get_float gcmd n (Value d) a b e f).
Proof. unfold Get_float. by case_bool_decide. Qed.

Create HintDb fine.
#[export] Hint Resolve at_fine put_fine Get_float_fine : fine.
#[export] Hint Extern 1 (_ < 4)%nat => lia : fine.
#[export] Hint Extern 1 (four _) => done : fine.

Ltac fine_bind := eapply fine_bind; [solve [eauto 3 with fine]|intros ? ?].

Lemma axes_bound pos axis : (pos, axis) ∈ axes4 → (pos < 4)%nat.
Proof. unfold axes4, axes. intros H. set_unfold in H. simpl in H. naive_solver lia. Qed.

Lemma move_axis_fine params pos axis c : (pos < 4)%nat → wf_coords c → fine wf_coords (move_axis params pos axis c).
Proof.
  intros Hp (Hb & Hl & Hh). unfold move_axis. destruct (params !! axis) as [raw|]; [|by split_and!].
  destruct (ParseFloat raw) as [v [e|]]; [by split_and!|].
  eapply (fine_bind four); [destruct (absoluteCoord c); fine_bind; by apply put_fine|]. intros p Hp'. by split_and!.
Qed.

Lemma move_extruder_fine params c : wf_coords c → fine wf_coords (move_extruder params c).
Proof.
  intros (Hb & Hl & Hh). unfold move_extruder. destruct (params !! _) as [raw|]; [|by split_and!].
  destruct (ParseFloat raw) as [v [e|]]; [by split_and!|].
  eapply (fine_bind four); [destruct (_ || _); fine_bind; apply put_fine; done || lia|]. intros p Hp'. by split_and!.
Qed.

Lemma move_speed_fine params c : wf_coords c → fine wf_coords (move_speed params c).
Proof.
  intros (Hb & Hl & Hh). unfold move_speed. destruct (params !! _) as [raw|]; [|by split_and!].
  destruct (ParseFloat raw) as [v [e|]]; [done|]. destruct (fle v f0); [done|]. by split_and!.
Qed.

Lemma imap_pair_bound {A} (l : list A) i x : (i, x) ∈ imap pair l → (i < length l)%nat.
Proof.
  intros H. apply list_elem_of_lookup in H as [k Hk]. rewrite list_lookup_imap in Hk.
  destruct (l !! k) eqn:E; [|done]. injection Hk as <- <-. by apply lookup_lt_Some in E.
Qed.

Lemma G92_fine gcmd c : wf_coords c → fine wf_coords (Cmd_G92 gcmd c).
Proof.
  intros (Hb & Hl & Hh). unfold Cmd_G92.
  eapply (fine_bind (λ o, length o ≤ 4)%nat).
  - assert (H : ∀ xs o, fine (λ o', length o' = length o + length xs)%nat (range (λ offsets '(_, axis),
       value ← Get_float gcmd axis (Value f_NaN) None None None None;
       Ret (offsets ++ [if is_nan value then None else Some value])) o (xs : list (nat * string)))).
    { induction xs as [|[pos axis] xs IH]; intros o; cbn [range]; [simpl; lia|].
      eapply (fine_bind (λ o', length o' = S (length o))).
      - fine_bind. simpl. rewrite length_app. simpl. lia.
      - intros o' Ho. eapply fine_weaken; [apply IH|]. intros o'' ->. simpl. lia. }
    eapply fine_weaken; [apply H|]. intros o ->. simpl. lia.
  - intros o Ho. eapply (fine_bind four).
    + apply fine_range; [|exact Hb]. intros base [i [v|]] Hin Hbase; [|exact Hbase].
      apply imap_pair_bound in Hin. fine_bind. apply put_fine; [done|lia].
    + intros base Hbase. split_and!; [|done..]. cbn [basePosition with_base]. destruct (forallb _ o); [|done].
      rewrite length_app, length_take, length_drop, Hbase, Hl. lia.
Qed.

Lemma M220_fine gcmd c : wf_coords c → fine wf_coords (Cmd_M220 gcmd c).
Proof. intros (Hb & Hl & Hh). unfold Cmd_M220. fine_bind. by split_and!. Qed.

Lemma M221_fine gcmd c : wf_coords c → fine wf_coords (Cmd_M221 gcmd c).
Proof.
  intros (Hb & Hl & Hh). unfold Cmd_M221. do 3 fine_bind. eapply (fine_bind four); [apply put_fine; [done|lia]|].
  intros p Hp. by split_and!.
Qed.

Lemma offset_fine gcmd r a : a ∈ axes4 → four r.1 ∧ wf_coords r.2 → fine (λ r, four r.1 ∧ wf_coords r.2) (offset_axis gcmd r a).
Proof.
  destruct r as [d c], a as [pos axis]. intros Hin%axes_bound [Hd (Hb & Hl & Hh)]. cbn [fst snd] in *. unfold offset_axis.
  fine_bind. eapply (fine_bind (λ _, True)).
  { destruct (is_nan _); [|done]. fine_bind. destruct (is_nan _); [done|]. by fine_bind. }
  intros [o|] _; [|by split_and!]. fine_bind. fine_bind. fine_bind. fine_bind. fine_bind. by split_and!.
Qed.

Lemma restore_fine st c : wf_saved st → wf_coords c → fine wf_coords (restore_coords st c).
Proof.
  intros (Sb & Sl & Sh) (Hb & Hl & Hh). unfold restore_coords. do 3 fine_bind.
  eapply (fine_bind four); [apply put_fine; [done|lia]|]. intros p Hp. by split_and!.
Qed.

Section Four.
Context {E : Type} (toolhead toolhead_transform : option (transform E)).
Local Abbreviation Store := (GCodeMove E * E)%type.

(** A transform that answers positions of four coordinates and does not run out of
    range on them. *)
Definition good_move (mv : list f64 → f64 → M E unit) : Prop :=
  ∀ p v e, four p → fine (λ _, True) (mv p v e).1.
Definition good_position (m : M E (list f64)) : Prop := ∀ e, fine four (m e).1.
Definition good_transform (t : transform E) : Prop := good_move (t_Move t) ∧ good_position (t_Get_position t).
Hypothesis toolhead_good : ∀ t, toolhead = Some t → good_transform t.

Record wf_module (g : GCodeMove E) : Prop := {
  wf_gm : wf_coords (gm g);
  wf_states : map_Forall (λ _, wf_saved) (savedStates g);
  wf_move : ∀ mv, moveWithTransform g = Some mv → good_move mv;
  wf_position : good_position (positionWithTransform g)
}.

(** Runs from good states to good states, whether it panics or not, and does not
    panic for an index. *)
Definition safe {A} (m : M Store A) : Prop :=
  hoare (λ s, wf_module s.1) m (λ r s, wf_module s.1 ∧ fine (λ _, True) r).

Lemma safe_ret {A} (a : A) : safe (mret a).
Proof. by intros s. Qed.
Lemma safe_panic {A} w : w ≠ index_panic → safe (A := A) (panic w).
Proof. by intros Hw s. Qed.
Lemma safe_lift {A} (m : go A) : fine (λ _, True) m → safe (lift m).
Proof. by intros Hm s. Qed.
Lemma safe_bind {A B} (m : M Store A) (k : A → M Store B) : safe m → (∀ a, safe (k a)) → safe (x ← m; k x).
Proof.
  intros Hm Hk s Hs. specialize (Hm s Hs). unfold mbind, M_bind.
  destruct (m s) as [[a|w] s']; [destruct Hm as [Hm _]; exact (Hk a s' Hm)|exact Hm].
Qed.
Lemma safe_self {B} (k : GCodeMove E → M Store B) : (∀ g, wf_module g → safe (k g)) → safe (x ← self_; k x).
Proof. intros Hk s Hs. by apply (Hk s.1). Qed.
Lemma safe_upd f : (∀ g, wf_module g → wf_module (f g)) → safe (upd_ f).
Proof. intros Hf s Hs. split; [by apply Hf|done]. Qed.

Lemma wf_set c g : wf_coords c → wf_module g → wf_module (set_coords c g).
Proof. intros Hc []. by constructor. Qed.

Lemma safe_change f : (∀ c, wf_coords c → fine wf_coords (f c)) → safe (change f).
Proof.
  intros Hf s Hs. specialize (Hf (gm s.1) (wf_gm _ Hs)). unfold change, mbind, M_bind, self_, gets, lift.
  destruct (f (gm s.1)) as [c|w]; [|done]. split; [by apply wf_set|done].
Qed.

Lemma safe_mfor {X} (xs : list X) body : (∀ x, x ∈ xs → safe (body x)) → safe (mfor xs body).
Proof.
  induction xs as [|x xs IH]; intros H; cbn [mfor]; [apply safe_ret|].
  apply safe_bind; [apply H, list_elem_of_here|intros _; apply IH]. intros y Hy. apply H. by apply list_elem_of_further.
Qed.

Lemma safe_reset : safe Reset_last_position.
Proof.
  unfold Reset_last_position. intros s Hs. unfold mbind, M_bind, self_, gets. destruct (gm_ready s.1); [|done].
  pose proof (wf_position _ Hs s.2) as Hp. unfold env. destruct (positionWithTransform s.1 s.2) as [[p|w] e']; [|done].
  split; [|done]. destruct Hs as [(Hb & Hl & Hh) Hst Hm Hpos]. by constructor.
Qed.

Lemma safe_move why v : why ≠ index_panic → safe (move_to_last why v).
Proof.
  intros Hw s Hs. unfold move_to_last, mbind, M_bind, self_, gets. destruct (moveWithTransform s.1) as [mv|] eqn:Emv; [|done].
  unfold env. pose proof (wf_move _ Hs mv Emv (lastPosition (gm s.1)) v s.2 ltac:(apply (wf_gm _ Hs))) as Hf.
  by destruct (mv (lastPosition (gm s.1)) v s.2) as [[a|w] e'].
Qed.

Lemma Get_fine gcmd n d : fine (λ _, True) (Get gcmd n (Value d)).
Proof. unfold Get. by case_bool_decide. Qed.
Lemma Get_int_fine gcmd n d : fine (λ _, True) (Get_int gcmd n (Value d)).
Proof. unfold Get_int. by case_bool_decide. Qed.

Lemma safe_offset gcmd : safe (Cmd_SET_GCODE_OFFSET gcmd).
Proof.
  intros s Hs. unfold Cmd_SET_GCODE_OFFSET, mbind at 1, M_bind at 1, self_ at 1, gets at 1.
  pose proof (fine_range (λ r, four r.1 ∧ wf_coords r.2) (offset_axis gcmd) axes4 (zeros, gm s.1)
    ltac:(intros r a Ha Hr; by apply offset_fine) (conj eq_refl (wf_gm _ Hs))) as Hr.
  assert (Hl : ∀ m : go (list f64 * coords), fine (λ r, four r.1 ∧ wf_coords r.2) m →
    ∀ k : list f64 * coords → M Store unit, (∀ r, four r.1 ∧ wf_coords r.2 → safe (k r)) → safe (x ← lift m; k x)).
  { intros [r|w] Hm k Hk; [by apply Hk|by intros s0]. }
  refine (Hl _ Hr _ _ s Hs). clear s Hs Hr Hl. intros r [Hd Hc].
  apply (safe_bind (upd_ (set_coords r.2)) _); [|intros _].
  { apply safe_upd. intros g Hg. by apply wf_set. }
  apply safe_bind; [apply safe_lift, Get_int_fine|intros mv]. case_bool_decide; [apply safe_ret|].
  apply safe_self. intros g Hg. apply safe_bind; [apply safe_lift, Get_float_fine|intros v].
  apply safe_bind; [|intros _; by apply safe_move]. apply safe_change. intros c (Hb & Hl & Hh).
  eapply (fine_bind four); [|intros p Hp; by split_and!]. apply fine_range; [|exact Hl].
  intros p [i x] Hin Hp. apply imap_pair_bound in Hin. rewrite Hd in Hin. fine_bind. by apply put_fine.
Qed.

Lemma safe_restore gcmd : safe (Cmd_RESTORE_GCODE_STATE gcmd).
Proof.
  unfold Cmd_RESTORE_GCODE_STATE. apply safe_bind; [apply safe_lift, Get_fine|intros name]. apply safe_self. intros g Hg.
  destruct (savedStates g !! name) as [st|] eqn:Est; [|by apply safe_panic]. pose proof (wf_states _ Hg _ _ Est) as Hst.
  apply safe_bind; [apply safe_change; intros c; by apply restore_fine|intros _].
  apply safe_bind; [apply safe_lift, Get_int_fine|intros mv]. case_bool_decide; [apply safe_ret|].
  apply safe_self. intros g' Hg'. apply safe_bind; [apply safe_lift, Get_float_fine|intros v].
  apply safe_bind; [|intros _; by apply safe_move]. apply safe_change. intros c (Hb & Hl & Hh).
  eapply (fine_bind four); [|intros p Hp; by split_and!]. apply fine_range; [|exact Hl].
  intros p i Hin Hp. assert (Hi : (i < 4)%nat) by (set_unfold in Hin; naive_solver lia).
  eapply fine_bind; [apply at_fine; [apply Hst|exact Hi]|intros ? _]. by apply put_fine.
Qed.

Lemma safe_command c gcmd : safe (run_command c gcmd).
Proof.
  assert (Hflag : ∀ f : coords → coords, (∀ c, wf_coords c → wf_coords (f c)) → safe (change (λ c, Ret (f c)))) by (intros; by apply safe_change).
  destruct c; cbn [run_command]; try (by apply Hflag); try apply safe_ret.
  - unfold applyMoveParameters. apply safe_bind; [|intros _].
    { apply safe_mfor. intros [pos axis] Hin. apply safe_change. intros c. apply move_axis_fine.
      apply (axes_bound pos axis). unfold axes4. apply elem_of_app. by left. }
    apply safe_bind; [apply safe_change, move_extruder_fine|intros _].
    apply safe_bind; [apply safe_change, move_speed_fine|intros _]. apply safe_self. intros g _. by apply safe_move.
  - by apply safe_panic.
  - apply safe_change, G92_fine.
  - apply safe_change, M220_fine.
  - apply safe_change, M221_fine.
  - apply safe_offset.
  - unfold Cmd_SAVE_GCODE_STATE. apply safe_bind; [apply safe_lift, Get_fine|intros name]. apply safe_self. intros g Hg.
    apply safe_upd. intros g' []. constructor; [done| |done..]. apply map_Forall_insert_2; [|done]. apply (wf_gm _ Hg).
  - apply safe_restore.
  - unfold Cmd_M114. apply safe_bind; [|intros _; apply safe_ret]. apply safe_self. intros g Hg. apply safe_lift.
    destruct (wf_gm _ Hg) as (Hb & Hl & _). unfold _get_gcode_position.
    assert (H4 : four (zip_with fsub (lastPosition (gm g)) (basePosition (gm g)))) by (unfold four; rewrite length_zip_with, Hb, Hl; done).
    fine_bind. eapply fine_weaken; [apply put_fine; [done|lia]|done].
Qed.

(** What happens to the module, commands and events; each may panic and is then
    recovered by its caller. *)
Inductive t_op :=
| TCommand (c : gm_command) (gcmd : CommandParams)
| TReady
| TShutdown
| TReset
| TActivate
| THomed (homed : list nat)
| TTransform (t : transform E) (force : bool).

Definition t_ok (op : t_op) : Prop :=
  match op with THomed homed => Forall (λ i, i < 4)%nat homed | TTransform t _ => good_transform t | _ => True end.

Definition t_exec (op : t_op) : M Store unit :=
  match op with
  | TCommand c gcmd => run_command c gcmd
  | TReady => _handle_ready toolhead
  | TShutdown => _handle_shutdown
  | TReset => Reset_last_position
  | TActivate => _handle_activate_extruder
  | THomed homed => _handle_home_rails_end homed
  | TTransform t force => Set_move_transform toolhead toolhead_transform t force;; mret tt
  end.

Lemma wf_wire t x g : good_transform x → wf_module g → wf_module (set_wiring t x g).
Proof. intros [Hx1 Hx2] []. constructor; try done. cbn. by intros mv [= <-]. Qed.

Lemma safe_op op : t_ok op → safe (t_exec op).
Proof using toolhead_good.
  destruct op; cbn [t_ok t_exec]; intros Hop.
  - apply safe_command.
  - unfold _handle_ready. apply safe_bind; [apply safe_upd; intros g []; by constructor|intros _].
    destruct toolhead as [t|]; [|by apply safe_panic]. apply safe_self. intros g _.
    apply safe_bind; [|intros _; apply safe_reset]. destruct (moveTransform g); [apply safe_ret|].
    apply safe_upd. intros g'. apply wf_wire. by apply toolhead_good.
  - unfold _handle_shutdown. apply safe_self. intros g _. destruct (negb _); [apply safe_ret|]. apply safe_upd. intros g' []. by constructor.
  - apply safe_reset.
  - unfold _handle_activate_extruder. apply safe_bind; [apply safe_reset|intros _]. apply safe_change. intros c (Hb & Hl & Hh).
    fine_bind. fine_bind. by split_and!.
  - unfold _handle_home_rails_end. apply safe_bind; [apply safe_reset|intros _]. apply safe_change. intros c (Hb & Hl & Hh).
    eapply (fine_bind four); [|intros b Hb'; by split_and!]. apply fine_range; [|exact Hb]. intros b i Hin Hb'.
    rewrite Forall_forall in Hop. specialize (Hop i Hin). fine_bind. by apply put_fine.
  - apply safe_bind; [|intros _; apply safe_ret]. unfold Set_move_transform. apply safe_self. intros g _.
    destruct (_ && _); [by apply safe_panic|]. apply safe_bind; [|intros _; apply safe_ret]. apply safe_upd. intros g'. by apply wf_wire.
Qed.

Inductive t_reachable : Store → Prop :=
| t_start e : t_reachable (LoadConfigGCodeMove, e)
| t_step op s : t_reachable s → t_ok op → t_reachable (t_exec op s).2.

Lemma reachable_wf s : t_reachable s → wf_module s.1.
Proof using toolhead_good.
  intros Hs. induction Hs as [e|op s _ IH Hop]; [|by apply (safe_op op)]. constructor; [done|apply map_Forall_empty|done|done].
Qed.

(** C27. Over a toolhead and transforms that answer positions of four coordinates, whatever
    commands and events the G-code state sees, including ones that panic, its positions
    keep four coordinates and no handler indexes out of range. *)
Theorem coordinates_stay_four (s : Store) (op : t_op) :
  t_reachable s → t_ok op →
  (t_exec op s).1 ≠ Panic index_panic ∧
  length (basePosition (gm s.1)) = 4%nat ∧ length (lastPosition (gm s.1)) = 4%nat ∧ length (homingPosition (gm s.1)) = 4%nat.
Proof using toolhead_good.
  intros Hs Hop. pose proof (reachable_wf s Hs) as Hw. split; [|apply (wf_gm _ Hw)]. pose proof (safe_op op Hop s Hw) as [_ Hf]. intros E1. by rewrite E1 in Hf.
Qed.

(** ** Saved states *)

(** A history of operations, each recovered by its caller when it panics. *)
Fixpoint t_run (ops : list t_op) (s : Store) : Store :=
  match ops with [] => s | op :: ops => t_run ops (t_exec op s).2 end.

Definition name_of (gcmd : CommandParams) : string :=
  if bool_decide (param gcmd "NAME" = EmptyString) then "default" else param gcmd "NAME".

Lemma Get_name gcmd : Get gcmd "NAME" (Value "default"%string) = Ret (name_of gcmd).
Proof. unfold Get, name_of. by case_bool_decide. Qed.

(** Saves the state under the name. *)
Definition saves (name : string) (op : t_op) : bool :=
  match op with TCommand SAVE_GCODE_STATE gcmd => bool_decide (name_of gcmd = name) | _ => false end.

Definition remembers (name : string) (st : savedState) (s : Store) : Prop := savedStates s.1 !! name = Some st.

Lemma remembers_self name st : always (remembers name st) self_.
Proof. by intros s. Qed.
Lemma remembers_lift {A} name st (m : go A) : always (remembers name st) (lift m).
Proof. by intros s. Qed.
Lemma remembers_env {A} name st (m : M E A) : always (remembers name st) (env m).
Proof. intros s Hs. unfold env. by destruct (m s.2). Qed.
Lemma remembers_change name st f : always (remembers name st) (change f).
Proof. intros s Hs. unfold change, mbind, M_bind, self_, gets, lift. by destruct (f (gm s.1)). Qed.
Lemma remembers_upd name st f : (∀ g, savedStates (f g) !! name = savedStates g !! name) → always (remembers name st) (upd_ f).
Proof. intros Hf s Hs. unfold remembers. cbn. by rewrite Hf. Qed.
Lemma remembers_mfor {X} name st (xs : list X) body :
  (∀ x, always (remembers name st) (body x)) → always (remembers name st) (mfor xs body).
Proof. intros H. induction xs as [|x xs IH]; cbn [mfor]; [apply always_ret|]. apply always_bind; [apply H|by intros _]. Qed.
#[local] Hint Resolve remembers_self remembers_lift remembers_env remembers_change : keeps.

Lemma remembers_op name st op : saves name op = false → always (remembers name st) (t_exec op).
Proof.
  intros Hs. clear toolhead_good.
  assert (Hr : always (remembers name st) Reset_last_position) by (unfold Reset_last_position; always_steps; by apply remembers_upd).
  assert (Hm : ∀ w v, always (remembers name st) (move_to_last w v)) by (intros; unfold move_to_last; always_steps).
  destruct op as [c gcmd| | | | | |]; cbn [t_exec].
  - destruct c; cbn [run_command]; try (by always_steps).
    unfold Cmd_SAVE_GCODE_STATE. rewrite Get_name. intros s Hn. unfold remembers.
    change (<[name_of gcmd := saved (gm s.1)]> (savedStates s.1) !! name = Some st). rewrite lookup_insert_ne; [exact Hn|]. by apply bool_decide_eq_false in Hs.
  - unfold _handle_ready. always_steps; by apply remembers_upd.
  - unfold _handle_shutdown. always_steps; by apply remembers_upd.
  - done.
  - unfold _handle_activate_extruder. always_steps.
  - unfold _handle_home_rails_end. always_steps.
  - unfold Set_move_transform. always_steps; by apply remembers_upd.
Qed.

Lemma remembers_run name st ops s :
  Forall (λ op, saves name op = false) ops → remembers name st s → remembers name st (t_run ops s).
Proof.
  intros H. revert s. induction H as [|op ops Hop _ IH]; intros s Hs; [done|]. apply IH. by apply (remembers_op _ _ _ Hop).
Qed.

Lemma wf_run ops s : Forall t_ok ops → wf_module s.1 → wf_module (t_run ops s).1.
Proof using toolhead_good.
  intros H. revert s. induction H as [|op ops Hop _ IH]; intros s Hs; [done|]. apply IH. by apply (safe_op op).
Qed.

Lemma four_inv p : four p → ∃ x y z e, p = [x; y; z; e].
Proof. destruct p as [|x [|y [|z [|e [|]]]]]; try done. eauto. Qed.

(** The coordinates that restoring [c0] gives when the extruder stands at [e]. *)
Definition restored (c0 : coords) (e : f64) : coords :=
  match basePosition c0, lastPosition c0 with
  | [bx; by_; bz; be], [x; y; z; e0] =>
      mkCoords (absoluteCoord c0) (absoluteExtrude c0) [bx; by_; bz; fadd be (fsub e e0)] [x; y; z; e]
        (homingPosition c0) (speed c0) (speedFactor c0) (extrudeFactor c0)
  | _, _ => c0
  end.

Lemma change_ret (f : coords → go coords) (g : GCodeMove E) (e : E) c :
  f (gm g) = Ret c → change f (g, e) = (Ret tt, (set_coords c g, e)).
Proof. intros H. unfold change, mbind, M_bind, self_, gets, lift. cbn [fst]. by rewrite H. Qed.
Lemma bind_step {A B} (m : M Store A) (k : A → M Store B) s a s' : m s = (Ret a, s') → (x ← m; k x) s = k a s'.
Proof. intros H. unfold mbind, M_bind. by rewrite H. Qed.

(** Restoring a saved G-code state with MOVE=1, after any history in which nothing was
    saved under its name, brings back the modes, factors, speed, offsets and the XYZ
    position as saved, shifts the origin of the extruder by what was extruded since, and
    asks the transform to move there. *)
Theorem restore_returns (s : Store) (ops : list t_op) (save restore : CommandParams) (k : Z) (v : f64) :
  t_reachable s → Forall t_ok ops →
  name_of restore = name_of save → Forall (λ op, saves (name_of save) op = false) ops →
  Get_int restore "MOVE" (Value 0) = Ret k → k ≠ 0 →
  Get_float restore "MOVE_SPEED" (Value (speed (gm s.1))) None None (Some f0) None = Ret v →
  let s2 := t_run (TCommand SAVE_GCODE_STATE save :: ops) s in
  ∃ e, lastPosition (gm s2.1) !! 3%nat = Some e ∧
  t_exec (TCommand RESTORE_GCODE_STATE restore) s2 =
    move_to_last "nil pointer dereference" v (set_coords (restored (gm s.1) e) s2.1, s2.2) ∧
  length (lastPosition (restored (gm s.1) e)) = 4%nat.
Proof using toolhead_good.
  intros Hr Hops En Hno Ek Hk Ev s2. pose proof (reachable_wf s Hr) as Hw.
  assert (Hsave : (t_exec (TCommand SAVE_GCODE_STATE save) s).2 = (save_state (name_of save) (saved (gm s.1)) s.1, s.2)).
  { cbn [t_exec run_command]. unfold Cmd_SAVE_GCODE_STATE. by rewrite Get_name. }
  assert (Hw2 : wf_module s2.1). { apply (wf_run ops); [done|]. by apply (safe_op (TCommand SAVE_GCODE_STATE save) I). }
  assert (Hm : remembers (name_of save) (saved (gm s.1)) s2).
  { unfold s2. cbn [t_run]. apply remembers_run; [done|]. rewrite Hsave. unfold remembers. cbn [fst savedStates save_state]. by rewrite lookup_insert_eq. }
  clearbody s2. clear Hsave Hr Hops Hno.
  destruct (wf_gm _ Hw) as (Hb & Hl & _), (wf_gm _ Hw2) as (_ & Hl2 & _). destruct s as [g e0], s2 as [g2 e2]. cbn [fst snd] in *.
  destruct (gm g) as [ca ce base last hom sp sf ef]. cbn [basePosition lastPosition speed] in *.
  destruct (four_inv _ Hb) as (bx & by_ & bz & be & ->), (four_inv _ Hl) as (x & y & z & e & ->).
  destruct g2 as [r2 [ca2 ce2 base2 last2 hom2 sp2 sf2 ef2] sv2 mt2 mw2 pw2]. cbn [gm lastPosition] in *.
  destruct (four_inv _ Hl2) as (x2 & y2 & z2 & e3 & ->). exists e3. split; [done|]. split; [|done].
  cbn [t_exec run_command]. unfold Cmd_RESTORE_GCODE_STATE. rewrite Get_name, En.
  unfold remembers in Hm. cbn [fst savedStates] in Hm.
  erewrite bind_step by reflexivity. erewrite bind_step by reflexivity. cbn [fst savedStates]. rewrite Hm.
  erewrite bind_step by (by apply change_ret). rewrite Ek. erewrite bind_step by reflexivity.
  rewrite bool_decide_eq_false_2 by done. erewrite bind_step by reflexivity. change (speed (gm _)) with sp. rewrite Ev.
  erewrite bind_step by reflexivity. by erewrite bind_step by (by apply change_ret).
Qed.
End Four.

(** ** A machine of four axes *)

Definition demo_machine : Type := f64 * f64 * f64 * f64.
Definition demo_transform : transform demo_machine :=
  mkTransform (λ p _, match p with [x; y; z; e] => modify (λ _, (x, y, z, e)) | _ => panic index_panic end)
    (gets (λ '(x, y, z, e), [x; y; z; e])).

Lemma demo_good t : Some demo_transform = Some t → good_transform t.
Proof.
  intros [= <-]. split.
  - intros p v e Hp. by destruct (four_inv p Hp) as (x & y & z & e' & ->).
  - by intros [[[x y] z] e].
Qed.

Definition demo_cmd (c : gm_command) (name : string) (ps : list (string * string)) : @t_op demo_machine :=
  TCommand c (mkParams (list_to_map ps) "" name).
Definition demo_t_start : GCodeMove demo_machine * demo_machine := (LoadConfigGCodeMove, (f0, f0, f0, f0)).
Local Abbreviation demo_run := (t_run (Some demo_transform) None).
Definition demo_before : GCodeMove demo_machine * demo_machine :=
  (t_exec (Some demo_transform) None (demo_cmd G1 "G1" [("X", "10"); ("E", "2")])
     (t_exec (Some demo_transform) None TReady demo_t_start).2).2.
Definition demo_between : list (@t_op demo_machine) :=
  [demo_cmd G91 "G91" []; demo_cmd M83 "M83" []; demo_cmd M220 "M220" [("S", "50")]; demo_cmd G1 "G1" [("X", "5"); ("E", "1"); ("F", "60")]].
Definition demo_save : CommandParams := mkParams {["NAME"%string := "a"%string]} "" "SAVE_GCODE_STATE".
Definition demo_restore : CommandParams :=
  mkParams (list_to_map [("NAME", "a"); ("MOVE", "1")]%string) "" "RESTORE_GCODE_STATE".

Lemma demo_before_reachable : t_reachable (Some demo_transform) None demo_before.
Proof. apply t_step; [|done]. apply t_step; [|done]. apply t_start. Qed.

Lemma coordinates_stay_four_witness :
  (t_exec (Some demo_transform) None (demo_cmd G92 "G92" [("E", "0")]) demo_before).1 ≠ Panic index_panic ∧
  length (basePosition (gm demo_before.1)) = 4%nat ∧ length (lastPosition (gm demo_before.1)) = 4%nat ∧
  length (homingPosition (gm demo_before.1)) = 4%nat.
Proof. exact (coordinates_stay_four (Some demo_transform) None demo_good demo_before (demo_cmd G92 "G92" [("E", "0")]) demo_before_reachable I). Defined.

(** The extruder went on by 1, and the rest is back. *)
Lemma restore_returns_witness :
  let s2 := demo_run (TCommand SAVE_GCODE_STATE demo_save :: demo_between) demo_before in
  let s3 := t_exec (Some demo_transform) None (TCommand RESTORE_GCODE_STATE demo_restore) s2 in
  (∃ e, lastPosition (gm s2.1) !! 3%nat = Some e ∧
    s3 = move_to_last "nil pointer dereference" (f_of_Z 25) (set_coords (restored (gm demo_before.1) e) s2.1, s2.2) ∧
    length (lastPosition (restored (gm demo_before.1) e)) = 4%nat) ∧
  s3.2.2 = (f_of_Z 10, f0, f0, f_of_Z 3) ∧ s2.2 = (f_of_Z 15, f0, f0, f_of_Z 3).
Proof.
  split; [|by vm_compute].
  apply (restore_returns (Some demo_transform) None demo_good demo_before demo_between demo_save demo_restore 1 (f_of_Z 25)
    demo_before_reachable); [by repeat constructor|reflexivity|by repeat constructor|reflexivity|done|vm_compute; reflexivity].
Defined.
