(* ===== verification/ZMesh.v ===== *)
(** * The mesh of the bed

    [src/internal/pkg/motion/bed_mesh/z_mesh.go] with the helpers of [helpers.go] that
    it uses: a table of heights, interpolated from the probed points (directly, by
    Lagrange polynomials or by cardinal splines), and its evaluation anywhere on the
    bed.  [Mesh_params] is a record of its entries.  Sizes are Go [int]s far from their
    limits and are not wrapped.  A nil matrix is [None]. *)

From S2P Require Import Prelude GoFloat GoStrings GoParseFloat.

(** [math.Floor]. *)
Definition f_floor (x : f64) : f64 :=
  match x with
  | SpecFloat.S754_finite sgn m e =>
      if e <? 0 then f_of_Z ((if sgn then Z.neg m else Z.pos m) / 2 ^ (- e)) else x
  | _ => x
  end.

(** ** Helpers *)

Definition Isclose (a b relTol absTol : f64) : bool :=
  fle (fabs (fsub a b)) (fmax (fmul relTol (fmax (fabs a) (fabs b))) absTol).
Definition Constrain (val minVal maxVal : f64) : f64 := fmin maxVal (fmax minVal val).
Definition Lerp (t v0 v1 : f64) : f64 := fadd (fmul (fsub f1 t) v0) (fmul t v1).

(** [a % b] and [a / b]. *)
Definition go_rem (a b : Z) : go Z := if b =? 0 then Panic "integer divide by zero" else Ret (Z.rem a b).
Definition go_quot (a b : Z) : go Z := if b =? 0 then Panic "integer divide by zero" else Ret (Z.quot a b).

(** [s[i] = v]. *)
Definition set_index {A} (s : list A) (i : Z) (v : A) : go (list A) :=
  if bool_decide (0 ≤ i < len s) then Ret (<[Z.to_nat i := v]> s) else Panic "index out of range".

Definition matrix : Type := list (list f64).
Definition cell (m : matrix) (y x : Z) : go f64 := row ← m.[y]; row.[x].
Definition set_cell (m : matrix) (y x : Z) (v : f64) : go matrix :=
  row ← m.[y]; row ← set_index row x v; set_index m y row.

(** ** The mesh *)

Record mesh_params := mkMeshParams {
  p_min_x : f64; p_max_x : f64; p_min_y : f64; p_max_y : f64;
  p_x_count : Z; p_y_count : Z; p_mesh_x_pps : Z; p_mesh_y_pps : Z;
  p_algo : string; p_tension : f64
}.

Record ZMesh := mkZMesh {
  Probed_matrix : option matrix;
  Mesh_matrix : option matrix;
  Mesh_params : mesh_params;
  Avg_z : f64;
  Mesh_offsets : list f64;
  Mesh_x_min : f64; Mesh_x_max : f64; Mesh_y_min : f64; Mesh_y_max : f64;
  Mesh_x_count : Z; Mesh_y_count : Z;
  X_mult : Z; Y_mult : Z;
  Mesh_x_dist : f64; Mesh_y_dist : f64
}.

Definition NewZMesh (params : mesh_params) : ZMesh :=
  let xc := (p_x_count params - 1) * p_mesh_x_pps params + p_x_count params in
  let yc := (p_y_count params - 1) * p_mesh_y_pps params + p_y_count params in
  mkZMesh None None params f0 [f0; f0] (p_min_x params) (p_max_x params) (p_min_y params) (p_max_y params) xc yc
    (p_mesh_x_pps params + 1) (p_mesh_y_pps params + 1)
    (fdiv (fsub (p_max_x params) (p_min_x params)) (f_of_Z (xc - 1)))
    (fdiv (fsub (p_max_y params) (p_min_y params)) (f_of_Z (yc - 1))).

Definition with_matrix (m : option matrix) (z : ZMesh) : ZMesh :=
  mkZMesh (Probed_matrix z) m (Mesh_params z) (Avg_z z) (Mesh_offsets z) (Mesh_x_min z) (Mesh_x_max z) (Mesh_y_min z)
    (Mesh_y_max z) (Mesh_x_count z) (Mesh_y_count z) (X_mult z) (Y_mult z) (Mesh_x_dist z) (Mesh_y_dist z).
Definition with_probed (m : option matrix) (z : ZMesh) : ZMesh :=
  mkZMesh m (Mesh_matrix z) (Mesh_params z) (Avg_z z) (Mesh_offsets z) (Mesh_x_min z) (Mesh_x_max z) (Mesh_y_min z)
    (Mesh_y_max z) (Mesh_x_count z) (Mesh_y_count z) (X_mult z) (Y_mult z) (Mesh_x_dist z) (Mesh_y_dist z).
Definition with_avg (a : f64) (z : ZMesh) : ZMesh :=
  mkZMesh (Probed_matrix z) (Mesh_matrix z) (Mesh_params z) a (Mesh_offsets z) (Mesh_x_min z) (Mesh_x_max z) (Mesh_y_min z)
    (Mesh_y_max z) (Mesh_x_count z) (Mesh_y_count z) (X_mult z) (Y_mult z) (Mesh_x_dist z) (Mesh_y_dist z).
Definition with_offsets (o : list f64) (z : ZMesh) : ZMesh :=
  mkZMesh (Probed_matrix z) (Mesh_matrix z) (Mesh_params z) (Avg_z z) o (Mesh_x_min z) (Mesh_x_max z) (Mesh_y_min z)
    (Mesh_y_max z) (Mesh_x_count z) (Mesh_y_count z) (X_mult z) (Y_mult z) (Mesh_x_dist z) (Mesh_y_dist z).

Definition Get_x_coordinate (z : ZMesh) (i : Z) : f64 := fadd (Mesh_x_min z) (fmul (Mesh_x_dist z) (f_of_Z i)).
Definition Get_y_coordinate (z : ZMesh) (i : Z) : f64 := fadd (Mesh_y_min z) (fmul (Mesh_y_dist z) (f_of_Z i)).

(** [Get_mesh_matrix] and [Get_probed_matrix]: rounded to millionths. *)
Definition rounded (m : option matrix) : option matrix :=
  map (map (λ z, fdiv (f_round (fmul z (f_of_Z 1000000))) (f_of_Z 1000000))) <$> m.
Definition Get_mesh_matrix (z : ZMesh) : option matrix := rounded (Mesh_matrix z).
Definition Get_probed_matrix (z : ZMesh) : option matrix := rounded (Probed_matrix z).

(** ** Evaluation *)

(** [int(math.Floor(v))] where [v] does not fit an [int] is left to the platform:
    [conv]. *)
Definition Get_linear_index (conv : f64 → Z) (z : ZMesh) (coord : f64) (axis : Z) : f64 * Z :=
  let '(meshMin, meshCnt, meshDist, cfunc) :=
    if bool_decide (axis = 0) then (Mesh_x_min z, Mesh_x_count z, Mesh_x_dist z, Get_x_coordinate z)
    else (Mesh_y_min z, Mesh_y_count z, Mesh_y_dist z, Get_y_coordinate z) in
  let idx := conv (f_floor (fdiv (fsub coord meshMin) meshDist)) in
  let idx := f_trunc (Constrain (f_of_Z idx) f0 (f_of_Z (meshCnt - 2))) in
  let t := fdiv (fsub coord (cfunc idx)) meshDist in
  (Constrain t f0 f1, idx).

Definition Calc_z (conv : f64 → Z) (z : ZMesh) (x y : f64) : go f64 :=
  match Mesh_matrix z with
  | None => Ret f0
  | Some tbl =>
      ox ← (Mesh_offsets z).[0];
      let '(tx, xidx) := Get_linear_index conv z (fadd x ox) 0 in
      oy ← (Mesh_offsets z).[1];
      let '(ty, yidx) := Get_linear_index conv z (fadd y oy) 1 in
      a ← cell tbl yidx xidx;
      b ← cell tbl yidx (xidx + 1);
      c ← cell tbl (yidx + 1) xidx;
      d ← cell tbl (yidx + 1) (xidx + 1);
      Ret (Lerp ty (Lerp tx a b) (Lerp tx c d))
  end.

Definition row_range (x : list f64) : f64 * f64 :=
  fold_left (λ '(mn, mx) item, (if flt item mn then item else mn, if flt mx item then item else mx)) x (f0, f0).
Definition Get_z_range (z : ZMesh) : f64 * f64 :=
  match Mesh_matrix z with
  | None => (f0, f0)
  | Some m =>
      fold_left (λ '(mesh_min, mesh_max) x, let '(mn, mx) := row_range x in
        (if flt mn mesh_min then mn else mesh_min, if flt mesh_max mx then mx else mesh_max)) m (f0, f0)
  end.

Definition Set_mesh_offsets (offsets : list f64) (z : ZMesh) : go ZMesh :=
  o ← range_idx (λ os i o, if feq o f0 then Ret os else set_index os i o) 0 (Mesh_offsets z) offsets;
  Ret (with_offsets o z).

(** ** Sampling *)

(** One cell, one row and the whole of the matrix with the probed points in place and
    zeros between; the rows are appended to what there is. *)
Definition spread_cell (z : ZMesh) (z_matrix : matrix) (j i : Z) : go f64 :=
  rx ← go_rem i (X_mult z);
  if bool_decide (rx ≠ 0) then Ret f0
  else ry ← go_rem j (Y_mult z);
       if bool_decide (ry ≠ 0) then Ret f0
       else qy ← go_quot j (Y_mult z);
            row ← z_matrix.[qy];
            qx ← go_quot i (X_mult z);
            row.[qx].
Definition spread_row (z : ZMesh) (z_matrix : matrix) (j : Z) : go (list f64) :=
  range (λ arr i, val ← spread_cell z z_matrix j i; Ret (arr ++ [val])) [] (seqZ 0 (Mesh_x_count z)).
Definition spread (z : ZMesh) (z_matrix : matrix) : go matrix :=
  range (λ m j, arr ← spread_row z z_matrix j; Ret (m ++ [arr])) (default [] (Mesh_matrix z)) (seqZ 0 (Mesh_y_count z)).

(** First the rows that hold probed points, then every column: the cells between
    are computed by [fx] and [fy] from the matrix so far. *)
Definition fill (z : ZMesh) (fx fy : matrix → Z → Z → go f64) (m : matrix) : go matrix :=
  m ← range (λ m y,
    ry ← go_rem y (Y_mult z);
    if bool_decide (ry ≠ 0) then Ret m
    else range (λ m x,
      rx ← go_rem x (X_mult z);
      if bool_decide (rx = 0) then Ret m
      else v ← fx m x y; set_cell m y x v) m (seqZ 0 (Mesh_x_count z))) m (seqZ 0 (Mesh_y_count z));
  range (λ m x,
    range (λ m y,
      ry ← go_rem y (Y_mult z);
      if bool_decide (ry = 0) then Ret m
      else v ← fy m x y; set_cell m y x v) m (seqZ 0 (Mesh_y_count z))) m (seqZ 0 (Mesh_x_count z)).

(** [Sample_*] make the matrix non-nil when they append a row. *)
Definition nilled (m : matrix) : option matrix := match m with [] => None | _ => Some m end.

Definition Get_lagrange_coords (z : ZMesh) : list f64 * list f64 :=
  (map (λ i, Get_x_coordinate z (i * X_mult z)) (seqZ 0 (p_x_count (Mesh_params z))),
   map (λ j, Get_y_coordinate z (j * Y_mult z)) (seqZ 0 (p_y_count (Mesh_params z)))).

Definition Calc_lagrange (z : ZMesh) (m : matrix) (lpts : list f64) (c : f64) (vec axis : Z) : go f64 :=
  range_idx (λ total i li,
    let '(n, d) := fold_left (λ '(n, d) '(j, lj),
      if bool_decide (j = Z.to_nat i) then (n, d) else (fmul n (fsub c lj), fmul d (fsub li lj))) (imap pair lpts) (f1, f1) in
    zv ← (if bool_decide (axis = 0) then cell m vec (i * X_mult z) else cell m (i * Y_mult z) vec);
    Ret (fadd total (fdiv (fmul zv n) d))) 0 f0 lpts.

Definition Sample_lagrange (z_matrix : matrix) (z : ZMesh) : go ZMesh :=
  m ← spread z z_matrix;
  let '(xpts, ypts) := Get_lagrange_coords z in
  m ← fill z (λ m x y, Calc_lagrange z m xpts (Get_x_coordinate z x) y 0)
           (λ m x y, Calc_lagrange z m ypts (Get_y_coordinate z y) x 1) m;
  Ret (with_matrix (nilled m) z).

(** The first [i = mult, 2 mult, ...] below [last_pt] that passes the test. *)
Definition ctl_find (mult last_pt : Z) (test : Z → bool) : option Z :=
  head (filter (λ i, i < last_pt ∧ test i = true) (map (λ k, k * mult) (seqZ 1 (Z.max 0 last_pt)))).

(** The control points around index [x] on a line read by [at_], with the test that
    the search makes. *)
Definition ctl_pts (at_ : Z → go f64) (mult count x : Z) (test : Z → bool) (why : string) : go (list f64) :=
  let last_pt := count - 1 - mult in
  let frac i := fdiv (f_of_Z (x - i)) (f_of_Z mult) in
  if bool_decide (x < mult) then
    p0 ← at_ 0; p1 ← at_ 0; p2 ← at_ mult; p3 ← at_ (2 * mult);
    Ret [p0; p1; p2; p3; fdiv (f_of_Z x) (f_of_Z mult)]
  else if bool_decide (last_pt < x) then
    p0 ← at_ (last_pt - mult); p1 ← at_ last_pt; p2 ← at_ (last_pt + mult); p3 ← at_ (last_pt + mult);
    Ret [p0; p1; p2; p3; frac last_pt]
  else
    match ctl_find mult last_pt test with
    | None => Panic why
    | Some i =>
        p0 ← at_ (i - mult); p1 ← at_ i; p2 ← at_ (i + mult); p3 ← at_ (i + 2 * mult);
        Ret [p0; p1; p2; p3; frac i]
    end.

Definition Get_x_ctl_pts (z : ZMesh) (m : matrix) (x y : Z) : go (list f64) :=
  x_row ← m.[y];
  ctl_pts (index x_row) (X_mult z) (Mesh_x_count z) x (λ i, (i <? x) && (x <? i + X_mult z))
    "bed_mesh: Error finding x control points".

Definition Get_y_ctl_pts (z : ZMesh) (m : matrix) (x y : Z) : go (list f64) :=
  ctl_pts (λ i, cell m i x) (Y_mult z) (Mesh_y_count z) y (λ i, (1 <? y) && (y <? i + Y_mult z))
    "bed_mesh: Error finding y control points".

Definition Cardinal_spline (p : list f64) (tension : f64) : go f64 :=
  let f2 := f_of_Z 2 in let f3 := f_of_Z 3 in
  t ← p.[4]; p0 ← p.[0]; p1 ← p.[1]; p2 ← p.[2]; p3 ← p.[3];
  let t2 := fmul t t in
  let t3 := fmul t2 t in
  let m1 := fmul tension (fsub p2 p0) in
  let m2 := fmul tension (fsub p3 p1) in
  let a := fmul p1 (fadd (fsub (fmul f2 t3) (fmul f3 t2)) f1) in
  let b := fmul p2 (fadd (fmul (fneg f2) t3) (fmul f3 t2)) in
  let c := fmul m1 (fadd (fsub t3 (fmul f2 t2)) t) in
  let d := fmul m2 (fsub t3 t2) in
  Ret (fadd (fadd (fadd a b) c) d).

Definition Sample_bicubic (z_matrix : matrix) (z : ZMesh) : go ZMesh :=
  let c := p_tension (Mesh_params z) in
  m ← spread z z_matrix;
  m ← fill z (λ m x y, pts ← Get_x_ctl_pts z m x y; Cardinal_spline pts c)
           (λ m x y, pts ← Get_y_ctl_pts z m x y; Cardinal_spline pts c) m;
  Ret (with_matrix (nilled m) z).

Definition Sample_direct (z_matrix : matrix) (z : ZMesh) : go ZMesh := Ret (with_matrix (Some z_matrix) z).

(** The [Sample] that [NewZMesh] picks. *)
Definition Sample (z_matrix : matrix) (z : ZMesh) : go ZMesh :=
  let algo := p_algo (Mesh_params z) in
  if bool_decide (algo = "lagrange"%string) then Sample_lagrange z_matrix z
  else if bool_decide (algo = "bicubic"%string) then Sample_bicubic z_matrix z
  else if bool_decide (algo = "direct"%string) then Sample_direct z_matrix z
  else Panic "nil pointer dereference".

Definition Build_mesh (z_matrix : matrix) (z : ZMesh) : go ZMesh :=
  z ← Sample z_matrix (with_probed (Some z_matrix) z);
  let m := default [] (Mesh_matrix z) in
  let sum_val := fold_left (λ s x, fadd s (fold_left fadd x f0)) m f0 in
  let len_val := fold_left (λ n x, n + len x) m 0 in
  let avg := fdiv sum_val (f_of_Z len_val) in
  Ret (with_avg (fdiv (f_round (fmul avg (f_of_Z 1000))) (f_of_Z 1000)) z).

(** [BuildMeshSafely]: a panic becomes an error. *)
Definition BuildMeshSafely (z_matrix : matrix) (z : ZMesh) : string + ZMesh :=
  match Build_mesh z_matrix z with Ret z => inr z | Panic w => inl ("error: " ++ w)%string end.

(** [NormalizeMeshAlgorithm] ([mesh_calibrator.go]): the algorithm to use, and whether it
    was forced. *)
Definition NormalizeMeshAlgorithm (algo : string) (xPps yPps xCount yCount : Z) : string + (string * bool) :=
  let algo := ToLower (TrimSpace algo) in
  if bool_decide (algo ∈ ["lagrange"; "bicubic"; "direct"]%string) then
    let maxProbeCount := if xCount <? yCount then yCount else xCount in
    let minProbeCount := if yCount <? xCount then yCount else xCount in
    let maxPps := if xPps <? yPps then yPps else xPps in
    if maxPps =? 0 then inr ("direct"%string, negb (bool_decide (algo = "direct"%string)))
    else if bool_decide (algo = "lagrange"%string) && (6 <? maxProbeCount) then
      inl "bed_mesh: cannot exceed a probe_count of 6 when using lagrange interpolation"%string
    else if bool_decide (algo = "bicubic"%string) && (minProbeCount <? 4) then
      if 6 <? maxProbeCount then inl "bed_mesh: invalid probe_count option when using bicubic interpolation"%string
      else inr ("lagrange"%string, true)
    else inr (algo, false)
  else inl "bed_mesh: Unknown algorithm"%string.
