(* ===== verification/ZMeshThy.v ===== *)
(** * Theorems on the mesh of the bed

    Building the mesh from a table of probed points returns a table of the full size
    that passes through every probed point, for each algorithm that the configuration
    lets through ([mesh_passes_probed_points]); reading the mesh never runs out of
    range, wherever on or off the bed ([Calc_z_total]). *)

From S2P Require Import Prelude GoFloat GoFloatRound GoFloatInt GoFloatUpper GoStrings ZMesh.

(** ** Loops that return *)

Lemma range_total {S X} (I : S → Prop) (f : S → X → go S) xs s :
  (∀ s x, x ∈ xs → I s → ∃ s', f s x = Ret s' ∧ I s') → I s → ∃ s', range f s xs = Ret s' ∧ I s'.
Proof.
  revert s. induction xs as [|x xs IH]; intros s Hf Hs; [by exists s|]. cbn [range].
  destruct (Hf s x) as (s1 & -> & H1); [apply list_elem_of_here|done|]. apply IH; [|done].
  intros s0 x0 Hx. apply Hf. by apply list_elem_of_further.
Qed.

Lemma bind_total {A B} (P : A → Prop) (Q : B → Prop) (m : go A) (k : A → go B) :
  (∃ a, m = Ret a ∧ P a) → (∀ a, P a → ∃ b, k a = Ret b ∧ Q b) → ∃ b, (x ← m; k x) = Ret b ∧ Q b.
Proof. intros (a & -> & Ha) Hk. exact (Hk a Ha). Qed.

Lemma range_idx_total {S X} (f : S → Z → X → go S) i s xs :
  (∀ s k x, i ≤ k < i + len xs → ∃ s', f s k x = Ret s') → ∃ s', range_idx f i s xs = Ret s'.
Proof.
  revert i s. induction xs as [|x xs IH]; intros i s Hf; [by exists s|]. cbn [range_idx]. rewrite len_cons in Hf.
  pose proof (len_nonneg xs). destruct (Hf s i x) as [s1 ->]; [lia|]. apply IH. intros s0 k x0 Hk. apply Hf. lia.
Qed.

(** A loop over 0, 1, ... with an invariant of the number of rounds made. *)
Lemma range_seqZ {S} (I : Z → S → Prop) (f : S → Z → go S) n s :
  (∀ s k, 0 ≤ k < n → I k s → ∃ s', f s k = Ret s' ∧ I (k + 1) s') → I 0 s → 0 ≤ n →
  ∃ s', range f s (seqZ 0 n) = Ret s' ∧ I n s'.
Proof.
  intros Hf H0 Hn. assert (H : ∀ k s, 0 ≤ k ≤ n → I k s → ∃ s', range f s (seqZ k (n - k)) = Ret s' ∧ I n s').
  { intros k. remember (Z.to_nat (n - k)) as c eqn:Ec. revert k Ec. induction c as [|c IH]; intros k Ec s0 Hk Hs.
    - replace (n - k) with 0 by lia. exists s0. by replace n with k by lia.
    - rewrite seqZ_cons by lia. cbn [range]. destruct (Hf s0 k) as (s1 & -> & H1); [lia|done|].
      replace (Z.pred (n - k)) with (n - (k + 1)) by lia. replace (Z.succ k) with (k + 1) by lia. apply IH; [lia|lia|done]. }
  replace (seqZ 0 n) with (seqZ 0 (n - 0)) by (f_equal; lia). apply H; [lia|done].
Qed.

(** ** Tables *)

Definition dims (h w : Z) (m : matrix) : Prop := len m = h ∧ Forall (λ r : list f64, len r = w) m.

Lemma set_index_total {A} (s : list A) i v : 0 ≤ i < len s → set_index s i v = Ret (<[Z.to_nat i := v]> s).
Proof. intros Hi. unfold set_index. by rewrite bool_decide_eq_true_2. Qed.

Lemma index_insert_eq {A} (s : list A) i v : 0 ≤ i < len s → (<[Z.to_nat i := v]> s).[i] = Ret v.
Proof.
  intros Hi. unfold index. rewrite bool_decide_eq_true_2 by lia. rewrite list_lookup_insert_eq; [done|unfold len in Hi; lia].
Qed.
Lemma index_insert_ne {A} (s : list A) i j v : 0 ≤ i → i ≠ j → (<[Z.to_nat i := v]> s).[j] = s.[j].
Proof.
  intros Hi Hj. unfold index. case_bool_decide; [|done]. by rewrite list_lookup_insert_ne by lia.
Qed.

Lemma cell_total h w m y x : dims h w m → 0 ≤ y < h → 0 ≤ x < w → ∃ v, cell m y x = Ret v.
Proof.
  intros [Hh Hw] Hy Hx. destruct (index_total m y) as (r & Hr & Hl); [lia|]. unfold cell. rewrite Hr.
  rewrite Forall_lookup in Hw. specialize (Hw _ _ Hl). destruct (index_total r x) as (v & Hv & _); [lia|]. by exists v.
Qed.

Lemma set_cell_total h w m y x v : dims h w m → 0 ≤ y < h → 0 ≤ x < w →
  ∃ m', set_cell m y x v = Ret m' ∧ dims h w m' ∧ (∀ y' x', (y', x') ≠ (y, x) → cell m' y' x' = cell m y' x').
Proof.
  intros [Hh Hw] Hy Hx. destruct (index_total m y) as (r & Hr & Hl); [lia|]. unfold set_cell. rewrite Hr. cbn [mbind go_bind].
  pose proof Hw as Hw'. rewrite Forall_lookup in Hw'. specialize (Hw' _ _ Hl). rewrite set_index_total by lia. cbn [mbind go_bind].
  rewrite set_index_total by lia. eexists. split; [done|]. split.
  - split; [unfold len; by rewrite length_insert|]. apply Forall_insert; [done|]. unfold len. rewrite length_insert. exact Hw'.
  - intros y' x' Hne. unfold cell. destruct (decide (y' = y)) as [->|Hyy].
    + rewrite index_insert_eq, Hr by lia. cbn [mbind go_bind]. rewrite index_insert_ne by (lia || congruence). done.
    + by rewrite index_insert_ne by lia.
Qed.

Lemma index_snoc {A} (s : list A) v : (s ++ [v]).[len s] = Ret v.
Proof. rewrite index_app_r by lia. by rewrite Z.sub_diag. Qed.

(** ** Control points *)

Lemma filter_head {A} (P : A → Prop) `{!∀ x, Decision (P x)} l1 a l2 :
  Forall (λ x, ¬ P x) l1 → P a → head (filter P (l1 ++ a :: l2)) = Some a.
Proof.
  intros H1 Ha. induction H1 as [|x l1 Hx _ IH]; cbn [app]; [by rewrite filter_cons_True|by rewrite filter_cons_False].
Qed.

Lemma ctl_find_first mult last_pt test g :
  0 < mult → 1 ≤ g → g * mult < last_pt → test (g * mult) = true → (∀ k, 1 ≤ k < g → test (k * mult) = false) →
  ctl_find mult last_pt test = Some (g * mult).
Proof.
  intros Hm Hg Hl Ht Hb. unfold ctl_find. assert (Hgl : g ≤ last_pt) by nia.
  replace (Z.max 0 last_pt) with (g - 1 + (last_pt - g + 1)) by lia. rewrite seqZ_app by lia.
  rewrite (seqZ_cons (1 + (g - 1))) by lia. rewrite map_app. cbn [map]. replace (1 + (g - 1)) with g by lia.
  apply filter_head; [|done]. apply Forall_map, Forall_forall. intros k Hk%elem_of_seqZ [_ Hk']. cbn in Hk'.
  by rewrite Hb in Hk' by lia.
Qed.

(** The control points around [x], between the grid points [g] and [g + 1] of [n]:
    these two and their neighbours, the outer ones repeated at the ends. *)
Definition ctl_ref (at_ : Z → go f64) (mult n x : Z) : go (list f64) :=
  let g := x / mult in
  p0 ← at_ (Z.max 0 (g - 1) * mult); p1 ← at_ (g * mult); p2 ← at_ ((g + 1) * mult); p3 ← at_ (Z.min (n - 1) (g + 2) * mult);
  Ret [p0; p1; p2; p3; fdiv (f_of_Z (x - g * mult)) (f_of_Z mult)].

Lemma ctl_pts_ref at_ mult n x test why :
  0 < mult → 3 ≤ n → 0 ≤ x < (n - 1) * mult + 1 → Z.rem x mult ≠ 0 →
  (∀ k, 1 ≤ k ≤ x / mult → test (k * mult) = (x <? k * mult + mult)) →
  ctl_pts at_ mult ((n - 1) * mult + 1) x test why = ctl_ref at_ mult n x.
Proof.
  intros Hm Hn Hx Hr Ht. set (g := x / mult) in *. assert (Hg : g * mult < x < g * mult + mult).
  { rewrite Z.rem_mod_nonneg in Hr by lia. pose proof (Z.div_mod x mult). pose proof (Z.mod_pos_bound x mult). unfold g. lia. }
  unfold ctl_pts, ctl_ref. fold g. case_bool_decide as H1.
  { assert (g = 0) as -> by nia. rewrite (Z.min_r (n - 1)) by lia. by rewrite Z.sub_0_r, !Z.mul_0_l, Z.add_0_l, Z.mul_1_l. }
  replace ((n - 1) * mult + 1 - 1 - mult) with ((n - 2) * mult) by lia. case_bool_decide as H2.
  { assert (g = n - 2) as -> by nia. rewrite Z.max_r, Z.min_l by lia.
    replace ((n - 2) * mult - mult) with ((n - 2 - 1) * mult) by lia. replace ((n - 2) * mult + mult) with ((n - 1) * mult) by lia.
    by replace (n - 2 + 1) with (n - 1) by lia. }
  assert (Hgn : 1 ≤ g < n - 2) by nia. rewrite (ctl_find_first _ _ _ g); [|lia|lia|nia|rewrite Ht by lia; lia|].
  - rewrite Z.max_r, Z.min_r by lia. replace (g * mult - mult) with ((g - 1) * mult) by lia.
    by replace (g * mult + 2 * mult) with ((g + 2) * mult) by lia; replace (g * mult + mult) with ((g + 1) * mult) by lia.
  - intros k Hk. rewrite Ht by lia. nia.
Qed.

Lemma ctl_ref_total at_ mult n x : 0 < mult → 2 ≤ n → 0 ≤ x < (n - 1) * mult → (∀ i, 0 ≤ i ≤ (n - 1) * mult → ∃ v, at_ i = Ret v) →
  ∃ p0 p1 p2 p3 t, ctl_ref at_ mult n x = Ret [p0; p1; p2; p3; t].
Proof.
  intros Hm Hn Hx Ha. unfold ctl_ref. assert (Hg : 0 ≤ x / mult < n - 1) by (split; [apply Z.div_pos; lia|apply Z.div_lt_upper_bound; lia]).
  destruct (Ha (Z.max 0 (x / mult - 1) * mult)) as [p0 ->]; [nia|]. destruct (Ha (x / mult * mult)) as [p1 ->]; [nia|].
  destruct (Ha ((x / mult + 1) * mult)) as [p2 ->]; [nia|]. destruct (Ha (Z.min (n - 1) (x / mult + 2) * mult)) as [p3 ->]; [nia|].
  cbn. eauto 6.
Qed.

(** ** Sampling *)

Lemma multiple k m n : 0 ≤ k < (n - 1) * m + 1 → 0 < m → Z.rem k m = 0 → 0 ≤ Z.quot k m < n ∧ k = Z.quot k m * m.
Proof. intros Hk Hm Hr. pose proof (Z.quot_rem' k m). rewrite Hr in *. pose proof (Z.quot_pos k m). nia. Qed.

Section Sampling.
Context (params : mesh_params) (zm : matrix).
Local Abbreviation z := (with_probed (Some zm) (NewZMesh params)).
Local Abbreviation px := (p_x_count params).
Local Abbreviation py := (p_y_count params).
Local Abbreviation xm := (p_mesh_x_pps params + 1).
Local Abbreviation ym := (p_mesh_y_pps params + 1).
Local Abbreviation xc := (Mesh_x_count z).
Local Abbreviation yc := (Mesh_y_count z).
Hypothesis pps_ok : 0 ≤ p_mesh_x_pps params ∧ 0 ≤ p_mesh_y_pps params.
Hypothesis count_ok : 3 ≤ px ∧ 3 ≤ py.
Hypothesis zm_dims : dims py px zm.

Lemma counts : xc = (px - 1) * xm + 1 ∧ yc = (py - 1) * ym + 1.
Proof. cbn. lia. Qed.

Lemma count_bounds : 3 ≤ xc ∧ 3 ≤ yc.
Proof using pps_ok count_ok. pose proof counts as [-> ->]. nia. Qed.

Lemma spread_cell_total j i : 0 ≤ j < yc → 0 ≤ i < xc → ∃ v, spread_cell z zm j i = Ret v.
Proof using pps_ok zm_dims.
  pose proof counts as [-> ->]. intros Hj Hi. unfold spread_cell, go_rem, go_quot. cbn [X_mult Y_mult NewZMesh with_probed].
  destruct (xm =? 0) eqn:E1; [lia|]. destruct (ym =? 0) eqn:E2; [lia|]. cbn [mbind go_bind].
  case_bool_decide as H1; [eauto|]. case_bool_decide as H2; [eauto|].
  apply (cell_total py px); [done|apply multiple; lia..].
Qed.

Lemma spread_cell_grid j i : spread_cell z zm (j * ym) (i * xm) = cell zm j i.
Proof using pps_ok.
  unfold spread_cell, go_rem, go_quot. cbn [X_mult Y_mult NewZMesh with_probed].
  destruct (xm =? 0) eqn:E1; [lia|]. destruct (ym =? 0) eqn:E2; [lia|]. cbn [mbind go_bind].
  rewrite !Z.rem_mul, !Z.quot_mul by lia. done.
Qed.

Lemma spread_row_total j : 0 ≤ j < yc →
  ∃ arr, spread_row z zm j = Ret arr ∧ len arr = xc ∧ ∀ i, 0 ≤ i < xc → arr.[i] = spread_cell z zm j i.
Proof using pps_ok count_ok zm_dims.
  intros Hj. pose proof count_bounds as Hc.
  apply (range_seqZ (λ k arr, len arr = k ∧ ∀ i, 0 ≤ i < k → arr.[i] = spread_cell z zm j i)); [|split; [done|lia]|lia].
  intros arr i Hi [Hla Hva]. destruct (spread_cell_total j i) as [v Hval]; [lia..|]. rewrite Hval. exists (arr ++ [v]).
  split; [done|]. split; [rewrite len_app, len_one; lia|]. intros k Hk. destruct (decide (k = i)) as [->|].
  - by rewrite <- Hla at 1; rewrite index_snoc.
  - rewrite index_app_l by lia. apply Hva. lia.
Qed.

Lemma spread_total :
  ∃ m, spread z zm = Ret m ∧ dims yc xc m ∧ ∀ j i, 0 ≤ j < yc → 0 ≤ i < xc → cell m j i = spread_cell z zm j i.
Proof using pps_ok count_ok zm_dims.
  pose proof count_bounds as Hc.
  destruct (range_seqZ (λ k m, dims k xc m ∧ ∀ j i, 0 ≤ j < k → 0 ≤ i < xc → cell m j i = spread_cell z zm j i)
    (λ m j, arr ← spread_row z zm j; Ret (m ++ [arr])) yc (default [] (Mesh_matrix z))) as (m & Hm & Hd & Hv);
    [|split; [by split; [|constructor]|lia]|lia|by exists m].
  intros m j Hj [[Hl Hr] Hv]. destruct (spread_row_total j Hj) as (arr & -> & Hla & Hva). eexists. split; [done|]. split.
  - split; [rewrite len_app, len_one; lia|]. apply Forall_app. by split; [|constructor].
  - intros j' i Hj' Hi. unfold cell. destruct (decide (j' = j)) as [->|].
    + rewrite <- Hl at 1. rewrite index_snoc. by apply Hva.
    + rewrite index_app_l by lia. apply Hv; lia.
Qed.

(** The cells between the probed points are filled without touching those. *)
Definition keeps_grid (m m' : matrix) : Prop :=
  dims yc xc m' ∧ ∀ j i, Z.rem j ym = 0 → Z.rem i xm = 0 → cell m' j i = cell m j i.

Lemma set_between m0 m x y v : keeps_grid m0 m → 0 ≤ x < xc → 0 ≤ y < yc → Z.rem x xm ≠ 0 ∨ Z.rem y ym ≠ 0 →
  ∃ m', set_cell m y x v = Ret m' ∧ keeps_grid m0 m'.
Proof.
  intros [Hd Hg] Hx Hy Hne. destruct (set_cell_total yc xc m y x v) as (m' & Hm' & Hd' & Hc); [done..|]. exists m'. split; [done|].
  split; [done|]. intros j i Hj Hi. rewrite Hc; [by apply Hg|]. intros [= -> ->]. by destruct Hne.
Qed.

Lemma fill_total (fx fy : matrix → Z → Z → go f64) m :
  (∀ m x y, dims yc xc m → 0 ≤ x < xc → 0 ≤ y < yc → Z.rem x xm ≠ 0 → ∃ v, fx m x y = Ret v) →
  (∀ m x y, dims yc xc m → 0 ≤ x < xc → 0 ≤ y < yc → Z.rem y ym ≠ 0 → ∃ v, fy m x y = Ret v) →
  dims yc xc m → ∃ m', fill z fx fy m = Ret m' ∧ keeps_grid m m'.
Proof using pps_ok.
  intros Hfx Hfy Hd. unfold fill, go_rem. cbn [X_mult Y_mult NewZMesh with_probed].
  destruct (xm =? 0) eqn:E1; [lia|]. destruct (ym =? 0) eqn:E2; [lia|]. cbn [mbind go_bind].
  assert (Hin : ∀ k n, k ∈ seqZ 0 n → 0 ≤ k < n) by (intros k n Hk%elem_of_seqZ; lia).
  apply (bind_total (keeps_grid m)).
  - apply range_total; [|by split]. intros m1 y Hy%Hin H1. case_bool_decide; [by exists m1|].
    apply range_total; [|done]. intros m2 x Hx%Hin H2. case_bool_decide; [by exists m2|].
    apply (bind_total (λ _, True)); [destruct (Hfx m2 x y) as [v ->]; [apply H2|done..|by exists v]|].
    intros v _. by apply set_between; [..|left].
  - intros m1 H1. apply range_total; [|done]. intros m2 x Hx%Hin H2. apply range_total; [|done]. intros m3 y Hy%Hin H3.
    case_bool_decide; [by exists m3|].
    apply (bind_total (λ _, True)); [destruct (Hfy m3 x y) as [v ->]; [apply H3|done..|by exists v]|].
    intros v _. by apply set_between; [..|right].
Qed.

Lemma lagrange_x_total m c y : dims yc xc m → 0 ≤ y < yc → ∃ v, Calc_lagrange z m (Get_lagrange_coords z).1 c y 0 = Ret v.
Proof using pps_ok count_ok.
  intros Hd Hy. unfold Calc_lagrange. apply range_idx_total. intros total i li Hi. destruct (fold_left _ _ _) as [n d].
  rewrite bool_decide_eq_true_2 by done. destruct (cell_total yc xc m y (i * xm)) as [v Hv]; [done..| |].
  - unfold len in Hi. cbn [fst Get_lagrange_coords] in Hi. rewrite length_map, length_seqZ in Hi. cbn in Hi. pose proof counts as [-> _]. nia.
  - cbn [X_mult with_probed NewZMesh]. rewrite Hv. by eexists.
Qed.

Lemma lagrange_y_total m c x : dims yc xc m → 0 ≤ x < xc → ∃ v, Calc_lagrange z m (Get_lagrange_coords z).2 c x 1 = Ret v.
Proof using pps_ok count_ok.
  intros Hd Hx. unfold Calc_lagrange. apply range_idx_total. intros total i li Hi. destruct (fold_left _ _ _) as [n d].
  rewrite bool_decide_eq_false_2 by done. destruct (cell_total yc xc m (i * ym) x) as [v Hv]; [done| |done|].
  - unfold len in Hi. cbn [snd Get_lagrange_coords] in Hi. rewrite length_map, length_seqZ in Hi. cbn in Hi. pose proof counts as [_ ->]. nia.
  - cbn [Y_mult with_probed NewZMesh]. rewrite Hv. by eexists.
Qed.

(** Along a row and along a column the same control points are found, although the
    search in a column does not test its lower end. *)
Lemma x_ctl_ref m x y r : 0 ≤ x < xc → Z.rem x xm ≠ 0 → m.[y] = Ret r → Get_x_ctl_pts z m x y = ctl_ref (index r) xm px x.
Proof using pps_ok count_ok.
  intros Hx Hr Hm. unfold Get_x_ctl_pts. rewrite Hm. cbn [mbind go_bind]. pose proof counts as [Hc _]. rewrite Hc in *.
  cbn [X_mult with_probed NewZMesh]. apply ctl_pts_ref; [lia..|]. intros k Hk.
  replace (k * xm <? x) with true; [done|]. symmetry. apply Z.ltb_lt.
  rewrite Z.rem_mod_nonneg in Hr by lia. pose proof (Z.div_mod x xm). pose proof (Z.mod_pos_bound x xm). nia.
Qed.

Lemma y_ctl_ref m x y : 0 ≤ y < yc → Z.rem y ym ≠ 0 → Get_y_ctl_pts z m x y = ctl_ref (λ i, cell m i x) ym py y.
Proof using pps_ok count_ok.
  intros Hy Hr. unfold Get_y_ctl_pts. pose proof counts as [_ Hc]. rewrite Hc in *.
  cbn [Y_mult with_probed NewZMesh]. apply ctl_pts_ref; [lia..|]. intros k Hk.
  replace (1 <? y) with true; [done|]. symmetry. apply Z.ltb_lt.
  rewrite Z.rem_mod_nonneg in Hr by lia. pose proof (Z.div_mod y ym). pose proof (Z.mod_pos_bound y ym). nia.
Qed.

Lemma not_last k mult n : 0 ≤ k < (n - 1) * mult + 1 → 0 < mult → Z.rem k mult ≠ 0 → 0 ≤ k < (n - 1) * mult.
Proof using. intros Hk Hm Hr. split; [lia|]. destruct (decide (k = (n - 1) * mult)) as [->|]; [|lia]. by rewrite Z.rem_mul in Hr by lia. Qed.

Lemma bicubic_x_total c m x y : dims yc xc m → 0 ≤ x < xc → 0 ≤ y < yc → Z.rem x xm ≠ 0 →
  ∃ v, (pts ← Get_x_ctl_pts z m x y; Cardinal_spline pts c) = Ret v.
Proof using pps_ok count_ok.
  intros Hd Hx Hy Hr. destruct (index_total m y) as (r & Hm & Hl); [destruct Hd; lia|]. rewrite (x_ctl_ref _ _ _ r) by done.
  assert (Hlr : len r = xc) by (destruct Hd as [_ Hd]; rewrite Forall_lookup in Hd; by eapply Hd).
  pose proof counts as [Hc _]. rewrite Hc in *. apply not_last in Hx; [|lia|done].
  destruct (ctl_ref_total (index r) xm px x) as (p0 & p1 & p2 & p3 & t & ->); [lia..| |by eexists].
  intros i Hi. destruct (index_total r i) as (v & Hv & _); [lia|]. by exists v.
Qed.

Lemma bicubic_y_total c m x y : dims yc xc m → 0 ≤ x < xc → 0 ≤ y < yc → Z.rem y ym ≠ 0 →
  ∃ v, (pts ← Get_y_ctl_pts z m x y; Cardinal_spline pts c) = Ret v.
Proof using pps_ok count_ok.
  intros Hd Hx Hy Hr. rewrite y_ctl_ref by done. pose proof counts as [_ Hc]. pose proof Hy as Hy'. rewrite Hc in Hy'.
  apply not_last in Hy'; [|lia|done].
  destruct (ctl_ref_total (λ i, cell m i x) ym py y) as (p0 & p1 & p2 & p3 & t & ->); [lia..| |by eexists].
  intros i Hi. apply (cell_total yc xc); [done|lia|done].
Qed.
End Sampling.

(** ** The mesh *)

(** A mesh that was built: its table has the size that it is read with. *)
Definition mesh_ok (z : ZMesh) : Prop :=
  ∃ m, Mesh_matrix z = Some m ∧ dims (Mesh_y_count z) (Mesh_x_count z) m ∧
  2 ≤ Mesh_x_count z < 2 ^ 53 ∧ 2 ≤ Mesh_y_count z < 2 ^ 53 ∧ len (Mesh_offsets z) = 2.

(** The configuration is one that [NormalizeMeshAlgorithm] lets through; the direct
    algorithm has no points between the probed ones. *)
Definition params_ok (params : mesh_params) : Prop :=
  (∃ algo forced, NormalizeMeshAlgorithm algo (p_mesh_x_pps params) (p_mesh_y_pps params) (p_x_count params) (p_y_count params)
     = inr (p_algo params, forced)) ∧
  (p_algo params = "direct"%string → p_mesh_x_pps params = 0 ∧ p_mesh_y_pps params = 0) ∧
  0 ≤ p_mesh_x_pps params ∧ 0 ≤ p_mesh_y_pps params ∧ 3 ≤ p_x_count params ∧ 3 ≤ p_y_count params.

Lemma normalized_algo algo a b c d algo' forced :
  NormalizeMeshAlgorithm algo a b c d = inr (algo', forced) → algo' ∈ ["lagrange"; "bicubic"; "direct"]%string.
Proof.
  unfold NormalizeMeshAlgorithm. case_bool_decide as Hin; [|done]. destruct (_ =? 0); [intros [= <- _]; set_solver|].
  destruct (_ && _); [done|]. destruct (_ && _); [destruct (6 <? _); [done|intros [= <- _]; set_solver]|by intros [= <- _]].
Qed.

Lemma Sample_total params zm (z := with_probed (Some zm) (NewZMesh params)) :
  params_ok params → dims (p_y_count params) (p_x_count params) zm →
  ∃ m, Sample zm z = Ret (with_matrix (Some m) z) ∧ dims (Mesh_y_count z) (Mesh_x_count z) m ∧
  ∀ j i, 0 ≤ j < p_y_count params → 0 ≤ i < p_x_count params →
    cell m (j * (p_mesh_y_pps params + 1)) (i * (p_mesh_x_pps params + 1)) = cell zm j i.
Proof.
  intros ((algo & forced & Halgo%normalized_algo) & Hdir & Hpx & Hpy & Hcx & Hcy) Hd.
  destruct (spread_total params zm) as (m0 & Hm0 & Hd0 & Hv0); [done..|].
  destruct (counts params zm) as [Hxc Hyc]. destruct (count_bounds params zm) as [Hx3 Hy3]; [done..|].
  assert (Hfill : ∀ fx fy m, fill z fx fy m0 = Ret m → keeps_grid params zm m0 m → 
    nilled m = Some m ∧ dims (Mesh_y_count z) (Mesh_x_count z) m ∧ ∀ j i, 0 ≤ j < p_y_count params → 0 ≤ i < p_x_count params →
    cell m (j * (p_mesh_y_pps params + 1)) (i * (p_mesh_x_pps params + 1)) = cell zm j i).
  { intros fx fy m _ [Hdm Hg]. split; [|split; [done|]].
    - destruct m; [|done]. destruct Hdm as [Hdm _]. rewrite <- Hdm in Hy3. by destruct Hy3.
    - intros j i Hj Hi. rewrite Hg by (apply Z.rem_mul; lia). rewrite Hv0; [by apply spread_cell_grid|rewrite Hyc; nia|rewrite Hxc; nia]. }
  unfold Sample. cbn [Mesh_params z with_probed NewZMesh]. fold z.
  case_bool_decide as H1; [|case_bool_decide as H2; [|case_bool_decide as H3]].
  - unfold Sample_lagrange. fold z in Hm0. rewrite Hm0. cbn [mbind go_bind]. rewrite (surjective_pairing (Get_lagrange_coords z)).
    edestruct (fill_total params zm) as (m & Hm & Hg);
      [done| |  |exact Hd0|fold z in Hm; rewrite Hm; cbn [mbind go_bind]; destruct (Hfill _ _ _ Hm Hg) as (-> & ? & ?); by exists m].
    + intros; by apply lagrange_x_total.
    + intros; by apply lagrange_y_total.
  - unfold Sample_bicubic. fold z in Hm0. rewrite Hm0. cbn [mbind go_bind].
    edestruct (fill_total params zm) as (m & Hm & Hg);
      [done| | |exact Hd0|fold z in Hm; rewrite Hm; cbn [mbind go_bind]; destruct (Hfill _ _ _ Hm Hg) as (-> & ? & ?); by exists m].
    + intros; by apply bicubic_x_total.
    + intros; by apply bicubic_y_total.
  - destruct (Hdir H3) as [E1 E2]. exists zm. split; [done|]. fold z in Hxc, Hyc. rewrite Hxc, Hyc, E1, E2. split.
    + by replace ((p_y_count params - 1) * (0 + 1) + 1) with (p_y_count params) by lia;
         replace ((p_x_count params - 1) * (0 + 1) + 1) with (p_x_count params) by lia.
    + intros j i _ _. by rewrite !Z.mul_1_r.
  - exfalso. clear -Halgo H1 H2 H3. set_solver.
Qed.

(** The mesh built from a table of the configured size passes through its points. *)
Theorem mesh_passes_probed_points (params : mesh_params) (zm : matrix) :
  params_ok params → dims (p_y_count params) (p_x_count params) zm →
  ∃ z m, Build_mesh zm (NewZMesh params) = Ret z ∧ Mesh_matrix z = Some m ∧ Probed_matrix z = Some zm ∧
    dims ((p_y_count params - 1) * (p_mesh_y_pps params + 1) + 1) ((p_x_count params - 1) * (p_mesh_x_pps params + 1) + 1) m ∧
    ∀ j i, 0 ≤ j < p_y_count params → 0 ≤ i < p_x_count params →
      cell m (j * (p_mesh_y_pps params + 1)) (i * (p_mesh_x_pps params + 1)) = cell zm j i.
Proof.
  intros Hp Hd. destruct (Sample_total params zm Hp Hd) as (m & Hs & Hdm & Hg). destruct (counts params zm) as [Hxc Hyc].
  rewrite Hxc, Hyc in Hdm. unfold Build_mesh. rewrite Hs. by eexists _, m.
Qed.

(** ** Reading the mesh *)

(** The index is kept in range whatever the conversion of the quotient gives. *)
Lemma constrained_index k n : 0 ≤ n < 2 ^ 53 → 0 ≤ f_trunc (Constrain (f_of_Z k) f0 (f_of_Z n)) ≤ n.
Proof.
  intros Hn. unfold Constrain. pose proof (f_of_Z_num k) as Nk. pose proof (f_of_Z_num n) as Nn.
  destruct (fmax_cases f0 (f_of_Z k)) as (Hmax & Hge & _); [done..|].
  assert (Nm : is_nan (fmax f0 (f_of_Z k)) = false) by (by destruct Hmax as [->| ->]).
  destruct (fmin_cases (f_of_Z n) (fmax f0 (f_of_Z k))) as ([->| ->] & Hle & _); [done..|rewrite f_trunc_of_Z by lia; lia|].
  destruct Hmax as [E|E]; rewrite E in *; [change (f_trunc f0) with 0; lia|]. clear E Nm.
  destruct (decide (k = 0)) as [->|Hk]; [change (f_trunc (f_of_Z 0)) with 0; lia|].
  destruct (Z.ltb_spec k 0) as [Hneg|Hpos].
  - destruct (f_of_Z_shape k Hk) as [E|[E|(m & e & E)]]; rewrite (proj2 (Z.ltb_lt k 0) Hneg) in E; rewrite E in *; try done. cbn. lia.
  - destruct (decide (n = 0)) as [->|Hn0].
    + destruct (f_of_Z_shape k Hk) as [E|[E|(m & e & E)]]; rewrite (proj2 (Z.ltb_ge k 0) Hpos) in E; rewrite E in *; try done.
    + apply fle_flt_false, f_of_Z_lt in Hle; [|lia..]. rewrite f_trunc_of_Z by lia. lia.
Qed.

Lemma Get_linear_index_bounds conv z coord axis :
  2 ≤ Mesh_x_count z < 2 ^ 53 → 2 ≤ Mesh_y_count z < 2 ^ 53 →
  0 ≤ (Get_linear_index conv z coord axis).2 ≤ (if bool_decide (axis = 0) then Mesh_x_count z else Mesh_y_count z) - 2.
Proof. intros Hx Hy. unfold Get_linear_index. case_bool_decide; apply constrained_index; lia. Qed.

Lemma Calc_z_ok conv z x y : mesh_ok z → ∃ v, Calc_z conv z x y = Ret v.
Proof.
  intros (m & Hm & Hd & Hx & Hy & Ho). unfold Calc_z. rewrite Hm.
  destruct (index_total (Mesh_offsets z) 0) as (ox & -> & _); [lia|]. destruct (index_total (Mesh_offsets z) 1) as (oy & Hoy & _); [lia|].
  cbn [mbind go_bind]. pose proof (Get_linear_index_bounds conv z (fadd x ox) 0 Hx Hy) as Hi.
  destruct (Get_linear_index conv z (fadd x ox) 0) as [tx xi]. rewrite Hoy. cbn [mbind go_bind].
  pose proof (Get_linear_index_bounds conv z (fadd y oy) 1 Hx Hy) as Hj.
  destruct (Get_linear_index conv z (fadd y oy) 1) as [ty yi]. cbn [snd bool_decide] in Hi, Hj.
  rewrite bool_decide_eq_true_2 in Hi by done. rewrite bool_decide_eq_false_2 in Hj by done.
  destruct (cell_total _ _ m yi xi Hd) as [a ->]; [lia..|]. destruct (cell_total _ _ m yi (xi + 1) Hd) as [b ->]; [lia..|].
  destruct (cell_total _ _ m (yi + 1) xi Hd) as [c ->]; [lia..|]. destruct (cell_total _ _ m (yi + 1) (xi + 1) Hd) as [d ->]; [lia..|].
  by eexists.
Qed.

Lemma Set_mesh_offsets_ok offsets z : mesh_ok z → len offsets ≤ 2 → ∃ z', Set_mesh_offsets offsets z = Ret z' ∧ mesh_ok z'.
Proof.
  intros (m & Hm & Hd & Hx & Hy & Ho) Hl. unfold Set_mesh_offsets.
  assert (H : ∀ i os, 0 ≤ i → i + len offsets ≤ 2 → len os = 2 →
    ∃ o, range_idx (λ os i o, if feq o f0 then Ret os else set_index os i o) i os offsets = Ret o ∧ len o = 2).
  { clear. induction offsets as [|o offsets IH]; intros i os Hi Hn Ho; [by exists os|]. rewrite len_cons in Hn.
    pose proof (len_nonneg offsets). cbn [range_idx]. destruct (feq o f0); [apply IH; lia|]. rewrite set_index_total by lia.
    apply IH; [lia..|]. unfold len. by rewrite length_insert. }
  destruct (H 0 (Mesh_offsets z)) as (o & -> & Hlo); [lia..|done|]. eexists. split; [done|]. exists m. split_and!; (done || apply Hx || apply Hy || apply Hd).
Qed.

(** A mesh built from a table of the configured size can be read at any coordinates, in
    range or not and after any change of its offsets, without an index out of range. *)
Theorem Calc_z_total (conv : f64 → Z) (params : mesh_params) (zm : matrix) (offsets : list f64) (x y : f64) :
  params_ok params → dims (p_y_count params) (p_x_count params) zm →
  Mesh_x_count (NewZMesh params) < 2 ^ 53 → Mesh_y_count (NewZMesh params) < 2 ^ 53 → len offsets ≤ 2 →
  ∃ z z' v, Build_mesh zm (NewZMesh params) = Ret z ∧ Set_mesh_offsets offsets z = Ret z' ∧ Calc_z conv z' x y = Ret v.
Proof.
  intros Hp Hd Hx Hy Ho. destruct (Sample_total params zm Hp Hd) as (m & Hs & Hdm & _).
  destruct (count_bounds params zm) as [Hx3 Hy3]; [by destruct Hp as (? & ? & ? & ? & ? & ?)..|].
  assert (Hok : ∀ a, mesh_ok (with_avg a (with_matrix (Some m) (with_probed (Some zm) (NewZMesh params))))).
  { intros a. exists m. split_and!; try done; cbn in *; lia. }
  unfold Build_mesh. rewrite Hs. cbn [mbind go_bind]. match goal with |- context [Ret (with_avg ?a _) = _] =>
    destruct (Set_mesh_offsets_ok offsets _ (Hok a) Ho) as (z' & Hz' & Hok') end.
  destruct (Calc_z_ok conv z' x y Hok') as [v Hv]. eexists _, z', v. by split_and!.
Qed.

(** ** Examples *)

Definition demo_params (algo : string) (pps : Z) : mesh_params :=
  mkMeshParams f0 (f_of_Z 200) f0 (f_of_Z 200) 3 3 pps pps algo (f_lit 1 5).
Definition demo_probed : matrix := [[f0; f1; f0]; [f1; f_of_Z 2; f1]; [f0; f1; f0]].

Lemma demo_params_ok : params_ok (demo_params "lagrange" 2).
Proof. split; [by exists "Lagrange "%string, false|done]. Qed.
Lemma demo_probed_dims : dims 3 3 demo_probed.
Proof. by repeat constructor. Qed.

Lemma mesh_passes_probed_points_witness :
  ∃ z m, Build_mesh demo_probed (NewZMesh (demo_params "lagrange" 2)) = Ret z ∧ Mesh_matrix z = Some m ∧
    dims 7 7 m ∧ cell m 3 3 = Ret (f_of_Z 2).
Proof.
  destruct (mesh_passes_probed_points (demo_params "lagrange" 2) demo_probed demo_params_ok demo_probed_dims)
    as (z & m & Hz & Hm & _ & Hd & Hg).
  exists z, m. split; [exact Hz|]. split; [exact Hm|]. split; [exact Hd|]. exact (Hg 1 1 ltac:(cbn; lia) ltac:(cbn; lia)).
Defined.

(** Far off the bed, and nowhere. *)
Lemma Calc_z_total_witness :
  ∃ z z' v, Build_mesh demo_probed (NewZMesh (demo_params "lagrange" 2)) = Ret z ∧ Set_mesh_offsets [f1; f0] z = Ret z' ∧
    Calc_z f_trunc z' (f_of_Z (-1000)) SpecFloat.S754_nan = Ret v.
Proof.
  exact (Calc_z_total f_trunc (demo_params "lagrange" 2) demo_probed [f1; f0] (f_of_Z (-1000)) SpecFloat.S754_nan
    demo_params_ok demo_probed_dims ltac:(reflexivity) ltac:(reflexivity) ltac:(discriminate)).
Defined.

(** The direct algorithm is let through with points between the probed ones, and the
    table that it takes is then read out of range. *)
Lemma direct_with_pps_out_of_range :
  NormalizeMeshAlgorithm "direct" 2 2 3 3 = inr ("direct"%string, false) ∧
  (z ← Build_mesh demo_probed (NewZMesh (demo_params "direct" 2)); Calc_z f_trunc z (f_of_Z 200) (f_of_Z 200)) =
  Panic "index out of range".
Proof. by vm_compute. Qed.

(** The range of a mesh that lies above the bed is taken to start at the bed. *)
Lemma z_range_contains_zero :
  (z ← Build_mesh (replicate 3 (replicate 3 f1)) (NewZMesh (demo_params "direct" 0)); Ret (Get_z_range z)) = Ret (f0, f1).
Proof. by vm_compute. Qed.

(** An offset cannot be taken back to zero. *)
Lemma offsets_keep_nonzero z : Mesh_offsets z = [f1; f1] → (z ← Set_mesh_offsets [f0; f0] z; Ret (Mesh_offsets z)) = Ret [f1; f1].
Proof. intros H. unfold Set_mesh_offsets. by rewrite H. Qed.
