(* ===== verification/MeshCalibrate.v ===== *)
(** * Calibrating the mesh

    [src/internal/pkg/motion/bed_mesh/mesh_calibrator.go] and [faulty_region.go], with the
    helpers of [helpers.go] that they use: the points to probe, in rows of alternating
    direction; the points probed instead of one that lies in a faulty region; and the
    way back from the probed positions to the table of heights.  Points are slices of
    two coordinates, probed positions of three, as in the code.  An error that is
    returned is [inl]. *)

From S2P Require Import Prelude GoFloat GoStrings ZMesh.

Definition point : Type := list f64.

(** ** Helpers *)

Definition Within (coord minC maxC : point) (tol : f64) : go bool :=
  maxx ← maxC.[0]; x ← coord.[0];
  if fle x (fadd maxx tol) then
    minx ← minC.[0];
    if fle (fsub minx tol) x then
      maxy ← maxC.[1]; y ← coord.[1];
      if fle y (fadd maxy tol) then miny ← minC.[1]; Ret (fle (fsub miny tol) y) else Ret false
    else Ret false
  else Ret false.

Definition MaxPoint (i : Z) (arr : list point) : go point :=
  first ← arr.[0];
  range (λ best val, a ← best.[i]; b ← val.[i]; Ret (if flt a b then val else best)) first arr.
Definition MinPoint (i : Z) (arr : list point) : go point :=
  first ← arr.[0];
  range (λ best val, a ← val.[i]; b ← best.[i]; Ret (if flt a b then val else best)) first arr.

(** ** Faulty regions *)

Record FaultyRegion := mkRegion { Min : point; Max : point }.

Definition NormalizeFaultyRegionCorners (start finish : point) : go (string + (point * point * point * point)) :=
  if (len start <? 2) || (len finish <? 2) then Ret (inl "faulty region coordinates must have at least 2 elements"%string)
  else
    let c1 := zip_with fmin start finish in
    let c3 := zip_with fmax start finish in
    x1 ← c1.[0]; y1 ← c1.[1]; x3 ← c3.[0]; y3 ← c3.[1];
    Ret (inr (c1, c3, [x1; y3], [x3; y1])).

(** Is one of the corners in the region? *)
Definition any_within (coords : list point) (c1 c3 : point) : go bool :=
  range (λ (found : bool) coord, if found then Ret true else Within coord c1 c3 f0) false coords.

Fixpoint ValidateFaultyRegionOverlap (c1 c3 c2 c4 : point) (existing : list FaultyRegion) : go (option string) :=
  match existing with
  | [] => Ret None
  | region :: rest =>
      let prevC1 := Min region in
      let prevC3 := Max region in
      x1 ← prevC1.[0]; y3 ← prevC3.[1]; x3 ← prevC3.[0]; y1 ← prevC1.[1];
      old ← any_within [prevC1; [x1; y3]; prevC3; [x3; y1]] c1 c3;
      if (old : bool) then Ret (Some "Existing faulty_region overlaps added faulty_region"%string)
      else
        new ← any_within [c1; c2; c3; c4] prevC1 prevC3;
        if (new : bool) then Ret (Some "Added faulty_region overlaps existing faulty_region"%string)
        else ValidateFaultyRegionOverlap c1 c3 c2 c4 rest
  end.

(** ** The points to probe *)

Record PointSubstitution := mkSubstitution { Index : Z; Points : list point }.

(** A radius that is nil or zero stands for a rectangular bed. *)
Definition round_radius (radius : option f64) : option f64 :=
  match radius with Some r => if feq r f0 then None else Some r | None => None end.

Record grid := mkGrid { g_min_x : f64; g_min_y : f64; g_max_x : f64; g_max_y : f64; g_x_dist : f64; g_y_dist : f64 }.

Definition make_grid (radius : option f64) (meshMin meshMax : point) (xCount yCount : Z) : go (string + grid) :=
  minX ← meshMin.[0]; minY ← meshMin.[1]; maxX ← meshMax.[0]; maxY ← meshMax.[1];
  let hundredth d := fdiv (f_floor (fmul d (f_of_Z 100))) (f_of_Z 100) in
  let xDist := hundredth (fdiv (fsub maxX minX) (fsub (f_of_Z xCount) f1)) in
  let yDist := hundredth (fdiv (fsub maxY minY) (fsub (f_of_Z yCount) f1)) in
  if flt xDist f1 || flt yDist f1 then Ret (inl "bed_mesh: min/max points too close together"%string)
  else
    match round_radius radius with
    | Some _ => let newR := fmul (fdiv (f_of_Z xCount) (f_of_Z 2)) xDist in Ret (inr (mkGrid (fneg newR) (fneg newR) newR newR xDist xDist))
    | None => Ret (inr (mkGrid minX minY maxX maxY xDist yDist))
    end.

Definition grid_point (radius : option f64) (origin : point) (posX posY : f64) : go (list point) :=
  match round_radius radius with
  | None => Ret [[posX; posY]]
  | Some r =>
      if fle (fsqrt (fadd (fmul posX posX) (fmul posY posY))) r then ox ← origin.[0]; oy ← origin.[1]; Ret [[fadd ox posX; fadd oy posY]]
      else Ret []
  end.

Definition grid_row (radius : option f64) (origin : point) (g : grid) (xCount i : Z) (posY : f64) : go (list point) :=
  range (λ pts j,
    let posX := if Z.rem i 2 =? 0 then fadd (g_min_x g) (fmul (f_of_Z j) (g_x_dist g)) else fsub (g_max_x g) (fmul (f_of_Z j) (g_x_dist g)) in
    p ← grid_point radius origin posX posY; Ret (pts ++ p)) [] (seqZ 0 xCount).

Definition grid_points (radius : option f64) (origin : point) (g : grid) (xCount yCount : Z) : go (list point) :=
  r ← range (λ (st : list point * f64) i,
        row ← grid_row radius origin g xCount i st.2; Ret (st.1 ++ row, fadd st.2 (g_y_dist g))) ([], g_min_y g) (seqZ 0 yCount);
  Ret (r : list point * f64).1.

(** The points around the first faulty region that a point lies in. *)
Fixpoint adjacent (coord : point) (isReversed : bool) (regions : list FaultyRegion) : go (list point) :=
  match regions with
  | [] => Ret []
  | region :: rest =>
      inside ← Within coord (Min region) (Max region) (f_lit 1 100000);
      if (inside : bool) then
        x ← coord.[0]; y ← coord.[1]; lx ← (Min region).[0]; ly ← (Min region).[1]; hx ← (Max region).[0]; hy ← (Max region).[1];
        Ret (if isReversed then [[hx; y]; [x; ly]; [x; hy]; [lx; y]] else [[lx; y]; [x; ly]; [x; hy]; [hx; y]])
      else adjacent coord isReversed rest
  end.

Definition valid_point (radius : option f64) (origin : point) (g : grid) (ac : point) : go bool :=
  match round_radius radius with
  | None => Within ac [g_min_x g; g_min_y g] [g_max_x g; g_max_y g] (f_lit 1 1000000)
  | Some r =>
      x ← ac.[0]; y ← ac.[1];
      d ← (if 2 <=? len origin then ox ← origin.[0]; oy ← origin.[1]; Ret (fsub x ox, fsub y oy) else Ret (x, y));
      Ret (fle (fsqrt (fadd (fmul (d : f64 * f64).1 d.1) (fmul d.2 d.2))) r)
  end.

(** One round of the search for faulty points: the last Y, the direction and the
    substitutions so far, or an error. *)
Definition substitute_step (radius : option f64) (origin : point) (g : grid) (regions : list FaultyRegion)
    (st : string + (f64 * bool * list PointSubstitution)) (i : Z) (coord : point) : go (string + (f64 * bool * list PointSubstitution)) :=
  match st with
  | inl e => Ret (inl e)
  | inr (lastY, isReversed, subs) =>
      y ← coord.[1];
      let isReversed := if Isclose y lastY (f_lit 1 1000000000) f0 then isReversed else negb isReversed in
      adj ← adjacent coord isReversed regions;
      match adj with
      | [] => Ret (inr (y, isReversed, subs))
      | _ => valid ← range (λ acc ac, ok ← valid_point radius origin g ac; Ret (if (ok : bool) then acc ++ [ac] else acc)) [] adj;
             match valid with
             | [] => Ret (inl "bed_mesh: unable to generate coordinates for faulty region"%string)
             | _ => Ret (inr (y, isReversed, subs ++ [mkSubstitution i valid]))
             end
      end
  end.

Definition GenerateProbePoints (radius : option f64) (origin meshMin meshMax : point) (xCount yCount : Z) (faultyRegions : list FaultyRegion)
  : go (string + (list point * list PointSubstitution)) :=
  if (xCount <? 1) || (yCount <? 1) then Ret (inl "bed_mesh: invalid probe count"%string)
  else
    g ← make_grid radius meshMin meshMax xCount yCount;
    match g with
    | inl e => Ret (inl e)
    | inr g =>
        points ← grid_points radius origin g xCount yCount;
        if (len points =? 0) || (len faultyRegions =? 0) then Ret (inr (points, []))
        else
          first ← points.[0]; lastY ← (first : point).[1];
          r ← range_idx (substitute_step radius origin g faultyRegions) 0 (inr (lastY, false, [])) points;
          match r with
          | inl e => Ret (inl e)
          | inr (_, _, subs) => Ret (inr (points, subs))
          end
    end.

(** The points to visit, with the substitutes in the place of the faulty ones. *)
Definition GetAdjustedPoints (points : list point) (substitutions : list PointSubstitution) : go (list point) :=
  match substitutions with
  | [] => Ret points
  | _ =>
      r ← range (λ (st : list point * Z) sub,
            before ← slice points st.2 (Index sub);
            Ret (st.1 ++ before ++ Points sub, Index sub + 1)) ([], 0) substitutions;
      tail ← slice points (r : list point * Z).2 (len points);
      Ret (r.1 ++ tail)
  end.

Fixpoint FindProbePointIndex_from (i : Z) (points : list point) (tx ty : f64) : go Z :=
  match points with
  | [] => Ret (-1)
  | p :: points' =>
      if len p <? 2 then FindProbePointIndex_from (i + 1) points' tx ty
      else
        x ← p.[0];
        if Isclose x tx (f_lit 1 10000) (f_lit 1 1000000) then
          y ← p.[1];
          if Isclose y ty (f_lit 1 10000) (f_lit 1 1000000) then Ret i else FindProbePointIndex_from (i + 1) points' tx ty
        else FindProbePointIndex_from (i + 1) points' tx ty
  end.
Definition FindProbePointIndex (points : list point) (tx ty : f64) : go Z := FindProbePointIndex_from 0 points tx ty.

(** ** Back to the table *)

Definition roundProbePositions (positions : list point) : list point :=
  (λ pos, match pos with
          | x :: y :: z :: _ => [fdiv (f_round (fmul x (f_of_Z 100))) (f_of_Z 100); fdiv (f_round (fmul y (f_of_Z 100))) (f_of_Z 100); z]
          | _ => pos
          end) <$> positions.

(** One round: the rows done, the row that grows and the position before. *)
Definition assemble_step (zOffset : f64) (st : matrix * list f64 * point) (pos : point) : go (matrix * list f64 * point) :=
  let '(probed, row, prevPos) := st in
  y ← pos.[1]; prevY ← prevPos.[1];
  let '(probed, row) := if Isclose y prevY (f_lit 1 1000000000) (f_lit 1 10) then (probed, row) else (probed ++ [row], []) in
  x ← pos.[0]; prevX ← prevPos.[0]; z ← pos.[2];
  Ret (probed, if flt prevX x then row ++ [fsub z zOffset] else fsub z zOffset :: row, pos).

(** The rows of a round bed: the padded row is a copy that is dropped. *)
Definition pad_row (xCount : Z) (row : list f64) : go (option string) :=
  let rowSize := len row in
  if Z.even rowSize then Ret (Some "bed_mesh: incorrect number of points sampled on X"%string)
  else
    let bufCnt := xCount - rowSize / 2 in
    if bufCnt <? 0 then Panic "makeslice: len out of range" else Ret None.

Fixpoint pad_rows (xCount : Z) (rows : matrix) : go (option string) :=
  match rows with
  | [] => Ret None
  | row :: rows' => e ← pad_row xCount row; match e with Some e => Ret (Some e) | None => pad_rows xCount rows' end
  end.

Definition AssembleProbedMatrix (positions : list point) (zOffset : f64) (xCount yCount : Z) (relativeRefIndex : option Z) (radius : option f64)
  : go (string + matrix) :=
  zOffset ← (match relativeRefIndex with Some i => p ← positions.[i]; (p : point).[2] | None => Ret zOffset end);
  first ← positions.[0];
  r ← range (assemble_step zOffset) ([], [], first) positions;
  let '(probed, row, _) := (r : matrix * list f64 * point) in
  let probed := probed ++ [row] in
  if negb (len probed =? yCount) then Ret (inl "bed_mesh: Invalid y-axis table length"%string)
  else
    e ← (if default false (flt f0 <$> radius) then pad_rows xCount probed else Ret None);
    match e with
    | Some e => Ret (inl e)
    | None =>
        if forallb (λ row, len row =? xCount) probed then Ret (inr probed) else Ret (inl "bed_mesh: invalid x-axis table length"%string)
    end.

(** The generated point less the offsets of the probe. *)
Definition offset_point (p offsets : point) : go point :=
  range (λ acc j, a ← p.[j]; b ← offsets.[j]; Ret (acc ++ [fsub a b])) [] (seqZ 0 (Z.min (len p) 2)).

Definition merge_step (generatedPts positions : list point) (offsets : point) (st : list point * Z * Z) (sub : PointSubstitution)
  : go (list point * Z * Z) :=
  let '(corrected, idxOffset, startIdx) := st in
  gen ← generatedPts.[Index sub];
  fpt ← offset_point gen offsets;
  let idx := Index sub + idxOffset in
  before ← slice positions startIdx idx;
  samples ← slice positions idx (idx + len (Points sub));
  sum ← range (λ acc p, z ← (p : point).[2]; Ret (fadd acc z)) f0 samples;
  let avgZ := fdiv sum (f_of_Z (len (Points sub))) in
  Ret (corrected ++ before ++ [fpt ++ [avgZ]], idxOffset + len (Points sub) - 1, idx + len (Points sub)).

Fixpoint check_points (generatedPts corrected : list point) (offsets : point) : go (option string) :=
  match generatedPts, corrected with
  | gen :: generatedPts', probed :: corrected' =>
      off ← offset_point gen offsets;
      ox ← off.[0]; px ← probed.[0];
      if Isclose ox px (f_lit 1 1000000000) (f_lit 1 10) then
        oy ← off.[1]; py ← probed.[1];
        if Isclose oy py (f_lit 1 1000000000) (f_lit 1 10) then check_points generatedPts' corrected' offsets
        else Ret (Some "bed_mesh: point mismatch"%string)
      else Ret (Some "bed_mesh: point mismatch"%string)
  | _, _ => Ret None
  end.

Definition ProcessFaultySubstitutions (generatedPts : list point) (substitutions : list PointSubstitution) (positions : list point) (offsets : point)
  : go (list point * option string) :=
  match substitutions with
  | [] => Ret (positions, None)
  | _ =>
      _ ← offsets.[2];
      r ← range (merge_step generatedPts positions offsets) ([], 0, 0) substitutions;
      let '(corrected, _, startIdx) := (r : list point * Z * Z) in
      tail ← slice positions startIdx (len positions);
      let corrected := corrected ++ tail in
      if negb (len generatedPts =? len corrected) then Ret (corrected, Some "bed_mesh: invalid position list size"%string)
      else e ← check_points generatedPts corrected offsets; Ret (corrected, e)
  end.

(** [FinalizeCalibration], for the configuration of a mesh: the parameters and the table
    of the mesh to build. *)
Definition FinalizeCalibration (offsets : point) (positions : list point) (config : mesh_params) (relativeRefIndex : option Z)
    (radius : option f64) (generatedPts : list point) (substitutions : list PointSubstitution) : go (string + (mesh_params * matrix)) :=
  if len positions =? 0 then Ret (inl "bed_mesh: no probe positions provided"%string)
  else
    let corrected := roundProbePositions positions in
    ox ← offsets.[0]; oy ← offsets.[1];
    p1 ← MinPoint 0 corrected; minx ← (p1 : point).[0];
    p2 ← MaxPoint 0 corrected; maxx ← (p2 : point).[0];
    p3 ← MinPoint 1 corrected; miny ← (p3 : point).[1];
    p4 ← MaxPoint 1 corrected; maxy ← (p4 : point).[1];
    let params := mkMeshParams (fadd minx ox) (fadd maxx ox) (fadd miny oy) (fadd maxy oy) (p_x_count config) (p_y_count config)
                    (p_mesh_x_pps config) (p_mesh_y_pps config) (p_algo config) (p_tension config) in
    r ← ProcessFaultySubstitutions generatedPts substitutions corrected offsets;
    match r with
    | (_, Some e) => Ret (inl e)
    | (corrected, None) =>
        oz ← offsets.[2];
        t ← AssembleProbedMatrix corrected oz (p_x_count config) (p_y_count config) relativeRefIndex radius;
        match t with inl e => Ret (inl e) | inr t => Ret (inr (params, t)) end
    end.
