(* ===== verification/MeshCalibrateThy.v ===== *)
(** * From the probed points to the mesh

    Probing runs over the bed in rows of alternating direction; the table assembled from
    such a run has every height at its place, and the mesh built from it passes through
    them.  Points in faulty regions are replaced by points around them, and the probed
    positions of those are merged back into one per point. *)

From S2P Require Import Prelude GoFloat GoFloatRound GoStrings ZMesh ZMeshThy MeshCalibrate.
From Stdlib Require Import SpecFloat.

(** ** Rows *)

(** A probed position. *)
Record sample := mkSample { sx : f64; sy : f64; sz : f64 }.
Definition position (s : sample) : point := [sx s; sy s; sz s].

Definition close (a b : f64) : bool := Isclose a b (f_lit 1 1000000000) (f_lit 1 10).

(** From one sample of a row to the next: to the right or to the left, at one Y. *)
Definition along (right : bool) (a b : sample) : Prop :=
  close (sy b) (sy a) = true ∧ flt (sx a) (sx b) = right.

Fixpoint row_from (right : bool) (a : sample) (row : list sample) : Prop :=
  match row with [] => True | b :: row' => along right a b ∧ row_from right b row' end.

(** Rows of alternating direction; each begins away from the Y of the one before. *)
Fixpoint zigzag_from (right : bool) (prev : sample) (rows : list (list sample)) : Prop :=
  match rows with
  | [] => True
  | [] :: _ => False
  | (a :: row) :: rows' => close (sy a) (sy prev) = false ∧ row_from right a row ∧ zigzag_from (negb right) (default a (last row)) rows'
  end.
Definition zigzag (rows : list (list sample)) : Prop :=
  match rows with
  | (a :: row) :: rows' => ffin (sy a) = true ∧ row_from true a row ∧ zigzag_from false (default a (last row)) rows'
  | _ => False
  end.

(** The heights of a row from left to right. *)
Definition heights (zOffset : f64) (right : bool) (row : list sample) : list f64 :=
  let zs := (λ s, fsub (sz s) zOffset) <$> row in if right then zs else reverse zs.
Fixpoint table (zOffset : f64) (right : bool) (rows : list (list sample)) : matrix :=
  match rows with [] => [] | row :: rows' => heights zOffset right row :: table zOffset (negb right) rows' end.

Lemma close_self y : ffin y = true → close y y = true.
Proof.
  intros Hy. unfold close, Isclose.
  assert (H0 : ∃ s, fabs (fsub y y) = S754_zero s).
  { destruct y as [[]| | |s m e]; try done; [by eexists..|]. unfold fsub. cbn [SFsub]. rewrite Z.sub_diag. by eexists. }
  destruct H0 as [s ->]. assert (Hn : nonneg (fmul (f_lit 1 1000000000) (fmax (fabs y) (fabs y))) = true).
  { assert (Hp : nonneg (fabs y) = true) by (apply fabs_nonneg; by destruct y).
    assert (Hm : fmax (fabs y) (fabs y) = fabs y) by (destruct (fmax_cases (fabs y) (fabs y)) as ([-> | ->] & _); auto using nonneg_not_nan).
    rewrite Hm. unfold fmul. destruct (fabs y) as [[]|[]| |[]] eqn:E; try done.
    apply round_nonneg. lia. }
  destruct (fmax_cases (fmul (f_lit 1 1000000000) (fmax (fabs y) (fabs y))) (f_lit 1 10)) as (_ & _ & Hle);
    [by apply nonneg_not_nan|done|]. apply (fle_trans _ (f_lit 1 10)); [by destruct s|done].
Qed.

Lemma assemble_unfold zOffset done_ row a b :
  assemble_step zOffset (done_, row, position a) (position b)
  = (let '(probed, row) := if close (sy b) (sy a) then (done_, row) else (done_ ++ [row], []) in
     Ret (probed, if flt (sx a) (sx b) then row ++ [fsub (sz b) zOffset] else fsub (sz b) zOffset :: row, position b)).
Proof.
  unfold assemble_step, close. change ((position b).[1]) with (Ret (sy b)). change ((position a).[1]) with (Ret (sy a)).
  change ((position b).[0]) with (Ret (sx b)). change ((position a).[0]) with (Ret (sx a)). change ((position b).[2]) with (Ret (sz b)).
  cbn [mbind go_bind]. by destruct (Isclose (sy b) (sy a) _ _).
Qed.

Lemma row_step zOffset right a b row done_ : along right a b →
  assemble_step zOffset (done_, row, position a) (position b)
  = Ret (done_, if right then row ++ [fsub (sz b) zOffset] else fsub (sz b) zOffset :: row, position b).
Proof. intros [Hc Hx]. rewrite assemble_unfold, Hc, Hx. by destruct right. Qed.

Lemma row_run zOffset right a row acc done_ : row_from right a row →
  range (assemble_step zOffset) (done_, acc, position a) (position <$> row)
  = Ret (done_, if right then acc ++ heights zOffset right row else heights zOffset right row ++ acc, position (default a (last row))).
Proof.
  revert a acc. induction row as [|b row IH]; intros a acc Hr.
  { unfold heights. destruct right; cbn; by rewrite ?app_nil_r. }
  destruct Hr as [Hab Hr]. cbn [fmap list_fmap range]. rewrite (row_step _ _ _ _ _ _ Hab). cbn [mbind go_bind]. rewrite IH by done.
  assert (El : default a (last (b :: row)) = default b (last row)) by (rewrite last_cons; by destruct (last row)). rewrite El.
  unfold heights. destruct right; cbn [fmap list_fmap]; [by rewrite <- app_assoc|by rewrite reverse_cons, <- app_assoc].
Qed.

Lemma zigzag_run zOffset right prev acc done_ rows : zigzag_from right prev rows →
  ∃ acc' done' p, range (assemble_step zOffset) (done_, acc, position prev) (position <$> concat rows) = Ret (done', acc', p) ∧
    done' ++ [acc'] = done_ ++ acc :: table zOffset right rows.
Proof.
  revert right prev acc done_. induction rows as [|[|a row] rows IH]; intros right prev acc done_ Hz; [by eexists _, _, _|done|].
  destruct Hz as (Hc & Hr & Hz). cbn [concat]. rewrite fmap_app, range_app. cbn [fmap list_fmap range].
  assert (Ea : assemble_step zOffset (done_, acc, position prev) (position a) = Ret (done_ ++ [acc], [fsub (sz a) zOffset], position a)).
  { rewrite assemble_unfold, Hc. by destruct (flt (sx prev) (sx a)). }
  rewrite Ea. cbn [mbind go_bind]. rewrite (row_run _ right) by done.
  destruct (IH (negb right) (default a (last row)) (if right then [fsub (sz a) zOffset] ++ heights zOffset right row
     else heights zOffset right row ++ [fsub (sz a) zOffset]) (done_ ++ [acc]) Hz) as (acc' & done' & p & E & Ht).
  cbn [mbind go_bind]. rewrite E. eexists _, _, _. split; [reflexivity|]. rewrite Ht, <- app_assoc. cbn. do 2 f_equal.
  unfold heights. destruct right; cbn [fmap list_fmap]; [done|]. by rewrite reverse_cons.
Qed.

(** The table of a zigzag run. *)
Lemma assemble_zigzag zOffset rows xCount yCount : zigzag rows → len rows = yCount → Forall (λ row, len row = xCount) rows →
  AssembleProbedMatrix (position <$> concat rows) zOffset xCount yCount None None = Ret (inr (table zOffset true rows)).
Proof.
  intros Hz Hy Hx. destruct rows as [|[|a row] rows]; [done..|]. destruct Hz as (Hfin & Hr & Hz). unfold AssembleProbedMatrix.
  cbn [mbind go_bind concat]. rewrite fmap_app. cbn [fmap list_fmap app]. rewrite index_0. cbn [mbind go_bind range].
  rewrite assemble_unfold, close_self by done. rewrite flt_irrefl. cbn [mbind go_bind]. rewrite range_app, (row_run _ true) by done. cbn [mbind go_bind].
  destruct (zigzag_run zOffset false (default a (last row)) ([fsub (sz a) zOffset] ++ heights zOffset true row) [] rows Hz) as (acc & done_ & p & E & Ht).
  rewrite E. cbn [mbind go_bind]. rewrite Ht. change ([] ++ _ :: table zOffset false rows) with (table zOffset true ((a :: row) :: rows)).
  assert (Hl : ∀ b rows, len (table zOffset b rows) = len rows).
  { clear. intros b rows. revert b. induction rows as [|r rows IH]; intros b; [done|]. cbn [table]. by rewrite !len_cons, IH. }
  assert (Hw : ∀ b rows, Forall (λ row, len row = xCount) rows → forallb (λ row, len row =? xCount) (table zOffset b rows) = true).
  { clear. intros b rows H. revert b. induction H as [|r rows H _ IH]; intros b; [done|]. cbn [table forallb]. rewrite IH, andb_true_r.
    apply Z.eqb_eq. unfold heights, len in *. destruct b; rewrite ?length_reverse, length_fmap; done. }
  rewrite Hl, Hy, Z.eqb_refl. cbn [negb default mbind go_bind fmap option_fmap option_map]. by rewrite Hw.
Qed.

(** The column that the [i]-th sample of row [j] is in. *)
Definition column (xCount : Z) (right : bool) (i : nat) : Z := if right then Z.of_nat i else xCount - 1 - Z.of_nat i.
Definition goes_right (right : bool) (j : nat) : bool := if Nat.even j then right else negb right.

Lemma heights_lookup zOffset right row i s xCount : len row = xCount → row !! i = Some s →
  (heights zOffset right row).[column xCount right i] = Ret (fsub (sz s) zOffset).
Proof.
  intros Hl Hs. pose proof (lookup_lt_Some _ _ _ Hs) as Hi. unfold heights, column, index, len in *.
  destruct right; rewrite bool_decide_eq_true_2 by lia.
  - by rewrite Nat2Z.id, list_lookup_fmap, Hs.
  - rewrite reverse_lookup by (rewrite length_fmap; lia). rewrite length_fmap.
    replace (length row - S (Z.to_nat (xCount - 1 - Z.of_nat i)))%nat with i by lia. by rewrite list_lookup_fmap, Hs.
Qed.

Lemma zigzag_table_lookup zOffset right rows j row : rows !! j = Some row → table zOffset right rows !! j = Some (heights zOffset (goes_right right j) row).
Proof.
  revert right j. induction rows as [|r rows IH]; intros right j H; [done|]. destruct j as [|j]; cbn in H |- *; [by injection H as ->|].
  rewrite (IH _ _ H). do 2 f_equal. unfold goes_right. rewrite Nat.even_succ, <- Nat.negb_even. destruct (Nat.even j); cbn; [done|].
  by rewrite negb_involutive.
Qed.

Lemma table_dims zOffset right rows xCount : Forall (λ row, len row = xCount) rows → dims (len rows) xCount (table zOffset right rows).
Proof.
  intros H. revert right. induction H as [|row rows Hr H IH]; intros right; [done|]. destruct (IH (negb right)) as [H1 H2]. split.
  - cbn [table]. by rewrite !len_cons, H1.
  - cbn [table]. constructor; [|done]. unfold heights, len in *. destruct right; rewrite ?length_reverse, length_fmap; done.
Qed.

(** C8. Probing in rows of alternating direction: the table assembled from the samples is
    complete, the mesh is built from it, and the node of the mesh that stands for a
    sample, in the row counted in the order of probing and the column counted in the
    order of X, has the height that was measured, less the offset of the probe. Where on
    the bed that node lies is not part of this. *)
Theorem calibrated_mesh_passes_samples params zOffset rows :
  params_ok params → zigzag rows → len rows = p_y_count params → Forall (λ row, len row = p_x_count params) rows →
  ∃ t z m, AssembleProbedMatrix (position <$> concat rows) zOffset (p_x_count params) (p_y_count params) None None = Ret (inr t) ∧
    Build_mesh t (NewZMesh params) = Ret z ∧ Mesh_matrix z = Some m ∧
    ∀ j i row s, rows !! j = Some row → row !! i = Some s →
      cell m (Z.of_nat j * (p_mesh_y_pps params + 1)) (column (p_x_count params) (goes_right true j) i * (p_mesh_x_pps params + 1))
      = Ret (fsub (sz s) zOffset).
Proof.
  intros Hp Hz Hy Hx. assert (Hd : dims (p_y_count params) (p_x_count params) (table zOffset true rows)) by (rewrite <- Hy; by apply table_dims).
  destruct (Sample_total params _ Hp Hd) as (m & Hs & _ & Hg). eexists _, _, m. split; [by apply assemble_zigzag|].
  unfold Build_mesh. rewrite Hs. split_and!; [reflexivity|done|]. intros j i row s Hj Hi.
  assert (Hlen : len row = p_x_count params) by (eapply Forall_lookup in Hx; [exact Hx|done]).
  pose proof (lookup_lt_Some _ _ _ Hj) as Lj. pose proof (lookup_lt_Some _ _ _ Hi) as Li.
  rewrite Hg; [|unfold len in Hy; lia|unfold column, len in *; destruct (goes_right true j); lia].
  unfold cell. rewrite (index_lookup _ _ _ (zigzag_table_lookup zOffset true _ _ _ Hj)). cbn [mbind go_bind].
  by apply heights_lookup.
Qed.

Definition small_params : mesh_params := mkMeshParams f0 (f_of_Z 20) f0 (f_of_Z 20) 3 3 2 2 "lagrange" (f_lit 1 5).
Definition small_run : list (list sample) :=
  (λ p : Z * list Z, (λ x, mkSample (f_of_Z x) (f_of_Z p.1) (f_of_Z (x + p.1))) <$> p.2) <$> [(0, [0; 10; 20]); (10, [20; 10; 0]); (20, [0; 10; 20])].

Lemma calibrated_mesh_passes_samples_witness :
  ∃ t z m, AssembleProbedMatrix (position <$> concat small_run) f1 3 3 None None = Ret (inr t) ∧
    Build_mesh t (NewZMesh small_params) = Ret z ∧ Mesh_matrix z = Some m ∧ cell m 3 6 = Ret (f_of_Z 29).
Proof.
  destruct (calibrated_mesh_passes_samples small_params f1 small_run) as (t & z & m & E1 & E2 & E3 & H).
  - split_and!; try done. exists "lagrange"%string, false. vm_compute. reflexivity.
  - vm_compute. tauto.
  - reflexivity.
  - repeat constructor.
  - exists t, z, m. split_and!; [done..|]. apply (H 1%nat 0%nat (default [] (small_run !! 1%nat)) (mkSample (f_of_Z 20) (f_of_Z 10) (f_of_Z 30)));
      vm_compute; reflexivity.
Defined.

(** ** Faulty points *)

(** A run of points up to a faulty one, with the points to probe around it. *)
Record patch := mkPatch { before : list point; faulty : point; around : list point }.

Definition plan_points (plan : list patch) (tail : list point) : list point :=
  concat ((λ p, before p ++ [faulty p]) <$> plan) ++ tail.
Definition plan_adjusted (plan : list patch) (tail : list point) : list point :=
  concat ((λ p, before p ++ around p) <$> plan) ++ tail.
Fixpoint plan_subs (k : Z) (plan : list patch) : list PointSubstitution :=
  match plan with
  | [] => []
  | p :: plan' => mkSubstitution (k + len (before p)) (around p) :: plan_subs (k + len (before p) + 1) plan'
  end.

Lemma plan_points_cons p plan tail : plan_points (p :: plan) tail = before p ++ faulty p :: plan_points plan tail.
Proof. unfold plan_points. cbn [fmap list_fmap concat]. by rewrite <- !app_assoc. Qed.
Lemma plan_adjusted_cons p plan tail : plan_adjusted (p :: plan) tail = before p ++ around p ++ plan_adjusted plan tail.
Proof. unfold plan_adjusted. cbn [fmap list_fmap concat]. by rewrite <- !app_assoc. Qed.

Lemma plan_subs_snoc k plan p : plan_subs k (plan ++ [p]) = plan_subs k plan ++ [mkSubstitution (k + len (plan_points plan []) + len (before p)) (around p)].
Proof.
  revert k. induction plan as [|q plan IH]; intros k; cbn [app plan_subs].
  { unfold plan_points. cbn. by rewrite Z.add_0_r. }
  rewrite IH, plan_points_cons, len_app, len_cons. cbn [app].
  by replace (k + (len (before q) + (1 + len (plan_points plan [])))) with (k + len (before q) + 1 + len (plan_points plan [])) by lia.
Qed.

Lemma adjusted_run points pre plan tail acc : points = pre ++ plan_points plan tail →
  (r ← range (λ (st : list point * Z) sub, before ← slice points st.2 (Index sub);
              Ret (st.1 ++ before ++ Points sub, Index sub + 1)) (acc, len pre) (plan_subs (len pre) plan);
   tail ← slice points (r : list point * Z).2 (len points); Ret (r.1 ++ tail)) = Ret (acc ++ plan_adjusted plan tail).
Proof.
  revert pre acc. induction plan as [|p plan IH]; intros pre acc Hp; cbn [plan_subs range mbind go_bind fst snd].
  - rewrite Hp. unfold plan_points, plan_adjusted. cbn [fmap list_fmap concat app].
    assert (Hs : slice (pre ++ tail) (len pre) (len (pre ++ tail)) = Ret tail).
    { rewrite <- (app_nil_r tail) at 1. apply slice_app_mid; [done|by rewrite len_app]. }
    by rewrite Hs.
  - cbn [Index Points]. rewrite plan_points_cons in Hp.
    assert (Hs : slice points (len pre) (len pre + len (before p)) = Ret (before p)) by (rewrite Hp; by apply slice_app_mid).
    rewrite Hs. cbn [mbind go_bind]. specialize (IH (pre ++ before p ++ [faulty p]) (acc ++ before p ++ around p)).
    rewrite !len_app, len_one, Z.add_assoc in IH. rewrite IH; [|by rewrite Hp, <- !app_assoc].
    rewrite plan_adjusted_cons, <- !app_assoc. done.
Qed.

Lemma adjusted_plan plan tail : GetAdjustedPoints (plan_points plan tail) (plan_subs 0 plan) = Ret (plan_adjusted plan tail).
Proof.
  destruct plan as [|p plan]; [done|]. unfold GetAdjustedPoints. 
  pose proof (adjusted_run (plan_points (p :: plan) tail) [] (p :: plan) tail [] eq_refl) as H. rewrite len_nil in H. cbn [app] in H. 
  destruct (plan_subs 0 (p :: plan)) eqn:E; [done|]. exact H.
Qed.

(** The samples of a patch: those of the points before, and those around the faulty one. *)
Definition probed_for (p : patch) (q : list sample * list sample) : Prop := len q.1 = len (before p) ∧ len q.2 = len (around p).
Definition run_samples (probed : list (list sample * list sample)) (tail : list sample) : list sample :=
  concat ((λ q, q.1 ++ q.2) <$> probed) ++ tail.

(** One position for the faulty point, at its place and at the average height. *)
Definition average (samples : list sample) : f64 := fdiv (foldl (λ a s, fadd a (sz s)) f0 samples) (f_of_Z (len samples)).
Definition merged (ox oy : f64) (p : patch) (samples : list sample) : point :=
  match faulty p with x :: y :: _ => [fsub x ox; fsub y oy; average samples] | _ => [] end.
Definition run_merged (ox oy : f64) (plan : list patch) (probed : list (list sample * list sample)) (tail : list sample) : list point :=
  concat (zip_with (λ p q, (position <$> q.1) ++ [merged ox oy p q.2]) plan probed) ++ (position <$> tail).

Lemma run_samples_cons q probed tail : run_samples (q :: probed) tail = q.1 ++ q.2 ++ run_samples probed tail.
Proof. unfold run_samples. cbn [fmap list_fmap concat]. by rewrite <- !app_assoc. Qed.
Lemma run_merged_cons ox oy p q plan probed tail :
  run_merged ox oy (p :: plan) (q :: probed) tail = (position <$> q.1) ++ merged ox oy p q.2 :: run_merged ox oy plan probed tail.
Proof. unfold run_merged. cbn [zip_with concat]. by rewrite <- !app_assoc. Qed.

Lemma len_fmap {A B} (f : A → B) (l : list A) : len (f <$> l) = len l.
Proof. unfold len. by rewrite length_fmap. Qed.

Lemma offset_two p ox oy oz : len p = 2 → ∃ x y, p = [x; y] ∧ offset_point p [ox; oy; oz] = Ret [fsub x ox; fsub y oy].
Proof. destruct p as [|x [|y [|z p]]]; intros H; try done; [by exists x, y|]. rewrite !len_cons in H. pose proof (len_nonneg p). lia. Qed.

Lemma sum_samples samples acc :
  range (λ acc p, z ← (p : point).[2]; Ret (fadd acc z)) acc (position <$> samples) = Ret (foldl (λ a s, fadd a (sz s)) acc samples).
Proof. revert acc. induction samples as [|s samples IH]; intros acc; [done|]. cbn. apply IH. Qed.

Lemma merge_one gpre pre p q gen_rest pos_rest acc ox oy oz : len (faulty p) = 2 → probed_for p q →
  merge_step (gpre ++ before p ++ faulty p :: gen_rest) (pre ++ (position <$> q.1 ++ q.2) ++ pos_rest) [ox; oy; oz]
    (acc, len pre - len gpre, len pre) (mkSubstitution (len gpre + len (before p)) (around p))
  = Ret (acc ++ (position <$> q.1) ++ [merged ox oy p q.2], len pre - len gpre + len q.2 - 1, len pre + len q.1 + len q.2).
Proof.
  intros Hf [H1 H2]. unfold merge_step. cbn [Index Points].
  assert (Eg : (gpre ++ before p ++ faulty p :: gen_rest).[len gpre + len (before p)] = Ret (faulty p)).
  { rewrite app_assoc, index_app_r, len_app; [|rewrite len_app; lia]. by rewrite Z.sub_diag, index_0. }
  rewrite Eg. cbn [mbind go_bind]. destruct (offset_two (faulty p) ox oy oz Hf) as (x & y & Ef & ->). cbn [mbind go_bind].
  rewrite <- H1, <- H2, fmap_app, <- app_assoc.
  replace (len gpre + len q.1 + (len pre - len gpre)) with (len pre + len q.1) by lia.
  rewrite (slice_app_mid pre (position <$> q.1) _ (len pre) (len pre + len q.1)) by (by rewrite ?len_fmap). cbn [mbind go_bind].
  rewrite app_assoc, (slice_app_mid (pre ++ (position <$> q.1)) (position <$> q.2)) by (by rewrite ?len_app, ?len_fmap). cbn [mbind go_bind].
  rewrite sum_samples. cbn [mbind go_bind]. unfold merged, average. by rewrite Ef.
Qed.

Lemma merge_run plan probed gpre pre tail ptail acc ox oy oz : Forall2 probed_for plan probed → Forall (λ p, len (faulty p) = 2) plan →
  ∃ off, range (merge_step (gpre ++ plan_points plan tail) (pre ++ (position <$> run_samples probed ptail)) [ox; oy; oz])
    (acc, len pre - len gpre, len pre) (plan_subs (len gpre) plan)
  = Ret (acc ++ run_merged ox oy plan probed [], off, len pre + len (run_samples probed [])).
Proof.
  intros Hm. revert gpre pre acc. induction Hm as [|p q plan probed Hpq Hm IH]; intros gpre pre acc Hf.
  { eexists. cbn. by rewrite app_nil_r, Z.add_0_r. }
  inversion_clear Hf as [|? ? Hfp Hf']. cbn [plan_subs range]. rewrite plan_points_cons, run_samples_cons, (app_assoc q.1), fmap_app.
  rewrite (merge_one gpre pre p q) by done. cbn [mbind go_bind].
  destruct (IH (gpre ++ before p ++ [faulty p]) (pre ++ (position <$> q.1 ++ q.2)) (acc ++ (position <$> q.1) ++ [merged ox oy p q.2]) Hf') as [off E].
  rewrite <- !app_assoc in E. cbn [app] in E. rewrite !len_app, len_one, len_fmap, len_app in E.
  exists off. rewrite run_samples_cons, run_merged_cons, !len_app. destruct Hpq as [H1 H2].
  replace (len gpre + len (before p) + 1) with (len gpre + (len (before p) + 1)) by lia.
  replace (len pre - len gpre + len q.2 - 1) with (len pre + (len q.1 + len q.2) - (len gpre + (len (before p) + 1))) by lia.
  replace (len pre + len q.1 + len q.2) with (len pre + (len q.1 + len q.2)) by lia. rewrite E.
  by rewrite !Z.add_assoc.
Qed.

Lemma run_split (probed : list (list sample * list sample)) tail : run_samples probed tail = run_samples probed [] ++ tail.
Proof. unfold run_samples. by rewrite app_nil_r. Qed.
Lemma merged_split ox oy plan probed tail : run_merged ox oy plan probed tail = run_merged ox oy plan probed [] ++ (position <$> tail).
Proof. unfold run_merged. by rewrite app_nil_r. Qed.

Lemma merged_len ox oy plan probed tail ptail : Forall2 probed_for plan probed → len ptail = len tail →
  len (run_merged ox oy plan probed ptail) = len (plan_points plan tail).
Proof.
  intros Hm Ht. induction Hm as [|p q plan probed [H1 H2] Hm IH]; [unfold run_merged, plan_points; cbn [zip_with concat fmap list_fmap app]; by rewrite len_fmap|].
  rewrite run_merged_cons, plan_points_cons, !len_app, !len_cons, len_fmap, H1. unfold point in *. lia.
Qed.

Lemma merged_wide ox oy plan probed ptail : Forall (λ p, len (faulty p) = 2) plan → Forall (λ p, 2 ≤ len p) (run_merged ox oy plan probed ptail).
Proof.
  assert (Hp : ∀ l, Forall (λ p : point, 2 ≤ len p) (position <$> l)) by (intros l; apply Forall_fmap, Forall_true; by intros).
  revert probed. induction plan as [|p plan IH]; intros probed Hf; [by apply Hp|]. inversion_clear Hf as [|? ? Hfp Hf'].
  destruct probed as [|q probed]; [by apply Hp|]. rewrite run_merged_cons. apply Forall_app. split; [by apply Hp|]. constructor; [|auto].
  unfold merged. by destruct (offset_two (faulty p) f0 f0 f0 Hfp) as (x & y & -> & _).
Qed.

(** The coordinates are compared without a panic. *)
Lemma check_points_total gens corrected ox oy oz : Forall (λ p, len p = 2) gens → Forall (λ p, 2 ≤ len p) corrected →
  ∃ e, check_points gens corrected [ox; oy; oz] = Ret e ∧ (e = None ∨ e = Some "bed_mesh: point mismatch"%string).
Proof.
  intros Hg. revert corrected. induction Hg as [|g gens Hlg Hg IH]; intros corrected Hc; [by exists None; auto|].
  destruct Hc as [|c corrected Hlc Hc]; [by exists None; auto|]. cbn [check_points].
  destruct (offset_two g ox oy oz Hlg) as (x & y & _ & ->). cbn [mbind go_bind].
  destruct (index_total c 0) as (cx & -> & _); [lia|]. destruct (index_total c 1) as (cy & Ey & _); [lia|].
  change ([fsub x ox; fsub y oy].[0]) with (Ret (fsub x ox)). change ([fsub x ox; fsub y oy].[1]) with (Ret (fsub y oy)). cbn [mbind go_bind].
  destruct (Isclose (fsub x ox) cx _ _); [|eauto]. rewrite Ey. cbn [mbind go_bind]. destruct (Isclose (fsub y oy) cy _ _); [auto|eauto].
Qed.

Lemma merge_plan plan tail probed ptail ox oy oz : Forall (λ p, len p = 2) (plan_points plan tail) → Forall (λ p, len (faulty p) = 2) plan →
  Forall2 probed_for plan probed → len ptail = len tail →
  ∃ e, ProcessFaultySubstitutions (plan_points plan tail) (plan_subs 0 plan) (position <$> run_samples probed ptail) [ox; oy; oz]
       = Ret (run_merged ox oy plan probed ptail, e) ∧ (e = None ∨ e = Some "bed_mesh: point mismatch"%string).
Proof.
  intros Hall Hf Hm Ht. destruct plan as [|p plan].
  { inversion Hm; subst. exists None. split; [done|by left]. }
  unfold ProcessFaultySubstitutions. destruct (plan_subs 0 (p :: plan)) as [|s subs] eqn:Es; [done|]. rewrite <- Es.
  change ([ox; oy; oz].[2]) with (Ret oz). cbn [mbind go_bind].
  destruct (merge_run (p :: plan) probed [] [] tail ptail [] ox oy oz Hm Hf) as [off E]. cbn [app] in E.
  change (@len point []) with 0 in E. rewrite Z.sub_diag, Z.add_0_l in E.
  rewrite E. cbn [mbind go_bind].
  assert (Hs : slice (position <$> run_samples probed ptail) (len (run_samples probed [])) (len (position <$> run_samples probed ptail))
    = Ret (position <$> ptail)).
  { rewrite (run_split probed ptail), fmap_app. rewrite <- (app_nil_r (position <$> ptail)) at 1.
    apply slice_app_mid; by rewrite ?len_app, ?len_fmap. }
  rewrite Hs. cbn [mbind go_bind]. rewrite <- merged_split, (merged_len ox oy (p :: plan) probed tail ptail Hm Ht), Z.eqb_refl. cbn [negb].
  destruct (check_points_total (plan_points (p :: plan) tail) (run_merged ox oy (p :: plan) probed ptail) ox oy oz) as (e & -> & He);
    [done|by apply merged_wide|]. by exists e.
Qed.

(** ** The points that are generated *)

Lemma range_keeps {S X} (P : S → Prop) (f : S → X → go S) s xs s' :
  (∀ s x s', P s → f s x = Ret s' → P s') → P s → range f s xs = Ret s' → P s'.
Proof.
  intros Hf. revert s. induction xs as [|x xs IH]; intros s Hs E; [by injection E as <-|]. cbn [range] in E.
  destruct (f s x) as [s1|] eqn:E1; [|done]. eauto.
Qed.

Lemma grid_point_two radius origin x y pts : grid_point radius origin x y = Ret pts → Forall (λ p, len p = 2) pts.
Proof.
  unfold grid_point. destruct (round_radius radius) as [r|]; [|by intros [= <-]; constructor]. destruct (fle _ r); [|by intros [= <-]].
  destruct (origin.[0]); [|done]. cbn [mbind go_bind]. destruct (origin.[1]); [|done]. by intros [= <-]; constructor.
Qed.

Lemma grid_row_two radius origin g xCount i y row : grid_row radius origin g xCount i y = Ret row → Forall (λ p, len p = 2) row.
Proof.
  apply range_keeps; [|constructor]. intros acc j acc' Hacc E. cbv zeta in E. destruct (grid_point _ _ _ _) as [pts|] eqn:Ep; [|done].
  injection E as <-. apply Forall_app. split; [done|by eapply grid_point_two].
Qed.

Lemma grid_points_two radius origin g xCount yCount pts : grid_points radius origin g xCount yCount = Ret pts → Forall (λ p, len p = 2) pts.
Proof.
  unfold grid_points. destruct (range _ _ _) as [r|] eqn:Er; [|done]. intros [= <-]. revert Er.
  apply (range_keeps (λ st : list point * f64, Forall (λ p : point, len p = 2) st.1)); [|constructor].
  intros st i st' Hst E. destruct (grid_row _ _ _ _ _ _) as [row|] eqn:Eg; [|done]. injection E as <-.
  apply Forall_app. split; [done|by eapply grid_row_two].
Qed.

Lemma failed_stays radius origin g regions i e points r :
  range_idx (substitute_step radius origin g regions) i (inl e) points = Ret (inr r) → False.
Proof. revert i. induction points as [|p points IH]; intros i E; [done|]. exact (IH _ E). Qed.

(** The substitutions found along the points make a plan of them. *)
Lemma substitute_plan radius origin g regions points st subs plan tail i : 
  range_idx (substitute_step radius origin g regions) i st points = Ret (inr subs) → i = len (plan_points plan tail) →
  (∃ y b, st = inr (y, b, plan_subs 0 plan)) →
  ∃ plan' tail', plan_points plan tail ++ points = plan_points plan' tail' ∧ subs.2 = plan_subs 0 plan'.
Proof.
  revert st plan tail i. induction points as [|p points IH]; intros st plan tail i E Hi (y & b & ->).
  { injection E as <-. exists plan, tail. by rewrite app_nil_r. }
  cbn [range_idx] in E. destruct (substitute_step _ _ _ _ _ i p) as [st1|] eqn:E1; [|done]. cbn [mbind go_bind] in E.
  unfold substitute_step in E1. destruct (p.[1]) as [py|]; [|done]. cbn [mbind go_bind] in E1.
  destruct (adjacent _ _ _) as [adj|]; [|done]. cbn [mbind go_bind] in E1.
  assert (Ht : ∀ l, plan_points plan l ++ [p] = plan_points plan (l ++ [p])) by (intros; unfold plan_points; by rewrite <- app_assoc).
  rewrite cons_middle, app_assoc. destruct adj as [|a adj].
  - injection E1 as <-. rewrite Ht. eapply IH; [exact E|rewrite <- Ht, len_app, len_one; lia|eauto].
  - destruct (range _ [] (a :: adj)) as [valid|]; [|done]. cbn [mbind go_bind] in E1.
    destruct valid as [|v valid]; injection E1 as <-; [by apply failed_stays in E|].
    set (pt := mkPatch tail p (v :: valid)).
    assert (Hp : plan_points plan tail ++ [p] = plan_points (plan ++ [pt]) []).
    { unfold plan_points. rewrite fmap_app, concat_app. cbn. by rewrite !app_nil_r, <- !app_assoc. }
    rewrite Hp. eapply IH; [exact E|rewrite <- Hp, len_app, len_one; lia|]. eexists _, _. do 2 f_equal.
    rewrite plan_subs_snoc, Z.add_0_l. cbn [before around pt]. do 3 f_equal. rewrite Hi. unfold plan_points. by rewrite app_nil_r, len_app.
Qed.

Lemma generated_plan radius origin meshMin meshMax xCount yCount regions points subs :
  GenerateProbePoints radius origin meshMin meshMax xCount yCount regions = Ret (inr (points, subs)) →
  ∃ plan tail, points = plan_points plan tail ∧ subs = plan_subs 0 plan ∧ Forall (λ p, len p = 2) points.
Proof.
  unfold GenerateProbePoints. destruct (_ || _); [done|]. destruct (make_grid _ _ _ _ _) as [[e|g]|]; [done| |done]. cbn [mbind go_bind].
  destruct (grid_points _ _ _ _ _) as [pts|] eqn:Eg; [|done]. cbn [mbind go_bind]. apply grid_points_two in Eg.
  destruct (_ || _); [intros [= <- <-]; by exists [], pts|]. destruct (pts.[0]) as [first|]; [|done]. cbn [mbind go_bind].
  destruct (first.[1]) as [y|]; [|done]. cbn [mbind go_bind]. destruct (range_idx _ _ _ _) as [[e|[[y' b] s]]|] eqn:E; [done| |done].
  intros [= <- <-]. destruct (substitute_plan _ _ _ _ _ _ _ [] [] 0 E) as (plan & tail & Hp & Hs); [done|by eexists _, _|].
  exists plan, tail. done.
Qed.

Lemma plan_faulty_two plan tail : Forall (λ p, len p = 2) (plan_points plan tail) → Forall (λ p, len (faulty p) = 2) plan.
Proof.
  induction plan as [|p plan IH]; [done|]. rewrite plan_points_cons. intros [_ H]%Forall_app. inversion_clear H. by constructor; auto.
Qed.

(** For any points generated with faulty regions, the points visited are the generated
    ones with each faulty one replaced by its substitutes, and merging the probed
    positions gives one position for each generated point: the probed one, or the faulty
    point at the average height of its substitutes; the merge never panics and never
    fails for its size. *)
Theorem faulty_points_merge_back radius origin meshMin meshMax xCount yCount regions points subs :
  GenerateProbePoints radius origin meshMin meshMax xCount yCount regions = Ret (inr (points, subs)) →
  ∃ plan tail, points = plan_points plan tail ∧ GetAdjustedPoints points subs = Ret (plan_adjusted plan tail) ∧
    ∀ probed ptail ox oy oz, Forall2 probed_for plan probed → len ptail = len tail →
    ∃ e, ProcessFaultySubstitutions points subs (position <$> run_samples probed ptail) [ox; oy; oz]
         = Ret (run_merged ox oy plan probed ptail, e) ∧
      len (run_merged ox oy plan probed ptail) = len points ∧ (e = None ∨ e = Some "bed_mesh: point mismatch"%string).
Proof.
  intros H. destruct (generated_plan _ _ _ _ _ _ _ _ _ H) as (plan & tail & -> & -> & Htwo). exists plan, tail.
  split_and!; [done|apply adjusted_plan|]. intros probed ptail ox oy oz Hm Ht.
  destruct (merge_plan plan tail probed ptail ox oy oz) as (e & E & He); [done|by eapply plan_faulty_two|done..|].
  exists e. split_and!; [done|by apply merged_len|done].
Qed.

Definition corner_fault : FaultyRegion := mkRegion [f_of_Z 8; f_of_Z (-1)] [f_of_Z 12; f_of_Z 2].
Definition faulty_grid : list point * list PointSubstitution :=
  match GenerateProbePoints None [] [f0; f0] [f_of_Z 20; f_of_Z 20] 3 3 [corner_fault] with Ret (inr r) => r | _ => ([], []) end.

(** The point in the faulty region is replaced by the three points around it that are on the bed. *)
Lemma faulty_grid_substitutes : faulty_grid.2 = [mkSubstitution 1 [[f_of_Z 8; f0]; [f_of_Z 10; f_of_Z 2]; [f_of_Z 12; f0]]].
Proof. vm_compute. reflexivity. Qed.

Lemma faulty_points_merge_back_witness : ∃ plan tail, faulty_grid.1 = plan_points plan tail ∧
  GetAdjustedPoints faulty_grid.1 faulty_grid.2 = Ret (plan_adjusted plan tail).
Proof.
  destruct (faulty_points_merge_back None [] [f0; f0] [f_of_Z 20; f_of_Z 20] 3 3 [corner_fault] faulty_grid.1 faulty_grid.2)
    as (plan & tail & H1 & H2 & _); [vm_compute; reflexivity|]. exists plan, tail. split; [exact H1|exact H2].
Defined.

(** ** Round beds *)

(** The rows of a round bed are not padded: a table is only made of full rows. *)
Lemma assembled_rows_full positions zOffset xCount yCount ref radius m :
  AssembleProbedMatrix positions zOffset xCount yCount ref radius = Ret (inr m) → dims yCount xCount m.
Proof.
  unfold AssembleProbedMatrix. destruct (match ref with Some _ => _ | None => _ end) as [zo|]; [|done]. cbn [mbind go_bind].
  destruct (positions.[0]) as [first|]; [|done]. cbn [mbind go_bind]. destruct (range _ _ _) as [[[probed row] p]|]; [|done]. cbn [mbind go_bind].
  destruct (len (probed ++ [row]) =? yCount) eqn:Ey; [|done]. cbn [negb].
  destruct (if default false _ then _ else _) as [[e|]|]; [done| |done]. cbn [mbind go_bind].
  destruct (forallb _ _) eqn:Ex; [|done]. intros [= <-]. split; [lia|]. rewrite List.forallb_forall in Ex.
  apply Forall_forall. intros r Hr. apply Z.eqb_eq, Ex. by apply list_elem_of_In.
Qed.

(** A round bed of radius 50 with five probes a side: the grid reaches from -62.5 on, its
    first row is outside the bed, and the calibration of a flat bed fails. *)
Definition round_points : list point :=
  match GenerateProbePoints (Some (f_of_Z 50)) [f0; f0] [f_of_Z (-50); f_of_Z (-50)] [f_of_Z 50; f_of_Z 50] 5 5 [] with
  | Ret (inr (pts, _)) => pts | _ => [] end.

Lemma round_bed_never_assembles :
  AssembleProbedMatrix ((λ p, p ++ [f0]) <$> round_points) f0 5 5 None (Some (f_of_Z 50))
  = Ret (inl "bed_mesh: Invalid y-axis table length"%string).
Proof. vm_compute. reflexivity. Qed.

(** ** Crossing regions *)

(** Two regions that cross have no corner in one another, and pass as disjoint. *)
Lemma crossing_regions_accepted :
  let p x y := [f_of_Z x; f_of_Z y] in
  ValidateFaultyRegionOverlap (p 0 10) (p 30 20) (p 0 20) (p 30 10) [mkRegion (p 10 0) (p 20 30)] = Ret None ∧
  Within (p 15 15) (p 0 10) (p 30 20) f0 = Ret true ∧ Within (p 15 15) (p 10 0) (p 20 30) f0 = Ret true.
Proof. vm_compute. split_and!; reflexivity. Qed.
