(* ===== verification/BedMesh.v ===== *)
(** * Moves over the mesh

    [src/internal/pkg/motion/bed_mesh/move_splitter.go] and [fade.go], and [BedMesh] of
    [src/project/goklipper.go]: the transform that the bed mesh puts before the
    toolhead.  A move is cut where the height of the mesh has changed enough, and each
    piece is raised by the mesh, less the higher it is (fade).

    [Splitter.Z_mesh] is the object that [BedMesh.Z_mesh] points to whenever that is
    not nil ([Set_mesh] sets both), so the splitter reads it from there.  What the
    splitter holds after a panic is not kept: [Build_move] sets all of it anew. *)

From S2P Require Import Prelude GoFloat GoState GcodeParse GcodeMove ZMesh.

(** ** Fading *)

Definition CalcZFadeFactor (z_pos fade_start fade_end : f64) : f64 :=
  if fle fade_end z_pos then f0
  else if fle fade_start z_pos then fdiv (fsub fade_end z_pos) (fsub fade_end fade_start)
  else f1.

Definition ResolveFadeTarget (mesh : option ZMesh) (fadeEnabled : bool) (fadeDist baseFadeTarget : f64) : string + (f64 * bool) :=
  match mesh with
  | None => inr (f0, false)
  | Some mesh =>
      if negb fadeEnabled then inr (f0, false)
      else
        let '(minZ, maxZ) := Get_z_range mesh in
        let target :=
          if feq baseFadeTarget f0 then Some (Avg_z mesh)
          else if fle minZ baseFadeTarget && fle baseFadeTarget maxZ then Some baseFadeTarget else None in
        match target with
        | None => inl "bed_mesh: ERROR, fade_target lies outside of mesh z range"%string
        | Some fadeTarget =>
            if fle fadeDist (fmax (fabs minZ) (fabs maxZ)) then inl "bed_mesh: Mesh extends outside of the fade range"%string
            else inr (fadeTarget, true)
        end
  end.

Section Mesh.
(** [int] of a [float64] that does not fit. *)
Context (conv : f64 → Z).

Definition CalculateUntransformedPosition (toolheadPos : list f64) (mesh : option ZMesh)
    (fadeStart fadeEnd fadeDist fadeTarget : f64) : go (list f64) :=
  match toolheadPos with
  | x :: y :: z :: e :: rest =>
      match mesh with
      | None => Ret (x :: y :: fsub z fadeTarget :: e :: rest)
      | Some mesh =>
          maxAdj ← Calc_z conv mesh x y;
          let zAdj := fsub maxAdj fadeTarget in
          let factor :=
            if fle fadeEnd (fmin z (fsub z maxAdj)) then f0
            else if fle fadeStart (fmax z (fsub z maxAdj))
              then Constrain (fdiv (fsub (fadd fadeEnd fadeTarget) z) (fsub fadeDist zAdj)) f0 f1
            else f1 in
          let finalZAdj := fadd (fmul factor zAdj) fadeTarget in
          Ret [x; y; fsub z finalZAdj; e]
      end
  | _ => Ret toolheadPos
  end.

(** ** The splitter *)

Record MoveSplitter := mkSplitter {
  Split_delta_z : f64;
  Move_check_distance : f64;
  Fade_offset : f64;
  Pre_pos : list f64;
  Next_pos : list f64;
  Current_pos : list f64;
  Z_factor : f64;
  Z_offset : f64;
  Traverse_complete : bool;
  Distance_checked : f64;
  Total_move_length : f64;
  Axis_move : list bool
}.

Definition NewMoveSplitter (splitDeltaZ moveCheckDistance : f64) : MoveSplitter :=
  mkSplitter splitDeltaZ moveCheckDistance f0 [] [] [] f0 f0 false f0 f0 [].

Definition Initialize (fade_offset : f64) (s : MoveSplitter) : MoveSplitter :=
  mkSplitter (Split_delta_z s) (Move_check_distance s) fade_offset (Pre_pos s) (Next_pos s) (Current_pos s) (Z_factor s)
    (Z_offset s) (Traverse_complete s) (Distance_checked s) (Total_move_length s) (Axis_move s).

Definition with_current (p : list f64) (s : MoveSplitter) : MoveSplitter :=
  mkSplitter (Split_delta_z s) (Move_check_distance s) (Fade_offset s) (Pre_pos s) (Next_pos s) p (Z_factor s)
    (Z_offset s) (Traverse_complete s) (Distance_checked s) (Total_move_length s) (Axis_move s).
Definition with_z_offset (o : f64) (s : MoveSplitter) : MoveSplitter :=
  mkSplitter (Split_delta_z s) (Move_check_distance s) (Fade_offset s) (Pre_pos s) (Next_pos s) (Current_pos s) (Z_factor s)
    o (Traverse_complete s) (Distance_checked s) (Total_move_length s) (Axis_move s).
Definition with_checked (d : f64) (s : MoveSplitter) : MoveSplitter :=
  mkSplitter (Split_delta_z s) (Move_check_distance s) (Fade_offset s) (Pre_pos s) (Next_pos s) (Current_pos s) (Z_factor s)
    (Z_offset s) (Traverse_complete s) d (Total_move_length s) (Axis_move s).
Definition completed (s : MoveSplitter) : MoveSplitter :=
  mkSplitter (Split_delta_z s) (Move_check_distance s) (Fade_offset s) (Pre_pos s) (Next_pos s) (Current_pos s) (Z_factor s)
    (Z_offset s) true (Distance_checked s) (Total_move_length s) (Axis_move s).

(** [Calc_z_offset], given the mesh, the factor and the offset of the fade. *)
Definition z_offset_at (mesh : ZMesh) (factor offset : f64) (pos : list f64) : go f64 :=
  x ← at_ pos 0;
  y ← at_ pos 1;
  z ← Calc_z conv mesh x y;
  Ret (fadd (fmul factor (fsub z offset)) offset).
Definition Calc_z_offset (mesh : ZMesh) (pos : list f64) (s : MoveSplitter) : go f64 :=
  z_offset_at mesh (Z_factor s) (Fade_offset s) pos.

Definition Build_move (mesh : ZMesh) (prev_pos next_pos : list f64) (factor : f64) (s : MoveSplitter) : go MoveSplitter :=
  zo ← z_offset_at mesh factor (Fade_offset s) prev_pos;
  axes_d ← range (λ ds i, n ← at_ next_pos i; p ← at_ prev_pos i; Ret (ds ++ [fsub n p])) [] [0%nat; 1%nat; 2%nat; 3%nat];
  let sum_val := fold_left (λ s d, fadd s (fmul d d)) (take 3 axes_d) f0 in
  Ret (mkSplitter (Split_delta_z s) (Move_check_distance s) (Fade_offset s) prev_pos next_pos prev_pos factor zo false f0
    (fsqrt sum_val) (map (λ d, negb (Isclose d f0 (f_lit 1 10000000000) f0)) axes_d)).

(** [axis_move[i]]. *)
Definition flag (l : list bool) (i : nat) : go bool :=
  match l !! i with Some b => Ret b | None => Panic "index out of range" end.

Definition Set_next_move (distance_from_prev : f64) (s : MoveSplitter) : go MoveSplitter :=
  let t := fdiv distance_from_prev (Total_move_length s) in
  if flt f1 t || flt t f0 then Panic "bed_mesh: Slice distance is negative or greater than entire move length"
  else
    p ← range (λ cur i,
      b ← flag (Axis_move s) i;
      if (b : bool) then v0 ← at_ (Pre_pos s) i; v1 ← at_ (Next_pos s) i; put cur i (Lerp t v0 v1) else Ret cur)
      (Current_pos s) [0%nat; 1%nat; 2%nat; 3%nat];
    Ret (with_current p s).

(** A round of the loop of [Split]: on, or out of it with a piece or none. *)
Definition split_round (mesh : ZMesh) (s : MoveSplitter) : MoveSplitter + go (option (list f64) * MoveSplitter) :=
  let next := fadd (Distance_checked s) (Move_check_distance s) in
  if flt next (Total_move_length s) then
    match (s ← Set_next_move next (with_checked next s); next_z ← Calc_z_offset mesh (Current_pos s) s; Ret (s, next_z)) with
    | Panic w => inr (Panic w)
    | Ret (s, next_z) =>
        if fle (Split_delta_z s) (fabs (fsub next_z (Z_offset s))) then
          inr (c0 ← at_ (Current_pos s) 0; c1 ← at_ (Current_pos s) 1; c2 ← at_ (Current_pos s) 2; c3 ← at_ (Current_pos s) 3;
               Ret (Some [c0; c1; fadd c2 next_z; c3], with_z_offset next_z s))
        else inl s
    end
  else inr (Ret (None, s)).

Definition split_fuel : positive := (2 ^ 65)%positive.

Definition Split (mesh : ZMesh) (s : MoveSplitter) : go (list f64 * MoveSplitter) :=
  if Traverse_complete s then Ret ([], s)
  else
    a0 ← flag (Axis_move s) 0;
    a1 ← (if (a0 : bool) then Ret true else flag (Axis_move s) 1);
    r ← (if (a1 : bool) then match while split_fuel (split_round mesh) s with inr r => r | inl _ => Panic "timeout" end
         else Ret (None, s));
    match r : option (list f64) * MoveSplitter with
    | (Some piece, s) => Ret (piece, s)
    | (None, s) =>
        zo ← Calc_z_offset mesh (Next_pos s) s;
        c2 ← at_ (Next_pos s) 2;
        p ← put (Next_pos s) 2 (fadd c2 zo);
        Ret (p, completed (with_z_offset zo (with_current p s)))
    end.

(** ** The module *)

Definition FADE_DISABLE : f64 := f_of_Z 0x7FFFFFFF.

Record BedMesh := mkBedMesh {
  Last_position : list f64;
  Target_position : list f64;
  Z_mesh : option ZMesh;
  Fade_start : f64;
  Fade_end : f64;
  Fade_dist : f64;
  Log_fade_complete : bool;
  Base_fade_target : f64;
  Fade_target : f64;
  Splitter : MoveSplitter
}.

Definition NewBedMesh (fade_start fade_end fade_target split_delta_z move_check_distance : f64) : BedMesh :=
  let dist := fsub fade_end fade_start in
  let '(st, en) := if fle dist f0 then (FADE_DISABLE, FADE_DISABLE) else (fade_start, fade_end) in
  mkBedMesh zeros [] None st en dist false fade_target f0 (NewMoveSplitter split_delta_z move_check_distance).

Definition set_last_position (p : list f64) (b : BedMesh) : BedMesh :=
  mkBedMesh p (Target_position b) (Z_mesh b) (Fade_start b) (Fade_end b) (Fade_dist b) (Log_fade_complete b)
    (Base_fade_target b) (Fade_target b) (Splitter b).
Definition set_target (p : list f64) (b : BedMesh) : BedMesh :=
  mkBedMesh (Last_position b) p (Z_mesh b) (Fade_start b) (Fade_end b) (Fade_dist b) (Log_fade_complete b)
    (Base_fade_target b) (Fade_target b) (Splitter b).
Definition set_splitter (s : MoveSplitter) (b : BedMesh) : BedMesh :=
  mkBedMesh (Last_position b) (Target_position b) (Z_mesh b) (Fade_start b) (Fade_end b) (Fade_dist b) (Log_fade_complete b)
    (Base_fade_target b) (Fade_target b) s.
Definition set_fade (m : option ZMesh) (log : bool) (target : f64) (b : BedMesh) : BedMesh :=
  mkBedMesh (Last_position b) (Target_position b) m (Fade_start b) (Fade_end b) (Fade_dist b) log
    (Base_fade_target b) target (Splitter b).

Definition Get_z_factor (b : BedMesh) (z_pos : f64) : f64 := CalcZFadeFactor z_pos (Fade_start b) (Fade_end b).

(** [for cond { body }], the body saying whether to go on; [true] when the fuel ran out. *)
Fixpoint mwhile {S} (n : positive) (body : M S bool) : M S bool :=
  match n with
  | xH => body
  | xO p => b ← mwhile p body; if (b : bool) then mwhile p body else mret false
  | xI p => b ← body; if (b : bool) then (b ← mwhile p body; if (b : bool) then mwhile p body else mret false) else mret false
  end.

Section Transform.
Context {E : Type} (toolhead : transform E).
Local Abbreviation Store := (BedMesh * E)%type.

Definition mesh_self : M Store BedMesh := gets fst.
Definition mesh_upd (f : BedMesh → BedMesh) : M Store unit := modify (λ s, (f s.1, s.2)).
Definition on_toolhead {A} (m : M E A) : M Store A := λ s, let '(r, e) := m s.2 in (r, (s.1, e)).

Definition mesh_Get_position : M Store (list f64) :=
  th ← on_toolhead (t_Get_position toolhead);
  b ← mesh_self;
  p ← lift (CalculateUntransformedPosition th (Z_mesh b) (Fade_start b) (Fade_end b) (Fade_dist b) (Fade_target b));
  mesh_upd (set_last_position p);;
  mret p.

(** One piece of a split move; whether there are more. *)
Definition move_piece (mesh : ZMesh) (speed : f64) : M Store bool :=
  b ← mesh_self;
  r ← lift (Split mesh (Splitter b));
  let '(split_move, s) := (r : list f64 * MoveSplitter) in
  mesh_upd (set_splitter s);;
  (if bool_decide (split_move = []) then panic "Mesh Leveling: Error splitting move "
   else on_toolhead (t_Move toolhead split_move speed));;
  mret (negb (Traverse_complete s)).

Definition mesh_Move (newpos : list f64) (speed : f64) : M Store unit :=
  mesh_upd (set_target newpos);;
  z ← lift (at_ newpos 2);
  b ← mesh_self;
  let factor := Get_z_factor b z in
  match Z_mesh b with
  | Some mesh =>
      if feq factor f0 then
        x ← lift (at_ newpos 0); y ← lift (at_ newpos 1); e ← lift (at_ newpos 3);
        mesh_upd (set_fade (Some mesh) false (Fade_target b));;
        on_toolhead (t_Move toolhead [x; y; fadd z (Fade_target b); e] speed)
      else
        s ← lift (Build_move mesh (Last_position b) newpos factor (Splitter b));
        mesh_upd (set_splitter s);;
        more ← mwhile split_fuel (move_piece mesh speed);
        if (more : bool) then panic "timeout" else mret tt
  | None =>
      x ← lift (at_ newpos 0); y ← lift (at_ newpos 1); e ← lift (at_ newpos 3);
      mesh_upd (set_fade None false (Fade_target b));;
      on_toolhead (t_Move toolhead [x; y; fadd z (Fade_target b); e] speed)
  end;;
  mesh_upd (set_last_position newpos).

(** The bed mesh as the transform of the G-code moves. *)
Definition mesh_transform : transform Store := mkTransform mesh_Move mesh_Get_position.

(** ** Changes of the mesh, which make the G-code state read its position again *)

Local Abbreviation GStore := (GCodeMove Store * Store)%type.
Definition mesh_modify (f : BedMesh → BedMesh) : M GStore unit := env (mesh_upd f).

Definition Set_mesh (mesh : option ZMesh) : M GStore unit :=
  b ← env mesh_self;
  match ResolveFadeTarget mesh (negb (feq (Fade_end b) FADE_DISABLE)) (Fade_dist b) (Base_fade_target b) with
  | inl err => mesh_modify (set_fade None (Log_fade_complete b) f0);; panic err
  | inr (fadeTarget, logFadeComplete) =>
      mesh_modify (λ b, set_splitter (Initialize fadeTarget (Splitter b)) (set_fade mesh logFadeComplete fadeTarget b));;
      Reset_last_position
  end.

Definition Cmd_BED_MESH_CLEAR : M GStore unit := Set_mesh None.

Definition Cmd_BED_MESH_OFFSET (gcmd : CommandParams) : M GStore unit :=
  b ← env mesh_self;
  match Z_mesh b with
  | Some mesh =>
      x ← lift (Get_float gcmd "x" Nil None None None None);
      y ← lift (Get_float gcmd "y" Nil None None None None);
      mesh ← lift (Set_mesh_offsets [x; y] mesh);
      mesh_modify (set_fade (Some mesh) (Log_fade_complete b) (Fade_target b));;
      Reset_last_position
  | None => mret tt                          (* reported *)
  end.
End Transform.
End Mesh.
