(* ===== verification/BedMeshThy.v ===== *)
(** * Theorems on moves over the mesh

    The splitter hands the toolhead exactly the pieces of a declarative reference: the
    points of the move, every check distance, where the height of the mesh has changed
    by the split distance since the last one, each raised by the mesh at that point,
    and then the end of the move ([mesh_move_pieces]).  The position that the mesh keeps
    and that of the G-code state agree along any history ([mesh_agrees_with_gcode]). *)

From S2P Require Import Prelude GoFloat GoFloatRound GoFloatInt GoStrings GoState GoParseFloat GcodeParse GcodeParseThy Gcode GcodeMove GcodeTrack ZMesh ZMeshThy BedMesh.

(** ** Loops over the store *)

Fixpoint mrounds {S} (n : nat) (body : M S bool) : M S bool :=
  match n with O => mret true | Datatypes.S n => b ← body; if (b : bool) then mrounds n body else mret false end.

Lemma mrounds_add {S} n k (body : M S bool) s :
  mrounds (n + k) body s = (b ← mrounds n body; if (b : bool) then mrounds k body else mret false) s.
Proof.
  revert s. induction n as [|n IH]; intros s; [done|]. cbn [Nat.add mrounds]. unfold mbind, M_bind in *.
  destruct (body s) as [[[]|w] s']; [apply IH|done..].
Qed.

Lemma mwhile_mrounds {S} n (body : M S bool) s : mwhile n body s = mrounds (Pos.to_nat n) body s.
Proof.
  revert s. induction n as [p IH|p IH|]; intros s; cbn [mwhile].
  - rewrite Pos2Nat.inj_xI. replace (Datatypes.S (2 * Pos.to_nat p)) with (1 + (Pos.to_nat p + Pos.to_nat p))%nat by lia.
    cbn [Nat.add mrounds]. unfold mbind, M_bind. destruct (body s) as [[[]|w] s1]; [|done..].
    rewrite mrounds_add. unfold mbind, M_bind. rewrite IH. destruct (mrounds _ body s1) as [[[]|w] s2]; [apply IH|done..].
  - rewrite Pos2Nat.inj_xO. replace (2 * Pos.to_nat p)%nat with (Pos.to_nat p + Pos.to_nat p)%nat by lia.
    rewrite mrounds_add. unfold mbind, M_bind. rewrite IH. destruct (mrounds _ body s) as [[[]|w] s2]; [apply IH|done..].
  - change (Pos.to_nat 1) with 1%nat. cbn [mrounds]. unfold mbind, M_bind. by destruct (body s) as [[[]|w] s1].
Qed.

(** ** The reference *)

(** The distances at which a move is looked at. *)
Inductive checkpoints (check total : f64) : f64 → list f64 → Prop :=
| cp_end d : flt (fadd d check) total = false → checkpoints check total d []
| cp_next d ds : flt (fadd d check) total = true → checkpoints check total (fadd d check) ds →
    checkpoints check total d (fadd d check :: ds).

Lemma checkpoints_exist check total d :
  canon check = true → nonneg check = true → ulp_le total check = true → canon d = true → nonneg d = true →
  ∃ ds, checkpoints check total d ds ∧ Z.of_nat (length ds) + place d < 2 ^ 64.
Proof.
  intros Hcc Hcn Hu. remember (Z.to_nat (2 ^ 64 - place d)) as n eqn:En. revert d En.
  induction n as [n IH] using lt_wf_ind. intros d -> Hd Hn. pose proof (place_bounds d Hd Hn) as Hp.
  destruct (flt (fadd d check) total) eqn:Hlt; [|exists []; split; [by constructor|simpl; lia]].
  pose proof (fadd_ge d check Hd Hn Hcn) as Hge.
  assert (Hud : ulp_le d check = true).
  { apply (ulp_le_mono d total); [done| |done]. apply flt_fle. by eapply fle_flt_trans. }
  pose proof (fadd_canon d check Hd Hcc) as Hd'. pose proof (fadd_nonneg d check Hn Hcn) as Hn'.
  pose proof (place_lt d (fadd d check) Hd Hd' Hn (flt_fin _ _ Hn' Hlt) (fadd_progress d check Hd Hud)) as Hpl.
  pose proof (place_bounds _ Hd' Hn') as Hp'.
  destruct (IH (Z.to_nat (2 ^ 64 - place (fadd d check))) ltac:(lia) (fadd d check) eq_refl Hd' Hn') as (ds & Hds & Hlen).
  exists (fadd d check :: ds). split; [by constructor|]. simpl. lia.
Qed.

Lemma fuel_enough n : Z.of_nat n < 2 ^ 65 → (n < Pos.to_nat split_fuel)%nat.
Proof. intros H. apply Nat2Z.inj_lt. rewrite positive_nat_Z. exact H. Qed.
#[local] Opaque split_fuel.

Section Pieces.
Context (conv : f64 → Z) (mesh : ZMesh) (factor fade delta check : f64) (x0 y0 z0 e0 x1 y1 z1 e1 : f64).
Hypothesis mesh_good : mesh_ok mesh.

Local Abbreviation prev := [x0; y0; z0; e0].
Local Abbreviation next := [x1; y1; z1; e1].

(** Whether an axis moves, how far the move is, and the point at a fraction of it. *)
Definition moving (a b : f64) : bool := negb (Isclose (fsub b a) f0 (f_lit 1 10000000000) f0).
Definition move_length : f64 :=
  let sq a b := fmul (fsub b a) (fsub b a) in fsqrt (fadd (fadd (fadd f0 (sq x0 x1)) (sq y0 y1)) (sq z0 z1)).
Definition coord (t a b : f64) : f64 := if moving a b then Lerp t a b else a.
Definition point (d : f64) : list f64 :=
  let t := fdiv d move_length in [coord t x0 x1; coord t y0 y1; coord t z0 z1; coord t e0 e1].

(** The height of the mesh, faded, and a point raised by it. *)
Definition mesh_offset (p : list f64) : f64 :=
  match z_offset_at conv mesh factor fade p with Ret z => z | Panic _ => f0 end.
Definition raised (p : list f64) (z : f64) : list f64 :=
  match p with [a; b; c; d] => [a; b; fadd c z; d] | _ => p end.

(** The pieces of a move that was last cut at offset [o]. *)
Fixpoint pieces (o : f64) (ds : list f64) : list (list f64) :=
  match ds with
  | [] => []
  | d :: ds =>
      let z := mesh_offset (point d) in
      if fle delta (fabs (fsub z o)) then raised (point d) z :: pieces z ds else pieces o ds
  end.
Definition final : list f64 := raised next (mesh_offset next).

(** Moves along Z alone are not cut. *)
Definition track (d : f64) (ds : list f64) : Prop :=
  if moving x0 x1 || moving y0 y1 then checkpoints check move_length d ds else ds = [].

(** ** The splitter follows it *)

(** The splitter [d] along the move, last cut at offset [o]. *)
Record splitting (s : MoveSplitter) (d o : f64) : Prop := {
  sp_delta : Split_delta_z s = delta;
  sp_check : Move_check_distance s = check;
  sp_fade : Fade_offset s = fade;
  sp_pre : Pre_pos s = prev;
  sp_next : Next_pos s = next;
  sp_factor : Z_factor s = factor;
  sp_offset : Z_offset s = o;
  sp_open : Traverse_complete s = false;
  sp_dist : Distance_checked s = d;
  sp_total : Total_move_length s = move_length;
  sp_axes : Axis_move s = [moving x0 x1; moving y0 y1; moving z0 z1; moving e0 e1];
  sp_cur : ∃ a b c g, Current_pos s = [a; b; c; g] ∧ (moving x0 x1 = false → a = x0) ∧ (moving y0 y1 = false → b = y0) ∧
    (moving z0 z1 = false → c = z0) ∧ (moving e0 e1 = false → g = e0)
}.

Lemma mesh_offset_ok a b c g : z_offset_at conv mesh factor fade [a; b; c; g] = Ret (mesh_offset [a; b; c; g]).
Proof using mesh_good.
  unfold mesh_offset, z_offset_at. cbn [at_ lookup list_lookup mbind go_bind]. by destruct (Calc_z_ok conv mesh a b mesh_good) as [v ->].
Qed.

Lemma fraction_ok d : canon d = true → nonneg d = true → flt d move_length = true →
  flt f1 (fdiv d move_length) || flt (fdiv d move_length) f0 = false.
Proof.
  intros Hd Hn Hlt. assert (Hp : flt f0 move_length = true) by (eapply fle_flt_trans; [by apply nonneg_ge_0|done]).
  apply orb_false_iff. split.
  - destruct (fpos move_length) eqn:Ef; [apply fdiv_le_1; try done; [apply fsqrt_canon|by apply flt_fle]|].
    destruct move_length as [[]|[]| |[]]; try done. by destruct d as [|[]| |[]].
  - pose proof (fdiv_notneg d move_length (notneg_nonneg _ Hn) Hp) as H. unfold notneg in H. destruct (fdiv d move_length) as [[]|[]| |[]]; done.
Qed.

Lemma Set_next_move_eq s d o d' : splitting s d o → canon d' = true → nonneg d' = true → flt d' move_length = true →
  Set_next_move d' (with_checked d' s) = Ret (with_current (point d') (with_checked d' s)).
Proof.
  intros [] Hc Hn Hlt. unfold Set_next_move. cbn [Total_move_length with_checked Axis_move Pre_pos Next_pos Current_pos].
  rewrite sp_total0, fraction_ok, sp_axes0, sp_pre0, sp_next0 by done. destruct sp_cur0 as (a & b & c & g & -> & Ha & Hb & Hcc & Hg).
  cbn [range flag lookup list_lookup mbind go_bind]. unfold point, coord.
  destruct (moving x0 x1), (moving y0 y1), (moving z0 z1), (moving e0 e1); cbn -[Lerp fdiv move_length];
    rewrite ?Ha, ?Hb, ?Hcc, ?Hg by done; reflexivity.
Qed.

Lemma splitting_moved s d o d' : splitting s d o → splitting (with_current (point d') (with_checked d' s)) d' o.
Proof.
  intros []. constructor; try done. unfold point, coord. eexists _, _, _, _. split; [done|]. by repeat split; intros ->.
Qed.
Lemma splitting_cut s d o o' : splitting s d o → splitting (with_z_offset o' s) d o'.
Proof. intros []. by constructor. Qed.

Lemma split_round_on s d o : splitting s d o → let d' := fadd d check in
  canon d' = true → nonneg d' = true → flt d' move_length = true →
  ∃ s', splitting s' d' o ∧
  split_round conv mesh s =
    if fle delta (fabs (fsub (mesh_offset (point d')) o))
    then inr (Ret (Some (raised (point d') (mesh_offset (point d'))), with_z_offset (mesh_offset (point d')) s'))
    else inl s'.
Proof using mesh_good.
  intros Hs d' Hc Hn Hlt. exists (with_current (point d') (with_checked d' s)). split; [by eapply splitting_moved|].
  unfold split_round. rewrite (sp_dist _ _ _ Hs), (sp_check _ _ _ Hs), (sp_total _ _ _ Hs). fold d'. rewrite Hlt.
  rewrite (Set_next_move_eq s d o d' Hs Hc Hn Hlt). cbn [mbind go_bind]. unfold Calc_z_offset.
  cbn [Current_pos with_current Z_factor with_checked Fade_offset Split_delta_z Z_offset].
  rewrite (sp_factor _ _ _ Hs), (sp_fade _ _ _ Hs). rewrite (mesh_offset_ok _ _ _ _ : z_offset_at conv mesh factor fade (point d') = Ret (mesh_offset (point d'))). cbn [mbind go_bind].
  cbn [Split_delta_z Z_offset with_current with_checked]. rewrite (sp_delta _ _ _ Hs), (sp_offset _ _ _ Hs). done.
Qed.

Lemma split_round_end s d o : splitting s d o → flt (fadd d check) move_length = false → split_round conv mesh s = inr (Ret (None, s)).
Proof. intros Hs Hlt. unfold split_round. by rewrite (sp_dist _ _ _ Hs), (sp_check _ _ _ Hs), (sp_total _ _ _ Hs), Hlt. Qed.

(** What [while] in [Split] leaves with. *)
Lemma split_rounds ds : ∀ s d o k, splitting s d o → checkpoints check move_length d ds →
  canon check = true → nonneg check = true → canon d = true → nonneg d = true → (length ds < k)%nat →
  (pieces o ds = [] ∧ ∃ s' d', splitting s' d' o ∧ rounds k (split_round conv mesh) s = inr (Ret (None, s'))) ∨
  (∃ p rest s' d' o' ds', pieces o ds = p :: rest ∧ pieces o' ds' = rest ∧ (length ds' < length ds)%nat ∧ checkpoints check move_length d' ds' ∧
     splitting s' d' o' ∧ canon d' = true ∧ nonneg d' = true ∧ rounds k (split_round conv mesh) s = inr (Ret (Some p, s')) ∧ length p = 4%nat).
Proof using mesh_good.
  induction ds as [|d' ds IH]; intros s d o k Hs Hcp Hcc Hcn Hc Hn Hk; (destruct k as [|k]; [simpl in Hk; lia|]); cbn [rounds].
  - left. split; [done|]. exists s, d. split; [done|]. inversion Hcp; subst. by rewrite (split_round_end s d o).
  - inversion Hcp as [|? ? Hlt Hcp']; subst. pose proof (fadd_canon d check Hc Hcc) as Hc'. pose proof (fadd_nonneg d check Hn Hcn) as Hn'.
    destruct (split_round_on s d o Hs Hc' Hn' Hlt) as (s' & Hs' & ->). cbn [pieces].
    destruct (fle delta _) eqn:Hcut.
    + right. eexists _, _, _, (fadd d check), _, ds. split; [done|]. split; [done|]. split; [simpl; lia|]. split; [done|].
      split; [by eapply splitting_cut|]. done.
    + simpl in Hk. destruct (IH s' (fadd d check) o k Hs' Hcp' Hcc Hcn Hc' Hn') as [?|(p & rest & s1 & d1 & o1 & ds1 & H1 & H2 & H3 & H4)]; [lia|by left|].
      right. exists p, rest, s1, d1, o1, ds1. split; [done|]. split; [done|]. split; [simpl; lia|done].
Qed.

Lemma split_end s d o : splitting s d o → ∃ s', Traverse_complete s' = true ∧
  (zo ← Calc_z_offset conv mesh (Next_pos s) s; c2 ← at_ (Next_pos s) 2; p ← put (Next_pos s) 2 (fadd c2 zo);
   Ret (p, completed (with_z_offset zo (with_current p s)))) = Ret (final, s').
Proof using mesh_good.
  intros Hs. unfold Calc_z_offset. rewrite (sp_factor _ _ _ Hs), (sp_fade _ _ _ Hs), (sp_next _ _ _ Hs), mesh_offset_ok.
  eexists. split; [|done]. done.
Qed.

Lemma Split_step s d o ds : splitting s d o → track d ds →
  canon check = true → nonneg check = true → canon d = true → nonneg d = true → Z.of_nat (length ds) < 2 ^ 65 →
  (pieces o ds = [] ∧ ∃ s', Traverse_complete s' = true ∧ Split conv mesh s = Ret (final, s')) ∨
  (∃ p rest s' d' o' ds', pieces o ds = p :: rest ∧ pieces o' ds' = rest ∧ (length ds' < length ds)%nat ∧ track d' ds' ∧
     splitting s' d' o' ∧ canon d' = true ∧ nonneg d' = true ∧ Split conv mesh s = Ret (p, s') ∧ length p = 4%nat).
Proof using mesh_good.
  intros Hs Ht Hcc Hcn Hc Hn Hk%fuel_enough. unfold Split, track in *. revert Hk. generalize split_fuel as fuel. intros fuel Hk. rewrite (sp_open _ _ _ Hs), (sp_axes _ _ _ Hs).
  cbn [flag lookup list_lookup mbind go_bind].
  destruct (moving x0 x1 || moving y0 y1) eqn:Hm.
  - replace (if moving x0 x1 then Ret true else Ret (moving y0 y1)) with (Ret true) by (destruct (moving x0 x1); [done|rewrite orb_false_l in Hm; by rewrite Hm]).
    cbn [mbind go_bind]. rewrite while_rounds.
    destruct (split_rounds ds s d o (Pos.to_nat fuel) Hs Ht Hcc Hcn Hc Hn) as [(Hp & s' & d' & Hs' & ->)|
      (p & rest & s' & d' & o' & ds' & H1 & H2 & H3 & H4 & H5 & H6 & H7 & -> & H8)].
    + done.
    + left. split; [done|]. cbn [mbind go_bind]. by apply (split_end s' d' o).
    + right. exists p, rest, s', d', o', ds'. done.
  - apply orb_false_iff in Hm as [-> ->]. cbn [mbind go_bind]. subst ds. left. split; [done|]. by apply (split_end s d o).
Qed.
End Pieces.

(** ** The move *)

Section Move.
Context {E : Type} (conv : f64 → Z) (toolhead : transform E) (mesh : ZMesh) (x0 y0 z0 e0 x1 y1 z1 e1 v : f64).
Hypothesis mesh_good : mesh_ok mesh.

Lemma on_toolhead_eq {A} (m : M E A) (b : BedMesh) (e : E) : on_toolhead m (b, e) = ((m e).1, (b, (m e).2)).
Proof. unfold on_toolhead. cbn [fst snd]. by destruct (m e). Qed.

Lemma move_piece_eq b e p s' : Split conv mesh (Splitter b) = Ret (p, s') → p ≠ [] →
  move_piece conv toolhead mesh v (b, e) =
    let r := t_Move toolhead p v e in
    (match r.1 with Ret _ => Ret (negb (Traverse_complete s')) | Panic w => Panic w end, (set_splitter s' b, r.2)).
Proof.
  intros Hsp Hp. unfold move_piece. rewrite (M_bind_eq mesh_self _ (b, e) b (b, e)) by done. rewrite Hsp.
  rewrite (M_bind_eq (lift (Ret (p, s'))) _ (b, e) (p, s') (b, e)) by done.
  rewrite (M_bind_eq (mesh_upd _) _ (b, e) tt (set_splitter s' b, e)) by done. rewrite bool_decide_eq_false_2 by done.
  unfold mbind, M_bind. rewrite on_toolhead_eq. by destruct (t_Move toolhead p v e) as [[[]|w] e'].
Qed.

(** The toolhead's moves of the pieces, in the store of the mesh. *)
Lemma move_loop factor fade delta check ds : ∀ b e d o k,
  splitting factor fade delta check x0 y0 z0 e0 x1 y1 z1 e1 (Splitter b) d o → track check x0 y0 z0 x1 y1 z1 d ds →
  canon check = true → nonneg check = true → canon d = true → nonneg d = true → Z.of_nat (length ds) < 2 ^ 65 → (length ds < k)%nat →
  ∃ s', mrounds k (move_piece conv toolhead mesh v) (b, e) =
    let r := mfor (pieces conv mesh factor fade delta x0 y0 z0 e0 x1 y1 z1 e1 o ds ++ [final conv mesh factor fade x1 y1 z1 e1])
      (λ p, t_Move toolhead p v) e in
    (match r.1 with Ret _ => Ret false | Panic w => Panic w end, (set_splitter s' b, r.2)).
Proof using mesh_good.
  induction ds as [ds IH] using (induction_ltof1 _ (@length f64)). unfold ltof in IH.
  intros b e d o k Hs Ht Hcc Hcn Hc Hn Hl Hk. destruct k as [|k]; [lia|]. cbn [mrounds].
  destruct (Split_step conv mesh factor fade delta check x0 y0 z0 e0 x1 y1 z1 e1 mesh_good _ d o ds Hs Ht Hcc Hcn Hc Hn Hl)
    as [(-> & s' & Hs' & Hsp)|(p & rest & s' & d' & o' & ds' & -> & <- & H3 & H4 & H5 & H6 & H7 & Hsp & H8)].
  - exists s'. unfold mbind at 1, M_bind at 1. rewrite (move_piece_eq b e _ s' Hsp) by done. cbn [app mfor]. unfold mbind, M_bind.
    by destruct (t_Move toolhead _ v e) as [[[]|w] e']; cbn [fst snd]; rewrite ?Hs'.
  - assert (Hp : p ≠ []) by (by intros ->). cbn [app mfor]. unfold mbind at 1, M_bind at 1. rewrite (move_piece_eq b e p s' Hsp Hp).
    cbn zeta. rewrite (sp_open _ _ _ _ _ _ _ _ _ _ _ _ _ _ _ H5).
    destruct (t_Move toolhead p v e) as [[[]|w] e'] eqn:Et; cbn [fst snd negb].
    + destruct (IH ds' H3 (set_splitter s' b) e' d' o' k H5 H4 Hcc Hcn H6 H7) as [s'' Hs'']; [lia..|]. exists s''. rewrite Hs''.
      unfold mbind, M_bind. rewrite Et. done.
    + exists s'. unfold mbind, M_bind. by rewrite Et.
Qed.

Lemma Build_move_eq factor sp : ∃ s', Build_move conv mesh [x0; y0; z0; e0] [x1; y1; z1; e1] factor sp = Ret s' ∧
  splitting factor (Fade_offset sp) (Split_delta_z sp) (Move_check_distance sp) x0 y0 z0 e0 x1 y1 z1 e1 s' f0
    (mesh_offset conv mesh factor (Fade_offset sp) [x0; y0; z0; e0]).
Proof using mesh_good.
  unfold Build_move. rewrite mesh_offset_ok by done. cbn [mbind go_bind range at_ lookup list_lookup app]. eexists. split; [done|].
  constructor; try done. exists x0, y0, z0, e0. done.
Qed.

(** The pieces of the move of the toolhead from [prev] to [next]. *)
Definition mesh_pieces (b : BedMesh) (ds : list f64) : list (list f64) :=
  let factor := Get_z_factor b z1 in let fade := Fade_offset (Splitter b) in
  pieces conv mesh factor fade (Split_delta_z (Splitter b)) x0 y0 z0 e0 x1 y1 z1 e1
    (mesh_offset conv mesh factor fade [x0; y0; z0; e0]) ds ++ [final conv mesh factor fade x1 y1 z1 e1].

(** C5. A move through a mesh that is not faded out at its target ends, and asks the
    toolhead for exactly the pieces of a reference splitter: it is looked at every check
    distance, cut where the height of the mesh has changed by the split delta since the
    last cut, each piece raised by the height of the mesh at its end, the last one
    ending at the target; a piece that the toolhead rejects ends the move there, and
    only a whole move changes the last position. *)
Theorem mesh_move_pieces (b : BedMesh) (e : E) (check := Move_check_distance (Splitter b)) :
  Z_mesh b = Some mesh → Last_position b = [x0; y0; z0; e0] → feq (Get_z_factor b z1) f0 = false →
  canon check = true → nonneg check = true → ulp_le (move_length x0 y0 z0 x1 y1 z1) check = true →
  ∃ ds s', track check x0 y0 z0 x1 y1 z1 f0 ds ∧
  mesh_Move conv toolhead [x1; y1; z1; e1] v (b, e) =
    let r := mfor (mesh_pieces b ds) (λ p, t_Move toolhead p v) e in
    let b' := set_splitter s' (set_target [x1; y1; z1; e1] b) in
    (r.1, (match r.1 with Ret _ => set_last_position [x1; y1; z1; e1] b' | Panic _ => b' end, r.2)).
Proof using mesh_good.
  intros Hm Hl Hf Hcc Hcn Hu.
  assert (Hds : ∃ ds, track check x0 y0 z0 x1 y1 z1 f0 ds ∧ Z.of_nat (length ds) < 2 ^ 65).
  { unfold track. destruct (_ || _); [|by exists []].
    destruct (checkpoints_exist check _ f0 Hcc Hcn Hu) as (ds & Hds & Hn); [done..|]. exists ds. split; [done|]. cbn in Hn. lia. }
  destruct Hds as (ds & Ht & Hn). destruct (Build_move_eq (Get_z_factor b z1) (Splitter b)) as (sp & Hb & Hsp).
  destruct (move_loop _ _ _ _ ds (set_splitter sp (set_target [x1; y1; z1; e1] b)) e _ _ (Pos.to_nat split_fuel) Hsp Ht Hcc Hcn eq_refl eq_refl Hn
    (fuel_enough _ Hn)) as [s' Hs']. exists ds, s'. split; [done|]. fold (mesh_pieces b ds) in Hs'.
  unfold mesh_Move. rewrite (M_bind_eq (mesh_upd _) _ (b, e) tt (set_target [x1; y1; z1; e1] b, e)) by done.
  rewrite (M_bind_eq (lift _) _ _ z1 (set_target [x1; y1; z1; e1] b, e)) by done.
  rewrite (M_bind_eq mesh_self _ _ (set_target [x1; y1; z1; e1] b) (set_target [x1; y1; z1; e1] b, e)) by done.
  cbn [Z_mesh set_target]. rewrite Hm. unfold mbind at 1, M_bind at 1.
  change (Get_z_factor (set_target _ b) z1) with (Get_z_factor b z1). rewrite Hf. cbn [Last_position Splitter set_target]. rewrite Hl, Hb.
  rewrite (M_bind_eq (lift (Ret sp)) _ _ sp (set_target [x1; y1; z1; e1] b, e)) by done.
  rewrite (M_bind_eq (mesh_upd _) _ _ tt (set_splitter sp (set_target [x1; y1; z1; e1] b), e)) by done.
  unfold mbind at 1, M_bind at 1. rewrite mwhile_mrounds, Hs'. cbn zeta.
  by destruct (mfor _ _ e) as [[[]|w] e'].
Qed.
End Move.

(** ** The mesh and the G-code state *)

Section Agree.
Context {E : Type} (conv : f64 → Z) (toolhead : transform E).
Local Abbreviation Store := (GCodeMove (BedMesh * E) * (BedMesh * E))%type.
Local Abbreviation t := (mesh_transform conv toolhead).
Local Abbreviation R := (λ (s : BedMesh * E) (p : list f64), Last_position s.1 = p).
(** The toolhead as [_handle_ready] finds it; the mesh is set as transform before. *)
Context (th : transform (BedMesh * E)).

#[local] Instance mesh_tracked : Tracked t R.
Proof.
  constructor.
  - intros p v s s' H. cbn [t_Move mesh_transform] in H. unfold mesh_Move in H.
    apply M_bind_inv in H as (u1 & s1 & _ & H). apply M_bind_inv in H as (z & s2 & _ & H). apply M_bind_inv in H as (b & s3 & _ & H).
    apply M_bind_inv in H as (u2 & s4 & _ & H). by injection H as <-.
  - intros s p s' H. cbn [t_Get_position mesh_transform] in H. unfold mesh_Get_position in H.
    apply M_bind_inv in H as (q & s1 & _ & H). apply M_bind_inv in H as (b & s2 & _ & H). apply M_bind_inv in H as (p' & s3 & _ & H).
    apply M_bind_inv in H as (u & s4 & H & H'). injection H' as <- <-. by injection H as _ <-.
Qed.

(** Commands and events of the G-code state, changes of the mesh, and what the
    toolhead does on its own or for others. *)
Inductive mesh_op :=
| MCommand (c : gm_command) (gcmd : CommandParams)
| MReady
| MShutdown
| MReset
| MActivate
| MHomed (axes : list nat)
| MSetMesh (mesh : option ZMesh)
| MClear
| MOffset (gcmd : CommandParams)
| MToolhead (m : M E unit).

Definition mesh_exec (op : mesh_op) : M Store unit :=
  match op with
  | MCommand c gcmd => run_command c gcmd
  | MReady => _handle_ready (Some th)
  | MShutdown => _handle_shutdown
  | MReset => Reset_last_position
  | MActivate => _handle_activate_extruder
  | MHomed axes => _handle_home_rails_end axes
  | MSetMesh mesh => Set_mesh mesh
  | MClear => Cmd_BED_MESH_CLEAR
  | MOffset gcmd => Cmd_BED_MESH_OFFSET gcmd
  | MToolhead m => env (on_toolhead m)
  end.

(** From the configuration on, every step having gone through. *)
Inductive mesh_reachable : Store → Prop :=
| mesh_start fs fe ft delta check e :
    mesh_reachable (set_wiring (Some t) t LoadConfigGCodeMove, (NewBedMesh fs fe ft delta check, e))
| mesh_step op s s' : mesh_reachable s → mesh_exec op s = (Ret tt, s') → mesh_reachable s'.

Local Abbreviation tracked := (tracks th t R).

Lemma set_mesh_tracks mesh : keeps tracked (Set_mesh mesh).
Proof.
  apply tracks_wired. unfold Set_mesh. apply wired_then; [apply wired_env|intros b]. destruct (ResolveFadeTarget _ _ _ _) as [err|[ft log]].
  - apply wired_then; [apply wired_env|by intros _ s].
  - apply wired_then; [apply wired_env|intros _; apply Reset_tracks, _].
Qed.

Lemma mesh_op_tracks op : keeps tracked (mesh_exec op).
Proof.
  destruct op; cbn [mesh_exec].
  - apply command_tracks, _.
  - apply ready_tracks, _.
  - apply shutdown_tracks.
  - apply reset_keeps_tracks, _.
  - apply tracks_wired, activate_tracks, _.
  - apply homed_tracks, _.
  - apply set_mesh_tracks.
  - apply set_mesh_tracks.
  - unfold Cmd_BED_MESH_OFFSET. apply (hoare_bind tracked _ (λ _, tracked)); [|intros b].
    { apply keeps_tracks_env. intros p s Hs. exact Hs. }
    destruct (Z_mesh b) as [mesh|]; [|apply keeps_ret]. apply tracks_wired. apply wired_then; [apply keeps_lift|intros x].
    apply wired_then; [apply keeps_lift|intros y]. apply wired_then; [apply keeps_lift|intros m].
    apply wired_then; [apply wired_env|intros _; apply Reset_tracks, _].
  - apply keeps_tracks_env. intros p s Hs. unfold on_toolhead. by destruct (m s.2) as [[[]|w] e'].
Qed.

(** Along any history of G-code commands and events, mesh changes, mesh commands and
    moves of the toolhead by others, each having gone through, the last position that
    the bed mesh starts its next move from is that of the G-code state of a ready
    printer. *)
Theorem mesh_agrees_with_gcode (s : Store) :
  mesh_reachable s → gm_ready s.1 = true → Last_position s.2.1 = lastPosition (gm s.1).
Proof.
  intros H. assert (Ht : tracked s); [|by apply Ht]. induction H as [fs fe ft delta check e|op s s' _ IH E1]; [by repeat split|].
  pose proof (mesh_op_tracks op s IH) as H'. by rewrite E1 in H'.
Qed.
End Agree.

(** ** The offset command *)

Lemma upper_idempotent s : ToUpper (ToUpper s) = ToUpper s.
Proof.
  induction s as [|c s IH]; [done|]. change (ToUpper (String c s)) with (String (upper_char c) (ToUpper s)).
  change (ToUpper (String ?a ?b)) with (String (upper_char a) (ToUpper b)). rewrite IH. f_equal. by destruct c as [[] [] [] [] [] [] [] []].
Qed.

(** Extended parameters have names in capitals. *)
Lemma ext_keys_upper input m k v : ParseExtendedParams input = inr m → m !! k = Some v → ToUpper k = k.
Proof.
  unfold ParseExtendedParams. set (s0 := mkExt _ _ _ _).
  pose (I := λ s, ToUpper (currentKey s) = currentKey s ∧ map_Forall (λ k _, ToUpper k = k) (results s)).
  destruct (ext_leaves s0 (Pos.of_succ_nat (String.length (GcodeParse.params s0)))) as [r Ew]; [unfold slen; lia|]. rewrite Ew. intros -> Hk.
  pose (Q := λ r : string + gmap string string, match r with inr m => map_Forall (λ k _, ToUpper k = k) m | inl _ => True end).
  enough (HQ : Q (inr m)) by exact (HQ k v Hk).
  eapply (while_inv I Q _ ext_round s0 (inr m)); [|split; [done|apply map_Forall_empty]|exact Ew]. subst I Q. cbn beta.
  intros s [Hc Hr]. unfold ext_round. destruct (mode s).
  - case_bool_decide; [exact Hr|]. split; [apply upper_idempotent|exact Hr].
  - assert (Hi : ∀ x, map_Forall (λ k _, ToUpper k = k) (<[currentKey s := x]> (results s))) by (intros x; by apply map_Forall_insert_2).
    destruct (GcodeParse.params s) as [|c rest]; [exact Hr|]. destruct (IsQuote c).
    + case_bool_decide; [done|]. destruct (drop_string _ rest); [apply Hi|split; [exact Hc|apply Hi]].
    + case_bool_decide; [apply Hi|split; [exact Hc|apply Hi]].
Qed.

(** BED_MESH_OFFSET reads [x] and [y], which no parameter is called: the mesh stays. *)
Lemma mesh_offset_ignored mesh input m line name : ParseExtendedParams input = inr m →
  (x ← Get_float (mkParams m line name) "x" Nil None None None None;
   y ← Get_float (mkParams m line name) "y" Nil None None None None; Set_mesh_offsets [x; y] mesh) = Ret (with_offsets (Mesh_offsets mesh) mesh).
Proof.
  intros Hm. assert (Hn : ∀ n : string, ToUpper n ≠ n → m !! n = None).
  { intros n Hn. destruct (m !! n) as [v|] eqn:E1; [|done]. by apply (ext_keys_upper input m) in E1. }
  unfold Get_float, param. cbn [Params]. rewrite !Hn by done. done.
Qed.

(** ** A machine that records its moves *)

Definition demo_recorder : transform (list (list f64)) :=
  mkTransform (λ p _, modify (λ l, l ++ [p])) (gets (λ l, default zeros (last l))).
Definition demo_mesh : ZMesh :=
  match Build_mesh demo_probed (NewZMesh (demo_params "lagrange" 2)) with Ret z => z | Panic _ => NewZMesh (demo_params "lagrange" 2) end.
Definition demo_bed : BedMesh := set_fade (Some demo_mesh) false f0 (NewBedMesh f1 f0 f0 (f_lit 1 40) (f_of_Z 5)).

Lemma demo_mesh_ok : mesh_ok demo_mesh.
Proof.
  exists (default [] (Mesh_matrix demo_mesh)). split; [by vm_compute|]. split; [|by vm_compute].
  split; [by vm_compute|]. by apply (bool_decide_unpack _); vm_compute.
Qed.

Lemma mesh_move_pieces_witness :
  (∃ ds s', track (f_of_Z 5) f0 f0 f0 (f_of_Z 100) f0 f1 f0 ds ∧
    mesh_Move f_trunc demo_recorder [f_of_Z 100; f0; f1; f1] f1 (demo_bed, []) =
      let r := mfor (mesh_pieces f_trunc demo_mesh f0 f0 f0 f0 (f_of_Z 100) f0 f1 f1 demo_bed ds) (λ p, t_Move demo_recorder p f1) [] in
      let b' := set_splitter s' (set_target [f_of_Z 100; f0; f1; f1] demo_bed) in
      (r.1, (match r.1 with Ret _ => set_last_position [f_of_Z 100; f0; f1; f1] b' | Panic _ => b' end, r.2))) ∧
  length (mesh_Move f_trunc demo_recorder [f_of_Z 100; f0; f1; f1] f1 (demo_bed, [])).2.2 = 18%nat.
Proof.
  split; [|by vm_compute].
  exact (mesh_move_pieces f_trunc demo_recorder demo_mesh f0 f0 f0 f0 (f_of_Z 100) f0 f1 f1 f1 demo_mesh_ok demo_bed []
    ltac:(reflexivity) ltac:(reflexivity) ltac:(vm_compute; reflexivity) ltac:(vm_compute; reflexivity)
    ltac:(vm_compute; reflexivity) ltac:(vm_compute; reflexivity)).
Defined.

Definition demo_lifted : transform (BedMesh * list (list f64)) :=
  mkTransform (λ p v, on_toolhead (t_Move demo_recorder p v)) (on_toolhead (t_Get_position demo_recorder)).
Local Abbreviation demo_exec := (mesh_exec demo_lifted).
Definition demo_mesh_start : GCodeMove (BedMesh * list (list f64)) * (BedMesh * list (list f64)) :=
  (set_wiring (Some (mesh_transform f_trunc demo_recorder)) (mesh_transform f_trunc demo_recorder) LoadConfigGCodeMove,
   (NewBedMesh f1 f0 f0 (f_lit 1 40) (f_of_Z 5), [])).
Definition demo_mesh_moved : GCodeMove (BedMesh * list (list f64)) * (BedMesh * list (list f64)) :=
  (demo_exec (MCommand G1 (mkParams (list_to_map [("X", "100"); ("Z", "1")]%string) "" "G1"))
     (demo_exec (MSetMesh (Some demo_mesh)) (demo_exec MReady demo_mesh_start).2).2).2.

Lemma mesh_agrees_with_gcode_witness :
  Last_position demo_mesh_moved.2.1 = lastPosition (gm demo_mesh_moved.1) ∧ length demo_mesh_moved.2.2 = 18%nat.
Proof.
  split; [|by vm_compute]. apply (mesh_agrees_with_gcode f_trunc demo_recorder demo_lifted); [|by vm_compute].
  assert (Hstep : ∀ op s, mesh_reachable f_trunc demo_recorder demo_lifted s → (demo_exec op s).1 = Ret tt →
    mesh_reachable f_trunc demo_recorder demo_lifted (demo_exec op s).2).
  { intros op s Hs H1. apply (mesh_step _ _ _ op s _ Hs). by rewrite <- H1, <- surjective_pairing. }
  apply Hstep; [|by vm_compute]. apply Hstep; [|by vm_compute]. apply Hstep; [|by vm_compute]. apply mesh_start.
Defined.
