(* ===== verification/Heater.v ===== *)
(** * Heaters

    [src/internal/pkg/heater/heaters_module.go] and [pid_calibrate.go]: a heater with its
    control (watermark, PID or the automatic tuning of a PID), fed by the readings of
    its sensor and driving a PWM pin, and the set of heaters of the printer.

    A control keeps a pointer to its heater and the heater one to its control; a
    reading updates both, so that [Temperature_update] maps a pair of them.  The calls
    of [SetPWM] are kept in order.  The lock is held across each operation, which makes
    the operations atomic. *)

From S2P Require Import Prelude GoFloat GoStrings GoState.
From Stdlib Require Import Ascii.

Definition MAX_HEAT_TIME : f64 := f_of_Z 5.
Definition AMBIENT_TEMP : f64 := f_of_Z 25.
Definition PID_PARAM_BASE : f64 := f_of_Z 255.
Definition PID_SETTLE_DELTA : f64 := f1.
Definition PID_SETTLE_SLOPE : f64 := f_lit 1 10.
Definition TunePIDDelta : f64 := f_of_Z 5.
Definition math_Pi : f64 := SpecFloat.S754_finite false 7074237752028440 (-51).

(** ** Controls *)

Record ControlBangBang := mkBangBang {
  bb_max_power : f64;
  Max_delta : f64;
  Heating : bool
}.

Record ControlPID := mkPID {
  pid_max_power : f64;
  Kp : f64; Ki : f64; Kd : f64;
  Min_deriv_time : f64;
  Temp_integ_max : f64;
  Prev_temp : f64;
  Prev_temp_time : f64;
  Prev_temp_deriv : f64;
  Prev_temp_integ : f64
}.

Record ControlAutoTune := mkAutoTune {
  heaterMaxPower : f64;
  calibrateTemp : f64;
  heating : bool;
  peak : f64;
  peakTime : f64;
  peaks : list (f64 * f64);
  lastPWM : f64;
  pwmSamples : list (f64 * f64);
  tempSamples : list (f64 * f64)
}.

Inductive control := Watermark (c : ControlBangBang) | PID (c : ControlPID) | AutoTune (c : ControlAutoTune).

(** ** The heater *)

Record Heater := mkHeater {
  Min_temp : f64;
  Max_temp : f64;
  Pwm_delay : f64;
  Min_extrude_temp : f64;
  Can_extrude : bool;
  Max_power : f64;
  Smooth_time : f64;
  Inv_smooth_time : f64;
  Last_temp : f64;
  Smoothed_temp : f64;
  Target_temp : f64;
  Last_temp_time : f64;
  Next_pwm_time : f64;
  Last_pwm_value : f64;
  Control : control;
  pwm : list (f64 * f64)                     (* SetPWM(time, value) on the pin *)
}.

Definition set_target_temp (t : f64) (h : Heater) : Heater :=
  mkHeater (Min_temp h) (Max_temp h) (Pwm_delay h) (Min_extrude_temp h) (Can_extrude h) (Max_power h) (Smooth_time h)
    (Inv_smooth_time h) (Last_temp h) (Smoothed_temp h) t (Last_temp_time h) (Next_pwm_time h) (Last_pwm_value h) (Control h) (pwm h).
Definition set_control (c : control) (h : Heater) : Heater :=
  mkHeater (Min_temp h) (Max_temp h) (Pwm_delay h) (Min_extrude_temp h) (Can_extrude h) (Max_power h) (Smooth_time h)
    (Inv_smooth_time h) (Last_temp h) (Smoothed_temp h) (Target_temp h) (Last_temp_time h) (Next_pwm_time h) (Last_pwm_value h) c (pwm h).
Definition set_pwm_state (next v : f64) (log : list (f64 * f64)) (h : Heater) : Heater :=
  mkHeater (Min_temp h) (Max_temp h) (Pwm_delay h) (Min_extrude_temp h) (Can_extrude h) (Max_power h) (Smooth_time h)
    (Inv_smooth_time h) (Last_temp h) (Smoothed_temp h) (Target_temp h) (Last_temp_time h) next v (Control h) log.
Definition set_reading (temp time : f64) (h : Heater) : Heater :=
  mkHeater (Min_temp h) (Max_temp h) (Pwm_delay h) (Min_extrude_temp h) (Can_extrude h) (Max_power h) (Smooth_time h)
    (Inv_smooth_time h) temp (Smoothed_temp h) (Target_temp h) time (Next_pwm_time h) (Last_pwm_value h) (Control h) (pwm h).
Definition set_smoothed (temp : f64) (can : bool) (h : Heater) : Heater :=
  mkHeater (Min_temp h) (Max_temp h) (Pwm_delay h) (Min_extrude_temp h) can (Max_power h) (Smooth_time h)
    (Inv_smooth_time h) (Last_temp h) temp (Target_temp h) (Last_temp_time h) (Next_pwm_time h) (Last_pwm_value h) (Control h) (pwm h).

Definition Set_pwm (read_time value : f64) (h : Heater) : Heater :=
  let value := if fle (Target_temp h) f0 then f0 else value in
  if (flt read_time (Next_pwm_time h) || feq (Last_pwm_value h) f0) &&
     flt (fabs (fsub value (Last_pwm_value h))) (f_lit 1 20) then h
  else
    let pwmTime := fadd read_time (Pwm_delay h) in
    set_pwm_state (fadd pwmTime (fmul (f_lit 3 4) MAX_HEAT_TIME)) value (pwm h ++ [(pwmTime, value)]) h.

Definition Set_temp (degrees : f64) (h : Heater) : go Heater :=
  if negb (feq degrees f0) && (flt degrees (Min_temp h) || flt (Max_temp h) degrees)
  then Panic "Requested temperature out of range"
  else Ret (set_target_temp degrees h).

Definition Alter_target (target_temp : f64) (h : Heater) : Heater :=
  set_target_temp (if feq target_temp f0 then target_temp else fmax (Min_temp h) (fmin (Max_temp h) target_temp)) h.

(** The control taken out is returned. *)
Definition Set_control (c : control) (h : Heater) : control * Heater := (Control h, set_target_temp f0 (set_control c h)).

(** [Get_temp], with the print time that the MCU estimates for the event time. *)
Definition Get_temp (estimated_print_time : f64) (h : Heater) : f64 * f64 :=
  if flt (Last_temp_time h) (fsub estimated_print_time (f_of_Z 5)) then (f0, Target_temp h) else (Smoothed_temp h, Target_temp h).

(** ** Watermark *)

Definition NewControlBangBang (max_power max_delta : f64) : ControlBangBang := mkBangBang max_power max_delta false.

Definition bangbang_update (read_time temp target_temp : f64) (c : ControlBangBang) (h : Heater) : ControlBangBang * Heater :=
  let heating' :=
    if Heating c && fle (fadd target_temp (Max_delta c)) temp then false
    else if negb (Heating c) && fle temp (fsub target_temp (Max_delta c)) then true
    else Heating c in
  (mkBangBang (bb_max_power c) (Max_delta c) heating',
   if heating' then Set_pwm read_time (bb_max_power c) h else Set_pwm read_time f0 h).

Definition bangbang_busy (smoothed_temp target_temp : f64) (c : ControlBangBang) : bool :=
  flt smoothed_temp (fsub target_temp (Max_delta c)).

(** ** PID *)

Definition NewControlPID (max_power smooth_time kp ki kd : f64) : ControlPID :=
  let Ki := fdiv ki PID_PARAM_BASE in
  mkPID max_power (fdiv kp PID_PARAM_BASE) Ki (fdiv kd PID_PARAM_BASE) smooth_time
    (if feq Ki f0 then f0 else fdiv max_power Ki) AMBIENT_TEMP f0 f0 f0.

Definition pid_update (read_time temp target_temp : f64) (c : ControlPID) (h : Heater) : ControlPID * Heater :=
  let timeDiff := fsub read_time (Prev_temp_time c) in
  let tempDiff := fsub temp (Prev_temp c) in
  let tempDeriv :=
    if fle (Min_deriv_time c) timeDiff then fdiv tempDiff timeDiff
    else fdiv (fadd (fmul (Prev_temp_deriv c) (fsub (Min_deriv_time c) timeDiff)) tempDiff) (Min_deriv_time c) in
  let tempErr := fsub target_temp temp in
  let tempInteg := fmax f0 (fmin (Temp_integ_max c) (fadd (Prev_temp_integ c) (fmul tempErr timeDiff))) in
  let co := fsub (fadd (fmul (Kp c) tempErr) (fmul (Ki c) tempInteg)) (fmul (Kd c) tempDeriv) in
  let boundedCo := fmax f0 (fmin (pid_max_power c) co) in
  (mkPID (pid_max_power c) (Kp c) (Ki c) (Kd c) (Min_deriv_time c) (Temp_integ_max c) temp read_time tempDeriv
     (if feq co boundedCo then tempInteg else Prev_temp_integ c),
   Set_pwm read_time boundedCo h).

Definition pid_busy (smoothed_temp target_temp : f64) (c : ControlPID) : bool :=
  flt PID_SETTLE_DELTA (fabs (fsub target_temp smoothed_temp)) || flt PID_SETTLE_SLOPE (fabs (Prev_temp_deriv c)).

(** ** Automatic tuning *)

Definition NewControlAutoTune (max_power target : f64) : ControlAutoTune := mkAutoTune max_power target false f0 f0 [] f0 [] [].

Definition with_heating (b : bool) (c : ControlAutoTune) : ControlAutoTune :=
  mkAutoTune (heaterMaxPower c) (calibrateTemp c) b (peak c) (peakTime c) (peaks c) (lastPWM c) (pwmSamples c) (tempSamples c).
Definition with_peak (p t : f64) (c : ControlAutoTune) : ControlAutoTune :=
  mkAutoTune (heaterMaxPower c) (calibrateTemp c) (heating c) p t (peaks c) (lastPWM c) (pwmSamples c) (tempSamples c).

(** The parameters at a peak; the index is one of at least two peaks before it. *)
Definition calc_pid (pos : Z) (c : ControlAutoTune) : go (f64 * f64 * f64) :=
  p ← (peaks c).[pos];
  p1 ← (peaks c).[pos - 1];
  p2 ← (peaks c).[pos - 2];
  let tempDiff := fsub (p : f64 * f64).1 (p1 : f64 * f64).1 in
  let timeDiff := fsub (p : f64 * f64).2 (p2 : f64 * f64).2 in
  let amplitude := fmul (f_lit 1 2) (fabs tempDiff) in
  let ku := fdiv (fmul (f_of_Z 4) (heaterMaxPower c)) (fmul math_Pi amplitude) in
  let ti := fmul (f_lit 1 2) timeDiff in
  let td := fmul (f_lit 1 8) timeDiff in
  let kp := fmul (fmul (f_lit 6 10) ku) PID_PARAM_BASE in
  Ret (kp, fdiv kp ti, fmul kp td).

(** [check_peaks]; what it computes from the fourth peak on is only logged. *)
Definition check_peaks (c : ControlAutoTune) : go ControlAutoTune :=
  let ps := peaks c ++ [(peak c, peakTime c)] in
  let c := mkAutoTune (heaterMaxPower c) (calibrateTemp c) (heating c) (f_of_Z (if heating c then 9999999 else -9999999)) (peakTime c)
             ps (lastPWM c) (pwmSamples c) (tempSamples c) in
  if len ps <? 4 then Ret c else _ ← calc_pid (len ps - 1) c; Ret c.

Definition tune_pwm (read_time value : f64) (c : ControlAutoTune) (h : Heater) : ControlAutoTune * Heater :=
  (if feq value (lastPWM c) then c
   else mkAutoTune (heaterMaxPower c) (calibrateTemp c) (heating c) (peak c) (peakTime c) (peaks c) value
          (pwmSamples c ++ [(fadd read_time (Pwm_delay h), value)]) (tempSamples c),
   Set_pwm read_time value h).

Definition autotune_update (read_time temp target_temp : f64) (c : ControlAutoTune) (h : Heater) : go (ControlAutoTune * Heater) :=
  let c := mkAutoTune (heaterMaxPower c) (calibrateTemp c) (heating c) (peak c) (peakTime c) (peaks c) (lastPWM c) (pwmSamples c)
             (tempSamples c ++ [(read_time, temp)]) in
  r ← (if heating c && fle target_temp temp then
         c ← check_peaks (with_heating false c);
         Ret (c, Alter_target (fsub (calibrateTemp c) TunePIDDelta) h)
       else if negb (heating c) && fle temp target_temp then
         c ← check_peaks (with_heating true c);
         Ret (c, Alter_target (calibrateTemp c) h)
       else Ret (c, h));
  let '(c, h) := (r : ControlAutoTune * Heater) in
  if heating c then
    let '(c, h) := tune_pwm read_time (heaterMaxPower c) c h in
    Ret (if flt temp (peak c) then with_peak temp read_time c else c, h)
  else
    let '(c, h) := tune_pwm read_time f0 c h in
    Ret (if flt (peak c) temp then with_peak temp read_time c else c, h).

Definition autotune_busy (c : ControlAutoTune) : bool := heating c || (len (peaks c) <? 12).

(** [sort.SliceStable] of the cycle times, by time and position. *)
Definition cycle_lt (a b : f64 * f64) : bool :=
  if flt a.1 b.1 then true else if flt b.1 a.1 then false else flt a.2 b.2.
Fixpoint insert_cycle (x : f64 * f64) (l : list (f64 * f64)) : list (f64 * f64) :=
  match l with [] => [x] | y :: l' => if cycle_lt y x then y :: insert_cycle x l' else x :: l end.

Definition Calc_final_pid (c : ControlAutoTune) : go (f64 * f64 * f64) :=
  cycleTimes ← range (λ l pos,
    p ← (peaks c).[pos]; p2 ← (peaks c).[pos - 2];
    Ret (l ++ [(fsub (p : f64 * f64).2 (p2 : f64 * f64).2, f_of_Z pos)])) [] (seqZ 4 (len (peaks c) - 4));
  mid ← (foldr insert_cycle [] cycleTimes).[len cycleTimes / 2];
  calc_pid (f_trunc (mid : f64 * f64).2) c.

(** ** Readings *)

Definition Temperature_update (read_time temp target_temp : f64) (c : control) (h : Heater) : go (control * Heater) :=
  match c with
  | Watermark c => let '(c, h) := bangbang_update read_time temp target_temp c h in Ret (Watermark c, h)
  | PID c => let '(c, h) := pid_update read_time temp target_temp c h in Ret (PID c, h)
  | AutoTune c => r ← autotune_update read_time temp target_temp c h; Ret (AutoTune (r : ControlAutoTune * Heater).1, r.2)
  end.

Definition Temperature_callback (read_time temp : f64) (h : Heater) : go Heater :=
  let timeDiff := fsub read_time (Last_temp_time h) in
  let h := set_reading temp read_time h in
  r ← Temperature_update read_time temp (Target_temp h) (Control h) h;
  let h := set_control (r : control * Heater).1 r.2 in
  let tempDiff := fsub temp (Smoothed_temp h) in
  let adjTime := fmin (fmul timeDiff (Inv_smooth_time h)) f1 in
  let smoothed := fadd (Smoothed_temp h) (fmul tempDiff adjTime) in
  Ret (set_smoothed smoothed (fle (Min_extrude_temp h) smoothed) h).

Definition Check_busy (h : Heater) : bool :=
  match Control h with
  | Watermark c => bangbang_busy (Smoothed_temp h) (Target_temp h) c
  | PID c => pid_busy (Smoothed_temp h) (Target_temp h) c
  | AutoTune c => autotune_busy c
  end.

(** ** Configuration *)

(** The section of a heater: its numeric options, and the two that are text. *)
Record heater_config := mkConfig {
  cfg_name : string;
  cfg_float : gmap string f64;
  cfg_control : option string;
  cfg_heater_pin : option string
}.

Definition validateFloatOption (value minval maxval above below : f64) : go unit :=
  if negb (feq minval f0) && flt value minval then Panic "must have minimum of"
  else if negb (feq maxval f0) && flt maxval value then Panic "must have maximum of"
  else if negb (feq above f0) && fle value above then Panic "must be above"
  else if negb (feq below f0) && fle below value then Panic "must be below"
  else Ret tt.

Definition configFloat (cfg : heater_config) (option : string) (defaultValue minval maxval above below : f64) (required : bool) : go f64 :=
  _ ← (if required && negb (bool_decide (is_Some (cfg_float cfg !! option))) then Panic "must be specified" else Ret tt);
  let value := default defaultValue (cfg_float cfg !! option) in
  _ ← validateFloatOption value minval maxval above below;
  Ret value.

Definition KELVIN_TO_CELSIUS : f64 := fneg (f_lit 27315 100).

Definition defaultMinExtrudeTemp (heaterName : string) (maxTemp : f64) : f64 :=
  if HasPrefix (ToLower heaterName) "extruder" then fmin (f_of_Z 170) maxTemp else f0.

(** [Split(config.Name(), " ")], the last part. *)
Definition heater_name (section : string) : string := default EmptyString (last (Split " " section)).

Definition choose_control (cfg : heater_config) (max_power smooth_time : f64) : go control :=
  let controlType := default "watermark" (cfg_control cfg) in
  if bool_decide (controlType = "watermark") then
    max_delta ← configFloat cfg "max_delta" (f_of_Z 2) f0 f0 f0 f0 false;
    Ret (Watermark (NewControlBangBang max_power max_delta))
  else if bool_decide (controlType = "pid") then
    kp ← configFloat cfg "pid_Kp" f0 f0 f0 f0 f0 true;
    ki ← configFloat cfg "pid_Ki" f0 f0 f0 f0 f0 true;
    kd ← configFloat cfg "pid_Kd" f0 f0 f0 f0 f0 true;
    Ret (PID (NewControlPID max_power smooth_time kp ki kd))
  else Panic "not a valid choice".

(** [NewHeater], for a sensor that reports [report_delta] after reading; [debug] is the
    start argument debugoutput.  With the heater, the cycle time that its pin is set up
    with; its maximum duration is always [MAX_HEAT_TIME]. *)
Definition NewHeater (cfg : heater_config) (report_delta : f64) (debug : bool) : go (Heater * f64) :=
  min_temp ← configFloat cfg "min_temp" f0 KELVIN_TO_CELSIUS f0 f0 f0 true;
  max_temp ← configFloat cfg "max_temp" f0 f0 f0 min_temp f0 true;
  let default_extrude := defaultMinExtrudeTemp (heater_name (cfg_name cfg)) max_temp in
  let lower := if fle default_extrude f0 then f0 else min_temp in
  min_extrude ← configFloat cfg "min_extrude_temp" default_extrude lower max_temp f0 f0 false;
  max_power ← configFloat cfg "max_power" f1 f0 f1 f0 f0 false;
  smooth_time ← configFloat cfg "smooth_time" f1 f0 f0 f0 f0 false;
  c ← choose_control cfg max_power smooth_time;
  _ ← (match cfg_heater_pin cfg with Some _ => Ret tt | None => Panic "must be specified" end);
  cycle_time ← configFloat cfg "pwm_cycle_time" (f_lit 1 10) f0 report_delta f0 f0 false;
  Ret (mkHeater min_temp max_temp report_delta min_extrude (fle min_extrude f0 || debug) max_power smooth_time (fdiv f1 smooth_time)
         f0 f0 f0 f0 f0 f0 c [], cycle_time).

(** ** The heaters of the printer *)

(** [Heaters] holds a nil heater under the empty name, which no operation can return; the
    map here holds the others. *)
Record PrinterHeaters := mkHeaters {
  Heaters : gmap string Heater;
  Available_heaters : list string
}.

Definition Setup_heater (cfg : heater_config) (report_delta : f64) (debug : bool) (hs : PrinterHeaters) : go PrinterHeaters :=
  let name := heater_name (cfg_name cfg) in
  match Heaters hs !! name with
  | Some _ => Panic "already registered"
  | None => h ← NewHeater cfg report_delta debug;
      Ret (mkHeaters (<[name := (h : Heater * f64).1]> (Heaters hs)) (Available_heaters hs ++ [cfg_name cfg]))
  end.

Definition Lookup_heater (name : string) (hs : PrinterHeaters) : go Heater :=
  match Heaters hs !! name with Some h => Ret h | None => Panic "Unknown heater" end.

(** The order in which the heaters are visited is not fixed; that of the map here is one. *)
Definition Turn_off_all_heaters (hs : PrinterHeaters) : go PrinterHeaters :=
  m ← range (λ m (p : string * Heater), h ← Set_temp f0 p.2; Ret (<[p.1 := h]> m)) (Heaters hs) (map_to_list (Heaters hs));
  Ret (mkHeaters m (Available_heaters hs)).

(** ** Waiting and calibrating *)

Definition readings (rs : list (f64 * f64)) (h : Heater) : go Heater :=
  range (λ h (r : f64 * f64), Temperature_callback r.1 r.2 h) h rs.

(** [Wait_for_temperature]: the readings that arrive in each pause of the loop, up to the
    shutdown of the printer. *)
Fixpoint Wait_for_temperature (pauses : list (list (f64 * f64))) (h : Heater) : go Heater :=
  if Check_busy h then
    match pauses with
    | [] => Ret h
    | rs :: pauses' => h ← readings rs h; Wait_for_temperature pauses' h
    end
  else Ret h.

Definition Set_temperature (temp : f64) (wait : bool) (pauses : list (list (f64 * f64))) (h : Heater) : go Heater :=
  h ← Set_temp temp h;
  if wait && flt f0 temp then Wait_for_temperature pauses h else Ret h.

(** [cmdPIDCalibrate] for a heater found: what it reports and the heater it leaves.  A
    panic puts the control back before it goes on. *)
Definition cmdPIDCalibrate (target : f64) (pauses : list (list (f64 * f64))) (h : Heater) : go (f64 * f64 * f64) * Heater :=
  if flt target (f_of_Z 10) then (Panic "TARGET must have minimum", h)
  else
    let '(old, h1) := Set_control (AutoTune (NewControlAutoTune (Max_power h) target)) h in
    match Set_temperature target true pauses h1 with
    | Panic e => (Panic e, (Set_control old h1).2)
    | Ret h2 =>
        (match Control h2 with
         | AutoTune c => if autotune_busy c then Panic "pid_calibrate interrupted" else Calc_final_pid c
         | _ => Panic "unreachable"
         end, (Set_control old h2).2)
    end.
