(* ===== verification/HeaterThy.v ===== *)
(** * Heaters: power, targets and calibration

    What a heater may be asked for and what it sends to its pin, whatever the sequence of
    readings and commands; that heaters turned off stop; and that a calibration gives the
    heater back with its control, switched off. *)

From S2P Require Import Prelude GoFloat GoFloatRound GoFloatInt GoStrings GoState Heater.

(** ** Power and target *)

Definition control_power (c : control) : f64 :=
  match c with Watermark c => bb_max_power c | PID c => pid_max_power c | AutoTune c => heaterMaxPower c end.

(** What happens to a heater. *)
Inductive event :=
  | Reading (read_time temp : f64)
  | SetTemp (degrees : f64)
  | AlterTarget (degrees : f64)
  | SetControl (c : control).

(** A target that is refused leaves the heater as it is. *)
Definition event_step (h : Heater) (e : event) : go Heater :=
  match e with
  | Reading t temp => Temperature_callback t temp h
  | SetTemp d => match Set_temp d h with Ret h' => Ret h' | Panic _ => Ret h end
  | AlterTarget d => Ret (Alter_target d h)
  | SetControl c => Ret (Set_control c h).2
  end.

(** The controls put in are made for the heater, as [NewControlAutoTune] is. *)
Definition event_ok (h : Heater) (e : event) : Prop :=
  match e with SetControl c => control_power c = Max_power h | _ => True end.

(** Within the limits; a NaN is on neither side of them. *)
Definition power_ok (max_power v : f64) : Prop := flt v f0 = false ∧ flt max_power v = false.
Definition target_ok (h : Heater) : Prop :=
  feq (Target_temp h) f0 = true ∨ flt (Target_temp h) (Min_temp h) = false ∧ flt (Max_temp h) (Target_temp h) = false.

Record heater_ok (h : Heater) : Prop := {
  ok_limits : fle (Min_temp h) (Max_temp h) = true;
  ok_power : fle f0 (Max_power h) = true;
  ok_control : control_power (Control h) = Max_power h;
  ok_target : target_ok h;
  ok_pwm : Forall (λ p, power_ok (Max_power h) p.2) (pwm h)
}.

Lemma clamp_between lo hi x : fle lo hi = true → flt (fmax lo (fmin hi x)) lo = false ∧ flt hi (fmax lo (fmin hi x)) = false.
Proof.
  intros H. destruct (fle_not_nan _ _ H) as [Nl Nh]. destruct (is_nan x) eqn:Nx.
  { destruct x; try done. by destruct lo as [?|[]| |???], hi as [?|[]| |???]. }
  destruct (fmin_cases hi x Nh Nx) as (Hc & Hm & _). assert (Nm : is_nan (fmin hi x) = false) by by destruct Hc as [-> | ->].
  destruct (fmax_cases lo (fmin hi x) Nl Nm) as (Hd & Hlo & _). split; [by apply fle_flt_false|]. apply fle_flt_false. by destruct Hd as [-> | ->].
Qed.

Lemma Set_pwm_keeps t v h (h' := Set_pwm t v h) :
  Min_temp h' = Min_temp h ∧ Max_temp h' = Max_temp h ∧ Max_power h' = Max_power h ∧ Target_temp h' = Target_temp h ∧
  Control h' = Control h ∧ (pwm h' = pwm h ∨ ∃ t', pwm h' = pwm h ++ [(t', if fle (Target_temp h) f0 then f0 else v)]).
Proof. subst h'. unfold Set_pwm. destruct (_ && _); cbn; eauto 10. Qed.

Lemma Set_pwm_ok t v h : power_ok (Max_power h) v → heater_ok h → heater_ok (Set_pwm t v h).
Proof.
  intros Hv [Hl Hp Hc Ht Hpwm]. destruct (Set_pwm_keeps t v h) as (E1 & E2 & E3 & E4 & E5 & E6).
  split; unfold target_ok; rewrite ?E1, ?E2, ?E3, ?E4, ?E5; try done. destruct E6 as [-> |[t' ->]]; [done|]. apply Forall_app. split; [done|].
  constructor; [|done]. cbn [snd]. case_match; [|done]. split; [done|by apply fle_flt_false].
Qed.

Lemma power_zero max_power : fle f0 max_power = true → power_ok max_power f0.
Proof. intros H. split; [done|by apply fle_flt_false]. Qed.

Lemma power_max max_power : fle f0 max_power = true → power_ok max_power max_power.
Proof. intros H. split; [by apply fle_flt_false|apply flt_irrefl]. Qed.

Lemma Alter_target_ok d h : heater_ok h → heater_ok (Alter_target d h).
Proof.
  intros [Hl Hp Hc Ht Hpwm]. split; try done. unfold target_ok, Alter_target. cbn.
  destruct (feq d f0) eqn:E; [by left|right]. by apply clamp_between.
Qed.

Lemma set_control_ok c h : control_power c = Max_power h → heater_ok h → heater_ok (set_control c h).
Proof. by intros H [Hl Hp Hc Ht Hpwm]. Qed.

(** The tuner keeps its power, and its indices are in range. *)
Lemma calc_pid_returns pos c : 2 ≤ pos < len (peaks c) → ∃ r, calc_pid pos c = Ret r.
Proof.
  intros H. unfold calc_pid.
  destruct (index_total (peaks c) pos) as (p & -> & _); [lia|]. destruct (index_total (peaks c) (pos - 1)) as (p1 & -> & _); [lia|].
  destruct (index_total (peaks c) (pos - 2)) as (p2 & -> & _); [lia|]. cbn. eauto.
Qed.

Lemma check_peaks_returns c : ∃ c', check_peaks c = Ret c' ∧ heating c' = heating c ∧
  heaterMaxPower c' = heaterMaxPower c ∧ calibrateTemp c' = calibrateTemp c ∧ len (peaks c') = len (peaks c) + 1.
Proof.
  unfold check_peaks. set (c1 := mkAutoTune _ _ _ _ _ _ _ _ _).
  assert (Hl : len (peaks c1) = len (peaks c) + 1) by by (unfold c1; cbn [peaks]; rewrite len_app, len_one).
  change (peaks c ++ [(peak c, peakTime c)]) with (peaks c1). destruct (len (peaks c1) <? 4) eqn:E; [by exists c1|].
  destruct (calc_pid_returns (len (peaks c1) - 1) c1) as [r ->]; [lia|]. by exists c1.
Qed.

(** A tuner stays one, with at most one more peak. *)
Definition same_kind (c c' : control) : Prop :=
  match c, c' with
  | AutoTune a, AutoTune b => len (peaks b) ≤ len (peaks a) + 1
  | AutoTune _, _ | _, AutoTune _ => False
  | _, _ => True
  end.

Lemma tune_step t v c h : ∃ c', tune_pwm t v c h = (c', Set_pwm t v h) ∧ heating c' = heating c ∧ heaterMaxPower c' = heaterMaxPower c ∧
  peaks c' = peaks c ∧ peak c' = peak c.
Proof. unfold tune_pwm. destruct (feq v (lastPWM c)); eauto 10. Qed.

(** The tuner sets the target first and then the power. *)
Lemma autotune_returns t x target c h : ∃ c' h1 v,
  autotune_update t x target c h = Ret (c', Set_pwm t v h1) ∧ (v = f0 ∨ v = heaterMaxPower c) ∧ (h1 = h ∨ ∃ d, h1 = Alter_target d h) ∧
  heaterMaxPower c' = heaterMaxPower c ∧ len (peaks c') ≤ len (peaks c) + 1.
Proof.
  unfold autotune_update. set (c0 := mkAutoTune _ _ _ _ _ _ _ _ _).
  assert (Hr : ∃ c1 h1, (if heating c0 && fle target x then
         c ← check_peaks (with_heating false c0); Ret (c, Alter_target (fsub (calibrateTemp c) TunePIDDelta) h)
       else if negb (heating c0) && fle x target then c ← check_peaks (with_heating true c0); Ret (c, Alter_target (calibrateTemp c) h)
       else Ret (c0, h)) = Ret (c1, h1) ∧ (h1 = h ∨ ∃ d, h1 = Alter_target d h) ∧
       heaterMaxPower c1 = heaterMaxPower c ∧ len (peaks c1) ≤ len (peaks c) + 1).
  { destruct (check_peaks_returns (with_heating false c0)) as (cf & -> & _ & Hf1 & _ & Hf2).
    destruct (check_peaks_returns (with_heating true c0)) as (ct & -> & _ & Ht1 & _ & Ht2). cbn [mbind go_bind].
    destruct (_ && _); [|destruct (_ && _)]; (eexists _, _; split; [reflexivity|]); cbn in *; split_and!; eauto with lia. }
  destruct Hr as (c1 & h1 & E & Hh & Hp & Hl). cbv zeta. rewrite E. cbn [mbind go_bind]. destruct (heating c1).
  - destruct (tune_step t (heaterMaxPower c1) c1 h1) as (c2 & -> & _ & H2 & H3 & _).
    eexists _, h1, _. split; [reflexivity|]. rewrite Hp. split; [by right|]. split; [done|]. destruct (flt x (peak c2)); cbn; rewrite H3, H2; done.
  - destruct (tune_step t f0 c1 h1) as (c2 & -> & _ & H2 & H3 & _).
    eexists _, h1, _. split; [reflexivity|]. split; [by left|]. split; [done|]. destruct (flt (peak c2) x); cbn; rewrite H3, H2; done.
Qed.

(** Every control ends in one call of [Set_pwm] within the limits. *)
Lemma update_returns t x target c h : fle f0 (control_power c) = true → ∃ c' h1 v,
  Temperature_update t x target c h = Ret (c', Set_pwm t v h1) ∧ power_ok (control_power c) v ∧ (h1 = h ∨ ∃ d, h1 = Alter_target d h) ∧
  control_power c' = control_power c ∧ same_kind c c'.
Proof.
  intros Hp. destruct c as [c|c|c]; cbn [Temperature_update control_power] in *.
  - unfold bangbang_update. destruct (if Heating c && _ then false else _) eqn:E; eexists _, h, _; (split; [reflexivity|]);
      split_and!; try done; auto using power_zero, power_max.
  - unfold pid_update. eexists _, h, _; (split; [reflexivity|]). split_and!; try done; auto. by apply clamp_between.
  - destruct (autotune_returns t x target c h) as (c' & h1 & v & -> & Hv & Hh & H1 & H2). cbn.
    eexists _, h1, v. split; [reflexivity|]. split_and!; auto. destruct Hv as [-> | ->]; auto using power_zero, power_max.
Qed.

(** ** Any sequence of events *)

Lemma reading_ok t x h : heater_ok h → ∃ h', Temperature_callback t x h = Ret h' ∧ heater_ok h' ∧ Max_power h' = Max_power h.
Proof.
  intros Hok. unfold Temperature_callback. set (h0 := set_reading x t h). assert (Hok0 : heater_ok h0) by by destruct Hok.
  destruct (update_returns t x (Target_temp h0) (Control h0) h0) as (c' & h1 & v & -> & Hv & Hh & Hc & _).
  { rewrite (ok_control _ Hok0). apply Hok0. }
  assert (H1 : heater_ok h1 ∧ Max_power h1 = Max_power h0) by (destruct Hh as [-> |[d ->]]; split; auto using Alter_target_ok).
  destruct H1 as [H1 Hm]. rewrite (ok_control _ Hok0) in Hv, Hc. rewrite <- Hm in Hv, Hc. cbn [mbind go_bind fst snd].
  destruct (Set_pwm_keeps t v h1) as (_ & _ & E & _).
  assert (H2 : heater_ok (set_control c' (Set_pwm t v h1))) by (apply set_control_ok; [congruence|by apply Set_pwm_ok]).
  eexists. split; [reflexivity|]. split; [by destruct H2|]. cbn. by rewrite E, Hm.
Qed.

Lemma event_ok_step e h : heater_ok h → event_ok h e → ∃ h', event_step h e = Ret h' ∧ heater_ok h' ∧ Max_power h' = Max_power h.
Proof.
  intros Hok He. destruct e as [t x|d|d|c]; cbn [event_step].
  - by apply reading_ok.
  - unfold Set_temp. destruct (_ && _) eqn:E; eexists; (split; [reflexivity|]); [done|]. split; [|done]. destruct Hok; split; try done.
    unfold target_ok. cbn. apply andb_false_iff in E as [E%negb_false_iff|[E1 E2]%orb_false_iff]; auto.
  - eexists. split; [reflexivity|]. split; [by apply Alter_target_ok|done].
  - eexists. split; [reflexivity|]. split; [|done]. destruct Hok; split; try done. by left.
Qed.

(** A heater as configured. *)
Lemma NewHeater_ok cfg delta debug h cycle : NewHeater cfg delta debug = Ret (h, cycle) →
  fle (Min_temp h) (Max_temp h) = true → fle f0 (Max_power h) = true → heater_ok h.
Proof.
  unfold NewHeater. destruct (configFloat cfg "min_temp" _ _ _ _ _ _) as [min|]; [|done]. cbn [mbind go_bind].
  destruct (configFloat cfg "max_temp" _ _ _ _ _ _) as [max|]; [|done]. cbn [mbind go_bind].
  destruct (configFloat cfg "min_extrude_temp" _ _ _ _ _ _) as [ext|]; [|done]. cbn [mbind go_bind].
  destruct (configFloat cfg "max_power" _ _ _ _ _ _) as [pow|]; [|done]. cbn [mbind go_bind].
  destruct (configFloat cfg "smooth_time" _ _ _ _ _ _) as [smooth|]; [|done]. cbn [mbind go_bind].
  destruct (choose_control cfg pow smooth) as [c|] eqn:Ec; [|done]. cbn [mbind go_bind].
  destruct (cfg_heater_pin cfg); [|done]. cbn [mbind go_bind].
  destruct (configFloat cfg "pwm_cycle_time" _ _ _ _ _ _) as [cyc|]; [|done]. cbn [mbind go_bind]. intros [= <- <-] Hl Hp.
  split; [done|done| |by left|constructor]. cbn. unfold choose_control in Ec. case_bool_decide; [|case_bool_decide; [|done]].
  - destruct (configFloat cfg "max_delta" _ _ _ _ _ _); [|done]. by injection Ec as <-.
  - destruct (configFloat cfg "pid_Kp" _ _ _ _ _ _); [|done]. cbn [mbind go_bind] in Ec.
    destruct (configFloat cfg "pid_Ki" _ _ _ _ _ _); [|done]. cbn [mbind go_bind] in Ec.
    destruct (configFloat cfg "pid_Kd" _ _ _ _ _ _); [|done]. by injection Ec as <-.
Qed.

Lemma events_ok events h : heater_ok h → Forall (event_ok h) events →
  ∃ h', range event_step h events = Ret h' ∧ heater_ok h' ∧ Max_power h' = Max_power h.
Proof.
  revert h. induction events as [|e events IH]; intros h Hok Hev; [by exists h|]. inversion_clear Hev as [|? ? He Hev'].
  destruct (event_ok_step e h Hok He) as (h1 & E & Hok1 & Hm). simpl. rewrite E. cbn [mbind go_bind].
  destruct (IH h1 Hok1) as (h' & E' & Hok' & Hm'); [|exists h'; by rewrite Hm', Hm].
  eapply Forall_impl; [exact Hev'|]. intros [| | |]; simpl; congruence.
Qed.

(** C7. A heater made from a configuration with ordered limits and a power that is not
    negative: after any sequence of readings, targets (refused or not) and changes of
    control, no reading panics, its target is zero or not outside its limits, and no
    power it ever sent is below zero or above its maximum. *)
Theorem heater_stays_within_limits cfg delta debug h0 cycle events :
  NewHeater cfg delta debug = Ret (h0, cycle) →
  fle (Min_temp h0) (Max_temp h0) = true → fle f0 (Max_power h0) = true → Forall (event_ok h0) events →
  ∃ h, range event_step h0 events = Ret h ∧ target_ok h ∧ Forall (λ p, power_ok (Max_power h0) p.2) (pwm h).
Proof.
  intros Hnew Hl Hp Hev. destruct (events_ok events h0) as (h & E & [_ _ _ Ht Hpwm] & Hm); [by eapply NewHeater_ok|done|].
  rewrite Hm in Hpwm. eauto.
Qed.

Definition bed_config : heater_config :=
  mkConfig "heater_bed" {[ "min_temp" := f0; "max_temp" := f_of_Z 120; "pid_Kp" := f_of_Z 60; "pid_Ki" := f_of_Z 1; "pid_Kd" := f_of_Z 900 ]}
    (Some "pid") (Some "PA1").

Definition bed_heater : Heater :=
  match NewHeater bed_config (f_lit 3 10) false with Ret (h, _) => h
  | Panic _ => mkHeater f0 f0 f0 f0 false f0 f0 f0 f0 f0 f0 f0 f0 f0 (Watermark (NewControlBangBang f0 f0)) [] end.

Lemma heater_stays_within_limits_witness :
  ∃ h, range event_step bed_heater [SetTemp (f_of_Z 60); Reading f1 (f_of_Z 25); Reading (f_lit 13 10) (f_of_Z 26); SetTemp (f_of_Z 130)] = Ret h ∧
    target_ok h ∧ Forall (λ p, power_ok (Max_power bed_heater) p.2) (pwm h).
Proof.
  apply (heater_stays_within_limits bed_config (f_lit 3 10) false bed_heater (f_lit 1 10)); try (vm_compute; reflexivity).
  repeat constructor.
Defined.

(** ** Turning off *)

Definition is_tuner (c : control) : bool := match c with AutoTune _ => true | _ => false end.

Lemma plain_update t x target c h : is_tuner c = false →
  ∃ c' v, Temperature_update t x target c h = Ret (c', Set_pwm t v h) ∧ is_tuner c' = false.
Proof.
  destruct c as [c|c|c]; intros Hc; [| |done]; cbn [Temperature_update]; unfold bangbang_update, pid_update; [|by eauto].
  destruct (if Heating c && _ then false else _); eauto.
Qed.

(** A heater that is off sends at most a zero; it holds on to a small power until the
    time of the next refresh. *)
Definition holds_on (t : f64) (h : Heater) : Prop :=
  flt t (Next_pwm_time h) = true ∧ flt (fabs (fsub f0 (Last_pwm_value h))) (f_lit 1 20) = true.

Lemma off_reading t x h : Target_temp h = f0 → is_tuner (Control h) = false →
  ∃ h', Temperature_callback t x h = Ret h' ∧ Target_temp h' = f0 ∧ is_tuner (Control h') = false ∧
    (pwm h' = pwm h ∧ Last_pwm_value h' = Last_pwm_value h ∧ Next_pwm_time h' = Next_pwm_time h ∧ (feq (Last_pwm_value h) f0 = true ∨ holds_on t h) ∨
     (∃ pt, pwm h' = pwm h ++ [(pt, f0)]) ∧ Last_pwm_value h ≠ f0 ∧ Last_pwm_value h' = f0).
Proof.
  intros Hoff Hc. unfold Temperature_callback. set (h0 := set_reading x t h).
  destruct (plain_update t x (Target_temp h0) (Control h0) h0 Hc) as (c' & v & -> & Hc'). cbn [mbind go_bind fst snd].
  eexists. split; [reflexivity|]. unfold Set_pwm. change (Target_temp h0) with (Target_temp h). rewrite Hoff.
  change (fle f0 f0) with true. cbv iota.
  change (Next_pwm_time h0) with (Next_pwm_time h). change (Last_pwm_value h0) with (Last_pwm_value h).
  destruct (_ && _) eqn:E; cbn; split_and!; try done; [left|right].
  - apply andb_true_iff in E as [[E1|E1]%orb_true_iff E2]; unfold holds_on; auto 10.
  - split_and!; eauto. intros El. rewrite El, orb_true_r in E. done.
Qed.

(** What a run of readings of it sends. *)
Definition stops (rs : list (f64 * f64)) (h h' : Heater) : Prop :=
  pwm h' = pwm h ∧ Last_pwm_value h' = Last_pwm_value h ∧ (feq (Last_pwm_value h) f0 = true ∨ Forall (λ r, holds_on r.1 h) rs) ∨
  (∃ pt, pwm h' = pwm h ++ [(pt, f0)]) ∧ Last_pwm_value h ≠ f0 ∧ Last_pwm_value h' = f0.

Lemma off_readings rs h : Target_temp h = f0 → is_tuner (Control h) = false →
  ∃ h', readings rs h = Ret h' ∧ Target_temp h' = f0 ∧ stops rs h h'.
Proof.
  revert h. induction rs as [|[t x] rs IH]; intros h Hoff Hc; [exists h; split_and!; try done; left; auto|].
  destruct (off_reading t x h Hoff Hc) as (h1 & E & Hoff1 & Hc1 & H1). destruct (IH h1 Hoff1 Hc1) as (h' & E' & Hoff' & H').
  exists h'. unfold readings in *. cbn [range fst snd]. rewrite E. cbn [mbind go_bind]. split_and!; [done..|].
  unfold stops, holds_on in *. destruct H1 as [(P1 & L1 & N1 & H1)|([pt P1] & L0 & L1)].
  - rewrite <- P1, <- L1. destruct H' as [(P' & L' & H')|H']; [left|by right]. split_and!; [done..|]. rewrite L1, N1 in H'.
    rewrite L1. destruct H1 as [H1|H1]; [by left|]. destruct H' as [H'|H']; [by left|right]. by constructor.
  - right. destruct H' as [(P' & L' & _)|(_ & L' & _)]; [|done]. rewrite P', L', P1. eauto.
Qed.

Lemma Set_temp_off h : Set_temp f0 h = Ret (set_target_temp f0 h).
Proof. done. Qed.

Lemma Turn_off_lookup hs : ∃ hs', Turn_off_all_heaters hs = Ret hs' ∧ Available_heaters hs' = Available_heaters hs ∧
  ∀ name, Heaters hs' !! name = set_target_temp f0 <$> Heaters hs !! name.
Proof.
  unfold Turn_off_all_heaters. set (f := λ m (p : string * Heater), _).
  assert (Hf : ∀ l m, NoDup l.*1 → ∃ m', range f m l = Ret m' ∧
    ∀ name, m' !! name = match (list_to_map l : gmap string Heater) !! name with Some h => Some (set_target_temp f0 h) | None => m !! name end).
  { induction l as [|[k h] l IH]; intros m Hn; [by exists m|]. apply NoDup_cons in Hn as [Hk Hn].
    destruct (IH (<[k := set_target_temp f0 h]> m) Hn) as (m' & E & Hm'). exists m'. split; [done|]. intros name. rewrite Hm'. cbn.
    destruct (decide (name = k)) as [->|Hne]; [|by rewrite !lookup_insert_ne].
    rewrite not_elem_of_list_to_map_1 by done. by rewrite !lookup_insert_eq. }
  destruct (Hf (map_to_list (Heaters hs)) (Heaters hs)) as (m' & E & Hm'); [apply NoDup_fst_map_to_list|]. rewrite E.
  eexists. split; [reflexivity|]. split; [done|]. intros name. cbn. rewrite Hm', list_to_map_to_list. by destruct (Heaters hs !! name).
Qed.

(** After all heaters are turned off, whatever is read next, a heater that is not being
    tuned sends at most one more power, and that is zero; if it sends none it was at
    zero already, or holds a power below 0.05 and every reading came before the time of
    its next refresh. *)
Theorem turned_off_heaters_stop hs name h rs : Heaters hs !! name = Some h → is_tuner (Control h) = false →
  ∃ hs' h0 h', Turn_off_all_heaters hs = Ret hs' ∧ Heaters hs' !! name = Some h0 ∧ readings rs h0 = Ret h' ∧ Target_temp h' = f0 ∧ stops rs h h'.
Proof.
  intros Hh Hc. destruct (Turn_off_lookup hs) as (hs' & E & _ & Hl). destruct (off_readings rs (set_target_temp f0 h)) as (h' & Er & Ht & Hs); [done..|].
  exists hs', (set_target_temp f0 h), h'. rewrite Hl, Hh. done.
Qed.

Lemma turned_off_heaters_stop_witness :
  let h := set_pwm_state (f_of_Z 8) f1 [(f_of_Z 4, f1)] (set_target_temp (f_of_Z 60) bed_heater) in
  let hs := mkHeaters {[ "heater_bed" := h ]} ["heater_bed"] in
  ∃ hs' h0 h', Turn_off_all_heaters hs = Ret hs' ∧ Heaters hs' !! "heater_bed" = Some h0 ∧
    readings [(f_of_Z 5, f_of_Z 59); (f_of_Z 9, f_of_Z 58)] h0 = Ret h' ∧ Target_temp h' = f0 ∧
    stops [(f_of_Z 5, f_of_Z 59); (f_of_Z 9, f_of_Z 58)] h h'.
Proof. intros h hs. apply turned_off_heaters_stop; vm_compute; reflexivity. Defined.

(** A heater that is being tuned is given a target by the tuner: turned off at 90 degrees
    on the way to 100, it is sent to 95 by the next reading. *)
Definition tuned_heater : Heater :=
  set_control (AutoTune (with_heating true (NewControlAutoTune f1 (f_of_Z 100)))) (set_target_temp (f_of_Z 100) bed_heater).

Lemma tuning_rearms_heater :
  (h ← Set_temp f0 tuned_heater; h ← Temperature_callback f1 (f_of_Z 90) h; Ret (Target_temp h)) = Ret (f_of_Z 95).
Proof. vm_compute. reflexivity. Qed.

(** ** Calibration *)

(** A reading never panics, and a tuner stays one. *)
Lemma reading_kind t x h : ∃ h', Temperature_callback t x h = Ret h' ∧ same_kind (Control h) (Control h').
Proof.
  unfold Temperature_callback. set (h0 := set_reading x t h). change (Control h) with (Control h0).
  destruct (Control h0) as [c|c|c] eqn:Ec.
  1,2: destruct (plain_update t x (Target_temp h0) (Control h0) h0) as (c' & v & E & Hc'); [by rewrite Ec|]; rewrite Ec in E; rewrite E;
    eexists; (split; [reflexivity|]); by destruct c'.
  destruct (autotune_returns t x (Target_temp h0) c h0) as (c' & h1 & v & E & _ & _ & _ & Hl). cbn [Temperature_update]. rewrite E.
  eexists. split; [reflexivity|]. done.
Qed.

Lemma readings_tuner rs h c : Control h = AutoTune c →
  ∃ h' c', readings rs h = Ret h' ∧ Control h' = AutoTune c' ∧ len (peaks c') ≤ len (peaks c) + len rs.
Proof.
  revert h c. induction rs as [|[t x] rs IH]; intros h c Hc; [exists h, c; split_and!; (done || (rewrite len_nil; lia))|].
  destruct (reading_kind t x h) as (h1 & E1 & H1). rewrite Hc in H1. destruct (Control h1) as [| |c1] eqn:Hc1; [done..|]. cbn in H1.
  destruct (IH h1 c1 Hc1) as (h' & c' & E & Hc' & Hl). exists h', c'. rewrite len_cons. unfold readings in *. cbn [range fst snd].
  rewrite E1. split_and!; [done..|lia].
Qed.

Lemma wait_tuner pauses h c : Control h = AutoTune c →
  ∃ h' c', Wait_for_temperature pauses h = Ret h' ∧ Control h' = AutoTune c' ∧ len (peaks c') ≤ len (peaks c) + len (concat pauses).
Proof.
  revert h c. induction pauses as [|rs pauses IH]; intros h c Hc; cbn [Wait_for_temperature concat].
  { exists h, c. destruct (Check_busy h); split_and!; (done || (rewrite len_nil; lia)). }
  pose proof (len_nonneg (rs ++ concat pauses)).
  destruct (Check_busy h); [|exists h, c; split_and!; (done || lia)].
  destruct (readings_tuner rs h c Hc) as (h1 & c1 & -> & Hc1 & Hl1). destruct (IH h1 c1 Hc1) as (h' & c' & E & Hc' & Hl).
  exists h', c'. rewrite len_app. split_and!; [done..|lia].
Qed.

Lemma insert_cycle_elem x y l : y ∈ insert_cycle x l ↔ y = x ∨ y ∈ l.
Proof.
  induction l as [|z l IH]; simpl; [set_solver|]. case_match; set_solver.
Qed.

Lemma insert_cycle_length x l : length (insert_cycle x l) = S (length l).
Proof. induction l as [|z l IH]; simpl; [done|]. case_match; simpl; lia. Qed.

(** With a peak after the fourth, the final parameters are those at one of them. *)
Lemma Calc_final_pid_returns c : 4 < len (peaks c) < 2 ^ 53 → ∃ pos, 4 ≤ pos < len (peaks c) ∧ Calc_final_pid c = calc_pid pos c.
Proof.
  intros Hl. unfold Calc_final_pid. set (f := λ l pos, _). set (n := len (peaks c)) in *.
  assert (Hr : ∀ xs acc, (∀ p, p ∈ xs → 4 ≤ p < n) → ∃ ys, range f acc xs = Ret (acc ++ ys) ∧ length ys = length xs ∧
     ∀ y, y ∈ ys → ∃ p, p ∈ xs ∧ y.2 = f_of_Z p).
  { induction xs as [|p xs IH]; intros acc Hx; [exists []; rewrite app_nil_r; split_and!; [done|done|by intros ? ?%not_elem_of_nil]|].
    assert (Hp : 4 ≤ p < n) by (apply Hx; set_solver). cbn [range]. unfold f at 2.
    destruct (index_total (peaks c) p) as (a & -> & _); [lia|].
    destruct (index_total (peaks c) (p - 2)) as (b & -> & _); [lia|]. cbn [mbind go_bind].
    destruct (IH (acc ++ [(fsub a.2 b.2, f_of_Z p)])) as (ys & E & Hlen & Hys); [set_solver|]. rewrite E.
    eexists (_ :: ys). rewrite <- app_assoc. split; [reflexivity|]. split; [simpl; lia|]. set_solver. }
  destruct (Hr (seqZ 4 (n - 4)) []) as (ys & E & Hlen & Hys); [intros p Hp; apply elem_of_seqZ in Hp; lia|]. clear Hr.
  rewrite E. cbn [mbind go_bind app]. rewrite length_seqZ in Hlen.
  set (s := foldr insert_cycle [] ys).
  assert (Hs : length s = length ys ∧ ∀ y, y ∈ s → y ∈ ys).
  { unfold s. clear. induction ys as [|y ys [IH1 IH2]]; [done|]. cbn [foldr]. rewrite insert_cycle_length. split; [simpl; lia|].
    intros z. rewrite insert_cycle_elem. set_solver. }
  destruct Hs as [Hs1 Hs2]. destruct (index_total s (len ys / 2)) as (mid & -> & Hmid).
  { unfold len. rewrite Hs1. split; [apply Z.div_pos; lia|apply Z.div_lt; lia]. }
  cbn [mbind go_bind]. apply list_elem_of_lookup_2, Hs2, Hys in Hmid as (p & Hp & ->). apply elem_of_seqZ in Hp.
  exists p. rewrite f_trunc_of_Z by lia. split; [lia|done].
Qed.

(** PID_CALIBRATE, whatever is read while it runs, leaves the heater with the control
    it had and, once started, with a target of zero; it reports parameters or fails in
    one of three ways, and never indexes out of range. *)
Theorem calibration_gives_heater_back target pauses h : len (concat pauses) < 2 ^ 53 →
  let '(r, h') := cmdPIDCalibrate target pauses h in
  Control h' = Control h ∧ (flt target (f_of_Z 10) = true ∨ Target_temp h' = f0) ∧
  ((∃ kp ki kd, r = Ret (kp, ki, kd)) ∨ r = Panic "TARGET must have minimum" ∨ r = Panic "Requested temperature out of range" ∨
   r = Panic "pid_calibrate interrupted").
Proof.
  intros Hl. unfold cmdPIDCalibrate. destruct (flt target (f_of_Z 10)) eqn:Ht; [by split_and!; auto|]. cbn [Set_control].
  set (c := NewControlAutoTune _ _). set (h1 := set_target_temp _ _). unfold Set_temperature, Set_temp.
  destruct (negb (feq target f0) && _); cbn [mbind go_bind]; [by split_and!; auto|]. set (h2 := set_target_temp target h1).
  assert (Hw : ∃ h3 c3, (if true && flt f0 target then Wait_for_temperature pauses h2 else Ret h2) = Ret h3 ∧ Control h3 = AutoTune c3 ∧
    len (peaks c3) ≤ len (concat pauses)).
  { destruct (true && flt f0 target); [by apply (wait_tuner pauses h2 c)|]. exists h2, c. split_and!; try done. apply len_nonneg. }
  destruct Hw as (h3 & c3 & -> & Hc3 & Hl3). rewrite Hc3. split_and!; [done|by right|]. unfold autotune_busy.
  destruct (heating c3 || (len (peaks c3) <? 12)) eqn:Eb; [by auto|]. apply orb_false_iff in Eb as [_ Eb].
  destruct (Calc_final_pid_returns c3) as (pos & Hpos & ->); [lia|]. destruct (calc_pid_returns pos c3) as [[[kp ki] kd] ->]; [lia|]. left. eauto.
Qed.

Lemma calibration_gives_heater_back_witness :
  let '(r, h') := cmdPIDCalibrate (f_of_Z 60) [[(f1, f_of_Z 25); (f_of_Z 2, f_of_Z 61)]; [(f_of_Z 3, f_of_Z 54)]] bed_heater in
  Control h' = Control bed_heater ∧ (flt (f_of_Z 60) (f_of_Z 10) = true ∨ Target_temp h' = f0) ∧
  ((∃ kp ki kd, r = Ret (kp, ki, kd)) ∨ r = Panic "TARGET must have minimum" ∨ r = Panic "Requested temperature out of range" ∨
   r = Panic "pid_calibrate interrupted").
Proof. apply calibration_gives_heater_back. vm_compute. reflexivity. Defined.

(** ** Limits of zero *)

(** A limit of zero is no limit to [validateFloatOption]: a maximum power below zero is
    accepted, and with a minimum temperature of zero so is a maximum temperature below it. *)
Lemma zero_limits_not_checked :
  ∃ h cycle, NewHeater (mkConfig "heater_bed" {[ "min_temp" := f0; "max_temp" := f_of_Z (-1); "min_extrude_temp" := f_of_Z (-5); "max_power" := f_of_Z (-1); "smooth_time" := f0 ]}
                          None (Some "PA1")) f1 false = Ret (h, cycle) ∧
    flt (Max_temp h) (Min_temp h) = true ∧ flt (Max_power h) f0 = true ∧ Inv_smooth_time h = SpecFloat.S754_infinity false.
Proof. eexists _, _. split; [vm_compute; reflexivity|]. vm_compute. done. Qed.

(** ** A target that is not a number *)

(** It is accepted, and a watermark control that is heating then never stops. *)
Lemma nan_target_accepted h : Set_temp SpecFloat.S754_nan h = Ret (set_target_temp SpecFloat.S754_nan h).
Proof. by unfold Set_temp; destruct (Max_temp h) as [|[]| |[]]. Qed.

Lemma nan_target_keeps_heating t x c h : Heating c = true →
  bangbang_update t x SpecFloat.S754_nan c h = (c, Set_pwm t (bb_max_power c) h).
Proof.
  intros Hh. unfold bangbang_update. rewrite Hh. cbn [negb andb].
  change (fadd SpecFloat.S754_nan (Max_delta c)) with SpecFloat.S754_nan. change (fle SpecFloat.S754_nan x) with false.
  destruct c; cbn in *; by subst.
Qed.
