(* ===== verification/VerifyHeater.v ===== *)
(** * Heater verification

    [src/internal/pkg/heater/verify.go] and [verify_module.go]: the check that runs once
    a second for each heater and shuts the printer down when the heater does not
    approach its target. *)

From S2P Require Import Prelude GoFloat GoStrings GoState Heater.

Record VerifyHeater := mkVerify {
  heaterName : string;
  hysteresis : f64;
  maxError : f64;
  heatingGain : f64;
  checkGainTime : f64;
  approachingTarget : bool;
  startingApproach : bool;
  lastTarget : f64;
  goalTemp : f64;
  errorValue : f64;
  goalSystime : f64
}.

Definition NewVerifyHeater (name : string) (hysteresis maxError heatingGain checkGainTime : f64) : VerifyHeater :=
  mkVerify name hysteresis maxError heatingGain checkGainTime false false f0 f0 f0 NEVER.

(** The options of the section, or their defaults. *)
Definition LoadConfigVerifyHeater (heaterName : string) (options : gmap string f64) : VerifyHeater :=
  let defaultGainTime := if bool_decide (heaterName = "heater_bed") then f_of_Z 60 else f_of_Z 20 in
  NewVerifyHeater heaterName (default (f_of_Z 5) (options !! "hysteresis")) (default (f_of_Z 120) (options !! "max_error"))
    (default (f_of_Z 2) (options !! "heating_gain")) (default defaultGainTime (options !! "check_gain_time")).

Definition FaultMessage (v : VerifyHeater) : string :=
  String.append "Heater " (String.append (heaterName v) " not heating at expected rate").

Definition set_approach (approaching starting : bool) (goal time : f64) (v : VerifyHeater) : VerifyHeater :=
  mkVerify (heaterName v) (hysteresis v) (maxError v) (heatingGain v) (checkGainTime v) approaching starting (lastTarget v) goal (errorValue v) time.
Definition set_error (e : f64) (v : VerifyHeater) : VerifyHeater :=
  mkVerify (heaterName v) (hysteresis v) (maxError v) (heatingGain v) (checkGainTime v) (approachingTarget v) (startingApproach v)
    (lastTarget v) (goalTemp v) e (goalSystime v).
Definition set_last_target (t : f64) (v : VerifyHeater) : VerifyHeater :=
  mkVerify (heaterName v) (hysteresis v) (maxError v) (heatingGain v) (checkGainTime v) (approachingTarget v) (startingApproach v)
    t (goalTemp v) (errorValue v) (goalSystime v).

Definition Check (eventtime temp target : f64) (v : VerifyHeater) : f64 * string * VerifyHeater :=
  let pass v := (fadd eventtime f1, EmptyString, set_last_target target v) in
  if fle (fsub target (hysteresis v)) temp || fle target f0 then
    let v := set_approach false false (goalTemp v) (goalSystime v) v in
    pass (if fle temp (fadd target (hysteresis v)) then set_error f0 v else v)
  else
    let v := set_error (fadd (errorValue v) (fsub (fsub target (hysteresis v)) temp)) v in
    let goal := fadd temp (heatingGain v) in
    let deadline := fadd eventtime (checkGainTime v) in
    if negb (approachingTarget v) then
      if negb (feq target (lastTarget v)) then pass (set_approach true true goal deadline v)
      else if fle (maxError v) (errorValue v) then (NEVER, FaultMessage v, v)
      else pass v
    else if fle (goalTemp v) temp then pass (set_error f0 (set_approach true false goal deadline v))
    else if fle (goalSystime v) eventtime then pass (set_approach false (startingApproach v) (goalTemp v) (goalSystime v) v)
    else if startingApproach v then pass (set_approach true true (fmin (goalTemp v) goal) (goalSystime v) v)
    else pass v.

(** [checkEvent], with the print time that the MCU estimates: the next time the timer
    runs, and the message of the shutdown that it invokes. *)
Definition checkEvent (eventtime estimated_print_time : f64) (h : Heater) (v : VerifyHeater) : f64 * option string * VerifyHeater :=
  let '(temp, target) := Get_temp estimated_print_time h in
  let '(next, faultMsg, v) := Check eventtime temp target v in
  if bool_decide (faultMsg = EmptyString) then (next, None, v) else (NEVER, Some faultMsg, v).
