(* ===== verification/VerifyHeaterThy.v ===== *)
(** * A heater that does not heat is caught

    The check of [VerifyHeater] run over the readings of a heater that stays short of
    its target without gaining on it ends in a fault; so does the check of a heater
    whose sensor has gone silent, which reads as zero degrees. *)

From S2P Require Import Prelude GoFloat GoFloatRound GoFloatInt GoStrings GoState Heater VerifyHeater.
From Stdlib Require Import SpecFloat.

(** The checks of a sequence of readings (event time, temperature) for one target, up
    to the first fault. *)
Fixpoint checks (target : f64) (readings : list (f64 * f64)) (v : VerifyHeater) : option string * VerifyHeater :=
  match readings with
  | [] => (None, v)
  | (eventtime, temp) :: readings' =>
      let '(_, msg, v) := Check eventtime temp target v in
      if bool_decide (msg = EmptyString) then checks target readings' v else (Some msg, v)
  end.

Lemma checks_app target l1 l2 v :
  checks target (l1 ++ l2) v = match checks target l1 v with (None, v) => checks target l2 v | r => r end.
Proof.
  revert v. induction l1 as [|[t x] l1 IH]; intros v; [done|]. simpl. destruct (Check t x target v) as [[_ msg] v'].
  case_bool_decide; [apply IH|done].
Qed.

Lemma checks_then target l1 l2 v (P : VerifyHeater → Prop) :
  is_Some (checks target l1 v).1 ∨ (∃ v', checks target l1 v = (None, v') ∧ P v') →
  (∀ v', P v' → is_Some (checks target l2 v').1) → is_Some (checks target (l1 ++ l2) v).1.
Proof.
  rewrite checks_app. intros [Hs|(v' & -> & HP)] H; [|by apply H]. destruct (checks target l1 v) as [[|] ?]; [done|by destruct Hs].
Qed.

Lemma flt_fmin_intro a x y : flt a x = true → flt a y = true → flt a (fmin x y) = true.
Proof.
  intros Hx Hy. pose proof (flt_not_nan _ _ Hx) as [_ Nx]. pose proof (flt_not_nan _ _ Hy) as [_ Ny].
  by destruct (fmin_cases x y Nx Ny) as [[-> | ->] _].
Qed.

(** ** A heater that does not gain *)

Section stuck.
Context (v0 : VerifyHeater) (target deadline : f64).

(** A temperature at least a degree below what counts as reached. *)
Definition short (temp : f64) : Prop :=
  canon temp = true ∧ fle (fsub target (hysteresis v0)) temp = false ∧ fle f1 (fsub (fsub target (hysteresis v0)) temp) = true.

Definition same_options (v : VerifyHeater) : Prop :=
  hysteresis v = hysteresis v0 ∧ maxError v = maxError v0 ∧ heatingGain v = heatingGain v0 ∧ checkGainTime v = checkGainTime v0.

(** After [n] checks, with the readings to come. *)
Record stuck_at (n : Z) (v : VerifyHeater) (rest : list (f64 * f64)) : Prop := {
  st_options : same_options v;
  st_canon : canon (errorValue v) = true;
  st_error : fle (f_of_Z n) (errorValue v) = true;
  st_last : feq target (lastTarget v) = true;
  st_goal : approachingTarget v = true → goalSystime v = deadline ∧ Forall (λ r, flt r.2 (goalTemp v) = true) rest
}.

(** No reading reaches an earlier one by the gain. *)
Definition no_gain (readings : list (f64 * f64)) : Prop :=
  ForallOrdPairs (λ a b, flt b.2 (fadd a.2 (heatingGain v0)) = true) readings.

Lemma no_gain_app l1 l2 : no_gain (l1 ++ l2) → no_gain l2.
Proof. induction l1 as [|a l1 IH]; [done|]. intros H. apply IH. by inversion H. Qed.

Hypothesis Hhyst : canon (hysteresis v0) = true.
Hypothesis Htarget : canon target = true.
Hypothesis Hpositive : flt f0 target = true.

Lemma target_self : feq target target = true.
Proof using Hpositive. apply feq_refl. by apply flt_not_nan in Hpositive as []. Qed.

Lemma target_on : fle target f0 = false.
Proof using Hpositive. destruct (fle target f0) eqn:E; [|done]. by rewrite (fle_flt_false _ _ E) in Hpositive. Qed.

Lemma faults v : FaultMessage v ≠ EmptyString.
Proof. done. Qed.

(** One more check that does not fault. *)
Lemma stuck_step n v t x rest next v' : 0 ≤ n → n + 1 < 2 ^ 53 → short x → no_gain ((t, x) :: rest) → stuck_at n v ((t, x) :: rest) →
  Check t x target v = (next, EmptyString, v') →
  stuck_at (n + 1) v' rest ∧
  (fle deadline t = true ∨ approachingTarget v = false → approachingTarget v' = false) ∧
  (approachingTarget v = false → fle (maxError v0) (f_of_Z (n + 1)) = false).
Proof using Hhyst Htarget Hpositive.
  intros Hn Hb (Hcx & Hlow & Hone) Hng [(Oh & Om & Og & Oc) Hcan Herr Hlast Hgoal] HC.
  inversion_clear Hng as [|? ? Hgain _].
  assert (Hcount : fle (f_of_Z (n + 1)) (fadd (errorValue v) (fsub (fsub target (hysteresis v0)) x)) = true)
    by (apply fadd_count; auto using fsub_canon).
  assert (Hc' : canon (fadd (errorValue v) (fsub (fsub target (hysteresis v0)) x)) = true) by auto using fadd_canon, fsub_canon.
  unfold Check in HC. rewrite Oh, Hlow, target_on in HC. cbn in HC. rewrite Hlast in HC. cbn [negb] in HC.
  destruct (approachingTarget v) eqn:Ha; cbn [negb] in HC.
  - destruct (Hgoal eq_refl) as [Hsys Hrest]. inversion Hrest as [|? ? Hx Hrest']; subst. cbn in Hx.
    destruct (fle (goalTemp v) x) eqn:E1; [by rewrite (fle_flt_false _ _ E1) in Hx|]. rewrite Hsys in HC.
    destruct (fle deadline t) eqn:E2; [|destruct (startingApproach v) eqn:E3]; injection HC as <- <-; cbn.
    + split_and!; [|done..]. split; try done. apply target_self.
    + split_and!; [|by intros [|]|done]. split; try done; [apply target_self|]. intros _. split; [done|]. cbn.
      rewrite Og. apply Forall_forall. intros r Hr. apply flt_fmin_intro;
        [exact (proj1 (Forall_forall _ _) Hrest' r Hr)|exact (proj1 (Forall_forall _ _) Hgain r Hr)].
    + split_and!; [|by intros [|]|done]. split; try done; apply target_self.
  - destruct (fle (maxError v) _) eqn:E1 in HC; [done|]. injection HC as <- <-. cbn. split_and!; [|done|].
    + split; try done; [apply target_self|]. cbn. by rewrite Ha.
    + intros _. rewrite <- Om. destruct (fle (maxError v) (f_of_Z (n + 1))) eqn:E; [|done]. by rewrite (fle_trans _ _ _ E Hcount) in E1.
Qed.

(** Any number of them: a fault, or the counter has kept up. *)
Lemma stuck_run l rest n v : 0 ≤ n → n + len l < 2 ^ 53 → Forall (λ r, short r.2) l → no_gain (l ++ rest) → stuck_at n v (l ++ rest) →
  is_Some (checks target l v).1 ∨
  ∃ v', checks target l v = (None, v') ∧ stuck_at (n + len l) v' rest ∧ (approachingTarget v = false → approachingTarget v' = false).
Proof using Hhyst Htarget Hpositive.
  revert n v. induction l as [|[t x] l IH]; intros n v Hn Hb Hs Hng Hst.
  - right. exists v. rewrite Z.add_0_r. done.
  - inversion_clear Hs as [|? ? Hx Hs']. rewrite len_cons in Hb. pose proof (len_nonneg l). simpl.
    destruct (Check t x target v) as [[next msg] v1] eqn:HC. case_bool_decide as Hm; [subst msg|by left].
    destruct (stuck_step n v t x (l ++ rest) next v1) as (Hst1 & Ha & _); [done|lia|done..|].
    destruct (IH (n + 1) v1) as [Hf|(v' & E & Hst' & Ha')]; [lia|lia|done|by inversion Hng|done|by left|].
    right. exists v'. split_and!; [done|by replace (n + len ((t, x) :: l)) with (n + 1 + len l) by (rewrite len_cons; lia)|auto].
Qed.

(** The first check, from a heater that was not approaching a target. *)
Lemma stuck_first t x rest : short x → no_gain ((t, x) :: rest) → approachingTarget v0 = false → canon (errorValue v0) = true →
  fle f0 (errorValue v0) = true → deadline = fadd t (checkGainTime v0) →
  is_Some (checks target [(t, x)] v0).1 ∨ ∃ v', checks target [(t, x)] v0 = (None, v') ∧ stuck_at 1 v' rest.
Proof using Hhyst Htarget Hpositive.
  intros (Hcx & Hlow & Hone) Hng Ha Hcan Herr Hd. inversion_clear Hng as [|? ? Hgain _].
  assert (Hcount : fle (f_of_Z (0 + 1)) (fadd (errorValue v0) (fsub (fsub target (hysteresis v0)) x)) = true)
    by (apply fadd_count; auto using fsub_canon; lia).
  assert (Hc' : canon (fadd (errorValue v0) (fsub (fsub target (hysteresis v0)) x)) = true) by auto using fadd_canon, fsub_canon.
  simpl. unfold Check. rewrite Hlow, target_on. cbn. rewrite Ha. cbn [negb].
  destruct (feq target (lastTarget v0)) eqn:El; cbn [negb]; [destruct (fle (maxError v0) _)|]; cbn; [by left|right..].
  - eexists. split; [done|]. split; try done; [apply target_self|]. cbn. by rewrite Ha.
  - eexists. split; [done|]. split; try done. apply target_self.
Qed.

(** From then on: a reading past the deadline that is not the last, and as many readings
    as the error allowed. *)
Lemma stuck_rest n v pre t x suf (readings := pre ++ (t, x) :: suf) :
  0 ≤ n → stuck_at n v readings → Forall (λ r, short r.2) readings → no_gain readings → fle deadline t = true → suf ≠ [] →
  n + len readings < 2 ^ 53 → fle (maxError v0) (f_of_Z (n + len readings)) = true → is_Some (checks target readings v).1.
Proof using Hhyst Htarget Hpositive.
  intros Hn H1 Hs1 Hng1 Ht Hsuf. destruct (exists_last Hsuf) as (mid & [tl xl] & ->). clear Hsuf. subst readings.
  rewrite len_app, len_cons, len_app, len_one. intros Hlen Hmax. pose proof (len_nonneg pre). pose proof (len_nonneg mid).
  apply Forall_app in Hs1 as [Hs1 Hs2]. inversion_clear Hs2 as [|? ? Hx Hs3].
  apply Forall_app in Hs3 as [Hs3 Hs4]. inversion_clear Hs4 as [|? ? Hxl _].
  eapply checks_then; [apply (stuck_run pre _ n v ltac:(lia) ltac:(lia) Hs1 Hng1 H1)|]. cbn beta. intros v2 [H2 _].
  apply no_gain_app in Hng1. assert (Hng2 : no_gain (mid ++ [(tl, xl)])) by by inversion Hng1.
  apply (checks_then _ [(t, x)] _ _ (λ v3, stuck_at (n + len pre + 1) v3 (mid ++ [(tl, xl)]) ∧ approachingTarget v3 = false)).
  { simpl. destruct (Check t x target v2) as [[next msg] v3] eqn:HC. case_bool_decide as Hm; [subst msg; right|by left].
    destruct (stuck_step (n + len pre) _ _ _ _ _ _ ltac:(lia) ltac:(lia) Hx Hng1 H2 HC) as (H3 & Ha3 & _). exists v3. auto. }
  intros v3 [H3 Ha3]. eapply checks_then; [apply (stuck_run mid _ (n + len pre + 1) v3 ltac:(lia) ltac:(lia) Hs3 Hng2 H3)|]. cbn beta.
  intros v4 [H4 Ha4]. specialize (Ha4 Ha3). simpl. destruct (Check tl xl target v4) as [[next msg] v5] eqn:HC.
  case_bool_decide as Hm; [subst msg|done]. apply no_gain_app in Hng2.
  destruct (stuck_step (n + len pre + 1 + len mid) _ _ _ _ _ _ ltac:(lia) ltac:(lia) Hxl Hng2 H4 HC) as (_ & _ & Hno). specialize (Hno Ha4).
  replace (n + len pre + 1 + len mid + 1) with (n + (len pre + (1 + (len mid + 1)))) in Hno by lia. by rewrite Hno in Hmax.
Qed.

Lemma stuck_faults t0 x0 pre t x suf (readings := (t0, x0) :: pre ++ (t, x) :: suf) :
  approachingTarget v0 = false → canon (errorValue v0) = true → fle f0 (errorValue v0) = true →
  Forall (λ r, short r.2) readings → no_gain readings → deadline = fadd t0 (checkGainTime v0) → fle deadline t = true → suf ≠ [] →
  len readings < 2 ^ 53 → fle (maxError v0) (f_of_Z (len readings)) = true → is_Some (checks target readings v0).1.
Proof using Hhyst Htarget Hpositive.
  intros Ha Hcan Herr Hs Hng Hd Ht Hsuf Hlen Hmax. subst readings. rewrite len_cons in *. inversion_clear Hs as [|? ? Hx0 Hs1].
  apply (checks_then _ [(t0, x0)] _ _ _ (stuck_first t0 x0 _ Hx0 Hng Ha Hcan Herr Hd)). intros v1 H1. inversion_clear Hng as [|? ? _ Hng1].
  by apply (stuck_rest 1).
Qed.
End stuck.

(** C6. A heater that is not approaching a target is given one, and all its readings stay at
    least a degree below that target less the hysteresis, none reaching an earlier one
    plus heating_gain: it is faulted, at the latest by a check after the first one at
    which check_gain_time has passed since the first reading, once there were as many
    checks as max_error. *)
Theorem verify_catches_stuck_heater v target t0 x0 pre t x suf (readings := (t0, x0) :: pre ++ (t, x) :: suf) :
  canon target = true → flt f0 target = true → canon (hysteresis v) = true →
  approachingTarget v = false → canon (errorValue v) = true → fle f0 (errorValue v) = true →
  Forall (λ r, short v target r.2) readings → no_gain v readings →
  fle (fadd t0 (checkGainTime v)) t = true → suf ≠ [] →
  len readings < 2 ^ 53 → fle (maxError v) (f_of_Z (len readings)) = true →
  is_Some (checks target readings v).1.
Proof. intros. by apply (stuck_faults v target (fadd t0 (checkGainTime v))). Qed.

Definition quick_check : VerifyHeater := LoadConfigVerifyHeater "extruder" {[ "max_error" := f_of_Z 3; "check_gain_time" := f1 ]}.

Lemma verify_catches_stuck_heater_witness :
  is_Some (checks (f_of_Z 200) [(f0, f_of_Z 25); (f1, f_of_Z 26); (f_of_Z 2, f_of_Z 25)] quick_check).1.
Proof.
  apply (verify_catches_stuck_heater quick_check (f_of_Z 200) f0 (f_of_Z 25) [] f1 (f_of_Z 26) [(f_of_Z 2, f_of_Z 25)]);
    try (vm_compute; reflexivity); [| |discriminate].
  - repeat constructor; vm_compute; reflexivity.
  - repeat constructor; vm_compute; reflexivity.
Defined.

(** ** A sensor that has gone silent *)

(** The runs of the timer (event time, estimated print time) while nothing changes the
    heater, up to the shutdown. *)
Fixpoint checkEvents (h : Heater) (events : list (f64 * f64)) (v : VerifyHeater) : option string * VerifyHeater :=
  match events with
  | [] => (None, v)
  | (eventtime, estimated) :: events' =>
      match checkEvent eventtime estimated h v with
      | (_, Some msg, v) => (Some msg, v)
      | (_, None, v) => checkEvents h events' v
      end
  end.

(** No reading in the five seconds before the estimated print time. *)
Definition silent (h : Heater) (e : f64 * f64) : Prop := flt (Last_temp_time h) (fsub e.2 (f_of_Z 5)) = true.

Lemma silent_checks h events v : Forall (silent h) events →
  checkEvents h events v = checks (Target_temp h) ((λ e, (e.1, f0)) <$> events) v.
Proof.
  intros Hs. revert v. induction Hs as [|[t est] events H Hs IH]; intros v; [done|]. simpl. unfold checkEvent, Get_temp.
  unfold silent in H. cbn [snd] in H. rewrite H. destruct (Check t f0 (Target_temp h) v) as [[next msg] v'].
  case_bool_decide; [apply IH|done].
Qed.

Lemma fsub_0_r x : fle f1 x = true → fsub x f0 = x.
Proof. by destruct x as [[]|[]| |[]]. Qed.

Lemma fadd_0_l x : flt f0 x = true → fadd f0 x = x.
Proof. by destruct x as [[]|[]| |[]]. Qed.

Lemma no_gain_zero v (events : list (f64 * f64)) : flt f0 (heatingGain v) = true → no_gain v ((λ e, (e.1, f0)) <$> events).
Proof.
  intros Hg. induction events as [|e events IH]; simpl; constructor; [|done]. apply Forall_fmap, Forall_true. intros. cbn [snd]. by rewrite fadd_0_l.
Qed.

(** C28. A heater that is on and whose sensor has gone silent reads as zero degrees, and the
    timer of its check shuts the printer down, whether the heater was approaching its
    target or had reached it. *)
Theorem silent_sensor_shuts_down h v e0 pre e suf (events := e0 :: pre ++ e :: suf) (target := Target_temp h) :
  canon target = true → canon (hysteresis v) = true → canon (errorValue v) = true → fle f0 (errorValue v) = true →
  fle f1 (fsub target (hysteresis v)) = true → flt f0 target = true → flt f0 (heatingGain v) = true →
  Forall (silent h) events →
  fle (fadd e0.1 (checkGainTime v)) e.1 = true → suf ≠ [] →
  (approachingTarget v = true → feq target (lastTarget v) = true ∧ flt f0 (goalTemp v) = true ∧ fle (goalSystime v) e.1 = true) →
  len events < 2 ^ 53 → fle (maxError v) (f_of_Z (len events)) = true →
  is_Some (checkEvents h events v).1.
Proof.
  intros Ct Ch Ce He Hshort Hpos Hgain Hs Htime Hsuf Ha Hlen Hmax. rewrite (silent_checks h events v Hs). fold target.
  set (z := λ e : f64 * f64, (e.1, f0)).
  assert (Hsh : Forall (λ r, short v target r.2) (z <$> events)).
  { apply Forall_fmap, Forall_true. intros r. split_and!; simpl; [done| |by rewrite fsub_0_r].
    destruct (fle (fsub target (hysteresis v)) f0) eqn:E; [|done]. by pose proof (fle_trans _ _ _ Hshort E). }
  assert (Hng : no_gain v (z <$> events)) by by apply no_gain_zero.
  assert (Hl : len (z <$> events) = len events) by (unfold len; by rewrite length_fmap).
  assert (Hsuf' : z <$> suf ≠ []) by by destruct suf.
  subst events. rewrite <- Hl in Hlen, Hmax. destruct (approachingTarget v) eqn:E.
  - destruct (Ha eq_refl) as (Hlast & Hgoal & Hsys). change (e0 :: pre ++ e :: suf) with ((e0 :: pre) ++ e :: suf) in *.
    rewrite fmap_app, fmap_cons in *. apply (stuck_rest v target (goalSystime v)) with (n := 0); try done. split; try done.
    assert (Hz : ∀ l, Forall (λ r : f64 * f64, flt r.2 (goalTemp v) = true) (z <$> l)) by (intros; by apply Forall_fmap, Forall_true).
    intros _. split; [done|]. apply Forall_app. split; [apply (Hz (e0 :: pre))|apply (Hz (e :: suf))].
  - rewrite fmap_cons, fmap_app, fmap_cons in *. by apply (stuck_faults v target (fadd e0.1 (checkGainTime v))).
Qed.

Definition silent_heater : Heater :=
  mkHeater f0 (f_of_Z 300) f0 f0 true f1 f1 f1 (f_of_Z 200) (f_of_Z 200) (f_of_Z 200) (f_of_Z 10) f0 f0 (Watermark (NewControlBangBang f1 f1)) [].

Lemma silent_sensor_shuts_down_witness :
  is_Some (checkEvents silent_heater [(f0, f_of_Z 16); (f1, f_of_Z 17); (f_of_Z 2, f_of_Z 18)] quick_check).1.
Proof.
  apply (silent_sensor_shuts_down silent_heater quick_check (f0, f_of_Z 16) [] (f1, f_of_Z 17) [(f_of_Z 2, f_of_Z 18)]);
    try (vm_compute; reflexivity); [|discriminate|discriminate].
  repeat constructor; vm_compute; reflexivity.
Defined.

(** ** A target that is not a number *)

(** It differs from itself, so that the heater is always approaching a new target. *)
Lemma nan_target_never_checked readings v : (checks S754_nan readings v).1 = None.
Proof.
  revert v. induction readings as [|[t x] readings IH]; intros v; [done|]. cbn [checks]. unfold Check.
  change (fsub S754_nan (hysteresis v)) with S754_nan. change (fle S754_nan x) with false. change (fle S754_nan f0) with false.
  change (feq S754_nan (lastTarget _)) with false. cbn [orb negb].
  repeat match goal with |- context [if ?b then (_, _, _) else _] => destruct b end; apply IH.
Qed.
