(* ===== verification/Crc.v ===== *)
(** * Checksums of the three wire protocols

    The checksum routines of [src/internal/pkg/msgproto] (MCU protocol),
    [src/internal/pkg/filament] (ACE framing) and
    [src/internal/pkg/filament/ace_v2] (ACE V2 framing), each as the source
    writes it, with the interface [TableCrc] that the framing components rely
    on: a byte-wise update that is a table lookup on the low byte.  Error
    detection is proved once, against the interface. *)

From S2P Require Import Prelude.

(** ** The interface *)

(** A reflected 16-bit CRC update: shift the register right by a byte and mix
    in a table entry selected by the low byte, whose high half identifies the
    entry. *)
Class TableCrc (step : Z → Z → Z) (tbl : Z → Z) : Prop := {
  tc_step c d : 0 ≤ c < 65536 → is_byte d →
    step c d = Z.lxor (Z.shiftr c 8) (tbl (Z.lxor d (Z.land c 255)));
  tc_bound b : is_byte b → 0 ≤ tbl b < 65536;
  tc_inj b1 b2 : is_byte b1 → is_byte b2 →
    Z.shiftr (tbl b1) 8 = Z.shiftr (tbl b2) 8 → b1 = b2;
}.

Section TableCrc.
Context (step : Z → Z → Z) (tbl : Z → Z) `{!TableCrc step tbl}.

Local Lemma low_byte c d : is_byte d → is_byte (Z.lxor d (Z.land c 255)).
Proof.
  intros. rewrite land_255. unfold is_byte in *.
  apply (lxor_bound _ _ 8); [lia..|]. apply (Z.mod_pos_bound c 256). lia.
Qed.

Local Lemma high_byte c : 0 ≤ c < 65536 → 0 ≤ Z.shiftr c 8 < 256.
Proof. intros. rewrite Z.shiftr_div_pow2 by lia. change (2 ^ 8) with 256. dlia. Qed.

Lemma step_bound c d : 0 ≤ c < 65536 → is_byte d → 0 ≤ step c d < 65536.
Proof using TableCrc0.
  intros Hc Hd. rewrite (tc_step (step:=step)) by done.
  pose proof (high_byte c Hc). pose proof (tc_bound _ (low_byte c d Hd)).
  apply (lxor_bound _ _ 16); lia.
Qed.

Local Lemma step_high c d : 0 ≤ c < 65536 → is_byte d →
  Z.shiftr (step c d) 8 = Z.shiftr (tbl (Z.lxor d (Z.land c 255))) 8.
Proof using TableCrc0.
  intros Hc Hd. rewrite (tc_step (step:=step)) by done. rewrite Z.shiftr_lxor.
  rewrite (Z.shiftr_div_pow2 (Z.shiftr c 8)) by lia.
  rewrite Z.div_small, Z.lxor_0_l; [done|]. apply (high_byte c Hc).
Qed.

(** The update loses no information: the new register and one of the two
    inputs determine the other. *)
Lemma step_inj c1 c2 d1 d2 :
  0 ≤ c1 < 65536 → 0 ≤ c2 < 65536 → is_byte d1 → is_byte d2 →
  step c1 d1 = step c2 d2 →
  Z.lxor d1 (Z.land c1 255) = Z.lxor d2 (Z.land c2 255) ∧
  Z.shiftr c1 8 = Z.shiftr c2 8.
Proof using TableCrc0.
  intros Hc1 Hc2 Hd1 Hd2 Heq.
  assert (Hb : Z.lxor d1 (Z.land c1 255) = Z.lxor d2 (Z.land c2 255)).
  { apply tc_inj; [by apply low_byte..|]. by rewrite <- !step_high, Heq by done. }
  split; [done|]. rewrite !(tc_step (step:=step)) in Heq by done. rewrite Hb in Heq.
  by apply (f_equal (λ z, Z.lxor z (tbl (Z.lxor d2 (Z.land c2 255))))) in Heq;
    rewrite !Z.lxor_assoc, !Z.lxor_nilpotent, !Z.lxor_0_r in Heq.
Qed.

Lemma join_bytes c1 c2 :
  Z.land c1 255 = Z.land c2 255 → Z.shiftr c1 8 = Z.shiftr c2 8 → c1 = c2.
Proof.
  rewrite !land_255, !Z.shiftr_div_pow2 by lia. change (2 ^ 8) with 256. dlia.
Qed.

Lemma lxor_cancel_r a b c : Z.lxor a c = Z.lxor b c → a = b.
Proof.
  intros H. apply (f_equal (λ z, Z.lxor z c)) in H.
  by rewrite !Z.lxor_assoc, !Z.lxor_nilpotent, !Z.lxor_0_r in H.
Qed.

Lemma lxor_cancel_l a b c : Z.lxor c a = Z.lxor c b → a = b.
Proof. rewrite !(Z.lxor_comm c). apply lxor_cancel_r. Qed.

Lemma step_inj_reg c1 c2 d :
  0 ≤ c1 < 65536 → 0 ≤ c2 < 65536 → is_byte d → step c1 d = step c2 d → c1 = c2.
Proof using TableCrc0.
  intros Hc1 Hc2 Hd Heq. destruct (step_inj c1 c2 d d) as [Hlow Hhigh]; [done..|].
  apply join_bytes; [|done]. by apply lxor_cancel_l in Hlow.
Qed.

Lemma step_inj_data c d1 d2 :
  0 ≤ c < 65536 → is_byte d1 → is_byte d2 → step c d1 = step c d2 → d1 = d2.
Proof using TableCrc0.
  intros Hc Hd1 Hd2 Heq. destruct (step_inj c c d1 d2) as [Hlow _]; [done..|].
  by apply lxor_cancel_r in Hlow.
Qed.

Lemma fold_bound buf c :
  0 ≤ c < 65536 → Forall is_byte buf → 0 ≤ fold_left step buf c < 65536.
Proof using TableCrc0.
  revert c; induction buf as [|d buf IH]; intros c Hc Hb; [done|].
  inversion_clear Hb. apply IH; [by apply step_bound|done].
Qed.

Lemma fold_inj_reg buf c1 c2 :
  0 ≤ c1 < 65536 → 0 ≤ c2 < 65536 → Forall is_byte buf →
  fold_left step buf c1 = fold_left step buf c2 → c1 = c2.
Proof using TableCrc0.
  revert c1 c2; induction buf as [|d buf IH]; intros c1 c2 Hc1 Hc2 Hb Heq; [done|].
  inversion_clear Hb. simpl in Heq. apply IH in Heq; [|by apply step_bound..|done].
  by eapply step_inj_reg.
Qed.

(** Any change confined to two consecutive bytes changes the checksum. *)
Lemma fold_two_bytes c pre a b a' b' suf :
  0 ≤ c < 65536 → Forall is_byte pre → Forall is_byte suf →
  is_byte a → is_byte b → is_byte a' → is_byte b' →
  fold_left step (pre ++ a :: b :: suf) c = fold_left step (pre ++ a' :: b' :: suf) c →
  a = a' ∧ b = b'.
Proof using TableCrc0.
  intros Hc Hpre Hsuf Ha Hb Ha' Hb' Heq. rewrite !fold_left_app in Heq. simpl in Heq.
  set (r := fold_left step pre c) in *.
  assert (Hr : 0 ≤ r < 65536) by (by apply fold_bound).
  apply fold_inj_reg in Heq; [|by repeat apply step_bound..|done].
  destruct (step_inj (step r a) (step r a') b b') as [Hlow Hhigh];
    [by apply step_bound..|done|done|done|].
  assert (a = a') as <-.
  { rewrite !step_high in Hhigh by done.
    apply tc_inj in Hhigh; [|by apply low_byte..]. by apply lxor_cancel_r in Hhigh. }
  split; [done|]. by apply lxor_cancel_r in Hlow.
Qed.

(** Any change of a single byte changes the checksum. *)
Lemma fold_one_byte c pre a a' suf :
  0 ≤ c < 65536 → Forall is_byte pre → Forall is_byte suf → is_byte a → is_byte a' →
  fold_left step (pre ++ a :: suf) c = fold_left step (pre ++ a' :: suf) c → a = a'.
Proof using TableCrc0.
  intros Hc Hpre Hsuf Ha Ha' Heq. rewrite !fold_left_app in Heq. simpl in Heq.
  assert (0 ≤ fold_left step pre c < 65536) by (by apply fold_bound).
  apply fold_inj_reg in Heq; [|by apply step_bound..|done].
  by eapply step_inj_data.
Qed.
End TableCrc.

(** ** Bit-serial reference *)

(** One shift of a reflected CRC register with polynomial [poly]. *)
Definition bit_step (poly c : Z) : Z :=
  if Z.testbit c 0 then Z.lxor (Z.shiftr c 1) poly else Z.shiftr c 1.

(** A byte enters the low half of the register and is shifted through. *)
Definition byte_step (poly c d : Z) : Z :=
  Nat.iter 8 (bit_step poly) (Z.lxor c d).

Section BitSerial.
Context (poly : Z).

Lemma bit_step_lxor a b :
  bit_step poly (Z.lxor a b) = Z.lxor (bit_step poly a) (bit_step poly b).
Proof.
  unfold bit_step. rewrite Z.lxor_spec, Z.shiftr_lxor.
  destruct (Z.testbit a 0), (Z.testbit b 0); simpl;
    apply Z.bits_inj'; intros i Hi; rewrite ?Z.lxor_spec;
    destruct (Z.testbit (Z.shiftr a 1) i), (Z.testbit (Z.shiftr b 1) i),
      (Z.testbit poly i); done.
Qed.

Lemma iter_bit_step_lxor n a b :
  Nat.iter n (bit_step poly) (Z.lxor a b) =
  Z.lxor (Nat.iter n (bit_step poly) a) (Nat.iter n (bit_step poly) b).
Proof. induction n as [|n IH]; [done|]. simpl. by rewrite IH, bit_step_lxor. Qed.

Lemma iter_bit_step_shiftl n a :
  Nat.iter n (bit_step poly) (Z.shiftl a (Z.of_nat n)) = a.
Proof.
  induction n as [|n IH]; [apply Z.shiftl_0_r|].
  rewrite Nat.iter_succ_r. rewrite <- IH at 2. f_equal. unfold bit_step.
  rewrite Z.shiftl_spec_low by lia. rewrite Z.shiftr_shiftl_l by lia.
  f_equal. lia.
Qed.

(** Eight shifts are one table lookup on the low byte. *)
Lemma byte_step_table c d : is_byte d →
  byte_step poly c d =
  Z.lxor (Z.shiftr c 8) (Nat.iter 8 (bit_step poly) (Z.lxor d (Z.land c 255))).
Proof.
  intros Hd. unfold byte_step.
  assert (Z.lxor c d = Z.lxor (Z.shiftl (Z.shiftr c 8) 8) (Z.lxor d (Z.land c 255))) as ->.
  { bitwise i. change 255 with (Z.ones 8).
    destruct (decide (i < 8)).
    - rewrite Z.ones_spec_low by lia. rewrite (Z.testbit_neg_r _ (i - 8)) by lia.
      rewrite andb_true_r, xorb_false_l. apply xorb_comm.
    - rewrite Z.ones_spec_high by lia. rewrite Z.shiftr_spec by lia.
      rewrite (testbit_small d 8) by (unfold is_byte in Hd; lia).
      rewrite andb_false_r, !xorb_false_r. f_equal. lia. }
  rewrite iter_bit_step_lxor. f_equal. apply (iter_bit_step_shiftl 8).
Qed.
End BitSerial.

(** ** [msgproto.Crc16_ccitt] *)

(** The loop body of [Crc16_ccitt]. *)
Definition ccitt_step (_crc data : Z) : Z :=
  let data := Z.lxor data (Z.land _crc 0xff) in
  let data := Z.lxor data (Z.shiftl (Z.land data 0x0f) 4) in
  Z.lxor (Z.lxor (Z.lor (Z.shiftl data 8) (Z.shiftr _crc 8)) (Z.shiftr data 4))
    (Z.shiftl data 3).

Definition crc16_ccitt_reg (buf : list Z) : Z := fold_left ccitt_step buf 0xffff.

Definition Crc16_ccitt (buf : list Z) : list Z :=
  let _crc := crc16_ccitt_reg buf in
  [Z.shiftr _crc 8; Z.land _crc 0xff].

(** ** [filament.CalcCRC] *)

(** The loop body of [CalcCRC], in [uint16] arithmetic. *)
Definition ace_step (crc b : Z) : Z :=
  let data := u16 b in
  let data := Z.lxor data (Z.land crc 0xff) in
  let data := Z.lxor data (u16 (Z.shiftl (Z.land data 0x0f) 4)) in
  Z.lxor (Z.lxor (Z.lor (u16 (Z.shiftl data 8)) (Z.shiftr crc 8)) (Z.shiftr data 4))
    (u16 (Z.shiftl data 3)).

Definition CalcCRC (buf : list Z) : Z := fold_left ace_step buf 0xffff.

(** ** [ace_v2.calculateCRC16] *)

(** One iteration of the inner loop. *)
Definition modbus_bit (crc : Z) : Z :=
  if negb (Z.land crc 0x0001 =? 0)
  then Z.lxor (Z.shiftr crc 1) 0xA001
  else Z.shiftr crc 1.

(** The outer loop body: [crc ^= uint16(b)] and eight inner iterations. *)
Definition modbus_step (crc b : Z) : Z :=
  Nat.iter 8 modbus_bit (Z.lxor crc (u16 b)).

Definition calculateCRC16 (data : list Z) : Z := fold_left modbus_step data 0xFFFF.

(** ** The routines implement the interface *)

(** The reference polynomials: CRC-16/MCRF4XX and CRC-16/MODBUS. *)
Definition poly_ccitt : Z := 0x8408.
Definition poly_modbus : Z := 0xA001.

Definition table (poly b : Z) : Z := Nat.iter 8 (bit_step poly) b.

(** Each table is a 16-bit value whose high half is a permutation of the bytes. *)
Definition table_ok (poly : Z) : bool :=
  all_below 256 (λ b, (0 <=? table poly b) && (table poly b <? 65536)) &&
  bool_decide (NoDup ((λ n, Z.shiftr (table poly (Z.of_nat n)) 8) <$> seq 0 256)).

Lemma table_ok_bound poly b :
  table_ok poly = true → is_byte b → 0 ≤ table poly b < 65536.
Proof.
  unfold table_ok, is_byte. intros [H _]%andb_true_iff Hb.
  apply (all_below_spec 256 _ b) in H; [cbv beta in H; lia|lia].
Qed.

Lemma table_ok_inj poly b1 b2 :
  table_ok poly = true → is_byte b1 → is_byte b2 →
  Z.shiftr (table poly b1) 8 = Z.shiftr (table poly b2) 8 → b1 = b2.
Proof.
  unfold table_ok, is_byte. intros [_ H]%andb_true_iff H1 H2 Heq.
  apply bool_decide_eq_true in H. rewrite NoDup_alt in H.
  assert (Z.to_nat b1 = Z.to_nat b2); [|lia].
  eapply H; rewrite list_lookup_fmap, lookup_seq_lt by lia; simpl; [done|].
  by rewrite !Z2Nat.id by lia; rewrite Heq.
Qed.

Lemma table_crc poly (step : Z → Z → Z) :
  table_ok poly = true →
  (∀ c d, 0 ≤ c < 65536 → is_byte d → step c d = byte_step poly c d) →
  TableCrc step (table poly).
Proof.
  intros Hok Hstep. split.
  - intros c d Hc Hd. rewrite Hstep by done. by apply byte_step_table.
  - intros b. by apply table_ok_bound.
  - intros b1 b2. by apply table_ok_inj.
Qed.

Lemma table_ok_ccitt : table_ok poly_ccitt = true.
Proof. vm_compute. reflexivity. Qed.
Lemma table_ok_modbus : table_ok poly_modbus = true.
Proof. vm_compute. reflexivity. Qed.

(** The nibble trick of [Crc16_ccitt] is the table of its polynomial. *)
Lemma ccitt_fold_table b : is_byte b → ccitt_step 0 b = table poly_ccitt b.
Proof.
  unfold is_byte. intros. apply Z.eqb_eq.
  by_evaluation 256%nat (λ b, ccitt_step 0 b =? table poly_ccitt b) b.
Qed.

Lemma ccitt_step_split c d : 0 ≤ c < 65536 → is_byte d →
  ccitt_step c d = Z.lxor (Z.shiftr c 8) (ccitt_step 0 (Z.lxor d (Z.land c 255))).
Proof.
  intros Hc Hd. unfold ccitt_step. change (Z.land 0 255) with 0.
  change (Z.shiftr 0 8) with 0. rewrite Z.lxor_0_r, Z.lor_0_r.
  set (x := Z.lxor _ (Z.shiftl (Z.land _ 15) 4)).
  assert (Z.lor (Z.shiftl x 8) (Z.shiftr c 8) = Z.lxor (Z.shiftr c 8) (Z.shiftl x 8)) as ->.
  { rewrite Z.lxor_comm. symmetry. apply Z.lxor_lor.
    bitwise i. destruct (decide (i < 8)).
    - by rewrite (Z.testbit_neg_r x) by lia.
    - rewrite (testbit_small c 16) by lia. apply andb_false_r. }
  by rewrite !Z.lxor_assoc.
Qed.

Lemma ccitt_step_ref c d : 0 ≤ c < 65536 → is_byte d →
  ccitt_step c d = byte_step poly_ccitt c d.
Proof.
  intros Hc Hd. rewrite ccitt_step_split, ccitt_fold_table, byte_step_table; try done.
  by apply low_byte.
Qed.

Lemma ace_step_ccitt c d : 0 ≤ c < 65536 → is_byte d → ace_step c d = ccitt_step c d.
Proof.
  intros Hc Hd. unfold ace_step, ccitt_step. unfold is_byte in Hd.
  rewrite (u16_id d) by lia.
  pose proof (low_byte c d Hd) as Hb. unfold is_byte in Hb.
  set (b := Z.lxor d (Z.land c 255)) in *.
  assert (Hx : all_below 256 (λ b,
    let x := Z.lxor b (Z.shiftl (Z.land b 15) 4) in
    (u16 (Z.shiftl (Z.land b 15) 4) =? Z.shiftl (Z.land b 15) 4) &&
    (u16 (Z.shiftl x 8) =? Z.shiftl x 8) && (u16 (Z.shiftl x 3) =? Z.shiftl x 3)) = true)
    by (vm_compute; reflexivity).
  apply (all_below_spec 256 _ b) in Hx; [|lia].
  apply andb_true_iff in Hx as [[H1 H2]%andb_true_iff H3].
  apply Z.eqb_eq in H1, H2, H3. by rewrite H1, H2, H3.
Qed.

Lemma modbus_bit_ref c : modbus_bit c = bit_step poly_modbus c.
Proof.
  unfold modbus_bit, bit_step. rewrite Z.bit0_odd.
  change (Z.land c 1) with (Z.land c (Z.ones 1)). rewrite Z.land_ones by lia.
  change (2 ^ 1) with 2. rewrite Zmod_odd. by destruct (Z.odd c).
Qed.

Lemma modbus_step_ref c d : is_byte d → modbus_step c d = byte_step poly_modbus c d.
Proof.
  intros Hd. unfold is_byte in Hd. unfold modbus_step, byte_step.
  rewrite u16_id by lia. simpl. by rewrite !modbus_bit_ref.
Qed.

#[global] Instance ccitt_table_crc : TableCrc ccitt_step (table poly_ccitt).
Proof. apply table_crc; [apply table_ok_ccitt|apply ccitt_step_ref]. Qed.

#[global] Instance ace_table_crc : TableCrc ace_step (table poly_ccitt).
Proof.
  apply table_crc; [apply table_ok_ccitt|]. intros. rewrite ace_step_ccitt by done.
  by apply ccitt_step_ref.
Qed.

#[global] Instance modbus_table_crc : TableCrc modbus_step (table poly_modbus).
Proof. apply table_crc; [apply table_ok_modbus|]. intros. by apply modbus_step_ref. Qed.

(** The bit-serial checksum of a whole buffer. *)
Definition crc16_ref (poly : Z) (buf : list Z) : Z := fold_left (byte_step poly) buf 0xffff.

Lemma fold_ref poly step (tbl : Z → Z) `{!TableCrc step tbl} :
  (∀ c d, 0 ≤ c < 65536 → is_byte d → step c d = byte_step poly c d) →
  ∀ buf c, 0 ≤ c < 65536 → Forall is_byte buf →
  fold_left step buf c = fold_left (byte_step poly) buf c.
Proof.
  intros Hstep buf. induction buf as [|d buf IH]; intros c Hc Hb; [done|].
  inversion_clear Hb. simpl. rewrite IH, Hstep; try done. by eapply (step_bound step tbl).
Qed.

Lemma crc16_ccitt_reg_bound buf :
  Forall is_byte buf → 0 ≤ crc16_ccitt_reg buf < 65536.
Proof. intros. apply (fold_bound ccitt_step (table poly_ccitt)); [lia|done]. Qed.

Lemma Crc16_ccitt_bytes buf : Forall is_byte buf → Forall is_byte (Crc16_ccitt buf).
Proof.
  intros Hb. pose proof (crc16_ccitt_reg_bound buf Hb) as Hr. unfold Crc16_ccitt.
  apply Forall_cons_2; [|apply Forall_cons_2; [|constructor]]; unfold is_byte.
  - by apply high_byte.
  - rewrite land_255. dlia.
Qed.

Lemma Crc16_ccitt_inj buf1 buf2 :
  Crc16_ccitt buf1 = Crc16_ccitt buf2 → crc16_ccitt_reg buf1 = crc16_ccitt_reg buf2.
Proof. unfold Crc16_ccitt. intros [= Hh Hl]. by apply join_bytes. Qed.

(** C26. On bytes, the three table-free and bitwise checksum routines compute the bit-serial
    CRC-16 of their polynomial: Crc16_ccitt (high byte first) and CalcCRC the reflected
    CCITT one, calculateCRC16 the Modbus one. *)
Theorem crc_routines_match_reference (buf : list Z) :
  Forall is_byte buf →
  Crc16_ccitt buf = [Z.shiftr (crc16_ref poly_ccitt buf) 8; Z.land (crc16_ref poly_ccitt buf) 255] ∧
  CalcCRC buf = crc16_ref poly_ccitt buf ∧
  calculateCRC16 buf = crc16_ref poly_modbus buf.
Proof.
  intros Hb. unfold Crc16_ccitt, crc16_ccitt_reg, CalcCRC, calculateCRC16, crc16_ref.
  split_and!.
  - by rewrite (fold_ref poly_ccitt ccitt_step (table poly_ccitt)); [|apply ccitt_step_ref|lia|done].
  - apply (fold_ref poly_ccitt ace_step (table poly_ccitt)); [|lia|done].
    intros. rewrite ace_step_ccitt by done. by apply ccitt_step_ref.
  - apply (fold_ref poly_modbus modbus_step (table poly_modbus)); [|lia|done].
    intros. by apply modbus_step_ref.
Qed.

Lemma crc_routines_match_reference_witness :
  Crc16_ccitt [5; 16; 1; 2; 3; 4] = [109; 248] ∧
  CalcCRC [5; 16; 1; 2; 3; 4] = crc16_ref poly_ccitt [5; 16; 1; 2; 3; 4].
Proof.
  split; [vm_compute; reflexivity|].
  apply (crc_routines_match_reference [5; 16; 1; 2; 3; 4]).
  repeat constructor; unfold is_byte; lia.
Defined.
