(* ===== verification/Msgproto.v ===== *)
(** * The MCU wire protocol: variable length quantities and message blocks

    [src/internal/pkg/msgproto/msgproto.go], the byte level: [PT_uint32.Encode]
    and [PT_uint32.Parse] (module [Vlq]), and the message block that frames a
    command, [Encode_msgblock] and [Check_packet] (module [Block]). *)

From S2P Require Import Prelude Crc.

Module Vlq.

(** [PT_uint32.Encode] on an [int64]: appends to [out]. *)
Definition encode (out : list Z) (v : Z) : list Z :=
  let out := if (0xc000000 <=? v) || (v <? -0x4000000)
             then out ++ [Z.lor (Z.land (Z.shiftr v 28) 0x7f) 0x80] else out in
  let out := if (0x180000 <=? v) || (v <? -0x80000)
             then out ++ [Z.lor (Z.land (Z.shiftr v 21) 0x7f) 0x80] else out in
  let out := if (0x3000 <=? v) || (v <? -0x1000)
             then out ++ [Z.lor (Z.land (Z.shiftr v 14) 0x7f) 0x80] else out in
  let out := if (0x60 <=? v) || (v <? -0x20)
             then out ++ [Z.lor (Z.land (Z.shiftr v 7) 0x7f) 0x80] else out in
  out ++ [Z.land v 0x7f].

(** The first byte: seven bits, the upper quarter of them negative. *)
Definition first (c : Z) : Z :=
  let v := Z.land c 0x7f in
  if Z.land c 0x60 =? 0x60 then Z.lor v (-0x20) else v.

(** The continuation loop; [rest] is what follows [c] in the buffer. *)
Fixpoint loop (rest : list Z) (c v pos : Z) : go (Z * Z) :=
  if negb (Z.land c 0x80 =? 0x80) then Ret (v, pos)
  else match rest with
       | [] => Panic "index out of range"
       | c' :: rest' =>
           loop rest' c' (i64 (Z.lor (i64 (Z.shiftl v 7)) (Z.land c' 0x7f))) (pos + 1)
       end.

(** [PT_uint32.Parse]. *)
Definition parse (signed : bool) (s : list Z) (pos : Z) : go (Z * Z) :=
  c ← s.[pos];
  '(v, pos') ← loop (drop (Z.to_nat (pos + 1)) s) c (first c) (pos + 1);
  Ret (if signed then v else Z.land v 0xffffffff, pos').

(** ** Lemmas *)

(** The byte of [v] that carries bits [7k .. 7k+6], without and with the
    continuation bit. *)
Definition low7 (v k : Z) : Z := Z.land (Z.shiftr v (7 * k)) 0x7f.

Lemma low7_range v k : 0 ≤ low7 v k < 128.
Proof. unfold low7. rewrite land_127. apply Z.mod_pos_bound. lia. Qed.

Lemma cont_byte v k :
  Z.lor (low7 v k) 0x80 = low7 v k + 128 ∧
  Z.land (Z.lor (low7 v k) 0x80) 0x80 = 0x80 ∧
  Z.land (Z.lor (low7 v k) 0x80) 0x7f = low7 v k ∧
  first (Z.lor (low7 v k) 0x80) = first (low7 v k).
Proof.
  pose proof (low7_range v k) as Hr. generalize dependent (low7 v k). intros x Hx.
  assert (H : all_below 128 (λ x, (Z.lor x 128 =? x + 128) && (Z.land (Z.lor x 128) 128 =? 128)
    && (Z.land (Z.lor x 128) 127 =? x) && (first (Z.lor x 128) =? first x)) = true)
    by (vm_compute; reflexivity).
  apply (all_below_spec 128 _ x) in H; [|lia]. cbv beta in H.
  rewrite !andb_true_iff, !Z.eqb_eq in H. tauto.
Qed.

Lemma last_byte v : Z.land (Z.land v 0x7f) 0x80 = 0 ∧ Z.land (Z.land v 0x7f) 0x7f = Z.land v 0x7f.
Proof.
  split; rewrite <- Z.land_assoc; [by rewrite Z.land_0_r|done].
Qed.

(** The first byte restores the sign of the seven leading bits. *)
Lemma first_low7 v k :
  0 ≤ k → - 32 * 2 ^ (7 * k) ≤ v < 96 * 2 ^ (7 * k) → first (low7 v k) = Z.shiftr v (7 * k).
Proof.
  intros Hk Hv. rewrite Z.shiftr_div_pow2 by lia.
  assert (Hq : -32 ≤ v / 2 ^ (7 * k) < 96).
  { pose proof (Z.pow_pos_nonneg 2 (7 * k) ltac:(lia) ltac:(lia)).
    split; [apply Z.div_le_lower_bound|apply Z.div_lt_upper_bound]; lia. }
  unfold low7. rewrite Z.shiftr_div_pow2, land_127 by lia.
  set (q := v / 2 ^ (7 * k)) in *.
  assert (H : all_below 128 (λ x, first ((x - 32) mod 128) =? x - 32) = true)
    by (vm_compute; reflexivity).
  apply (all_below_spec 128 _ (q + 32)) in H; [|lia]. cbv beta in H.
  replace (q + 32 - 32) with q in H by lia. by apply Z.eqb_eq.
Qed.

(** One turn of the loop appends the next seven bits. *)
Lemma acc_step v k :
  0 ≤ k → - 2 ^ 62 ≤ v < 2 ^ 62 →
  i64 (Z.lor (i64 (Z.shiftl (Z.shiftr v (7 * (k + 1))) 7)) (low7 v k)) = Z.shiftr v (7 * k).
Proof.
  intros Hk Hv.
  assert (Hs : Z.shiftl (Z.shiftr v (7 * (k + 1))) 7 = Z.shiftr v (7 * k) - low7 v k).
  { unfold low7. rewrite land_127. replace (7 * (k + 1)) with (7 * k + 7) by lia.
    rewrite <- Z.shiftr_shiftr by lia. generalize (Z.shiftr v (7 * k)). intros w.
    rewrite Z.shiftl_mul_pow2, Z.shiftr_div_pow2 by lia. change (2 ^ 7) with 128. dlia. }
  assert (Hr : - 2 ^ 62 ≤ Z.shiftr v (7 * k) < 2 ^ 62).
  { rewrite Z.shiftr_div_pow2 by lia.
    pose proof (Z.pow_pos_nonneg 2 (7 * k) ltac:(lia) ltac:(lia)).
    split; [apply Z.div_le_lower_bound|apply Z.div_lt_upper_bound]; nia. }
  pose proof (low7_range v k) as Hl.
  rewrite (i64_id (Z.shiftl _ 7)) by lia. rewrite lor_shiftl_add by lia.
  rewrite <- Z.shiftl_mul_pow2 by lia. rewrite Hs, i64_id; lia.
Qed.

(** The bytes before the last one, for a value of [n + 1] bytes. *)
Fixpoint conts (v : Z) (n : nat) : list Z :=
  match n with
  | O => []
  | S n' => Z.lor (low7 v (Z.of_nat n)) 0x80 :: conts v n'
  end.

Lemma len_conts v n : len (conts v n) = Z.of_nat n.
Proof. induction n as [|n IH]; [done|]. simpl conts. rewrite len_cons, IH. lia. Qed.

(** [encode] only appends. *)
Lemma encode_app out v : encode out v = out ++ encode [] v.
Proof. unfold encode. repeat case_match; by rewrite <- ?app_assoc. Qed.

(** An encoding is one to five bytes, as many as the value needs. *)
Lemma encode_shape v : ∃ n : nat,
  (n ≤ 4)%nat ∧ encode [] v = conts v n ++ [Z.land v 0x7f] ∧
  (- 32 * 2 ^ 28 ≤ v < 96 * 2 ^ 28 →
   - 32 * 2 ^ (7 * Z.of_nat n) ≤ v < 96 * 2 ^ (7 * Z.of_nat n)) ∧
  (n = O ∨ v < - 32 * 2 ^ (7 * (Z.of_nat n - 1)) ∨ 96 * 2 ^ (7 * (Z.of_nat n - 1)) ≤ v).
Proof.
  unfold encode.
  destruct ((0xc000000 <=? v) || (v <? -0x4000000)) eqn:E4;
  destruct ((0x180000 <=? v) || (v <? -0x80000)) eqn:E3; try lia;
  destruct ((0x3000 <=? v) || (v <? -0x1000)) eqn:E2; try lia;
  destruct ((0x60 <=? v) || (v <? -0x20)) eqn:E1; try lia;
    [exists 4%nat|exists 3%nat|exists 2%nat|exists 1%nat|exists 0%nat];
    (split; [lia|]); (split; [done|]); simpl Z.of_nat; lia.
Qed.

(** From a continuation byte on, the loop reads the rest of the value. *)
Lemma loop_conts n v c rest pos :
  - 2 ^ 62 ≤ v < 2 ^ 62 → Z.land c 0x80 = 0x80 →
  loop (conts v n ++ Z.land v 0x7f :: rest) c (Z.shiftr v (7 * (Z.of_nat n + 1))) pos =
  Ret (v, pos + Z.of_nat n + 1).
Proof.
  intros Hv. revert c pos. induction n as [|n IH]; intros c pos Hc; cbn [conts app loop];
    rewrite Hc; simpl negb; cbv iota.
  - destruct (last_byte v) as [Hb ->].
    pose proof (acc_step v 0 ltac:(lia) Hv) as Ha. unfold low7 in Ha.
    rewrite Z.shiftr_0_r in Ha. change (7 * (Z.of_nat 0 + 1)) with (7 * (0 + 1)).
    rewrite Ha.
    destruct rest; cbn [loop]; rewrite Hb; simpl; do 2 f_equal; lia.
  - destruct (cont_byte v (Z.of_nat (S n))) as (_ & Hb & -> & _).
    rewrite acc_step by lia.
    replace (Z.of_nat (S n)) with (Z.of_nat n + 1) by lia.
    rewrite IH; [do 2 f_equal; lia|].
    by replace (Z.of_nat n + 1) with (Z.of_nat (S n)) by lia.
Qed.

(** The decoder on an encoded value, anywhere in a buffer. *)
Lemma parse_encode signed pre v rest :
  - 32 * 2 ^ 28 ≤ v < 96 * 2 ^ 28 →
  parse signed (pre ++ encode [] v ++ rest) (len pre) =
  Ret (if signed then v else v mod 2 ^ 32, len pre + len (encode [] v)).
Proof.
  intros Hv.
  destruct (encode_shape v) as (n & Hn & -> & Hr & _). specialize (Hr Hv).
  unfold parse. rewrite index_app_r by lia. rewrite Z.sub_diag.
  replace (drop (Z.to_nat (len pre + 1)) (pre ++ (conts v n ++ [Z.land v 127]) ++ rest))
    with (drop 1 ((conts v n ++ [Z.land v 127]) ++ rest)).
  2: { unfold len. rewrite (drop_app_ge pre) by lia. f_equal. lia. }
  rewrite len_app, len_conts, len_one.
  destruct n as [|n]; cbn [conts app drop skipn].
  - rewrite index_0. cbn [mbind go_bind].
    assert (first (Z.land v 127) = v) as ->.
    { rewrite <- (Z.shiftr_0_r v) at 1 2. apply (first_low7 v 0); lia. }
    destruct (last_byte v) as [Hb _].
    assert (∀ r w p, loop r (Z.land v 127) w p = Ret (w, p)) as ->.
    { intros [|? r] w p; cbn [loop]; by rewrite Hb. }
    cbn. by rewrite land_u32.
  - rewrite index_0. cbn [mbind go_bind].
    destruct (cont_byte v (Z.of_nat (S n))) as (_ & Hb & _ & ->).
    rewrite first_low7 by lia. rewrite <- app_assoc. cbn [app].
    replace (7 * Z.of_nat (S n)) with (7 * (Z.of_nat n + 1)) by lia.
    rewrite drop_0, loop_conts by (done || lia). cbn. rewrite land_u32. do 2 f_equal. lia.
Qed.

(** Every byte of an encoding but the last carries the continuation bit. *)
Lemma encode_bytes v : Forall is_byte (encode [] v).
Proof.
  destruct (encode_shape v) as (n & _ & -> & _). apply Forall_app. split.
  - induction n as [|n IH]; constructor; [|done].
    destruct (cont_byte v (Z.of_nat (S n))) as (-> & _).
    pose proof (low7_range v (Z.of_nat (S n))). unfold is_byte. lia.
  - repeat constructor; rewrite land_127; dlia.
Qed.

Lemma encode_len v : 1 ≤ len (encode [] v) ≤ 5.
Proof.
  destruct (encode_shape v) as (n & Hn & -> & _).
  rewrite len_app, len_conts, len_one. lia.
Qed.

(** The number of bytes an encoding has, from the size of the value. *)
Lemma encode_len_le v n :
  0 ≤ n ≤ 4 → - 32 * 2 ^ (7 * n) ≤ v < 96 * 2 ^ (7 * n) → len (encode [] v) ≤ n + 1.
Proof.
  intros Hn Hv. destruct (encode_shape v) as (m & Hm & -> & _ & Hlow).
  rewrite len_app, len_conts, len_one.
  destruct (decide (n < Z.of_nat m)); [|lia].
  assert (2 ^ (7 * n) ≤ 2 ^ (7 * (Z.of_nat m - 1))) by (apply Z.pow_le_mono_r; lia).
  destruct Hlow as [->|[?|?]]; lia.
Qed.

(** The loop stops at the first byte without the continuation bit. *)
Lemma loop_returns rest c v pos :
  returns (loop rest c v pos) = existsb (λ b, negb (Z.land b 0x80 =? 0x80)) (c :: rest).
Proof.
  revert c v pos. induction rest as [|c' rest IH]; intros c v pos; cbn [loop].
  - simpl. by destruct (Z.land c 128 =? 128).
  - specialize (IH c'). cbn [existsb] in IH |- *.
    destruct (Z.land c 128 =? 128); [|done]. apply IH.
Qed.

(** C21. A value between -2^33 and 96*2^28 written by PT_uint32.Encode is read back by Parse
    at any position of any buffer, as itself for the signed types and reduced to 32 bits
    for the unsigned ones, with the position moved past it; the encoding is made of
    bytes, at most five, three for 16-bit values and two for bytes (the Max_length of
    the types). *)
Theorem vlq_roundtrip (signed : bool) (pre rest : list Z) (v : Z) :
  - 2 ^ 33 ≤ v < 96 * 2 ^ 28 →
  parse signed (pre ++ encode [] v ++ rest) (len pre) =
    Ret (if signed then v else v mod 2 ^ 32, len pre + len (encode [] v)) ∧
  Forall is_byte (encode [] v) ∧ len (encode [] v) ≤ 5 ∧
  (- 2 ^ 15 ≤ v < 2 ^ 16 → len (encode [] v) ≤ 3) ∧
  (is_byte v → len (encode [] v) ≤ 2).
Proof.
  intros Hv. pose proof (encode_len v). unfold is_byte. split_and!.
  - apply parse_encode. lia.
  - apply encode_bytes.
  - lia.
  - intros. apply (encode_len_le v 2); lia.
  - intros. apply (encode_len_le v 1); lia.
Qed.

Lemma vlq_roundtrip_witness :
  parse true ([5; 16] ++ encode [] (-4097) ++ [126]) 2 = Ret (-4097, 5).
Proof.
  destruct (vlq_roundtrip true [5; 16] [126] (-4097) ltac:(lia)) as [H _].
  vm_compute in H |- *. exact H.
Defined.

(** PT_uint32.Parse returns, rather than index past the end of the buffer, exactly when
    the position is not negative and some byte at or after it has its continuation bit
    clear. *)
Theorem vlq_parse_returns_iff (signed : bool) (s : list Z) (pos : Z) :
  returns (parse signed s pos) = true ↔
  0 ≤ pos ∧ ∃ (i : nat) (c : Z),
    (Z.to_nat pos ≤ i)%nat ∧ s !! i = Some c ∧ Z.land c 0x80 ≠ 0x80.
Proof.
  unfold parse. destruct (s.[pos]) as [c|w] eqn:Ei.
  - apply index_Ret_inv in Ei as [Hpos Hc]. cbn [mbind go_bind].
    assert (Hret : returns ('(v, p) ← loop (drop (Z.to_nat (pos + 1)) s) c (first c) (pos + 1);
      Ret (if signed then v else Z.land v 0xffffffff, p)) =
      returns (loop (drop (Z.to_nat (pos + 1)) s) c (first c) (pos + 1)))
      by (by destruct (loop _ _ _ _) as [[]|]).
    rewrite Hret, loop_returns.
    replace (Z.to_nat (pos + 1)) with (S (Z.to_nat pos)) by lia.
    rewrite <- (drop_S s c (Z.to_nat pos) Hc). rewrite existsb_exists. split.
    + intros (b & Hin & Hb). apply list_elem_of_In, list_elem_of_lookup in Hin as [j Hj].
      rewrite lookup_drop in Hj. split; [lia|]. exists (Z.to_nat pos + j)%nat, b.
      split_and!; [lia|done|lia].
    + intros (_ & i & b & Hi & Hb & Hn). exists b. split; [|lia].
      apply list_elem_of_In, list_elem_of_lookup. exists (i - Z.to_nat pos)%nat.
      rewrite lookup_drop. by replace (Z.to_nat pos + (i - Z.to_nat pos))%nat with i by lia.
  - simpl. split; [done|]. intros (Hpos & i & c & Hi & Hc & _). exfalso.
    unfold index in Ei. rewrite bool_decide_true in Ei by done.
    apply lookup_lt_Some in Hc. destruct (s !! Z.to_nat pos) eqn:E; [done|].
    apply lookup_ge_None in E. lia.
Qed.
End Vlq.

Module Block.

Definition MESSAGE_MIN : Z := 5.
Definition MESSAGE_MAX : Z := 64.
Definition MESSAGE_HEADER_SIZE : Z := 2.
Definition MESSAGE_TRAILER_SIZE : Z := 3.
Definition MESSAGE_POS_LEN : Z := 0.
Definition MESSAGE_POS_SEQ : Z := 1.
Definition MESSAGE_TRAILER_CRC : Z := 3.
Definition MESSAGE_TRAILER_SYNC : Z := 1.
Definition MESSAGE_PAYLOAD_MAX : Z := MESSAGE_MAX - MESSAGE_MIN.
Definition MESSAGE_SEQ_MASK : Z := 0x0f.
Definition MESSAGE_DEST : Z := 0x10.
Definition MESSAGE_SYNC : Z := 0x7e.

(** [MessageParser.Encode_msgblock]. *)
Definition Encode_msgblock (seq : Z) (cmd : list Z) : list Z :=
  let msglen := MESSAGE_MIN + len cmd in
  let seq := Z.lor (Z.land seq MESSAGE_SEQ_MASK) MESSAGE_DEST in
  let out := [msglen; seq] in
  let out := out ++ cmd in
  let out := out ++ Crc16_ccitt out in
  out ++ [MESSAGE_SYNC].

(** [MessageParser.Check_packet]: the length of the packet at the front of
    [s], 0 when more data is needed, -1 when there is none. *)
Definition Check_packet (s : list Z) : go Z :=
  if len s <? MESSAGE_MIN then Ret 0 else
  msglen ← s.[MESSAGE_POS_LEN];
  if (msglen <? MESSAGE_MIN) || (MESSAGE_MAX <? msglen) then Ret (-1) else
  msgseq ← s.[MESSAGE_POS_SEQ];
  if negb (Z.land msgseq (Z.lnot MESSAGE_SEQ_MASK) =? MESSAGE_DEST) then Ret (-1) else
  if len s <? msglen then Ret 0 else
  sync ← s.[msglen - MESSAGE_TRAILER_SYNC];
  if negb (sync =? MESSAGE_SYNC) then Ret (-1) else
  msgcrc ← slice s (msglen - MESSAGE_TRAILER_CRC) (msglen - MESSAGE_TRAILER_CRC + 2);
  body ← slice s 0 (msglen - MESSAGE_TRAILER_SIZE);
  if bool_decide (Crc16_ccitt body = msgcrc) then Ret msglen else Ret (-1).

(** The part of a block the checksum covers. *)
Definition body (seq : Z) (cmd : list Z) : list Z :=
  [MESSAGE_MIN + len cmd; Z.lor (Z.land seq MESSAGE_SEQ_MASK) MESSAGE_DEST] ++ cmd.

Lemma Encode_msgblock_body seq cmd :
  Encode_msgblock seq cmd = body seq cmd ++ Crc16_ccitt (body seq cmd) ++ [MESSAGE_SYNC].
Proof. unfold Encode_msgblock, body. by rewrite <- app_assoc. Qed.

Lemma len_Crc16_ccitt buf : len (Crc16_ccitt buf) = 2.
Proof. done. Qed.

Lemma len_body seq cmd : len (body seq cmd) = 2 + len cmd.
Proof. unfold body. rewrite len_app. done. Qed.

Lemma len_Encode_msgblock seq cmd : len (Encode_msgblock seq cmd) = MESSAGE_MIN + len cmd.
Proof.
  rewrite Encode_msgblock_body, !len_app, len_body, len_Crc16_ccitt, len_one.
  unfold MESSAGE_MIN. lia.
Qed.

Lemma body_bytes seq cmd :
  Forall is_byte cmd → len cmd ≤ MESSAGE_PAYLOAD_MAX → Forall is_byte (body seq cmd).
Proof.
  unfold body, is_byte, MESSAGE_PAYLOAD_MAX, MESSAGE_MAX, MESSAGE_MIN. intros Hcmd Hlen.
  pose proof (len_nonneg cmd). constructor; [lia|]. constructor; [|done].
  apply (lor_bound _ _ 8); [lia| |unfold MESSAGE_DEST; lia].
  unfold MESSAGE_SEQ_MASK. rewrite land_15. dlia.
Qed.

(** The sequence byte of a block carries the destination tag. *)
Lemma seq_byte_dest seq :
  Z.land (Z.lor (Z.land seq MESSAGE_SEQ_MASK) MESSAGE_DEST) (Z.lnot MESSAGE_SEQ_MASK) = MESSAGE_DEST.
Proof.
  unfold MESSAGE_SEQ_MASK, MESSAGE_DEST. rewrite Z.land_lor_distr_l, <- Z.land_assoc.
  by rewrite Z.land_lnot_diag, Z.land_0_r.
Qed.

Lemma seq_byte_of_dest m :
  Z.land m (Z.lnot MESSAGE_SEQ_MASK) = MESSAGE_DEST →
  Z.lor (Z.land m MESSAGE_SEQ_MASK) MESSAGE_DEST = m.
Proof.
  intros <-. rewrite <- Z.land_lor_distr_r, Z.lor_lnot_diag. apply Z.land_m1_r.
Qed.

(** The checks of [Check_packet] on a buffer cut into header, payload,
    checksum, sync byte and what follows. *)
Lemma Check_packet_parts n m cmd crc sy rest :
  n = MESSAGE_MIN + len cmd → len cmd ≤ MESSAGE_PAYLOAD_MAX → len crc = 2 →
  Check_packet (([n; m] ++ cmd) ++ crc ++ [sy] ++ rest) =
  if negb (Z.land m (Z.lnot MESSAGE_SEQ_MASK) =? MESSAGE_DEST) then Ret (-1)
  else if negb (sy =? MESSAGE_SYNC) then Ret (-1)
  else if bool_decide (Crc16_ccitt ([n; m] ++ cmd) = crc) then Ret n else Ret (-1).
Proof.
  unfold MESSAGE_MIN, MESSAGE_PAYLOAD_MAX. intros Hn Hcmd Hcrc.
  unfold MESSAGE_MAX, MESSAGE_MIN in Hcmd. pose proof (len_nonneg cmd). pose proof (len_nonneg rest).
  unfold Check_packet.
  assert (Hlen : len (([n; m] ++ cmd) ++ crc ++ [sy] ++ rest) = n + len rest).
  { rewrite !len_app, !len_cons, !len_nil. lia. }
  rewrite Hlen. destruct (Z.ltb_spec (n + len rest) MESSAGE_MIN); [unfold MESSAGE_MIN in *; lia|].
  rewrite <- !app_assoc. cbn [app]. rewrite index_0. cbn [mbind go_bind].
  destruct ((n <? MESSAGE_MIN) || (MESSAGE_MAX <? n)) eqn:E;
    [unfold MESSAGE_MIN, MESSAGE_MAX in E; lia|].
  change (index (n :: m :: cmd ++ crc ++ sy :: rest) MESSAGE_POS_SEQ) with (Ret m).
  cbn [mbind go_bind]. destruct (negb _); [done|].
  destruct (Z.ltb_spec (n + len rest) n); [lia|].
  change (n :: m :: cmd ++ crc ++ sy :: rest) with (([n; m] ++ cmd) ++ crc ++ [sy] ++ rest).
  assert (Hb : len ([n; m] ++ cmd) = n - 3) by (rewrite len_app, !len_cons, len_nil; lia).
  rewrite (index_app_r ([n; m] ++ cmd)), (index_app_r crc)
    by (unfold MESSAGE_TRAILER_SYNC; lia).
  rewrite Hb, Hcrc. unfold MESSAGE_TRAILER_SYNC.
  replace (n - 1 - (n - 3) - 2) with 0 by lia.
  cbn [app]. rewrite index_0. cbn [mbind go_bind]. destruct (negb _); [done|].
  change (n :: m :: cmd ++ crc ++ sy :: rest) with (([n; m] ++ cmd) ++ crc ++ [sy] ++ rest).
  rewrite (slice_app_mid ([n; m] ++ cmd) crc ([sy] ++ rest)
    (n - MESSAGE_TRAILER_CRC) (n - MESSAGE_TRAILER_CRC + 2))
    by (rewrite Hb, ?Hcrc; unfold MESSAGE_TRAILER_CRC; lia).
  cbn [mbind go_bind].
  rewrite (slice_prefix ([n; m] ++ cmd)) by (rewrite Hb; unfold MESSAGE_TRAILER_SIZE; lia).
  done.
Qed.

(** Cuts a buffer that holds [n] bytes after its header. *)
Lemma cut_block (s : list Z) n :
  MESSAGE_MIN ≤ n → n ≤ 2 + len s →
  ∃ cmd a b sy rest, s = cmd ++ [a; b] ++ [sy] ++ rest ∧ n = MESSAGE_MIN + len cmd.
Proof.
  unfold MESSAGE_MIN, len. intros Hn Hl. exists (take (Z.to_nat (n - 5)) s).
  assert (Hd : (3 ≤ length (drop (Z.to_nat (n - 5)) s))%nat) by (rewrite length_drop; lia).
  destruct (drop (Z.to_nat (n - 5)) s) as [|a [|b [|sy rest]]] eqn:Ed; simpl in Hd; try lia.
  exists a, b, sy, rest. split; [|rewrite length_take; lia].
  rewrite <- (take_drop (Z.to_nat (n - 5)) s) at 1. by rewrite Ed.
Qed.

(** A buffer is incomplete, refused by its header, or holds a whole block. *)
Lemma Check_packet_cases s :
  Check_packet s = Ret 0 ∨ Check_packet s = Ret (-1) ∨
  ∃ n m cmd a b sy rest, s = ([n; m] ++ cmd) ++ [a; b] ++ [sy] ++ rest ∧
    n = MESSAGE_MIN + len cmd ∧ len cmd ≤ MESSAGE_PAYLOAD_MAX.
Proof.
  destruct (len s <? MESSAGE_MIN) eqn:Emin; [left; unfold Check_packet; by rewrite Emin|].
  destruct s as [|n [|m s]]; [done|done|].
  destruct ((n <? MESSAGE_MIN) || (MESSAGE_MAX <? n)) eqn:Erange.
  { right; left. unfold Check_packet. rewrite Emin. simpl. by rewrite Erange. }
  destruct (len (n :: m :: s) <? n) eqn:El.
  { unfold Check_packet. rewrite Emin. simpl. rewrite Erange. case_match; auto.
    rewrite El. auto. }
  right; right. rewrite !len_cons in El.
  destruct (cut_block s n) as (cmd & a & b & sy & rest & -> & Hn); [lia..|].
  exists n, m, cmd, a, b, sy, rest. split_and!; [done..|].
  unfold MESSAGE_PAYLOAD_MAX, MESSAGE_MAX, MESSAGE_MIN in *. lia.
Qed.

(** A buffer is accepted only if it starts with a block. *)
Lemma Check_packet_inv s n :
  Check_packet s = Ret n → 0 < n →
  ∃ m cmd rest, len cmd ≤ MESSAGE_PAYLOAD_MAX ∧ n = MESSAGE_MIN + len cmd ∧
    Z.land m (Z.lnot MESSAGE_SEQ_MASK) = MESSAGE_DEST ∧
    s = ([n; m] ++ cmd) ++ Crc16_ccitt ([n; m] ++ cmd) ++ [MESSAGE_SYNC] ++ rest.
Proof.
  intros H Hn. destruct (Check_packet_cases s)
    as [H'|[H'|(n' & m & cmd & a & b & sy & rest & -> & Hn' & Hcmd)]];
    [rewrite H in H'; injection H' as ->; lia..|].
  rewrite Check_packet_parts in H by done.
  destruct (Z.eqb_spec (Z.land m (Z.lnot MESSAGE_SEQ_MASK)) MESSAGE_DEST);
    simpl in H; [|simplify_eq; lia].
  destruct (Z.eqb_spec sy MESSAGE_SYNC) as [->|]; simpl in H; [|simplify_eq; lia].
  case_bool_decide as Hcrc; [|simplify_eq; lia]. injection H as <-.
  exists m, cmd, rest. split_and!; [done..|]. cbn [app]. by rewrite Hcrc.
Qed.

(** [Check_packet] reads nothing outside its buffer. *)
Lemma Check_packet_total s : returns (Check_packet s) = true.
Proof.
  destruct (Check_packet_cases s)
    as [->|[->|(n & m & cmd & a & b & sy & rest & -> & Hn & Hcmd)]]; [done..|].
  rewrite Check_packet_parts by done. by repeat case_match.
Qed.

(** C12. Check_packet accepts a buffer, with a positive length n, exactly when the buffer
    starts with the n bytes that Encode_msgblock produces for some sequence number below
    16 and some payload of at most 59 bytes. *)
Theorem Check_packet_iff_block (s : list Z) (n : Z) :
  (Check_packet s = Ret n ∧ 0 < n) ↔
  ∃ seq cmd rest, 0 ≤ seq < 16 ∧ len cmd ≤ MESSAGE_PAYLOAD_MAX ∧
    s = Encode_msgblock seq cmd ++ rest ∧ n = len (Encode_msgblock seq cmd).
Proof.
  split.
  - intros [H Hn]. destruct (Check_packet_inv s n H Hn) as (m & cmd & rest & Hc & Hlen & Hd & ->).
    exists (Z.land m MESSAGE_SEQ_MASK), cmd, rest.
    rewrite len_Encode_msgblock, Encode_msgblock_body. unfold body.
    rewrite <- Z.land_assoc. change (Z.land MESSAGE_SEQ_MASK MESSAGE_SEQ_MASK) with MESSAGE_SEQ_MASK.
    rewrite seq_byte_of_dest, <- Hlen by done. split_and!; try done.
    + apply Z.land_nonneg. unfold MESSAGE_SEQ_MASK. lia.
    + unfold MESSAGE_SEQ_MASK. rewrite land_15. by apply Z.mod_pos_bound.
    + by rewrite <- !app_assoc.
  - intros (seq & cmd & rest & _ & Hc & -> & ->). rewrite len_Encode_msgblock.
    pose proof (len_nonneg cmd). split; [|unfold MESSAGE_MIN; lia].
    rewrite Encode_msgblock_body, <- !app_assoc. unfold body at 1.
    rewrite Check_packet_parts by done. rewrite seq_byte_dest. simpl negb. cbv iota.
    by rewrite bool_decide_true.
Qed.

(** Any change confined to two adjacent bytes of the header or payload of a block,
    other than its length byte, makes Check_packet reject the block. *)
Theorem Check_packet_detects_corruption seq cmd pre a b a' b' suf rest :
  Forall is_byte cmd → len cmd ≤ MESSAGE_PAYLOAD_MAX →
  body seq cmd = pre ++ a :: b :: suf → pre ≠ [] →
  is_byte a' → is_byte b' → (a, b) ≠ (a', b') →
  Check_packet ((pre ++ a' :: b' :: suf) ++ Crc16_ccitt (body seq cmd) ++ [MESSAGE_SYNC] ++ rest)
    = Ret (-1).
Proof.
  intros Hcmd Hlen Hbody Hpre Ha' Hb' Hne.
  assert (Hbytes : Forall is_byte (body seq cmd)) by (by apply body_bytes).
  destruct pre as [|n pre]; [done|]. clear Hpre.
  assert (n = MESSAGE_MIN + len cmd) as -> by (unfold body in Hbody; simpl in Hbody; congruence).
  assert (Hl : len (body seq cmd) = len ((MESSAGE_MIN + len cmd :: pre) ++ a :: b :: suf))
    by (by rewrite Hbody).
  assert (Hm : ∃ m cmd', (MESSAGE_MIN + len cmd :: pre) ++ a' :: b' :: suf
                         = [MESSAGE_MIN + len cmd'; m] ++ cmd' ∧ len cmd' = len cmd).
  { rewrite len_body, len_app, !len_cons in Hl.
    destruct pre as [|m pre];
      [exists a', (b' :: suf); assert (Hc : len (b' :: suf) = len cmd)
      |exists m, (pre ++ a' :: b' :: suf); assert (Hc : len (pre ++ a' :: b' :: suf) = len cmd)];
      rewrite ?len_app, ?len_cons, ?len_nil in *; try lia; by rewrite <- Hc. }
  destruct Hm as (m & cmd' & Hm & Hl').
  rewrite Hbody in Hbytes. rewrite Hm, Check_packet_parts by (done || lia).
  repeat case_match; try done. case_bool_decide as Hcrc; [|done].
  exfalso. apply Hne. apply Crc16_ccitt_inj in Hcrc. rewrite <- Hm, Hbody in Hcrc.
  symmetry in Hcrc. unfold crc16_ccitt_reg in Hcrc.
  apply Forall_app in Hbytes as [Hp Hs]. inversion Hs as [|? ? Ha Hs']; subst.
  inversion Hs' as [|? ? Hb Hsuf]; subst.
  apply (fold_two_bytes ccitt_step (table poly_ccitt)) in Hcrc as [-> ->]; (done || lia).
Qed.

Lemma Check_packet_detects_corruption_witness :
  Check_packet ([7; 17; 66; 66] ++ Crc16_ccitt [7; 17; 1; 2] ++ [MESSAGE_SYNC] ++ []) = Ret (-1).
Proof.
  apply (Check_packet_detects_corruption 1 [1; 2] [7; 17] 1 2 66 66 [] []);
    by_decide.
Defined.
End Block.
