(* ===== verification/MsgFormat.v ===== *)
(** * Message formats and the message parser

    [src/internal/pkg/msgproto/msgproto.go] above the byte level: parameter
    types and enumerations, message and output formats, and the parser with
    its dictionaries ([MessageParser]).  Values that the code passes as
    [interface{}] are of type [gv], so a failing type assertion is a panic of
    the model too.

    Go iterates its maps in an unspecified order; where the code ranges over a
    map the definition takes the entries as a list, in the order in which the
    loop meets them. *)

From S2P Require Import Prelude GoFloat GoStrings Crc Msgproto.
From Stdlib Require Import Ascii String.
Import Block.
Open Scope list_scope.

(** ** Dynamic values *)

Inductive gv : Type :=
| GNil
| GInt (z : Z)
| GInt64 (z : Z)
| GFloat (f : f64)
| GStr (s : string)
| GInts (l : list Z)
| GInts64 (l : list Z).

(** ** Parameter types *)

Inductive pt : Type :=
| PT_uint32 | PT_int32 | PT_uint16 | PT_int16 | PT_byte
| PT_string | PT_progmem_buffer | PT_buffer
| Enumeration (Pt : pt) (Enum_name : string) (Enums : gmap string gv)
    (Reverse_enums : gmap Z string).

Definition Is_int (p : pt) : bool :=
  match p with
  | PT_uint32 | PT_int32 | PT_uint16 | PT_int16 | PT_byte => true
  | _ => false
  end.

Definition Is_dynamic_string (p : pt) : bool :=
  match p with PT_string | PT_progmem_buffer | PT_buffer => true | _ => false end.

Definition Signed (p : pt) : bool :=
  match p with PT_int32 | PT_int16 => true | _ => false end.

Fixpoint Get_max_length (p : pt) : Z :=
  match p with
  | PT_uint32 | PT_int32 => 5
  | PT_uint16 | PT_int16 => 3
  | PT_byte => 2
  | PT_string | PT_progmem_buffer | PT_buffer => 64
  | Enumeration q _ _ _ => Get_max_length q
  end.

(** [PT_uint32.Encode]: the dynamic value is an [int] or an [int64]. *)
Definition int_encode (out : list Z) (value : gv) : go (list Z) :=
  match value with
  | GInt v | GInt64 v => Ret (Vlq.encode out v)
  | _ => Panic "interface conversion: not int64"
  end.

(** [PT_string.Encode]: a length, then the elements. *)
Definition string_encode (out : list Z) (value : gv) : go (list Z) :=
  match value with
  | GInts64 v | GInts v => Ret (out ++ [len v] ++ v)
  | _ => Panic "interface conversion: not []int"
  end.

(** The [Encode] methods of the [PT] interface. *)
Fixpoint Encode (p : pt) (out : list Z) (value : gv) : go (list Z) :=
  match p with
  | PT_uint32 | PT_int32 | PT_uint16 | PT_int16 | PT_byte => int_encode out value
  | PT_string | PT_progmem_buffer | PT_buffer => string_encode out value
  | Enumeration q _ enums _ =>
      match value with
      | GStr k => match enums !! k with
                  | Some GNil | None => Panic "Enumeration_error"
                  | Some tv => Encode q out tv
                  end
      | _ => Panic "interface conversion: not string"
      end
  end.

(** [PT_string.Parse]: an overlong length yields an empty value and resets the
    position to 0. *)
Definition string_parse (s : list Z) (pos : Z) : go (gv * Z) :=
  l ← s.[pos];
  if len s <? pos + l + 1 then Ret (GInts [], 0)
  else v ← slice s (pos + 1) (pos + l + 1); Ret (GInts v, pos + l + 1).

(** The [Parse] methods of the [PT] interface. *)
Fixpoint Parse (p : pt) (s : list Z) (pos : Z) : go (gv * Z) :=
  match p with
  | PT_uint32 | PT_int32 | PT_uint16 | PT_int16 | PT_byte =>
      '(v, pos') ← Vlq.parse (Signed p) s pos; Ret (GInt64 v, pos')
  | PT_string | PT_progmem_buffer | PT_buffer => string_parse s pos
  | Enumeration q _ _ rev =>
      '(v, pos') ← Parse q s pos;
      match v with
      | GInt64 n =>
          match rev !! n with
          | Some k => Ret (GStr k, pos')
          | None => Ret (GStr ("?" ++ Itoa n)%string, pos')
          end
      | _ => Panic "interface conversion: not int64"
      end
  end.

(** [NewEnumeration]; the loop over [enums] fills the reverse map. *)
Definition reverse_enums (enums : list (string * gv)) : gmap Z string :=
  fold_left (λ rev '(k, v),
    match v with
    | GInt n => <[n := k]> rev
    | GFloat f => <[f_trunc f := k]> rev
    | _ => rev
    end) enums ∅.

Definition NewEnumeration (p : option pt) (enum_name : string)
    (enums : list (string * gv)) : go pt :=
  match p with
  | None => Panic "interface conversion: interface is nil"
  | Some q => Ret (Enumeration q enum_name (list_to_map enums) (reverse_enums enums))
  end.

(** [MessageTypes]. *)
Definition MessageTypes (fmt : string) : option pt :=
  if bool_decide (fmt = "%u"%string) then Some PT_uint32
  else if bool_decide (fmt = "%i"%string) then Some PT_int32
  else if bool_decide (fmt = "%hu"%string) then Some PT_uint16
  else if bool_decide (fmt = "%hi"%string) then Some PT_int16
  else if bool_decide (fmt = "%c"%string) then Some PT_byte
  else if bool_decide (fmt = "%s"%string) then Some PT_string
  else if bool_decide (fmt = "%.*s"%string) then Some PT_progmem_buffer
  else if bool_decide (fmt = "%*s"%string) then Some PT_buffer
  else None.

(** ** Format strings *)

Definition enumerations : Type := list (string * list (string * gv)).

(** The enumeration that a parameter name selects: the first match met. *)
Definition find_enum (name : string) (enums : enumerations) :
    option (string * list (string * gv)) :=
  List.find (λ '(enum_name, _),
    String.eqb name enum_name || HasSuffix name ("_" ++ enum_name)) enums.

(** One argument [name=fmt] of a format string. *)
Definition lookup_param (enums : enumerations) (arg : string) : go (string * option pt) :=
  let parts := Split "="%char arg in
  name ← parts.[0];
  fmt ← parts.[1];
  match find_enum name enums with
  | Some (enum_name, es) =>
      p ← NewEnumeration (MessageTypes fmt) enum_name es; Ret (name, Some p)
  | None => Ret (name, MessageTypes fmt)
  end.

(** [Lookup_params]. *)
Definition Lookup_params (msgformat : string) (enums : enumerations) :
    go (list (string * option pt)) :=
  range (λ out arg, if String.eqb arg "" then Ret out
                    else row ← lookup_param enums arg; Ret (out ++ [row]))
    [] (tail (Split " "%char msgformat)).

(** The inner loop of [Lookup_output_params]: the first of four substrings of
    growing length that names a type; reading past the end of the format
    panics. *)
Fixpoint find_output_type (n i : nat) (args : string) : go (option pt) :=
  match n with
  | O => Ret None
  | S n' =>
      if (String.length args <? i + 1)%nat then Panic "slice bounds out of range"
      else match MessageTypes (substring 0 (i + 1) args) with
           | Some t => Ret (Some t)
           | None => find_output_type n' (S i) args
           end
  end.

(** [Lookup_output_params]: a percent sign that is not doubled looks up its
    type, and finding one sets [break_flag], on which the code panics. *)
Fixpoint Lookup_output_params (args : string) : go (list pt) :=
  match args with
  | EmptyString => Ret []
  | String c rest =>
      if Ascii.eqb c "%"%char then
        match rest with
        | String "%" _ => Lookup_output_params rest
        | _ => t ← find_output_type 4 0 args;
               match t with
               | Some _ => Panic "Invalid output format"
               | None => Lookup_output_params rest
               end
        end
      else Lookup_output_params rest
  end.

(** [Convert_msg_format]. *)
Definition Convert_msg_format (msgformat : string) : string :=
  fold_left (λ ret cond, ReplaceAll ret cond "%s")
    ["%u"; "%i"; "%hu"; "%hi"; "%c"; "%.*s"; "%*s"]%string msgformat.

(** ** Message formats *)

Record MessageFormat := {
  msgid_bytes : list Z;
  Msgformat : string;
  Debugformat : string;
  Name : string;
  Param_names : list (string * option pt);
  Name_to_type : gmap string (option pt);
}.

(** [NewMessageFormat]. *)
Definition NewMessageFormat (msgid_bytes : list Z) (msgformat : string)
    (enums : enumerations) : go MessageFormat :=
  name ← (Split " "%char msgformat).[0];
  rows ← Lookup_params msgformat enums;
  Ret {| msgid_bytes := msgid_bytes;
         Msgformat := msgformat;
         Debugformat := Convert_msg_format msgformat;
         Name := name;
         Param_names := rows;
         Name_to_type := fold_left (λ m '(n, p), <[n := p]> m) rows ∅ |}.

(** The dynamic argument of [MessageFormat.Encode]. *)
Inductive enc_params := PList (l : list gv) | PInts64 (l : list Z) | POther.

(** One parameter of [MessageFormat.Encode]: a value of an unexpected dynamic
    type is skipped without an error. *)
Definition encode_param (params : enc_params) (out : list Z) (i : Z) (t : option pt) :
    go (list Z) :=
  match t with
  | None => Ret out
  | Some t =>
      match params with
      | PList l =>
          v ← l.[i];
          match v with
          | GInts _ | GInt _ | GInts64 _ | GInt64 _ => Encode t out v
          | _ => Ret out
          end
      | PInts64 l => v ← l.[i]; Encode t out (GInt64 v)
      | POther => Panic "error "
      end
  end.

(** [MessageFormat.Encode]. *)
Definition MessageFormat_Encode (mf : MessageFormat) (params : enc_params) : go (list Z) :=
  range_idx (encode_param params) 0 (msgid_bytes mf) (snd <$> Param_names mf).

(** [encode_by_name]: the type switch over the concrete parameter types. *)
Definition encode_by_name (out : list Z) (name : string) (t : option pt)
    (params : gmap string gv) : go (list Z) :=
  let value := default GNil (params !! name) in
  match t with
  | Some (PT_string | PT_buffer | PT_progmem_buffer) =>
      match value with
      | GInts l => string_encode out (GInts l)
      | _ => Panic "interface conversion: not []int"
      end
  | Some p => Encode p out value
  | None => Ret out
  end.

(** [MessageFormat.Encode_by_name]. *)
Definition Encode_by_name (mf : MessageFormat) (params : gmap string gv) : go (list Z) :=
  range (λ out '(name, t), encode_by_name out name t params) (msgid_bytes mf) (Param_names mf).

(** [MessageFormat.Parse]. *)
Definition parse_row (s : list Z) (st : gmap string gv * Z) (row : string * option pt) :
    go (gmap string gv * Z) :=
  let '(out, pos) := st in
  match row.2 with
  | None => Panic "interface conversion: interface is nil"
  | Some t => '(v, pos') ← Parse t s pos; Ret (<[row.1 := v]> out, pos')
  end.

Definition MessageFormat_Parse (mf : MessageFormat) (s : list Z) (pos : Z) :
    go (gmap string gv * Z) :=
  range (parse_row s) (∅, pos + len (msgid_bytes mf)) (Param_names mf).

Record OutputFormat := {
  o_msgid_bytes : list Z;
  o_Msgformat : string;
  o_Debugformat : string;
  o_Param_types : list pt;
}.

(** [NewOutputFormat]. *)
Definition NewOutputFormat (msgid_bytes : list Z) (msgformat : string) : go OutputFormat :=
  ts ← Lookup_output_params msgformat;
  Ret {| o_msgid_bytes := msgid_bytes; o_Msgformat := msgformat;
         o_Debugformat := Convert_msg_format msgformat; o_Param_types := ts |}.

(** [OutputFormat.Parse]: a dynamic string is asserted to be a Go string, which
    the parsed [[]int] is not.  The values are returned in order. *)
Definition OutputFormat_Parse (f : OutputFormat) (s : list Z) (pos : Z) : go (list gv * Z) :=
  range (λ '(out, pos) t,
    '(v, pos') ← Parse t s pos;
    if Is_dynamic_string t then Panic "interface conversion: not string"
    else Ret (out ++ [v], pos')) ([], pos + len (o_msgid_bytes f)) (o_Param_types f).

(** What a parsed message maps its names to: a parameter value, or the list of
    an output message. *)
Inductive pval := PV (v : gv) | PMsg (l : list gv).

(** [UnknownFormat.Parse]: the type of the identifier is an unsigned one, since
    the zero [PT_int32] is not signed. *)
Definition UnknownFormat_Parse (s : list Z) (pos : Z) : go (gmap string pval * Z) :=
  '(msgid, _) ← Vlq.parse false s pos;
  last ← (if len s - 1 =? pos then v ← s.[pos]; Ret (GInt v) else Ret (GInt64 msgid));
  Ret ({["#msgid"%string := PV last; "#msg"%string := PV (GInts s)]},
       len s - MESSAGE_TRAILER_SIZE).

Inductive IMessageFormat := FMsg (f : MessageFormat) | FOut (f : OutputFormat) | FUnknown.

Definition GetName (f : IMessageFormat) : string :=
  match f with FMsg f => Name f | FOut _ => "#output" | FUnknown => "#unknown" end.

Definition format_Parse (f : IMessageFormat) (s : list Z) (pos : Z) :
    go (gmap string pval * Z) :=
  match f with
  | FMsg f => '(m, p) ← MessageFormat_Parse f s pos; Ret ((PV <$> m) : gmap string pval, p)
  | FOut f => '(l, p) ← OutputFormat_Parse f s pos; Ret ({["#msg"%string := PMsg l]} : gmap string pval, p)
  | FUnknown => UnknownFormat_Parse s pos
  end.

(** ** The parser *)

Record MessageParser := {
  Enumerations : enumerations;
  Messages : list (Z * string * string);
  Messages_by_id : gmap Z IMessageFormat;
  Messages_by_name : gmap string MessageFormat;
  msgid_by_format : gmap string Z;
}.

(** [MessageParser.Parse]. *)
Definition parser_Parse (self : MessageParser) (s : list Z) : go (gmap string pval) :=
  '(msgid, _) ← Vlq.parse true s MESSAGE_HEADER_SIZE;
  let mid := default FUnknown (Messages_by_id self !! msgid) in
  '(params, pos) ← format_Parse mid s MESSAGE_HEADER_SIZE;
  if negb (pos =? len s - MESSAGE_TRAILER_SIZE) then Panic "Extra data at end of message"
  else Ret (<["#name"%string := PV (GStr (GetName mid))]> params).

(** The body of the loop of [Init_messages]. *)
Definition init_message (command_ids output_tags : list Z) (self : MessageParser)
    (entry : string * Z) : go MessageParser :=
  let '(msgformat, msgid) := entry in
  let msgtype := if bool_decide (msgid ∈ output_tags) then "output"%string
                 else if bool_decide (msgid ∈ command_ids) then "command"%string
                 else "response"%string in
  let msgid_bytes := Vlq.encode [] msgid in
  let messages := Messages self ++ [(msgid, msgtype, msgformat)] in
  let by_format := <[msgformat := msgid]> (msgid_by_format self) in
  if String.eqb msgtype "output" then
    f ← NewOutputFormat msgid_bytes msgformat;
    Ret {| Enumerations := Enumerations self;
           Messages := messages;
           Messages_by_id := <[msgid := FOut f]> (Messages_by_id self);
           Messages_by_name := Messages_by_name self;
           msgid_by_format := by_format |}
  else
    f ← NewMessageFormat msgid_bytes msgformat (Enumerations self);
    Ret {| Enumerations := Enumerations self;
           Messages := messages;
           Messages_by_id := <[msgid := FMsg f]> (Messages_by_id self);
           Messages_by_name := <[Name f := f]> (Messages_by_name self);
           msgid_by_format := by_format |}.

(** [MessageParser.Init_messages]. *)
Definition Init_messages (self : MessageParser) (messages : list (string * Z))
    (command_ids output_tags : list Z) : go MessageParser :=
  range (init_message command_ids output_tags) self messages.

Definition DefaultMessages : list (string * Z) :=
  [("identify_response offset=%u data=%.*s"%string, 0);
   ("identify offset=%u count=%c"%string, 1)].

(** [NewMessageParser]. *)
Definition NewMessageParser : go MessageParser :=
  Init_messages {| Enumerations := []; Messages := []; Messages_by_id := ∅;
                   Messages_by_name := ∅; msgid_by_format := ∅ |} DefaultMessages [] [].

(** [MessageParser.Parse_buffer]: the text is read as a decimal number. *)
Definition Parse_buffer (value : string) : list Z :=
  if String.eqb value "" then []
  else
    let tval := (Atoi value).1 in
    rev ((λ i, Z.land (Z.shiftr tval (8 * Z.of_nat i)) 0xff) <$>
         seq 0 (Nat.div (String.length value) 2)).

(** [MessageParser.Lookup_command]. *)
Definition Lookup_command (self : MessageParser) (msgformat : string) :
    go (string + MessageFormat) :=
  msgname ← (Split " "%char (TrimSpace msgformat)).[0];
  match Messages_by_name self !! msgname with
  | None => Ret (inl ("Unknown command: " ++ msgname)%string)
  | Some mp =>
      if String.eqb msgformat (Msgformat mp) then Ret (inr mp)
      else Ret (inl ("Command format mismatch: " ++ msgformat ++ " vs " ++ Msgformat mp)%string)
  end.

(** [MessageParser.lookup_msgid]. *)
Definition lookup_msgid (self : MessageParser) (msgformat : string) : go Z :=
  match msgid_by_format self !! msgformat with
  | Some msgid => Ret msgid
  | None => Panic ("Unknown command: " ++ msgformat)
  end.

(** The conversion of one textual argument in [Create_command]. *)
Definition convert_arg (t : pt) (value : string) : gv :=
  if Is_dynamic_string t then GInts (Parse_buffer value)
  else if Is_int t then GInt64 (ParseInt 64 value).1
  else GStr value.

Definition arg_type (mp : MessageFormat) (name : string) : option pt :=
  match Name_to_type mp !! name with Some (Some t) => Some t | _ => None end.

(** [MessageParser.Create_command]; an argument without a type makes the
    command empty. *)
Definition Create_command (self : MessageParser) (msg : string) : go (list Z) :=
  let parts := Split " "%char (TrimSpace msg) in
  msgname ← parts.[0];
  match Messages_by_name self !! msgname with
  | None => Ret []
  | Some mp =>
      argparts ← range (λ m arg,
        let args := Split "="%char arg in
        k ← args.[0]; v ← args.[1]; Ret (<[k := v]> m))
        (∅ : gmap string string) (tail parts);
      if forallb (λ '(name, _), bool_decide (is_Some (arg_type mp name)))
           (map_to_list argparts)
      then Encode_by_name mp (map_imap (λ name value,
             t ← arg_type mp name; Some (convert_arg t value)) argparts)
      else Ret []
  end.

(** [FindCommandTag]. *)
Definition FindCommandTag (allMsgs : list (Z * string * string)) (msgformat : string) :
    option Z :=
  (λ '(msgid, _, _), msgid) <$>
    List.find (λ '(_, _, fmt), String.eqb fmt msgformat) allMsgs.

(** ** The data dictionary *)

(** A decoded JSON document ([encoding/json] into [interface{}]). *)
Inductive json : Type :=
| JNull
| JBool (b : bool)
| JNum (f : f64)
| JStr (s : string)
| JArr (l : list json)
| JObj (l : list (string * json)).

Definition as_object (j : json) : go (list (string * json)) :=
  match j with JObj l => Ret l | _ => Panic "interface conversion: not map" end.
Definition as_number (j : json) : go f64 :=
  match j with JNum f => Ret f | _ => Panic "interface conversion: not float64" end.
Definition as_string (j : json) : go string :=
  match j with JStr s => Ret s | _ => Panic "interface conversion: not string" end.

Definition assoc {A} (k : string) (l : list (string * A)) : option A :=
  snd <$> List.find (λ '(k', _), String.eqb k' k) l.

(** Assignment to a map that is later iterated. *)
Definition assign {A} (k : string) (v : A) (l : list (string * A)) : list (string * A) :=
  List.filter (λ '(k', _), negb (String.eqb k' k)) l ++ [(k, v)].

(** The trailing digits of an enumeration name. *)
Fixpoint strip_number (s : string) : string :=
  match s with
  | EmptyString => EmptyString
  | String c s' => if is_number c then strip_number s' else s
  end.
Definition enum_root (enum : string) : string := rev_string (strip_number (rev_string enum)).

(** One entry of an enumeration: a number, or a range [[start, count]] of
    numbered names. *)
Definition fill_entry (enums : list (string * gv)) (entry : string * json) :
    go (list (string * gv)) :=
  let '(enum, val) := entry in
  match val with
  | JNum data => Ret (assign enum (GFloat data) enums)
  | JArr l =>
      let root := enum_root enum in
      let start_enum :=
        if (String.length root =? String.length enum)%nat then 0
        else (Atoi (drop_string (String.length root) enum)).1 in
      j0 ← l.[0]; start_value ← as_number j0;
      j1 ← l.[1]; count ← as_number j1;
      Ret (fold_left (λ es i,
             assign (root ++ Itoa (start_enum + Z.of_nat i))%string
               (GInt (f_trunc start_value + Z.of_nat i)) es)
           (seq 0 (Z.to_nat (f_trunc count))) enums)
  | _ => Panic "interface conversion: not []interface{}"
  end.

Definition with_enumerations (self : MessageParser) (e : enumerations) : MessageParser :=
  {| Enumerations := e; Messages := Messages self; Messages_by_id := Messages_by_id self;
     Messages_by_name := Messages_by_name self; msgid_by_format := msgid_by_format self |}.

(** [MessageParser.Fill_enumerations]. *)
Definition Fill_enumerations (self : MessageParser) (add : list (string * json)) :
    go MessageParser :=
  range (λ self '(add_name, add_enums),
    l ← as_object add_enums;
    enums ← range fill_entry [] l;
    Ret (with_enumerations self (assign add_name enums (Enumerations self)))) self add.

(** What [Process_identify] leaves behind. *)
Record identified := {
  id_parser : MessageParser;
  id_Config : list (string * json);
  id_Version : string;
  id_Build_versions : string;
}.

Definition read_tags (l : list (string * json)) : go (list (string * Z)) :=
  range (λ out '(k, j), f ← as_number j; Ret (out ++ [(k, f_trunc f)])) [] l.

Definition field (data : list (string * json)) (k : string) : json := default JNull (assoc k data).

(** [MessageParser.Process_identify] after decompression and [json.Unmarshal],
    on the decoded document; the [output] section is asserted to have a type
    that a decoded document never has. *)
Definition Process_identify (self : MessageParser) (config : list (string * json))
    (data : list (string * json)) : go identified :=
  enums ← as_object (default (JObj []) (assoc "enumerations" data));
  self ← Fill_enumerations self enums;
  commands ← as_object (field data "commands");
  responses ← as_object (field data "responses");
  output ← match assoc "output" data with
           | None => Ret ([] : list (string * Z))
           | Some _ => Panic "interface conversion: not map[string]int"
           end;
  cmds ← read_tags commands;
  resps ← read_tags responses;
  let all_messages := fold_left (λ m '(k, v), assign k v m) (cmds ++ resps ++ output) [] in
  self ← Init_messages self all_messages cmds.*2 output.*2;
  cfg ← match assoc "config" data with
        | None => Ret config
        | Some j => l ← as_object j;
                    Ret (fold_left (λ m '(k, v), assign k v m) l config)
        end;
  version ← as_string (field data "version");
  build ← as_string (field data "build_versions");
  Ret {| id_parser := self; id_Config := cfg; id_Version := version;
         id_Build_versions := build |}.
