(* ===== verification/MsgFormatThy.v ===== *)
(** * Message formats: properties

    What [MsgFormat] guarantees: encoding a message and parsing the framed
    result gives back its parameters, both for positional parameters
    ([MessageFormat.Encode]) and for parameters by name
    ([MessageFormat.Encode_by_name]), and a command written as text reaches the
    wire with the numbers it was written with. *)

From S2P Require Import Prelude GoFloat GoStrings Crc Msgproto MsgFormat.
From Stdlib Require Import Ascii.
Import Block.
Open Scope list_scope.

(** ** Values that survive the wire *)

(** What a value of type [p] is read back as, when it can be sent at all:
    integers in the range of a five-byte quantity, reduced to 32 bits unless
    the type is signed; buffers; enumeration names with an integer value. *)
Fixpoint decoded (p : pt) (v : gv) : option gv :=
  match p with
  | PT_uint32 | PT_int32 | PT_uint16 | PT_int16 | PT_byte =>
      match v with
      | GInt z | GInt64 z =>
          if bool_decide (- 32 * 2 ^ 28 ≤ z < 96 * 2 ^ 28)
          then Some (GInt64 (if Signed p then z else z mod 2 ^ 32)) else None
      | _ => None
      end
  | PT_string | PT_progmem_buffer | PT_buffer =>
      match v with GInts l | GInts64 l => Some (GInts l) | _ => None end
  | Enumeration q _ enums rev =>
      match v with
      | GStr k =>
          match enums !! k with
          | None | Some GNil => None
          | Some tv =>
              match decoded q tv with
              | Some (GInt64 n) =>
                  Some (GStr (default ("?" ++ Itoa n)%string (rev !! n)))
              | _ => None
              end
          end
      | _ => None
      end
  end.

Definition is_enum (p : pt) : bool :=
  match p with Enumeration _ _ _ _ => true | _ => false end.

(** [bs] is a faithful wire form of [v] at type [p]: encoding appends it and
    parsing it, wherever it stands, yields [v']. *)
Definition wire (p : pt) (v v' : gv) (bs : list Z) : Prop :=
  (∀ out, Encode p out v = Ret (out ++ bs)) ∧
  (∀ pre rest, Parse p (pre ++ bs ++ rest) (len pre) = Ret (v', len pre + len bs)).

Lemma int_wire p v :
  Is_int p = true → - 32 * 2 ^ 28 ≤ v < 96 * 2 ^ 28 →
  wire p (GInt v) (GInt64 (if Signed p then v else v mod 2 ^ 32)) (Vlq.encode [] v) ∧
  wire p (GInt64 v) (GInt64 (if Signed p then v else v mod 2 ^ 32)) (Vlq.encode [] v).
Proof.
  intros Hp Hv. split; split.
  1, 3: intros out; destruct p; try done; simpl; by rewrite Vlq.encode_app.
  all: intros pre rest; destruct p; try done; simpl; by rewrite Vlq.parse_encode.
Qed.

Lemma string_wire_parse l pre rest :
  string_parse (pre ++ (len l :: l) ++ rest) (len pre) =
  Ret (GInts l, len pre + len (len l :: l)).
Proof.
  unfold string_parse. rewrite index_app_r, Z.sub_diag by lia.
  cbn [app]. rewrite index_0. cbn [mbind go_bind].
  pose proof (len_nonneg rest).
  destruct (Z.ltb_spec (len (pre ++ len l :: l ++ rest)) (len pre + len l + 1)) as [Hlt|_].
  { rewrite len_app, len_cons, len_app in Hlt. lia. }
  replace (pre ++ len l :: l ++ rest) with ((pre ++ [len l]) ++ l ++ rest)
    by (by rewrite <- app_assoc).
  rewrite slice_app_mid by (rewrite len_app, len_one; lia). cbn [mbind go_bind].
  rewrite len_cons. do 2 f_equal. lia.
Qed.

Lemma string_wire p l :
  Is_dynamic_string p = true →
  wire p (GInts l) (GInts l) (len l :: l) ∧ wire p (GInts64 l) (GInts l) (len l :: l).
Proof.
  intros Hp. split; split.
  1, 3: intros out; destruct p; try done.
  all: intros pre rest; destruct p; try done; apply string_wire_parse.
Qed.

(** Every value that [decoded] accepts has a wire form. *)
Lemma decoded_wire p v v' : decoded p v = Some v' → ∃ bs, wire p v v' bs.
Proof.
  revert v v'. induction p as [| | | | | | | |q IH name enums rev]; intros v v' H.
  1-5: destruct v; try done; simpl in H; case_bool_decide as Hr; try done;
       injection H as <-; eexists;
       match goal with
       | |- wire ?p (GInt ?z) _ _ => apply (proj1 (int_wire p z eq_refl Hr))
       | |- wire ?p (GInt64 ?z) _ _ => apply (proj2 (int_wire p z eq_refl Hr))
       end.
  1-3: destruct v; try done; simpl in H; injection H as <-; eexists;
       match goal with
       | |- wire ?p (GInts ?l) _ _ => apply (proj1 (string_wire p l eq_refl))
       | |- wire ?p (GInts64 ?l) _ _ => apply (proj2 (string_wire p l eq_refl))
       end.
  destruct v as [| | | |k| |]; try done. simpl in H.
  destruct (enums !! k) as [tv|] eqn:Ek; [|done].
  destruct (decoded q tv) as [[| |n| | | |]|] eqn:Ed; try (by destruct tv).
  assert (tv ≠ GNil) by (intros ->; by destruct q).
  assert (v' = GStr (default ("?" ++ Itoa n)%string (rev !! n))) as -> by (destruct tv; congruence).
  destruct (IH _ _ Ed) as (bs & Henc & Hpar). exists bs. split.
  - intros out. simpl. rewrite Ek. destruct tv; try done; apply Henc.
  - intros pre rest. simpl. rewrite Hpar. simpl. by destruct (rev !! n).
Qed.

(** ** Messages *)

(** A row of a format and the value sent for it. *)
Definition sendable (row : string * option pt) (v v' : gv) : Prop :=
  ∃ p, row.2 = Some p ∧ decoded p v = Some v'.

Lemma range_parse_rows s rows vs' bss : ∀ pre rest out,
  s = pre ++ List.concat bss ++ rest →
  Forall3 (λ row v' bs, ∃ p v, row.2 = Some p ∧ wire p v v' bs) rows vs' bss →
  range (parse_row s) (out, len pre) rows =
  Ret (fold_left (λ m '(n, v), <[n := v]> m) (zip rows.*1 vs') out,
       len pre + len (List.concat bss)).
Proof.
  revert vs' bss. induction rows as [|[n t] rows IH]; intros vs' bss pre rest out Hs H3;
    revert Hs; inversion H3 as [|? v' bs ? vs'' bss' (p & v & Ht & Hw) H3']; subst; intros Hs.
  - simpl. rewrite len_nil. do 2 f_equal. lia.
  - simpl in Ht. subst t. cbn [range parse_row snd fst List.concat].
    destruct Hw as [_ Hpar].
    assert (Parse p s (len pre) = Ret (v', len pre + len bs)) as ->.
    { rewrite Hs. cbn [List.concat]. rewrite <- (app_assoc bs). apply Hpar. }
    cbn [mbind go_bind]. rewrite <- len_app.
    rewrite (IH vs'' bss' (pre ++ bs) rest)
      by (done || (rewrite Hs; cbn [List.concat]; by rewrite <- !app_assoc)).
    cbn. rewrite !len_app. do 2 f_equal. lia.
Qed.

Lemma zip_wires rows vs vs' :
  Forall3 sendable rows vs vs' →
  ∃ bss, Forall3 (λ row v' bs, ∃ p v, row.2 = Some p ∧ wire p v v' bs) rows vs' bss ∧
         Forall3 (λ row v bs, ∃ p v', row.2 = Some p ∧ wire p v v' bs) rows vs bss.
Proof.
  induction 1 as [|row v v' rows vs vs' (p & Hp & Hd) _ (bss & H1 & H2)].
  - exists []. split; constructor.
  - destruct (decoded_wire p v v' Hd) as (bs & Hw). exists (bs :: bss).
    split; constructor; eauto.
Qed.

(** A format whose identifier bytes are those of [msgid]. *)
Definition registered (self : MessageParser) (msgid : Z) (mf : MessageFormat) : Prop :=
  Messages_by_id self !! msgid = Some (FMsg mf) ∧
  msgid_bytes mf = Vlq.encode [] msgid ∧ - 32 * 2 ^ 28 ≤ msgid < 96 * 2 ^ 28.

(** Parsing the block around [msgid] and the wire forms of the rows. *)
Lemma parser_Parse_block self msgid mf seq vs' bss :
  registered self msgid mf →
  Forall3 (λ row v' bs, ∃ p v, row.2 = Some p ∧ wire p v v' bs) (Param_names mf) vs' bss →
  parser_Parse self (Encode_msgblock seq (msgid_bytes mf ++ List.concat bss)) =
  Ret (<["#name"%string := PV (GStr (Name mf))]>
        (PV <$> (fold_left (λ m '(n, v), <[n := v]> m) (zip (Param_names mf).*1 vs') ∅
                 : gmap string gv))).
Proof.
  intros (Hid & Hbytes & Hr) H3. set (cmd := msgid_bytes mf ++ List.concat bss).
  set (hdr := [MESSAGE_MIN + len cmd; Z.lor (Z.land seq MESSAGE_SEQ_MASK) MESSAGE_DEST]).
  set (trailer := Crc16_ccitt (body seq cmd) ++ [MESSAGE_SYNC]).
  assert (Hblock : Encode_msgblock seq cmd = (hdr ++ Vlq.encode [] msgid) ++ List.concat bss ++ trailer).
  { rewrite Encode_msgblock_body. unfold body at 1. fold hdr. unfold cmd at 1. rewrite Hbytes.
    by rewrite <- !app_assoc. }
  unfold parser_Parse. rewrite Hblock at 1. rewrite <- app_assoc.
  change MESSAGE_HEADER_SIZE with (len hdr) at 1.
  rewrite Vlq.parse_encode by done. cbn [mbind go_bind]. rewrite Hid.
  change (default FUnknown (Some (FMsg mf))) with (FMsg mf).
  cbn [format_Parse GetName]. unfold MessageFormat_Parse.
  change MESSAGE_HEADER_SIZE with (len hdr). rewrite Hbytes, <- len_app.
  rewrite (range_parse_rows _ _ vs' bss _ trailer) by done. cbn [mbind go_bind].
  rewrite Hblock, !len_app. unfold trailer. rewrite len_app, len_Crc16_ccitt, len_one.
  unfold MESSAGE_TRAILER_SIZE.
  destruct (Z.eqb_spec (len hdr + len (Vlq.encode [] msgid) + len (List.concat bss))
    (len hdr + len (Vlq.encode [] msgid) + (len (List.concat bss) + (2 + 1)) - 3)); [done|lia].
Qed.

(** [MessageFormat.Encode] appends the wire forms in order. *)
Lemma range_encode_rows (rows : list (string * option pt)) vs bss : ∀ i (l : list gv) out,
  (∀ j v, vs !! j = Some v → l.[i + Z.of_nat j] = Ret v) →
  Forall3 (λ row v bs, ∃ p v', row.2 = Some p ∧ wire p v v' bs) rows vs bss →
  Forall (λ row, ∀ p, row.2 = Some p → is_enum p = false) rows →
  range_idx (encode_param (PList l)) i out (snd <$> rows) = Ret (out ++ List.concat bss).
Proof.
  revert vs bss. induction rows as [|[n t] rows IH]; intros vs bss i l out Hl H3 Hne;
    inversion H3 as [|? v bs ? vs'' bss' (p & v' & Ht & Hw) H3']; subst.
  - simpl. by rewrite app_nil_r.
  - inversion_clear Hne as [|? ? Hp Hne']. simpl in Ht. subst t.
    cbn [fmap list_fmap range_idx encode_param snd].
    pose proof (Hl O v eq_refl) as Hi. rewrite Z.add_0_r in Hi. rewrite Hi. cbn [mbind go_bind].
    assert (Henc : Encode p out v = Ret (out ++ bs)) by apply Hw.
    assert (Hv : match v with GInts _ | GInt _ | GInts64 _ | GInt64 _ => Encode p out v
                 | _ => Ret out end = Ret (out ++ bs)).
    { specialize (Hp p eq_refl). destruct v; try done; destruct p; done. }
    rewrite Hv. cbn [mbind go_bind].
    rewrite (IH vs'' bss' (i + 1) l).
    + cbn [List.concat]. by rewrite app_assoc.
    + intros j w Hj. rewrite <- (Hl (S j) w Hj). f_equal. lia.
    + done.
    + done.
Qed.

(** A message of a registered format, encoded positionally from values its parameter
    types can carry and framed into a block, is parsed back by MessageParser.Parse into
    the map of its parameter names to the values sent, with the format name under #name. *)
Theorem message_roundtrip (self : MessageParser) (msgid seq : Z) (mf : MessageFormat)
    (vs vs' : list gv) :
  registered self msgid mf →
  Forall3 sendable (Param_names mf) vs vs' →
  Forall (λ row, ∀ p, row.2 = Some p → is_enum p = false) (Param_names mf) →
  ∃ cmd, MessageFormat_Encode mf (PList vs) = Ret cmd ∧
    parser_Parse self (Encode_msgblock seq cmd) =
    Ret (<["#name"%string := PV (GStr (Name mf))]>
          (PV <$> (fold_left (λ m '(n, v), <[n := v]> m) (zip (Param_names mf).*1 vs') ∅
                   : gmap string gv))).
Proof.
  intros Hreg H3 Hne. destruct (zip_wires _ _ _ H3) as (bss & Hp & He).
  exists (msgid_bytes mf ++ List.concat bss). split; [|by eapply parser_Parse_block].
  unfold MessageFormat_Encode. apply (range_encode_rows _ vs); [|done|done].
  intros j v Hj. unfold index. rewrite bool_decide_true by lia.
  replace (Z.to_nat (0 + Z.of_nat j)) with j by lia. by rewrite Hj.
Qed.

(** A row of a format and the value of its name: buffers must be [[]int]. *)
Definition sendable_named (params : gmap string gv) (row : string * option pt) (v' : gv) : Prop :=
  ∃ p v, row.2 = Some p ∧ params !! row.1 = Some v ∧ decoded p v = Some v' ∧
         (Is_dynamic_string p = true → ∃ l, v = GInts l).

Lemma encode_by_name_wire params out row v' :
  sendable_named params row v' →
  ∃ p v bs, row.2 = Some p ∧ wire p v v' bs ∧
    encode_by_name out row.1 row.2 params = Ret (out ++ bs) ∧
    (∀ out', encode_by_name out' row.1 row.2 params = Ret (out' ++ bs)).
Proof.
  intros (p & v & Ht & Hv & Hd & Hs). destruct (decoded_wire p v v' Hd) as (bs & Hw).
  exists p, v, bs.
  assert (Henc : ∀ out', encode_by_name out' row.1 row.2 params = Ret (out' ++ bs)).
  { intros out'. unfold encode_by_name. rewrite Hv, Ht. simpl default.
    destruct Hw as [Hw _]. specialize (Hw out').
    destruct p; try done; destruct Hs as [l ->]; done. }
  eauto.
Qed.

Lemma range_encode_named params rows vs' : ∀ out,
  Forall2 (sendable_named params) rows vs' →
  ∃ bss, Forall3 (λ row v' bs, ∃ p v, row.2 = Some p ∧ wire p v v' bs) rows vs' bss ∧
    range (λ out '(name, t), encode_by_name out name t params) out rows = Ret (out ++ List.concat bss).
Proof.
  intros out H2. revert out. induction H2 as [|[n t] v' rows vs' Hs _ IH]; intros out.
  - exists []. split; [constructor|]. simpl. by rewrite app_nil_r.
  - destruct (encode_by_name_wire params out _ _ Hs) as (p & v & bs & Ht & Hw & _ & Henc).
    destruct (IH (out ++ bs)) as (bss & H3 & Hr). exists (bs :: bss). split; [constructor; eauto|].
    cbn [range]. simpl in Henc. rewrite Henc. cbn [mbind go_bind List.concat].
    by rewrite Hr, app_assoc.
Qed.

(** A message encoded by parameter name (integers, strings and enumeration names) and
    framed into a block is parsed back into the map of its parameter names to the values
    sent; an enumeration parameter comes back as its name. *)
Theorem named_message_roundtrip (self : MessageParser) (msgid seq : Z) (mf : MessageFormat)
    (params : gmap string gv) (vs' : list gv) :
  registered self msgid mf →
  Forall2 (sendable_named params) (Param_names mf) vs' →
  ∃ cmd, Encode_by_name mf params = Ret cmd ∧
    parser_Parse self (Encode_msgblock seq cmd) =
    Ret (<["#name"%string := PV (GStr (Name mf))]>
          (PV <$> (fold_left (λ m '(n, v), <[n := v]> m) (zip (Param_names mf).*1 vs') ∅
                   : gmap string gv))).
Proof.
  intros Hreg H2.
  destruct (range_encode_named params _ _ (msgid_bytes mf) H2) as (bss & H3 & Hr).
  exists (msgid_bytes mf ++ List.concat bss). split; [done|by eapply parser_Parse_block].
Qed.

(** ** Commands as text *)

(** A command with integer parameters, written [name k1=v1 k2=v2 ...]. *)
Definition command_text (name : string) (args : list (string * Z)) : string :=
  Join " "%char (name :: ((λ '(k, z), k ++ String "="%char (Itoa z))%string <$> args)).

Definition is_word (w : string) : Prop :=
  w ≠ EmptyString ∧ no_space w = true ∧ has_char "="%char w = false.
#[global] Instance is_word_dec w : Decision (is_word w).
Proof. unfold is_word. apply _. Defined.

Lemma no_space_has_char w : no_space w = true → has_char " "%char w = false.
Proof.
  intros H. apply has_char_all_chars. eapply all_chars_impl; [|exact H].
  intros c Hc. destruct (Ascii.eqb_spec c " "%char) as [->|]; done.
Qed.

Lemma arg_word_ok k z : is_word k →
  let w := (k ++ String "="%char (Itoa z))%string in
  w ≠ EmptyString ∧ no_space w = true.
Proof.
  intros (Hne & Hs & _). split; [by destruct k|].
  unfold no_space in *. rewrite all_chars_app, Hs. simpl. apply Itoa_no_space.
Qed.

Lemma arg_split k z : is_word k →
  Split "="%char (k ++ String "="%char (Itoa z)) = [k; Itoa z].
Proof.
  intros (_ & _ & Heq). rewrite Split_app_sep by done.
  by rewrite Split_nosep by (by apply Itoa_has_char).
Qed.

(** Trimming and splitting a command text gives its words back. *)
Lemma command_text_words name args :
  is_word name → Forall (λ a, is_word a.1) args →
  Split " "%char (TrimSpace (command_text name args)) =
  name :: ((λ '(k, z), k ++ String "="%char (Itoa z))%string <$> args).
Proof.
  intros (Hn & Hs & _) Hargs. unfold command_text.
  assert (Hws : Forall (λ w, w ≠ EmptyString ∧ no_space w = true)
    (name :: ((λ '(k, z), k ++ String "="%char (Itoa z))%string <$> args))).
  { constructor; [done|]. apply Forall_fmap. eapply Forall_impl; [exact Hargs|].
    intros [k z] Hk. by apply arg_word_ok. }
  rewrite TrimSpace_Join by done. apply Split_Join; [done|].
  eapply Forall_impl; [exact Hws|]. intros w [_ Hw]. by apply no_space_has_char.
Qed.

(** The map of textual arguments that [Create_command] collects. *)
Definition arg_map (args : list (string * Z)) : gmap string string :=
  list_to_map (prod_map id Itoa <$> args).

Lemma arg_map_dom (args : list (string * Z)) : (prod_map id Itoa <$> args).*1 = args.*1.
Proof. rewrite <- list_fmap_compose. by apply list_fmap_ext. Qed.

Lemma collect_args args m :
  Forall (λ a, is_word a.1) args → NoDup args.*1 → Forall (λ a, m !! a.1 = None) args →
  range (λ m arg, let words := Split "="%char arg in
         k ← words.[0]; v ← words.[1]; Ret (<[k := v]> m)) m
    ((λ '(k, z), k ++ String "="%char (Itoa z))%string <$> args) = Ret (arg_map args ∪ m).
Proof.
  revert m. induction args as [|[k z] args IH]; intros m Hw Hnd Hm.
  { unfold arg_map. simpl. by rewrite map_empty_union. }
  inversion_clear Hw as [|? ? Hk Hw']. inversion_clear Hnd as [|? ? Hnotin Hnd'].
  inversion_clear Hm as [|? ? Hmk Hm'].
  cbn [fmap list_fmap range]. rewrite arg_split by done. cbn [mbind go_bind index].
  change (index [k; Itoa z] 0) with (Ret k). change (index [k; Itoa z] 1) with (Ret (Itoa z)).
  cbn [mbind go_bind]. rewrite IH; [|done|done|].
  - f_equal. change (arg_map ((k, z) :: args)) with (<[k := Itoa z]> (arg_map args)).
    rewrite <- insert_union_l, insert_union_r; [done|].
    apply not_elem_of_list_to_map. by rewrite arg_map_dom.
  - rewrite Forall_forall in Hm' |- *. intros a Ha. rewrite lookup_insert_ne; [by apply Hm'|].
    intros ->. apply Hnotin. by apply list_elem_of_fmap_2.
Qed.

(** A loop that assigns every pair of a list to a map. *)
Lemma fold_insert_ne {A} (l : list (string * A)) (m : gmap string A) k :
  k ∉ l.*1 → fold_left (λ m '(n, p), <[n := p]> m) l m !! k = m !! k.
Proof.
  revert m. induction l as [|[n p] l IH]; intros m Hk; [done|]. simpl.
  rewrite fmap_cons, not_elem_of_cons in Hk. destruct Hk as [Hn Hk].
  rewrite IH by done. by apply lookup_insert_ne.
Qed.

Lemma fold_insert_in {A} (l : list (string * A)) (m : gmap string A) k v :
  NoDup l.*1 → (k, v) ∈ l → fold_left (λ m '(n, p), <[n := p]> m) l m !! k = Some v.
Proof.
  revert m. induction l as [|[n p] l IH]; intros m Hnd Hin; [by apply not_elem_of_nil in Hin|].
  rewrite fmap_cons in Hnd. apply NoDup_cons in Hnd as [Hn Hnd]. simpl.
  apply elem_of_cons in Hin as [[= -> ->]|Hin]; [|by apply IH].
  rewrite fold_insert_ne by done. apply lookup_insert_eq.
Qed.

(** A format as [NewMessageFormat] builds it. *)
Definition format_wf (mf : MessageFormat) : Prop :=
  Name_to_type mf = fold_left (λ m '(n, p), <[n := p]> m) (Param_names mf) ∅.

Lemma NewMessageFormat_wf bytes fmt enums mf :
  NewMessageFormat bytes fmt enums = Ret mf → format_wf mf ∧ msgid_bytes mf = bytes.
Proof.
  unfold NewMessageFormat. intros (name & _ & H)%bind_ret_inv.
  apply bind_ret_inv in H as (rows & _ & [= <-]). done.
Qed.

(** An integer parameter of a format and the argument written for it. *)
Definition int_arg (row : string * option pt) (a : string * Z) : Prop :=
  row.1 = a.1 ∧ is_word a.1 ∧ - 32 * 2 ^ 28 ≤ a.2 < 96 * 2 ^ 28 ∧
  ∃ p, row.2 = Some p ∧ Is_int p = true.

(** What the receiver reads for it. *)
Definition int_read (row : string * option pt) (a : string * Z) : gv :=
  GInt64 (match row.2 with
          | Some p => if Signed p then a.2 else a.2 mod 2 ^ 32
          | None => 0
          end).

Lemma int_arg_names rows args : Forall2 int_arg rows args → rows.*1 = args.*1.
Proof. induction 1 as [|? ? ? ? (H & _)]; [done|]. rewrite !fmap_cons. by f_equal. Qed.

Lemma arg_type_in mf row a :
  format_wf mf → NoDup (Param_names mf).*1 → row ∈ Param_names mf → int_arg row a →
  ∃ p, row.2 = Some p ∧ Is_int p = true ∧ arg_type mf a.1 = Some p.
Proof.
  intros Hwf Hnd Hin (Hn & _ & _ & p & Hp & Hint). exists p. split_and!; [done..|].
  unfold arg_type. rewrite Hwf, (fold_insert_in _ _ _ (Some p)); [done|done|].
  rewrite <- Hn, <- Hp. by destruct row.
Qed.

Lemma arg_map_lookup args k z :
  NoDup args.*1 → (k, z) ∈ args → arg_map args !! k = Some (Itoa z).
Proof.
  intros Hnd Hin. apply elem_of_list_to_map; [by rewrite arg_map_dom|].
  by apply (list_elem_of_fmap_2 (prod_map id Itoa)) in Hin.
Qed.

(** C9. A command written as text with integer arguments is accepted by Create_command, and
    parsing the framed result yields a message of the same name in which every parameter
    has the number that was written, reduced to 32 bits for the unsigned types. *)
Theorem command_text_roundtrip (self : MessageParser) (msgid seq : Z) (mf : MessageFormat)
    (args : list (string * Z)) :
  registered self msgid mf → format_wf mf → Messages_by_name self !! Name mf = Some mf →
  is_word (Name mf) → NoDup args.*1 → Forall2 int_arg (Param_names mf) args →
  ∃ cmd, Create_command self (command_text (Name mf) args) = Ret cmd ∧
    parser_Parse self (Encode_msgblock seq cmd) =
    Ret (<["#name"%string := PV (GStr (Name mf))]>
          (PV <$> (fold_left (λ m '(n, v), <[n := v]> m)
             (zip (Param_names mf).*1 (zip_with int_read (Param_names mf) args)) ∅
             : gmap string gv))).
Proof.
  intros Hreg Hwf Hname Hword Hnd Hargs.
  assert (Hwords : Forall (λ a, is_word a.1) args).
  { clear -Hargs. induction Hargs as [|row a rows args (_ & Ha & _)]; by constructor. }
  pose proof (int_arg_names _ _ Hargs) as Hnames.
  assert (Hnd' : NoDup (Param_names mf).*1) by (by rewrite Hnames).
  set (params := map_imap (λ name value, t ← arg_type mf name; Some (convert_arg t value))
                   (arg_map args) : gmap string gv).
  assert (Hsend : Forall2 (sendable_named params) (Param_names mf)
                    (zip_with int_read (Param_names mf) args)).
  { apply Forall2_lookup. intros i.
    rewrite lookup_zip_with. destruct (Param_names mf !! i) as [row|] eqn:Er; [|constructor].
    destruct (Forall2_lookup_l _ _ _ _ _ Hargs Er) as (a & Ea & Ha). rewrite Ea. constructor.
    destruct (arg_type_in mf row a) as (p & Hp & Hint & Ht); [done|done| |done|].
    { by eapply list_elem_of_lookup_2. }
    destruct Ha as (Hn & _ & Hr & _). exists p, (GInt64 a.2).
    assert (Hconv : convert_arg p (Itoa a.2) = GInt64 a.2).
    { unfold convert_arg. rewrite ParseInt_Itoa by lia. by destruct p. }
    split_and!; [done| | |by destruct p].
    - unfold params. rewrite map_lookup_imap, Hn, (arg_map_lookup args a.1 a.2); [|done|].
      + simpl. rewrite Ht. simpl. by rewrite Hconv.
      + apply list_elem_of_lookup_2 in Ea. by destruct a.
    - unfold int_read. rewrite Hp. destruct p; try done; simpl; by rewrite bool_decide_true. }
  destruct (range_encode_named params _ _ (msgid_bytes mf) Hsend) as (bss & H3 & Hr).
  exists (msgid_bytes mf ++ List.concat bss). split; [|by eapply parser_Parse_block].
  unfold Create_command. rewrite command_text_words by done. cbn [mbind go_bind tail].
  rewrite index_0. cbn [mbind go_bind]. rewrite Hname.
  rewrite collect_args; [|done|done|by apply Forall_forall; intros; apply lookup_empty].
  rewrite (right_id_L ∅ (∪) (arg_map args)). cbn [mbind go_bind].
  assert (forallb (λ '(name, _), bool_decide (is_Some (arg_type mf name)))
            (map_to_list (arg_map args)) = true) as ->; [|exact Hr].
  apply forallb_forall. intros [k v] Hin. apply bool_decide_eq_true_2.
  apply list_elem_of_In, elem_of_map_to_list, elem_of_list_to_map_2 in Hin.
  apply list_elem_of_fmap in Hin as ([k' z] & [= -> ->] & Hin).
  apply list_elem_of_lookup in Hin as [i Ei].
  destruct (Forall2_lookup_r _ _ _ _ _ Hargs Ei) as (row & Er & Ha).
  destruct (arg_type_in mf row (k', z)) as (p & _ & _ & Ht); [done|done| |done|by eexists].
  by eapply list_elem_of_lookup_2.
Qed.

(** ** Building the dictionaries *)

(** What [init_message] stores for an entry. *)
Definition stored (self : MessageParser) (fmt : string) (msgid : Z) : Prop :=
  lookup_msgid self fmt = Ret msgid ∧
  ∃ mf, Messages_by_id self !! msgid = Some (FMsg mf) ∧ Msgformat mf = fmt ∧
    msgid_bytes mf = Vlq.encode [] msgid ∧ format_wf mf ∧
    (Split " "%char fmt).[0] = Ret (Name mf) ∧
    Lookup_params fmt (Enumerations self) = Ret (Param_names mf).

Lemma init_message_stored ids self self' fmt msgid :
  init_message ids [] self (fmt, msgid) = Ret self' → stored self' fmt msgid.
Proof.
  unfold init_message. rewrite (bool_decide_false (msgid ∈ [])) by apply not_elem_of_nil.
  case_bool_decide; cbn [String.eqb Ascii.eqb Bool.eqb];
    intros (mf & Hmf & [= <-])%bind_ret_inv; (split;
      [unfold lookup_msgid; simpl; by rewrite lookup_insert_eq|]);
    destruct (NewMessageFormat_wf _ _ _ _ Hmf) as [Hwf Hb];
    exists mf; simpl; rewrite lookup_insert_eq; unfold NewMessageFormat in Hmf;
    apply bind_ret_inv in Hmf as (name & Hname & (rows & Hrows & [= <-])%bind_ret_inv); done.
Qed.

Lemma init_message_frame ids self self' fmt msgid fmt' msgid' :
  init_message ids [] self (fmt, msgid) = Ret self' →
  fmt ≠ fmt' → msgid ≠ msgid' → stored self fmt' msgid' → stored self' fmt' msgid'.
Proof.
  unfold init_message. rewrite (bool_decide_false (msgid ∈ [])) by apply not_elem_of_nil.
  case_bool_decide; cbn [String.eqb Ascii.eqb Bool.eqb];
    intros (mf & Hmf & [= <-])%bind_ret_inv Hf Hi (Hl & mf' & Hid & Hrest);
    (split; [unfold lookup_msgid in *; simpl; by rewrite lookup_insert_ne|]);
    exists mf'; simpl; by rewrite lookup_insert_ne.
Qed.

(** When Init_messages accepts a dictionary with distinct formats and distinct
    identifiers, every format of it can be looked up by its identifier afterwards, and
    its identifier by its format text. *)
Theorem Init_messages_registers (self self' : MessageParser) (messages : list (string * Z))
    (command_ids : list Z) :
  NoDup messages.*1 → NoDup messages.*2 →
  Init_messages self messages command_ids [] = Ret self' →
  ∀ fmt msgid, (fmt, msgid) ∈ messages → stored self' fmt msgid.
Proof.
  unfold Init_messages. revert self.
  induction messages as [|[f i] messages IH]; intros self Hf Hi H fmt msgid Hin;
    [by apply not_elem_of_nil in Hin|].
  rewrite fmap_cons, NoDup_cons in Hf. rewrite fmap_cons, NoDup_cons in Hi. destruct Hf as [Hf1 Hf], Hi as [Hi1 Hi].
  cbn [range] in H. apply bind_ret_inv in H as (self1 & H1 & H2).
  apply elem_of_cons in Hin as [[= -> ->]|Hin]; [|by eapply IH].
  apply init_message_stored in H1. clear IH Hf Hi. revert self1 H1 H2.
  induction messages as [|[f' i'] messages IH]; intros self1 H1 H2; [by injection H2 as <-|].
  rewrite fmap_cons, not_elem_of_cons in Hf1. rewrite fmap_cons, not_elem_of_cons in Hi1.
  destruct Hf1 as [? Hf1], Hi1 as [? Hi1].
  cbn [range] in H2. apply bind_ret_inv in H2 as (self2 & H2 & H3). simpl in *.
  apply (IH Hf1 Hi1 self2); [|done].
  eapply init_message_frame; [exact H2|congruence|congruence|exact H1].
Qed.

(** Lookup_output_params panics on every output format that contains a directive of the
    message types. *)
Theorem output_directive_panics (pre d post : string) (t : pt) :
  MessageTypes d = Some t → returns (Lookup_output_params (pre ++ d ++ post)) = false.
Proof.
  intros Hd. induction pre as [|c pre IH].
  - assert (∃ s, (d ++ post)%string = String "%"%char s ∧
      (∀ s', s ≠ String "%"%char s') ∧
      (∃ t', find_output_type 4 0 (String "%"%char s) = Ret (Some t'))) as (s & Hs & Hn & t' & Hf).
    { unfold MessageTypes in Hd. repeat case_bool_decide; subst; try done;
        (eexists; split; [reflexivity|]); (split; [done|]);
        destruct post; eexists; vm_compute; reflexivity. }
    change (EmptyString ++ d ++ post)%string with (d ++ post)%string. rewrite Hs.
    cbn [Lookup_output_params]. rewrite Ascii.eqb_refl, Hf.
    destruct s as [|c s]; [done|].
    destruct (decide (c = "%"%char)) as [->|Hc]; [by destruct (Hn s)|].
    repeat (case_match; try done).
  - change (String c pre ++ d ++ post)%string with (String c (pre ++ d ++ post)).
    cbn [Lookup_output_params]. destruct (Ascii.eqb c "%"); [|done].
    destruct (find_output_type 4 0 _) as [[]|]; simpl;
      destruct (pre ++ d ++ post)%string as [|[[] [] [] [] [] [] [] []] s]; done.
Qed.

(** Process_identify panics on every identify dictionary that has an output section,
    whatever the section holds. *)
Theorem Process_identify_output_panics self config data j :
  assoc "output" data = Some j → returns (Process_identify self config data) = false.
Proof.
  intros Hj. unfold Process_identify. rewrite Hj.
  repeat first [done | match goal with
    | |- returns (?m ≫= _) = false => destruct m as [|]; [|done]; cbn [mbind go_bind]
    end].
Qed.

(** Assignment makes a key map to its value. *)
Lemma assign_lookup {A} k (v : A) l :
  (list_to_map (assign k v l) : gmap string A) !! k = Some v.
Proof.
  unfold assign. rewrite list_to_map_app. apply lookup_union_Some_raw. right. split.
  - apply not_elem_of_list_to_map. intros ([k' v'] & -> & Hin)%list_elem_of_fmap.
    apply list_elem_of_In, filter_In in Hin as [_ Hne]. by rewrite String.eqb_refl in Hne.
  - apply lookup_insert_eq.
Qed.

(** Encoding an integer enumeration by a name that the identify dictionary gave as a
    single number panics. *)
Theorem simple_enumeration_encode_panics (q : pt) (name k : string)
    (enums enums' : list (string * gv)) (rev : gmap Z string) (f : f64) (out : list Z) :
  Is_int q = true → fill_entry enums (k, JNum f) = Ret enums' →
  returns (Encode (Enumeration q name (list_to_map enums') rev) out (GStr k)) = false.
Proof.
  intros Hq [= <-]. cbn [Encode]. rewrite assign_lookup. by destruct q.
Qed.

(** ** Witnesses on the bootstrap dictionary *)

Definition empty_parser : MessageParser :=
  {| Enumerations := []; Messages := []; Messages_by_id := ∅; Messages_by_name := ∅;
     msgid_by_format := ∅ |}.

(** The parser as [NewMessageParser] returns it. *)
Definition boot_parser : MessageParser :=
  match NewMessageParser with Ret p => p | Panic _ => empty_parser end.

(** A format of [boot_parser] by identifier. *)
Definition boot_format (msgid : Z) : MessageFormat :=
  match Messages_by_id boot_parser !! msgid with
  | Some (FMsg mf) => mf
  | _ => {| msgid_bytes := []; Msgformat := ""; Debugformat := ""; Name := "";
            Param_names := []; Name_to_type := ∅ |}
  end.

Lemma boot_rows_0 : Param_names (boot_format 0) =
  [("offset"%string, Some PT_uint32); ("data"%string, Some PT_progmem_buffer)].
Proof. vm_compute. reflexivity. Qed.

Lemma boot_rows_1 : Param_names (boot_format 1) =
  [("offset"%string, Some PT_uint32); ("count"%string, Some PT_byte)].
Proof. vm_compute. reflexivity. Qed.

Lemma message_roundtrip_witness :
  ∃ cmd, MessageFormat_Encode (boot_format 0) (PList [GInt 40; GInts [1; 2; 3]]) = Ret cmd ∧
    parser_Parse boot_parser (Encode_msgblock 7 cmd) =
    Ret {["#name"%string := PV (GStr "identify_response"); "offset"%string := PV (GInt64 40);
          "data"%string := PV (GInts [1; 2; 3])]}.
Proof.
  destruct (message_roundtrip boot_parser 0 7 (boot_format 0) [GInt 40; GInts [1; 2; 3]]
    [GInt64 40; GInts [1; 2; 3]]) as (cmd & He & Hp).
  - split_and!; [vm_compute; reflexivity|vm_compute; reflexivity|lia|lia].
  - rewrite boot_rows_0. constructor; [by exists PT_uint32|].
    constructor; [by exists PT_progmem_buffer|constructor].
  - rewrite boot_rows_0. repeat (apply Forall_cons; split; [by intros p [= <-]|]). apply Forall_nil_2.
  - exists cmd. split; [exact He|]. rewrite Hp. vm_compute. reflexivity.
Defined.

Lemma named_message_roundtrip_witness :
  ∃ cmd, Encode_by_name (boot_format 1)
           {["offset"%string := GInt64 200; "count"%string := GInt 40]} = Ret cmd ∧
    parser_Parse boot_parser (Encode_msgblock 1 cmd) =
    Ret {["#name"%string := PV (GStr "identify"); "offset"%string := PV (GInt64 200);
          "count"%string := PV (GInt64 40)]}.
Proof.
  destruct (named_message_roundtrip boot_parser 1 1 (boot_format 1)
    {["offset"%string := GInt64 200; "count"%string := GInt 40]} [GInt64 200; GInt64 40])
    as (cmd & He & Hp).
  - split_and!; [vm_compute; reflexivity|vm_compute; reflexivity|lia|lia].
  - rewrite boot_rows_1. constructor; [by exists PT_uint32, (GInt64 200)|].
    constructor; [by exists PT_byte, (GInt 40)|constructor].
  - exists cmd. split; [exact He|]. rewrite Hp. vm_compute. reflexivity.
Defined.

Lemma command_text_roundtrip_witness :
  ∃ cmd, Create_command boot_parser "identify offset=200 count=40" = Ret cmd ∧
    parser_Parse boot_parser (Encode_msgblock 1 cmd) =
    Ret {["#name"%string := PV (GStr "identify"); "offset"%string := PV (GInt64 200);
          "count"%string := PV (GInt64 40)]}.
Proof.
  destruct (command_text_roundtrip boot_parser 1 1 (boot_format 1)
    [("offset"%string, 200); ("count"%string, 40)]) as (cmd & He & Hp).
  - split_and!; [vm_compute; reflexivity|vm_compute; reflexivity|lia|lia].
  - vm_compute. reflexivity.
  - vm_compute. reflexivity.
  - by_decide.
  - by_decide.
  - rewrite boot_rows_1.
    constructor; [split_and!; [done|by_decide|simpl; lia|simpl; lia|by exists PT_uint32]|].
    constructor; [split_and!; [done|by_decide|simpl; lia|simpl; lia|by exists PT_byte]|constructor].
  - exists cmd. split; [exact He|]. rewrite Hp. vm_compute. reflexivity.
Defined.

Lemma Init_messages_registers_witness :
  stored boot_parser "identify offset=%u count=%c" 1.
Proof.
  apply (Init_messages_registers empty_parser boot_parser DefaultMessages []).
  - by_decide.
  - by_decide.
  - vm_compute. reflexivity.
  - by_decide.
Defined.

Lemma output_directive_panics_witness :
  returns (Lookup_output_params "temp %u reached") = false.
Proof. apply (output_directive_panics "temp " "%u" " reached" PT_uint32). reflexivity. Defined.

Lemma Process_identify_output_panics_witness :
  returns (Process_identify boot_parser []
    [("commands"%string, JObj []); ("responses"%string, JObj []); ("output"%string, JObj [])]) = false.
Proof. apply (Process_identify_output_panics _ _ _ (JObj [])). reflexivity. Defined.

Lemma simple_enumeration_encode_panics_witness :
  returns (Encode (Enumeration PT_byte "spi_bus"
    (list_to_map [("spi2"%string, GFloat (f_of_Z 1))]) ∅) [] (GStr "spi2")) = false.
Proof.
  apply (simple_enumeration_encode_panics PT_byte "spi_bus" "spi2" [] _ ∅ (f_of_Z 1));
    reflexivity.
Defined.
