(* ===== verification/TmcFields.v ===== *)
(** * The register fields of a TMC driver

    [src/internal/pkg/tmc/field_helper.go]: the cache of the registers of a
    stepper driver, addressed by field name.  A field is a mask inside a named
    register; reading shifts the masked value down (with sign extension for
    the signed fields), writing merges the shifted value into the cached
    register.  Register values are [int64], the only type the drivers store. *)

From S2P Require Import Prelude GoFloat GoStrings GoState.

(** Position of the first bit set in a mask, 64 for none. *)
Definition ffs (mask : Z) : Z :=
  if bool_decide (u64 mask = 0) then 64 else Z.log2 (Z.land (u64 mask) (- u64 mask)).

(** [bits.Len(uint(v))]. *)
Definition bits_Len (v : Z) : Z :=
  if bool_decide (u64 v = 0) then 0 else Z.log2 (u64 v) + 1.

Record FieldHelper := mkFieldHelper {
  allFields : gmap string (gmap string Z);
  signedFields : gset string;
  fieldFormatters : gmap string (Z → go string);
  registers : gmap string Z;
  registerOrder : list string;
  registerSeen : gset string;
  fieldToRegister : gmap string string
}.

(** A field table as the source writes it; the order is the order in which Go
    iterates over the map. *)
Definition fieldTable : Type := list (string * list (string * Z)).

(** The reverse index: the last register iterated over wins. *)
Definition field_index (t : fieldTable) : gmap string string :=
  fold_left (λ acc '(registerName, fields),
    fold_left (λ acc '(fieldName, _), <[fieldName := registerName]> acc) fields acc) t ∅.

Definition NewFieldHelper (t : fieldTable) (signed : list string)
    (formatters : gmap string (Z → go string)) (regs : option (gmap string Z)) : FieldHelper :=
  let regs := default ∅ regs in
  let keys := sort_strings (map_to_list regs).*1 in
  {| allFields := list_to_map ((λ '(r, fs), (r, list_to_map fs)) <$> t);
     signedFields := list_to_set signed;
     fieldFormatters := formatters;
     registers := regs;
     registerOrder := keys;
     registerSeen := list_to_set keys;
     fieldToRegister := field_index t |}.

Definition Lookup_register (self : FieldHelper) (fieldName : string) : option string :=
  fieldToRegister self !! fieldName.

(** [self.fieldToRegister[fieldName]], with Go's zero value. *)
Definition register_of (self : FieldHelper) (fieldName : string) : string :=
  default EmptyString (fieldToRegister self !! fieldName).

(** [self.allFields[regName][fieldName]]. *)
Definition mask_of (self : FieldHelper) (regName fieldName : string) : Z :=
  default 0 (allFields self !! regName ≫= λ fs, fs !! fieldName).

Definition reg_value (self : FieldHelper) (regName : string) : Z :=
  default 0 (registers self !! regName).

Definition Get_field (self : FieldHelper) (fieldName : string) (regValue : option Z)
    (regName : option string) : Z :=
  let resolvedRegName := default (register_of self fieldName) regName in
  let regValue := default (reg_value self resolvedRegName) regValue in
  let mask := mask_of self resolvedRegName fieldName in
  let fieldValue := Z.shiftr (Z.land regValue mask) (ffs mask) in
  if bool_decide (fieldName ∈ signedFields self) &&
     bool_decide (mask < i64 (Z.shiftl (Z.land regValue mask) 1))
  then i64 (fieldValue - i64 (Z.shiftl 1 (bits_Len fieldValue)))
  else fieldValue.

Definition trackRegister (self : FieldHelper) (regName : string) : FieldHelper :=
  if bool_decide (regName ∈ registerSeen self) then self
  else {| allFields := allFields self; signedFields := signedFields self;
          fieldFormatters := fieldFormatters self; registers := registers self;
          registerOrder := registerOrder self ++ [regName];
          registerSeen := {[regName]} ∪ registerSeen self;
          fieldToRegister := fieldToRegister self |}.

(** [self.registers[regName] = v]. *)
Definition store_register (self : FieldHelper) (regName : string) (v : Z) : FieldHelper :=
  {| allFields := allFields self; signedFields := signedFields self;
     fieldFormatters := fieldFormatters self; registers := <[regName := v]> (registers self);
     registerOrder := registerOrder self; registerSeen := registerSeen self;
     fieldToRegister := fieldToRegister self |}.

Definition Set_field (self : FieldHelper) (fieldName : string) (fieldValue : any)
    (regValue : option Z) (regName : option string) : Z * FieldHelper :=
  let resolvedRegName := default (register_of self fieldName) regName in
  let regValue := default (reg_value self resolvedRegName) regValue in
  let mask := mask_of self resolvedRegName fieldName in
  let newValue := Z.lor (Z.land regValue (Z.lnot mask))
    (Z.land (i64 (Z.shiftl (ToInt64 fieldValue) (ffs mask))) mask) in
  (newValue, store_register (trackRegister self resolvedRegName) resolvedRegName newValue).

Definition orderedRegisterNames (self : FieldHelper) : list string :=
  let ordered := registerOrder self in
  if bool_decide (length ordered = size (registers self)) then ordered
  else
    let extra := filter (λ regName, regName ∉ registerSeen self) (map_to_list (registers self)).*1 in
    ordered ++ sort_strings extra.

(** What the helper asks of a configuration section. *)
Class ConfigFieldSource (C : Type) := {
  Getboolean : C → string → any → go bool;
  Getint : C → string → any → Z → Z → go Z;
  Getint64 : C → string → any → Z → Z → go Z
}.

Definition is_int (a : any) : bool := match a with AInt _ => true | _ => false end.

(** The value a configuration gives a field of maximal value [maxVal]. *)
Definition config_value `{ConfigFieldSource C} (config : C) (configName : string) (signed : bool)
    (maxVal : Z) (defaultValue : any) : go any :=
  if bool_decide (maxVal = 1) then
    b ← Getboolean config configName defaultValue; Ret (AInt (if b : bool then 1 else 0))
  else if signed then
    if is_int defaultValue then
      v ← Getint config configName defaultValue (- (Z.quot maxVal 2 + 1)) (Z.quot maxVal 2);
      Ret (AInt v)
    else v ← Getint64 config configName defaultValue (-1) maxVal; Ret (AInt64 v)
  else
    if is_int defaultValue then
      v ← Getint config configName defaultValue 0 maxVal; Ret (AInt v)
    else v ← Getint64 config configName defaultValue 0 maxVal; Ret (AInt64 v).

Definition Set_config_field `{ConfigFieldSource C} (self : FieldHelper) (config : C)
    (fieldName : string) (defaultValue : any) : go (Z * FieldHelper) :=
  let configName := ("driver_" ++ ToUpper fieldName)%string in
  let regName := register_of self fieldName in
  let mask := mask_of self regName fieldName in
  let maxVal := Z.shiftr mask (ffs mask) in
  val ← config_value config configName (bool_decide (fieldName ∈ signedFields self)) maxVal defaultValue;
  Ret (Set_field self fieldName val None None).

Definition Get_reg_fields (self : FieldHelper) (regName : string) (regValue : Z) : gmap string Z :=
  map_imap (λ fieldName _, Some (Get_field self fieldName (Some regValue) (Some regName)))
    (default ∅ (allFields self !! regName)).

(** ** Printing a register *)

Definition hex_char (d : Z) : Ascii.ascii := ascii_of (if d <? 10 then 48 + d else 87 + d).

(** The hexadecimal digits of [n], before [acc]. *)
Fixpoint hex_onto (fuel : nat) (n : Z) (acc : string) : string :=
  match fuel with
  | O => acc
  | S fuel =>
      let acc := String (hex_char (n mod 16)) acc in
      if n <? 16 then acc else hex_onto fuel (n / 16) acc
  end.
Definition hex (n : Z) : string := hex_onto (S (Z.to_nat (Z.log2 n))) n EmptyString.

Fixpoint repeat_char (n : nat) (c : Ascii.ascii) : string :=
  match n with O => EmptyString | S n => String c (repeat_char n c) end.

(** [%0nx]: zero-padded to [n] places, the sign among them. *)
Definition fmt_0x (n : nat) (v : Z) : string :=
  let digits := hex (Z.abs v) in
  if v <? 0 then ("-" ++ repeat_char (n - 1 - String.length digits) (ascii_of 48) ++ digits)%string
  else (repeat_char (n - String.length digits) (ascii_of 48) ++ digits)%string.

(** [%-11s]. *)
Definition fmt_11s (s : string) : string := (s ++ repeat_char (11 - String.length s) (ascii_of 32))%string.

(** One field of the line, empty for a field without anything to show. *)
Definition pretty_field (self : FieldHelper) (regName : string) (regValue : Z) (fieldName : string) : go string :=
  let fieldValue := Get_field self fieldName (Some regValue) (Some regName) in
  stringValue ← match fieldFormatters self !! fieldName with
                | Some f => f fieldValue
                | None => Ret (Itoa fieldValue)
                end;
  Ret (if bool_decide (stringValue = EmptyString ∨ stringValue = "0") then EmptyString
       else (" " ++ fieldName ++ "=" ++ stringValue)%string).

Definition Pretty_format (self : FieldHelper) (regName : string) (regValue : Z) : go string :=
  let keys := sort_strings (map_to_list (default ∅ (allFields self !! regName))).*1 in
  flds ← range (λ acc fieldName, x ← pretty_field self regName regValue fieldName; Ret (acc ++ x)%string) EmptyString keys;
  Ret (fmt_11s (regName ++ ":") ++ " " ++ fmt_0x 8 regValue ++ flds)%string.
