(* ===== verification/TmcFieldsThy.v ===== *)
(** * Reading and writing register fields

    A mask is a run of [w] ones at position [k] of a 32-bit register.  On such
    masks [Get_field] extracts the number held by those bits and [Set_field]
    replaces it, leaving every other field alone ([Set_field_correct]); the
    invariant [tracked] ties the register order to the registers held, so that
    [orderedRegisterNames] enumerates them once each. *)

From S2P Require Import Prelude GoFloat GoStrings GoState TmcFields.

(** ** Masks *)

Definition run_mask (k w : Z) : Z := Z.shiftl (Z.ones w) k.

Definition is_run (mask k w : Z) : Prop :=
  0 ≤ k ∧ 0 < w ∧ k + w ≤ 32 ∧ mask = run_mask k w.

(** The test for a run of ones, by its own end points. *)
Definition mask_ok (mask : Z) : bool :=
  let k := ffs mask in
  let w := bits_Len mask - k in
  (0 <=? k) && (0 <? w) && (k + w <=? 32) && (mask =? run_mask k w).

Lemma mask_ok_run mask : mask_ok mask = true → ∃ k w, is_run mask k w.
Proof.
  unfold mask_ok. intros H. exists (ffs mask), (bits_Len mask - ffs mask).
  rewrite !andb_true_iff, !Z.leb_le, Z.ltb_lt, Z.eqb_eq in H. unfold is_run. tauto.
Qed.

Lemma ffs_run k w : 0 ≤ k → 0 < w → k + w ≤ 32 → ffs (run_mask k w) = k.
Proof.
  intros. apply Z.eqb_eq.
  assert (Hall : all_below 32 (λ k, all_below 33 (λ w,
    (w =? 0) || (32 <? k + w) || (ffs (run_mask k w) =? k))) = true) by (vm_compute; done).
  apply (all_below_spec _ _ k) in Hall; [|lia]. cbv beta in Hall.
  apply (all_below_spec _ _ w) in Hall; [|lia]. cbv beta in Hall.
  apply orb_true_iff in Hall as [Hall|Hall]; [|done].
  apply orb_true_iff in Hall as [Hall|Hall]; lia.
Qed.

Lemma run_mask_mul k w : 0 ≤ k → 0 ≤ w → run_mask k w = (2 ^ w - 1) * 2 ^ k.
Proof. intros. unfold run_mask. rewrite Z.shiftl_mul_pow2, Z.ones_equiv by lia. lia. Qed.

Lemma run_mask_bit k w i :
  0 ≤ k → 0 ≤ w → 0 ≤ i → Z.testbit (run_mask k w) i = bool_decide (k ≤ i < k + w).
Proof.
  intros. unfold run_mask. rewrite Z.shiftl_spec by lia. case_bool_decide.
  - rewrite Z.ones_spec_low; [done|lia].
  - destruct (decide (i < k)); [apply Z.testbit_neg_r; lia|].
    apply Z.ones_spec_high. lia.
Qed.

(** ** The number held by a run of bits *)

Definition bits_of (k w r : Z) : Z := Z.shiftr r k mod 2 ^ w.

Definition sign_wrap (w x : Z) : Z := if bool_decide (2 ^ (w - 1) ≤ x) then x - 2 ^ w else x.

Lemma bits_of_bit k w r i :
  0 ≤ k → 0 ≤ w → 0 ≤ i → Z.testbit (bits_of k w r) i = bool_decide (i < w) && Z.testbit r (i + k).
Proof.
  intros. unfold bits_of. case_bool_decide; simpl.
  - rewrite Z.mod_pow2_bits_low, Z.shiftr_spec by lia. done.
  - apply Z.mod_pow2_bits_high. lia.
Qed.

Lemma bits_of_range k w r : 0 ≤ w → 0 ≤ bits_of k w r < 2 ^ w.
Proof. intros. apply Z.mod_pos_bound. lia. Qed.

Lemma land_run k w r :
  0 ≤ k → 0 ≤ w → Z.land r (run_mask k w) = bits_of k w r * 2 ^ k.
Proof.
  intros. rewrite <- Z.shiftl_mul_pow2 by lia. bitwise i.
  rewrite run_mask_bit by lia.
  destruct (decide (i < k)).
  - rewrite bool_decide_false, andb_false_r by lia. by rewrite Z.testbit_neg_r by lia.
  - rewrite bits_of_bit by lia. replace (i - k + k) with i by lia. rewrite andb_comm. f_equal.
    apply bool_decide_ext. lia.
Qed.

Lemma bits_of_le_mul k w r : 0 ≤ k → 0 < w → k + w ≤ 32 → bits_of k w r * 2 ^ k < 2 ^ 32.
Proof.
  intros. pose proof (bits_of_range k w r ltac:(lia)).
  assert (2 ^ w * 2 ^ k ≤ 2 ^ 32) by (rewrite <- Z.pow_add_r by lia; apply Z.pow_le_mono_r; lia).
  assert (0 < 2 ^ k) by lia. nia.
Qed.

Lemma bits_Len_top w x : 0 < w ≤ 32 → 2 ^ (w - 1) ≤ x < 2 ^ w → bits_Len x = w.
Proof.
  intros Hw Hx. unfold bits_Len, u64.
  assert (2 ^ w ≤ 2 ^ 32) by (apply Z.pow_le_mono_r; lia).
  assert (0 < 2 ^ (w - 1)) by lia.
  rewrite Z.mod_small by lia. rewrite bool_decide_false by lia.
  rewrite (Z.log2_unique x (w - 1)); [lia|lia|]. by replace (Z.succ (w - 1)) with w by lia.
Qed.

(** The value [Get_field] computes from a register value, on a run. *)
Definition decode (signed : bool) (k w r : Z) : Z :=
  if signed then sign_wrap w (bits_of k w r) else bits_of k w r.

Lemma decode_land signed k w r r' :
  0 ≤ k → 0 ≤ w →
  Z.land r (run_mask k w) = Z.land r' (run_mask k w) → decode signed k w r = decode signed k w r'.
Proof.
  intros Hk Hw H. unfold decode. replace (bits_of k w r') with (bits_of k w r); [done|].
  rewrite !land_run in H by lia. apply Z.mul_cancel_r in H; [done|]. lia.
Qed.

Lemma Get_field_decode self f regValue regName r k w :
  r = default (register_of self f) regName →
  is_run (mask_of self r f) k w →
  Get_field self f regValue regName =
    decode (bool_decide (f ∈ signedFields self)) k w (default (reg_value self r) regValue).
Proof.
  intros -> (Hk & Hw & Hkw & Hm). unfold Get_field. cbv zeta. rewrite Hm, ffs_run by lia.
  set (v := default (reg_value self (default (register_of self f) regName)) regValue).
  pose proof (bits_of_range k w v ltac:(lia)).
  pose proof (bits_of_le_mul k w v ltac:(lia) ltac:(lia) ltac:(lia)).
  assert (0 < 2 ^ k) by lia.
  rewrite land_run by lia. rewrite Z.shiftr_div_pow2, Z.div_mul by lia.
  unfold decode. case_bool_decide as Hs; simpl; [|done]. unfold sign_wrap.
  rewrite Z.shiftl_mul_pow2 by lia. rewrite i64_id by nia.
  rewrite run_mask_mul by lia.
  assert (H2 : 2 ^ w = 2 * 2 ^ (w - 1)) by (rewrite <- Z.pow_succ_r by lia; f_equal; lia).
  assert (2 ^ w ≤ 2 ^ 32) by (apply Z.pow_le_mono_r; lia).
  rewrite (bool_decide_ext _ (2 ^ (w - 1) ≤ bits_of k w v)).
  2: { split; intros; nia. }
  case_bool_decide; [|done].
  rewrite (bits_Len_top w), Z.shiftl_1_l by lia. rewrite (i64_id (2 ^ w)), i64_id by lia. done.
Qed.

(** ** Writing *)

Lemma i64_bit z i : 0 ≤ i < 64 → Z.testbit (i64 z) i = Z.testbit z i.
Proof.
  intros. rewrite <- (Z.mod_pow2_bits_low (i64 z) 64), <- (Z.mod_pow2_bits_low z 64) by lia.
  f_equal. unfold i64. rewrite Zminus_mod, Z.mod_mod, <- Zminus_mod by lia. f_equal. lia.
Qed.

Definition merge (mask r v : Z) : Z := Z.lor (Z.land r (Z.lnot mask)) (Z.land v mask).

Lemma merge_other mask mask' r v :
  Z.land mask mask' = 0 → Z.land (merge mask r v) mask' = Z.land r mask'.
Proof.
  intros H. unfold merge. bitwise i.
  assert (Hi' : Z.testbit mask i && Z.testbit mask' i = false)
    by (rewrite <- Z.land_spec, H; apply Z.bits_0).
  by destruct (Z.testbit mask i), (Z.testbit mask' i), (Z.testbit r i), (Z.testbit v i).
Qed.

Lemma bits_of_merge k w r v :
  0 ≤ k → 0 < w → k + w ≤ 32 →
  bits_of k w (merge (run_mask k w) r (i64 (Z.shiftl v k))) = v mod 2 ^ w.
Proof.
  intros. apply Z.bits_inj'. intros i Hi. rewrite bits_of_bit by lia.
  case_bool_decide; simpl.
  - rewrite Z.mod_pow2_bits_low by lia. unfold merge. autorewrite with bits.
    rewrite run_mask_bit, bool_decide_true, andb_false_r, andb_true_r, orb_false_l by lia.
    rewrite i64_bit, Z.shiftl_spec by lia. f_equal. lia.
  - by rewrite Z.mod_pow2_bits_high by lia.
Qed.

(** ** Well-formed helpers *)

(** Every indexed field is a run of bits and two fields of a register do not
    overlap. *)
Record wf (self : FieldHelper) : Prop := {
  wf_run : ∀ f r, fieldToRegister self !! f = Some r → ∃ k w, is_run (mask_of self r f) k w;
  wf_disjoint : ∀ f g r, fieldToRegister self !! f = Some r → fieldToRegister self !! g = Some r →
    f ≠ g → Z.land (mask_of self r f) (mask_of self r g) = 0
}.

(** The number a field can hold for a value: reduced to its width, with the
    sign for the signed fields. *)
Definition fit (self : FieldHelper) (f : string) (v : Z) : Z :=
  let mask := mask_of self (register_of self f) f in
  let w := bits_Len mask - ffs mask in
  if bool_decide (f ∈ signedFields self) then sign_wrap w (v mod 2 ^ w) else v mod 2 ^ w.

(** Same tables: what no operation changes. *)
Definition same_schema (a b : FieldHelper) : Prop :=
  allFields a = allFields b ∧ signedFields a = signedFields b ∧ fieldToRegister a = fieldToRegister b.

#[global] Instance same_schema_equiv : Equivalence same_schema.
Proof. unfold same_schema. split; red; intuition congruence. Qed.

Lemma trackRegister_schema self r : same_schema (trackRegister self r) self.
Proof. unfold trackRegister. by case_bool_decide. Qed.

Lemma trackRegister_registers self r : registers (trackRegister self r) = registers self.
Proof. unfold trackRegister. by case_bool_decide. Qed.

Lemma Set_field_schema self f v rv rn : same_schema (Set_field self f v rv rn).2 self.
Proof. apply (trackRegister_schema self). Qed.

Lemma schema_mask_of a b r f : same_schema a b → mask_of a r f = mask_of b r f.
Proof. intros (H & _). unfold mask_of. by rewrite H. Qed.
Lemma schema_register_of a b f : same_schema a b → register_of a f = register_of b f.
Proof. intros (_ & _ & H). unfold register_of. by rewrite H. Qed.
Lemma schema_lookup a b f : same_schema a b → Lookup_register a f = Lookup_register b f.
Proof. intros (_ & _ & H). unfold Lookup_register. by rewrite H. Qed.
Lemma schema_fit a b f v : same_schema a b → fit a f v = fit b f v.
Proof.
  intros H. unfold fit. rewrite (schema_register_of a b), (schema_mask_of a b) by done.
  by destruct H as (_ & -> & _).
Qed.

Lemma wf_schema a b : same_schema a b → wf b → wf a.
Proof.
  intros H [H1 H2]. destruct H as (Ha & Hs & Hf). split.
  - intros f r Hr. rewrite Hf in Hr. unfold mask_of. rewrite Ha. by apply H1.
  - intros f g r Hr Hg. rewrite Hf in Hr, Hg. unfold mask_of. rewrite Ha. by apply H2.
Qed.

Lemma register_of_lookup self f r : fieldToRegister self !! f = Some r → register_of self f = r.
Proof. unfold register_of. by intros ->. Qed.

Lemma Set_field_register self f v r :
  fieldToRegister self !! f = Some r →
  let '(x, self') := Set_field self f v None None in
  registers self' = <[r := x]> (registers self) ∧
  x = merge (mask_of self r f) (reg_value self r) (i64 (Z.shiftl (ToInt64 v) (ffs (mask_of self r f)))).
Proof.
  intros Hr. unfold Set_field. simpl. rewrite (register_of_lookup _ _ _ Hr).
  by rewrite trackRegister_registers.
Qed.

Lemma reg_value_insert self self' r x r' :
  registers self' = <[r := x]> (registers self) →
  reg_value self' r' = if bool_decide (r' = r) then x else reg_value self r'.
Proof.
  intros H. unfold reg_value. rewrite H. case_bool_decide; subst.
  - by rewrite lookup_insert_eq.
  - by rewrite lookup_insert_ne.
Qed.

Lemma run_width mask k w : is_run mask k w → bits_Len mask - ffs mask = w.
Proof.
  intros (Hk & Hw & Hkw & ->). rewrite ffs_run by lia.
  assert (bits_Len (run_mask k w) = k + w); [|lia].
  apply bits_Len_top; [lia|]. rewrite run_mask_mul by lia.
  replace (k + w - 1) with (w - 1 + k) by lia. rewrite !Z.pow_add_r by lia.
  assert (2 ^ w = 2 * 2 ^ (w - 1)) by (rewrite <- Z.pow_succ_r by lia; f_equal; lia).
  assert (0 < 2 ^ k) by lia. assert (0 < 2 ^ (w - 1)) by lia. nia.
Qed.

(** Reading back the field written. *)
Lemma Get_Set_field self f v r :
  wf self → fieldToRegister self !! f = Some r →
  Get_field (Set_field self f v None None).2 f None None = fit self f (ToInt64 v).
Proof.
  intros Hwf Hr. pose proof (Set_field_register self f v r Hr) as Hs.
  pose proof (Set_field_schema self f v None None) as Hsch.
  destruct (wf_run _ Hwf f r Hr) as (k & w & Hrun).
  destruct (Set_field self f v None None) as [x self']. simpl in *. destruct Hs as [Hregs Hx].
  rewrite (Get_field_decode _ _ _ _ r k w).
  - simpl. rewrite (reg_value_insert _ _ _ _ _ Hregs), (bool_decide_true (r = r)) by done.
    rewrite Hx. unfold fit. rewrite (register_of_lookup _ _ _ Hr), (run_width _ _ _ Hrun).
    destruct Hsch as (_ & -> & _). destruct Hrun as (Hk & Hw & Hkw & Hm).
    rewrite Hm, ffs_run by lia. unfold decode. by rewrite bits_of_merge by lia.
  - simpl. rewrite (schema_register_of _ self) by done. symmetry. by apply register_of_lookup.
  - by rewrite (schema_mask_of _ self).
Qed.

(** Reading any other field. *)
Lemma Get_Set_other self f v r g rg :
  wf self → fieldToRegister self !! f = Some r → fieldToRegister self !! g = Some rg → g ≠ f →
  Get_field (Set_field self f v None None).2 g None None = Get_field self g None None.
Proof.
  intros Hwf Hr Hg Hne. pose proof (Set_field_register self f v r Hr) as Hs.
  pose proof (Set_field_schema self f v None None) as Hsch.
  destruct (wf_run _ Hwf g rg Hg) as (k & w & Hrun).
  destruct (Set_field self f v None None) as [x self']. simpl in *. destruct Hs as [Hregs Hx].
  rewrite (Get_field_decode self _ _ _ rg k w); [|symmetry; by apply register_of_lookup|done].
  rewrite (Get_field_decode self' _ _ _ rg k w).
  - simpl. rewrite (reg_value_insert _ _ _ _ _ Hregs).
    destruct Hsch as (_ & -> & _).
    destruct (decide (rg = r)) as [->|]; [rewrite (bool_decide_true (r = r)) by done
      |by rewrite (bool_decide_false (rg = r)) by done].
    pose proof (wf_disjoint _ Hwf f g r Hr Hg (not_eq_sym Hne)) as Hd.
    destruct Hrun as (Hk & Hw & Hkw & Hm). apply decode_land; [lia..|].
    rewrite Hx, <- Hm. by apply merge_other.
  - simpl. rewrite (schema_register_of _ self) by done. symmetry. by apply register_of_lookup.
  - by rewrite (schema_mask_of _ self).
Qed.

Lemma sign_wrap_mod w x : 0 < w → 0 ≤ x < 2 ^ w → sign_wrap w x mod 2 ^ w = x.
Proof.
  intros Hw Hx. unfold sign_wrap. case_bool_decide; [|by apply Z.mod_small].
  rewrite <- (Z.mod_small x (2 ^ w)) at 2 by lia.
  rewrite <- (Z_mod_plus_full x (-1) (2 ^ w)). f_equal; lia.
Qed.

(** A value read from a field can be written back to it unchanged. *)
Lemma Get_field_fit fh f r :
  wf fh → fieldToRegister fh !! f = Some r →
  fit fh f (Get_field fh f None None) = Get_field fh f None None.
Proof.
  intros Hw Hr. destruct (wf_run _ Hw f r Hr) as (k & w & Hrun).
  rewrite (Get_field_decode _ _ _ _ r k w); [|symmetry; by apply register_of_lookup|done].
  unfold fit. rewrite (register_of_lookup _ _ _ Hr), (run_width _ _ _ Hrun).
  destruct Hrun as (Hk & Hw0 & _). unfold decode. simpl.
  pose proof (bits_of_range k w (reg_value fh r) ltac:(lia)).
  case_bool_decide; [by rewrite sign_wrap_mod by lia|by apply Z.mod_small].
Qed.

(** ** The register order *)

(** The registers held are the ones tracked, each once. *)
Definition tracked (self : FieldHelper) : Prop :=
  NoDup (registerOrder self) ∧ registerSeen self = list_to_set (registerOrder self) ∧
  dom (registers self) = registerSeen self.

Lemma Set_field_tracked self f v : tracked self → tracked (Set_field self f v None None).2.
Proof.
  intros (Hnd & Hseen & Hdom). unfold Set_field, tracked. simpl.
  set (r := register_of self f). rewrite dom_insert_L.
  unfold trackRegister. case_bool_decide as Hr; simpl; split_and!; try done.
  - set_solver.
  - apply NoDup_app. split_and!; [done| |apply NoDup_singleton].
    intros x Hx ->%list_elem_of_singleton. apply Hr. rewrite Hseen. by apply elem_of_list_to_set.
  - rewrite list_to_set_app_L. set_solver.
  - set_solver.
Qed.

Lemma NewFieldHelper_tracked t signed fmts regs : tracked (NewFieldHelper t signed fmts regs).
Proof.
  unfold tracked, NewFieldHelper. simpl. set (m := default ∅ regs).
  pose proof (sort_strings_perm (map_to_list m).*1) as Hp. split_and!.
  - rewrite Hp. apply NoDup_fst_map_to_list.
  - done.
  - rewrite Hp. unfold_leibniz. by rewrite dom_alt.
Qed.

Lemma orderedRegisterNames_tracked self :
  tracked self →
  orderedRegisterNames self = registerOrder self ∧ NoDup (orderedRegisterNames self) ∧
  ∀ r, r ∈ orderedRegisterNames self ↔ is_Some (registers self !! r).
Proof.
  intros (Hnd & Hseen & Hdom).
  assert (Ho : orderedRegisterNames self = registerOrder self).
  { unfold orderedRegisterNames. rewrite bool_decide_true; [done|].
    rewrite <- size_dom, Hdom, Hseen. symmetry. by apply size_list_to_set. }
  rewrite Ho. split_and!; [done..|]. intros r.
  rewrite <- elem_of_dom, Hdom, Hseen. by rewrite elem_of_list_to_set.
Qed.

(** ** Tables *)

(** The check that a table is usable: distinct register names, distinct fields
    in a register, masks that are runs and do not overlap. *)
Fixpoint disjoint_masks (fs : list (string * Z)) : bool :=
  match fs with
  | [] => true
  | (_, m) :: fs => forallb (λ e, Z.land m e.2 =? 0) fs && disjoint_masks fs
  end.

Definition register_ok (fs : list (string * Z)) : bool :=
  bool_decide (NoDup fs.*1) && forallb (λ e, mask_ok e.2) fs && disjoint_masks fs.

Definition table_ok (t : fieldTable) : bool :=
  bool_decide (NoDup t.*1) && forallb (λ e, register_ok e.2) t.

Lemma disjoint_masks_lookup fs f g m n :
  disjoint_masks fs = true → (f, m) ∈ fs → (g, n) ∈ fs → f ≠ g → Z.land m n = 0.
Proof.
  induction fs as [|[h q] fs IH]; [by intros _ ?%not_elem_of_nil|].
  simpl. rewrite andb_true_iff. intros [Hh Hd] Hf Hg Hne.
  rewrite forallb_forall in Hh.
  apply elem_of_cons in Hf as [[= -> ->]|Hf], Hg as [[= -> ->]|Hg]; try done.
  - apply list_elem_of_In in Hg. apply Hh in Hg. simpl in Hg. lia.
  - apply list_elem_of_In in Hf. apply Hh in Hf. simpl in Hf. rewrite Z.land_comm. lia.
  - by apply IH.
Qed.

Lemma field_index_step r fs acc f r0 :
  fold_left (λ acc '(fieldName, _), <[fieldName := r]> acc) fs acc !! f = Some r0 →
  (r0 = r ∧ f ∈ (fs : list (string * Z)).*1) ∨ (acc : gmap string string) !! f = Some r0.
Proof.
  revert acc; induction fs as [|[g m] fs IH]; simpl; intros acc H; [auto|].
  apply IH in H as [[-> H]|H]; [left; split; [done|by constructor 2]|].
  apply lookup_insert_Some in H as [[-> ->]|[_ H]]; [left; split; [done|constructor]|auto].
Qed.

Lemma field_index_elem t f r :
  field_index t !! f = Some r → ∃ fs, (r, fs) ∈ t ∧ f ∈ fs.*1.
Proof.
  unfold field_index.
  assert (H : ∀ acc : gmap string string, fold_left (λ acc '(registerName, fields),
    fold_left (λ acc '(fieldName, _), <[fieldName := registerName]> acc) fields acc) t acc !! f
      = Some r → (∃ fs, (r, fs) ∈ t ∧ f ∈ fs.*1) ∨ acc !! f = Some r).
  { induction t as [|[r1 fs1] t IH]; simpl; intros acc H; [auto|].
    apply IH in H as [(fs & Hin & Hf)|H]; [left; exists fs; split; [by constructor 2|done]|].
    apply field_index_step in H as [[-> H]|H]; [|auto].
    left. exists fs1. split; [constructor|done]. }
  intros Hl. apply H in Hl as [?|Hl]; [done|]. by rewrite lookup_empty in Hl.
Qed.

Lemma NewFieldHelper_mask t signed fmts regs r fs f m :
  NoDup t.*1 → NoDup fs.*1 → (r, fs) ∈ t → (f, m) ∈ fs →
  mask_of (NewFieldHelper t signed fmts regs) r f = m.
Proof.
  intros Ht Hfs Hr Hf. unfold mask_of, NewFieldHelper. simpl.
  rewrite (elem_of_list_to_map_1 _ r (list_to_map fs)).
  - simpl. by rewrite (elem_of_list_to_map_1 _ f m).
  - rewrite <- list_fmap_compose. erewrite list_fmap_ext; [exact Ht|]. intros ? [? ?] ?. done.
  - apply list_elem_of_fmap. by exists (r, fs).
Qed.

Lemma NewFieldHelper_wf t signed fmts regs :
  table_ok t = true → wf (NewFieldHelper t signed fmts regs).
Proof.
  unfold table_ok. rewrite andb_true_iff, bool_decide_eq_true, forallb_forall. intros [Hnd Hall].
  assert (Hreg : ∀ r fs, (r, fs) ∈ t → NoDup fs.*1 ∧ (∀ f m, (f, m) ∈ fs → mask_ok m = true) ∧
    disjoint_masks fs = true).
  { intros r fs Hin%list_elem_of_In. apply Hall in Hin. unfold register_ok in Hin. simpl in Hin.
    rewrite !andb_true_iff, bool_decide_eq_true, forallb_forall in Hin.
    destruct Hin as [[? Hm] ?]. split_and!; try done.
    intros f m Hf%list_elem_of_In. by apply (Hm (f, m)). }
  assert (Hidx : ∀ f r, field_index t !! f = Some r → ∃ fs m, (r, fs) ∈ t ∧ (f, m) ∈ fs ∧
    mask_of (NewFieldHelper t signed fmts regs) r f = m).
  { intros f r (fs & Hin & Hf)%field_index_elem. apply list_elem_of_fmap in Hf as ([f' m] & Hff & Hf).
    simpl in Hff. subst f'. exists fs, m. split_and!; [done..|].
    destruct (Hreg r fs Hin) as (? & _). by eapply NewFieldHelper_mask. }
  split.
  - intros f r (fs & m & Hin & Hf & Hm)%Hidx. rewrite Hm. destruct (Hreg r fs Hin) as (_ & Hok & _).
    by eapply mask_ok_run, Hok.
  - intros f g r (fs & m & Hin & Hf & Hm)%Hidx (gs & n & Hing & Hg & Hn)%Hidx Hne. rewrite Hm, Hn.
    assert (gs = fs) as ->.
    { apply (elem_of_list_to_map_1 (M := gmap string)) in Hin, Hing; [|done..]. congruence. }
    destruct (Hreg r fs Hin) as (_ & _ & Hd). by eapply disjoint_masks_lookup.
Qed.
