(* ===== verification/TmcDefs.v ===== *)
(** * The chips

    The register, field and default tables of the six supported stepper
    drivers, from [src/internal/pkg/tmc/tmc*_defs.go] and
    [config_helpers.go], written in the order of the source. *)

From S2P Require Import Prelude GoFloat GoStrings GoState TmcFields.

(** One line of a [ConfigureTMC...] function: a fixed field or one that the
    configuration may override. *)
Inductive cstep : Type :=
| CSet (fieldName : string) (v : any)
| CConfig (fieldName : string) (default : any).

Definition configure_step `{ConfigFieldSource C} (config : C) (fields : FieldHelper) (s : cstep)
    : go FieldHelper :=
  match s with
  | CSet f v => Ret (Set_field fields f v None None).2
  | CConfig f d => '(_, fields') ← Set_config_field fields config f d; Ret fields'
  end.

Definition configure `{ConfigFieldSource C} (config : C) (steps : list cstep)
    (fields : FieldHelper) : go FieldHelper :=
  range (configure_step config) fields steps.

Definition TMC2130Registers : list (string * Z) :=
  [("GCONF", 0x00); ("GSTAT", 0x01); ("IOIN", 0x04); ("IHOLD_IRUN", 0x10);
   ("TPOWERDOWN", 0x11); ("TSTEP", 0x12); ("TPWMTHRS", 0x13); ("TCOOLTHRS", 0x14);
   ("THIGH", 0x15); ("XDIRECT", 0x2d); ("MSLUT0", 0x60); ("MSLUTSEL", 0x68);
   ("MSLUTSTART", 0x69); ("MSCNT", 0x6a); ("MSCURACT", 0x6b); ("CHOPCONF", 0x6c);
   ("COOLCONF", 0x6d); ("DCCTRL", 0x6e); ("DRV_STATUS", 0x6f); ("PWMCONF", 0x70);
   ("PWM_SCALE", 0x71); ("ENCM_CTRL", 0x72); ("LOST_STEPS", 0x73)].

Definition TMC2130ReadRegisters : list string :=
  ["GCONF"; "GSTAT"; "IOIN"; "TSTEP"; "XDIRECT"; "MSCNT"; "MSCURACT"; "CHOPCONF";
   "DRV_STATUS"; "PWM_SCALE"; "LOST_STEPS"].

Definition TMC2130Fields : fieldTable :=
  [("GCONF", [("i_scale_analog", Z.shiftl 1 0); ("internal_rsense", Z.shiftl 1 1);
     ("en_pwm_mode", Z.shiftl 1 2); ("enc_commutation", Z.shiftl 1 3);
     ("shaft", Z.shiftl 1 4); ("diag0_error", Z.shiftl 1 5); ("diag0_otpw", Z.shiftl 1 6);
     ("diag0_stall", Z.shiftl 1 7); ("diag1_stall", Z.shiftl 1 8);
     ("diag1_index", Z.shiftl 1 9); ("diag1_onstate", Z.shiftl 1 10);
     ("diag1_steps_skipped", Z.shiftl 1 11); ("diag0_int_pushpull", Z.shiftl 1 12);
     ("diag1_pushpull", Z.shiftl 1 13); ("small_hysteresis", Z.shiftl 1 14);
     ("stop_enable", Z.shiftl 1 15); ("direct_mode", Z.shiftl 1 16);
     ("test_mode", Z.shiftl 1 17)]);
   ("GSTAT", [("reset", Z.shiftl 1 0); ("drv_err", Z.shiftl 1 1);
     ("uv_cp", Z.shiftl 1 2)]);
   ("IOIN", [("step", Z.shiftl 1 0); ("dir", Z.shiftl 1 1); ("dcen_cfg4", Z.shiftl 1 2);
     ("dcin_cfg5", Z.shiftl 1 3); ("drv_enn_cfg6", Z.shiftl 1 4); ("dco", Z.shiftl 1 5);
     ("version", Z.shiftl 0xff 24)]);
   ("IHOLD_IRUN", [("ihold", Z.shiftl 0x1f 0); ("irun", Z.shiftl 0x1f 8);
     ("iholddelay", Z.shiftl 0x0f 16)]);
   ("TPOWERDOWN", [("tpowerdown", 0xff)]);
   ("TSTEP", [("tstep", 0xfffff)]);
   ("TPWMTHRS", [("tpwmthrs", 0xfffff)]);
   ("TCOOLTHRS", [("tcoolthrs", 0xfffff)]);
   ("THIGH", [("thigh", 0xfffff)]);
   ("MSLUT0", [("mslut0", 0xffffffff)]);
   ("MSLUT1", [("mslut1", 0xffffffff)]);
   ("MSLUT2", [("mslut2", 0xffffffff)]);
   ("MSLUT3", [("mslut3", 0xffffffff)]);
   ("MSLUT4", [("mslut4", 0xffffffff)]);
   ("MSLUT5", [("mslut5", 0xffffffff)]);
   ("MSLUT6", [("mslut6", 0xffffffff)]);
   ("MSLUT7", [("mslut7", 0xffffffff)]);
   ("MSLUTSEL", [("x3", Z.shiftl 0xff 24); ("x2", Z.shiftl 0xff 16);
     ("x1", Z.shiftl 0xff 8); ("w3", Z.shiftl 0x03 6); ("w2", Z.shiftl 0x03 4);
     ("w1", Z.shiftl 0x03 2); ("w0", Z.shiftl 0x03 0)]);
   ("MSLUTSTART", [("start_sin", Z.shiftl 0xff 0); ("start_sin90", Z.shiftl 0xff 16)]);
   ("MSCNT", [("mscnt", 0x3ff)]);
   ("MSCURACT", [("cur_a", 0x1ff); ("cur_b", Z.shiftl 0x1ff 16)]);
   ("CHOPCONF", [("toff", 0x0f); ("hstrt", Z.shiftl 0x07 4); ("hend", Z.shiftl 0x0f 7);
     ("fd3", Z.shiftl 1 11); ("disfdcc", Z.shiftl 1 12); ("rndtf", Z.shiftl 1 13);
     ("chm", Z.shiftl 1 14); ("tbl", Z.shiftl 0x03 15); ("vsense", Z.shiftl 1 17);
     ("vhighfs", Z.shiftl 1 18); ("vhighchm", Z.shiftl 1 19); ("sync", Z.shiftl 0x0f 20);
     ("mres", Z.shiftl 0x0f 24); ("intpol", Z.shiftl 1 28); ("dedge", Z.shiftl 1 29);
     ("diss2g", Z.shiftl 1 30)]);
   ("COOLCONF", [("semin", 0x0f); ("seup", Z.shiftl 0x03 5); ("semax", Z.shiftl 0x0f 8);
     ("sedn", Z.shiftl 0x03 13); ("seimin", Z.shiftl 1 15); ("sgt", Z.shiftl 0x7f 16);
     ("sfilt", Z.shiftl 1 24)]);
   ("DRV_STATUS", [("sg_result", 0x3ff); ("fsactive", Z.shiftl 1 15);
     ("cs_actual", Z.shiftl 0x1f 16); ("stallguard", Z.shiftl 1 24); ("ot", Z.shiftl 1 25);
     ("otpw", Z.shiftl 1 26); ("s2ga", Z.shiftl 1 27); ("s2gb", Z.shiftl 1 28);
     ("ola", Z.shiftl 1 29); ("olb", Z.shiftl 1 30); ("stst", Z.shiftl 1 31)]);
   ("PWMCONF", [("pwm_ampl", 0xff); ("pwm_grad", Z.shiftl 0xff 8);
     ("pwm_freq", Z.shiftl 0x03 16); ("pwm_autoscale", Z.shiftl 1 18);
     ("pwm_symmetric", Z.shiftl 1 19); ("freewheel", Z.shiftl 0x03 20)]);
   ("PWM_SCALE", [("pwm_scale", 0xff)]);
   ("LOST_STEPS", [("lost_steps", 0xfffff)])].

Definition TMC2130SignedFields : list string :=
  ["cur_a"; "cur_b"; "sgt"].

Definition TMC2208Registers : list (string * Z) :=
  [("GCONF", 0x00); ("GSTAT", 0x01); ("IFCNT", 0x02); ("SLAVECONF", 0x03);
   ("OTP_PROG", 0x04); ("OTP_READ", 0x05); ("IOIN", 0x06); ("FACTORY_CONF", 0x07);
   ("IHOLD_IRUN", 0x10); ("TPOWERDOWN", 0x11); ("TSTEP", 0x12); ("TPWMTHRS", 0x13);
   ("VACTUAL", 0x22); ("MSCNT", 0x6a); ("MSCURACT", 0x6b); ("CHOPCONF", 0x6c);
   ("DRV_STATUS", 0x6f); ("PWMCONF", 0x70); ("PWM_SCALE", 0x71); ("PWM_AUTO", 0x72)].

Definition TMC2208ReadRegisters : list string :=
  ["GCONF"; "GSTAT"; "IFCNT"; "OTP_READ"; "IOIN"; "FACTORY_CONF"; "TSTEP"; "MSCNT";
   "MSCURACT"; "CHOPCONF"; "DRV_STATUS"; "PWMCONF"; "PWM_SCALE"; "PWM_AUTO"].

Definition TMC2208Fields : fieldTable :=
  [("GCONF", [("i_scale_analog", 0x01); ("internal_rsense", Z.shiftl 0x01 1);
     ("en_spreadcycle", Z.shiftl 0x01 2); ("shaft", Z.shiftl 0x01 3);
     ("index_otpw", Z.shiftl 0x01 4); ("index_step", Z.shiftl 0x01 5);
     ("pdn_disable", Z.shiftl 0x01 6); ("mstep_reg_select", Z.shiftl 0x01 7);
     ("multistep_filt", Z.shiftl 0x01 8); ("test_mode", Z.shiftl 0x01 9)]);
   ("GSTAT", [("reset", 0x01); ("drv_err", Z.shiftl 0x01 1); ("uv_cp", Z.shiftl 0x01 2)]);
   ("IFCNT", [("ifcnt", 0xff)]);
   ("SLAVECONF", [("senddelay", Z.shiftl 0x0f 8)]);
   ("OTP_PROG", [("otpbit", 0x07); ("otpbyte", Z.shiftl 0x03 4);
     ("otpmagic", Z.shiftl 0xff 8)]);
   ("OTP_READ", [("otp_fclktrim", 0x1f); ("otp_ottrim", Z.shiftl 0x01 5);
     ("otp_internalrsense", Z.shiftl 0x01 6); ("otp_tbl", Z.shiftl 0x01 7);
     ("otp_pwm_grad", Z.shiftl 0x0f 8); ("otp_pwm_autograd", Z.shiftl 0x01 12);
     ("otp_tpwmthrs", Z.shiftl 0x07 13); ("otp_pwm_ofs", Z.shiftl 0x01 16);
     ("otp_pwm_reg", Z.shiftl 0x01 17); ("otp_pwm_freq", Z.shiftl 0x01 18);
     ("otp_iholddelay", Z.shiftl 0x03 19); ("otp_ihold", Z.shiftl 0x03 21);
     ("otp_en_spreadcycle", Z.shiftl 0x01 23)]);
   ("IOIN@TMC222x", [("pdn_uart", Z.shiftl 0x01 1); ("spread", Z.shiftl 0x01 2);
     ("dir", Z.shiftl 0x01 3); ("enn", Z.shiftl 0x01 4); ("step", Z.shiftl 0x01 5);
     ("ms1", Z.shiftl 0x01 6); ("ms2", Z.shiftl 0x01 7); ("sel_a", Z.shiftl 0x01 8);
     ("version", Z.shiftl 0xff 24)]);
   ("IOIN@TMC220x", [("enn", 0x01); ("ms1", Z.shiftl 0x01 2); ("ms2", Z.shiftl 0x01 3);
     ("diag", Z.shiftl 0x01 4); ("pdn_uart", Z.shiftl 0x01 6); ("step", Z.shiftl 0x01 7);
     ("sel_a", Z.shiftl 0x01 8); ("dir", Z.shiftl 0x01 9); ("version", Z.shiftl 0xff 24)]);
   ("FACTORY_CONF", [("fclktrim", 0x1f); ("ottrim", Z.shiftl 0x03 8)]);
   ("IHOLD_IRUN", [("ihold", 0x1f); ("irun", Z.shiftl 0x1f 8);
     ("iholddelay", Z.shiftl 0x0f 16)]);
   ("TPOWERDOWN", [("tpowerdown", 0xff)]);
   ("TSTEP", [("tstep", 0xfffff)]);
   ("TPWMTHRS", [("tpwmthrs", 0xfffff)]);
   ("VACTUAL", [("vactual", 0xffffff)]);
   ("MSCNT", [("mscnt", 0x3ff)]);
   ("MSCURACT", [("cur_a", 0x1ff); ("cur_b", Z.shiftl 0x1ff 16)]);
   ("CHOPCONF", [("toff", 0x0f); ("hstrt", Z.shiftl 0x07 4); ("hend", Z.shiftl 0x0f 7);
     ("tbl", Z.shiftl 0x03 15); ("vsense", Z.shiftl 0x01 17); ("mres", Z.shiftl 0x0f 24);
     ("intpol", Z.shiftl 0x01 28); ("dedge", Z.shiftl 0x01 29);
     ("diss2g", Z.shiftl 0x01 30); ("diss2vs", Z.shiftl 0x01 31)]);
   ("DRV_STATUS", [("otpw", 0x01); ("ot", Z.shiftl 0x01 1); ("s2ga", Z.shiftl 0x01 2);
     ("s2gb", Z.shiftl 0x01 3); ("s2vsa", Z.shiftl 0x01 4); ("s2vsb", Z.shiftl 0x01 5);
     ("ola", Z.shiftl 0x01 6); ("olb", Z.shiftl 0x01 7); ("t120", Z.shiftl 0x01 8);
     ("t143", Z.shiftl 0x01 9); ("t150", Z.shiftl 0x01 10); ("t157", Z.shiftl 0x01 11);
     ("cs_actual", Z.shiftl 0x1f 16); ("stealth", Z.shiftl 0x01 30);
     ("stst", Z.shiftl 0x01 31)]);
   ("PWMCONF", [("pwm_ofs", 0xff); ("pwm_grad", Z.shiftl 0xff 8);
     ("pwm_freq", Z.shiftl 0x03 16); ("pwm_autoscale", Z.shiftl 0x01 18);
     ("pwm_autograd", Z.shiftl 0x01 19); ("freewheel", Z.shiftl 0x03 20);
     ("pwm_reg", Z.shiftl 0xf 24); ("pwm_lim", Z.shiftl 0xf 28)]);
   ("PWM_SCALE", [("pwm_scale_sum", 0xff); ("pwm_scale_auto", Z.shiftl 0x1ff 16)]);
   ("PWM_AUTO", [("pwm_ofs_auto", 0xff); ("pwm_grad_auto", Z.shiftl 0xff 16)])].

(** [TMC2208Fields[regName]]. *)
Definition TMC2208Fields_at (regName : string) : list (string * Z) :=
  default [] ((list_to_map TMC2208Fields : gmap string _) !! regName).

Definition TMC2208SignedFields : list string :=
  ["cur_a"; "cur_b"; "pwm_scale_auto"].

Definition TMC2209Registers : list (string * Z) :=
  [("GCONF", 0x00); ("GSTAT", 0x01); ("IFCNT", 0x02); ("SLAVECONF", 0x03);
   ("OTP_PROG", 0x04); ("OTP_READ", 0x05); ("IOIN", 0x06); ("FACTORY_CONF", 0x07);
   ("IHOLD_IRUN", 0x10); ("TPOWERDOWN", 0x11); ("TSTEP", 0x12); ("TPWMTHRS", 0x13);
   ("VACTUAL", 0x22); ("MSCNT", 0x6a); ("MSCURACT", 0x6b); ("CHOPCONF", 0x6c);
   ("DRV_STATUS", 0x6f); ("PWMCONF", 0x70); ("PWM_SCALE", 0x71); ("PWM_AUTO", 0x72);
   ("TCOOLTHRS", 0x14); ("COOLCONF", 0x42); ("SGTHRS", 0x40); ("SG_RESULT", 0x41)].

Definition TMC2209ReadRegisters : list string :=
  ["GCONF"; "GSTAT"; "IFCNT"; "OTP_READ"; "IOIN"; "FACTORY_CONF"; "TSTEP"; "MSCNT";
   "MSCURACT"; "CHOPCONF"; "DRV_STATUS"; "PWMCONF"; "PWM_SCALE"; "PWM_AUTO"; "SG_RESULT"].

Definition TMC2209Fields : fieldTable :=
  [("GCONF", TMC2208Fields_at "GCONF");
   ("GSTAT", TMC2208Fields_at "GSTAT");
   ("IFCNT", TMC2208Fields_at "IFCNT");
   ("SLAVECONF", TMC2208Fields_at "SLAVECONF");
   ("OTP_PROG", TMC2208Fields_at "OTP_PROG");
   ("OTP_READ", TMC2208Fields_at "OTP_READ");
   ("IOIN@TMC222x", TMC2208Fields_at "IOIN@TMC222x");
   ("IOIN@TMC220x", TMC2208Fields_at "IOIN@TMC220x");
   ("FACTORY_CONF", TMC2208Fields_at "FACTORY_CONF");
   ("IHOLD_IRUN", TMC2208Fields_at "IHOLD_IRUN");
   ("TPOWERDOWN", TMC2208Fields_at "TPOWERDOWN");
   ("TSTEP", TMC2208Fields_at "TSTEP");
   ("TPWMTHRS", TMC2208Fields_at "TPWMTHRS");
   ("VACTUAL", TMC2208Fields_at "VACTUAL");
   ("MSCNT", TMC2208Fields_at "MSCNT");
   ("MSCURACT", TMC2208Fields_at "MSCURACT");
   ("CHOPCONF", TMC2208Fields_at "CHOPCONF");
   ("DRV_STATUS", TMC2208Fields_at "DRV_STATUS");
   ("PWMCONF", TMC2208Fields_at "PWMCONF");
   ("PWM_SCALE", TMC2208Fields_at "PWM_SCALE");
   ("PWM_AUTO", TMC2208Fields_at "PWM_AUTO");
   ("COOLCONF", [("semin", Z.shiftl 0x0f 0); ("seup", Z.shiftl 0x03 5);
     ("semax", Z.shiftl 0x0f 8); ("sedn", Z.shiftl 0x03 13); ("seimin", Z.shiftl 0x01 15)]);
   ("IOIN", [("enn", Z.shiftl 0x01 0); ("ms1", Z.shiftl 0x01 2); ("ms2", Z.shiftl 0x01 3);
     ("diag", Z.shiftl 0x01 4); ("pdn_uart", Z.shiftl 0x01 6); ("step", Z.shiftl 0x01 7);
     ("spread_en", Z.shiftl 0x01 8); ("dir", Z.shiftl 0x01 9);
     ("version", Z.shiftl 0xff 24)]);
   ("SGTHRS", [("sgthrs", Z.shiftl 0xff 0)]);
   ("SG_RESULT", [("sg_result", Z.shiftl 0x3ff 0)]);
   ("TCOOLTHRS", [("tcoolthrs", 0xfffff)])].

Definition TMC2240Registers : list (string * Z) :=
  [("GCONF", 0x00); ("GSTAT", 0x01); ("IFCNT", 0x02); ("NODECONF", 0x03); ("IOIN", 0x04);
   ("DRV_CONF", 0x0a); ("GLOBALSCALER", 0x0b); ("IHOLD_IRUN", 0x10); ("TPOWERDOWN", 0x11);
   ("TSTEP", 0x12); ("TPWMTHRS", 0x13); ("TCOOLTHRS", 0x14); ("THIGH", 0x15);
   ("DIRECT_MODE", 0x2d); ("ENCMODE", 0x38); ("X_ENC", 0x39); ("ENC_CONST", 0x3a);
   ("ENC_STATUS", 0x3b); ("ENC_LATCH", 0x3c); ("ADC_VSUPPLY_AIN", 0x50); ("ADC_TEMP", 0x51);
   ("OTW_OV_VTH", 0x52); ("MSLUT0", 0x60); ("MSLUT1", 0x61); ("MSLUT2", 0x62);
   ("MSLUT3", 0x63); ("MSLUT4", 0x64); ("MSLUT5", 0x65); ("MSLUT6", 0x66); ("MSLUT7", 0x67);
   ("MSLUTSEL", 0x68); ("MSLUTSTART", 0x69); ("MSCNT", 0x6a); ("MSCURACT", 0x6b);
   ("CHOPCONF", 0x6c); ("COOLCONF", 0x6d); ("DRV_STATUS", 0x6f); ("PWMCONF", 0x70);
   ("PWM_SCALE", 0x71); ("PWM_AUTO", 0x72); ("SG4_THRS", 0x74); ("SG4_RESULT", 0x75);
   ("SG4_IND", 0x76)].

Definition TMC2240ReadRegisters : list string :=
  ["GCONF"; "GSTAT"; "IOIN"; "DRV_CONF"; "GLOBALSCALER"; "IHOLD_IRUN"; "TPOWERDOWN";
   "TSTEP"; "TPWMTHRS"; "TCOOLTHRS"; "THIGH"; "ADC_VSUPPLY_AIN"; "ADC_TEMP"; "MSCNT";
   "MSCURACT"; "CHOPCONF"; "COOLCONF"; "DRV_STATUS"; "PWMCONF"; "PWM_SCALE"; "PWM_AUTO";
   "SG4_THRS"; "SG4_RESULT"; "SG4_IND"].

Definition TMC2240Fields : fieldTable :=
  [("COOLCONF", [("semin", Z.shiftl 0x0f 0); ("seup", Z.shiftl 0x03 5);
     ("semax", Z.shiftl 0x0f 8); ("sedn", Z.shiftl 0x03 13); ("seimin", Z.shiftl 0x01 15);
     ("sgt", Z.shiftl 0x7f 16); ("sfilt", Z.shiftl 0x01 24)]);
   ("CHOPCONF", [("toff", Z.shiftl 0x0f 0); ("hstrt", Z.shiftl 0x07 4);
     ("hend", Z.shiftl 0x0f 7); ("fd3", Z.shiftl 0x01 11); ("disfdcc", Z.shiftl 0x01 12);
     ("chm", Z.shiftl 0x01 14); ("tbl", Z.shiftl 0x03 15); ("vhighfs", Z.shiftl 0x01 18);
     ("vhighchm", Z.shiftl 0x01 19); ("tpfd", Z.shiftl 0x0f 20); ("mres", Z.shiftl 0x0f 24);
     ("intpol", Z.shiftl 0x01 28); ("dedge", Z.shiftl 0x01 29);
     ("diss2g", Z.shiftl 0x01 30); ("diss2vs", Z.shiftl 0x01 31)]);
   ("DRV_STATUS", [("sg_result", Z.shiftl 0x3ff 0); ("s2vsa", Z.shiftl 0x01 12);
     ("s2vsb", Z.shiftl 0x01 13); ("stealth", Z.shiftl 0x01 14);
     ("fsactive", Z.shiftl 0x01 15); ("csactual", Z.shiftl 0x1f 16);
     ("stallguard", Z.shiftl 0x01 24); ("ot", Z.shiftl 0x01 25); ("otpw", Z.shiftl 0x01 26);
     ("s2ga", Z.shiftl 0x01 27); ("s2gb", Z.shiftl 0x01 28); ("ola", Z.shiftl 0x01 29);
     ("olb", Z.shiftl 0x01 30); ("stst", Z.shiftl 0x01 31)]);
   ("GCONF", [("faststandstill", Z.shiftl 0x01 1); ("en_pwm_mode", Z.shiftl 0x01 2);
     ("multistep_filt", Z.shiftl 0x01 3); ("shaft", Z.shiftl 0x01 4);
     ("diag0_error", Z.shiftl 0x01 5); ("diag0_otpw", Z.shiftl 0x01 6);
     ("diag0_stall", Z.shiftl 0x01 7); ("diag1_stall", Z.shiftl 0x01 8);
     ("diag1_index", Z.shiftl 0x01 9); ("diag1_onstate", Z.shiftl 0x01 10);
     ("diag0_pushpull", Z.shiftl 0x01 12); ("diag1_pushpull", Z.shiftl 0x01 13);
     ("small_hysteresis", Z.shiftl 0x01 14); ("stop_enable", Z.shiftl 0x01 15);
     ("direct_mode", Z.shiftl 0x01 16)]);
   ("GSTAT", [("reset", Z.shiftl 0x01 0); ("drv_err", Z.shiftl 0x01 1);
     ("uv_cp", Z.shiftl 0x01 2); ("register_reset", Z.shiftl 0x01 3);
     ("vm_uvlo", Z.shiftl 0x01 4)]);
   ("GLOBALSCALER", [("globalscaler", Z.shiftl 0xff 0)]);
   ("IHOLD_IRUN", [("ihold", Z.shiftl 0x1f 0); ("irun", Z.shiftl 0x1f 8);
     ("iholddelay", Z.shiftl 0x0f 16); ("irundelay", Z.shiftl 0x0f 24)]);
   ("IOIN", [("step", Z.shiftl 0x01 0); ("dir", Z.shiftl 0x01 1);
     ("encb", Z.shiftl 0x01 2); ("enca", Z.shiftl 0x01 3); ("drv_enn", Z.shiftl 0x01 4);
     ("encn", Z.shiftl 0x01 5); ("uart_en", Z.shiftl 0x01 6); ("comp_a", Z.shiftl 0x01 8);
     ("comp_b", Z.shiftl 0x01 9); ("comp_a1_a2", Z.shiftl 0x01 10);
     ("comp_b1_b2", Z.shiftl 0x01 11); ("output", Z.shiftl 0x01 12);
     ("ext_res_det", Z.shiftl 0x01 13); ("ext_clk", Z.shiftl 0x01 14);
     ("adc_err", Z.shiftl 0x01 15); ("silicon_rv", Z.shiftl 0x07 16);
     ("version", Z.shiftl 0xff 24)]);
   ("MSLUT0", [("mslut0", 0xffffffff)]);
   ("MSLUT1", [("mslut1", 0xffffffff)]);
   ("MSLUT2", [("mslut2", 0xffffffff)]);
   ("MSLUT3", [("mslut3", 0xffffffff)]);
   ("MSLUT4", [("mslut4", 0xffffffff)]);
   ("MSLUT5", [("mslut5", 0xffffffff)]);
   ("MSLUT6", [("mslut6", 0xffffffff)]);
   ("MSLUT7", [("mslut7", 0xffffffff)]);
   ("MSLUTSEL", [("x3", Z.shiftl 0xff 24); ("x2", Z.shiftl 0xff 16);
     ("x1", Z.shiftl 0xff 8); ("w3", Z.shiftl 0x03 6); ("w2", Z.shiftl 0x03 4);
     ("w1", Z.shiftl 0x03 2); ("w0", Z.shiftl 0x03 0)]);
   ("MSLUTSTART", [("start_sin", Z.shiftl 0xff 0); ("start_sin90", Z.shiftl 0xff 16);
     ("offset_sin90", Z.shiftl 0xff 24)]);
   ("MSCNT", [("mscnt", Z.shiftl 0x3ff 0)]);
   ("MSCURACT", [("cur_a", Z.shiftl 0x1ff 0); ("cur_b", Z.shiftl 0x1ff 16)]);
   ("PWM_AUTO", [("pwm_ofs_auto", Z.shiftl 0xff 0); ("pwm_grad_auto", Z.shiftl 0xff 16)]);
   ("PWMCONF", [("pwm_ofs", Z.shiftl 0xff 0); ("pwm_grad", Z.shiftl 0xff 8);
     ("pwm_freq", Z.shiftl 0x03 16); ("pwm_autoscale", Z.shiftl 0x01 18);
     ("pwm_autograd", Z.shiftl 0x01 19); ("freewheel", Z.shiftl 0x03 20);
     ("pwm_meas_sd_enable", Z.shiftl 0x01 22); ("pwm_dis_reg_stst", Z.shiftl 0x01 23);
     ("pwm_reg", Z.shiftl 0x0f 24); ("pwm_lim", Z.shiftl 0x0f 28)]);
   ("PWM_SCALE", [("pwm_scale_sum", Z.shiftl 0x3ff 0);
     ("pwm_scale_auto", Z.shiftl 0x1ff 16)]);
   ("TPOWERDOWN", [("tpowerdown", Z.shiftl 0xff 0)]);
   ("TPWMTHRS", [("tpwmthrs", Z.shiftl 0xfffff 0)]);
   ("TCOOLTHRS", [("tcoolthrs", Z.shiftl 0xfffff 0)]);
   ("TSTEP", [("tstep", Z.shiftl 0xfffff 0)]);
   ("THIGH", [("thigh", Z.shiftl 0xfffff 0)]);
   ("DRV_CONF", [("current_range", Z.shiftl 0x03 0); ("slope_control", Z.shiftl 0x03 4)]);
   ("ADC_VSUPPLY_AIN", [("adc_vsupply", Z.shiftl 0x1fff 0);
     ("adc_ain", Z.shiftl 0x1fff 16)]);
   ("ADC_TEMP", [("adc_temp", Z.shiftl 0x1fff 0)]);
   ("OTW_OV_VTH", [("overvoltage_vth", Z.shiftl 0x1fff 0);
     ("overtempprewarning_vth", Z.shiftl 0x1fff 16)]);
   ("SG4_THRS", [("sg4_thrs", Z.shiftl 0xff 0); ("sg4_filt_en", Z.shiftl 0x01 8);
     ("sg4_angle_offset", Z.shiftl 0x01 9)]);
   ("SG4_RESULT", [("sg4_result", Z.shiftl 0x3ff 0)]);
   ("SG4_IND", [("sg4_ind_0", Z.shiftl 0xff 0); ("sg4_ind_1", Z.shiftl 0xff 8);
     ("sg4_ind_2", Z.shiftl 0xff 16); ("sg4_ind_3", Z.shiftl 0xff 24)])].

Definition TMC2240SignedFields : list string :=
  ["cur_a"; "cur_b"; "sgt"; "pwm_scale_auto"; "offset_sin90"].

Definition TMC2660Registers : list (string * Z) :=
  [("DRVCONF", 0xe); ("SGCSCONF", 0xc); ("SMARTEN", 0xa); ("CHOPCONF", 0x8);
   ("DRVCTRL", 0x0)].

Definition TMC2660ReadRegisters : list string :=
  ["READRSP@RDSEL0"; "READRSP@RDSEL1"; "READRSP@RDSEL2"].

Definition TMC2660Fields : fieldTable :=
  [("DRVCTRL", [("mres", 0x0f); ("dedge", Z.shiftl 0x01 8); ("intpol", Z.shiftl 0x01 9)]);
   ("CHOPCONF", [("toff", 0x0f); ("hstrt", Z.shiftl 0x7 4); ("hend", Z.shiftl 0x0f 7);
     ("hdec", Z.shiftl 0x03 11); ("rndtf", Z.shiftl 0x01 13); ("chm", Z.shiftl 0x01 14);
     ("tbl", Z.shiftl 0x03 15)]);
   ("SMARTEN", [("semin", 0x0f); ("seup", Z.shiftl 0x03 5); ("semax", Z.shiftl 0x0f 8);
     ("sedn", Z.shiftl 0x03 13); ("seimin", Z.shiftl 0x01 15)]);
   ("SGCSCONF", [("cs", 0x1f); ("sgt", Z.shiftl 0x7f 8); ("sfilt", Z.shiftl 0x01 16)]);
   ("DRVCONF", [("rdsel", Z.shiftl 0x03 4); ("vsense", Z.shiftl 0x01 6);
     ("sdoff", Z.shiftl 0x01 7); ("ts2g", Z.shiftl 0x03 8); ("diss2g", Z.shiftl 0x01 10);
     ("slpl", Z.shiftl 0x03 12); ("slph", Z.shiftl 0x03 14); ("tst", Z.shiftl 0x01 16)]);
   ("READRSP@RDSEL0", [("stallguard", Z.shiftl 0x01 4); ("ot", Z.shiftl 0x01 5);
     ("otpw", Z.shiftl 0x01 6); ("s2ga", Z.shiftl 0x01 7); ("s2gb", Z.shiftl 0x01 8);
     ("ola", Z.shiftl 0x01 9); ("olb", Z.shiftl 0x01 10); ("stst", Z.shiftl 0x01 11);
     ("mstep", Z.shiftl 0x3ff 14)]);
   ("READRSP@RDSEL1", [("stallguard", Z.shiftl 0x01 4); ("ot", Z.shiftl 0x01 5);
     ("otpw", Z.shiftl 0x01 6); ("s2ga", Z.shiftl 0x01 7); ("s2gb", Z.shiftl 0x01 8);
     ("ola", Z.shiftl 0x01 9); ("olb", Z.shiftl 0x01 10); ("stst", Z.shiftl 0x01 11);
     ("sg_result", Z.shiftl 0x3ff 14)]);
   ("READRSP@RDSEL2", [("stallguard", Z.shiftl 0x01 4); ("ot", Z.shiftl 0x01 5);
     ("otpw", Z.shiftl 0x01 6); ("s2ga", Z.shiftl 0x01 7); ("s2gb", Z.shiftl 0x01 8);
     ("ola", Z.shiftl 0x01 9); ("olb", Z.shiftl 0x01 10); ("stst", Z.shiftl 0x01 11);
     ("se", Z.shiftl 0x1f 14); ("sg_result@rdsel2", Z.shiftl 0x1f 19)])].

Definition TMC2660SignedFields : list string :=
  ["sgt"].

Definition TMC5160Registers : list (string * Z) :=
  [("GCONF", 0x00); ("GSTAT", 0x01); ("IFCNT", 0x02); ("SLAVECONF", 0x03); ("IOIN", 0x04);
   ("X_COMPARE", 0x05); ("OTP_READ", 0x07); ("FACTORY_CONF", 0x08); ("SHORT_CONF", 0x09);
   ("DRV_CONF", 0x0a); ("GLOBALSCALER", 0x0b); ("OFFSET_READ", 0x0c); ("IHOLD_IRUN", 0x10);
   ("TPOWERDOWN", 0x11); ("TSTEP", 0x12); ("TPWMTHRS", 0x13); ("TCOOLTHRS", 0x14);
   ("THIGH", 0x15); ("RAMPMODE", 0x20); ("XACTUAL", 0x21); ("VACTUAL", 0x22);
   ("VSTART", 0x23); ("A1", 0x24); ("V1", 0x25); ("AMAX", 0x26); ("VMAX", 0x27);
   ("DMAX", 0x28); ("D1", 0x2a); ("VSTOP", 0x2b); ("TZEROWAIT", 0x2c); ("XTARGET", 0x2d);
   ("VDCMIN", 0x33); ("SW_MODE", 0x34); ("RAMP_STAT", 0x35); ("XLATCH", 0x36);
   ("ENCMODE", 0x38); ("X_ENC", 0x39); ("ENC_CONST", 0x3a); ("ENC_STATUS", 0x3b);
   ("ENC_LATCH", 0x3c); ("ENC_DEVIATION", 0x3d); ("MSLUT0", 0x60); ("MSLUT1", 0x61);
   ("MSLUT2", 0x62); ("MSLUT3", 0x63); ("MSLUT4", 0x64); ("MSLUT5", 0x65); ("MSLUT6", 0x66);
   ("MSLUT7", 0x67); ("MSLUTSEL", 0x68); ("MSLUTSTART", 0x69); ("MSCNT", 0x6a);
   ("MSCURACT", 0x6b); ("CHOPCONF", 0x6c); ("COOLCONF", 0x6d); ("DCCTRL", 0x6e);
   ("DRV_STATUS", 0x6f); ("PWMCONF", 0x70); ("PWM_SCALE", 0x71); ("PWM_AUTO", 0x72);
   ("LOST_STEPS", 0x73)].

Definition TMC5160ReadRegisters : list string :=
  ["GCONF"; "CHOPCONF"; "GSTAT"; "DRV_STATUS"; "FACTORY_CONF"; "IOIN"; "LOST_STEPS";
   "MSCNT"; "MSCURACT"; "OTP_READ"; "PWM_SCALE"; "PWM_AUTO"; "TSTEP"].

Definition TMC5160Fields : fieldTable :=
  [("COOLCONF", [("semin", Z.shiftl 0x0f 0); ("seup", Z.shiftl 0x03 5);
     ("semax", Z.shiftl 0x0f 8); ("sedn", Z.shiftl 0x03 13); ("seimin", Z.shiftl 0x01 15);
     ("sgt", Z.shiftl 0x7f 16); ("sfilt", Z.shiftl 0x01 24)]);
   ("CHOPCONF", [("toff", Z.shiftl 0x0f 0); ("hstrt", Z.shiftl 0x07 4);
     ("hend", Z.shiftl 0x0f 7); ("fd3", Z.shiftl 0x01 11); ("disfdcc", Z.shiftl 0x01 12);
     ("chm", Z.shiftl 0x01 14); ("tbl", Z.shiftl 0x03 15); ("vhighfs", Z.shiftl 0x01 18);
     ("vhighchm", Z.shiftl 0x01 19); ("tpfd", Z.shiftl 0x0f 20); ("mres", Z.shiftl 0x0f 24);
     ("intpol", Z.shiftl 0x01 28); ("dedge", Z.shiftl 0x01 29);
     ("diss2g", Z.shiftl 0x01 30); ("diss2vs", Z.shiftl 0x01 31)]);
   ("DRV_STATUS", [("sg_result", Z.shiftl 0x3ff 0); ("s2vsa", Z.shiftl 0x01 12);
     ("s2vsb", Z.shiftl 0x01 13); ("stealth", Z.shiftl 0x01 14);
     ("fsactive", Z.shiftl 0x01 15); ("csactual", Z.shiftl 0xff 16);
     ("stallguard", Z.shiftl 0x01 24); ("ot", Z.shiftl 0x01 25); ("otpw", Z.shiftl 0x01 26);
     ("s2ga", Z.shiftl 0x01 27); ("s2gb", Z.shiftl 0x01 28); ("ola", Z.shiftl 0x01 29);
     ("olb", Z.shiftl 0x01 30); ("stst", Z.shiftl 0x01 31)]);
   ("FACTORY_CONF", [("factory_conf", Z.shiftl 0x1f 0)]);
   ("GCONF", [("recalibrate", Z.shiftl 0x01 0); ("faststandstill", Z.shiftl 0x01 1);
     ("en_pwm_mode", Z.shiftl 0x01 2); ("multistep_filt", Z.shiftl 0x01 3);
     ("shaft", Z.shiftl 0x01 4); ("diag0_error", Z.shiftl 0x01 5);
     ("diag0_otpw", Z.shiftl 0x01 6); ("diag0_stall", Z.shiftl 0x01 7);
     ("diag1_stall", Z.shiftl 0x01 8); ("diag1_index", Z.shiftl 0x01 9);
     ("diag1_onstate", Z.shiftl 0x01 10); ("diag1_steps_skipped", Z.shiftl 0x01 11);
     ("diag0_int_pushpull", Z.shiftl 0x01 12); ("diag1_poscomp_pushpull", Z.shiftl 0x01 13);
     ("small_hysteresis", Z.shiftl 0x01 14); ("stop_enable", Z.shiftl 0x01 15);
     ("direct_mode", Z.shiftl 0x01 16); ("test_mode", Z.shiftl 0x01 17)]);
   ("GSTAT", [("reset", Z.shiftl 0x01 0); ("drv_err", Z.shiftl 0x01 1);
     ("uv_cp", Z.shiftl 0x01 2)]);
   ("GLOBALSCALER", [("globalscaler", Z.shiftl 0xff 0)]);
   ("IHOLD_IRUN", [("ihold", Z.shiftl 0x1f 0); ("irun", Z.shiftl 0x1f 8);
     ("iholddelay", Z.shiftl 0x0f 16)]);
   ("IOIN", [("refl_step", Z.shiftl 0x01 0); ("refr_dir", Z.shiftl 0x01 1);
     ("encb_dcen_cfg4", Z.shiftl 0x01 2); ("enca_dcin_cfg5", Z.shiftl 0x01 3);
     ("drv_enn", Z.shiftl 0x01 4); ("enc_n_dco_cfg6", Z.shiftl 0x01 5);
     ("sd_mode", Z.shiftl 0x01 6); ("swcomp_in", Z.shiftl 0x01 7);
     ("version", Z.shiftl 0xff 24)]);
   ("LOST_STEPS", [("lost_steps", Z.shiftl 0xfffff 0)]);
   ("MSLUT0", [("mslut0", 0xffffffff)]);
   ("MSLUT1", [("mslut1", 0xffffffff)]);
   ("MSLUT2", [("mslut2", 0xffffffff)]);
   ("MSLUT3", [("mslut3", 0xffffffff)]);
   ("MSLUT4", [("mslut4", 0xffffffff)]);
   ("MSLUT5", [("mslut5", 0xffffffff)]);
   ("MSLUT6", [("mslut6", 0xffffffff)]);
   ("MSLUT7", [("mslut7", 0xffffffff)]);
   ("MSLUTSEL", [("x3", Z.shiftl 0xff 24); ("x2", Z.shiftl 0xff 16);
     ("x1", Z.shiftl 0xff 8); ("w3", Z.shiftl 0x03 6); ("w2", Z.shiftl 0x03 4);
     ("w1", Z.shiftl 0x03 2); ("w0", Z.shiftl 0x03 0)]);
   ("MSLUTSTART", [("start_sin", Z.shiftl 0xff 0); ("start_sin90", Z.shiftl 0xff 16)]);
   ("MSCNT", [("mscnt", Z.shiftl 0x3ff 0)]);
   ("MSCURACT", [("cur_a", Z.shiftl 0x1ff 0); ("cur_b", Z.shiftl 0x1ff 16)]);
   ("OTP_READ", [("otp_fclktrim", Z.shiftl 0x1f 0); ("otp_s2_level", Z.shiftl 0x01 5);
     ("otp_bbm", Z.shiftl 0x01 6); ("otp_tbl", Z.shiftl 0x01 7)]);
   ("PWM_AUTO", [("pwm_ofs_auto", Z.shiftl 0xff 0); ("pwm_grad_auto", Z.shiftl 0xff 16)]);
   ("PWMCONF", [("pwm_ofs", Z.shiftl 0xff 0); ("pwm_grad", Z.shiftl 0xff 8);
     ("pwm_freq", Z.shiftl 0x03 16); ("pwm_autoscale", Z.shiftl 0x01 18);
     ("pwm_autograd", Z.shiftl 0x01 19); ("freewheel", Z.shiftl 0x03 20);
     ("pwm_reg", Z.shiftl 0x0f 24); ("pwm_lim", Z.shiftl 0x0f 28)]);
   ("PWM_SCALE", [("pwm_scale_sum", Z.shiftl 0xff 0);
     ("pwm_scale_auto", Z.shiftl 0x1ff 16)]);
   ("TPOWERDOWN", [("tpowerdown", Z.shiftl 0xff 0)]);
   ("TPWMTHRS", [("tpwmthrs", Z.shiftl 0xfffff 0)]);
   ("TCOOLTHRS", [("tcoolthrs", Z.shiftl 0xfffff 0)]);
   ("THIGH", [("thigh", Z.shiftl 0xfffff 0)]);
   ("TSTEP", [("tstep", Z.shiftl 0xfffff 0)])].

Definition TMC5160SignedFields : list string :=
  ["cur_a"; "cur_b"; "sgt"; "xactual"; "vactual"; "pwm_scale_auto"].

Definition ConfigureTMC2130_lines : list cstep :=
    [CConfig "toff" (AInt 4); CConfig "hstrt" (AInt 0); CConfig "hend" (AInt 7);
     CConfig "tbl" (AInt 1); CConfig "vhighfs" (AInt 0); CConfig "vhighchm" (AInt 0);
     CConfig "semin" (AInt 0); CConfig "seup" (AInt 0); CConfig "semax" (AInt 0);
     CConfig "sedn" (AInt 0); CConfig "seimin" (AInt 0); CConfig "sgt" (AInt 0);
     CConfig "sfilt" (AInt 0); CConfig "iholddelay" (AInt 8); CConfig "pwm_ampl" (AInt 128);
     CConfig "pwm_grad" (AInt 4); CConfig "pwm_freq" (AInt 1);
     CConfig "pwm_autoscale" (ABool true); CConfig "freewheel" (AInt 0);
     CConfig "tpowerdown" (AInt 0)].
Definition ConfigureTMC2130 `{ConfigFieldSource C} (config : C) : FieldHelper → go FieldHelper :=
  configure config ConfigureTMC2130_lines.

Definition ConfigureTMC2208_lines : list cstep :=
    [CSet "pdn_disable" (ABool true); CSet "mstep_reg_select" (ABool true);
     CSet "multistep_filt" (ABool true); CConfig "toff" (AInt 3); CConfig "hstrt" (AInt 5);
     CConfig "hend" (AInt 0); CConfig "tbl" (AInt 2); CConfig "iholddelay" (AInt 8);
     CConfig "pwm_ofs" (AInt 36); CConfig "pwm_grad" (AInt 14); CConfig "pwm_freq" (AInt 1);
     CConfig "pwm_autoscale" (ABool true); CConfig "pwm_autograd" (ABool true);
     CConfig "freewheel" (AInt 0); CConfig "pwm_reg" (AInt 8); CConfig "pwm_lim" (AInt 12);
     CConfig "tpowerdown" (AInt 20)].
Definition ConfigureTMC2208 `{ConfigFieldSource C} (config : C) : FieldHelper → go FieldHelper :=
  configure config ConfigureTMC2208_lines.

Definition ConfigureTMC2209_lines : list cstep :=
    [CSet "pdn_disable" (ABool true); CSet "senddelay" (AInt 2);
     CSet "mstep_reg_select" (ABool true); CSet "multistep_filt" (ABool true);
     CConfig "toff" (AInt 3); CConfig "hstrt" (AInt 5); CConfig "hend" (AInt 0);
     CConfig "tbl" (AInt 2); CConfig "semin" (AInt 0); CConfig "seup" (AInt 0);
     CConfig "semax" (AInt 0); CConfig "sedn" (AInt 0); CConfig "seimin" (AInt 0);
     CConfig "iholddelay" (AInt 8); CConfig "pwm_ofs" (AInt 36);
     CConfig "pwm_grad" (AInt 14); CConfig "pwm_freq" (AInt 1);
     CConfig "pwm_autoscale" (ABool true); CConfig "pwm_autograd" (ABool true);
     CConfig "freewheel" (AInt 0); CConfig "pwm_reg" (AInt 8); CConfig "pwm_lim" (AInt 12);
     CConfig "tpowerdown" (AInt 20); CConfig "sgthrs" (AInt 0)].
Definition ConfigureTMC2209 `{ConfigFieldSource C} (config : C) : FieldHelper → go FieldHelper :=
  configure config ConfigureTMC2209_lines.

Definition ConfigureTMC2240_lines : list cstep :=
    [CSet "multistep_filt" (ABool true); CConfig "offset_sin90" (AInt 0);
     CConfig "toff" (AInt 3); CConfig "hstrt" (AInt 5); CConfig "hend" (AInt 2);
     CConfig "fd3" (AInt 0); CConfig "disfdcc" (AInt 0); CConfig "chm" (AInt 0);
     CConfig "tbl" (AInt 2); CConfig "vhighfs" (AInt 0); CConfig "vhighchm" (AInt 0);
     CConfig "tpfd" (AInt 4); CConfig "diss2g" (AInt 0); CConfig "diss2vs" (AInt 0);
     CConfig "semin" (AInt 0); CConfig "seup" (AInt 0); CConfig "semax" (AInt 0);
     CConfig "sedn" (AInt 0); CConfig "seimin" (AInt 0); CConfig "sgt" (AInt 0);
     CConfig "sfilt" (AInt 0); CConfig "iholddelay" (AInt 6); CConfig "irundelay" (AInt 4);
     CConfig "pwm_ofs" (AInt 29); CConfig "pwm_grad" (AInt 0); CConfig "pwm_freq" (AInt 0);
     CConfig "pwm_autoscale" (ABool true); CConfig "pwm_autograd" (ABool true);
     CConfig "freewheel" (AInt 0); CConfig "pwm_reg" (AInt 4); CConfig "pwm_lim" (AInt 12);
     CConfig "tpowerdown" (AInt 10); CConfig "sg4_thrs" (AInt 0);
     CConfig "sg4_angle_offset" (ABool true)].
Definition ConfigureTMC2240 `{ConfigFieldSource C} (config : C) : FieldHelper → go FieldHelper :=
  configure config ConfigureTMC2240_lines.

Definition ConfigureTMC5160_lines : list cstep :=
    [CSet "multistep_filt" (ABool true); CConfig "toff" (AInt 3); CConfig "hstrt" (AInt 5);
     CConfig "hend" (AInt 2); CConfig "fd3" (AInt 0); CConfig "disfdcc" (AInt 0);
     CConfig "chm" (AInt 0); CConfig "tbl" (AInt 2); CConfig "vhighfs" (AInt 0);
     CConfig "vhighchm" (AInt 0); CConfig "tpfd" (AInt 4); CConfig "diss2g" (AInt 0);
     CConfig "diss2vs" (AInt 0); CConfig "semin" (AInt 0); CConfig "seup" (AInt 0);
     CConfig "semax" (AInt 0); CConfig "sedn" (AInt 0); CConfig "seimin" (AInt 0);
     CConfig "sgt" (AInt 0); CConfig "sfilt" (AInt 0); CConfig "iholddelay" (AInt 6);
     CConfig "pwm_ofs" (AInt 30); CConfig "pwm_grad" (AInt 0); CConfig "pwm_freq" (AInt 0);
     CConfig "pwm_autoscale" (ABool true); CConfig "pwm_autograd" (ABool true);
     CConfig "freewheel" (AInt 0); CConfig "pwm_reg" (AInt 4); CConfig "pwm_lim" (AInt 12);
     CConfig "tpowerdown" (AInt 10)].
Definition ConfigureTMC5160 `{ConfigFieldSource C} (config : C) : FieldHelper → go FieldHelper :=
  configure config ConfigureTMC5160_lines.

Definition ApplyWaveTableDefaults_lines : list cstep :=
    [CConfig "mslut0" (AInt64 0xaaaab554); CConfig "mslut1" (AInt64 0x4a9554aa);
     CConfig "mslut2" (AInt64 0x24492929); CConfig "mslut3" (AInt64 0x10104222);
     CConfig "mslut4" (AInt64 0xfbffffff); CConfig "mslut5" (AInt64 0xb5bb777d);
     CConfig "mslut6" (AInt64 0x49295556); CConfig "mslut7" (AInt64 0x00404222);
     CConfig "w0" (AInt 2); CConfig "w1" (AInt 1); CConfig "w2" (AInt 1);
     CConfig "w3" (AInt 1); CConfig "x1" (AInt 128); CConfig "x2" (AInt 255);
     CConfig "x3" (AInt 255); CConfig "start_sin" (AInt 0); CConfig "start_sin90" (AInt 247)].
Definition ApplyWaveTableDefaults `{ConfigFieldSource C} (config : C) : FieldHelper → go FieldHelper :=
  configure config ApplyWaveTableDefaults_lines.

(** The TMC2660 check reads the fields out of the register value 0 the calls
    pass, not out of the cached registers. *)
Definition hend_hstrt_check (fields : FieldHelper) : go unit :=
  if bool_decide (Get_field fields "chm" (Some 0) None = 0) then
    if bool_decide (15 < Get_field fields "hstrt" (Some 0) None + Get_field fields "hend" (Some 0) None)
    then Panic "driver_HEND + driver_HSTRT must be <= 15"
    else Ret tt
  else Ret tt.

Definition ConfigureTMC2660_lines1 : list cstep :=
    [CSet "sdoff" (AInt 0); CConfig "tbl" (AInt 2); CConfig "rndtf" (AInt 0);
     CConfig "hdec" (AInt 0); CConfig "chm" (AInt 0); CConfig "hend" (AInt 3);
     CConfig "hstrt" (AInt 3); CConfig "toff" (AInt 4)].
Definition ConfigureTMC2660_lines2 : list cstep :=
    [CConfig "seimin" (AInt 0); CConfig "sedn" (AInt 0); CConfig "semax" (AInt 0);
     CConfig "seup" (AInt 0); CConfig "semin" (AInt 0); CConfig "sfilt" (AInt 0);
     CConfig "sgt" (AInt 0); CConfig "slph" (AInt 0); CConfig "slpl" (AInt 0);
     CConfig "diss2g" (AInt 0); CConfig "ts2g" (AInt 3)].
Definition ConfigureTMC2660 `{ConfigFieldSource C} (config : C) (fields : FieldHelper) : go FieldHelper :=
  fields ← configure config ConfigureTMC2660_lines1 fields;
  _ ← hend_hstrt_check fields;
  configure config ConfigureTMC2660_lines2 fields.
