(* ===== verification/TmcDefsThy.v ===== *)
(** * The chip tables are usable and configuration is exact *)

From S2P Require Import Prelude GoFloat GoStrings GoState TmcFields TmcFieldsThy TmcDefs.

Inductive chip : Type := TMC2130 | TMC2208 | TMC2209 | TMC2240 | TMC2660 | TMC5160.

Definition chip_fields (c : chip) : fieldTable :=
  match c with
  | TMC2130 => TMC2130Fields | TMC2208 => TMC2208Fields | TMC2209 => TMC2209Fields
  | TMC2240 => TMC2240Fields | TMC2660 => TMC2660Fields | TMC5160 => TMC5160Fields
  end.

Definition chip_registers (c : chip) : list (string * Z) :=
  match c with
  | TMC2130 => TMC2130Registers | TMC2208 => TMC2208Registers | TMC2209 => TMC2209Registers
  | TMC2240 => TMC2240Registers | TMC2660 => TMC2660Registers | TMC5160 => TMC5160Registers
  end.

Definition chip_signed (c : chip) : list string :=
  match c with
  | TMC2130 => TMC2130SignedFields | TMC2208 => TMC2208SignedFields | TMC2209 => TMC2208SignedFields
  | TMC2240 => TMC2240SignedFields | TMC2660 => TMC2660SignedFields | TMC5160 => TMC5160SignedFields
  end.

Lemma chip_tables_ok c : table_ok (chip_fields c) = true.
Proof. destruct c; vm_compute; reflexivity. Qed.

(** ** Go iterates over the table in any order *)

Lemma table_ok_perm t t' : t' ≡ₚ t → table_ok t = true → table_ok t' = true.
Proof.
  intros Hp. unfold table_ok. rewrite !andb_true_iff, !bool_decide_eq_true, !forallb_forall.
  intros [Hnd Hall]. split; [by rewrite Hp|].
  intros e He. apply Hall. rewrite <- list_elem_of_In in *. by rewrite <- Hp.
Qed.

(** The registers that have a field of a given name. *)
Definition owners (t : fieldTable) (f : string) : list string :=
  (filter (λ e, f ∈ e.2.*1) t).*1.

Lemma field_index_Some t f r fs :
  (r, fs) ∈ t → f ∈ fs.*1 → is_Some (field_index t !! f).
Proof.
  unfold field_index. intros Hin Hf.
  assert (Hkeep : ∀ r fs (acc : gmap string string), is_Some (acc !! f) →
    is_Some (fold_left (λ acc '(fieldName, _), <[fieldName := r]> acc) (fs : list (string * Z)) acc !! f)).
  { intros r0 fs0. induction fs0 as [|[g m] fs0 IH]; simpl; intros acc H; [done|].
    apply IH. destruct (decide (g = f)) as [->|]; [by rewrite lookup_insert_eq|].
    by rewrite lookup_insert_ne. }
  assert (Hnew : ∀ r (acc : gmap string string), is_Some
    (fold_left (λ acc '(fieldName, _), <[fieldName := r]> acc) fs acc !! f)).
  { intros r0. clear Hin. induction fs as [|[g m] fs IH]; intros acc; [by apply not_elem_of_nil in Hf|].
    simpl. rewrite fmap_cons in Hf. apply elem_of_cons in Hf as [->|Hf]; [|by apply IH].
    apply Hkeep. simpl. by rewrite lookup_insert_eq. }
  assert (Hkeeps : ∀ t (acc : gmap string string), is_Some (acc !! f) →
    is_Some (fold_left (λ acc '(registerName, fields),
      fold_left (λ acc '(fieldName, _), <[fieldName := registerName]> acc)
        (fields : list (string * Z)) acc) t acc !! f)).
  { intros t0. induction t0 as [|[r0 fs0] t0 IH]; simpl; intros acc H; [done|]. by apply IH, Hkeep. }
  generalize (∅ : gmap string string). induction t as [|[r1 fs1] t IH]; intros acc;
    [by apply not_elem_of_nil in Hin|].
  simpl. apply elem_of_cons in Hin as [[= <- <-]|Hin]; [by apply Hkeeps|by apply IH].
Qed.

Lemma owners_perm t t' f r : t' ≡ₚ t → owners t f = [r] → owners t' f = [r].
Proof.
  unfold owners. intros Hp Ho. apply Permutation_singleton_r. rewrite <- Ho.
  by rewrite Hp.
Qed.

(** A field that one register owns is found there, whatever the order. *)
Lemma owner_lookup t f r signed fmts regs :
  owners t f = [r] → fieldToRegister (NewFieldHelper t signed fmts regs) !! f = Some r.
Proof.
  intros Ho. simpl.
  assert (Hall : ∀ r' fs, (r', fs) ∈ t → f ∈ fs.*1 → r' = r).
  { intros r' fs Hin Hf. apply list_elem_of_singleton. rewrite <- Ho. unfold owners.
    apply list_elem_of_fmap. exists (r', fs). split; [done|]. by apply list_elem_of_filter. }
  assert (∃ fs, (r, fs) ∈ t ∧ f ∈ fs.*1) as (fs & Hin & Hf).
  { assert (Hr : r ∈ owners t f) by (rewrite Ho; constructor).
    unfold owners in Hr. apply list_elem_of_fmap in Hr as ([r0 fs] & -> & Hr).
    apply list_elem_of_filter in Hr as [Hr Hin]. by exists fs. }
  destruct (field_index_Some t f r fs Hin Hf) as [r' Hr'].
  rewrite Hr'. f_equal. apply field_index_elem in Hr' as (fs' & Hin' & Hf'). by eapply Hall.
Qed.

(** The driver's helper after any sequence of writes. *)
Definition set_all (sets : list (string * any)) (fh : FieldHelper) : FieldHelper :=
  fold_left (λ fh e, (Set_field fh e.1 e.2 None None).2) sets fh.

Lemma set_all_inv sets fh :
  wf fh → tracked fh → wf (set_all sets fh) ∧ tracked (set_all sets fh) ∧ same_schema (set_all sets fh) fh.
Proof.
  revert fh; induction sets as [|[f v] sets IH]; simpl; intros fh Hw Ht; [done|].
  pose proof (Set_field_schema fh f v None None) as Hs.
  destruct (IH (Set_field fh f v None None).2) as (? & ? & ?).
  - by eapply wf_schema.
  - by apply Set_field_tracked.
  - split_and!; [done..|]. by etrans.
Qed.

Lemma chip_helper_inv c t fmts sets :
  t ≡ₚ chip_fields c →
  let fh := set_all sets (NewFieldHelper t (chip_signed c) fmts None) in wf fh ∧ tracked fh.
Proof.
  intros Hp. destruct (set_all_inv sets (NewFieldHelper t (chip_signed c) fmts None)) as (? & ? & _).
  - apply NewFieldHelper_wf. eapply table_ok_perm; [done|]. apply chip_tables_ok.
  - apply NewFieldHelper_tracked.
  - done.
Qed.

(** C14. For every supported chip, whatever fields were set before and in whatever order Go
    iterates over the tables, Set_field makes the field read back as the value reduced
    to its width, leaves every other field alone, stores the register it returns, and
    keeps the list of registers to send free of duplicates and complete. *)
Theorem Set_field_correct (c : chip) (t : fieldTable) fmts (sets : list (string * any))
    (f : string) (v : any) :
  t ≡ₚ chip_fields c →
  let fh := set_all sets (NewFieldHelper t (chip_signed c) fmts None) in
  is_Some (Lookup_register fh f) →
  let '(x, fh') := Set_field fh f v None None in
  Get_field fh' f None None = fit fh f (ToInt64 v) ∧
  (∀ g, g ≠ f → is_Some (Lookup_register fh g) → Get_field fh' g None None = Get_field fh g None None) ∧
  registers fh' !! register_of fh f = Some x ∧
  NoDup (orderedRegisterNames fh') ∧
  (∀ r, r ∈ orderedRegisterNames fh' ↔ is_Some (registers fh' !! r)).
Proof.
  intros Hp fh [r Hr]. destruct (chip_helper_inv c t fmts sets Hp) as [Hw Ht]. fold fh in Hw, Ht.
  pose proof (Get_Set_field fh f v r Hw Hr) as Hget.
  pose proof (Get_Set_other fh f v r) as Hother.
  pose proof (Set_field_tracked fh f v Ht) as Ht'.
  pose proof (Set_field_register fh f v r Hr) as Hreg.
  destruct (Set_field fh f v None None) as [x fh']. simpl in *.
  destruct (orderedRegisterNames_tracked _ Ht') as (_ & Hnd & Hdom). split_and!; try done.
  - intros g Hne [rg Hg]. by eapply Hother.
  - destruct Hreg as [-> _]. rewrite (register_of_lookup _ _ _ Hr). apply lookup_insert_eq.
Qed.

Lemma Set_field_correct_witness :
  let fh := set_all [("irun", AInt 12)] (NewFieldHelper TMC2209Fields TMC2208SignedFields ∅ None) in
  let '(x, fh') := Set_field fh "ihold" (AInt 37) None None in
  Get_field fh' "ihold" None None = 5 ∧ Get_field fh' "irun" None None = 12 ∧ x = 0xc05.
Proof.
  intros fh.
  pose proof (Set_field_correct TMC2209 TMC2209Fields ∅ [("irun", AInt 12)] "ihold" (AInt 37)
    ltac:(reflexivity) ltac:(vm_compute; eauto)) as H.
  cbv zeta in H. change (chip_signed TMC2209) with TMC2208SignedFields in H. fold fh in H.
  assert (Hx : (Set_field fh "ihold" (AInt 37) None None).1 = 0xc05) by (vm_compute; reflexivity).
  destruct (Set_field fh "ihold" (AInt 37) None None) as [x fh']. simpl in Hx.
  destruct H as (H1 & H2 & _). cbv beta iota. split_and!; [| |done].
  - rewrite H1. vm_compute. reflexivity.
  - rewrite H2; [vm_compute; reflexivity|done|vm_compute; eauto].
Defined.

(** ** Configuration *)

(** A configuration section whose options are valid: the readers return a value
    between the limits, and do return when the default is between them. *)
Class ConfigLaws (C : Type) `{ConfigFieldSource C} : Prop := {
  Getint_range : ∀ (c : C) n d lo hi v, Getint c n d lo hi = Ret v → lo ≤ v ≤ hi;
  Getint64_range : ∀ (c : C) n d lo hi v, Getint64 c n d lo hi = Ret v → lo ≤ v ≤ hi;
  Getint_ok : ∀ (c : C) n d lo hi, lo ≤ ToInt64 d ≤ hi → ∃ v, Getint c n d lo hi = Ret v;
  Getint64_ok : ∀ (c : C) n d lo hi, lo ≤ ToInt64 d ≤ hi → ∃ v, Getint64 c n d lo hi = Ret v;
  Getboolean_ok : ∀ (c : C) n d, ∃ b, Getboolean c n d = Ret b
}.

(** The largest unsigned value of a field. *)
Definition max_of (fh : FieldHelper) (f : string) : Z :=
  let mask := mask_of fh (register_of fh f) f in Z.shiftr mask (ffs mask).

(** What the configuration gives for a field. *)
Definition option_value `{ConfigFieldSource C} (config : C) (fh : FieldHelper) (f : string) (d : any)
    : go any :=
  config_value config ("driver_" ++ ToUpper f)%string (bool_decide (f ∈ signedFields fh)) (max_of fh f) d.

(** A default that the field can hold. *)
Definition default_ok (fh : FieldHelper) (f : string) (d : any) : bool :=
  let hi := max_of fh f in
  if bool_decide (f ∈ signedFields fh) then
    is_int d && (2 <? hi) && bool_decide (- (Z.quot hi 2 + 1) ≤ ToInt64 d ≤ Z.quot hi 2)
  else bool_decide (hi = 1) || bool_decide (0 ≤ ToInt64 d ≤ hi).

Lemma max_of_run mask k w : is_run mask k w → Z.shiftr mask (ffs mask) = 2 ^ w - 1.
Proof.
  intros (Hk & Hw & Hkw & ->). rewrite ffs_run, run_mask_mul, Z.shiftr_div_pow2 by lia.
  apply Z.div_mul. lia.
Qed.

Lemma fit_exact fh f r v :
  wf fh → fieldToRegister fh !! f = Some r →
  (if bool_decide (f ∈ signedFields fh)
   then 2 < max_of fh f ∧ - (Z.quot (max_of fh f) 2 + 1) ≤ v ≤ Z.quot (max_of fh f) 2
   else 0 ≤ v ≤ max_of fh f) →
  fit fh f v = v.
Proof.
  intros Hw Hr. destruct (wf_run _ Hw f r Hr) as (k & w & Hrun).
  unfold max_of, fit. rewrite (register_of_lookup _ _ _ Hr), (max_of_run _ _ _ Hrun), (run_width _ _ _ Hrun).
  destruct Hrun as (Hk & Hw0 & _ & _).
  assert (H2 : 2 ^ w = 2 * 2 ^ (w - 1)) by (rewrite <- Z.pow_succ_r by lia; f_equal; lia).
  case_bool_decide.
  - intros [_ Hv]. unfold sign_wrap.
    replace (Z.quot (2 ^ w - 1) 2) with (2 ^ (w - 1) - 1) in Hv by dlia.
    destruct (decide (0 ≤ v)).
    + rewrite Z.mod_small by lia. rewrite bool_decide_false by lia. done.
    + replace (v mod 2 ^ w) with (v + 2 ^ w).
      * rewrite bool_decide_true by lia. lia.
      * symmetry. rewrite <- (Z.mod_small (v + 2 ^ w) (2 ^ w)) by lia.
        rewrite <- Z.add_mod_idemp_r, Z.mod_same, Z.add_0_r by lia. done.
  - intros. apply Z.mod_small. lia.
Qed.

Section Configure.
#[local] Set Default Proof Using "Type*".
Context `{Hcfg : ConfigFieldSource C} `{!ConfigLaws C} (config : C).

Lemma option_value_exact fh f r d :
  wf fh → fieldToRegister fh !! f = Some r → default_ok fh f d = true →
  ∃ v, option_value config fh f d = Ret v ∧ fit fh f (ToInt64 v) = ToInt64 v.
Proof.
  intros Hw Hr. unfold default_ok, option_value, config_value.
  pose proof (fit_exact fh f r) as Hfit.
  destruct (Getboolean_ok config ("driver_" ++ ToUpper f)%string d) as [b Hb].
  case_bool_decide as Hs.
  - rewrite !andb_true_iff, bool_decide_eq_true, Z.ltb_lt. intros [[-> Hhi] Hd].
    rewrite bool_decide_false by lia.
    destruct (Getint_ok config ("driver_" ++ ToUpper f)%string d _ _ Hd) as [v Hv].
    rewrite Hv. eexists; split; [done|]. apply Hfit; [done..|].
    apply Getint_range in Hv. simpl. lia.
  - rewrite orb_true_iff, !bool_decide_eq_true. intros Hd.
    case_bool_decide as Hone.
    + rewrite Hb. eexists; split; [done|]. apply Hfit; [done..|]. destruct b; simpl; lia.
    + destruct Hd as [?|Hd]; [done|].
      destruct (Getint_ok config ("driver_" ++ ToUpper f)%string d _ _ Hd) as [v Hv].
      destruct (Getint64_ok config ("driver_" ++ ToUpper f)%string d _ _ Hd) as [v' Hv'].
      destruct (is_int d); [rewrite Hv|rewrite Hv']; (eexists; split; [done|]);
        apply Hfit; try done; [apply Getint_range in Hv|apply Getint64_range in Hv']; done.
Qed.

Definition line_field (s : cstep) : string := match s with CSet f _ | CConfig f _ => f end.

(** A line that names a known field, with a default that fits. *)
Definition line_fits (fh : FieldHelper) (s : cstep) : Prop :=
  (∃ r, fieldToRegister fh !! line_field s = Some r) ∧
  match s with CSet f v => True | CConfig f d => default_ok fh f d = true end.

(** What a line leaves in its field. *)
Definition line_result (fh fh' : FieldHelper) (s : cstep) : Prop :=
  match s with
  | CSet f v => Get_field fh' f None None = fit fh f (ToInt64 v)
  | CConfig f d => ∃ v, option_value config fh f d = Ret v ∧ Get_field fh' f None None = ToInt64 v
  end.

Lemma line_fits_schema fh fh' s : same_schema fh' fh → line_fits fh s → line_fits fh' s.
Proof.
  intros Hs. unfold line_fits, default_ok, max_of.
  assert (He : fieldToRegister fh' = fieldToRegister fh) by apply Hs.
  assert (He' : signedFields fh' = signedFields fh) by apply Hs.
  rewrite He. destruct s; [done|]. rewrite (schema_register_of fh' fh), (schema_mask_of fh' fh), He' by done.
  done.
Qed.

Lemma option_value_schema fh fh' f d :
  same_schema fh' fh → option_value config fh' f d = option_value config fh f d.
Proof.
  intros Hs. unfold option_value, max_of. assert (He' : signedFields fh' = signedFields fh) by apply Hs.
  by rewrite (schema_register_of fh' fh), (schema_mask_of fh' fh), He' by done.
Qed.

Lemma configure_step_correct fh s :
  wf fh → line_fits fh s →
  ∃ fh', configure_step config fh s = Ret fh' ∧ same_schema fh' fh ∧
    line_result fh fh' s ∧
    (∀ g, g ≠ line_field s → is_Some (fieldToRegister fh !! g) →
       Get_field fh' g None None = Get_field fh g None None).
Proof.
  intros Hw [[r Hr] Hd].
  destruct s as [f v|f d]; simpl in *.
  - exists (Set_field fh f v None None).2.
    split_and!; [done|apply Set_field_schema|by eapply Get_Set_field|].
    intros g Hne [rg Hg]. by eapply Get_Set_other.
  - destruct (option_value_exact fh f r d Hw Hr Hd) as (v & Hv & Hfit).
    exists (Set_field fh f v None None).2.
    split_and!; [|apply Set_field_schema|exists v; split; [done|]|].
    + unfold Set_config_field. unfold option_value, max_of in Hv. by rewrite Hv.
    + rewrite (Get_Set_field fh f v r) by done. done.
    + intros g Hne [rg Hg]. by eapply Get_Set_other.
Qed.

Lemma configure_correct lines fh :
  wf fh → NoDup (line_field <$> lines) → Forall (line_fits fh) lines →
  ∃ fh', configure config lines fh = Ret fh' ∧ same_schema fh' fh ∧
    Forall (line_result fh fh') lines ∧
    (∀ g, g ∉ line_field <$> lines → is_Some (fieldToRegister fh !! g) →
       Get_field fh' g None None = Get_field fh g None None).
Proof.
  unfold configure. revert fh. induction lines as [|s lines IH]; intros fh Hw Hnd Hall.
  { exists fh. by split_and!. }
  rewrite fmap_cons, NoDup_cons in Hnd. destruct Hnd as [Hs Hnd].
  inversion Hall as [|? ? Hfits Hall']; subst.
  destruct (configure_step_correct fh s Hw Hfits) as (fh1 & H1 & Hsch1 & Hres1 & Hframe1).
  destruct (IH fh1) as (fh2 & H2 & Hsch2 & Hres2 & Hframe2); [by eapply wf_schema|done| |].
  { eapply Forall_impl; [done|]. intros s' Hs'. by eapply line_fits_schema. }
  assert (Hidx : fieldToRegister fh1 = fieldToRegister fh) by apply Hsch1.
  exists fh2. simpl. rewrite H1. split_and!; [done|by etrans| |].
  - constructor.
    + destruct Hfits as [[r Hr] _].
      destruct s as [f v|f d]; simpl in *;
        [|destruct Hres1 as (v & Hv & Hres1); exists v; split; [done|]];
        rewrite Hframe2; eauto; rewrite Hidx; eauto.
    + eapply Forall_impl; [exact Hres2|]. intros [f v|f d]; simpl.
      * by rewrite (schema_fit fh1 fh).
      * by rewrite (option_value_schema fh fh1).
  - intros g Hg Hk. rewrite not_elem_of_cons in Hg. destruct Hg as [Hg1 Hg2].
    rewrite Hframe2, Hframe1; auto. by rewrite Hidx.
Qed.

End Configure.

(** ** The drivers' own configuration *)

Definition chip_lines (c : chip) : list cstep :=
  match c with
  | TMC2130 => ConfigureTMC2130_lines | TMC2208 => ConfigureTMC2208_lines
  | TMC2209 => ConfigureTMC2209_lines | TMC2240 => ConfigureTMC2240_lines
  | TMC2660 => ConfigureTMC2660_lines1 ++ ConfigureTMC2660_lines2
  | TMC5160 => ConfigureTMC5160_lines
  end.

Definition chip_configure `{ConfigFieldSource C} (c : chip) (config : C) : FieldHelper → go FieldHelper :=
  match c with
  | TMC2130 => ConfigureTMC2130 config | TMC2208 => ConfigureTMC2208 config
  | TMC2209 => ConfigureTMC2209 config | TMC2240 => ConfigureTMC2240 config
  | TMC2660 => ConfigureTMC2660 config | TMC5160 => ConfigureTMC5160 config
  end.

(** The lines checked on the chip's tables. *)
Definition lines_ok (c : chip) (lines : list cstep) : bool :=
  let fh := NewFieldHelper (chip_fields c) (chip_signed c) ∅ None in
  bool_decide (NoDup (line_field <$> lines)) &&
  forallb (λ s, bool_decide (length (owners (chip_fields c) (line_field s)) = 1%nat) &&
    match s with CSet _ _ => true | CConfig f d => default_ok fh f d end) lines.

Lemma chip_lines_ok c : lines_ok c (chip_lines c) = true.
Proof. destruct c; vm_compute; reflexivity. Qed.

Lemma wave_table_lines_ok c :
  match c with TMC2130 | TMC2240 | TMC5160 => lines_ok c ApplyWaveTableDefaults_lines = true | _ => True end.
Proof. destruct c; vm_compute; done. Qed.

Lemma allFields_perm t t' signed fmts fmts' regs :
  t' ≡ₚ t → NoDup t.*1 →
  allFields (NewFieldHelper t' signed fmts regs) = allFields (NewFieldHelper t signed fmts' regs).
Proof.
  intros Hp Hnd. simpl. apply list_to_map_proper; [|by rewrite Hp].
  rewrite <- list_fmap_compose. erewrite list_fmap_ext; [by rewrite Hp|]. by intros ? [? ?] ?.
Qed.

Lemma owners_single c f : length (owners (chip_fields c) f) = 1%nat → ∃ r, owners (chip_fields c) f = [r].
Proof. destruct (owners _ _) as [|r []]; try done. by exists r. Qed.

(** The check depends on the field's register, mask and sign. *)
Lemma default_ok_same fh fh' f d :
  signedFields fh' = signedFields fh → register_of fh' f = register_of fh f →
  (∀ r, mask_of fh' r f = mask_of fh r f) → default_ok fh' f d = default_ok fh f d.
Proof. intros Hs Hr Hm. unfold default_ok, max_of. by rewrite Hs, Hr, Hm. Qed.

(** The chip's helper with its tables in source order. *)
Definition chip_helper (c : chip) : FieldHelper := NewFieldHelper (chip_fields c) (chip_signed c) ∅ None.

(** A field with one owner is the same field in every reachable helper. *)
Lemma chip_field_same c t fmts sets f :
  t ≡ₚ chip_fields c → length (owners (chip_fields c) f) = 1%nat →
  let fh := set_all sets (NewFieldHelper t (chip_signed c) fmts None) in
  (∃ r, fieldToRegister fh !! f = Some r) ∧ signedFields fh = signedFields (chip_helper c) ∧
  register_of fh f = register_of (chip_helper c) f ∧
  (∀ r, mask_of fh r f = mask_of (chip_helper c) r f).
Proof.
  intros Hp [r Ho]%owners_single. set (fh1 := NewFieldHelper t (chip_signed c) fmts None).
  assert (Hsch : same_schema (set_all sets fh1) fh1).
  { apply set_all_inv; [|apply NewFieldHelper_tracked].
    apply NewFieldHelper_wf. eapply table_ok_perm; [done|apply chip_tables_ok]. }
  assert (Hr1 : fieldToRegister fh1 !! f = Some r)
    by (apply owner_lookup; by eapply owners_perm).
  assert (Hr0 : fieldToRegister (chip_helper c) !! f = Some r) by (by apply owner_lookup).
  cbv zeta. split_and!.
  - exists r. destruct Hsch as (_ & _ & ->). done.
  - destruct Hsch as (_ & -> & _). done.
  - rewrite (schema_register_of _ _ _ Hsch).
    by rewrite (register_of_lookup _ _ _ Hr1), (register_of_lookup _ _ _ Hr0).
  - intros r0. rewrite (schema_mask_of _ _ _ _ Hsch). unfold mask_of, fh1, chip_helper.
    rewrite (allFields_perm (chip_fields c) t _ fmts ∅ None); [done..|].
    pose proof (chip_tables_ok c) as H'. unfold table_ok in H'.
    rewrite andb_true_iff, bool_decide_eq_true in H'. apply H'.
Qed.

Lemma lines_fit c t fmts sets lines :
  t ≡ₚ chip_fields c → lines_ok c lines = true →
  let fh := set_all sets (NewFieldHelper t (chip_signed c) fmts None) in
  NoDup (line_field <$> lines) ∧ Forall (line_fits fh) lines.
Proof.
  intros Hp Hok. unfold lines_ok in Hok.
  rewrite andb_true_iff, bool_decide_eq_true, forallb_forall in Hok. destruct Hok as [Hnd Hall].
  split; [done|]. apply Forall_forall. intros s Hs%list_elem_of_In. apply Hall in Hs.
  rewrite andb_true_iff, bool_decide_eq_true in Hs. destruct Hs as [Ho Hd].
  destruct (chip_field_same c t fmts sets _ Hp Ho) as (Hr & Hsg & Hreg & Hm).
  split; [exact Hr|]. destruct s as [|f d]; [done|]. rewrite <- Hd. by apply default_ok_same.
Qed.

(** A chip's unsigned field that holds every value up to [hi]. *)
Definition field_ok (c : chip) (f : string) (hi : Z) : bool :=
  bool_decide (length (owners (chip_fields c) f) = 1%nat) && negb (bool_decide (f ∈ chip_signed c)) &&
  (hi <=? max_of (chip_helper c) f).

Lemma field_ok_fit c t fmts sets f hi :
  t ≡ₚ chip_fields c → field_ok c f hi = true →
  let fh := set_all sets (NewFieldHelper t (chip_signed c) fmts None) in
  is_Some (fieldToRegister fh !! f) ∧ ∀ v, 0 ≤ v ≤ hi → fit fh f v = v.
Proof.
  intros Hp Hok. unfold field_ok in Hok.
  rewrite !andb_true_iff, bool_decide_eq_true, negb_true_iff, bool_decide_eq_false, Z.leb_le in Hok.
  destruct Hok as [[Ho Hs] Hhi].
  destruct (chip_field_same c t fmts sets f Hp Ho) as ([r Hr] & Hsg & Hreg & Hm).
  destruct (chip_helper_inv c t fmts sets Hp) as [Hw _]. cbv zeta in *.
  split; [by exists r|]. intros v Hv. apply (fit_exact _ f r); [done..|].
  rewrite Hsg, bool_decide_false by (simpl; by rewrite elem_of_list_to_set).
  unfold max_of in *. rewrite Hreg, Hm. lia.
Qed.

(** A field of a zero register value is zero. *)
Lemma Get_field_0 fh f r :
  wf fh → fieldToRegister fh !! f = Some r → Get_field fh f (Some 0) None = 0.
Proof.
  intros Hw Hr. destruct (wf_run _ Hw f r Hr) as (k & w & Hrun).
  rewrite (Get_field_decode _ _ _ _ r k w); [|symmetry; by apply register_of_lookup|done].
  destruct Hrun as (Hk & Hw0 & _). simpl. unfold decode, sign_wrap, bits_of.
  assert (0 < 2 ^ w) by lia. assert (0 < 2 ^ (w - 1)) by lia.
  rewrite Z.shiftr_0_l, Z.mod_0_l by lia.
  rewrite (bool_decide_false (2 ^ (w - 1) ≤ 0)) by lia. by case_match.
Qed.

(** The TMC2660 check of [driver_HEND] and [driver_HSTRT] never fires: it reads
    the fields of a zero register value. *)
Lemma hend_hstrt_check_dead fh :
  wf fh → (∀ f, f ∈ ["chm"; "hstrt"; "hend"] → is_Some (fieldToRegister fh !! f)) →
  hend_hstrt_check fh = Ret tt.
Proof.
  intros Hw Hk. unfold hend_hstrt_check.
  assert (H0 : ∀ f, f ∈ ["chm"; "hstrt"; "hend"] → Get_field fh f (Some 0) None = 0).
  { intros f [r Hr]%Hk. by eapply Get_field_0. }
  by rewrite !H0 by set_solver.
Qed.

(** Configuring any supported chip from a section whose values are in range never
    panics, gives every field its line names the configured or default value, and
    changes no other field. *)
Theorem driver_configuration_exact `{ConfigFieldSource C} `{!ConfigLaws C} (config : C) (c : chip)
    (t : fieldTable) fmts (sets : list (string * any)) :
  t ≡ₚ chip_fields c →
  let fh := set_all sets (NewFieldHelper t (chip_signed c) fmts None) in
  ∃ fh', chip_configure c config fh = Ret fh' ∧
    (∀ s, s ∈ chip_lines c → line_result config fh fh' s) ∧
    (∀ g, g ∉ line_field <$> chip_lines c → is_Some (fieldToRegister fh !! g) →
       Get_field fh' g None None = Get_field fh g None None).
Proof.
  intros Hp fh. destruct (chip_helper_inv c t fmts sets Hp) as [Hw Ht]. fold fh in Hw, Ht.
  destruct (lines_fit c t fmts sets _ Hp (chip_lines_ok c)) as [Hnd Hfit]. fold fh in Hfit.
  destruct (configure_correct config (chip_lines c) fh Hw Hnd Hfit) as (fh' & Hc & Hs & Hres & Hframe).
  exists fh'. split_and!; [|by apply Forall_forall|done].
  destruct c; try exact Hc.
  unfold chip_configure, ConfigureTMC2660. unfold configure in *.
  cbn [chip_lines] in *. rewrite range_app in Hc. apply bind_ret_inv in Hc as (fh1 & H1 & H2).
  rewrite H1. cbn [mbind go_bind].
  assert (Hsch : same_schema fh1 fh).
  { rewrite fmap_app in Hnd. apply NoDup_app in Hnd as (Hnd & _ & _). apply Forall_app in Hfit as [Hfit _].
    destruct (configure_correct config _ fh Hw Hnd Hfit) as (fh1' & Hc' & Hs' & _).
    unfold configure in Hc'. rewrite H1 in Hc'. by injection Hc' as <-. }
  rewrite hend_hstrt_check_dead; [done|by eapply wf_schema|].
  assert (Hidx : fieldToRegister fh1 = fieldToRegister fh) by apply Hsch.
  rewrite Hidx. intros f Hf. rewrite Forall_forall in Hfit.
  assert (Hin : ∃ s, s ∈ ConfigureTMC2660_lines1 ++ ConfigureTMC2660_lines2 ∧ line_field s = f).
  { rewrite !elem_of_cons, elem_of_nil in Hf. destruct Hf as [->|[->|[->|[]]]];
      [exists (CConfig "chm" (AInt 0))|exists (CConfig "hstrt" (AInt 3))|exists (CConfig "hend" (AInt 3))];
      (split; [repeat first [constructor 1 | constructor 2]|done]). }
  destruct Hin as (s & Hin & <-). destruct (Hfit s Hin) as [[r Hr] _]. by exists r.
Qed.

(** A section with no driver option: every reader returns the default, and
    refuses one outside the limits. *)
Inductive empty_section : Type := EmptySection.

Definition checked (d : any) (lo hi : Z) : go Z :=
  if bool_decide (lo ≤ ToInt64 d ≤ hi) then Ret (ToInt64 d) else Panic "option out of range".

#[global] Instance empty_section_source : ConfigFieldSource empty_section := {|
  Getboolean _ _ d := Ret (negb (is_False d));
  Getint _ _ d lo hi := checked d lo hi;
  Getint64 _ _ d lo hi := checked d lo hi
|}.

#[global] Instance empty_section_laws : ConfigLaws empty_section.
Proof.
  split; simpl; unfold checked.
  1,2: intros c n d lo hi v; case_bool_decide; [by intros [= <-]|done].
  1,2: intros c n d lo hi Hd; rewrite bool_decide_true by done; eauto.
  eauto.
Qed.

Lemma driver_configuration_exact_witness :
  let fh := set_all [] (NewFieldHelper TMC2209Fields (chip_signed TMC2209) ∅ None) in
  ∃ fh', chip_configure TMC2209 EmptySection fh = Ret fh' ∧ Get_field fh' "pwm_lim" None None = 12.
Proof.
  intros fh.
  destruct (driver_configuration_exact EmptySection TMC2209 TMC2209Fields ∅ [] ltac:(reflexivity))
    as (fh' & Hc & Hl & _). fold fh in Hc, Hl.
  exists fh'. split; [exact Hc|].
  destruct (Hl (CConfig "pwm_lim" (AInt 12))) as (v & Hv & Hg);
    [repeat first [constructor 1 | constructor 2]|].
  rewrite Hg.
  assert (Hv' : option_value EmptySection fh "pwm_lim" (AInt 12) = Ret (AInt 12)) by (vm_compute; reflexivity).
  rewrite Hv' in Hv. by injection Hv as <-.
Defined.
