(* ===== verification/TmcCodecs.v ===== *)
(** * The wire formats of the TMC drivers

    [src/internal/pkg/tmc/transport_codecs.go]: the single-wire UART datagrams
    (CRC-8, start and stop bits packed into bytes) and the SPI daisy chain.
    The UART codec is exact ([DecodeUARTRead_iff]); the SPI answer goes through
    a Go string and 32-bit runes, and is exact on the answers proved in
    [DecodeSPIChainResponse_ascii]. *)

From S2P Require Import Prelude.

Definition crc8_bit (crc b : Z) : Z :=
  let crc := if bool_decide (Z.lxor (Z.shiftr crc 7) (Z.land b 1) ≠ 0)
             then Z.lxor (Z.shiftl crc 1) 0x07 else Z.shiftl crc 1 in
  Z.land crc 0xff.

(** The inner loop: [n] more bits of [b]. *)
Fixpoint crc8_byte (n : nat) (crc b : Z) : Z :=
  match n with
  | O => crc
  | S n => crc8_byte n (crc8_bit crc b) (Z.shiftr b 1)
  end.

Definition CalcCRC8ATM (data : list Z) : Z :=
  fold_left (λ crc b, crc8_byte 8 crc b) data 0.

(** The loop that packs ten bits per byte: the accumulator and the position. *)
Definition serial_step (acc : Z * Z) (d : Z) : Z * Z :=
  let '(out, pos) := acc in
  let b := Z.lor (Z.shiftl d 1) 0x200 in
  (Z.lor out (Z.shiftl b pos), pos + 10).

Definition AddSerialBits (data : list Z) : list Z :=
  let '(out, pos) := fold_left serial_step data (0, 0) in
  let last := Z.quot (pos + 7) 8 in
  (λ i, Z.land (Z.shiftr out (Z.of_nat i * 8)) 0xff) <$> seq 0 (Z.to_nat last).

Definition EncodeUARTRead (sync addr reg : Z) : list Z :=
  let msg := [sync; addr; reg] in
  AddSerialBits (msg ++ [CalcCRC8ATM msg]).

Definition EncodeUARTWrite (sync addr reg val : Z) : list Z :=
  let msg := [sync; addr; reg; Z.land (Z.shiftr val 24) 0xff; Z.land (Z.shiftr val 16) 0xff;
              Z.land (Z.shiftr val 8) 0xff; Z.land val 0xff] in
  AddSerialBits (msg ++ [CalcCRC8ATM msg]).

(** The answer's bytes as one number. *)
Definition read_value (data : list Z) : Z :=
  (fold_left (λ '(mval, pos) d, (Z.lor mval (Z.shiftl (u64 d) pos), pos + 8)) data (0, 0)).1.

Definition DecodeUARTRead (reg : Z) (data : list Z) : option Z :=
  if bool_decide (len data ≠ 10) then None
  else
    let mval := read_value data in
    let t31 := Z.shiftl (Z.land (Z.shiftr mval 31) 0xff) 24 in
    let t41 := Z.shiftl (Z.land (Z.shiftr mval 41) 0xff) 16 in
    let t51 := Z.shiftl (Z.land (Z.shiftr mval 51) 0xff) 8 in
    let t61 := Z.land (Z.shiftr mval 61) 0xff in
    let val := i64 (Z.lor (Z.lor (Z.lor t31 t41) t51) t61) in
    if bool_decide (data = EncodeUARTWrite 0x05 0xff reg val) then Some val else None.

(** ** SPI *)

Definition BuildSPIChainCommand (data : list Z) (chainLen chainPos : Z) : list Z :=
  replicate (Z.to_nat ((chainLen - chainPos) * 5)) 0 ++ data ++
  replicate (Z.to_nat ((chainPos - 1) * 5)) 0.

(** [[]rune(s)] on the bytes of a string: UTF-8, an invalid byte reads as
    U+FFFD. *)
Definition cont (b : Z) : bool := (0x80 <=? b) && (b <=? 0xbf).
Definition RuneError : Z := 0xfffd.

Definition decode_rune (s : list Z) : Z * nat :=
  match s with
  | [] => (RuneError, 0%nat)
  | b0 :: s =>
      if b0 <? 0x80 then (b0, 1%nat)
      else if (0xc2 <=? b0) && (b0 <=? 0xdf) then
        match s with
        | b1 :: _ => if cont b1 then ((b0 mod 32) * 64 + b1 mod 64, 2%nat) else (RuneError, 1%nat)
        | _ => (RuneError, 1%nat)
        end
      else if (0xe0 <=? b0) && (b0 <=? 0xef) then
        match s with
        | b1 :: b2 :: _ =>
            if cont b1 && cont b2 && negb ((b0 =? 0xe0) && (b1 <? 0xa0)) &&
               negb ((b0 =? 0xed) && (0x9f <? b1))
            then ((b0 mod 16) * 4096 + (b1 mod 64) * 64 + b2 mod 64, 3%nat) else (RuneError, 1%nat)
        | _ => (RuneError, 1%nat)
        end
      else if (0xf0 <=? b0) && (b0 <=? 0xf4) then
        match s with
        | b1 :: b2 :: b3 :: _ =>
            if cont b1 && cont b2 && cont b3 && negb ((b0 =? 0xf0) && (b1 <? 0x90)) &&
               negb ((b0 =? 0xf4) && (0x8f <? b1))
            then ((b0 mod 8) * 262144 + (b1 mod 64) * 4096 + (b2 mod 64) * 64 + b3 mod 64, 4%nat)
            else (RuneError, 1%nat)
        | _ => (RuneError, 1%nat)
        end
      else (RuneError, 1%nat)
  end.

(** The bytes still to skip count down while a rune is consumed. *)
Fixpoint runes_skip (skip : nat) (s : list Z) : list Z :=
  match s with
  | [] => []
  | b :: s' =>
      match skip with
      | S k => runes_skip k s'
      | O => let '(r, n) := decode_rune s in r :: runes_skip (pred n) s'
      end
  end.
Definition runes (s : list Z) : list Z := runes_skip 0 s.

Definition DecodeSPIChainResponse (response : list Z) (chainLen chainPos : Z) : go Z :=
  pr ← slice (runes response) ((chainLen - chainPos) * 5) ((chainLen - chainPos + 1) * 5);
  p1 ← pr.[1]; p2 ← pr.[2]; p3 ← pr.[3]; p4 ← pr.[4];
  Ret (Z.lor (Z.lor (Z.lor (i32 (Z.shiftl p1 24)) (i32 (Z.shiftl p2 16))) (i32 (Z.shiftl p3 8))) p4).

(** ** The packed frame as a number *)

(** Ten bits per byte, the first byte lowest. *)
Fixpoint serial (data : list Z) : Z :=
  match data with
  | [] => 0
  | d :: data => (2 * d + 512) + 1024 * serial data
  end.

Lemma serial_bound data : Forall is_byte data → 0 ≤ serial data < 1024 ^ len data.
Proof.
  induction 1 as [|d data Hd _ IH]; cbn [serial]; [done|].
  rewrite len_cons, Z.pow_add_r by (pose proof (len_nonneg data); lia).
  unfold is_byte in Hd. change (1024 ^ 1) with 1024.
  set (p := 1024 ^ len data) in *. clearbody p. lia.
Qed.

Lemma start_stop_bits d : is_byte d → Z.lor (Z.shiftl d 1) 0x200 = 2 * d + 512.
Proof.
  intros Hd. unfold is_byte in Hd. apply Z.eqb_eq.
  by_evaluation 256%nat (λ d, Z.lor (Z.shiftl d 1) 0x200 =? 2 * d + 512) d.
Qed.

Lemma lor_disjoint_high a b n : 0 ≤ n → 0 ≤ a < 2 ^ n → 0 ≤ b → Z.lor a (Z.shiftl b n) = a + b * 2 ^ n.
Proof. intros. rewrite Z.lor_comm, lor_shiftl_add by lia. lia. Qed.

Lemma serial_fold data out pos :
  Forall is_byte data → 0 ≤ pos → 0 ≤ out < 2 ^ pos →
  fold_left serial_step data (out, pos) = (out + serial data * 2 ^ pos, pos + 10 * len data).
Proof.
  intros Hd. revert out pos. induction Hd as [|d data Hd _ IH]; intros out pos Hpos Hout.
  - cbn [fold_left serial]. change (len (@nil Z)) with 0. f_equal; lia.
  - cbn [fold_left serial_step]. rewrite start_stop_bits, lor_disjoint_high; [|unfold is_byte in Hd; lia..|done].
    rewrite IH; [|lia|].
    + cbn [serial]. rewrite len_cons, Z.pow_add_r by lia. f_equal; [|lia].
      change (2 ^ 10) with 1024. ring.
    + rewrite Z.pow_add_r by lia. change (2 ^ 10) with 1024. unfold is_byte in Hd.
      assert (0 < 2 ^ pos) by lia. nia.
Qed.

Lemma AddSerialBits_serial data :
  Forall is_byte data →
  AddSerialBits data = (λ i, (serial data / 2 ^ (8 * Z.of_nat i)) mod 256) <$>
    seq 0 (Z.to_nat ((10 * len data + 7) / 8)).
Proof.
  intros Hd. unfold AddSerialBits. rewrite serial_fold; [|done|lia|lia].
  rewrite Z.mul_1_r, !Z.add_0_l. rewrite Z.quot_div_nonneg by (pose proof (len_nonneg data); lia).
  apply list_fmap_ext. intros i x _. rewrite land_255, Z.shiftr_div_pow2 by lia.
  do 3 f_equal. lia.
Qed.

(** Joining the bytes of a number gives the number back. *)
Lemma read_value_bytes z n :
  0 ≤ z → read_value ((λ i, (z / 2 ^ (8 * Z.of_nat i)) mod 256) <$> seq 0 n) = z mod 2 ^ (8 * Z.of_nat n).
Proof.
  intros Hz. unfold read_value.
  assert (H : fold_left (λ '(mval, pos) d, (Z.lor mval (Z.shiftl (u64 d) pos), pos + 8))
    ((λ i, (z / 2 ^ (8 * Z.of_nat i)) mod 256) <$> seq 0 n) (0, 0)
    = (z mod 2 ^ (8 * Z.of_nat n), 8 * Z.of_nat n)); [|by rewrite H].
  induction n as [|n IH]; [simpl; by rewrite Z.mod_1_r|].
  rewrite seq_S, fmap_app, fold_left_app, IH. cbn [fmap list_fmap fold_left Nat.add].
  assert (Hb : is_byte ((z / 2 ^ (8 * Z.of_nat n)) mod 256))
    by (unfold is_byte; apply Z.mod_pos_bound; lia).
  unfold is_byte in Hb. unfold u64. rewrite (Z.mod_small (_ mod 256)) by lia.
  rewrite lor_disjoint_high by (try apply Z.mod_pos_bound; lia).
  f_equal; [|lia].
  replace (8 * Z.of_nat (S n)) with (8 * Z.of_nat n + 8) by lia.
  rewrite Z.pow_add_r by lia. rewrite Z.rem_mul_r by lia. change (2 ^ 8) with 256. ring.
Qed.

(** The data bits of byte [i] sit at position [10 i + 1]. *)
Lemma serial_extract data i d :
  Forall is_byte data → data !! i = Some d → (serial data / 2 ^ (10 * Z.of_nat i + 1)) mod 256 = d.
Proof.
  intros Hall. revert i. induction Hall as [|x data Hx Hall IH]; intros i Hi; [done|].
  pose proof (serial_bound data Hall). unfold is_byte in Hx. cbn [serial].
  destruct i as [|i]; simpl in Hi.
  - injection Hi as ->. change (2 ^ (10 * Z.of_nat 0 + 1)) with 2.
    replace (2 * d + 512 + 1024 * serial data) with ((d + (1 + 2 * serial data) * 256) * 2) by ring.
    rewrite Z.div_mul, Z.mod_add by lia. apply Z.mod_small. lia.
  - rewrite <- (IH i Hi). f_equal.
    replace (10 * Z.of_nat (S i) + 1) with (10 + (10 * Z.of_nat i + 1)) by lia.
    rewrite Z.pow_add_r by lia. rewrite <- Z.div_div by lia. f_equal.
    change (2 ^ 10) with 1024. rewrite (Z.mul_comm 1024), Z.div_add, Z.div_small by lia. lia.
Qed.

Lemma crc8_byte_range n crc b : is_byte crc → is_byte (crc8_byte n crc b).
Proof.
  revert crc b; induction n as [|n IH]; intros crc b Hc; [done|]. cbn [crc8_byte]. apply IH.
  unfold crc8_bit, is_byte. rewrite land_255. apply Z.mod_pos_bound. lia.
Qed.

Lemma CalcCRC8ATM_byte data : is_byte (CalcCRC8ATM data).
Proof.
  unfold CalcCRC8ATM. apply (fold_left_inv is_byte); [|by_decide].
  intros c b Hc. exact (crc8_byte_range 8 c b Hc).
Qed.

Lemma byte_land v : is_byte (Z.land v 0xff).
Proof. unfold is_byte. rewrite land_255. apply Z.mod_pos_bound. lia. Qed.

(** Four bytes joined into a word. *)
Lemma join_bytes4 a b c d :
  is_byte a → is_byte b → is_byte c → is_byte d →
  Z.lor (Z.lor (Z.lor (Z.shiftl a 24) (Z.shiftl b 16)) (Z.shiftl c 8)) d =
  ((a * 256 + b) * 256 + c) * 256 + d.
Proof.
  unfold is_byte. intros.
  replace (Z.shiftl a 24) with (Z.shiftl (Z.shiftl a 8) 16) by (by rewrite Z.shiftl_shiftl by lia).
  rewrite <- Z.shiftl_lor, (lor_shiftl_add a b 8) by lia.
  replace (Z.shiftl (a * 2 ^ 8 + b) 16) with (Z.shiftl (Z.shiftl (a * 2 ^ 8 + b) 8) 8)
    by (by rewrite Z.shiftl_shiftl by lia).
  rewrite <- Z.shiftl_lor, (lor_shiftl_add _ c 8), (lor_shiftl_add _ d 8) by lia. lia.
Qed.

(** The four data bytes of a value. *)
Lemma join_value v : 0 ≤ v < 2 ^ 32 →
  Z.lor (Z.lor (Z.lor (Z.shiftl (Z.land (Z.shiftr v 24) 0xff) 24) (Z.shiftl (Z.land (Z.shiftr v 16) 0xff) 16))
    (Z.shiftl (Z.land (Z.shiftr v 8) 0xff) 8)) (Z.land v 0xff) = v.
Proof.
  intros Hv. rewrite join_bytes4 by apply byte_land.
  rewrite !land_255, !Z.shiftr_div_pow2 by lia. dlia.
Qed.

Lemma uart_write_bytes sync addr reg val :
  is_byte sync → is_byte addr → is_byte reg →
  let msg := [sync; addr; reg; Z.land (Z.shiftr val 24) 0xff; Z.land (Z.shiftr val 16) 0xff;
              Z.land (Z.shiftr val 8) 0xff; Z.land val 0xff] in
  Forall is_byte (msg ++ [CalcCRC8ATM msg]).
Proof.
  intros Hs Ha Hr. cbv zeta. rewrite Forall_app, !Forall_cons, !Forall_nil.
  split_and!; try done; first [apply byte_land | apply CalcCRC8ATM_byte].
Qed.

Lemma len_EncodeUARTWrite sync addr reg val : len (EncodeUARTWrite sync addr reg val) = 10.
Proof. reflexivity. Qed.

(** The value bits of a write datagram, read back at the offsets the decoder
    uses. *)
Lemma read_back reg val k j :
  is_byte reg → 0 ≤ k ≤ 3 → j = 61 - 10 * k →
  Z.land (Z.shiftr (read_value (EncodeUARTWrite 0x05 0xff reg val)) j) 0xff =
  Z.land (Z.shiftr val (8 * k)) 0xff.
Proof.
  intros Hreg Hk ->. unfold EncodeUARTWrite. cbv zeta.
  pose proof (uart_write_bytes 0x05 0xff reg val ltac:(by_decide) ltac:(by_decide) Hreg) as Hall.
  cbv zeta in Hall. set (data := _ ++ _) in Hall |- *.
  rewrite AddSerialBits_serial by done. change (Z.to_nat ((10 * len data + 7) / 8)) with 10%nat.
  rewrite read_value_bytes by (apply serial_bound; done).
  pose proof (serial_bound data Hall) as Hb. change (1024 ^ len data) with (2 ^ 80) in Hb.
  rewrite Z.mod_small by (change (2 ^ (8 * Z.of_nat 10)) with (2 ^ 80); lia).
  rewrite land_255, Z.shiftr_div_pow2 by lia.
  replace (61 - 10 * k) with (10 * Z.of_nat (Z.to_nat (6 - k)) + 1) by lia.
  apply serial_extract; [done|].
  assert (k = 0 ∨ k = 1 ∨ k = 2 ∨ k = 3) as [->|[->|[->| ->]]] by lia; reflexivity.
Qed.

(** DecodeUARTRead accepts a received bit stream with a value exactly when the stream
    is the serial encoding, with its checksum, of the reply datagram that carries that
    32-bit value for that register. *)
Theorem DecodeUARTRead_iff (reg val : Z) (data : list Z) :
  is_byte reg →
  DecodeUARTRead reg data = Some val ↔
  0 ≤ val < 2 ^ 32 ∧ data = EncodeUARTWrite 0x05 0xff reg val.
Proof.
  intros Hreg. unfold DecodeUARTRead. split.
  - case_bool_decide; [done|]. cbv zeta.
    match goal with |- context [i64 ?e] => set (v := e) end.
    case_bool_decide as Hd; [|done]. intros [= <-]. split; [|done].
    assert (0 ≤ v < 2 ^ 32).
    { unfold v. assert (Hs : ∀ z n, 0 ≤ n ≤ 24 → 0 ≤ Z.shiftl (Z.land z 255) n < 2 ^ 32).
      { intros z n Hn. rewrite Z.shiftl_mul_pow2, land_255 by lia.
        pose proof (Z.mod_pos_bound z 256 ltac:(lia)).
        assert (2 ^ n ≤ 2 ^ 24) by (apply Z.pow_le_mono_r; lia). assert (0 < 2 ^ n) by lia. nia. }
      repeat apply lor_bound; try lia; try (apply Hs; lia).
      apply (Hs _ 0). lia. }
    rewrite i64_id; lia.
  - intros [Hv ->]. rewrite len_EncodeUARTWrite. rewrite bool_decide_false by lia. cbv zeta.
    rewrite (read_back reg val 3), (read_back reg val 2), (read_back reg val 1), (read_back reg val 0) by (done || lia).
    change (8 * 3) with 24. change (8 * 2) with 16. change (8 * 1) with 8. change (8 * 0) with 0.
    rewrite (Z.shiftr_0_r val), join_value by done. rewrite i64_id by lia. by rewrite bool_decide_true.
Qed.

Lemma DecodeUARTRead_iff_witness :
  DecodeUARTRead 0x6f (EncodeUARTWrite 0x05 0xff 0x6f 0xc0190000) = Some 0xc0190000 ∧
  DecodeUARTRead 0x6f (EncodeUARTWrite 0x05 0xff 0x6e 0xc0190000) = None.
Proof.
  split; [|vm_compute; reflexivity].
  apply (DecodeUARTRead_iff 0x6f 0xc0190000); [by_decide|]. split; [lia|reflexivity].
Defined.

(** ** The SPI answer *)

Lemma runes_ascii s : Forall (λ b, 0 ≤ b < 0x80) s → runes s = s.
Proof.
  unfold runes. induction 1 as [|b s Hb _ IH]; [done|]. cbn [runes_skip decode_rune].
  rewrite (proj2 (Z.ltb_lt b 0x80)) by lia. cbn [pred]. by rewrite IH.
Qed.

Lemma decode_rune_range s : Forall is_byte s → 0 ≤ (decode_rune s).1 < 2 ^ 21.
Proof.
  intros Hs. unfold decode_rune, RuneError.
  destruct Hs as [|b0 s Hb0 Hs]; simpl; [lia|]. unfold is_byte in Hb0.
  pose proof (Z.mod_pos_bound b0 32 ltac:(lia)). pose proof (Z.mod_pos_bound b0 16 ltac:(lia)).
  pose proof (Z.mod_pos_bound b0 8 ltac:(lia)).
  assert (Hm : ∀ b, 0 ≤ b mod 64 < 64) by (intros; apply Z.mod_pos_bound; lia).
  repeat case_match; simpl; try lia;
    repeat match goal with
    | |- context [?b mod 64] => lazymatch goal with H : 0 ≤ b mod 64 < 64 |- _ => fail | _ => pose proof (Hm b) end
    end; lia.
Qed.

Lemma runes_range s : Forall is_byte s → Forall (λ r, 0 ≤ r < 2 ^ 21) (runes s).
Proof.
  unfold runes. intros Hs. generalize 0%nat. induction Hs as [|b s Hb Hs IH]; intros skip; [constructor|].
  cbn [runes_skip]. destruct skip as [|k]; [|apply IH].
  pose proof (decode_rune_range (b :: s) ltac:(by constructor)).
  destruct (decode_rune (b :: s)) as [r n]. by constructor.
Qed.

Lemma lor_lt a b n : 0 ≤ n → a < 2 ^ n → b < 2 ^ n → Z.lor a b < 2 ^ n.
Proof.
  intros Hn Ha Hb. destruct (decide (0 ≤ a)), (decide (0 ≤ b)).
  - apply lor_bound; lia.
  - assert (Z.lor a b < 0) by (apply Z.lor_neg; lia). lia.
  - assert (Z.lor a b < 0) by (apply Z.lor_neg; lia). lia.
  - assert (Z.lor a b < 0) by (apply Z.lor_neg; lia). lia.
Qed.

Lemma i32_lt z : i32 z < 2 ^ 31.
Proof. unfold i32. pose proof (Z.mod_pos_bound (z + 2 ^ 31) (2 ^ 32)). lia. Qed.

(** What the code reads is a signed 32-bit number, whatever the bus answers. *)
Lemma DecodeSPIChainResponse_int32 response chainLen chainPos v :
  Forall is_byte response → DecodeSPIChainResponse response chainLen chainPos = Ret v → v < 2 ^ 31.
Proof.
  intros Hresp H. unfold DecodeSPIChainResponse in H.
  apply bind_ret_inv in H as (pr & Hpr & H).
  apply bind_ret_inv in H as (p1 & _ & H). apply bind_ret_inv in H as (p2 & _ & H).
  apply bind_ret_inv in H as (p3 & _ & H). apply bind_ret_inv in H as (p4 & H4 & H).
  injection H as <-. apply index_Ret_inv in H4 as [_ H4].
  assert (Hp4 : p4 ∈ runes response).
  { unfold slice in Hpr. case_bool_decide; [|done]. injection Hpr as <-.
    rewrite lookup_take_Some, lookup_drop in H4. destruct H4 as [H4 _]. by eapply list_elem_of_lookup_2. }
  pose proof (proj1 (Forall_forall _ _) (runes_range _ Hresp) p4 Hp4) as Hr. cbv beta in Hr.
  repeat apply lor_lt; try apply i32_lt; lia.
Qed.

(** A chain slot holding seven-bit bytes is read as the number they spell. *)
Lemma DecodeSPIChainResponse_ascii pre st b3 b2 b1 b0 suf chainLen chainPos :
  Forall (λ b, 0 ≤ b < 0x80) (pre ++ [st; b3; b2; b1; b0] ++ suf) →
  len pre = (chainLen - chainPos) * 5 →
  DecodeSPIChainResponse (pre ++ [st; b3; b2; b1; b0] ++ suf) chainLen chainPos =
    Ret (((b3 * 256 + b2) * 256 + b1) * 256 + b0).
Proof.
  intros Hall Hlen. unfold DecodeSPIChainResponse. rewrite runes_ascii by done.
  rewrite (slice_app_mid pre) by (rewrite ?Hlen; cbn [len]; unfold len; simpl; lia).
  cbn [mbind go_bind]. change ([st; b3; b2; b1; b0].[1]) with (Ret b3).
  change ([st; b3; b2; b1; b0].[2]) with (Ret b2). change ([st; b3; b2; b1; b0].[3]) with (Ret b1).
  change ([st; b3; b2; b1; b0].[4]) with (Ret b0). cbn [mbind go_bind].
  rewrite !Forall_app, !Forall_cons in Hall. destruct Hall as (_ & (Hst & H3 & H2 & H1 & H0 & _) & _).
  rewrite !i32_id by (rewrite Z.shiftl_mul_pow2 by lia; lia).
  by rewrite join_bytes4 by (unfold is_byte; lia).
Qed.

Lemma replicate_slot (a b : nat) :
  replicate (a + (5 + b)) 0 = replicate a 0 ++ [0; 0; 0; 0; 0] ++ replicate b 0.
Proof. rewrite !replicate_add. done. Qed.

(** A command built for one position of an SPI chain is five bytes per device, and
    decoding the same bytes at a position gives the value there and zero elsewhere (for
    bytes below 0x80). *)
Theorem spi_chain_addressing (chainLen chainPos q st b3 b2 b1 b0 : Z) :
  1 ≤ chainPos ≤ chainLen → 1 ≤ q ≤ chainLen →
  Forall (λ b, 0 ≤ b < 0x80) [st; b3; b2; b1; b0] →
  let cmd := BuildSPIChainCommand [st; b3; b2; b1; b0] chainLen chainPos in
  len cmd = 5 * chainLen ∧
  DecodeSPIChainResponse cmd chainLen q =
    Ret (if bool_decide (q = chainPos) then ((b3 * 256 + b2) * 256 + b1) * 256 + b0 else 0).
Proof.
  intros Hpos Hq Hd cmd. unfold cmd, BuildSPIChainCommand.
  set (na := Z.to_nat ((chainLen - chainPos) * 5)). set (nb := Z.to_nat ((chainPos - 1) * 5)).
  assert (Hz : ∀ n, Forall (λ b, 0 ≤ b < 0x80) (replicate n 0)) by (intros; apply Forall_replicate; lia).
  split; [unfold len; rewrite !length_app, !length_replicate; simpl; lia|].
  case_bool_decide as Heq; [subst q|].
  - apply DecodeSPIChainResponse_ascii; [by rewrite !Forall_app|].
    unfold len. rewrite length_replicate. lia.
  - destruct (decide (q < chainPos)).
    + set (m := Z.to_nat ((chainPos - q - 1) * 5)). set (r := Z.to_nat ((q - 1) * 5)).
      assert (nb = (m + (5 + r))%nat) as -> by lia. rewrite replicate_slot, !app_assoc.
      rewrite <- app_assoc. apply (DecodeSPIChainResponse_ascii _ 0 0 0 0 0).
      * rewrite !Forall_app, !Forall_cons in *. naive_solver lia.
      * unfold len. rewrite !length_app, !length_replicate. simpl. lia.
    + set (m := Z.to_nat ((chainLen - q) * 5)). set (r := Z.to_nat ((q - chainPos - 1) * 5)).
      assert (na = (m + (5 + r))%nat) as -> by lia. rewrite replicate_slot, <- !app_assoc.
      apply (DecodeSPIChainResponse_ascii _ 0 0 0 0 0).
      * rewrite !Forall_app, !Forall_cons in *. naive_solver lia.
      * unfold len. rewrite length_replicate. lia.
Qed.

Lemma spi_chain_addressing_witness :
  DecodeSPIChainResponse (BuildSPIChainCommand [0x6c; 0x01; 0x02; 0x03; 0x04] 3 2) 3 2 = Ret 0x01020304 ∧
  DecodeSPIChainResponse (BuildSPIChainCommand [0x6c; 0x01; 0x02; 0x03; 0x04] 3 2) 3 1 = Ret 0.
Proof.
  split.
  - apply (spi_chain_addressing 3 2 2 0x6c 1 2 3 4); by_decide.
  - apply (spi_chain_addressing 3 2 1 0x6c 1 2 3 4); by_decide.
Defined.
