(* ===== verification/TmcUartThy.v ===== *)
(** * Register writes over a lossy UART are confirmed *)

From S2P Require Import Prelude GoFloat GoStrings GoState TmcUart.

(** The chip: IFCNT, at address [ifcnt_reg], counts the accepted writes modulo
    256; a datagram is accepted or lost; an answer that arrives is right (its
    CRC has been checked). *)
Class ChipLaws (E : Type) `{UARTRegisterTransport E} (ifcnt_reg : Z) := {
  count : E → Z;
  last_write : E → option (Z * Z);
  count_byte : ∀ e, is_byte (count e);
  read_law : ∀ addr reg e r e', ReadRegister addr reg e = (r, e') →
    count e' = count e ∧ last_write e' = last_write e ∧
    (reg = ifcnt_reg → ∀ v, r = Ret (Some v) → v = count e);
  write_law : ∀ addr reg val pt e r e', WriteRegister addr reg val pt e = (r, e') →
    count e' = (count e + 1) mod 256 ∧ last_write e' = Some (reg, val) ∨
    count e' = count e ∧ last_write e' = last_write e
}.

Section Sound.
Context `{UARTRegisterTransport E} {ifcnt_reg : Z} `{!ChipLaws E ifcnt_reg}.

Implicit Types s : UARTTransportRuntime * E.

(** The cached counter, when there is one, is the chip's. *)
Definition synced s : Prop := u_hasIFCNT s.1 = true → u_ifcnt s.1 = count s.2.

(** What a runtime never changes. *)
Definition same_runtime (u u' : UARTTransportRuntime) : Prop :=
  u_name u' = u_name u ∧ u_nameToReg u' = u_nameToReg u ∧ u_addr u' = u_addr u ∧ u_debug u' = u_debug u.

Definition chip_is (c : Z) (l : option (Z * Z)) s : Prop := count s.2 = c ∧ last_write s.2 = l.

(** The runtime [u0] talking to a chip with counter [c] and last write [l]. *)
Definition at_chip (u0 : UARTTransportRuntime) c l s : Prop := same_runtime u0 s.1 ∧ chip_is c l s.

Lemma transportRead_spec u0 c l u1 reg :
  hoare (λ s, at_chip u0 c l s ∧ s.1 = u1) (transportReadRegister reg)
    (onret (λ r s, (at_chip u0 c l s ∧ s.1 = u1) ∧ (reg = ifcnt_reg → ∀ v, r = Some v → v = c))).
Proof.
  intros [u e] [[Hu [Hc Hl]] Hu1]. unfold transportReadRegister, self, gets, recovering, on_bus, mbind, M_bind.
  simpl. destruct (ReadRegister (u_addr u) reg e) as [r e'] eqn:Hr.
  pose proof (read_law _ _ _ _ _ Hr) as (Hc' & Hl' & Hv). simpl in *.
  destruct r as [v|w]; simpl.
  - unfold at_chip, chip_is. simpl. split; [split_and!; congruence || done|].
    intros Hreg v' ->. rewrite <- Hc. by apply Hv.
  - case_match; simpl; [|done]. unfold at_chip, chip_is. simpl. split; [split_and!; congruence || done|done].
Qed.

Lemma read_retry_spec u0 c l u1 n reg :
  hoare (λ s, at_chip u0 c l s ∧ s.1 = u1) (read_retry n reg)
    (onret (λ r s, (at_chip u0 c l s ∧ s.1 = u1) ∧ (reg = ifcnt_reg → ∀ v, r = Some v → v = c))).
Proof.
  induction n as [|n IH]; cbn [read_retry]; [by apply hoare_ret|].
  eapply hoare_bind; [apply transportRead_spec|]. intros [v|].
  - apply hoare_ret. intros s [? Hv]. split; [done|]. intros Hreg v' [= <-]. by apply Hv.
  - eapply hoare_weaken; [apply IH|by intros s [? _]|done].
Qed.

Lemma readRegister_spec u0 c l u1 regName :
  hoare (λ s, at_chip u0 c l s ∧ s.1 = u1) (readRegister regName)
    (onret (λ r s, (at_chip u0 c l s ∧ s.1 = u1) ∧
       (reg_addr u0 regName = ifcnt_reg → ∀ v, r = inr v → v = c))).
Proof.
  unfold readRegister, self. eapply hoare_bind.
  { apply hoare_gets with (Q := λ u s, (at_chip u0 c l s ∧ s.1 = u1) ∧ reg_addr u regName = reg_addr u0 regName).
    intros s [Hs Hu]. split; [done|]. destruct Hs as [(_ & Hn & _) _]. unfold reg_addr. by rewrite Hn. }
  intros u. eapply hoare_bind.
  { eapply hoare_fix. intros s0 [Hs0 Hr0]. eapply hoare_weaken; [apply read_retry_spec with (reg := reg_addr u regName)| |].
    - intros s ->. exact Hs0.
    - intros r s Hr. rewrite Hr0 in Hr. exact Hr. }
  intros r. apply hoare_ret. intros s [Hs Hv]. split; [done|].
  intros Hreg v Hrv. apply Hv; [done|]. destruct r; [by injection Hrv as ->|done].
Qed.

(** Polling: the counter read last is the chip's, and a match is a match. *)
Lemma poll_loop_spec u0 c l n reg x cur saw :
  reg = ifcnt_reg →
  hoare (λ s, at_chip u0 c l s ∧ (saw = true → u_hasIFCNT s.1 = true ∧ u_ifcnt s.1 = c))
    (poll_loop n reg x cur saw)
    (onret (λ r s, at_chip u0 c l s ∧ (r.1.2 = true → c = x) ∧
       (r.2 = true → u_hasIFCNT s.1 = true ∧ u_ifcnt s.1 = c) ∧ (r.1.2 = true → r.2 = true))).
Proof.
  intros Hreg. revert cur saw. induction n as [|n IH]; intros cur saw; cbn [poll_loop].
  { apply hoare_ret. intros s [Hs Hsaw]. split_and!; try done. }
  eapply hoare_bind with (R := λ r s, (at_chip u0 c l s ∧
    (saw = true → u_hasIFCNT s.1 = true ∧ u_ifcnt s.1 = c)) ∧ ∀ v, r = Some v → v = c).
  { apply hoare_fix. intros s0 [Hs0 Hsaw]. eapply hoare_weaken; [apply (transportRead_spec u0 c l s0.1)| |].
    - by intros s ->.
    - intros r s [[Hs Hu] Hv]. rewrite Hu. split; [done|]. by apply Hv. }
  intros [v|]; [|eapply hoare_weaken; [apply IH|by intros s [? _]|done]].
  eapply hoare_bind with (R := λ _ s, at_chip u0 c l s ∧ v = c ∧ u_hasIFCNT s.1 = true ∧ u_ifcnt s.1 = c).
  { apply hoare_modify. intros [u e] [[[Hs Hc] _] Hv]. simpl. split_and!; try done; by apply Hv. }
  intros _. case_bool_decide as Hx.
  - apply hoare_ret. intros s (Hs & -> & Hu). split_and!; try done; by intros.
  - eapply hoare_weaken; [apply (IH v true)| |done]. by intros s (Hs & _ & Hu).
Qed.

Lemma transportWrite_spec u0 u1 c l reg val pt :
  hoare (λ s, at_chip u0 c l s ∧ s.1 = u1) (transportWriteRegister reg val pt)
    (onret (λ ok s, s.1 = u1 ∧ same_runtime u0 s.1 ∧
       (chip_is ((c + 1) mod 256) (Some (reg, val)) s ∨ chip_is c l s))).
Proof.
  intros [u e] [[Hu [Hc Hl]] Hu1].
  unfold transportWriteRegister, self, gets, recovering, on_bus, mbind, M_bind. simpl.
  destruct (WriteRegister (u_addr u) reg val pt e) as [r e'] eqn:Hr.
  pose proof (write_law _ _ _ _ _ _ _ Hr) as Hw. unfold chip_is. simpl in *.
  destruct r as [[]|w]; simpl; [|case_match; simpl; [|done]];
    (split_and!; [done|done|]); simpl; rewrite <- Hc, <- Hl; done.
Qed.

(** A runtime whose cache agrees with the chip. *)
Definition ready (u0 : UARTTransportRuntime) s : Prop := same_runtime u0 s.1 ∧ synced s.

Lemma same_runtime_trans u0 u u' : same_runtime u0 u → same_runtime u u' → same_runtime u0 u'.
Proof. unfold same_runtime. intuition congruence. Qed.

Lemma at_chip_reg_addr u0 c l s regName : at_chip u0 c l s → reg_addr s.1 regName = reg_addr u0 regName.
Proof. intros [(_ & Hn & _) _]. unfold reg_addr. by rewrite Hn. Qed.

Lemma pollIFCNTAfterWrite_spec u0 c l x :
  reg_addr u0 "IFCNT" = ifcnt_reg →
  hoare (at_chip u0 c l) (pollIFCNTAfterWrite x)
    (onret (λ r s, at_chip u0 c l s ∧ (r.1.2 = true → c = x) ∧
       (r.2 = true → u_hasIFCNT s.1 = true ∧ u_ifcnt s.1 = c) ∧ (r.1.2 = true → r.2 = true))).
Proof.
  intros Hifcnt. unfold pollIFCNTAfterWrite, self. eapply hoare_bind.
  { apply hoare_gets with (Q := λ u s, at_chip u0 c l s ∧ reg_addr u "IFCNT" = ifcnt_reg).
    intros s Hs. split; [done|]. by rewrite (at_chip_reg_addr u0 c l). }
  intros u. apply hoare_fix. intros s0 [Hs0 Hr]. eapply hoare_weaken; [by apply (poll_loop_spec u0 c l)| |done].
  by intros s ->.
Qed.

(** Getting hold of the counter before a write. *)
Lemma attempt_ready_spec u0 i :
  reg_addr u0 "IFCNT" = ifcnt_reg →
  hoare (ready u0)
    (u ← self;
     if u_hasIFCNT u then mret (inr tt)
     else r ← readRegister "IFCNT";
          match r with
          | inl err => mret (inl ("reading IFCNT before write attempt " ++ Itoa i ++ ": " ++ err)%string)
          | inr v => _ ← update (with_ifcnt v); mret (inr tt)
          end)
    (onret (λ (r : string + unit) s, ready u0 s ∧
       (∀ x, r = inr x → u_hasIFCNT s.1 = true))).
Proof.
  intros Hifcnt. apply hoare_fix. intros s0 [Hu0 Hsync]. unfold self.
  eapply hoare_bind; [apply hoare_gets with (Q := λ u s, s = s0 ∧ u = s0.1); by intros s ->|].
  intros u. destruct (u_hasIFCNT u) eqn:Hh.
  { apply hoare_ret. intros s [-> ->]. by split. }
  eapply hoare_bind.
  { eapply hoare_weaken; [apply (readRegister_spec u0 (count s0.2) (last_write s0.2) s0.1)| |intros r s Hr; exact Hr].
    by intros s [-> _]. }
  intros [err|v]; simpl.
  - apply hoare_ret. intros s [[[Hs Hc] Hu] _]. split; [|done]. split; [done|].
    unfold synced. rewrite Hu. destruct Hc as [Hc _]. rewrite Hc. exact Hsync.
  - eapply hoare_bind with (R := λ _ s, ready u0 s ∧ u_hasIFCNT s.1 = true);
      [|intros []; apply hoare_ret; intros s [? ?]; by split].
    apply hoare_modify. intros [u' e] [[[Hs [Hc Hl]] Hu] Hv]. simpl in *.
    split; [|done]. split; [done|]. intros _. simpl. rewrite Hc. by apply Hv.
Qed.

Lemma write_attempt_spec u0 i reg val :
  reg_addr u0 "IFCNT" = ifcnt_reg →
  hoare (ready u0) (write_attempt i reg val)
    (onret (λ r s, ready u0 s ∧ (∀ x, r = inr x → last_write s.2 = Some (reg, val)))).
Proof.
  intros Hifcnt.
  assert (Hassoc : ∀ s, write_attempt i reg val s = (ready ← (u ← self;
     if u_hasIFCNT u then mret (inr tt)
     else r ← readRegister "IFCNT";
          match r with
          | inl err => mret (inl ("reading IFCNT before write attempt " ++ Itoa i ++ ": " ++ err)%string)
          | inr v => _ ← update (with_ifcnt v); mret (inr tt)
          end); _) s) by (intros; reflexivity).
  intros s Hs. rewrite Hassoc. revert s Hs.
  eapply hoare_bind; [by apply attempt_ready_spec|]. intros [err|[]].
  { apply hoare_ret. intros s [Hs _]. by split. }
  apply hoare_fix. intros s0 [[Hu0 Hsync] Hhas]. specialize (Hhas tt eq_refl).
  unfold self. eapply hoare_bind; [apply hoare_gets with (Q := λ u s, s = s0 ∧ u = s0.1); by intros s ->|].
  intros u. cbv zeta. eapply hoare_bind with (R := λ ok s, u = s0.1 ∧ same_runtime u0 s.1 ∧
    (chip_is ((count s0.2 + 1) mod 256) (Some (reg, val)) s ∨ chip_is (count s0.2) (last_write s0.2) s)).
  { apply hoare_fix. intros s1 [-> ->]. eapply hoare_weaken;
      [apply (transportWrite_spec u0 s0.1 (count s0.2) (last_write s0.2))|by intros s ->|].
    by intros ok s (_ & ? & ?). }
  intros ok. destruct ok; simpl.
  2: { eapply hoare_bind; [apply hoare_modify with (Q := λ _ s, ready u0 s)
         |intros []; apply hoare_ret; intros s Hs; by split].
       by intros [u' e] (_ & Hs & _). }
  apply hoare_fix. intros s1 (-> & Hu1 & Hchip).
  rewrite (Hsync Hhas), (land_255 (count s0.2 + 1)).
  eapply hoare_bind; [eapply hoare_weaken with (P' := at_chip u0 (count s1.2) (last_write s1.2));
    [by apply (pollIFCNTAfterWrite_spec u0)|by intros s ->|intros r s Hr; exact Hr]|].
  intros [[cur matched] sawRead]. simpl. destruct matched.
  - apply hoare_ret. intros s ([Hs [Hc Hl]] & Hx & Hsaw & Hms). split.
    + split; [done|]. intros _. rewrite Hc. by apply Hsaw, Hms.
    + intros x _. rewrite Hl. destruct Hchip as [[_ Hl1]|[Hc1 _]]; [done|].
      specialize (Hx eq_refl). rewrite Hc1 in Hx. pose proof (count_byte s0.2) as Hb.
      unfold is_byte in Hb. dlia.
  - destruct sawRead; simpl.
    + apply hoare_ret. intros s ([Hs [Hc Hl]] & _ & Hsaw & _). split; [|done].
      split; [done|]. intros _. rewrite Hc. by apply Hsaw.
    + eapply hoare_bind; [apply hoare_modify with (Q := λ _ s, ready u0 s)
        |intros []; apply hoare_ret; intros s Hs; by split].
      by intros [u' e] ([Hs _] & _).
Qed.

Lemma write_retry_spec u0 n i reg val lastErr :
  reg_addr u0 "IFCNT" = ifcnt_reg →
  hoare (ready u0) (write_retry n i reg val lastErr)
    (onret (λ r s, ready u0 s ∧ (∀ x, r = inr x → last_write s.2 = Some (reg, val)))).
Proof.
  intros Hifcnt. revert i lastErr. induction n as [|n IH]; intros i lastErr; cbn [write_retry].
  { apply hoare_ret. intros s Hs. by split. }
  eapply hoare_bind; [by apply write_attempt_spec|]. intros [err|x].
  - eapply hoare_weaken; [apply IH|by intros s [? _]|done].
  - apply hoare_ret. intros s [Hs Hl]. split; [done|]. intros y _. by apply (Hl x).
Qed.

Lemma SetRegister_spec u0 regName val :
  u_debug u0 = false → reg_addr u0 "IFCNT" = ifcnt_reg →
  hoare (ready u0) (SetRegister regName val None)
    (onret (λ r s, ready u0 s ∧ (r = None → last_write s.2 = Some (reg_addr u0 regName, val)))).
Proof.
  intros Hdbg Hifcnt. unfold SetRegister, self. eapply hoare_bind.
  { apply hoare_gets with (Q := λ u s, ready u0 s ∧ u_debug u = false ∧
      reg_addr u regName = reg_addr u0 regName).
    intros s [Hs ?]. split; [by split|]. destruct Hs as (_ & Hn & _ & Hd). unfold reg_addr.
    by rewrite Hn, Hd. }
  intros u. apply hoare_fix. intros s0 (Hs0 & -> & ->).
  eapply hoare_bind; [eapply hoare_weaken; [by apply (write_retry_spec u0)|by intros s ->|intros r s Hr; exact Hr]|].
  intros [e|x]; apply hoare_ret; intros s [Hs Hl]; (split; [done|]); [done|]. intros _. by apply (Hl x).
Qed.

Lemma SetRegister_scheduled_spec u0 regName val pt :
  u_debug u0 = false →
  hoare (ready u0) (SetRegister regName val (Some pt)) (onret (λ r s, r = None → ready u0 s)).
Proof.
  intros Hdbg s Hs. unfold SetRegister, self, gets, mbind, M_bind. simpl.
  destruct Hs as [Hu Hsync]. assert (u_debug s.1 = false) as -> by (destruct Hu as (_ & _ & _ & ->); done).
  pose proof (transportWrite_spec u0 s.1 (count s.2) (last_write s.2) (reg_addr s.1 regName) val (Some pt) s
    (conj (conj Hu (conj eq_refl eq_refl)) eq_refl)) as Hw.
  destruct (transportWriteRegister _ _ _ s) as [[[]|w] s1]; simpl in *; try done.
  intros _. destruct Hw as (-> & Hu1 & _). done.
Qed.

Lemma GetRegister_spec u0 regName :
  hoare (ready u0) (GetRegister regName) (onret (λ _ s, ready u0 s)).
Proof.
  apply hoare_fix. intros s0 [Hu Hsync]. unfold GetRegister, self.
  eapply hoare_bind; [apply hoare_gets with (Q := λ u s, s = s0); by intros s ->|].
  intros u. destruct (u_debug u); [apply hoare_ret; by intros s ->|].
  eapply hoare_weaken; [apply (readRegister_spec u0 (count s0.2) (last_write s0.2) s0.1)|by intros s ->|].
  intros r s [[[Hs [Hc _]] He] _]. split; [done|]. unfold synced. by rewrite He, Hc.
Qed.
End Sound.

(** ** Sessions *)

(** The states a driver reaches with calls that return, no scheduled write
    among them having timed out. *)
Inductive session `{UARTRegisterTransport E} (u0 : UARTTransportRuntime) : UARTTransportRuntime * E → Prop :=
| session_new e : session u0 (u0, e)
| session_get s regName r s' :
    session u0 s → GetRegister regName s = (Ret r, s') → session u0 s'
| session_set s regName val r s' :
    session u0 s → SetRegister regName val None s = (Ret r, s') → session u0 s'
| session_scheduled s regName val pt s' :
    session u0 s → SetRegister regName val (Some pt) s = (Ret None, s') → session u0 s'.

Lemma session_ready `{ChipLaws E ifcnt_reg} name nameToReg addr s :
  let u0 := NewUARTTransportRuntime name nameToReg addr false in
  reg_addr u0 "IFCNT" = ifcnt_reg → session u0 s → ready u0 s.
Proof.
  intros u0 Hifcnt. induction 1 as [e|s rn r s' _ IH Hrun|s rn v r s' _ IH Hrun|s rn v pt s' _ IH Hrun].
  - by split.
  - exact (hoare_run _ _ _ _ _ _ (GetRegister_spec u0 rn) IH Hrun).
  - exact (proj1 (hoare_run _ _ _ _ _ _ (SetRegister_spec u0 rn v eq_refl Hifcnt) IH Hrun)).
  - exact (hoare_run _ _ _ _ _ _ (SetRegister_scheduled_spec u0 rn v pt eq_refl) IH Hrun eq_refl).
Qed.

(** C11. A UART register write that reports success, in a session whose scheduled writes did
    not time out, has reached the chip: the last write the chip accepted is this one,
    and the counter the driver remembers is the chip counter. *)
Theorem SetRegister_sound `{ChipLaws E ifcnt_reg} name nameToReg addr s regName val s' :
  let u0 := NewUARTTransportRuntime name nameToReg addr false in
  reg_addr u0 "IFCNT" = ifcnt_reg →
  session u0 s → SetRegister regName val None s = (Ret None, s') →
  last_write s'.2 = Some (reg_addr u0 regName, val) ∧ (u_hasIFCNT s'.1 = true → u_ifcnt s'.1 = count s'.2).
Proof.
  intros u0 Hifcnt Hs Hrun. pose proof (session_ready _ _ _ _ Hifcnt Hs) as Hr.
  destruct (hoare_run _ _ _ _ _ _ (SetRegister_spec u0 regName val eq_refl Hifcnt) Hr Hrun) as [[_ Hsync] Hl].
  split; [by apply Hl|exact Hsync].
Qed.

(** ** A concrete lossy bus *)

Inductive fate : Type := Accepted | Lost | TimedOut (delivered : bool).

(** The chip's counter and last write, and what will happen to the next
    datagrams (all is well when the lists are exhausted). *)
Record bus := mkBus {
  b_count : Z;
  b_last : option (Z * Z);
  b_writes : list fate;
  b_reads : list bool
}.

Definition bus_accept (reg val : Z) (b : bus) : bus :=
  mkBus ((b_count b + 1) mod 256) (Some (reg, val)) (b_writes b) (b_reads b).

Definition bus_pop_write (b : bus) : fate * bus :=
  match b_writes b with
  | [] => (Accepted, b)
  | f :: fs => (f, mkBus (b_count b) (b_last b) fs (b_reads b))
  end.

Definition bus_pop_read (b : bus) : bool * bus :=
  match b_reads b with
  | [] => (true, b)
  | f :: fs => (f, mkBus (b_count b) (b_last b) (b_writes b) fs)
  end.

#[global] Instance bus_transport : UARTRegisterTransport bus := {|
  ReadRegister _ reg b :=
    let '(ok, b) := bus_pop_read b in
    (Ret (if ok then Some (if bool_decide (reg = 2) then b_count b mod 256 else 0) else None), b);
  WriteRegister _ reg val _ b :=
    let '(f, b) := bus_pop_write b in
    match f with
    | Accepted => (Ret tt, bus_accept reg val b)
    | Lost => (Ret tt, b)
    | TimedOut d => (Panic "Timeout on wait for 'tmcuart_response'", if d : bool then bus_accept reg val b else b)
    end
|}.

#[global] Program Instance bus_laws : ChipLaws bus 2 := {|
  count b := b_count b mod 256;
  last_write := b_last
|}.
Next Obligation. intros e. simpl. unfold is_byte. apply Z.mod_pos_bound. lia. Qed.
Next Obligation.
  intros addr reg e r e'. simpl. unfold bus_pop_read. destruct e as [c l w [|[] rs]]; simpl;
    intros [= <- <-]; split_and!; try done.
  all: intros -> v [= <-]; reflexivity.
Qed.
Next Obligation.
  intros addr reg val pt e r e'. simpl. unfold bus_pop_write.
  destruct e as [c l [|[| |[]] ws] rs]; simpl; intros [= <- <-]; simpl; auto;
    left; (split; [|done]); by rewrite Z.mod_mod, Z.add_mod_idemp_l by lia.
Qed.

Definition demo_registers : gmap string Z := list_to_map [("GCONF", 0); ("IFCNT", 2); ("CHOPCONF", 0x6c)].
Definition demo_uart : UARTTransportRuntime :=
  NewUARTTransportRuntime "tmc2209 stepper_x" demo_registers 0 false.

Lemma SetRegister_sound_witness :
  ∃ s', SetRegister "CHOPCONF" 0x10000053 None (demo_uart, mkBus 7 None [Lost; Accepted] [true; false])
    = (Ret None, s') ∧ last_write s'.2 = Some (0x6c, 0x10000053).
Proof.
  eexists. split; [vm_compute; reflexivity|].
  refine (proj1 (SetRegister_sound "tmc2209 stepper_x" demo_registers 0 _ "CHOPCONF" 0x10000053 _ _
    (session_new _ (mkBus 7 None [Lost; Accepted] [true; false])) _)); vm_compute; reflexivity.
Defined.

(** There is a bus on which, after a scheduled write timed out, a later immediate write
    reports success although the chip never accepted it: the remembered counter survives
    the timeout. *)
Theorem scheduled_timeout_breaks_confirmation :
  ∃ (b0 : bus) s1 s2 s3,
    SetRegister "GCONF" 1 None (demo_uart, b0) = (Ret None, s1) ∧
    SetRegister "GCONF" 2 (Some f0) s1 = (Ret (Some "transport timeout on scheduled write"), s2) ∧
    SetRegister "CHOPCONF" 3 None s2 = (Ret None, s3) ∧
    last_write s3.2 = Some (0, 2).
Proof.
  set (b0 := mkBus 7 None [Accepted; TimedOut true; Lost] []).
  set (s1 := (SetRegister "GCONF" 1 None (demo_uart, b0)).2).
  set (s2 := (SetRegister "GCONF" 2 (Some f0) s1).2).
  exists b0, s1, s2, (SetRegister "CHOPCONF" 3 None s2).2.
  split_and!; vm_compute; reflexivity.
Qed.

(** ** Losses are survived *)

Lemma bus_readRegister u b :
  b_reads b = [] → reg_addr u "IFCNT" = 2 →
  readRegister "IFCNT" (u, b) = (Ret (inr (b_count b mod 256)), (u, b)).
Proof.
  intros Hr Hi. destruct b as [c l w r]. simpl in Hr. subst r.
  unfold readRegister, self, gets, mbind, M_bind. cbv beta iota. cbn [fst]. by rewrite Hi.
Qed.

Lemma bus_poll_step n u b x cur saw :
  b_reads b = [] →
  poll_loop (S n) 2 x cur saw (u, b) =
    let c := b_count b mod 256 in
    if bool_decide (c = x) then (Ret (c, true, true), (with_ifcnt c u, b))
    else poll_loop n 2 x c true (with_ifcnt c u, b).
Proof.
  intros Hr. destruct b as [c l w r]. simpl in Hr. subst r. cbn [poll_loop b_count]. cbv zeta.
  rewrite M_bind_eq with (a := Some (c mod 256)) (s1 := (u, mkBus c l w [])) by reflexivity.
  rewrite M_bind_eq with (a := tt) (s1 := (with_ifcnt (c mod 256) u, mkBus c l w [])) by done.
  by case_bool_decide.
Qed.

(** Polls that all read the same wrong counter. *)
Lemma bus_poll_mismatch n u b x cur saw :
  b_reads b = [] → b_count b mod 256 ≠ x →
  poll_loop (S n) 2 x cur saw (u, b) =
    (Ret (b_count b mod 256, false, true), (with_ifcnt (b_count b mod 256) u, b)).
Proof.
  intros Hr Hx. revert u cur saw. induction n as [|n IH]; intros u cur saw;
    rewrite bus_poll_step by done; cbv zeta; rewrite bool_decide_false by done; [done|].
  by rewrite IH.
Qed.

Definition lose (b : bus) : bus := mkBus (b_count b) (b_last b) (tail (b_writes b)) (b_reads b).

(** An attempt whose datagram is lost or accepted, with no read lost. *)
Lemma bus_attempt i u b reg val f fs :
  b_reads b = [] → reg_addr u "IFCNT" = 2 → synced (u, b) → b_writes b = f :: fs →
  f = Lost ∨ f = Accepted →
  let c := b_count b mod 256 in
  ∃ r u', write_attempt i reg val (u, b) =
      (Ret r, (u', match f with Accepted => bus_accept reg val (lose b) | _ => lose b end)) ∧
    (f = Accepted → r = inr tt) ∧ (f = Lost → ∃ e, r = inl e ∧ u' = with_ifcnt c u).
Proof.
  intros Hr Hi Hs Hw Hf c. unfold write_attempt at 1.
  unfold self, gets at 1. rewrite M_bind_eq with (a := u) (s1 := (u, b)) by done.
  assert (Hread : ∃ u2, with_ifcnt c u2 = with_ifcnt c u ∧ u_ifcnt u2 = c ∧ reg_addr u2 "IFCNT" = 2 ∧
    (if u_hasIFCNT u then mret (inr tt)
     else r ← readRegister "IFCNT";
          match r with
          | inl err => mret (inl ("reading IFCNT before write attempt " ++ Itoa i ++ ": " ++ err)%string)
          | inr v => _ ← update (with_ifcnt v); mret (inr tt)
          end) (u, b) = (Ret (inr tt : string + unit), (u2, b))).
  { destruct (u_hasIFCNT u) eqn:Hh.
    - exists u. split_and!; try done. by apply Hs.
    - exists (with_ifcnt c u). split_and!; try done.
      by rewrite M_bind_eq with (1 := bus_readRegister u b Hr Hi). }
  destruct Hread as (u2 & Hw2 & Hc2 & Hi2 & Hrun). rewrite M_bind_eq with (1 := Hrun). clear Hrun.
  rewrite M_bind_eq with (a := u2) (s1 := (u2, b)) by done. cbv zeta.
  set (b' := match f with Accepted => bus_accept reg val (lose b) | _ => lose b end).
  rewrite M_bind_eq with (a := true) (s1 := (u2, b')).
  2: { destruct b as [c0 l w r]. simpl in *. subst w.
       destruct Hf as [-> | ->]; reflexivity. }
  cbn [negb]. rewrite Hc2, land_255.
  assert (Hpoll : ∃ r3 u3, pollIFCNTAfterWrite ((c + 1) mod 256) (u2, b') = (Ret r3, (u3, b')) ∧
    (f = Accepted → r3.1.2 = true) ∧ (f = Lost → r3 = (c, false, true) ∧ u3 = with_ifcnt c u)).
  { unfold pollIFCNTAfterWrite, self, gets, uartTransportWriteVerifyPolls.
    rewrite M_bind_eq with (a := u2) (s1 := (u2, b')) by done. rewrite Hi2.
    assert (Hcb : 0 ≤ c < 256) by (apply Z.mod_pos_bound; lia).
    destruct Hf as [-> | ->].
    - unfold b'. rewrite bus_poll_mismatch; [|exact Hr|change (c ≠ (c + 1) mod 256); dlia].
      change (b_count (lose b) mod 256) with c. rewrite Hw2.
      eexists _, _. split; [reflexivity|]. by split.
    - rewrite bus_poll_step by (by destruct b). cbv zeta. rewrite bool_decide_true.
      + by eexists _, _.
      + destruct b as [c0 l w r]. simpl in *. unfold c. by rewrite Z.mod_mod, Z.add_mod_idemp_l by lia. }
  destruct Hpoll as ([[cur matched] saw] & u3 & Hpoll & Hacc & Hlost).
  rewrite M_bind_eq with (1 := Hpoll). simpl in Hacc.
  destruct Hf as [-> | ->].
  - destruct (Hlost eq_refl) as [[= -> -> ->] ->]. cbn [negb]. eexists _, _. split; [reflexivity|].
    split; [done|]. intros _. by eexists.
  - rewrite (Hacc eq_refl). by eexists _, _.
Qed.

(** A register write on a synchronised UART on which up to nine consecutive writes are
    lost and no read is lost returns success, with the value in the chip. *)
Theorem SetRegister_survives_losses (u : UARTTransportRuntime) (b : bus) (k : nat) (rest : list fate)
    (regName : string) (val : Z) :
  u_debug u = false → reg_addr u "IFCNT" = 2 → synced (u, b) →
  b_reads b = [] → b_writes b = replicate k Lost ++ Accepted :: rest → (k < 10)%nat →
  ∃ s', SetRegister regName val None (u, b) = (Ret None, s') ∧
    last_write s'.2 = Some (reg_addr u regName, val).
Proof.
  intros Hd Hi Hs Hr Hw Hk. unfold SetRegister, self, gets.
  rewrite M_bind_eq with (a := u) (s1 := (u, b)) by done. rewrite Hd. cbv zeta.
  set (reg := reg_addr u regName).
  assert (Hloop : ∀ n i lastErr, (k < n)%nat → ∃ s',
    write_retry n i reg val lastErr (u, b) = (Ret (inr tt), s') ∧ b_last s'.2 = Some (reg, val)).
  { clear Hd Hk. clearbody reg. revert u b Hi Hs Hr Hw. induction k as [|k IH];
      intros u b Hi Hs Hr Hw n i lastErr Hn; (destruct n as [|n]; [lia|]); cbn [write_retry].
    - destruct (bus_attempt (i + 1) u b reg val _ _ Hr Hi Hs Hw (or_intror eq_refl)) as (r & u' & Hrun & Hacc & _).
      rewrite M_bind_eq with (1 := Hrun), (Hacc eq_refl). by eexists.
    - destruct (bus_attempt (i + 1) u b reg val _ _ Hr Hi Hs Hw (or_introl eq_refl)) as (r & u' & Hrun & _ & Hlost).
      destruct (Hlost eq_refl) as (e & -> & ->). rewrite M_bind_eq with (1 := Hrun).
      apply IH; [done| |by destruct b|destruct b; simpl in *; by subst|lia].
      intros _. simpl. by destruct b. }
  destruct (Hloop uartTransportWriteRetries 0 None) as (s' & Hrun & Hl); [done|].
  exists s'. rewrite M_bind_eq with (1 := Hrun). by split.
Qed.

Lemma SetRegister_survives_losses_witness :
  ∃ s', SetRegister "CHOPCONF" 5 None (demo_uart, mkBus 255 None (replicate 9 Lost ++ [Accepted]) []) = (Ret None, s')
    ∧ last_write s'.2 = Some (0x6c, 5).
Proof.
  apply (SetRegister_survives_losses demo_uart (mkBus 255 None (replicate 9 Lost ++ [Accepted]) []) 9 []);
    first [done | lia | vm_compute; reflexivity].
Defined.
