(* ===== verification/TmcBus.v ===== *)
(** * Sharing the driver buses

    [src/internal/pkg/tmc/uart_resource_runtime.go],
    [uart_bitbang_runtime.go], [spi_transport_runtime.go] and
    [register_access.go]: the UART shared by several drivers through an analog
    multiplexer, the bit-banged transfers on it, the SPI daisy chain, and the
    mutex around every register access.  Commands sent to the micro-controller
    are interface calls over a store [E]. *)

From S2P Require Import Prelude GoFloat GoStrings GoState TmcFields TmcDefs TmcCodecs.

(** ** The mutex cache *)

Section MutexCache.
Context {K V : Type} `{Countable K}.

Definition cache_Lookup (entries : gmap K V) (key : K) (factory : V) : V * gmap K V :=
  match entries !! key with
  | Some entry => (entry, entries)
  | None => (factory, <[key := factory]> entries)
  end.
End MutexCache.

(** ** The analog multiplexer *)

(** [updatePinCmd.Send([]int64{oid, value}, 0, 0)]. *)
Class UARTMuxCommand (E : Type) := {
  mux_send : Z → Z → M E unit
}.

Record UARTAnalogMuxRuntime := mkMux {
  mux_oids : list Z;
  mux_pins : list string;
  mux_pinValues : list Z
}.

(** The constructor: the oids are those the owner creates, one per pin. *)
Definition NewUARTAnalogMuxRuntime (oids : list Z) (pins : list string) : UARTAnalogMuxRuntime :=
  mkMux oids pins (replicate (length pins) (-1)).

Section Mux.
Context `{UARTMuxCommand E}.

Fixpoint activate_loop (i : Z) (oids : list Z) (pinValues instanceID : list Z) : M E unit :=
  match oids with
  | [] => mret tt
  | oid :: oids =>
      oldValue ← lift (pinValues.[i]);
      newValue ← lift (instanceID.[i]);
      _ ← (if bool_decide (oldValue ≠ newValue) then mux_send oid newValue else mret tt);
      activate_loop (i + 1) oids pinValues instanceID
  end.

Definition Activate (self : UARTAnalogMuxRuntime) (instanceID : list Z) : M E UARTAnalogMuxRuntime :=
  _ ← activate_loop 0 (mux_oids self) (mux_pinValues self) instanceID;
  mret (mkMux (mux_oids self) (mux_pins self) instanceID).
End Mux.

(** ** Instances on a shared UART *)

Record UARTSelectPin := mkSelect { Owner : string; Pin : string; Invert : bool }.

#[global] Instance UARTSelectPin_eq_dec : EqDecision UARTSelectPin.
Proof. solve_decision. Defined.

Record UARTSharedResourceRuntime := mkShared {
  sh_rxPin : string;
  sh_txPin : string;
  sh_muxOwner : string;
  sh_muxPins : list string;
  sh_mux : option UARTAnalogMuxRuntime;
  sh_instances : gset string
}.

Definition NewUARTSharedResourceRuntime (rxPin txPin muxOwner : string) (muxPins : list string)
    (mux : option UARTAnalogMuxRuntime) : UARTSharedResourceRuntime :=
  mkShared rxPin txPin muxOwner muxPins mux ∅.

Definition uartSharedInstanceKey (instanceID : list Z) (addr : Z) : string :=
  (Join (ascii_of 44) (Itoa <$> instanceID) ++ "###" ++ Itoa addr)%string.

(** The message; the source appends the pins it compared. *)
Definition same_pins_error : string := "Shared TMC uarts must use the same pins".

(** The polarity of each select pin, or an error. *)
Fixpoint select_values (muxOwner : string) (selectPins : list UARTSelectPin) : string + list Z :=
  match selectPins with
  | [] => inr []
  | p :: ps =>
      if bool_decide (Owner p ≠ muxOwner) then inl "TMC mux pins must be on the same mcu"
      else match select_values muxOwner ps with
           | inl e => inl e
           | inr vs => inr ((if Invert p then 0 else 1) :: vs)
           end
  end.

(** The checks on the pins, which give the instance its identity. *)
Definition instanceID_of (self : UARTSharedResourceRuntime) (rxPin txPin : string)
    (selectPins : list UARTSelectPin) : string + list Z :=
  if bool_decide (rxPin ≠ sh_rxPin self) || bool_decide (txPin ≠ sh_txPin self) ||
     negb (Bool.eqb (bool_decide (selectPins ≠ [])) (bool_decide (is_Some (sh_mux self))))
  then inl same_pins_error
  else
    match sh_mux self with
    | None => inr []
    | Some _ =>
        match select_values (sh_muxOwner self) selectPins with
        | inl e => inl e
        | inr vs =>
            if bool_decide (Pin <$> selectPins ≠ sh_muxPins self)
            then inl "All TMC mux instances must use identical pins" else inr vs
        end
    end.

Definition RegisterInstance (self : UARTSharedResourceRuntime) (rxPin txPin : string)
    (selectPins : list UARTSelectPin) (addr : Z) : (string + list Z) * UARTSharedResourceRuntime :=
  match instanceID_of self rxPin txPin selectPins with
  | inl e => (inl e, self)
  | inr instanceID =>
      let key := uartSharedInstanceKey instanceID addr in
      if bool_decide (key ∈ sh_instances self)
      then (inl "Shared TMC uarts need unique address or select_pins polarity", self)
      else (inr instanceID,
            mkShared (sh_rxPin self) (sh_txPin self) (sh_muxOwner self) (sh_muxPins self) (sh_mux self)
              ({[key]} ∪ sh_instances self))
  end.

Definition PrepareTransfer `{UARTMuxCommand E} (self : UARTSharedResourceRuntime) (instanceID : list Z)
    : M E UARTSharedResourceRuntime :=
  match sh_mux self with
  | None => mret self
  | Some mux =>
      mux' ← Activate mux instanceID;
      mret (mkShared (sh_rxPin self) (sh_txPin self) (sh_muxOwner self) (sh_muxPins self) (Some mux')
              (sh_instances self))
  end.

(** ** Bit-banged transfers *)

Definition UARTBitbangBaudRate : f64 := f_of_Z 40000.
Definition UARTBitbangBaudRateAVR : f64 := f_of_Z 9000.

Definition UARTBitbangBaudForMCUType (mcuType : string) : f64 :=
  if HasPrefix mcuType "atmega" || HasPrefix mcuType "at90usb" then UARTBitbangBaudRateAVR
  else UARTBitbangBaudRate.

(** The "read" parameter of the answer, by its dynamic type. *)
Inductive raw_read : Type :=
| RInts (values : list Z)
| RInt64s (values : list Z)
| RValues (values : list any)
| ROther.

Fixpoint read_elements (values : list any) : go (list Z) :=
  match values with
  | [] => Ret []
  | v :: values =>
      x ← match v with
          | AInt z | AInt64 z => Ret z
          | _ => Panic "unexpected tmcuart read element"
          end;
      xs ← read_elements values; Ret (x :: xs)
  end.

Definition uartReadResponseValues (raw : raw_read) : go (list Z) :=
  match raw with
  | RInts values | RInt64s values => Ret values
  | RValues values => read_elements values
  | ROther => Panic "unexpected tmcuart read payload"
  end.

(** The micro-controller as the runtime sees it: the multiplexer pins, the
    [tmcuart_send] query and the clock. *)
Class UARTBitbangOwner (E : Type) := {
  bb_mux :: UARTMuxCommand E;
  bb_send : Z → list Z → Z → Z → M E raw_read;   (* oid, write, read, minclock *)
  PrintTimeToClock : f64 → M E Z
}.

Record UARTBitbangRuntime := mkBitbang { bb_oid : Z; bb_resources : UARTSharedResourceRuntime }.

Section Bitbang.
Context `{UARTBitbangOwner E}.

Definition bb_ReadRegister (self : UARTBitbangRuntime) (instanceID : list Z) (addr reg : Z)
    : M E (option Z * UARTBitbangRuntime) :=
  res ← PrepareTransfer (bb_resources self) instanceID;
  raw ← bb_send (bb_oid self) (EncodeUARTRead 0xf5 addr reg) 10 0;
  rawRead ← lift (uartReadResponseValues raw);
  mret (DecodeUARTRead reg rawRead, mkBitbang (bb_oid self) res).

Definition bb_WriteRegister (self : UARTBitbangRuntime) (instanceID : list Z) (addr reg val : Z)
    (printTime : option f64) : M E UARTBitbangRuntime :=
  minclock ← match printTime with Some t => PrintTimeToClock t | None => mret 0 end;
  res ← PrepareTransfer (bb_resources self) instanceID;
  _ ← bb_send (bb_oid self) (EncodeUARTWrite 0xf5 addr (Z.lor reg 0x80) val) 0 minclock;
  mret (mkBitbang (bb_oid self) res).
End Bitbang.

(** ** SPI *)

Class SPIBusTransport (E : Type) := {
  spi_Send : list Z → Z → M E unit;
  spi_Transfer : list Z → Z → M E (list Z);
  spi_TransferWithPreface : list Z → list Z → Z → M E (list Z);
  spi_PrintTimeToClock : f64 → M E Z
}.

Record SPIChainRuntime := mkChain {
  chainLen : Z;
  chain_debug : bool;
  takenPositions : gset Z
}.

Definition NewSPIChainRuntime (n : Z) (debug : bool) : SPIChainRuntime := mkChain n debug ∅.

Definition RegisterPosition (self : SPIChainRuntime) (chainPos : Z) : option string * SPIChainRuntime :=
  if bool_decide (chainPos ∈ takenPositions self)
  then (Some "TMC SPI chain can not have duplicate position", self)
  else (None, mkChain (chainLen self) (chain_debug self) ({[chainPos]} ∪ takenPositions self)).

Section Spi.
Context `{SPIBusTransport E}.

Definition buildCmd (self : SPIChainRuntime) (data : list Z) (chainPos : Z) : list Z :=
  BuildSPIChainCommand data (chainLen self) chainPos.

Definition chain_ReadRegister (self : SPIChainRuntime) (reg chainPos : Z) : M E Z :=
  let cmd := buildCmd self [reg; 0; 0; 0; 0] chainPos in
  _ ← spi_Send cmd 0;
  if chain_debug self then mret 0
  else
    response ← spi_Transfer cmd 0;
    lift (DecodeSPIChainResponse response (chainLen self) chainPos).

Definition spi_minclock (printTime : option f64) : M E Z :=
  match printTime with Some t => spi_PrintTimeToClock t | None => mret 0 end.

Definition write_bytes (reg val : Z) : list Z :=
  [Z.land (Z.lor reg 0x80) 0xff; Z.land (Z.shiftr val 24) 0xff; Z.land (Z.shiftr val 16) 0xff;
   Z.land (Z.shiftr val 8) 0xff; Z.land val 0xff].

Definition chain_WriteRegister (self : SPIChainRuntime) (reg val chainPos : Z) (printTime : option f64) : M E Z :=
  minclock ← spi_minclock printTime;
  let data := write_bytes reg val in
  if chain_debug self then
    _ ← spi_Send (buildCmd self data chainPos) minclock; mret val
  else
    let writeCmd := buildCmd self data chainPos in
    let dummyRead := buildCmd self [0; 0; 0; 0; 0] chainPos in
    response ← spi_TransferWithPreface writeCmd dummyRead minclock;
    lift (DecodeSPIChainResponse response (chainLen self) chainPos).

Record SPIRegisterTransportRuntime := mkSPI {
  spi_name : string;
  spi_nameToReg : gmap string Z;
  spi_chainPos : Z;
  spi_chain : SPIChainRuntime
}.

Definition spi_GetRegister (self : SPIRegisterTransportRuntime) (regName : string) : M E (string + Z) :=
  v ← chain_ReadRegister (spi_chain self) (default 0 (spi_nameToReg self !! regName)) (spi_chainPos self);
  mret (inr v).

Fixpoint spi_write_loop (n : nat) (self : SPIRegisterTransportRuntime) (reg val : Z) (printTime : option f64)
    : M E bool :=
  match n with
  | O => mret false
  | S n =>
      v ← chain_WriteRegister (spi_chain self) reg val (spi_chainPos self) printTime;
      if bool_decide (v = val) then mret true else spi_write_loop n self reg val printTime
  end.

Definition spi_SetRegister (self : SPIRegisterTransportRuntime) (regName : string) (val : Z)
    (printTime : option f64) : M E (option string) :=
  ok ← spi_write_loop 5 self (default 0 (spi_nameToReg self !! regName)) val printTime;
  mret (if ok : bool then None
        else Some ("Unable to write tmc spi '" ++ spi_name self ++ "' register " ++ regName)%string).

(** ** The TMC2660 *)

Record TMC2660SPITransportRuntime := mk2660 {
  t60_nameToReg : gmap string Z;
  t60_fields : FieldHelper;
  t60_debug : bool
}.

Fixpoint index_from (i : Z) (data : list string) (element : string) : Z :=
  match data with
  | [] => -1
  | v :: data => if bool_decide (v = element) then i else index_from (i + 1) data element
  end.
Definition indexOfString (data : list string) (element : string) : Z := index_from 0 data element.

Definition t60_message (val reg : Z) : list Z :=
  [Z.land (Z.lor (Z.shiftr val 16) reg) 0xff; Z.land (Z.shiftr val 8) 0xff; Z.land val 0xff].

Definition t60_GetRegister (self : TMC2660SPITransportRuntime) (regName : string)
    : M E (Z * TMC2660SPITransportRuntime) :=
  let newRdsel := indexOfString TMC2660ReadRegisters regName in
  let reg := default 0 (t60_nameToReg self !! "DRVCONF") in
  if t60_debug self then mret (0, self)
  else
    let oldRdsel := Get_field (t60_fields self) "rdsel" (Some 0) None in
    let '(val, fields) := Set_field (t60_fields self) "rdsel" (AInt newRdsel) None None in
    let msg := t60_message val reg in
    _ ← (if bool_decide (newRdsel ≠ oldRdsel) then spi_Send msg 0 else mret tt);
    pr ← spi_Transfer msg 0;
    p0 ← lift (pr.[0]); p1 ← lift (pr.[1]); p2 ← lift (pr.[2]);
    mret (Z.lor (Z.lor (Z.shiftl p0 16) (Z.shiftl p1 8)) p2, mk2660 (t60_nameToReg self) fields (t60_debug self)).

Definition t60_SetRegister (self : TMC2660SPITransportRuntime) (regName : string) (val : Z)
    (printTime : option f64) : M E (option string) :=
  minclock ← spi_minclock printTime;
  _ ← spi_Send (t60_message val (default 0 (t60_nameToReg self !! regName))) minclock;
  mret None.
End Spi.

(** ** Locked register access *)

(** What the helpers of a driver use: [RegisterAccess] and [RegisterRuntime]. *)
Class RegisterAccess (E : Type) := {
  Get_register : string → M E (string + Z);
  Set_register : string → Z → option f64 → M E (option string)
}.

Class RegisterLocker (E : Type) := { Lock : M E unit; Unlock : M E unit }.

(** [mutex.Lock(); defer mutex.Unlock()]: the unlock runs after a panic too. *)
Definition deferring {E A} (m : M E A) (d : M E unit) : M E A := λ s,
  match m s with
  | (Ret a, s') => (_ ← d; mret a) s'
  | (Panic w, s') => (_ ← d; panic w) s'
  end.

Definition locked `{RegisterLocker E} {A} (m : M E A) : M E A :=
  _ ← Lock; deferring m Unlock.

Definition locked_access `{RegisterLocker E} (inner : RegisterAccess E) : RegisterAccess E := {|
  Get_register regName := locked (Get_register regName);
  Set_register regName val printTime := locked (Set_register regName val printTime)
|}.
