(* ===== verification/TmcBusThy.v ===== *)
(** * What the shared buses guarantee *)

From S2P Require Import Prelude GoFloat GoStrings GoState TmcFields TmcFieldsThy TmcDefs TmcDefsThy TmcCodecs TmcBus.

(** ** Instances on one UART are distinct *)

Lemma Itoa_inj m n : - 2 ^ 63 ≤ m < 2 ^ 63 → - 2 ^ 63 ≤ n < 2 ^ 63 → Itoa m = Itoa n → m = n.
Proof.
  intros Hm Hn He. pose proof (ParseInt_Itoa m Hm) as H1. rewrite He, ParseInt_Itoa in H1 by done.
  by injection H1.
Qed.

Definition is_int64 (z : Z) : Prop := - 2 ^ 63 ≤ z < 2 ^ 63.

Lemma Join_Itoa_inj l l' :
  Forall is_int64 l → Forall is_int64 l' →
  Join (ascii_of 44) (Itoa <$> l) = Join (ascii_of 44) (Itoa <$> l') → l = l'.
Proof.
  intros Hl Hl' He.
  assert (Hinj : ∀ a b, Forall is_int64 a → Forall is_int64 b → Itoa <$> a = Itoa <$> b → a = b).
  { intros a. induction a as [|x a IH]; intros [|y b] Ha Hb Heq; try done.
    inversion Ha; subst. inversion Hb; subst. rewrite !fmap_cons in Heq.
    injection Heq as Hx Ht. f_equal; [by apply Itoa_inj|by apply IH]. }
  assert (Hsplit : ∀ a, a ≠ [] → Split (ascii_of 44) (Join (ascii_of 44) (Itoa <$> a)) = Itoa <$> a).
  { intros a Ha. apply Split_Join; [by destruct a|]. apply Forall_fmap, Forall_true. intros z. simpl.
    apply Itoa_has_char. reflexivity. }
  assert (Hnil : ∀ x a, Join (ascii_of 44) (Itoa <$> x :: a) ≠ EmptyString).
  { intros x a Hj. pose proof (Hsplit (x :: a) ltac:(done)) as Hs. rewrite Hj in Hs.
    rewrite fmap_cons in Hs. injection Hs as Hx _. symmetry in Hx. by apply Itoa_nonempty in Hx. }
  destruct l as [|x l], l' as [|y l']; try done.
  - symmetry in He. by apply Hnil in He.
  - by apply Hnil in He.
  - apply Hinj; [done..|]. rewrite <- (Hsplit (x :: l)), <- (Hsplit (y :: l')) by done. by rewrite He.
Qed.

Lemma Join_Itoa_nosharp l : has_char (ascii_of 35) (Join (ascii_of 44) (Itoa <$> l)) = false.
Proof.
  induction l as [|x l IH]; [done|]. rewrite fmap_cons. destruct l as [|y l].
  - simpl. apply Itoa_has_char. reflexivity.
  - rewrite fmap_cons in *. cbn [Join] in *. rewrite has_char_app.
    rewrite Itoa_has_char by reflexivity. cbn [has_char orb]. rewrite IH. reflexivity.
Qed.

Lemma uartSharedInstanceKey_inj ids addr ids' addr' :
  Forall is_int64 ids → Forall is_int64 ids' → is_int64 addr → is_int64 addr' →
  uartSharedInstanceKey ids addr = uartSharedInstanceKey ids' addr' → ids = ids' ∧ addr = addr'.
Proof.
  intros H1 H2 Ha Ha' He.
  assert (Hs : ∀ i a, Split (ascii_of 35) (uartSharedInstanceKey i a) =
    [Join (ascii_of 44) (Itoa <$> i); EmptyString; EmptyString; Itoa a]).
  { intros i a. unfold uartSharedInstanceKey.
    change ("###" ++ Itoa a)%string with (String (ascii_of 35) (EmptyString ++ String (ascii_of 35)
      (EmptyString ++ String (ascii_of 35) (Itoa a))))%string.
    rewrite !Split_app_sep; [|done|done|apply Join_Itoa_nosharp].
    by rewrite Split_nosep by (by apply Itoa_has_char). }
  pose proof (Hs ids addr) as Hx. rewrite He, Hs in Hx. injection Hx as Hj Hi.
  split; [symmetry; by apply Join_Itoa_inj|symmetry; by apply Itoa_inj].
Qed.

(** A sequence of registrations, with the instances that were accepted. *)
Definition request : Type := string * string * list UARTSelectPin * Z.

Fixpoint register_all (self : UARTSharedResourceRuntime) (reqs : list request)
    : list (list Z * Z) * UARTSharedResourceRuntime :=
  match reqs with
  | [] => ([], self)
  | (rx, tx, pins, addr) :: reqs =>
      let '(r, self) := RegisterInstance self rx tx pins addr in
      let '(acc, self) := register_all self reqs in
      (match r with inr id => (id, addr) :: acc | inl _ => acc end, self)
  end.

Lemma select_values_bits o ps vs : select_values o ps = inr vs → Forall is_int64 vs.
Proof.
  revert vs. induction ps as [|p ps IH]; simpl; intros vs Heq; [injection Heq as <-; constructor|].
  case_bool_decide; [done|]. destruct (select_values o ps) as [|vs']; [done|]. injection Heq as <-.
  constructor; [destruct (Invert p); unfold is_int64; lia|by apply IH].
Qed.

Lemma instanceID_of_int64 self rx tx pins id : instanceID_of self rx tx pins = inr id → Forall is_int64 id.
Proof.
  unfold instanceID_of. destruct (_ || _); [done|].
  destruct (sh_mux self); [|intros [= <-]; constructor].
  destruct (select_values _ _) as [e|vs] eqn:Hs; [done|]. case_bool_decide; [done|].
  intros Heq. injection Heq as Heq. subst vs. by eapply select_values_bits.
Qed.

(** The key of an accepted instance. *)
Definition key_of (p : list Z * Z) : string := uartSharedInstanceKey p.1 p.2.

Definition int64_pair (p : list Z * Z) : Prop := Forall is_int64 p.1 ∧ is_int64 p.2.

Lemma key_of_inj p q : int64_pair p → int64_pair q → key_of p = key_of q → p = q.
Proof.
  destruct p as [i a], q as [j b]. intros [? ?] [? ?] He.
  apply uartSharedInstanceKey_inj in He as [Hi Ha]; [|done..]. simpl in *. by subst.
Qed.

Lemma RegisterInstance_cases self rx tx pins addr :
  (∃ e, RegisterInstance self rx tx pins addr = (inl e, self)) ∨
  (∃ id self', RegisterInstance self rx tx pins addr = (inr id, self') ∧
     key_of (id, addr) ∉ sh_instances self ∧ Forall is_int64 id ∧
     sh_instances self' = {[key_of (id, addr)]} ∪ sh_instances self).
Proof.
  unfold RegisterInstance. destruct (instanceID_of _ _ _ _) as [e|id] eqn:Hid; [by left; exists e|].
  apply instanceID_of_int64 in Hid. case_bool_decide; [left; by eexists|].
  right. by eexists _, _.
Qed.

Lemma register_all_spec self reqs :
  Forall (λ r : request, is_int64 r.2) reqs →
  let '(acc, self') := register_all self reqs in
  NoDup (key_of <$> acc) ∧ Forall int64_pair acc ∧
  Forall (λ p, key_of p ∉ sh_instances self) acc ∧
  sh_instances self' = list_to_set (key_of <$> acc) ∪ sh_instances self.
Proof.
  intros Hreq. revert self. induction Hreq as [|[[[rx tx] pins] addr] reqs Haddr _ IH]; intros self; simpl.
  { split_and!; try constructor. set_solver. }
  destruct (RegisterInstance_cases self rx tx pins addr)
    as [[e ->]|(id & self1 & -> & Hfresh & Hid & Hinst)].
  - specialize (IH self). by destruct (register_all self reqs).
  - specialize (IH self1). destruct (register_all self1 reqs) as [acc self2].
    destruct IH as (Hnd & Hpair & Hnew & Hset). rewrite Hinst in Hnew, Hset.
    rewrite fmap_cons, NoDup_cons, !Forall_cons. split_and!; try done.
    + intros ([i a] & Hk & Hin)%list_elem_of_fmap. rewrite Forall_forall in Hnew.
      apply (Hnew _ Hin). rewrite <- Hk. set_solver.
    + eapply Forall_impl; [exact Hnew|]. intros p Hp. cbv beta in *. set_solver.
    + rewrite Hset. set_solver.
Qed.

(** The driver instances that a shared UART accepts have pairwise distinct (selection,
    address) pairs, and a further instance is accepted exactly when its pair is not
    among them. *)
Theorem shared_uart_instances_distinct (rx tx owner : string) (muxPins : list string)
    (mux : option UARTAnalogMuxRuntime) (reqs : list request) :
  Forall (λ r : request, is_int64 r.2) reqs →
  let '(acc, self) := register_all (NewUARTSharedResourceRuntime rx tx owner muxPins mux) reqs in
  NoDup acc ∧
  ∀ rx' tx' pins addr id, is_int64 addr → instanceID_of self rx' tx' pins = inr id →
    (RegisterInstance self rx' tx' pins addr).1 = inr id ↔ (id, addr) ∉ acc.
Proof.
  intros Hreq.
  pose proof (register_all_spec (NewUARTSharedResourceRuntime rx tx owner muxPins mux) reqs Hreq) as H.
  destruct (register_all _ reqs) as [acc self]. destruct H as (Hnd & Hpair & _ & Hset).
  split; [by eapply NoDup_fmap_1|]. intros rx' tx' pins addr id Haddr Hid.
  unfold RegisterInstance. rewrite Hid. apply instanceID_of_int64 in Hid.
  assert (Hmem : uartSharedInstanceKey id addr ∈ sh_instances self ↔ (id, addr) ∈ acc).
  { rewrite Hset. simpl. rewrite union_empty_r_L, elem_of_list_to_set, list_elem_of_fmap. split.
    - intros (p & Hk & Hp). rewrite Forall_forall in Hpair.
      by rewrite (key_of_inj (id, addr) p); [|done|apply Hpair|].
    - intros Hin. by exists (id, addr). }
  case_bool_decide as Hk; simpl; rewrite <- Hmem; naive_solver.
Qed.

Lemma shared_uart_instances_distinct_witness :
  (register_all (NewUARTSharedResourceRuntime "PA1" "PA2" "mcu" [] None)
     [("PA1", "PA2", [], 0); ("PA1", "PA2", [], 3); ("PA1", "PA2", [], 0); ("PA1", "PA9", [], 1)]).1
    = [([], 0); ([], 3)] ∧
  (RegisterInstance (register_all (NewUARTSharedResourceRuntime "PA1" "PA2" "mcu" [] None)
     [("PA1", "PA2", [], 0)]).2 "PA1" "PA2" [] 2).1 = inr [].
Proof.
  split; [vm_compute; reflexivity|].
  pose proof (shared_uart_instances_distinct "PA1" "PA2" "mcu" [] None [("PA1", "PA2", [], 0)]) as H.
  destruct (register_all _ _) as [acc self] eqn:Hr. vm_compute in Hr. injection Hr as <- <-.
  apply H; [|unfold is_int64; lia|vm_compute; reflexivity|by_decide].
  constructor; [unfold is_int64; simpl; lia|constructor].
Defined.

(** ** The multiplexer pins follow the selected instance *)

(** A digital output keeps the value last sent to it. *)
Class MuxLaws (E : Type) `{UARTMuxCommand E} := {
  output : E → Z → option Z;
  mux_send_law : ∀ oid v e, ∃ e', mux_send oid v e = (Ret tt, e') ∧
    output e' oid = Some v ∧ ∀ oid', oid' ≠ oid → output e' oid' = output e oid'
}.

(** The cached pin values are those driven; -1 stands for a pin not yet set. *)
Definition pins_agree `{MuxLaws E} (self : UARTAnalogMuxRuntime) (e : E) : Prop :=
  length (mux_pinValues self) = length (mux_oids self) ∧
  ∀ i oid v, mux_oids self !! i = Some oid → mux_pinValues self !! i = Some v → v ≠ -1 → output e oid = Some v.

Lemma activate_loop_spec `{MuxLaws E} pinValues ids n oids e :
  NoDup oids → length pinValues = (n + length oids)%nat → length ids = (n + length oids)%nat →
  Forall (λ v, v ≠ -1) ids →
  (∀ i oid v, oids !! i = Some oid → pinValues !! (n + i)%nat = Some v → v ≠ -1 → output e oid = Some v) →
  ∃ e', activate_loop (Z.of_nat n) oids pinValues ids e = (Ret tt, e') ∧
    (∀ i oid v, oids !! i = Some oid → ids !! (n + i)%nat = Some v → output e' oid = Some v) ∧
    (∀ oid, oid ∉ oids → output e' oid = output e oid).
Proof.
  revert n e. induction oids as [|oid oids IH]; intros n e Hnd Hp Hi Hids Hag; simpl in *.
  { exists e. by split_and!. }
  apply NoDup_cons in Hnd as [Hnew Hnd].
  destruct (lookup_lt_is_Some_2 pinValues n) as [old Hold]; [lia|].
  destruct (lookup_lt_is_Some_2 ids n) as [new Hn]; [lia|].
  rewrite (index_lookup _ _ _ Hold), (index_lookup _ _ _ Hn).
  assert (Hne : new ≠ -1) by (rewrite Forall_forall in Hids; by eapply Hids, list_elem_of_lookup_2).
  assert (Hstep : ∃ e1, (if bool_decide (old ≠ new) then mux_send oid new else mret tt) e = (Ret tt, e1) ∧
    output e1 oid = Some new ∧ ∀ o, o ≠ oid → output e1 o = output e o).
  { case_bool_decide as Hc; [apply mux_send_law|]. exists e. split_and!; try done.
    subst. eapply (Hag 0%nat); [done| |done]. by rewrite Nat.add_0_r. }
  destruct Hstep as (e1 & Hrun & Ho & Hframe).
  destruct (IH (S n) e1) as (e2 & Hrun2 & Hout & Hframe2); [done|simpl in *; lia..|done| |].
  { intros i o v Hio Hiv Hv. rewrite Hframe; [eapply (Hag (S i)); try done; by rewrite <- Nat.add_succ_comm|].
    intros ->. apply Hnew. by eapply list_elem_of_lookup_2. }
  exists e2. split_and!.
  - unfold lift, mbind, M_bind in *. rewrite Hrun.
    replace (Z.of_nat n + 1) with (Z.of_nat (S n)) by lia. exact Hrun2.
  - intros [|i] o v Hio Hiv; simpl in Hio.
    + injection Hio as <-. rewrite Nat.add_0_r, Hn in Hiv. injection Hiv as <-. by rewrite Hframe2.
    + eapply (Hout i); [done|]. by rewrite Nat.add_succ_comm.
  - intros o Hno. apply not_elem_of_cons in Hno as [? ?]. by rewrite Hframe2, Hframe.
Qed.

(** Activating an instance on an analog multiplexer leaves every selection pin at the
    level the instance needs, although only the pins that differ from the last selection
    are sent. *)
Theorem Activate_selects_instance `{MuxLaws E} (self : UARTAnalogMuxRuntime) (e : E) (instanceID : list Z) :
  NoDup (mux_oids self) → pins_agree self e → length instanceID = length (mux_oids self) →
  Forall (λ v, v = 0 ∨ v = 1) instanceID →
  ∃ self' e', Activate self instanceID e = (Ret self', e') ∧ pins_agree self' e' ∧
    ∀ i oid v, mux_oids self !! i = Some oid → instanceID !! i = Some v → output e' oid = Some v.
Proof.
  intros Hnd [Hlen Hag] Hids H01.
  assert (Hne : Forall (λ v, v ≠ -1) instanceID) by (eapply Forall_impl; [exact H01|]; simpl; lia).
  destruct (activate_loop_spec (mux_pinValues self) instanceID 0 (mux_oids self) e)
    as (e' & Hrun & Hout & _); [done..|].
  eexists _, e'. split_and!.
  - unfold Activate. by rewrite M_bind_eq with (1 := Hrun).
  - split; [done|]. simpl. intros i oid v Ho Hv _. by eapply Hout.
  - intros i oid v Ho Hv. by eapply Hout.
Qed.

(** Two pins and the values they were sent. *)
#[global] Instance pins_mux : UARTMuxCommand (gmap Z Z) := {|
  mux_send oid v e := (Ret tt, <[oid := v]> e)
|}.
#[global] Program Instance pins_laws : MuxLaws (gmap Z Z) := {| output e oid := e !! oid |}.
Next Obligation.
  intros oid v e. eexists. split_and!; [reflexivity|by rewrite lookup_insert_eq|].
  intros o Ho. by rewrite lookup_insert_ne.
Qed.

Lemma Activate_selects_instance_witness :
  ∃ self' e', Activate (NewUARTAnalogMuxRuntime [4; 5] ["PB0"; "PB1"]) [1; 0] (∅ : gmap Z Z) = (Ret self', e') ∧
    output e' 4 = Some 1 ∧ output e' 5 = Some 0.
Proof.
  destruct (Activate_selects_instance (NewUARTAnalogMuxRuntime [4; 5] ["PB0"; "PB1"]) (∅ : gmap Z Z) [1; 0])
    as (self' & e' & Hrun & _ & Hout).
  - by_decide.
  - split; [done|]. intros [|[|]] oid v [= <-] [= <-]; done.
  - done.
  - by_decide.
  - exists self', e'. split_and!; [done|by apply (Hout 0%nat)|by apply (Hout 1%nat)].
Defined.

(** ** SPI writes are verified through a signed 32-bit number *)

(** The response is a Go string: a sequence of bytes. *)
Class SPIBytes (E : Type) `{SPIBusTransport E} : Prop := {
  preface_bytes : ∀ w d m e r e', spi_TransferWithPreface w d m e = (Ret r, e') → Forall is_byte r
}.

(** Writing a value of 2^31 or more over SPI never succeeds: the verification compares
    it with a signed 32-bit reading. *)
Theorem spi_high_bit_never_verifies `{SPIBytes E} (self : SPIRegisterTransportRuntime) (regName : string)
    (val : Z) (printTime : option f64) (e : E) :
  2 ^ 31 ≤ val → chain_debug (spi_chain self) = false →
  (spi_SetRegister self regName val printTime e).1 ≠ Ret None.
Proof.
  intros Hval Hdbg. unfold spi_SetRegister.
  assert (Hw : ∀ reg e v e', chain_WriteRegister (spi_chain self) reg val (spi_chainPos self) printTime e = (Ret v, e') → v ≠ val).
  { intros reg e0 v e' Hrun. unfold chain_WriteRegister in Hrun. apply M_bind_inv in Hrun as (m & e1 & _ & Hrun).
    rewrite Hdbg in Hrun. apply M_bind_inv in Hrun as (resp & e2 & Hresp & Hrun).
    apply preface_bytes in Hresp. unfold lift in Hrun. injection Hrun as Hd _.
    apply DecodeSPIChainResponse_int32 in Hd; [lia|done]. }
  assert (Hl : ∀ n reg e b e', spi_write_loop n self reg val printTime e = (Ret b, e') → b = false).
  { intros n reg. induction n as [|n IH]; cbn [spi_write_loop]; intros e0 b e' Hrun; [by injection Hrun as <- _|].
    apply M_bind_inv in Hrun as (v & e1 & Hv & Hrun). apply Hw in Hv.
    rewrite bool_decide_false in Hrun by done. by eapply IH. }
  unfold mbind, M_bind. destruct (spi_write_loop _ _ _ _ _ e) as [[b|w] e'] eqn:Hrun; simpl; [|done].
  by apply Hl in Hrun as ->.
Qed.

(** A chain whose chips echo the datagram before the last. *)
#[global] Instance echo_bus : SPIBusTransport unit := {|
  spi_Send _ _ e := (Ret tt, e);
  spi_Transfer d _ e := (Ret (u8 <$> d), e);
  spi_TransferWithPreface w _ _ e := (Ret (u8 <$> w), e);
  spi_PrintTimeToClock _ e := (Ret 0, e)
|}.
#[global] Instance echo_bytes : SPIBytes unit.
Proof.
  split. simpl. intros w d m e r e' [= <- _]. apply Forall_fmap, Forall_true. intros. apply u8_byte.
Qed.

Definition demo_spi : SPIRegisterTransportRuntime :=
  mkSPI "tmc5160 stepper_x" (list_to_map TMC5160Registers) 1 (NewSPIChainRuntime 1 false).

Lemma spi_high_bit_never_verifies_witness :
  (spi_SetRegister demo_spi "MSLUT0" 0xaaaab554 None tt).1 ≠ Ret None ∧
  (spi_SetRegister demo_spi "TPOWERDOWN" 10 None tt).1 = Ret None.
Proof.
  split; [|vm_compute; reflexivity].
  apply (spi_high_bit_never_verifies demo_spi "MSLUT0" 0xaaaab554 None tt); [lia|reflexivity].
Defined.

(** ** Reading the TMC2660 *)

(** A chip with three status words: a datagram is answered with the word
    selected by the datagrams before it, and then selects the word its [rdsel]
    bits name. *)
Section Chip2660.
Context (status : Z → Z).

Definition answer (sel : Z) : list Z :=
  [Z.land (Z.shiftr (status sel) 16) 0xff; Z.land (Z.shiftr (status sel) 8) 0xff; Z.land (status sel) 0xff].

Definition selects (msg : list Z) (sel : Z) : Z :=
  match msg with
  | [_; _; b0] => Z.land (Z.shiftr b0 4) 3
  | _ => sel
  end.

#[local] Instance chip2660 : SPIBusTransport Z := {|
  spi_Send msg _ sel := (Ret tt, selects msg sel);
  spi_Transfer msg _ sel := (Ret (answer sel), selects msg sel);
  spi_TransferWithPreface p d _ sel := (Ret (answer (selects p sel)), selects d (selects p sel));
  spi_PrintTimeToClock _ sel := (Ret 0, sel)
|}.

Definition demo_2660 : TMC2660SPITransportRuntime :=
  mk2660 (list_to_map TMC2660Registers) (NewFieldHelper TMC2660Fields TMC2660SignedFields ∅ None) false.

(** The word the driver reads out of an answer. *)
Lemma answer_word sel : 0 ≤ status sel < 2 ^ 24 →
  Z.lor (Z.lor (Z.shiftl (Z.land (Z.shiftr (status sel) 16) 0xff) 16)
    (Z.shiftl (Z.land (Z.shiftr (status sel) 8) 0xff) 8)) (Z.land (status sel) 0xff) = status sel.
Proof.
  intros Hs. pose proof (join_value (status sel) ltac:(lia)) as Hj.
  replace (Z.land (Z.shiftr (status sel) 24) 0xff) with 0 in Hj; [exact Hj|].
  rewrite land_255, Z.shiftr_div_pow2 by lia. dlia.
Qed.

(** A TMC2660 status read that follows a read of another response selection returns the
    other response: the selection test does not look at the cached register. *)
Theorem tmc2660_stale_selection :
  (∀ i, 0 ≤ status i < 2 ^ 24) →
  ∃ t1 e1 t2 e2,
    t60_GetRegister demo_2660 "READRSP@RDSEL2" 0 = (Ret (status 2, t1), e1) ∧
    t60_GetRegister t1 "READRSP@RDSEL0" e1 = (Ret (status 2, t2), e2).
Proof.
  intros Hs.
  set (t1 := mk2660 (t60_nameToReg demo_2660) (Set_field (t60_fields demo_2660) "rdsel" (AInt 2) None None).2 false).
  exists t1, 2, (mk2660 (t60_nameToReg t1) (Set_field (t60_fields t1) "rdsel" (AInt 0) None None).2 false), 0.
  assert (H1 : Get_field (t60_fields demo_2660) "rdsel" (Some 0) None = 0) by (vm_compute; reflexivity).
  assert (H2 : Get_field (t60_fields t1) "rdsel" (Some 0) None = 0) by (vm_compute; reflexivity).
  assert (H3 : (Set_field (t60_fields demo_2660) "rdsel" (AInt 2) None None).1 = 32) by (vm_compute; reflexivity).
  assert (H4 : (Set_field (t60_fields t1) "rdsel" (AInt 0) None None).1 = 0) by (vm_compute; reflexivity).
  split.
  - unfold t60_GetRegister. rewrite H1. change (indexOfString TMC2660ReadRegisters "READRSP@RDSEL2") with 2.
    unfold t1. destruct (Set_field (t60_fields demo_2660) "rdsel" (AInt 2) None None) as [v1 f1].
    simpl in H3. subst v1. unfold mbind, M_bind. simpl. by rewrite answer_word by apply Hs.
  - unfold t60_GetRegister. rewrite H2. change (indexOfString TMC2660ReadRegisters "READRSP@RDSEL0") with 0.
    destruct (Set_field (t60_fields t1) "rdsel" (AInt 0) None None) as [v2 f2].
    simpl in H4. subst v2. unfold mbind, M_bind. simpl. by rewrite answer_word by apply Hs.
Qed.
End Chip2660.

Lemma tmc2660_stale_selection_witness :
  let chip := chip2660 (λ i, 100 + i mod 4) in
  ∃ t1 e1 t2 e2,
    @t60_GetRegister Z chip demo_2660 "READRSP@RDSEL2" 0 = (Ret (102, t1), e1) ∧
    @t60_GetRegister Z chip t1 "READRSP@RDSEL0" e1 = (Ret (102, t2), e2).
Proof.
  apply (tmc2660_stale_selection (λ i, 100 + i mod 4)).
  intros i. pose proof (Z.mod_pos_bound i 4). lia.
Defined.
