(* ===== verification/TmcDriver.v ===== *)
(** * The helpers of a driver

    The state a driver's helpers share is its [FieldHelper] and the hardware
    behind [RegisterAccess].  This file models
    [src/internal/pkg/tmc/command_helper_core.go], [command_runtime.go],
    [config_helpers.go], [virtual_pin_core.go] and [current_helpers.go]. *)

From S2P Require Import Prelude GoFloat GoStrings GoState TmcFields TmcBus.

(** ** Shared state *)

Section Driver.
Context {E : Type} `{RegisterAccess E}.

Definition fields : M (FieldHelper * E) FieldHelper := gets fst.

(** [fields.Set_field(fieldName, v, nil, nil)]. *)
Definition set_field (fieldName : string) (v : any) : M (FieldHelper * E) Z :=
  λ s, let '(x, fh) := Set_field s.1 fieldName v None None in (Ret x, (fh, s.2)).

(** [fields.Get_field(fieldName, regValue, nil)]. *)
Definition get_field (fieldName : string) (regValue : option Z) : M (FieldHelper * E) Z :=
  gets (λ s, Get_field s.1 fieldName regValue None).

Definition on_hw {A} (m : M E A) : M (FieldHelper * E) A :=
  λ s, let '(r, e) := m s.2 in (r, (s.1, e)).

(** ** CommandHelperCore *)

Definition InitRegisters (printTime : option f64) : M (FieldHelper * E) (option string) :=
  fh ← fields;
  mfor_err (orderedRegisterNames fh) (λ regName,
    fh ← fields;
    on_hw (Set_register regName (reg_value fh regName) printTime)).

Definition SetField (fieldName : string) (fieldValue : Z) (printTime : f64) : M (FieldHelper * E) (option string) :=
  fh ← fields;
  match Lookup_register fh fieldName with
  | None => mret (Some ("Unknown field name '" ++ fieldName ++ "'")%string)
  | Some regName =>
      regVal ← set_field fieldName (AInt64 fieldValue);
      on_hw (Set_register regName regVal (Some printTime))
  end.

(** [256 >> shift]; a negative count panics. *)
Definition GetPhases : M (FieldHelper * E) Z :=
  shift ← get_field "mres" None;
  if bool_decide (shift < 0) then panic "negative shift amount"
  else mret (Z.shiftr 256 shift * 4).

Definition QueryPhase : M (FieldHelper * E) (string + Z) :=
  fh ← fields;
  let fieldName := match Lookup_register fh "mscnt" with Some _ => "mscnt" | None => "mstep" end in
  reg ← on_hw (Get_register (default EmptyString (Lookup_register fh fieldName)));
  match reg with
  | inl err => mret (inl err)
  | inr v => x ← get_field fieldName (Some v); mret (inr x)
  end.

(** [toff] is the value saved for the virtual enable line. *)
Definition EnableVirtualEnable : M (FieldHelper * E) (option Z) :=
  toff ← get_field "toff" None;
  _ ← set_field "toff" (AInt 0);
  mret (Some toff).

Definition ApplyEnableRegisters (toff : option Z) (printTime : option f64) : M (FieldHelper * E) (option string) :=
  _ ← match toff with Some v => _ ← set_field "toff" (AInt64 v); mret tt | None => mret tt end;
  InitRegisters printTime.

Definition ApplyDisableRegisters (toff : option Z) (printTime : option f64) : M (FieldHelper * E) (option string) :=
  match toff with
  | None => mret None
  | Some _ =>
      val ← set_field "toff" (AInt 0);
      fh ← fields;
      on_hw (Set_register (default EmptyString (Lookup_register fh "toff")) val printTime)
  end.

(** ** Phase offset (command_runtime.go) *)

Definition commandRuntimePhaseQueryRetryCount : nat := 3.

Definition isCommandRuntimeTransientPhaseQueryError (err : string) : bool :=
  HasPrefix err "Unable to read tmc uart ".

(** [n] attempts left; [pauseRetry] is the caller's pause between attempts. *)
Fixpoint query_phase_loop (n : nat) (pauseRetry : M (FieldHelper * E) unit) : M (FieldHelper * E) (string + Z) :=
  match n with
  | O => mret (inl EmptyString)
  | S n =>
      r ← QueryPhase;
      match r with
      | inr v => mret (inr v)
      | inl err =>
          if negb (isCommandRuntimeTransientPhaseQueryError err) || bool_decide (n = 0%nat) then mret (inl err)
          else _ ← pauseRetry; query_phase_loop n pauseRetry
      end
  end.

Definition queryPhaseWithRetry (pauseRetry : M (FieldHelper * E) unit) : M (FieldHelper * E) (string + Z) :=
  query_phase_loop commandRuntimePhaseQueryRetryCount pauseRetry.

(** [maths.PyMod]. *)
Definition PyMod (a b : Z) : Z := Z.rem (Z.rem a b + b) b.

(** The offset between the driver's phase and the micro-controller's position. *)
Definition phase_offset (driverPhase : Z) (inverted : bool) (phases mcu_position : Z) : Z :=
  let driverPhase := if inverted then 1023 - driverPhase else driverPhase in
  let phase := PyMod (f_trunc (fadd (fmul (fdiv (f_of_Z driverPhase) (f_of_Z 1024)) (f_of_Z phases)) (f_lit 1 2))) phases in
  PyMod (phase - mcu_position) phases.

(** ** Configuration helpers (config_helpers.go) *)

Definition ApplyMicrostepSettings (mres : any) (interpolate : bool) : M (FieldHelper * E) unit :=
  _ ← set_field "mres" mres; _ ← set_field "intpol" (ABool interpolate); mret tt.

Definition TMCtstepHelper (stepDist : f64) (mres : Z) (tmcFreq velocity : f64) : Z :=
  if flt f0 velocity then
    let shift := i64 (Z.shiftl 1 mres) in
    let stepDist256 := fdiv stepDist (f_of_Z shift) in
    let threshold := f_trunc (fadd (fdiv (fmul tmcFreq stepDist256) velocity) (f_lit 1 2)) in
    if bool_decide (threshold < 0) then 0
    else if bool_decide (0xfffff < threshold) then 0xfffff
    else threshold
  else 0xfffff.

Definition ApplyStealthchop (tmcFreq stepDist velocity : f64) : M (FieldHelper * E) unit :=
  '(enPWMMode, tpwmthrs) ←
    (if feq velocity velocity then
       mres ← get_field "mres" None;
       mret (true, TMCtstepHelper stepDist mres tmcFreq velocity)
     else mret (false, 0xfffff));
  _ ← set_field "tpwmthrs" (AInt tpwmthrs);
  fh ← fields;
  match Lookup_register fh "en_pwm_mode" with
  | Some _ => _ ← set_field "en_pwm_mode" (ABool enPWMMode); mret tt
  | None => _ ← set_field "en_spreadcycle" (ABool (negb enPWMMode)); mret tt
  end.

(** ** Current control (current_helpers.go) *)

Definition clamp31 (cs : Z) : Z := Z.max 0 (Z.min 31 cs).
Definition sqrt2 : f64 := fsqrt (f_of_Z 2).
Definition MaxCurrent : f64 := f_of_Z 2.

(** TMC2130, TMC2208 and TMC2209: two sense ranges. *)
Definition tmc_vref (vsense : bool) : f64 := if vsense then f_lit 18 100 else f_lit 32 100.

Definition tmc_calcCurrentBits (sense current : f64) (vsense : bool) : Z :=
  let senseResistor := fadd sense (f_lit 20 1000) in
  let cs := f_trunc (fadd (fdiv (fmul (fmul (fmul (f_of_Z 32) senseResistor) current) sqrt2) (tmc_vref vsense)) (f_lit 1 2)) - 1 in
  clamp31 cs.

Definition tmc_calcCurrentFromBits (sense cs : f64) (vsense : bool) : f64 :=
  let senseResistor := fadd sense (f_lit 20 1000) in
  fdiv (fmul (fadd cs f1) (tmc_vref vsense)) (fmul (fmul (f_of_Z 32) senseResistor) sqrt2).

(** The choice of range, common to the TMC2xxx helpers: [bits] and [amps] are
    the chip's conversions. *)
Definition choose_range (bits : f64 → bool → Z) (amps : f64 → bool → f64) (runCurrent : f64) : bool * Z :=
  let irun := bits runCurrent true in
  if bool_decide (irun = 31) then
    let cur := amps (f_of_Z irun) true in
    if flt cur runCurrent then
      let irun2 := bits runCurrent false in
      let cur2 := amps (f_of_Z irun2) false in
      if flt (fabs (fsub runCurrent cur2)) (fabs (fsub runCurrent cur)) then (false, irun2) else (true, irun)
    else (true, irun)
  else (true, irun).

Definition tmc_calcCurrent (sense runCurrent holdCurrent : f64) : bool * Z * Z :=
  let '(vsense, irun) := choose_range (tmc_calcCurrentBits sense) (tmc_calcCurrentFromBits sense) runCurrent in
  (vsense, irun, tmc_calcCurrentBits sense (fmin holdCurrent runCurrent) vsense).

(** The constructor, given the values read from the configuration. *)
Definition NewTMCCurrentHelper (sense runCurrent holdCurrent : f64) : M (FieldHelper * E) unit :=
  let '(vsense, irun, ihold) := tmc_calcCurrent sense runCurrent holdCurrent in
  _ ← set_field "vsense" (ABool vsense);
  _ ← set_field "ihold" (AInt ihold);
  _ ← set_field "irun" (AInt irun);
  mret tt.

Definition tmc_Get_current (sense reqHoldCurrent : f64) : M (FieldHelper * E) (list f64) :=
  irun ← get_field "irun" None;
  ihold ← get_field "ihold" None;
  vsense ← get_field "vsense" None;
  mret [tmc_calcCurrentFromBits sense (f_of_Z irun) (ToBool_int vsense);
        tmc_calcCurrentFromBits sense (f_of_Z ihold) (ToBool_int vsense); reqHoldCurrent; MaxCurrent].

Definition tmc_Set_current (sense runCurrent holdCurrent printTime : f64) : M (FieldHelper * E) unit :=
  let '(vsense, irun, ihold) := tmc_calcCurrent sense runCurrent holdCurrent in
  old ← get_field "vsense" None;
  _ ← (if negb (Bool.eqb vsense (ToBool_int old)) then
         val ← set_field "vsense" (ABool vsense);
         _ ← on_hw (Set_register "CHOPCONF" val (Some printTime)); mret tt
       else mret tt);
  _ ← set_field "ihold" (AInt ihold);
  val ← set_field "irun" (AInt irun);
  _ ← on_hw (Set_register "IHOLD_IRUN" val (Some printTime));
  mret tt.

(** TMC2240: a current range and a global scaler. *)
Definition kifs : list f64 := f_of_Z <$> [11750; 24000; 36000; 36000].

Definition getIFSRMS (rref : f64) (currentRange : option Z) : M (FieldHelper * E) f64 :=
  range ← match currentRange with Some r => mret r | None => get_field "current_range" None end;
  k ← lift (kifs.[range]);
  mret (fdiv (fdiv k rref) sqrt2).

(** [n] ranges still to try, from [r]. *)
Fixpoint range_loop (n : nat) (r : Z) (rref current : f64) : M (FieldHelper * E) Z :=
  match n with
  | O => mret r
  | S n =>
      ifs ← getIFSRMS rref (Some r);
      if fle current ifs then mret r else range_loop n (r + 1) rref current
  end.
Definition calcCurrentRange (rref current : f64) : M (FieldHelper * E) Z := range_loop 4 0 rref current.

Definition scaler_of (g : Z) : Z := let g := Z.max 32 g in if bool_decide (256 ≤ g) then 0 else g.

Definition t2240_calcGlobalscaler (rref current : f64) : M (FieldHelper * E) Z :=
  ifsRMS ← getIFSRMS rref None;
  mret (scaler_of (f_trunc (fadd (fdiv (fmul current (f_of_Z 256)) ifsRMS) (f_lit 1 2)))).

Definition t2240_calcCurrentBits (rref current : f64) (globalscaler : Z) : M (FieldHelper * E) Z :=
  ifsRMS ← getIFSRMS rref None;
  let globalscaler := if bool_decide (globalscaler = 0) then 256 else globalscaler in
  mret (clamp31 (f_trunc (fadd (fsub (fdiv (fmul (fmul current (f_of_Z 256)) (f_of_Z 32))
    (fmul (f_of_Z globalscaler) ifsRMS)) f1) (f_lit 1 2)))).

Definition t2240_calcCurrent (rref runCurrent holdCurrent : f64) : M (FieldHelper * E) (Z * Z * Z) :=
  gscaler ← t2240_calcGlobalscaler rref runCurrent;
  irun ← t2240_calcCurrentBits rref runCurrent gscaler;
  ihold ← t2240_calcCurrentBits rref (fmin holdCurrent runCurrent) gscaler;
  mret (gscaler, irun, ihold).

Definition t2240_Set_current (rref runCurrent holdCurrent printTime : f64) : M (FieldHelper * E) unit :=
  '(gscaler, irun, ihold) ← t2240_calcCurrent rref runCurrent holdCurrent;
  _ ← set_field "globalscaler" (AInt gscaler);
  _ ← on_hw (Set_register "GLOBALSCALER" gscaler (Some printTime));
  _ ← set_field "ihold" (AInt ihold);
  _ ← on_hw (Set_register "IHOLD_IRUN" irun (Some printTime));
  mret tt.

Definition t2240_calcCurrentFromField (rref : f64) (fieldName : string) : M (FieldHelper * E) f64 :=
  ifsRMS ← getIFSRMS rref None;
  g ← get_field "globalscaler" None;
  let g := if bool_decide (g = 0) then 256 else g in
  bits ← get_field fieldName None;
  mret (fdiv (fmul (f_of_Z (i64 (g * (bits + 1)))) ifsRMS) (fmul (f_of_Z 256) (f_of_Z 32))).

(** TMC2660. *)
Definition t2660_vref (vsense : bool) : f64 := if vsense then f_lit 165 1000 else f_lit 310 1000.

Definition t2660_calcCurrentBits (sense current : f64) (vsense : bool) : Z :=
  clamp31 (f_trunc (fadd (fdiv (fmul (fmul (fmul (f_of_Z 32) sense) current) sqrt2) (t2660_vref vsense)) (f_lit 1 2)) - 1).

Definition t2660_calcCurrentFromBits (sense cs : f64) (vsense : bool) : f64 :=
  fdiv (fmul (fadd cs f1) (t2660_vref vsense)) (fmul (fmul (f_of_Z 32) sense) sqrt2).

Definition t2660_calcCurrent (sense runCurrent : f64) : bool * f64 :=
  let '(vsense, irun) := choose_range (t2660_calcCurrentBits sense) (t2660_calcCurrentFromBits sense) runCurrent in
  (vsense, f_of_Z irun).

Definition updateCurrent (sense current printTime : f64) : M (FieldHelper * E) unit :=
  let '(vsense, cs) := t2660_calcCurrent sense current in
  val ← set_field "cs" (AFloat cs);
  _ ← on_hw (Set_register "SGCSCONF" val (Some printTime));
  old ← get_field "vsense" (Some 0);
  if negb (Bool.eqb vsense (ToBool_int old)) then
    val ← set_field "vsense" (ABool vsense);
    _ ← on_hw (Set_register "DRVCONF" val (Some printTime)); mret tt
  else mret tt.

(** TMC5160. *)
Definition TMC5160VREF : f64 := f_lit 325 1000.

Definition t5160_calcGlobalscaler (sense current : f64) : Z :=
  scaler_of (f_trunc (fadd (fdiv (fmul (fmul (fmul current (f_of_Z 256)) sqrt2) sense) TMC5160VREF) (f_lit 1 2))).

Definition t5160_calcCurrentBits (sense current : f64) (globalscaler : Z) : Z :=
  let globalscaler := if bool_decide (globalscaler = 0) then 256 else globalscaler in
  clamp31 (f_trunc (fadd (fsub (fdiv (fmul (fmul (fmul (fmul current (f_of_Z 256)) (f_of_Z 32)) sqrt2) sense)
    (fmul (f_of_Z globalscaler) TMC5160VREF)) f1) (f_lit 1 2))).

Definition t5160_calcCurrent (sense runCurrent holdCurrent : f64) : Z * Z * Z :=
  let gscaler := t5160_calcGlobalscaler sense runCurrent in
  (gscaler, t5160_calcCurrentBits sense runCurrent gscaler,
   t5160_calcCurrentBits sense (fmin holdCurrent runCurrent) gscaler).

Definition t5160_calcCurrentFromField (sense : f64) (fieldName : string) : M (FieldHelper * E) f64 :=
  g ← get_field "globalscaler" (Some 0);
  let globalscaler := if feq (f_of_Z g) f0 then f_of_Z 256 else f_of_Z g in
  b ← get_field fieldName (Some 0);
  mret (fdiv (fmul (fmul globalscaler (fadd (f_of_Z b) f1)) TMC5160VREF)
    (fmul (fmul (fmul (f_of_Z 256) (f_of_Z 32)) sqrt2) sense)).

Definition t5160_Get_current (sense reqHoldCurrent : f64) : M (FieldHelper * E) (list f64) :=
  run ← t5160_calcCurrentFromField sense "irun";
  hold ← t5160_calcCurrentFromField sense "ihold";
  mret [run; hold; reqHoldCurrent; MaxCurrent].

Definition t5160_Set_current (sense runCurrent holdCurrent printTime : f64) : M (FieldHelper * E) unit :=
  let '(gscaler, irun, ihold) := t5160_calcCurrent sense runCurrent holdCurrent in
  val ← set_field "globalscaler" (AInt gscaler);
  _ ← on_hw (Set_register "GLOBALSCALER" val (Some printTime));
  _ ← set_field "ihold" (AInt ihold);
  val ← set_field "irun" (AInt irun);
  _ ← on_hw (Set_register "IHOLD_IRUN" val (Some printTime));
  mret tt.
End Driver.

(** [CommandHelperCore.UpdateCurrent] over any current control: the arguments
    that are given replace the present run and requested hold currents. *)
Definition UpdateCurrent {W} (Get_current : M W (list f64)) (Set_current : f64 → f64 → f64 → M W unit)
    (runCurrent holdCurrent : option f64) (printTime : f64) : M W (list f64) :=
  current ← Get_current;
  prevCur ← lift (current.[0]);
  reqHoldCur ← lift (current.[2]);
  match runCurrent, holdCurrent with
  | None, None => mret current
  | _, _ => _ ← Set_current (default prevCur runCurrent) (default reqHoldCur holdCurrent) printTime; Get_current
  end.
