(* ===== verification/TmcDriverThy.v ===== *)
(** * What a driver's helpers do to the chip *)

From S2P Require Import Prelude GoFloat GoStrings GoState TmcFields TmcFieldsThy TmcDefs TmcDefsThy TmcCodecs TmcBus TmcDriver.

(** The promise of a register access to the helpers: a write without error is
    in the chip, and no write touches another register. *)
Class HwLaws (E : Type) `{RegisterAccess E} := {
  hwreg : E → string → option Z;
  hw_set_ok : ∀ r v pt e e', Set_register r v pt e = (Ret None, e') → hwreg e' r = Some v;
  hw_frame : ∀ r v pt e res e', Set_register r v pt e = (res, e') →
    ∀ r', r' ≠ r → hwreg e' r' = hwreg e r'
}.

Lemma hw_set `{HwLaws E} r v pt (e e' : E) : Set_register r v pt e = (Ret None, e') →
  hwreg e' r = Some v ∧ ∀ r', r' ≠ r → hwreg e' r' = hwreg e r'.
Proof. intros Hs. split; [by eapply hw_set_ok|by eapply hw_frame]. Qed.

(** ** Writing out all registers *)

Lemma init_loop `{HwLaws E} rs pt fh (e : E) s' :
  NoDup rs →
  mfor_err rs (λ regName, fh ← fields; on_hw (Set_register regName (reg_value fh regName) pt)) (fh, e)
    = (Ret None, s') →
  s'.1 = fh ∧ (∀ r, r ∈ rs → hwreg s'.2 r = Some (reg_value fh r)) ∧
  (∀ r, r ∉ rs → hwreg s'.2 r = hwreg e r).
Proof.
  revert e. induction rs as [|r rs IH]; intros e Hnd Hrun; cbn [mfor_err] in Hrun.
  { injection Hrun as <-. split_and!; try done. by intros r ?%not_elem_of_nil. }
  apply NoDup_cons in Hnd as [Hr Hnd].
  apply M_bind_inv in Hrun as (err & s1 & H1 & Hrun).
  unfold fields, gets, on_hw, mbind, M_bind in H1. simpl in H1.
  destruct (Set_register r (reg_value fh r) pt e) as [res e1] eqn:Hs. injection H1 as -> <-.
  destruct err as [x|]; [done|]. apply hw_set in Hs as [Hset Hframe].
  apply IH in Hrun as (Hfh & Hin & Hout); [|done]. split_and!; [done| |].
  - intros r' [->|Hr']%elem_of_cons; [by rewrite Hout|by apply Hin].
  - intros r' [Hne Hr']%not_elem_of_cons. by rewrite Hout, Hframe.
Qed.

(** When InitRegisters succeeds, every cached register of the driver has its cached
    value in the chip, and no other register was touched. *)
Theorem InitRegisters_programs_chip `{HwLaws E} (c : chip) (t : fieldTable) fmts (sets : list (string * any))
    (pt : option f64) (e : E) (s' : FieldHelper * E) :
  t ≡ₚ chip_fields c →
  let fh := set_all sets (NewFieldHelper t (chip_signed c) fmts None) in
  InitRegisters pt (fh, e) = (Ret None, s') →
  s'.1 = fh ∧
  (∀ r v, registers fh !! r = Some v → hwreg s'.2 r = Some v) ∧
  (∀ r, registers fh !! r = None → hwreg s'.2 r = hwreg e r).
Proof.
  intros Hp fh Hrun. destruct (chip_helper_inv c t fmts sets Hp) as [_ Ht]. fold fh in Ht.
  destruct (orderedRegisterNames_tracked _ Ht) as (_ & Hnd & Hdom).
  apply (init_loop (orderedRegisterNames fh)) in Hrun as (Hfh & Hin & Hout); [|done].
  split_and!; [done| |].
  - intros r v Hr. rewrite Hin by (apply Hdom; by rewrite Hr). unfold reg_value. by rewrite Hr.
  - intros r Hr. apply Hout. rewrite Hdom, Hr. by intros [? ?].
Qed.

(** Registers by name, every write accepted. *)
#[global] Instance plain_access : RegisterAccess (gmap string Z) := {|
  Get_register r e := (Ret (inr (default 0 (e !! r))), e);
  Set_register r v _ e := (Ret None, <[r := v]> e)
|}.
#[global] Program Instance plain_laws : HwLaws (gmap string Z) := {| hwreg e r := e !! r |}.
Next Obligation. intros r v pt e e'. simpl. intros [= <-]. by rewrite lookup_insert_eq. Qed.
Next Obligation. intros r v pt e res e'. simpl. intros [= <- <-] r' Hr. by rewrite lookup_insert_ne. Qed.

Lemma InitRegisters_programs_chip_witness :
  ∃ s', InitRegisters None (set_all [("irun", AInt 12); ("toff", AInt 3)]
      (NewFieldHelper TMC2209Fields (chip_signed TMC2209) ∅ None), (∅ : gmap string Z)) = (Ret None, s') ∧
    hwreg s'.2 "IHOLD_IRUN" = Some 0xc00.
Proof.
  set (fh := set_all [("irun", AInt 12); ("toff", AInt 3)] (NewFieldHelper TMC2209Fields (chip_signed TMC2209) ∅ None)).
  set (s' := (InitRegisters None (fh, ∅ : gmap string Z)).2).
  assert (Hrun : InitRegisters None (fh, ∅ : gmap string Z) = (Ret None, s')).
  { apply injective_projections; [vm_compute; reflexivity|reflexivity]. }
  exists s'. split; [exact Hrun|].
  apply (InitRegisters_programs_chip TMC2209 TMC2209Fields ∅ [("irun", AInt 12); ("toff", AInt 3)] None ∅ s');
    [reflexivity|exact Hrun|vm_compute; reflexivity].
Defined.

(** ** Registers without an address *)

(** An SPI driver, recording the datagrams. *)
#[global] Instance spi_log : SPIBusTransport (list (list Z)) := {|
  spi_Send d _ l := (Ret tt, l ++ [d]);
  spi_Transfer d _ l := (Ret (u8 <$> d), l ++ [d]);
  spi_TransferWithPreface w d _ l := (Ret (u8 <$> w), l ++ [w; d]);
  spi_PrintTimeToClock _ l := (Ret 0, l)
|}.

Definition spi_access (self : SPIRegisterTransportRuntime) : RegisterAccess (list (list Z)) := {|
  Get_register := spi_GetRegister self;
  Set_register := spi_SetRegister self
|}.

(** The TMC2130 in a debug session, where the datagrams are only sent. *)
Definition tmc2130_spi : SPIRegisterTransportRuntime :=
  mkSPI "tmc2130 stepper_x" (list_to_map TMC2130Registers) 1 (NewSPIChainRuntime 1 true).

Definition tmc2130_fields : FieldHelper := NewFieldHelper TMC2130Fields TMC2130SignedFields ∅ None.

(** Initialising a TMC2130 with the default wave table sends the MSLUT1 and MSLUT7
    words to register 0, which is GCONF. *)
Theorem tmc2130_wave_table_overwrites_GCONF :
  ∃ fh log, ApplyWaveTableDefaults EmptySection tmc2130_fields = Ret fh ∧
    @InitRegisters (list (list Z)) (spi_access tmc2130_spi) None (fh, []) = (Ret None, (fh, log)) ∧
    (list_to_map TMC2130Registers : gmap string Z) !! "GCONF" = Some 0 ∧
    [0x80; 0x4a; 0x95; 0x54; 0xaa] ∈ log ∧ [0x80; 0x00; 0x40; 0x42; 0x22] ∈ log.
Proof.
  set (fh := match ApplyWaveTableDefaults EmptySection tmc2130_fields with Ret x => x | Panic _ => tmc2130_fields end).
  set (log := (@InitRegisters (list (list Z)) (spi_access tmc2130_spi) None (fh, [])).2.2).
  exists fh, log. split_and!.
  - unfold fh. destruct (ApplyWaveTableDefaults EmptySection tmc2130_fields) eqn:Hf; [done|].
    assert (Hc : returns (ApplyWaveTableDefaults EmptySection tmc2130_fields) = true) by (vm_compute; reflexivity).
    by rewrite Hf in Hc.
  - apply injective_projections; [vm_compute; reflexivity|].
    apply injective_projections; [vm_compute; reflexivity|reflexivity].
  - reflexivity.
  - by_decide.
  - by_decide.
Qed.

(** ** Running the helpers *)

Lemma run_set_field {E} (fh : FieldHelper) (e : E) f v :
  set_field f v (fh, e) = (Ret (Set_field fh f v None None).1, ((Set_field fh f v None None).2, e)).
Proof. unfold set_field. simpl. by destruct (Set_field fh f v None None). Qed.

Lemma run_get_field {E} (fh : FieldHelper) (e : E) f rv :
  get_field f rv (fh, e) = (Ret (Get_field fh f rv None), (fh, e)).
Proof. done. Qed.

Lemma run_on_hw {E A} (m : M E A) (fh : FieldHelper) (e : E) r e' :
  m e = (r, e') → on_hw m (fh, e) = (r, (fh, e')).
Proof. unfold on_hw. simpl. by intros ->. Qed.

Ltac run_step :=
  first [ erewrite M_bind_eq; [|apply run_set_field]
        | erewrite M_bind_eq; [|apply run_get_field]
        | erewrite M_bind_eq; [|reflexivity] ].

(** Known fields of a helper. *)
Definition knows (fh : FieldHelper) (f : string) : Prop := is_Some (fieldToRegister fh !! f).

Lemma knows_schema fh fh' f : same_schema fh' fh → knows fh f → knows fh' f.
Proof. intros (_ & _ & He). unfold knows. by rewrite He. Qed.

(** One write, as a rewriting step on reads. *)
Lemma get_set fh f v g :
  wf fh → knows fh f → knows fh g →
  Get_field (Set_field fh f v None None).2 g None None =
    if bool_decide (g = f) then fit fh f (ToInt64 v) else Get_field fh g None None.
Proof.
  intros Hw [r Hr] [rg Hg]. case_bool_decide as He; [subst g; by eapply Get_Set_field|].
  by eapply Get_Set_other.
Qed.

Lemma set_wf fh f v : wf fh → wf (Set_field fh f v None None).2.
Proof. apply wf_schema, Set_field_schema. Qed.

Lemma set_knows fh f v g : knows fh g → knows (Set_field fh f v None None).2 g.
Proof. apply knows_schema, Set_field_schema. Qed.

Lemma clamp31_range z : 0 ≤ clamp31 z ≤ 31.
Proof. unfold clamp31. lia. Qed.

Lemma tmc_calcCurrent_range sense run hold :
  let '(_, irun, ihold) := tmc_calcCurrent sense run hold in 0 ≤ irun ≤ 31 ∧ 0 ≤ ihold ≤ 31.
Proof.
  unfold tmc_calcCurrent, choose_range.
  repeat (case_match; simpl); simplify_eq; split; apply clamp31_range.
Qed.

(** The five-bit current fields and the one-bit range field of a chip. *)
Definition current_fields (fh : FieldHelper) : Prop :=
  knows fh "irun" ∧ knows fh "ihold" ∧ knows fh "vsense" ∧
  (∀ v, 0 ≤ v ≤ 31 → fit fh "irun" v = v ∧ fit fh "ihold" v = v) ∧
  (∀ v, 0 ≤ v ≤ 1 → fit fh "vsense" v = v).

Lemma chip_current_fields c t fmts sets :
  t ≡ₚ chip_fields c → c = TMC2130 ∨ c = TMC2208 ∨ c = TMC2209 →
  current_fields (set_all sets (NewFieldHelper t (chip_signed c) fmts None)).
Proof.
  intros Hp Hc.
  assert (H1 : field_ok c "irun" 31 = true ∧ field_ok c "ihold" 31 = true ∧ field_ok c "vsense" 1 = true)
    by (destruct Hc as [->|[->| ->]]; vm_compute; done).
  destruct H1 as (H1 & H2 & H3).
  pose proof (field_ok_fit c t fmts sets _ _ Hp H1) as [? ?].
  pose proof (field_ok_fit c t fmts sets _ _ Hp H2) as [? ?].
  pose proof (field_ok_fit c t fmts sets _ _ Hp H3) as [? ?].
  split_and!; auto.
Qed.

(** A one-bit field reads 0 or 1. *)
Lemma bit_field fh f : wf fh → knows fh f → (∀ v, fit fh f v = v mod 2) →
  Get_field fh f None None = Z.b2z (ToBool_int (Get_field fh f None None)).
Proof.
  intros Hw [r Hr] Hfit. pose proof (Get_field_fit fh f r Hw Hr) as Hg. rewrite Hfit in Hg.
  unfold ToBool_int. case_bool_decide as Hb; [by rewrite Hb|].
  pose proof (Z.mod_pos_bound (Get_field fh f None None) 2 ltac:(lia)). simpl. lia.
Qed.

(** [tmc_Set_current] on the cached fields. *)
Lemma tmc_Set_current_run `{HwLaws E} fh (e : E) sense run hold pt :
  wf fh → current_fields fh → (∀ v, fit fh "vsense" v = v mod 2) →
  (∀ r v e, ∃ e', Set_register r v (Some pt) e = (Ret None, e')) →
  let '(vsense, irun, ihold) := tmc_calcCurrent sense run hold in
  ∃ fh' e', tmc_Set_current sense run hold pt (fh, e) = (Ret tt, (fh', e')) ∧
    Get_field fh' "irun" None None = irun ∧ Get_field fh' "ihold" None None = ihold ∧
    Get_field fh' "vsense" None None = Z.b2z vsense ∧ same_schema fh' fh ∧
    hwreg e' "IHOLD_IRUN" = registers fh' !! register_of fh "irun".
Proof.
  intros Hw (Hir & Hih & Hvs & Hfit & Hfitv) Hbit Hok.
  pose proof (tmc_calcCurrent_range sense run hold) as Hrange. unfold tmc_Set_current.
  destruct (tmc_calcCurrent sense run hold) as [[vsense irun] ihold]. destruct Hrange as [Hr1 Hr2].
  run_step.
  assert (Hvs1 : ∃ fh1 e1, (if negb (Bool.eqb vsense (ToBool_int (Get_field fh "vsense" None None))) then
      val ← set_field "vsense" (ABool vsense);
      _ ← on_hw (Set_register "CHOPCONF" val (Some pt)); mret tt
    else mret tt) (fh, e) = (Ret tt, (fh1, e1)) ∧ wf fh1 ∧ same_schema fh1 fh ∧
    Get_field fh1 "vsense" None None = Z.b2z vsense).
  { destruct (Bool.eqb vsense _) eqn:Heq; simpl.
    - exists fh, e. apply eqb_prop in Heq. split_and!; try done. rewrite Heq. by apply bit_field.
    - run_step. destruct (Hok "CHOPCONF" (Set_field fh "vsense" (ABool vsense) None None).1 e) as [e1 He1].
      exists (Set_field fh "vsense" (ABool vsense) None None).2, e1.
      split_and!; [|by apply set_wf|apply Set_field_schema|].
      + by erewrite M_bind_eq; [|apply run_on_hw, He1].
      + rewrite get_set, bool_decide_true by done. destruct vsense; apply Hfitv; simpl; lia. }
  destruct Hvs1 as (fh1 & e1 & Hrun & Hw1 & Hsch & Hv). erewrite M_bind_eq; [|exact Hrun].
  assert (knows fh1 "irun" ∧ knows fh1 "ihold" ∧ knows fh1 "vsense") as (? & ? & ?)
    by (split_and!; by eapply knows_schema).
  do 2 run_step. set (fh2 := (Set_field fh1 "ihold" (AInt ihold) None None).2).
  assert (Hsch2 : same_schema fh2 fh) by (etrans; [apply Set_field_schema|done]).
  destruct (Hok "IHOLD_IRUN" (Set_field fh2 "irun" (AInt irun) None None).1 e1) as [e2 He2].
  exists (Set_field fh2 "irun" (AInt irun) None None).2, e2. split; [by erewrite M_bind_eq; [|apply run_on_hw, He2]|].
  assert (wf fh2) by (by apply set_wf).
  assert (knows fh2 "irun" ∧ knows fh2 "ihold" ∧ knows fh2 "vsense") as (Hk2 & ? & ?)
    by (split_and!; by eapply knows_schema).
  split_and!.
  - rewrite get_set, bool_decide_true by done. rewrite (schema_fit _ _ _ _ Hsch2). by apply Hfit.
  - rewrite get_set, bool_decide_false by done. unfold fh2. rewrite get_set, bool_decide_true by done.
    rewrite (schema_fit _ _ _ _ Hsch). by apply Hfit.
  - rewrite get_set, bool_decide_false by done. unfold fh2. by rewrite get_set, bool_decide_false by done.
  - etrans; [apply Set_field_schema|done].
  - apply hw_set in He2 as [-> _]. destruct Hk2 as [r Hr].
    pose proof (Set_field_register fh2 "irun" (AInt irun) r Hr) as Hreg.
    rewrite <- (schema_register_of _ _ "irun" Hsch2), (register_of_lookup _ _ _ Hr).
    destruct (Set_field fh2 "irun" (AInt irun) None None) as [x fh3]. destruct Hreg as [Hreg _].
    simpl. by rewrite Hreg, lookup_insert_eq.
Qed.

(** Setting the current of a TMC2130, TMC2208 or TMC2209 computes current scales
    between 0 and 31, stores them and the sense range in the fields, and writes the
    cached IHOLD_IRUN register to the chip. *)
Theorem tmc_Set_current_effect `{HwLaws E} (c : chip) (t : fieldTable) fmts (sets : list (string * any))
    (sense run hold pt : f64) (e : E) :
  t ≡ₚ chip_fields c → c = TMC2130 ∨ c = TMC2208 ∨ c = TMC2209 →
  (∀ r v e, ∃ e', Set_register r v (Some pt) e = (Ret None, e')) →
  let fh := set_all sets (NewFieldHelper t (chip_signed c) fmts None) in
  let '(vsense, irun, ihold) := tmc_calcCurrent sense run hold in
  0 ≤ irun ≤ 31 ∧ 0 ≤ ihold ≤ 31 ∧
  ∃ fh' e', tmc_Set_current sense run hold pt (fh, e) = (Ret tt, (fh', e')) ∧
    Get_field fh' "irun" None None = irun ∧ Get_field fh' "ihold" None None = ihold ∧
    Get_field fh' "vsense" None None = Z.b2z vsense ∧
    hwreg e' "IHOLD_IRUN" = registers fh' !! "IHOLD_IRUN".
Proof.
  intros Hp Hc Hok fh. destruct (chip_helper_inv c t fmts sets Hp) as [Hw _]. fold fh in Hw.
  pose proof (chip_current_fields c t fmts sets Hp Hc) as Hcur. fold fh in Hcur.
  assert (Hone : length (owners (chip_fields c) "vsense") = 1%nat ∧ length (owners (chip_fields c) "irun") = 1%nat)
    by (destruct Hc as [->|[->| ->]]; vm_compute; done).
  destruct (chip_field_same c t fmts sets "vsense" Hp (proj1 Hone)) as (_ & Hsg & Hr & Hm).
  destruct (chip_field_same c t fmts sets "irun" Hp (proj2 Hone)) as (_ & _ & Hir & _). fold fh in Hsg, Hr, Hm, Hir.
  assert (Hbit : ∀ v, fit fh "vsense" v = v mod 2).
  { intros v. unfold fit. rewrite Hsg, Hr, Hm.
    destruct Hc as [->|[->| ->]]; (rewrite bool_decide_false by by_decide);
      change 2 with (2 ^ 1); do 2 f_equal; vm_compute; reflexivity. }
  pose proof (tmc_Set_current_run fh e sense run hold pt Hw Hcur Hbit Hok) as Hrun.
  pose proof (tmc_calcCurrent_range sense run hold) as Hrange.
  destruct (tmc_calcCurrent sense run hold) as [[vsense irun] ihold].
  destruct Hrun as (fh' & e' & Hrun & ? & ? & ? & _ & Hhw). destruct Hrange. split_and!; try lia.
  exists fh', e'. split_and!; try done. rewrite Hhw, Hir. destruct Hc as [->|[->| ->]]; reflexivity.
Qed.

Lemma tmc_Set_current_effect_witness :
  let fh := set_all [("iholddelay", AInt 8)] (NewFieldHelper TMC2209Fields (chip_signed TMC2209) ∅ None) in
  ∃ fh' e', tmc_Set_current (f_lit 110 1000) (f_lit 8 10) (f_lit 5 10) f1 (fh, (∅ : gmap string Z)) = (Ret tt, (fh', e')) ∧
    Get_field fh' "irun" None None = 25 ∧ hwreg e' "IHOLD_IRUN" = registers fh' !! "IHOLD_IRUN".
Proof.
  intros fh.
  pose proof (tmc_Set_current_effect TMC2209 TMC2209Fields ∅ [("iholddelay", AInt 8)] (f_lit 110 1000)
    (f_lit 8 10) (f_lit 5 10) f1 (∅ : gmap string Z) ltac:(reflexivity) ltac:(auto) ltac:(intros; eauto)) as Hc.
  cbv zeta in Hc. fold fh in Hc.
  assert (Hi : tmc_calcCurrent (f_lit 110 1000) (f_lit 8 10) (f_lit 5 10) = (true, 25, 15)) by (vm_compute; reflexivity).
  rewrite Hi in Hc. destruct Hc as (_ & _ & fh' & e' & H1 & H2 & _ & _ & H3). exists fh', e'.
  exact (conj H1 (conj H2 H3)).
Defined.

(** ** Currents of the other chips *)

(** Setting the current of a TMC2240 writes the run scale alone to IHOLD_IRUN, where it
    is the hold scale with a run scale of zero, and leaves the cached irun field
    unchanged. *)
Theorem tmc2240_Set_current_loses_irun `{RegisterAccess E} (fh : FieldHelper) (e : E) (rref run hold pt : f64)
    (gscaler irun ihold : Z) :
  (t2240_calcCurrent rref run hold (fh, e)) = (Ret (gscaler, irun, ihold), (fh, e)) →
  (∀ r v e, ∃ e', Set_register r v (Some pt) e = (Ret None, e')) →
  0 ≤ irun ≤ 31 ∧
  ∃ fh' e1 e2, t2240_Set_current rref run hold pt (fh, e) = (Ret tt, (fh', e2)) ∧
    Set_register "IHOLD_IRUN" irun (Some pt) e1 = (Ret None, e2) ∧
    Get_field (chip_helper TMC2240) "ihold" (Some irun) None = irun ∧
    Get_field (chip_helper TMC2240) "irun" (Some irun) None = 0 ∧
    (wf fh → knows fh "globalscaler" → knows fh "ihold" → knows fh "irun" →
       Get_field fh' "irun" None None = Get_field fh "irun" None None).
Proof.
  intros Hcalc Hok.
  assert (Hir : 0 ≤ irun ≤ 31).
  { unfold t2240_calcCurrent in Hcalc. apply M_bind_inv in Hcalc as (g & s1 & _ & Hcalc).
    apply M_bind_inv in Hcalc as (i & s2 & Hi & Hcalc). apply M_bind_inv in Hcalc as (h & s3 & _ & Hcalc).
    injection Hcalc as -> -> -> _. unfold t2240_calcCurrentBits in Hi.
    apply M_bind_inv in Hi as (k & s4 & _ & Hi). injection Hi as <- _. apply clamp31_range. }
  split; [done|].
  set (fh1 := (Set_field fh "globalscaler" (AInt gscaler) None None).2).
  set (fh2 := (Set_field fh1 "ihold" (AInt ihold) None None).2).
  destruct (Hok "GLOBALSCALER" gscaler e) as [e1 He1]. destruct (Hok "IHOLD_IRUN" irun e1) as [e2 He2].
  exists fh2, e1, e2. split_and!; [|exact He2| | |].
  - unfold t2240_Set_current. erewrite M_bind_eq; [|exact Hcalc]. cbv beta iota. run_step.
    erewrite M_bind_eq; [|apply run_on_hw, He1]. run_step. by erewrite M_bind_eq; [|apply run_on_hw, He2].
  - apply Z.eqb_eq.
    by_evaluation 32%nat (λ i, Get_field (chip_helper TMC2240) "ihold" (Some i) None =? i) irun.
  - apply Z.eqb_eq.
    by_evaluation 32%nat (λ i, Get_field (chip_helper TMC2240) "irun" (Some i) None =? 0) irun.
  - intros Hw Hg Hih Hiu. unfold fh2. rewrite get_set, bool_decide_false; [|done|by apply set_wf|by apply set_knows..].
    unfold fh1. by rewrite get_set, bool_decide_false.
Qed.

Definition demo_2240 : FieldHelper :=
  set_all [("current_range", AInt 1); ("irun", AInt 20)] (chip_helper TMC2240).

Lemma tmc2240_Set_current_loses_irun_witness :
  ∃ fh' e1 e2, t2240_Set_current (f_of_Z 12000) f1 (f_lit 5 10) f1 (demo_2240, (∅ : gmap string Z)) = (Ret tt, (fh', e2)) ∧
    Set_register "IHOLD_IRUN" 31 (Some f1) (e1 : gmap string Z) = (Ret None, e2) ∧
    Get_field fh' "irun" None None = 20.
Proof.
  assert (Hc : (t2240_calcCurrent (f_of_Z 12000) f1 (f_lit 5 10) (demo_2240, (∅ : gmap string Z))) =
    (Ret (181, 31, 15), (demo_2240, ∅))) by (vm_compute; reflexivity).
  destruct (tmc2240_Set_current_loses_irun demo_2240 (∅ : gmap string Z) (f_of_Z 12000) f1 (f_lit 5 10) f1
    181 31 15 Hc ltac:(intros; eauto)) as (_ & fh' & e1 & e2 & H1 & H2 & _ & _ & H3).
  exists fh', e1, e2. split_and!; [exact H1|exact H2|].
  rewrite H3; [vm_compute; reflexivity|..|vm_compute; eauto|vm_compute; eauto|vm_compute; eauto].
  apply (chip_helper_inv TMC2240 (chip_fields TMC2240) ∅ [("current_range", AInt 1); ("irun", AInt 20)]). reflexivity.
Defined.

(** The current reported for a TMC5160 does not depend on its registers: the fields are
    read out of the value 0. *)
Theorem tmc5160_Get_current_constant {E} (c : chip) t fmts sets (sense req : f64) (e : E) :
  t ≡ₚ chip_fields c → c = TMC5160 →
  let fh := set_all sets (NewFieldHelper t (chip_signed c) fmts None) in
  t5160_Get_current sense req (fh, e) =
    (Ret (let amps := fdiv (fmul (f_of_Z 256) TMC5160VREF)
            (fmul (fmul (fmul (f_of_Z 256) (f_of_Z 32)) sqrt2) sense) in
          [amps; amps; req; MaxCurrent]), (fh, e)).
Proof.
  intros Hp -> fh. destruct (chip_helper_inv TMC5160 t fmts sets Hp) as [Hw _]. fold fh in Hw.
  assert (H0 : ∀ f, f ∈ ["globalscaler"; "irun"; "ihold"] → Get_field fh f (Some 0) None = 0).
  { intros f Hf. assert (Hone : length (owners (chip_fields TMC5160) f) = 1%nat).
    { rewrite !elem_of_cons, elem_of_nil in Hf. destruct Hf as [->|[->|[->|[]]]]; vm_compute; reflexivity. }
    destruct (chip_field_same TMC5160 t fmts sets f Hp Hone) as ([r Hr] & _). by eapply Get_field_0. }
  assert (Hk : fmul (f_of_Z 256) (fadd (f_of_Z 0) f1) = f_of_Z 256) by (vm_compute; reflexivity).
  assert (Hf : ∀ f, f ∈ ["irun"; "ihold"] → t5160_calcCurrentFromField sense f (fh, e) =
    (Ret (fdiv (fmul (f_of_Z 256) TMC5160VREF) (fmul (fmul (fmul (f_of_Z 256) (f_of_Z 32)) sqrt2) sense)), (fh, e))).
  { intros f Hin. unfold t5160_calcCurrentFromField. do 2 run_step. rewrite !H0 by set_solver.
    change (feq (f_of_Z 0) f0) with true. cbv iota zeta. rewrite Hk. reflexivity. }
  unfold t5160_Get_current. erewrite M_bind_eq; [|apply Hf; set_solver].
  erewrite M_bind_eq; [|apply Hf; set_solver]. reflexivity.
Qed.

Lemma tmc5160_Get_current_constant_witness :
  let fh := set_all [("irun", AInt 31); ("globalscaler", AInt 40)] (NewFieldHelper TMC5160Fields (chip_signed TMC5160) ∅ None) in
  let fh0 := set_all [] (NewFieldHelper TMC5160Fields (chip_signed TMC5160) ∅ None) in
  (t5160_Get_current (f_lit 75 1000) f1 (fh, tt)).1 = (t5160_Get_current (f_lit 75 1000) f1 (fh0, tt)).1.
Proof.
  intros fh fh0. unfold fh, fh0.
  rewrite (tmc5160_Get_current_constant TMC5160 TMC5160Fields ∅ [("irun", AInt 31); ("globalscaler", AInt 40)]
    _ _ tt (reflexivity _) eq_refl).
  by rewrite (tmc5160_Get_current_constant TMC5160 TMC5160Fields ∅ [] _ _ tt (reflexivity _) eq_refl).
Defined.


(** When a TMC2660 current needs the high sense range, updateCurrent writes SGCSCONF
    only: the range field is never changed to it. *)
Theorem tmc2660_updateCurrent_keeps_range `{RegisterAccess E} (t : fieldTable) fmts sets (sense current pt : f64) (e : E) :
  t ≡ₚ chip_fields TMC2660 →
  (t2660_calcCurrent sense current).1 = false →
  (∀ r v e, ∃ e', Set_register r v (Some pt) e = (Ret None, e')) →
  let fh := set_all sets (NewFieldHelper t (chip_signed TMC2660) fmts None) in
  ∃ fh' v e', updateCurrent sense current pt (fh, e) = (Ret tt, (fh', e')) ∧
    Set_register "SGCSCONF" v (Some pt) e = (Ret None, e') ∧
    Get_field fh' "vsense" None None = Get_field fh "vsense" None None.
Proof.
  intros Hp Hv Hok fh. destruct (chip_helper_inv TMC2660 t fmts sets Hp) as [Hw _]. fold fh in Hw.
  unfold updateCurrent. destruct (t2660_calcCurrent sense current) as [vsense cs]. simpl in Hv. subst vsense.
  assert (Hk : knows fh "cs" ∧ knows fh "vsense").
  { split; apply (chip_field_same TMC2660 t fmts sets); (done || (vm_compute; reflexivity)). }
  destruct Hk as [Hkc Hkv]. run_step. set (fh1 := (Set_field fh "cs" (AFloat cs) None None).2).
  destruct (Hok "SGCSCONF" (Set_field fh "cs" (AFloat cs) None None).1 e) as [e1 He1].
  erewrite M_bind_eq; [|apply run_on_hw, He1]. run_step.
  assert (Hz : Get_field fh1 "vsense" (Some 0) None = 0).
  { destruct (set_knows fh "cs" (AFloat cs) _ Hkv) as [r Hr]. eapply Get_field_0; [by apply set_wf|exact Hr]. }
  rewrite Hz. change (negb (Bool.eqb false (ToBool_int 0))) with false. cbv iota.
  exists fh1, (Set_field fh "cs" (AFloat cs) None None).1, e1. split_and!; [reflexivity|exact He1|].
  unfold fh1. by rewrite get_set, bool_decide_false.
Qed.

Lemma tmc2660_updateCurrent_keeps_range_witness :
  let fh := set_all [("vsense", AInt 1)] (NewFieldHelper TMC2660Fields (chip_signed TMC2660) ∅ None) in
  ∃ fh' v e', updateCurrent (f_lit 100 1000) (f_lit 24 10) f1 (fh, (∅ : gmap string Z)) = (Ret tt, (fh', e')) ∧
    Set_register "SGCSCONF" v (Some f1) (∅ : gmap string Z) = (Ret None, e') ∧
    Get_field fh' "vsense" None None = Get_field fh "vsense" None None.
Proof.
  apply (tmc2660_updateCurrent_keeps_range TMC2660Fields ∅ [("vsense", AInt 1)]);
    [reflexivity|vm_compute; reflexivity|intros; eauto].
Defined.

(** ** The phase offset *)

Lemma PyMod_mod a b : 0 < b → PyMod a b = a mod b.
Proof.
  intros Hb. unfold PyMod. pose proof (Z.rem_bound_abs a b ltac:(lia)).
  rewrite (Z.rem_mod_nonneg (Z.rem a b + b)) by lia.
  pose proof (Z.quot_rem' a b) as Hq.
  replace (Z.rem a b + b) with (a + (1 - Z.quot a b) * b) by lia. by rewrite Z_mod_plus_full.
Qed.

(** The driver's phase scaled to the micro-controller's, computed in floating
    point, is the rounded quotient: every step is exact. *)
Lemma phase_scaled dp mres :
  0 ≤ dp < 1024 → 0 ≤ mres < 9 →
  let phases := Z.shiftr 256 mres * 4 in
  f_trunc (fadd (fmul (fdiv (f_of_Z dp) (f_of_Z 1024)) (f_of_Z phases)) (f_lit 1 2)) = (dp * phases + 512) / 1024.
Proof.
  intros Hd Hm. apply Z.eqb_eq.
  assert (Hall : all_below 9 (λ mres, all_below 1024 (λ dp,
    let phases := Z.shiftr 256 mres * 4 in
    f_trunc (fadd (fmul (fdiv (f_of_Z dp) (f_of_Z 1024)) (f_of_Z phases)) (f_lit 1 2)) =? (dp * phases + 512) / 1024)) = true)
    by (vm_compute; reflexivity).
  apply (all_below_spec _ _ mres) in Hall; [|lia]. cbv beta in Hall.
  apply (all_below_spec _ _ dp) in Hall; [|lia]. exact Hall.
Qed.

(** For a driver phase below 1024 and any valid microstep setting, the floating point
    phase offset equals the exact integer formula, and lies between 0 and the number of
    phases. *)
Theorem phase_offset_exact (driverPhase mres pos : Z) (inverted : bool) :
  0 ≤ driverPhase < 1024 → 0 ≤ mres ≤ 8 →
  let phases := Z.shiftr 256 mres * 4 in
  let dp := if inverted then 1023 - driverPhase else driverPhase in
  phase_offset driverPhase inverted phases pos = ((dp * phases + 512) / 1024 - pos) mod phases ∧
  0 ≤ phase_offset driverPhase inverted phases pos < phases.
Proof.
  intros Hd Hm phases dp.
  assert (Hph : 0 < phases).
  { unfold phases. assert (0 < Z.shiftr 256 mres); [|lia]. rewrite Z.shiftr_div_pow2 by lia.
    apply Z.div_str_pos. split; [lia|]. change 256 with (2 ^ 8). apply Z.pow_le_mono_r; lia. }
  assert (He : phase_offset driverPhase inverted phases pos = ((dp * phases + 512) / 1024 - pos) mod phases).
  { unfold phase_offset. fold dp. rewrite !PyMod_mod by done. unfold phases at 1 2.
    rewrite phase_scaled by (unfold dp; destruct inverted; lia). fold phases.
    by rewrite Zminus_mod_idemp_l. }
  split; [done|]. rewrite He. by apply Z.mod_pos_bound.
Qed.

Lemma phase_offset_exact_witness : phase_offset 1000 true (Z.shiftr 256 4 * 4) 70 = 59.
Proof.
  rewrite (proj1 (phase_offset_exact 1000 4 70 true ltac:(lia) ltac:(lia))). reflexivity.
Defined.
