(* ===== verification/TmcFormat.v ===== *)
(** * Showing registers

    The field formatters of the chips
    ([src/internal/pkg/tmc/tmc2130_defs.go], [tmc2208_2209_defs.go],
    [tmc2240_defs.go], [tmc2660_5160_defs.go]) and the register dumps of
    [command_helper_core.go] and [driver_modules.go].  The formatters are
    always called with an [int64]. *)

From S2P Require Import Prelude GoFloat GoStrings GoState TmcFields TmcFieldsThy TmcDefs TmcDefsThy TmcBus TmcDriver.

(** ** Formatters *)

(** [==] between interface values: the dynamic types have to agree. *)
Definition iface_eq (a b : any) : bool :=
  match a, b with
  | ANil, ANil => true
  | AInt x, AInt y | AInt64 x, AInt64 y => bool_decide (x = y)
  | ABool x, ABool y => Bool.eqb x y
  | AFloat x, AFloat y => feq x y
  | AStr x, AStr y => bool_decide (x = y)
  | _, _ => false
  end.

(** [if value.True(v) { return on }; return off]. *)
Definition flag (on off : string) (v : Z) : go string := Ret (if is_True (AInt64 v) then on else off).
Definition number (off : string) (v : Z) : go string := Ret (if is_True (AInt64 v) then Itoa v else off).
Definition blank (v : Z) : go string := Ret EmptyString.

(** [if value.True(v != 1) { return fmt.Sprintf("name(%v)", v) }]. *)
Definition not_one (name : string) (v : Z) : go string :=
  Ret (if is_True (ABool (negb (iface_eq (AInt64 v) (AInt 1)))) then (name ++ "(" ++ Itoa v ++ ")")%string
       else EmptyString).

(** [%#x]. *)
Definition fmt_version (v : Z) : go string :=
  Ret (if v <? 0 then ("-0x" ++ hex (Z.abs v))%string else ("0x" ++ hex v)%string).

Definition fmt_mres (v : Z) : go string :=
  let i := ToInt (AInt64 v) in
  if bool_decide (i < 0) then Panic "negative shift amount"
  else Ret (Itoa v ++ "(" ++ Itoa (Z.shiftr 0x100 i) ++ "usteps)")%string.

Definition fmt_sel_a (v : Z) : go string :=
  let i := ToInt (AInt64 v) in
  s ← ["TMC222x"; "TMC220x"].[i];
  Ret (Itoa i ++ "(" ++ s ++ ")")%string.

(** The tenths of a float, to the nearest, ties to even. *)
Definition tenths (x : f64) : Z :=
  match x with
  | SpecFloat.S754_finite _ m e =>
      if 0 <=? e then Z.pos m * 2 ^ e * 10
      else let q := Z.pos m * 10 / 2 ^ (- e) in
           let r := Z.pos m * 10 mod 2 ^ (- e) in
           if (2 ^ (- e) <? 2 * r) || ((2 ^ (- e) =? 2 * r) && Z.odd q) then q + 1 else q
  | _ => 0
  end.

(** [%.1f] of a finite number. *)
Definition fmt_1f (x : f64) : string :=
  let t := tenths x in
  ((if signbit x then "-" else EmptyString) ++ Itoa (t / 10) ++ "." ++ Itoa (t mod 10))%string.

Definition fmt_adc_temp (v : Z) : go string :=
  Ret ("0x" ++ fmt_0x 4 v ++ "(" ++ fmt_1f (fdiv (f_of_Z (i64 (v - 2038))) (f_lit 77 10)) ++ "C)")%string.

Definition TMC2130FieldFormatters : list (string * (Z → go string)) := [
    ("i_scale_analog", flag "1(ExtVREF)" EmptyString); ("shaft", flag "1(Reverse)" EmptyString);
    ("reset", flag "1(Reset)" EmptyString); ("drv_err", flag "1(ErrorShutdown!)" EmptyString);
    ("uv_cp", flag "1(Undervoltage!)" EmptyString); ("version", fmt_version); ("mres", fmt_mres);
    ("otpw", flag "1(OvertempWarning!)" EmptyString); ("ot", flag "1(OvertempError!)" EmptyString);
    ("s2ga", flag "1(ShortToGND_A!)" EmptyString); ("s2gb", flag "1(ShortToGND_B!)" EmptyString);
    ("ola", flag "1(OpenLoad_A!)" EmptyString); ("olb", flag "1(OpenLoad_B!)" EmptyString);
    ("cs_actual", number "0(Reset?)")
  ].

Definition TMC2208FieldFormatters : list (string * (Z → go string)) := [
    ("i_scale_analog", flag "1(ExtVREF)" EmptyString); ("shaft", flag "1(Reverse)" EmptyString);
    ("reset", flag "1(Reset)" EmptyString); ("drv_err", flag "1(ErrorShutdown!)" EmptyString);
    ("uv_cp", flag "1(Undervoltage!)" EmptyString); ("version", fmt_version); ("mres", fmt_mres);
    ("otpw", flag "1(OvertempWarning!)" EmptyString); ("ot", flag "1(OvertempError!)" EmptyString);
    ("s2ga", flag "1(ShortToGND_A!)" EmptyString); ("s2gb", flag "1(ShortToGND_B!)" EmptyString);
    ("ola", flag "1(OpenLoad_A!)" EmptyString); ("olb", flag "1(OpenLoad_B!)" EmptyString);
    ("cs_actual", blank); ("t120", flag "1(Overtemp 120°)" EmptyString);
    ("t143", flag "1(Overtemp 143°)" EmptyString); ("t150", flag "1(Overtemp 150°)" EmptyString);
    ("t157", flag "1(Overtemp 157°)" EmptyString); ("sel_a", fmt_sel_a);
    ("s2vsa", flag "1(LowSideShort_A!)" EmptyString); ("s2vsb", flag "1(LowSideShort_B!)" EmptyString);
    ("stealth", not_one "stealth"); ("stst", not_one "stst")
  ].

Definition TMC2240FieldFormatters : list (string * (Z → go string)) := [
    ("s2vsa", flag "1(ShortToSupply_A!)" EmptyString); ("s2vsb", flag "1(ShortToSupply_B!)" EmptyString);
    ("adc_temp", fmt_adc_temp)
  ].

Definition TMC2660FieldFormatters : list (string * (Z → go string)) := [
    ("i_scale_analog", flag "1(ExtVREF)" EmptyString); ("shaft", flag "1(Reverse)" EmptyString);
    ("reset", flag "1(Reset)" EmptyString); ("drv_err", flag "1(ErrorShutdown!)" EmptyString);
    ("uv_cp", flag "1(Undervoltage!)" EmptyString); ("version", fmt_version); ("mres", fmt_mres);
    ("otpw", flag "1(OvertempWarning!)" EmptyString); ("ot", flag "1(OvertempError!)" EmptyString);
    ("s2ga", flag "1(ShortToGND_A!)" EmptyString); ("s2gb", flag "1(ShortToGND_B!)" EmptyString);
    ("ola", flag "1(OpenLoad_A!)" EmptyString); ("olb", flag "1(OpenLoad_B!)" EmptyString);
    ("cs_actual", number "0(Reset?)"); ("chm", flag "1(constant toff)" "0(spreadCycle)");
    ("vsense", flag "1(165mV)" "0(305mV)"); ("sdoff", flag "1(Step/Dir disabled!)" EmptyString);
    ("diss2g", flag "1(Short to GND disabled!)" EmptyString); ("se", number "0(Reset?)")
  ].

Definition TMC5160FieldFormatters : list (string * (Z → go string)) := [
    ("i_scale_analog", flag "1(ExtVREF)" EmptyString); ("shaft", flag "1(Reverse)" EmptyString);
    ("reset", flag "1(Reset)" EmptyString); ("drv_err", flag "1(ErrorShutdown!)" EmptyString);
    ("uv_cp", flag "1(Undervoltage!)" EmptyString); ("version", fmt_version); ("mres", fmt_mres);
    ("otpw", flag "1(OvertempWarning!)" EmptyString); ("ot", flag "1(OvertempError!)" EmptyString);
    ("s2ga", flag "1(ShortToGND_A!)" EmptyString); ("s2gb", flag "1(ShortToGND_B!)" EmptyString);
    ("ola", flag "1(OpenLoad_A!)" EmptyString); ("olb", flag "1(OpenLoad_B!)" EmptyString);
    ("cs_actual", number "0(Reset?)"); ("s2vsa", flag "1(ShortToSupply_A!)" EmptyString);
    ("s2vsb", flag "1(ShortToSupply_B!)" EmptyString)
  ].

Definition TMC2209FieldFormatters : list (string * (Z → go string)) := TMC2208FieldFormatters.

(** ** Register dumps *)

Definition readTranslate : Type := string → Z → string * Z.

Definition tmc2208ReadTranslate (fh : FieldHelper) : readTranslate := λ regName val,
  if bool_decide (regName = "IOIN") then
    (if bool_decide (Get_field fh "sel_a" (Some val) None = 0) then "IOIN@TMC222x" else "IOIN@TMC220x", val)
  else (regName, val).

Section Dump.
Context `{RegisterAccess E}.
Variables (readRegisters : list string) (translate : option readTranslate).

Definition translated (regName : string) (val : Z) : string * Z :=
  match translate with Some f => f regName val | None => (regName, val) end.

Definition DumpRegister (regName : string) : M (FieldHelper * E) (string + string) :=
  fh ← fields;
  let hasRegName := bool_decide (regName ∈ readRegisters) in
  match registers fh !! regName, hasRegName with
  | Some val, false => line ← lift (Pretty_format fh regName val); mret (inr line)
  | _, true =>
      r ← on_hw (Get_register regName);
      match r with
      | inl err => mret (inl err)
      | inr v => let '(regName, v) := translated regName v in
                 line ← lift (Pretty_format fh regName v); mret (inr line)
      end
  | None, false => mret (inl ("Unknown register name '" ++ regName ++ "'")%string)
  end.

Fixpoint dump_written (fh : FieldHelper) (names : list string) : go (list string) :=
  match names with
  | [] => Ret []
  | regName :: names =>
      if bool_decide (regName ∈ readRegisters) then dump_written fh names
      else line ← Pretty_format fh regName (reg_value fh regName);
           lines ← dump_written fh names; Ret (line :: lines)
  end.

Fixpoint dump_queried (names : list string) (lines : list string) : M (FieldHelper * E) (string + list string) :=
  match names with
  | [] => mret (inr lines)
  | regName :: names =>
      fh ← fields;
      r ← on_hw (Get_register regName);
      match r with
      | inl err => mret (inl err)
      | inr v => let '(regName, v) := translated regName v in
                 line ← lift (Pretty_format fh regName v);
                 dump_queried names (lines ++ [line])
      end
  end.

Definition DumpAllRegisters : M (FieldHelper * E) (string + list string) :=
  fh ← fields;
  written ← lift (dump_written fh (orderedRegisterNames fh));
  dump_queried readRegisters
    (["========== Write-only registers =========="] ++ written ++ ["========== Queried registers =========="]).
End Dump.

(** ** Showing a register never fails *)

Definition chip_formatters (c : chip) : list (string * (Z → go string)) :=
  match c with
  | TMC2130 => TMC2130FieldFormatters | TMC2208 => TMC2208FieldFormatters | TMC2209 => TMC2209FieldFormatters
  | TMC2240 => TMC2240FieldFormatters | TMC2660 => TMC2660FieldFormatters | TMC5160 => TMC5160FieldFormatters
  end.

(** A formatter that can be applied to the values of its field: the two partial
    ones to what they accept. *)
Definition formatter_ok (e : string * (Z → go string)) : Prop :=
  e = ("mres", fmt_mres) ∨ e = ("sel_a", fmt_sel_a) ∨ ∀ v, returns (e.2 v) = true.

Lemma chip_formatters_ok c : Forall formatter_ok (chip_formatters c).
Proof.
  destruct c; cbn [chip_formatters]; unfold TMC2209FieldFormatters;
    repeat first [apply Forall_nil; exact I | apply Forall_cons; split].
  all: first [left; reflexivity | right; left; reflexivity | right; right; intros v; reflexivity].
Qed.

(** The microstep field is unsigned and [sel_a] one bit wide, wherever they occur. *)
Definition shown_field_ok (signed : list string) (e : string * Z) : bool :=
  if bool_decide (e.1 ∈ ["mres"; "sel_a"]) then
    bool_decide (e.1 ∉ signed) && mask_ok e.2 && (bool_decide (e.1 = "mres") || (bits_Len e.2 - ffs e.2 =? 1))
  else true.

Lemma chip_shown_ok c :
  forallb (λ e, forallb (shown_field_ok (chip_signed c)) e.2) (chip_fields c) = true.
Proof. destruct c; vm_compute; reflexivity. Qed.

Lemma set_all_formatters sets fh : fieldFormatters (set_all sets fh) = fieldFormatters fh.
Proof.
  unfold set_all. apply (fold_left_inv (λ h, fieldFormatters h = fieldFormatters fh)); [|done].
  intros h [f v] <-. simpl. unfold trackRegister. by case_bool_decide.
Qed.

(** The masks of a register are the table's. *)
Lemma table_lookup t signed fmts regs r f :
  is_Some (default ∅ (allFields (NewFieldHelper t signed fmts regs) !! r) !! f) →
  ∃ fs m, (r, fs) ∈ t ∧ (f, m) ∈ fs ∧ mask_of (NewFieldHelper t signed fmts regs) r f = m.
Proof.
  unfold mask_of, NewFieldHelper. simpl. intros [m Hm].
  destruct (list_to_map _ !! r) as [fm|] eqn:Hr; simpl in Hm; [|by rewrite lookup_empty in Hm].
  apply elem_of_list_to_map_2, list_elem_of_fmap in Hr as ([r' fs] & [= -> ->] & Hin).
  exists fs, m. split_and!; [done|by apply elem_of_list_to_map_2|by simpl; rewrite Hm].
Qed.

Lemma partial_formatters c t sets r f v :
  t ≡ₚ chip_fields c →
  let fh := set_all sets (NewFieldHelper t (chip_signed c) (list_to_map (chip_formatters c)) None) in
  is_Some (default ∅ (allFields fh !! r) !! f) → f ∈ ["mres"; "sel_a"] →
  0 ≤ Get_field fh f (Some v) (Some r) ∧ (f = "sel_a" → Get_field fh f (Some v) (Some r) < 2).
Proof.
  intros Hp fh Hf Hm. set (fh0 := NewFieldHelper t (chip_signed c) (list_to_map (chip_formatters c)) None) in *.
  assert (Hsch : same_schema fh fh0).
  { apply set_all_inv; [|apply NewFieldHelper_tracked]. apply NewFieldHelper_wf.
    eapply table_ok_perm; [done|apply chip_tables_ok]. }
  rewrite (proj1 Hsch) in Hf. apply table_lookup in Hf as (fs & m & Hin & Hfm & Hmask).
  pose proof (chip_shown_ok c) as Hok. rewrite forallb_forall in Hok. rewrite Hp in Hin.
  apply list_elem_of_In, Hok in Hin. simpl in Hin. rewrite forallb_forall in Hin.
  apply list_elem_of_In, Hin in Hfm. unfold shown_field_ok in Hfm. cbn [fst snd] in Hfm.
  rewrite bool_decide_true in Hfm by done. rewrite !andb_true_iff, orb_true_iff in Hfm.
  destruct Hfm as [[Hsig Hrun] Hw]. apply mask_ok_run in Hrun as (k & w & Hrun).
  assert (Hm0 : mask_of fh r f = m) by (rewrite (schema_mask_of _ fh0) by done; exact Hmask).
  rewrite (Get_field_decode _ _ _ _ r k w) by (done || by rewrite Hm0).
  rewrite (proj1 (proj2 Hsch)). unfold fh0, NewFieldHelper. cbn [signedFields].
  rewrite (bool_decide_false (f ∈ _)) by (rewrite elem_of_list_to_set; by apply bool_decide_eq_true in Hsig).
  unfold decode. pose proof (bits_of_range k w v ltac:(destruct Hrun; lia)) as Hb. cbn [from_option id].
  split; [apply Hb|]. intros ->. destruct Hw as [Hw|Hw]; [by apply bool_decide_eq_true in Hw|].
  rewrite (run_width _ _ _ Hrun), Z.eqb_eq in Hw. subst w. apply Hb.
Qed.

Lemma pretty_field_returns c t sets r f v :
  t ≡ₚ chip_fields c →
  let fh := set_all sets (NewFieldHelper t (chip_signed c) (list_to_map (chip_formatters c)) None) in
  is_Some (default ∅ (allFields fh !! r) !! f) → returns (pretty_field fh r v f) = true.
Proof.
  intros Hp fh Hf. unfold pretty_field.
  destruct (fieldFormatters fh !! f) as [fmt|] eqn:Hfmt; [|done].
  assert (Hret : returns (fmt (Get_field fh f (Some v) (Some r))) = true);
    [|by destruct (fmt _)].
  unfold fh in Hfmt. rewrite set_all_formatters in Hfmt. apply elem_of_list_to_map_2 in Hfmt.
  pose proof (chip_formatters_ok c) as Hok. rewrite Forall_forall in Hok.
  destruct (Hok _ Hfmt) as [[= -> ->]|[[= -> ->]|Ht]]; [| |apply Ht].
  - destruct (partial_formatters c t sets r "mres" v Hp Hf) as [H0 _]; [by_decide|].
    unfold fmt_mres, ToInt, ToInt64. by rewrite bool_decide_false by (apply Z.le_ngt; exact H0).
  - destruct (partial_formatters c t sets r "sel_a" v Hp Hf) as [H0 H2]; [by_decide|].
    specialize (H2 eq_refl). fold fh in H0, H2. unfold fmt_sel_a, ToInt, ToInt64.
    assert (Hv : Get_field fh "sel_a" (Some v) (Some r) = 0 ∨ Get_field fh "sel_a" (Some v) (Some r) = 1) by lia.
    by destruct Hv as [-> | ->].
Qed.

Lemma range_returns {S X} (f : S → X → go S) xs s :
  (∀ s x, x ∈ xs → returns (f s x) = true) → returns (range f s xs) = true.
Proof.
  revert s. induction xs as [|x xs IH]; intros s Hf; [done|]. simpl.
  pose proof (Hf s x ltac:(apply elem_of_cons; by left)) as Hx. destruct (f s x); [|done]. simpl.
  apply IH. intros s' y Hy. apply Hf, elem_of_cons. by right.
Qed.

(** For every supported chip, with its field formatters, any register and any value are
    formatted without a panic: the partial formatters only meet values they accept. *)
Theorem Pretty_format_never_panics (c : chip) (t : fieldTable) sets regName regValue :
  t ≡ₚ chip_fields c →
  returns (Pretty_format (set_all sets (NewFieldHelper t (chip_signed c) (list_to_map (chip_formatters c)) None))
    regName regValue) = true.
Proof.
  intros Hp. unfold Pretty_format. set (fh := set_all sets _).
  match goal with |- context [range ?f ?s ?l] => assert (Hr : returns (range f s l) = true) end;
    [|by destruct (range _ _ _)].
  apply range_returns. intros acc f Hf. rewrite sort_strings_perm in Hf.
  apply list_elem_of_fmap in Hf as ([f' m] & -> & Hf%elem_of_map_to_list). cbn [fst].
  pose proof (pretty_field_returns c t sets regName f' regValue Hp ltac:(by eexists)) as Hr. fold fh in Hr.
  by destruct (pretty_field fh regName regValue f').
Qed.

Lemma Pretty_format_never_panics_witness :
  returns (Pretty_format (set_all [("mres", AInt 4)]
    (NewFieldHelper (chip_fields TMC2208) (chip_signed TMC2208) (list_to_map (chip_formatters TMC2208)) None))
    "IOIN@TMC222x" (-1)) = true.
Proof. apply (Pretty_format_never_panics TMC2208). reflexivity. Defined.

(** The interface comparison of the stealth and standstill formatters never
    succeeds, since an [int64] is compared with an [int]: both values are shown. *)
Lemma not_one_always_shows name v : not_one name v = Ret (name ++ "(" ++ Itoa v ++ ")")%string.
Proof. done. Qed.
