(* ===== verification/TmcCommand.v ===== *)
(** * Enabling, disabling and homing a driver

    [src/internal/pkg/tmc/command_runtime.go] and the command helper of
    [driver_helper_runtime.go]: what the events of the printer (connect, motor
    enable and disable, homing, position sync) do to a driver.  The state is
    the runtime's own, the driver's fields and the environment: the registers,
    the status checker, the toolhead, the stepper and its enable line. *)

From S2P Require Import Prelude GoFloat GoStrings GoState TmcFields TmcBus TmcDriver.

Class CommandEnv (E : Type) := {
  cmd_access :: RegisterAccess E;
  (* CommandStatusChecker, with SetHomingActive of the error checker *)
  checker_StartChecks : M E bool;
  checker_StopChecks : M E unit;
  checker_SetHomingActive : bool → M E unit;
  (* CommandMutex *)
  mutex_Lock : M E unit;
  mutex_Unlock : M E unit;
  (* CommandToolhead and its timed form *)
  Wait_moves : M E unit;
  toolhead_Monotonic : M E f64;
  EstimatedPrintTime : f64 → M E f64;
  toolhead_Pause : f64 → M E f64;
  (* CommandStepper *)
  Get_dir_inverted : M E Z;
  Get_mcu_position : M E Z;
  Get_pulse_duration : M E bool;
  Setup_default_pulse_duration : M E unit;
  (* CommandEnableLine; [Lookup_enable] gives its error *)
  Lookup_enable : string → M E (option string);
  Register_state_callback : M E unit;
  Is_motor_enabled : M E bool;
  Has_dedicated_enable : M E bool;
  (* options.Shutdown *)
  options_Shutdown : string → M E unit
}.

(** The callbacks a helper was created with. *)
Record options := mkOptions {
  o_stepperEnable : bool;             (* StepperEnable != nil *)
  o_toolhead : option (option bool);  (* LookupToolhead, what it finds, and whether that is a timed one *)
  o_mutex : bool;                     (* LookupMutex gives a mutex *)
  o_shutdown : bool                   (* Shutdown != nil *)
}.

(** [CommandRuntime], [CommandHelperCore] and [DriverCommandHelperRuntime]. *)
Record CommandRuntime := mkCommand {
  r_stepperName : string;
  r_options : options;
  r_toff : option Z;
  r_phaseOffset : option Z;
  r_stepper : option string;          (* the stepper and its name *)
  r_homingActive : bool;
  r_homingDepth : Z
}.

Definition NewCommandRuntime (stepperName : string) (o : options) : CommandRuntime :=
  mkCommand stepperName o None None None false 0.

Definition set_toff (v : option Z) (c : CommandRuntime) : CommandRuntime :=
  mkCommand (r_stepperName c) (r_options c) v (r_phaseOffset c) (r_stepper c) (r_homingActive c) (r_homingDepth c).
Definition SetPhaseOffset (v : option Z) (c : CommandRuntime) : CommandRuntime :=
  mkCommand (r_stepperName c) (r_options c) (r_toff c) v (r_stepper c) (r_homingActive c) (r_homingDepth c).
Definition set_stepper (v : option string) (c : CommandRuntime) : CommandRuntime :=
  mkCommand (r_stepperName c) (r_options c) (r_toff c) (r_phaseOffset c) v (r_homingActive c) (r_homingDepth c).
Definition set_active (b : bool) (c : CommandRuntime) : CommandRuntime :=
  mkCommand (r_stepperName c) (r_options c) (r_toff c) (r_phaseOffset c) (r_stepper c) b (r_homingDepth c).
Definition set_depth (n : Z) (c : CommandRuntime) : CommandRuntime :=
  mkCommand (r_stepperName c) (r_options c) (r_toff c) (r_phaseOffset c) (r_stepper c) (r_homingActive c) n.

Definition commandRuntimePhaseQueryRetryDelay : f64 := f_lit 50 1000.
Definition driverCommandPrintTimePollInterval : f64 := f_lit 1 1000.
Definition driverCommandEnableRetryDelay : f64 := f_lit 50 1000.
Definition driverCommandEnableRetryCount : nat := 7.
Definition driverCommandEnableRetryDelayHoming : f64 := f_lit 100 1000.
Definition driverCommandEnableRetryCountHoming : nat := 20.

Section Command.
Context `{CommandEnv E}.
Notation St := (CommandRuntime * (FieldHelper * E))%type.

Definition self : M St CommandRuntime := gets fst.
Definition upd (f : CommandRuntime → CommandRuntime) : M St unit := modify (λ s, (f s.1, s.2)).
(** A step of the driver's registers and fields, and one of the environment. *)
Definition core {A} (m : M (FieldHelper * E) A) : M St A := λ s, let '(r, x) := m s.2 in (r, (s.1, x)).
Definition env {A} (m : M E A) : M St A := core (on_hw m).

(** ** CommandRuntime *)

Definition GetPhaseOffset : M St (option Z * Z) :=
  c ← self; phases ← core GetPhases; mret (r_phaseOffset c, phases).

Definition isDriverCommandTransientEnableError (err : string) : bool := HasPrefix err "Unable to write tmc uart ".

(** [pauseDriverCommandToolhead]: only a timed toolhead can pause. *)
Definition pauseDriverCommandToolhead (timed : bool) (delay : f64) : M E unit :=
  if timed then t ← toolhead_Monotonic; _ ← toolhead_Pause (fadd t delay); mret tt else mret tt.

(** The body of [handleSyncMCUPos], under its recover. *)
Definition sync_body (pauseRetry : M E unit) : M St (option string) :=
  r ← core (queryPhaseWithRetry (on_hw pauseRetry));
  match r with
  | inl err => panic err
  | inr driverPhase =>
      inverted ← env Get_dir_inverted;
      phases ← core GetPhases;
      if bool_decide (phases = 0) then panic "runtime error: integer divide by zero"
      else
        pos ← env Get_mcu_position;
        let moff := phase_offset driverPhase (bool_decide (inverted ≠ 0)) phases pos in
        _ ← GetPhaseOffset;
        _ ← upd (SetPhaseOffset (Some moff)); mret None
  end.

(** What its recover does. *)
Definition sync_recover (reason : string) : M St (option string) :=
  _ ← upd (SetPhaseOffset None);
  c ← self;
  if r_homingActive c && isCommandRuntimeTransientPhaseQueryError reason then mret None
  else if negb (o_stepperEnable (r_options c)) then mret None
  else
    err ← env (Lookup_enable (r_stepperName c));
    match err with
    | Some _ => mret None
    | None =>
        on ← env Is_motor_enabled;
        if (on : bool) then panic ("TMCCommandRuntime HandleSyncMCUPos " ++ reason)%string else mret None
    end.

Definition handleSyncMCUPos (stepper : string) (pauseRetry : M E unit) : M St (option string) :=
  c ← self;
  if bool_decide (stepper ≠ r_stepperName c) then mret None
  else if r_homingActive c then mret None
  else recovering (sync_body pauseRetry) sync_recover.

(** A mutex from the options, or one without functions, whose use is a nil call. *)
Definition Lock : M St unit :=
  c ← self; if o_mutex (r_options c) then env mutex_Lock else panic "invalid memory address or nil pointer dereference".
Definition Unlock : M St unit :=
  c ← self; if o_mutex (r_options c) then env mutex_Unlock else panic "invalid memory address or nil pointer dereference".

(** The part of [HandleEnable] under the mutex. *)
Definition enable_sync (timed : bool) : M St (option string) :=
  '(phaseOffset, _) ← GetPhaseOffset;
  match phaseOffset with
  | Some _ => mret None
  | None =>
      c ← self;
      match r_stepper c with
      | None => mret (Some ("TMC stepper " ++ r_stepperName c ++ " not initialized")%string)
      | Some stepper =>
          _ ← env Wait_moves;
          handleSyncMCUPos stepper (pauseDriverCommandToolhead timed commandRuntimePhaseQueryRetryDelay)
      end
  end.

(** The part of [HandleEnable] after the registers were written. *)
Definition enable_checks (timed : bool) : M St (option string) :=
  didReset ← env checker_StartChecks;
  _ ← (if didReset : bool then upd (SetPhaseOffset None) else mret tt);
  c ← self;
  if r_homingActive c then mret None
  else
    '(phaseOffset, _) ← GetPhaseOffset;
    match phaseOffset with
    | Some _ => mret None
    | None => _ ← Lock; deferring (enable_sync timed) Unlock
    end.

Definition HandleEnable (timed : bool) (printTime : option f64) : M St (option string) :=
  c ← self;
  err ← core (ApplyEnableRegisters (r_toff c) printTime);
  match err with
  | Some e => mret (Some e)
  | None => enable_checks timed
  end.

Definition HandleDisable (printTime : option f64) : M St (option string) :=
  c ← self;
  err ← core (ApplyDisableRegisters (r_toff c) printTime);
  match err with
  | Some e => mret (Some e)
  | None => _ ← env checker_StopChecks; mret None
  end.

Definition SetHomingActive (active : bool) : M St unit :=
  _ ← upd (set_active active); env (checker_SetHomingActive active).

(** [found] is the stepper that the lookup gives. *)
Definition HandleMCUIdentify (found : option string) : M St (option string) :=
  _ ← upd (set_stepper found);
  c ← self;
  match found with
  | None => mret (Some ("TMC stepper " ++ r_stepperName c ++ " not found")%string)
  | Some _ => _ ← env Setup_default_pulse_duration; mret None
  end.

Definition HandleConnect : M St (option string) :=
  c ← self;
  match r_stepper c with
  | None => mret (Some ("TMC stepper " ++ r_stepperName c ++ " not initialized")%string)
  | Some _ =>
      if negb (o_stepperEnable (r_options c)) then
        mret (Some ("TMC stepper enable registry not configured for " ++ r_stepperName c)%string)
      else
        stepBothEdge ← env Get_pulse_duration;
        _ ← (if stepBothEdge : bool then _ ← core (set_field "dedge" (AInt 1)); mret tt else mret tt);
        err ← env (Lookup_enable (r_stepperName c));
        match err with
        | Some e => mret (Some e)
        | None =>
            _ ← env Register_state_callback;
            dedicated ← env Has_dedicated_enable;
            _ ← (if dedicated : bool then mret tt
                 else toff ← core EnableVirtualEnable; upd (set_toff toff));
            core (InitRegisters None)
        end
  end.

(** ** The command helper *)

(** Waits for the print time, polling at most [fuel] times; tells whether it
    has come. *)
Fixpoint wait_print_time (fuel : nat) (targetPrintTime : f64) : M E bool :=
  match fuel with
  | O => mret false
  | S fuel =>
      eventtime ← toolhead_Monotonic;
      t ← EstimatedPrintTime eventtime;
      if fle targetPrintTime t then mret true
      else _ ← toolhead_Pause (fadd eventtime driverCommandPrintTimePollInterval); wait_print_time fuel targetPrintTime
  end.

(** [synchronizeDriverCommandPrintTime] for a given toolhead and print time:
    the writes that follow are immediate. *)
Definition synchronizeDriverCommandPrintTime (fuel : nat) (timed : bool) (printTime : f64) : M E bool :=
  if timed then wait_print_time fuel (fadd printTime f0) else _ ← Wait_moves; mret true.

(** [n] attempts left. *)
Fixpoint enable_loop (n : nat) (timed : bool) (retryDelay : f64) : M St unit :=
  match n with
  | O => mret tt
  | S n =>
      err ← HandleEnable timed None;
      match err with
      | None => mret tt
      | Some e =>
          if negb (isDriverCommandTransientEnableError e) || bool_decide (n = 0%nat) then panic e
          else _ ← env (pauseDriverCommandToolhead timed retryDelay); enable_loop n timed retryDelay
      end
  end.

(** The recover of both handlers. *)
Definition shutdown_on_panic {A} (a : A) (reason : string) : M St A :=
  c ← self;
  _ ← (if o_shutdown (r_options c) then env (options_Shutdown reason) else mret tt);
  mret a.

(** The toolhead, or the panic with the error of its lookup. *)
Definition currentToolhead (c : CommandRuntime) : go bool :=
  match o_toolhead (r_options c) with
  | None => Panic ("TMC toolhead lookup not configured for " ++ r_stepperName c)%string
  | Some None => Panic ("TMC toolhead not found for " ++ r_stepperName c)%string
  | Some (Some timed) => Ret timed
  end.

(** The result tells whether the print time came within [fuel] polls. *)
Definition do_enable (fuel : nat) (printTime : f64) : M St bool :=
  recovering
    (c ← self;
     timed ← lift (currentToolhead c);
     come ← env (synchronizeDriverCommandPrintTime fuel timed printTime);
     if negb come then mret false
     else
       c ← self;
       let '(retryCount, retryDelay) :=
         if r_homingActive c then (driverCommandEnableRetryCountHoming, driverCommandEnableRetryDelayHoming)
         else (driverCommandEnableRetryCount, driverCommandEnableRetryDelay) in
       _ ← enable_loop retryCount timed retryDelay;
       mret true)
    (shutdown_on_panic true).

Definition do_disable (fuel : nat) (printTime : f64) : M St bool :=
  recovering
    (c ← self;
     timed ← lift (currentToolhead c);
     come ← env (synchronizeDriverCommandPrintTime fuel timed printTime);
     if negb come then mret false
     else
       err ← HandleDisable None;
       match err with
       | Some e => panic e
       | None => mret true
       end)
    (shutdown_on_panic true).

Definition handle_stepper_enable (fuel : nat) (printTime : f64) (isEnable : bool) : M St bool :=
  if isEnable then do_enable fuel printTime else do_disable fuel printTime.

Definition handle_homing_move_begin : M St unit :=
  c ← self;
  _ ← upd (set_depth (r_homingDepth c + 1));
  c ← self;
  if bool_decide (r_homingDepth c = 1) then SetHomingActive true else mret tt.

Definition handle_homing_move_end : M St unit :=
  c ← self;
  if bool_decide (r_homingDepth c = 0) then mret tt
  else
    _ ← upd (set_depth (r_homingDepth c - 1));
    c ← self;
    if bool_decide (r_homingDepth c = 0) then SetHomingActive false else mret tt.
End Command.
