(* ===== verification/TmcCommandThy.v ===== *)
(** * Properties of the command helper

    The virtual enable line (a driver is switched off by a zero [toff] field)
    and the nesting of homing moves. *)

From S2P Require Import Prelude GoFloat GoStrings GoState TmcFields TmcFieldsThy TmcDefs TmcDefsThy TmcCodecs TmcBus TmcDriver TmcDriverThy TmcCommand.

(** A step of the environment that leaves the registers (but the GSTAT flags,
    which are cleared by writing them) and the shutdown requests alone. *)
Definition quiet {E A} (hwreg : E → string → option Z) (stops : E → nat) (m : M E A) : Prop := ∀ e,
  (∀ r, r ≠ "GSTAT" → hwreg (m e).2 r = hwreg e r) ∧ stops (m e).2 = stops e.

Class CommandLaws (E : Type) `{CommandEnv E} := {
  cmd_hw :: HwLaws E;
  stops : E → nat;
  checker_homing : E → bool;
  q_read r : quiet hwreg stops (Get_register r);
  q_write r v pt e : stops (Set_register r v pt e).2 = stops e;
  q_start : quiet hwreg stops checker_StartChecks;
  q_stop : quiet hwreg stops checker_StopChecks;
  q_lock : quiet hwreg stops mutex_Lock;
  q_unlock : quiet hwreg stops mutex_Unlock;
  q_wait : quiet hwreg stops Wait_moves;
  q_clock : quiet hwreg stops toolhead_Monotonic;
  q_estimate t : quiet hwreg stops (EstimatedPrintTime t);
  q_pause t : quiet hwreg stops (toolhead_Pause t);
  q_dir : quiet hwreg stops Get_dir_inverted;
  q_pos : quiet hwreg stops Get_mcu_position;
  q_pulse : quiet hwreg stops Get_pulse_duration;
  q_lookup n : quiet hwreg stops (Lookup_enable n);
  q_register : quiet hwreg stops Register_state_callback;
  q_enabled : quiet hwreg stops Is_motor_enabled;
  q_dedicated : quiet hwreg stops Has_dedicated_enable;
  homing_told b e : ∃ e', checker_SetHomingActive b e = (Ret tt, e') ∧ checker_homing e' = b;
  shutdown_told w e : ∃ e', options_Shutdown w e = (Ret tt, e') ∧ stops e' = S (stops e)
}.
#[global] Hint Resolve q_read q_start q_stop q_lock q_unlock q_wait q_clock q_estimate q_pause q_dir q_pos
  q_pulse q_lookup q_register q_enabled q_dedicated : keeps.

Lemma quiet_bind {E A B} hwreg stops (m : M E A) (k : A → M E B) :
  quiet hwreg stops m → (∀ a, quiet hwreg stops (k a)) → quiet hwreg stops (x ← m; k x).
Proof.
  intros Hm Hk e. specialize (Hm e) as [Hr Hs]. unfold mbind, M_bind.
  destruct (m e) as [[a|w] e1]; simpl in *; [|by split].
  destruct (Hk a e1) as [Hr' Hs']. split; [intros r ?; rewrite Hr'|rewrite Hs']; auto.
Qed.
Lemma quiet_ret {E A} hwreg stops (a : A) : quiet (E := E) hwreg stops (mret a).
Proof. by intros e. Qed.
#[global] Hint Resolve quiet_ret : keeps.

Lemma always_deferring {S A} (I : S → Prop) (m : M S A) d : always I m → always I d → always I (deferring m d).
Proof.
  intros Hm Hd s Hs. specialize (Hm s Hs). unfold deferring, mbind, M_bind.
  destruct (m s) as [[a|w] s1]; simpl in *; specialize (Hd s1 Hm); by destruct (d s1) as [[?|?] ?].
Qed.

Lemma always_mfor_err {S X} (I : S → Prop) (xs : list X) body :
  (∀ x, always I (body x)) → always I (mfor_err (S := S) xs body).
Proof.
  intros Hb. induction xs as [|x xs IH]; cbn [mfor_err]; [apply always_ret|].
  apply always_bind; [apply Hb|]. intros [e|]; [apply always_ret|exact IH].
Qed.

Lemma fit_0 fh f : wf fh → knows fh f → fit fh f 0 = 0.
Proof.
  intros Hw [r Hr]. destruct (wf_run _ Hw f r Hr) as (k & w & Hrun). unfold fit.
  rewrite (register_of_lookup _ _ _ Hr), (run_width _ _ _ Hrun), Zmod_0_l. unfold sign_wrap.
  destruct Hrun as (_ & Hw0 & _). pose proof (Z.pow_pos_nonneg 2 (w - 1) ltac:(lia) ltac:(lia)).
  rewrite (bool_decide_false (_ ≤ _)) by lia. by case_bool_decide.
Qed.

(** A field written is in the registers to be sent. *)
Lemma set_field_sent fh f v :
  knows fh f → is_Some (registers (Set_field fh f v None None).2 !! register_of fh f).
Proof.
  intros [r Hr]. pose proof (Set_field_register fh f v r Hr) as Hs. rewrite (register_of_lookup _ _ _ Hr).
  destruct (Set_field fh f v None None) as [x fh']. destruct Hs as [Hregs _]. simpl in *.
  by rewrite Hregs, lookup_insert_eq.
Qed.

Section Theory.
Context `{CommandLaws E}.
Notation St := (CommandRuntime * (FieldHelper * E))%type.

Lemma pause_quiet timed d : quiet hwreg stops (pauseDriverCommandToolhead timed d).
Proof.
  unfold pauseDriverCommandToolhead. destruct timed; [|apply quiet_ret].
  apply quiet_bind; [apply q_clock|intros t]. apply quiet_bind; [apply q_pause|intros ?; apply quiet_ret].
Qed.

Lemma wait_print_time_quiet n t : quiet hwreg stops (wait_print_time n t).
Proof.
  induction n as [|n IH]; cbn [wait_print_time]; [apply quiet_ret|].
  apply quiet_bind; [apply q_clock|intros ev]. apply quiet_bind; [apply q_estimate|intros x].
  destruct (fle t x); [apply quiet_ret|]. apply quiet_bind; [apply q_pause|intros ?; exact IH].
Qed.

Lemma synchronize_quiet n timed t : quiet hwreg stops (synchronizeDriverCommandPrintTime n timed t).
Proof.
  unfold synchronizeDriverCommandPrintTime. destruct timed; [apply wait_print_time_quiet|].
  apply quiet_bind; [apply q_wait|intros ?; apply quiet_ret].
Qed.
Hint Resolve pause_quiet synchronize_quiet : keeps.

(** ** The virtual enable line *)

Variables (fh0 : FieldHelper) (t0 : Z).
Notation toffReg := (register_of fh0 "toff").

(** The fields are those of [fh0] up to the values, and [n] shutdowns have been
    requested. *)
Definition FI (n : nat) (x : FieldHelper * E) : Prop :=
  same_schema x.1 fh0 ∧ tracked x.1 ∧ stops x.2 = n.
(** The chip's [toff] is the cached one, and it is [v]. *)
Definition FV (v : Z) (n : nat) (x : FieldHelper * E) : Prop :=
  FI n x ∧ hwreg x.2 toffReg = Some (reg_value x.1 toffReg) ∧ Get_field x.1 "toff" None None = v.
(** The runtime remembers [t0]. *)
Definition CI (c : CommandRuntime) : Prop := r_toff c = Some t0 ∧ o_shutdown (r_options c) = true.
Definition J (n : nat) (s : St) : Prop := CI s.1 ∧ FI n s.2.
Definition K (v : Z) (n : nat) (s : St) : Prop := CI s.1 ∧ FV v n s.2.

Hypothesis Hwf : wf fh0.
Hypothesis Hknows : knows fh0 "toff".
Hypothesis Hgstat : toffReg ≠ "GSTAT".
Hypothesis Hfit : fit fh0 "toff" t0 = t0.

Lemma K_J v n s : K v n s → J n s.
Proof. by intros [? [? _]]. Qed.

Lemma FI_on_hw {A} n (m : M E A) : quiet hwreg stops m → always (FI n) (on_hw m).
Proof.
  intros Hm [fh e] (?&?&Hn). unfold on_hw. simpl in *. destruct (Hm e) as [_ Hs].
  destruct (m e) as [r e1]. simpl in *. unfold FI. simpl. split_and!; [done..|congruence].
Qed.
Lemma FV_on_hw {A} v n (m : M E A) : quiet hwreg stops m → always (FV v n) (on_hw m).
Proof using All.
  intros Hm [fh e] (HFI&Hr&Hv). pose proof (FI_on_hw n m Hm (fh, e) HFI) as HFI'.
  unfold on_hw in *. simpl in *. destruct (Hm e) as [Hq _]. destruct (m e) as [r e1]. simpl in *.
  split_and!; [done| |done]. simpl. by rewrite Hq.
Qed.

Lemma J_core {A} n (m : M (FieldHelper * E) A) : always (FI n) m → always (J n) (core m).
Proof.
  intros Hm [c x] [Hc Hx]. specialize (Hm x Hx). unfold core. simpl in *.
  destruct (m x) as [r x']. by split.
Qed.
Lemma K_core {A} v n (m : M (FieldHelper * E) A) : always (FV v n) m → always (K v n) (core m).
Proof.
  intros Hm [c x] [Hc Hx]. specialize (Hm x Hx). unfold core. simpl in *.
  destruct (m x) as [r x']. by split.
Qed.
Lemma K_env {A} v n (m : M E A) : quiet hwreg stops m → always (K v n) (env m).
Proof using All. intros Hm. apply K_core. by apply FV_on_hw. Qed.
Lemma J_env {A} n (m : M E A) : quiet hwreg stops m → always (J n) (env m).
Proof. intros Hm. apply J_core. by apply FI_on_hw. Qed.
Lemma K_phase v n p : always (K v n) (upd (SetPhaseOffset p)).
Proof. apply always_modify. by intros [c x] [? ?]. Qed.
Hint Resolve K_env J_env K_phase : keeps.

Lemma K_phases v n : always (K v n) (core GetPhases).
Proof. apply K_core. unfold GetPhases, get_field. always_steps. Qed.
Hint Resolve K_phases : keeps.
Lemma K_phaseOffset v n : always (K v n) GetPhaseOffset.
Proof. unfold GetPhaseOffset, self. always_steps. Qed.
Hint Resolve K_phaseOffset : keeps.

Lemma FV_query v n k p : quiet hwreg stops p → always (FV v n) (query_phase_loop k (on_hw p)).
Proof using All.
  intros Hp. induction k as [|k IH]; cbn [query_phase_loop]; [apply always_ret|].
  unfold QueryPhase, fields, get_field. always_steps; by apply FV_on_hw; auto with keeps.
Qed.

Lemma K_sync v n stepper p : quiet hwreg stops p → always (K v n) (handleSyncMCUPos stepper p).
Proof using All.
  intros Hp. unfold handleSyncMCUPos, sync_body, sync_recover, self, queryPhaseWithRetry.
  always_steps. apply K_core. by apply FV_query.
Qed.
Hint Resolve K_sync : keeps.

Lemma K_enable_sync v n timed : always (K v n) (enable_sync timed).
Proof using All. unfold enable_sync, self. always_steps. Qed.
Hint Resolve K_enable_sync : keeps.

Lemma K_lock v n : always (K v n) Lock.
Proof using All. unfold Lock, self. always_steps. Qed.
Lemma K_unlock v n : always (K v n) Unlock.
Proof using All. unfold Unlock, self. always_steps. Qed.
Hint Resolve K_lock K_unlock : keeps.

Lemma FI_set_field n f v : always (FI n) (set_field f v).
Proof.
  intros [fh e] (Hs&Ht&Hn). rewrite run_set_field. unfold FI. cbn [fst snd] in *. split_and!; [|by apply Set_field_tracked|done].
  etrans; [apply Set_field_schema|done].
Qed.

Lemma FI_write n r v pt : always (FI n) (on_hw (Set_register r v pt)).
Proof.
  intros [fh e] (Hs&Ht&Hn). unfold on_hw. simpl in *. pose proof (q_write r v pt e) as Hq.
  destruct (Set_register r v pt e) as [x e']. unfold FI. simpl in *. split_and!; [done..|congruence].
Qed.
Hint Resolve FI_set_field FI_write : keeps.

Lemma FI_init n pt : always (FI n) (InitRegisters pt).
Proof.
  unfold InitRegisters, fields. apply always_bind; [apply always_gets|intros fh].
  apply always_mfor_err. intros r. always_steps.
Qed.
Hint Resolve FI_init : keeps.

Lemma FI_wf n x : FI n x → wf x.1 ∧ knows x.1 "toff" ∧ register_of x.1 "toff" = toffReg.
Proof using All.
  intros (Hs&_&_). split_and!; [by eapply wf_schema|by eapply knows_schema|by apply schema_register_of].
Qed.

(** Writing [toff] and then all registers. *)
Lemma apply_enable n pt :
  hoare (FI n) (ApplyEnableRegisters (Some t0) pt) (λ r x, FI n x ∧ (r = Ret None → FV t0 n x)).
Proof using All.
  intros [fh e] HFI. set (res := ApplyEnableRegisters _ _ _).
  assert (HFI' : FI n res.2). { apply (always_bind (FI n)); [always_steps|intros ?; apply FI_init|done]. }
  split; [done|]. intros Hret. split; [done|].
  destruct (FI_wf n _ HFI) as (Hw&Hk&Hreg). destruct HFI as (Hs&Ht&Hn). simpl in Hw, Hk, Hreg, Hs, Ht.
  set (fh1 := (Set_field fh "toff" (AInt64 t0) None None).2).
  assert (Hrun : InitRegisters pt (fh1, e) = (Ret None, res.2)).
  { rewrite <- Hret. unfold res, ApplyEnableRegisters. erewrite M_bind_eq;
      [apply surjective_pairing|]. erewrite M_bind_eq by apply run_set_field. reflexivity. }
  assert (Ht1 : tracked fh1) by by apply Set_field_tracked.
  destruct (orderedRegisterNames_tracked _ Ht1) as (_ & Hnd & Hdom).
  apply (init_loop (orderedRegisterNames fh1)) in Hrun as (Hfh & Hin & _); [|done].
  rewrite Hfh. split.
  - apply Hin, Hdom. rewrite <- Hreg. by apply set_field_sent.
  - unfold fh1. rewrite get_set, bool_decide_true by done. rewrite (schema_fit fh fh0) by done. exact Hfit.
Qed.

Lemma apply_disable n v pt :
  hoare (FI n) (ApplyDisableRegisters (Some v) pt) (λ r x, FI n x ∧ (r = Ret None → FV 0 n x)).
Proof using All.
  intros [fh e] HFI. set (res := ApplyDisableRegisters _ _ _).
  assert (HFI' : FI n res.2).
  { apply (always_bind (FI n)); [always_steps|intros ?|done]. unfold fields. always_steps. }
  split; [done|]. intros Hret. split; [done|].
  destruct (FI_wf n _ HFI) as (Hw&[r Hr]&Hreg). simpl in Hw, Hr, Hreg.
  set (fh1 := (Set_field fh "toff" (AInt 0) None None).2).
  assert (Hsch : same_schema fh1 fh) by apply Set_field_schema.
  assert (Hrun : on_hw (Set_register toffReg (Set_field fh "toff" (AInt 0) None None).1 pt) (fh1, e) = (Ret None, res.2)).
  { rewrite <- Hret. unfold res, ApplyDisableRegisters. erewrite M_bind_eq by apply run_set_field.
    unfold fields. erewrite M_bind_eq by reflexivity. rewrite <- surjective_pairing. cbn [fst].
    fold fh1. rewrite (schema_lookup fh1 fh) by done. unfold Lookup_register. rewrite Hr. cbn [from_option].
    by rewrite <- (register_of_lookup _ _ _ Hr), Hreg. }
  unfold on_hw in Hrun. cbn [snd fst] in Hrun.
  destruct (Set_register toffReg _ pt e) as [x e'] eqn:Hset. injection Hrun as -> Hres. rewrite <- Hres.
  apply hw_set in Hset as [Hset _]. cbn [fst snd]. split.
  - rewrite Hset. f_equal. pose proof (Set_field_register fh "toff" (AInt 0) r Hr) as Hs.
    rewrite <- Hreg, (register_of_lookup _ _ _ Hr). unfold fh1. destruct (Set_field fh "toff" _ _ _) as [y fh'].
    destruct Hs as [Hs _]. cbn [fst snd]. rewrite (reg_value_insert _ _ _ _ _ Hs). by rewrite bool_decide_true.
  - unfold fh1. rewrite get_set, bool_decide_true by (done || by eexists).
    apply fit_0; [done|by eexists].
Qed.

Lemma K_enable_checks v n timed : always (K v n) (enable_checks timed).
Proof using All.
  unfold enable_checks, self. always_steps. by apply always_deferring; auto with keeps.
Qed.

Lemma handle_enable n timed :
  hoare (J n) (HandleEnable timed None) (λ r s, J n s ∧ (r = Ret None → K t0 n s)).
Proof using All.
  intros [c x] [Hc Hx]. unfold HandleEnable, self. rewrite (M_bind_eq (gets fst) _ (c, x) c (c, x)) by done.
  rewrite (proj1 Hc : r_toff c = Some t0). pose proof (apply_enable n None x Hx) as [HF Hon].
  unfold mbind, M_bind, core. cbn [fst snd]. destruct (ApplyEnableRegisters (Some t0) None x) as [[[err|]|w] x1].
  - by split.
  - assert (HK : K t0 n (c, x1)) by (split; [exact Hc|apply Hon; reflexivity]).
    pose proof (K_enable_checks _ _ timed _ HK) as HK'. split; [exact (K_J _ _ _ HK')|intros _; exact HK'].
  - by split.
Qed.

Lemma handle_disable n :
  hoare (J n) (HandleDisable None) (λ r s, J n s ∧ (r = Ret None → K 0 n s)).
Proof using All.
  intros [c x] [Hc Hx]. unfold HandleDisable, self. rewrite (M_bind_eq (gets fst) _ (c, x) c (c, x)) by done.
  rewrite (proj1 Hc : r_toff c = Some t0). pose proof (apply_disable n t0 None x Hx) as [HF Hon].
  unfold mbind, M_bind, core. cbn [fst snd].
  destruct (ApplyDisableRegisters (Some t0) None x) as [[[err|]|w] x1].
  - by split.
  - assert (HK : K 0 n (c, x1)) by (split; [exact Hc|apply Hon; reflexivity]).
    assert (Hrest : always (K 0 n) (_ ← env checker_StopChecks; mret (None : option string))) by always_steps.
    pose proof (Hrest _ HK) as HK'. split; [exact (K_J _ _ _ HK')|intros _; exact HK'].
  - by split.
Qed.

Lemma enable_attempts n k timed d :
  hoare (J n) (enable_loop (S k) timed d) (λ r s, J n s ∧ (r = Ret tt → K t0 n s)).
Proof using All.
  induction k as [|k IH]; cbn [enable_loop];
    (eapply hoare_seq with (R := λ err s, J n s ∧ (err = None → K t0 n s));
    [intros s HJ; destruct (handle_enable n timed s HJ) as [HJ' HK];
     destruct (HandleEnable timed None s) as [[err|w] s1]; simpl in *;
     [split; [exact HJ'|intros ->; apply HK; reflexivity]|split; [exact HJ'|discriminate]]|]).
  - intros [err|] s [HJ HK]; [|by split; auto].
    rewrite (bool_decide_true (0%nat = 0%nat)), orb_true_r by done. by split.
  - intros [err|] s [HJ HK]; [|by split; auto].
    rewrite (bool_decide_false (S k = 0%nat)), orb_false_r by done.
    destruct (isDriverCommandTransientEnableError err); cbn [negb]; [|by split].
    pose proof (J_env n _ (pause_quiet timed d) s HJ) as HJ1. unfold mbind, M_bind.
    destruct (env _ s) as [[[]|w] s1]; simpl in *; [|by split]. by apply IH.
Qed.

(** What a request leads to: the chip switched, or a shutdown. *)
Definition switched (v : Z) (n : nat) (r : go bool) (s : St) : Prop :=
  match r with
  | Ret true => K v n s ∨ J (S n) s
  | Ret false => J n s
  | Panic _ => False
  end.

Lemma shutdown_switches v n w : hoare (J n) (shutdown_on_panic true w) (switched v n).
Proof.
  intros [c [fh e]] [[Ht Ho] (Hs&Htr&Hn)]. unfold shutdown_on_panic, self, gets, mbind, M_bind. simpl in *. rewrite Ho.
  destruct (shutdown_told w e) as (e'&He&Hst). unfold env, core, on_hw. simpl. rewrite He. simpl.
  right. split; [done|]. unfold FI. simpl. split_and!; [done..|congruence].
Qed.

Lemma switch_handler v n fuel t (k : bool → M St bool) :
  (∀ timed, hoare (J n) (k timed) (λ r s, match r with Ret b => b = true ∧ K v n s | Panic _ => J n s end)) →
  hoare (J n)
    (recovering
      (c ← self; timed ← lift (currentToolhead c);
       come ← env (synchronizeDriverCommandPrintTime fuel timed t);
       if negb come then mret false else k timed)
      (shutdown_on_panic true))
    (switched v n).
Proof using All.
  intros Hm. eapply (hoare_recovering _ _ (λ _, J n)); [|intros w; apply shutdown_switches].
  eapply hoare_seq with (R := λ _, J n); [by intros s|intros c].
  eapply hoare_seq with (R := λ _, J n); [intros s Hs; simpl; by destruct (currentToolhead c)|intros timed].
  eapply hoare_seq with (R := λ _, J n).
  { intros s Hs. pose proof (J_env n _ (synchronize_quiet fuel timed t) s Hs) as HJ.
    by destruct (env _ s) as [[?|?] ?]. }
  intros [|]; cbn [negb]; [|by intros s].
  intros s HJ. specialize (Hm timed s HJ). destruct (k timed s) as [[b|w] s1]; simpl in *; [|done].
  destruct Hm as [-> HK]. by left.
Qed.

Lemma enable_switches n fuel t : hoare (J n) (do_enable fuel t) (switched t0 n).
Proof using All.
  apply switch_handler. intros timed. eapply hoare_seq with (R := λ _, J n); [by intros s|intros c].
  set (rc := if r_homingActive c then _ else _).
  assert (Hrc : ∃ k d, rc = (S k, d)) by (unfold rc; destruct (r_homingActive c); by eexists _, _).
  destruct Hrc as (k & d & ->).
  eapply hoare_seq with (R := λ _, K t0 n); [|by intros ? s].
  intros s HJ. destruct (enable_attempts n k timed d s HJ) as [HJ' HK].
  destruct (enable_loop (S k) timed d s) as [[[]|w] s1]; simpl in *; [by apply HK|done].
Qed.

Lemma disable_switches n fuel t : hoare (J n) (do_disable fuel t) (switched 0 n).
Proof using All.
  apply switch_handler. intros timed s HJ. destruct (handle_disable n s HJ) as [HJ' HK].
  unfold mbind, M_bind. destruct (HandleDisable None s) as [[[e|]|w] s1]; simpl in *; [done| |done].
  split; [done|by apply HK].
Qed.

(** ** Sequences of requests *)

(** A request: polls allowed, print time, enable or disable. *)
Definition request : Type := nat * f64 * bool.

(** [None] when a request still waits for its print time. *)
Definition serve (rs : list request) (s : St) : option St :=
  fold_left (λ acc r, s ← acc;
    match handle_stepper_enable r.1.1 r.1.2 r.2 s with (Ret true, s') => Some s' | _ => None end) rs (Some s).

Definition last_enables (rs : list request) : bool := default false (snd <$> last rs).

Lemma serve_switches rs n s s' :
  K 0 n s → serve rs s = Some s' →
  ∃ n', (n ≤ n')%nat ∧ J n' s' ∧ (n' = n → K (if last_enables rs then t0 else 0) n s').
Proof using All.
  intros HK. revert s'. induction rs as [|r rs IH] using rev_ind; intros s' Hrun.
  { injection Hrun as <-. exists n. split_and!; [lia|by eapply K_J|done]. }
  unfold serve in *. rewrite fold_left_app in Hrun. simpl in Hrun.
  destruct (fold_left _ rs (Some s)) as [s1|] eqn:Hs1; [|done]. simpl in Hrun.
  destruct (IH s1 Hs1) as (n1 & Hle & HJ & HK1).
  set (v := if r.2 then t0 else 0).
  assert (Hsw : switched v n1 (handle_stepper_enable r.1.1 r.1.2 r.2 s1).1 (handle_stepper_enable r.1.1 r.1.2 r.2 s1).2).
  { unfold handle_stepper_enable, v. destruct r.2; [by apply enable_switches|by apply disable_switches]. }
  destruct (handle_stepper_enable _ _ _ s1) as [[[|]|w] s2]; simplify_eq. simpl in Hsw.
  assert (Hlast : last_enables (rs ++ [r]) = r.2) by (unfold last_enables; by rewrite last_snoc).
  rewrite Hlast. fold v. destruct Hsw as [Hsw|Hsw].
  - exists n1. split_and!; [done|by eapply K_J|by intros ->].
  - exists (S n1). split_and!; [lia|done|lia].
Qed.
End Theory.

(** ** Connecting *)

Lemma env_inv `{CommandEnv E} {A} (m : M E A) c fh (e : E) a s :
  env m (c, (fh, e)) = (Ret a, s) → ∃ e', m e = (Ret a, e') ∧ s = (c, (fh, e')).
Proof.
  unfold env, core, on_hw. simpl. destruct (m e) as [r e']. intros [= -> <-]. by exists e'.
Qed.

(** A driver that connects without a dedicated enable line remembers its [toff]
    and is left switched off. *)
Lemma connect_switches_off `{CommandLaws E} fh e c s1 t0 :
  wf fh → tracked fh → knows fh "toff" → knows fh "dedge" → r_toff c = None → o_shutdown (r_options c) = true →
  HandleConnect (c, (fh, e)) = (Ret None, s1) → r_toff s1.1 = Some t0 →
  t0 = Get_field fh "toff" None None ∧ K fh t0 0 (stops s1.2.2) s1.
Proof.
  intros Hw Ht Hk Hd Hc Ho Hrun Ht0. unfold HandleConnect, self in Hrun.
  rewrite (M_bind_eq (gets fst) _ _ c (c, (fh, e))) in Hrun by done.
  destruct (r_stepper c); [|done]. destruct (negb _); [done|].
  apply M_bind_inv in Hrun as (edge & sa & [e1 [_ ->]]%env_inv & Hrun).
  set (fh1 := if edge then (Set_field fh "dedge" (AInt 1) None None).2 else fh).
  assert (H1 : wf fh1 ∧ tracked fh1 ∧ knows fh1 "toff" ∧ Get_field fh1 "toff" None None = Get_field fh "toff" None None ∧
    same_schema fh1 fh).
  { unfold fh1. destruct edge; [|done].
    split_and!; [by apply set_wf|by apply Set_field_tracked|by apply set_knows| |apply Set_field_schema].
    rewrite get_set, bool_decide_false by done. done. }
  destruct H1 as (Hw1 & Ht1 & Hk1 & Hg1 & Hs1).
  rewrite (M_bind_eq _ _ _ tt (c, (fh1, e1))) in Hrun
    by (unfold fh1; destruct edge; reflexivity).
  apply M_bind_inv in Hrun as ([err|] & sb & [e2 [_ ->]]%env_inv & Hrun); [done|].
  apply M_bind_inv in Hrun as ([] & sc & [e3 [_ ->]]%env_inv & Hrun).
  apply M_bind_inv in Hrun as ([|] & sd & [e4 [_ ->]]%env_inv & Hrun).
  { apply M_bind_inv in Hrun as (u & se & [= <- <-] & Hrun). unfold core in Hrun. simpl in Hrun.
    destruct (InitRegisters None (fh1, e4)) as [r x]. injection Hrun as -> <-. simpl in Ht0. congruence. }
  set (fh2 := (Set_field fh1 "toff" (AInt 0) None None).2).
  rewrite (M_bind_eq _ _ _ tt (set_toff (Some (Get_field fh1 "toff" None None)) c, (fh2, e4))) in Hrun
    by reflexivity.
  assert (Ht2 : tracked fh2) by by apply Set_field_tracked.
  assert (Hsch2 : same_schema fh2 fh) by (etrans; [apply Set_field_schema|done]).
  destruct (orderedRegisterNames_tracked _ Ht2) as (_ & Hnd & Hdom).
  unfold core in Hrun. cbn [fst snd] in Hrun. destruct (InitRegisters None (fh2, e4)) as [r x] eqn:Hinit.
  injection Hrun as -> <-. apply (init_loop (orderedRegisterNames fh2)) in Hinit as (Hfh & Hin & _); [|done].
  destruct x as [fhx ex]. cbn [fst snd] in *. subst fhx. injection Ht0 as <-.
  split; [done|]. split; [by split|]. split; [by unfold FI|]. cbn [fst snd]. split.
  - rewrite <- (schema_register_of fh1 fh) by done. apply Hin, Hdom. by apply set_field_sent.
  - unfold fh2. rewrite get_set, bool_decide_true by done. by apply fit_0.
Qed.

(** The [toff] field as the chip has it. *)
Definition chip_toff `{CommandLaws E} (s : CommandRuntime * (FieldHelper * E)) : option Z :=
  (λ v, Get_field s.2.1 "toff" (Some v) None) <$> hwreg s.2.2 (register_of s.2.1 "toff").

Lemma chip_toff_K `{CommandLaws E} fh t0 v n s : K fh t0 v n s → chip_toff s = Some v.
Proof.
  intros (_ & (Hs & _ & _) & Hr & Hv). unfold chip_toff.
  rewrite (schema_register_of s.2.1 fh) by done. rewrite Hr. simpl. f_equal. rewrite <- Hv.
  unfold Get_field. simpl. by rewrite (schema_register_of s.2.1 fh) by done.
Qed.

(** Every chip has the two fields, in registers other than GSTAT. *)
Lemma chip_enable_fields c t fmts sets :
  t ≡ₚ chip_fields c →
  let fh := set_all sets (NewFieldHelper t (chip_signed c) fmts None) in
  knows fh "toff" ∧ knows fh "dedge" ∧ register_of fh "toff" ≠ "GSTAT".
Proof.
  intros Hp fh.
  assert (Hone : ∀ f, f = "toff" ∨ f = "dedge" → length (owners (chip_fields c) f) = 1%nat)
    by (intros f [-> | ->]; destruct c; vm_compute; reflexivity).
  destruct (chip_field_same c t fmts sets "toff" Hp ltac:(auto)) as (? & _ & Hr & _).
  destruct (chip_field_same c t fmts sets "dedge" Hp ltac:(auto)) as (? & _).
  split_and!; [done..|]. fold fh in Hr. rewrite Hr. destruct c; by_decide.
Qed.

(** C18. After a driver without a dedicated enable line has connected, and after any
    sequence of enable and disable requests that have completed without asking for a
    shutdown, the chip holds the configured toff field exactly when the last request was
    an enable, and zero otherwise. *)
Theorem virtual_enable_switches_driver `{CommandLaws E} (c : chip) (t : fieldTable) fmts sets
    (rt : CommandRuntime) (e : E) (s1 s2 : CommandRuntime * (FieldHelper * E)) (rs : list request) :
  t ≡ₚ chip_fields c →
  let fh := set_all sets (NewFieldHelper t (chip_signed c) fmts None) in
  r_toff rt = None → o_shutdown (r_options rt) = true →
  HandleConnect (rt, (fh, e)) = (Ret None, s1) → is_Some (r_toff s1.1) →
  serve rs s1 = Some s2 →
  stops s2.2.2 = stops s1.2.2 →
  chip_toff s2 = Some (if last_enables rs then Get_field fh "toff" None None else 0).
Proof.
  intros Hp fh Hc Ho Hcon [t0 Ht0] Hserve Hstops.
  destruct (chip_enable_fields c t fmts sets Hp) as (Hk & Hd & Hg). fold fh in Hk, Hd, Hg.
  destruct (chip_helper_inv c t fmts sets Hp) as [Hw Ht]. fold fh in Hw, Ht.
  destruct (connect_switches_off fh e rt s1 t0) as [-> HK]; try done.
  destruct (serve_switches fh (Get_field fh "toff" None None) Hw Hk Hg
    ltac:(destruct Hk as [r Hr]; by eapply Get_field_fit) rs _ _ _ HK Hserve) as (n' & Hle & HJ & HK2).
  eapply chip_toff_K, HK2. destruct HJ as (_ & _ & _ & Hn). congruence.
Qed.

(** ** Nested homing moves *)

Inductive homing_event := MoveBegin | MoveEnd.

Definition on_homing `{CommandEnv E} (ev : homing_event) (s : CommandRuntime * (FieldHelper * E)) :
    CommandRuntime * (FieldHelper * E) :=
  match ev with
  | MoveBegin => (handle_homing_move_begin s).2
  | MoveEnd => (handle_homing_move_end s).2
  end.

(** Moves begun and not ended; an end without a begin counts for nothing. *)
Definition open_moves (evs : list homing_event) : Z :=
  fold_left (λ n ev, match ev with MoveBegin => n + 1 | MoveEnd => Z.max 0 (n - 1) end) evs 0.

Definition homing_ok `{CommandLaws E} (n : Z) (s : CommandRuntime * (FieldHelper * E)) : Prop :=
  r_homingDepth s.1 = n ∧ r_homingActive s.1 = bool_decide (0 < n) ∧ checker_homing s.2.2 = bool_decide (0 < n).

Lemma SetHomingActive_told `{CommandLaws E} b (s : CommandRuntime * (FieldHelper * E)) :
  ∃ e', SetHomingActive b s = (Ret tt, (set_active b s.1, (s.2.1, e'))) ∧ checker_homing e' = b.
Proof.
  destruct s as [c [fh e]]. destruct (homing_told b e) as (e' & He & Hb). exists e'. split; [|done].
  unfold SetHomingActive, upd, env, core, on_hw, mbind, M_bind. simpl. by rewrite He.
Qed.

Lemma homing_step `{CommandLaws E} ev n (s : CommandRuntime * (FieldHelper * E)) :
  0 ≤ n → homing_ok n s →
  homing_ok (match ev with MoveBegin => n + 1 | MoveEnd => Z.max 0 (n - 1) end) (on_homing ev s).
Proof.
  intros Hn0 (Hd & Ha & Hb). destruct s as [c [fh e]], ev; simpl in *.
  - unfold handle_homing_move_begin, self, gets, upd, modify, mbind, M_bind. simpl. rewrite Hd.
    destruct (decide (n + 1 = 1)) as [Hone|Hone]; [rewrite (bool_decide_true (_ = _)) by done|
      rewrite (bool_decide_false (_ = _)) by done].
    + destruct (SetHomingActive_told true (set_depth (n + 1) c, (fh, e))) as (e' & -> & Hb').
      unfold homing_ok. simpl in *. rewrite Hb', bool_decide_true by lia. done.
    + unfold homing_ok. simpl. rewrite Ha, Hb, !bool_decide_true by lia. done.
  - unfold handle_homing_move_end, self, gets, upd, modify, mbind, M_bind. simpl. rewrite Hd.
    destruct (decide (n = 0)) as [Hone|Hone]; [rewrite (bool_decide_true (n = 0)) by done|
      rewrite (bool_decide_false (n = 0)) by done]; simpl.
    + subst n. unfold homing_ok. simpl. rewrite Hone in *. rewrite Ha, Hb. done.
    + replace (Z.max 0 (n - 1)) with (n - 1) by lia.
      destruct (decide (n - 1 = 0)) as [Htwo|Htwo]; [rewrite (bool_decide_true (_ = _)) by done|
        rewrite (bool_decide_false (_ = _)) by done].
      * destruct (SetHomingActive_told false (set_depth (n - 1) c, (fh, e))) as (e' & -> & Hb').
        unfold homing_ok. simpl in *. rewrite Hb', bool_decide_false by lia. done.
      * unfold homing_ok. simpl. rewrite Ha, Hb, !bool_decide_true by lia. done.
Qed.

Lemma homing_run `{CommandLaws E} evs n (s : CommandRuntime * (FieldHelper * E)) :
  0 ≤ n → homing_ok n s →
  homing_ok (fold_left (λ n ev, match ev with MoveBegin => n + 1 | MoveEnd => Z.max 0 (n - 1) end) evs n)
    (fold_left (λ s ev, on_homing ev s) evs s).
Proof.
  revert n s. induction evs as [|ev evs IH]; intros n s Hz Hs; [done|]. simpl.
  apply IH; [destruct ev; lia|by apply homing_step].
Qed.

(** For any sequence of homing move begin and end events the homing flag of the driver
    and that of its error checker are set exactly while some begun move has not ended;
    ends without a begin are ignored. *)
Theorem homing_flag_follows_nesting `{CommandLaws E} (s : CommandRuntime * (FieldHelper * E)) (evs : list homing_event) :
  homing_ok 0 s → homing_ok (open_moves evs) (fold_left (λ s ev, on_homing ev s) evs s).
Proof. intros Hs. by apply homing_run. Qed.

(** ** A simulated printer *)

(** Registers, shutdown requests, the checker's homing flag, the clock in
    milliseconds, and how many register writes will still fail. *)
Record sim := mkSim {
  m_regs : gmap string Z;
  m_stops : nat;
  m_homing : bool;
  m_clock : Z;
  m_fail : nat
}.

Definition sim_set (r : string) (v : Z) : M sim (option string) := λ e,
  match m_fail e with
  | O => (Ret None, mkSim (<[r := v]> (m_regs e)) (m_stops e) (m_homing e) (m_clock e) 0)
  | S n => (Ret (Some "Unable to write tmc uart 'stepper_x' register GCONF"),
            mkSim (m_regs e) (m_stops e) (m_homing e) (m_clock e) n)
  end.
Definition tick (e : sim) : sim := mkSim (m_regs e) (m_stops e) (m_homing e) (m_clock e + 1) (m_fail e).

#[global] Instance sim_access : RegisterAccess sim := {|
  Get_register r := gets (λ e, inr (default 0 (m_regs e !! r)));
  Set_register r v _ := sim_set r v
|}.
#[global] Instance sim_env : CommandEnv sim := {|
  cmd_access := sim_access;
  checker_StartChecks := mret false;
  checker_StopChecks := mret tt;
  checker_SetHomingActive b := modify (λ e, mkSim (m_regs e) (m_stops e) b (m_clock e) (m_fail e));
  mutex_Lock := mret tt;
  mutex_Unlock := mret tt;
  Wait_moves := mret tt;
  toolhead_Monotonic := gets (λ e, f_lit (m_clock e) 1000);
  EstimatedPrintTime t := mret t;
  toolhead_Pause t := _ ← modify tick; mret t;
  Get_dir_inverted := mret 0;
  Get_mcu_position := mret 0;
  Get_pulse_duration := mret true;
  Setup_default_pulse_duration := mret tt;
  Lookup_enable _ := mret None;
  Register_state_callback := mret tt;
  Is_motor_enabled := mret true;
  Has_dedicated_enable := mret false;
  options_Shutdown _ := modify (λ e, mkSim (m_regs e) (S (m_stops e)) (m_homing e) (m_clock e) (m_fail e))
|}.

#[global] Program Instance sim_hw : HwLaws sim := {| hwreg e r := m_regs e !! r |}.
Next Obligation.
  intros r v pt e e'. simpl. unfold sim_set. destruct (m_fail e); intros [= <-]. simpl. by rewrite lookup_insert_eq.
Qed.
Next Obligation.
  intros r v pt e res e'. simpl. unfold sim_set. destruct (m_fail e); intros [= <- <-] r' Hr; [|done].
  simpl. by rewrite lookup_insert_ne.
Qed.

#[global] Instance sim_laws : CommandLaws sim.
Proof.
  refine {| cmd_hw := sim_hw; stops := m_stops; checker_homing := m_homing |}; try by intros.
  - intros r v pt e. simpl. unfold sim_set. by destruct (m_fail e).
  - intros b e. by eexists.
  - intros w e. by eexists.
Defined.

Definition sim_options : options := mkOptions true (Some (Some true)) true true.
Definition sim_runtime : CommandRuntime := set_stepper (Some "stepper_x") (NewCommandRuntime "stepper_x" sim_options).
Definition sim_sets : list (string * any) := [("toff", AInt 3); ("mres", AInt 4)].
Definition sim_fields : FieldHelper := set_all sim_sets (NewFieldHelper TMC2209Fields (chip_signed TMC2209) ∅ None).
Definition sim_start : CommandRuntime * (FieldHelper * sim) :=
  (HandleConnect (sim_runtime, (sim_fields, mkSim ∅ 0 false 0 0))).2.
Definition sim_requests : list request :=
  [(10%nat, f_lit 3 1000, true); (10%nat, f_lit 5 1000, false); (10%nat, f_lit 9 1000, true)].
Definition sim_final : CommandRuntime * (FieldHelper * sim) := default sim_start (serve sim_requests sim_start).

Lemma sim_connect : HandleConnect (sim_runtime, (sim_fields, mkSim ∅ 0 false 0 0)) = (Ret None, sim_start).
Proof.
  unfold sim_start.
  assert (Hret : (HandleConnect (sim_runtime, (sim_fields, mkSim ∅ 0 false 0 0))).1 = Ret None)
    by (vm_compute; reflexivity).
  revert Hret. generalize (HandleConnect (sim_runtime, (sim_fields, mkSim ∅ 0 false 0 0))).
  intros [r s]. simpl. by intros ->.
Qed.

Lemma virtual_enable_switches_driver_witness : chip_toff sim_final = Some 3.
Proof.
  refine (eq_trans (virtual_enable_switches_driver TMC2209 TMC2209Fields ∅ sim_sets sim_runtime
    (mkSim ∅ 0 false 0 0) sim_start sim_final sim_requests _ _ _ _ _ _ _) _).
  - reflexivity.
  - reflexivity.
  - reflexivity.
  - exact sim_connect.
  - exists 3. vm_compute. reflexivity.
  - unfold sim_final. destruct (serve sim_requests sim_start) as [s|] eqn:Hs; [reflexivity|].
    assert (Hc : match serve sim_requests sim_start with Some _ => true | None => false end = true)
      by (vm_compute; reflexivity). rewrite Hs in Hc. discriminate Hc.
  - vm_compute. reflexivity.
  - vm_compute. reflexivity.
Defined.

Lemma homing_flag_follows_nesting_witness :
  homing_ok 1 (fold_left (λ s ev, on_homing ev s) [MoveBegin; MoveBegin; MoveEnd; MoveEnd; MoveEnd; MoveBegin]
    (sim_runtime, (sim_fields, mkSim ∅ 0 false 0 0))).
Proof.
  apply (homing_flag_follows_nesting (sim_runtime, (sim_fields, mkSim ∅ 0 false 0 0))
    [MoveBegin; MoveBegin; MoveEnd; MoveEnd; MoveEnd; MoveBegin]).
  repeat split.
Defined.
