(* ===== verification/TmcVirtualPin.v ===== *)
(** * Sensorless homing

    [src/internal/pkg/tmc/virtual_pin_core.go]:
    for a homing move the helper changes a few driver fields, remembering what
    each held before, and puts them back afterwards; changed registers are
    queued and sent in the order they became dirty.  After homing every field
    holds what it held before, in the cache and on the chip
    ([homing_restores_driver]). *)

From S2P Require Import Prelude GoFloat GoStrings GoState TmcFields TmcFieldsThy TmcDefs TmcDefsThy TmcCodecs TmcBus TmcDriver TmcDriverThy.

Record VirtualPin := mkVP {
  diagPinField : option string;
  dirtyRegs : gmap string Z;
  dirtyOrder : list string;
  prevFields : gmap string Z;
  prevOrder : list string
}.

(** The constructor's choice of diag field: [hasDiag0] tells whether the
    configuration has a [diag0_pin]. *)
Definition NewVirtualPinHelperCore (fh : FieldHelper) (hasDiag0 : bool) : VirtualPin :=
  let f := match Lookup_register fh "diag0_stall" with
           | Some _ => Some (if hasDiag0 then "diag0_stall" else "diag1_stall")
           | None => None
           end in
  mkVP f ∅ [] ∅ [].

Section VirtualPin.
Context {E : Type} `{RegisterAccess E}.

Definition vp_state : Type := VirtualPin * FieldHelper.

Definition queueField (fieldName : string) (fieldValue : any) (s : vp_state) : vp_state :=
  let '(vp, fh) := s in
  match Lookup_register fh fieldName with
  | None => s
  | Some regName =>
      let '(prev, order) :=
        match prevFields vp !! fieldName with
        | Some _ => (prevFields vp, prevOrder vp)
        | None => (<[fieldName := Get_field fh fieldName None None]> (prevFields vp), prevOrder vp ++ [fieldName])
        end in
      let '(regValue, fh') := Set_field fh fieldName fieldValue None None in
      let dorder := match dirtyRegs vp !! regName with
                    | Some _ => dirtyOrder vp
                    | None => dirtyOrder vp ++ [regName]
                    end in
      (mkVP (diagPinField vp) (<[regName := regValue]> (dirtyRegs vp)) dorder prev order, fh')
  end.

Definition queue (fieldName : string) (fieldValue : any) : M (vp_state * E) unit :=
  modify (λ s, (queueField fieldName fieldValue s.1, s.2)).

Definition on_chip {A} (m : M E A) : M (vp_state * E) A :=
  λ s, let '(r, e) := m s.2 in (r, (s.1, e)).

Definition clear_dirty (s : vp_state) : vp_state :=
  (mkVP (diagPinField s.1) ∅ [] (prevFields s.1) (prevOrder s.1), s.2).

Definition sendQueuedFields (printTime : option f64) : M (vp_state * E) (option string) :=
  s ← gets fst;
  err ← mfor_err (dirtyOrder s.1) (λ regName,
    s ← gets fst;
    on_chip (Set_register regName (default 0 (dirtyRegs (s : vp_state).1 !! regName)) printTime));
  match err with
  | Some e => mret (Some e)
  | None => _ ← modify (λ s, (clear_dirty s.1, s.2)); mret None
  end.

Definition read_field (fieldName : string) : M (vp_state * E) Z :=
  gets (λ s, Get_field s.1.2 fieldName None None).

Definition has_field (fieldName : string) : M (vp_state * E) bool :=
  gets (λ s, bool_decide (is_Some (Lookup_register s.1.2 fieldName))).

(** [if value.IsNotNone(self.diagPinField) { self.queueField(...) }]. *)
Definition queue_diag : M (vp_state * E) unit :=
  s ← gets fst;
  match diagPinField (s : vp_state).1 with
  | Some f => queue f (AInt 1)
  | None => mret tt
  end.

Definition BeginHoming (tcoolthrsIfZero : Z) : M (vp_state * E) (option string) :=
  sg4 ← has_field "sg4_thrs";
  sg4Thrs ← (if sg4 : bool then read_field "sg4_thrs" else mret 0);
  pwm ← has_field "en_pwm_mode";
  _ ← (if negb pwm then
         _ ← queue "tpwmthrs" (AInt 0); queue "en_spreadcycle" (AInt 0)
       else if bool_decide (sg4Thrs ≠ 0) then
         _ ← queue "en_pwm_mode" (AInt 1); _ ← queue "tpwmthrs" (AInt 0); queue_diag
       else
         _ ← queue "en_pwm_mode" (AInt 0); queue_diag);
  tcool ← read_field "tcoolthrs";
  _ ← (if bool_decide (tcool = 0) then queue "tcoolthrs" (AInt64 tcoolthrsIfZero) else mret tt);
  thigh ← has_field "thigh";
  _ ← (if thigh : bool then queue "thigh" (AInt 0) else mret tt);
  sendQueuedFields None.

Definition BeginMoveHoming : M (vp_state * E) (option string) :=
  _ ← queue "tcoolthrs" (AInt 0);
  err ← sendQueuedFields None;
  match err with
  | Some e => mret (Some e)
  | None => BeginHoming 500
  end.

Definition clear_prev (s : vp_state) : vp_state :=
  (mkVP (diagPinField s.1) (dirtyRegs s.1) (dirtyOrder s.1) ∅ [], s.2).

Definition EndHoming (printTime : option f64) : M (vp_state * E) (option string) :=
  s ← gets fst;
  _ ← mfor (prevOrder (s : vp_state).1) (λ fieldName,
    s ← gets fst;
    queue fieldName (AInt64 (default 0 (prevFields (s : vp_state).1 !! fieldName))));
  err ← sendQueuedFields printTime;
  match err with
  | Some e => mret (Some e)
  | None => _ ← modify (λ s, (clear_prev s.1, s.2)); mret None
  end.

(** ** Homing changes no field for good *)

(** The fields of [fh0] while some are changed: those in [prevOrder] were
    remembered, the others hold what they held. *)
Record saved (fh0 : FieldHelper) (s : vp_state) : Prop := {
  sv_schema : same_schema s.2 fh0;
  sv_wf : wf s.2;
  sv_nodup : NoDup (prevOrder s.1);
  sv_dom : ∀ f, f ∈ prevOrder s.1 ↔ is_Some (prevFields s.1 !! f);
  sv_known : ∀ f, f ∈ prevOrder s.1 → knows fh0 f;
  sv_prev : ∀ f v, prevFields s.1 !! f = Some v → v = Get_field fh0 f None None;
  sv_rest : ∀ f, knows fh0 f → f ∉ prevOrder s.1 → Get_field s.2 f None None = Get_field fh0 f None None
}.

Lemma saved_new fh hasDiag0 : wf fh → saved fh (NewVirtualPinHelperCore fh hasDiag0, fh).
Proof.
  intros Hw. split; simpl; try done.
  - constructor.
  - intros f. rewrite lookup_empty. split; [by intros ?%not_elem_of_nil|by intros []].
  - by intros f ?%not_elem_of_nil.
Qed.

(** What [queueField] does for a known field. *)
Lemma queueField_known f v vp fh r :
  Lookup_register fh f = Some r →
  let s' := queueField f v (vp, fh) in
  s'.2 = (Set_field fh f v None None).2 ∧
  (prevOrder s'.1 = prevOrder vp ∧ prevFields s'.1 = prevFields vp ∧ is_Some (prevFields vp !! f) ∨
   prevOrder s'.1 = prevOrder vp ++ [f] ∧
   prevFields s'.1 = <[f := Get_field fh f None None]> (prevFields vp) ∧ prevFields vp !! f = None) ∧
  (dirtyRegs s'.1 = <[r := (Set_field fh f v None None).1]> (dirtyRegs vp)) ∧
  dirtyOrder s'.1 = (if bool_decide (is_Some (dirtyRegs vp !! r)) then dirtyOrder vp else dirtyOrder vp ++ [r]).
Proof.
  intros Hr. unfold queueField. rewrite Hr. destruct (Set_field fh f v None None) as [x fh'].
  destruct (prevFields vp !! f) eqn:Hp, (dirtyRegs vp !! r) eqn:Hd; simpl; split_and!; try done;
    first [left; by split_and! | right; by split_and! | idtac].
Qed.

Lemma queueField_saved fh0 f v s : saved fh0 s → saved fh0 (queueField f v s).
Proof.
  intros Hs. destruct s as [vp fh]. destruct (Lookup_register fh f) as [r|] eqn:Hr.
  2: { unfold queueField. by rewrite Hr. }
  destruct Hs as [Hsch Hw Hnd Hdom Hk Hp Hrest]. cbn [fst snd] in *.
  assert (Hkf' : knows fh f) by (by exists r).
  assert (Hkf : knows fh0 f) by (eapply knows_schema; [symmetry; exact Hsch|done]).
  destruct (queueField_known f v vp fh r Hr) as (Hfh & Hprev & _ & _).
  assert (Hnew : ∀ g, knows fh0 g → g ≠ f → Get_field (queueField f v (vp, fh)).2 g None None = Get_field fh g None None).
  { intros g Hg Hne. rewrite Hfh, get_set, bool_decide_false; [done..|].
    eapply knows_schema; [|exact Hg]. done. }
  assert (Hsch' : same_schema (queueField f v (vp, fh)).2 fh0)
    by (rewrite Hfh; etrans; [apply Set_field_schema|done]).
  assert (Hw' : wf (queueField f v (vp, fh)).2) by (rewrite Hfh; by apply set_wf).
  cbv zeta in Hprev. set (s' := queueField f v (vp, fh)) in *. clearbody s'.
  destruct Hprev as [(Ho & Hpf & Hin)|(Ho & Hpf & Hnone)]; split; rewrite ?Ho, ?Hpf; try assumption.
  - intros g Hg Hni. rewrite Hnew; [by apply Hrest|done|]. intros ->. apply Hni. by apply Hdom.
  - apply NoDup_app. split_and!; [done| |apply NoDup_singleton].
    intros g Hg ->%list_elem_of_singleton. apply Hdom in Hg. rewrite Hnone in Hg. by destruct Hg.
  - intros g. rewrite elem_of_app, list_elem_of_singleton, lookup_insert_is_Some, Hdom.
    destruct (decide (f = g)) as [->|]; naive_solver.
  - intros g [Hg| ->%list_elem_of_singleton]%elem_of_app; auto.
  - intros g x [[<- <-]|[_ Hg]]%lookup_insert_Some; [|by apply Hp]. apply Hrest; [done|].
    rewrite Hdom, Hnone. by intros [].
  - intros g Hg [Hni Hne]%not_elem_of_app. rewrite Hnew; [by apply Hrest|done|].
    intros ->. apply Hne. by constructor.
Qed.

Lemma keeps_queue fh0 f v : keeps (λ s : vp_state * E, saved fh0 s.1) (queue f v).
Proof. apply keeps_modify. intros s Hs. by apply queueField_saved. Qed.

Lemma keeps_on_chip {A} fh0 (m : M E A) : keeps (λ s : vp_state * E, saved fh0 s.1) (on_chip m).
Proof. intros [s e] Hs. unfold on_chip. simpl. destruct (m e) as [[a|w] e']; done. Qed.

Lemma saved_clear_dirty fh0 s : saved fh0 s → saved fh0 (clear_dirty s).
Proof. by intros []. Qed.

#[local] Hint Resolve keeps_queue keeps_on_chip : keeps.

Lemma keeps_send fh0 pt : keeps (λ s : vp_state * E, saved fh0 s.1) (sendQueuedFields pt).
Proof.
  unfold sendQueuedFields. keeps_steps.
  - apply keeps_mfor_err. intros r. keeps_steps.
  - apply keeps_modify. intros s Hs. by apply saved_clear_dirty.
Qed.

(** Sending keeps the fields themselves. *)
Lemma keeps_send_fields fh0 fh1 pt :
  keeps (λ s : vp_state * E, saved fh0 s.1 ∧ s.1.2 = fh1) (sendQueuedFields pt).
Proof.
  unfold sendQueuedFields. keeps_steps.
  - apply keeps_mfor_err. intros r. keeps_steps.
    intros [s e] Hs. unfold on_chip. simpl. destruct (Set_register _ _ _ e) as [[o|w] e']; done.
  - apply keeps_modify. intros s [Hs He]. split; [by apply saved_clear_dirty|done].
Qed.

#[local] Hint Resolve keeps_send : keeps.

Lemma keeps_BeginHoming fh0 x : keeps (λ s : vp_state * E, saved fh0 s.1) (BeginHoming x).
Proof.
  unfold BeginHoming, has_field, read_field, queue_diag. keeps_steps.
Qed.

#[local] Hint Resolve keeps_BeginHoming : keeps.

Lemma keeps_BeginMoveHoming fh0 : keeps (λ s : vp_state * E, saved fh0 s.1) BeginMoveHoming.
Proof.
  unfold BeginMoveHoming. keeps_steps.
Qed.

(** The fields of [fh0] except those still to be restored. *)
Definition restoring (fh0 : FieldHelper) (l : list string) (s : vp_state * E) : Prop :=
  saved fh0 s.1 ∧ (∀ f, f ∈ l → f ∈ prevOrder s.1.1) ∧
  (∀ f, knows fh0 f → f ∉ l → Get_field s.1.2 f None None = Get_field fh0 f None None).

Lemma restore_one fh0 f l s :
  wf fh0 → restoring fh0 (f :: l) s →
  restoring fh0 l (queueField f (AInt64 (default 0 (prevFields s.1.1 !! f))) s.1, s.2).
Proof.
  intros Hw0 (Hs & Hin & Hrest). destruct s as [[vp fh] e]. cbn [fst snd] in *.
  pose proof (queueField_saved fh0 f (AInt64 (default 0 (prevFields vp !! f))) _ Hs) as Hs'.
  destruct Hs as [Hsch Hw Hnd Hdom Hk Hp _]. cbn [fst snd] in *.
  assert (Hf : f ∈ prevOrder vp) by (apply Hin; constructor).
  assert (Hkf : knows fh0 f) by (by apply Hk).
  assert (Hkf' : knows fh f) by (eapply knows_schema; [exact Hsch|done]).
  destruct (proj1 (Hdom f) Hf) as [v Hv]. rewrite Hv in *. cbn [from_option id] in *.
  apply Hp in Hv as Hval. subst v. destruct Hkf' as [r Hr].
  destruct (queueField_known f (AInt64 (Get_field fh0 f None None)) vp fh r Hr) as (Hfh & Hprev & _ & _).
  destruct Hprev as [(Ho & _ & _)|(_ & _ & Hn)]; [|by rewrite Hv in Hn].
  split_and!; [exact Hs'| |].
  - intros g Hg. cbn [fst]. rewrite Ho. apply Hin. by constructor 2.
  - intros g Hg Hni. cbn [fst]. rewrite Hfh.
    assert (knows fh g) by (eapply knows_schema; [exact Hsch|done]).
    rewrite get_set by (done || by exists r). case_bool_decide as He.
    + subst g. cbn [ToInt64]. rewrite (schema_fit fh fh0) by done. destruct Hkf as [r0 Hr0].
      by eapply Get_field_fit.
    + apply Hrest; [done|]. by apply not_elem_of_cons.
Qed.

Lemma restore_loop fh0 l :
  wf fh0 →
  hoare (restoring fh0 l) (mfor l (λ fieldName,
    s ← gets fst;
    queue fieldName (AInt64 (default 0 (prevFields (s : vp_state).1 !! fieldName)))))
    (onret (λ _ s, restoring fh0 [] s)).
Proof.
  intros Hw0. induction l as [|f l IH]; cbn [mfor]; [by apply hoare_ret|].
  apply hoare_bind with (R := λ _, restoring fh0 l); [|intros ?; exact IH].
  intros s Hs. unfold gets, queue, modify, mbind, M_bind. simpl. by apply restore_one.
Qed.

(** The fields held once everything is restored; sending changes none. *)
Definition restored (fh0 : FieldHelper) (s : vp_state * E) : Prop :=
  same_schema s.1.2 fh0 ∧ wf s.1.2 ∧ ∀ f, knows fh0 f → Get_field s.1.2 f None None = Get_field fh0 f None None.

Lemma EndHoming_restores fh0 pt :
  wf fh0 →
  hoare (λ s, saved fh0 s.1) (EndHoming pt)
    (onret (λ r s, restored fh0 s ∧ (r = None → prevFields s.1.1 = ∅ ∧ prevOrder s.1.1 = []))).
Proof.
  intros Hw0. unfold EndHoming. apply hoare_fix. intros s0 Hs0.
  eapply hoare_bind; [apply hoare_gets with (Q := λ u s, s = s0 ∧ u = s0.1); by intros s ->|].
  intros u. eapply hoare_bind with (R := λ _ s, restoring fh0 [] s).
  { apply hoare_fix. intros s1 [-> ->]. eapply hoare_weaken; [by apply restore_loop| |done].
    intros s ->. split_and!; [done..|]. by destruct Hs0. }
  intros _. eapply hoare_bind with (R := λ _ s, saved fh0 s.1 ∧ restored fh0 s).
  { apply hoare_fix. intros s1 (Hs1 & _ & Hall).
    assert (Hr : ∀ s : vp_state * E, s.1.2 = s1.1.2 → restored fh0 s).
    { intros s He. unfold restored. rewrite He. destruct Hs1. split_and!; try done.
      intros f Hf. apply Hall; [done|]. apply not_elem_of_nil. }
    eapply hoare_weaken with (P' := λ s, saved fh0 s.1 ∧ s.1.2 = s1.1.2)
      (Q' := λ _ s, saved fh0 s.1 ∧ s.1.2 = s1.1.2); [|by intros s ->|].
    - apply (keeps_send_fields fh0 s1.1.2).
    - intros r s [? ?]. split; auto. }
  intros [e|].
  - apply hoare_ret. intros s [_ Hs]. by split.
  - eapply hoare_bind; [apply hoare_modify with (Q := λ _ s, restored fh0 s ∧ prevFields s.1.1 = ∅ ∧ prevOrder s.1.1 = [])|].
    + intros [[vp fh] e] [_ Hs]. by split_and!.
    + intros []. apply hoare_ret. intros s (? & ? & ?). by split_and!.
Qed.
End VirtualPin.

(** ** The chip follows the cache *)

Section Chip.
Context `{HwLaws E}.

Implicit Types (u : vp_state) (s : vp_state * E).

(** The queue of dirty registers holds what the cache holds for them. *)
Record queued u : Prop := {
  q_dom : ∀ r, is_Some (dirtyRegs u.1 !! r) ↔ r ∈ dirtyOrder u.1;
  q_nodup : NoDup (dirtyOrder u.1);
  q_val : ∀ r v, dirtyRegs u.1 !! r = Some v → registers u.2 !! r = Some v
}.

(** Registers that are not dirty, or are among [done], are in the chip. *)
Definition sent u (done : list string) (e : E) : Prop :=
  ∀ r v, registers u.2 !! r = Some v → r ∉ dirtyOrder u.1 ∨ r ∈ done → hwreg e r = Some v.

Definition agree s : Prop := queued s.1 ∧ sent s.1 [] s.2.

Lemma sent_nil u done e : sent u done e → sent u [] e.
Proof. intros Hs r v Hr [Hd|Hd]; [by apply Hs; auto|by apply not_elem_of_nil in Hd]. Qed.

Lemma queueField_agree f v s : agree s → agree (queueField f v s.1, s.2).
Proof.
  intros [Hq Hs]. destruct s as [[vp fh] e]. cbn [fst snd] in *.
  destruct (Lookup_register fh f) as [r|] eqn:Hr; [|unfold queueField; rewrite Hr; done].
  destruct (queueField_known f v vp fh r Hr) as (Hfh & _ & Hd & Ho). cbv zeta in *.
  pose proof (Set_field_register fh f v r Hr) as Hreg.
  destruct (Set_field fh f v None None) as [x fh'] eqn:Hset. destruct Hreg as [Hreg _]. cbn [fst snd] in *.
  set (s' := queueField f v (vp, fh)) in *. clearbody s'. destruct Hq as [Hdom Hnd Hval]. cbn [fst snd] in *.
  assert (Hmem : ∀ r', r' ∈ dirtyOrder s'.1 ↔ r' = r ∨ r' ∈ dirtyOrder vp).
  { intros r'. rewrite Ho. case_bool_decide as Hb.
    - split; [by right|]. intros [->|?]; [by apply Hdom|done].
    - rewrite elem_of_app, list_elem_of_singleton. tauto. }
  split; [split|]; cbn [fst snd]; rewrite ?Hfh.
  - intros r'. rewrite Hd, Hmem, lookup_insert_is_Some, Hdom. destruct (decide (r = r')) as [->|]; naive_solver.
  - rewrite Ho. case_bool_decide as Hb; [done|]. apply NoDup_app. split_and!; [done| |apply NoDup_singleton].
    intros r' Hr' ->%list_elem_of_singleton. apply Hb. by apply Hdom.
  - intros r' w. rewrite Hd, Hreg. intros [[<- <-]|[Hne Hw]]%lookup_insert_Some.
    + by rewrite lookup_insert_eq.
    + rewrite lookup_insert_ne by done. by apply Hval.
  - intros r' w. cbn [fst snd]. rewrite Hfh, Hreg. intros Hl [Hni|Hni]; [|by apply not_elem_of_nil in Hni].
    rewrite Hmem in Hni. rewrite lookup_insert_ne in Hl by (intros ->; tauto). apply Hs; [done|]. tauto.
Qed.

Lemma send_loop u pt done l :
  queued u → NoDup (done ++ l) → (∀ r, r ∈ done ++ l → r ∈ dirtyOrder u.1) →
  hoare (λ s, s.1 = u ∧ sent u done s.2)
    (mfor_err l (λ regName,
       s ← gets fst;
       on_chip (Set_register regName (default 0 (dirtyRegs (s : vp_state).1 !! regName)) pt)))
    (onret (λ r s, s.1 = u ∧ sent u [] s.2 ∧ (r = None → sent u (done ++ l) s.2))).
Proof.
  intros Hq. revert done. induction l as [|r l IH]; intros done Hnd Hin; cbn [mfor_err].
  { apply hoare_ret. intros s [Hu Hs]. rewrite app_nil_r. split_and!; [done|by eapply sent_nil|done]. }
  assert (Hr : r ∈ dirtyOrder u.1) by (apply Hin; set_solver).
  assert (Hndone : r ∉ done) by (apply NoDup_app in Hnd as (_ & Hx & _); intros Hd; apply (Hx r Hd); constructor).
  destruct (proj2 (q_dom _ Hq r) Hr) as [v Hv].
  eapply hoare_bind with (R := λ err s, s.1 = u ∧ sent u done s.2 ∧ (err = None → sent u (done ++ [r]) s.2)).
  - intros [u' e] [Hu Hs]. cbn [fst snd] in Hu, Hs. subst u'. unfold gets, on_chip, mbind, M_bind. cbn [fst snd].
    rewrite Hv. cbn [from_option id]. destruct (Set_register r v pt e) as [res e'] eqn:Hset.
    assert (Hframe : sent u done e').
    { intros r' w Hw Hor. rewrite (hw_frame _ _ _ _ _ _ Hset); [by apply Hs|]. intros ->. tauto. }
    destruct res as [err|w]; simpl; [|done]. split_and!; [done..|]. intros ->.
    intros r' w Hw Hor. destruct (decide (r' = r)) as [->|Hne].
    + rewrite (hw_set_ok _ _ _ _ _ Hset). apply (q_val _ Hq) in Hv. congruence.
    + apply Hframe; [done|]. rewrite elem_of_app, list_elem_of_singleton in Hor. tauto.
  - intros [err|].
    + apply hoare_ret. intros s (Hu & Hs & _). split_and!; [done|by eapply sent_nil|done].
    + eapply hoare_weaken; [apply (IH (done ++ [r])); rewrite <- app_assoc; done| |].
      * intros s (Hu & _ & Hs). by auto.
      * intros res s (? & ? & Hs). rewrite <- app_assoc in Hs. done.
Qed.

Lemma send_agree pt :
  hoare agree (sendQueuedFields pt) (onret (λ r s, agree s ∧ (r = None → dirtyOrder s.1.1 = []))).
Proof.
  apply hoare_fix. intros [u e] [Hq Hs]. unfold sendQueuedFields. cbn [fst snd] in *.
  eapply hoare_bind; [apply hoare_gets with (Q := λ v s, s = (u, e) ∧ v = u); by intros s ->|].
  intros u'. eapply hoare_bind with (R := λ r s, s.1 = u ∧ sent u [] s.2 ∧ (r = None → sent u (dirtyOrder u.1) s.2)).
  { apply hoare_fix. intros s1 [-> ->]. eapply hoare_weaken; [apply (send_loop u pt []); try done; apply Hq| |].
    - by intros s ->.
    - done. }
  intros [err|].
  - apply hoare_ret. intros s (Hu & Hs' & _). split; [|done]. by split; rewrite Hu.
  - eapply hoare_bind with (R := λ _ s, agree s ∧ dirtyOrder s.1.1 = []).
    + apply hoare_modify. intros [u1 e1] (Hu1 & _ & Hs'). cbn [fst snd] in Hu1, Hs'. subst u1. specialize (Hs' eq_refl). split; [|done].
      split; [split|]; cbn [clear_dirty fst snd dirtyRegs dirtyOrder].
      * intros r. rewrite lookup_empty. split; [by intros []|by intros ?%not_elem_of_nil].
      * constructor.
      * intros r v. by rewrite lookup_empty.
      * intros r v Hr _. apply Hs'; [done|]. destruct (decide (r ∈ dirtyOrder u.1)); tauto.
    + intros []. apply hoare_ret. intros s [? ?]. by split.
Qed.

Lemma keeps_agree_send pt : keeps agree (sendQueuedFields pt).
Proof. eapply hoare_weaken; [apply send_agree|done|]. by intros r s [? _]. Qed.

Lemma keeps_agree_queue f v : keeps agree (queue f v).
Proof. apply keeps_modify. intros s Hs. by apply queueField_agree. Qed.

#[local] Hint Resolve keeps_agree_send keeps_agree_queue : keeps.

Lemma keeps_agree_Begin x : keeps agree (BeginHoming x).
Proof. unfold BeginHoming, has_field, read_field, queue_diag. keeps_steps. Qed.

#[local] Hint Resolve keeps_agree_Begin : keeps.

Lemma keeps_agree_BeginMove : keeps agree BeginMoveHoming.
Proof. unfold BeginMoveHoming. keeps_steps. Qed.

Lemma EndHoming_agree pt :
  hoare agree (EndHoming pt) (onret (λ r s, agree s ∧ (r = None → dirtyOrder s.1.1 = []))).
Proof.
  unfold EndHoming. eapply hoare_bind with (R := λ _, agree); [by apply hoare_gets|]. intros u.
  eapply hoare_bind with (R := λ _, agree).
  { apply keeps_mfor. intros f. keeps_steps. }
  intros []. eapply hoare_bind; [apply send_agree|]. intros [err|].
  - apply hoare_ret. intros s [? _]. by split.
  - eapply hoare_bind with (R := λ _ s, agree s ∧ dirtyOrder s.1.1 = []).
    + apply hoare_modify. intros [[vp fh] e] [[[] Hs] Hd]. split; [by split|]. by apply Hd.
    + intros []. apply hoare_ret. intros s [? ?]. by split.
Qed.
End Chip.

(** C20. A sensorless homing move that has begun and ended leaves every field of the driver
    with the value it had before, even when register writes failed; when the end
    succeeded the saved fields are forgotten, and a chip that agreed with the cached
    registers agrees with them again. *)
Theorem homing_restores_driver `{HwLaws E} (c : chip) (t : fieldTable) fmts (sets : list (string * any))
    (vp : VirtualPin) (e : E) (begin : M (vp_state * E) (option string)) (pt : option f64) r1 s1 r2 s2 :
  t ≡ₚ chip_fields c →
  let fh := set_all sets (NewFieldHelper t (chip_signed c) fmts None) in
  prevFields vp = ∅ → prevOrder vp = [] →
  begin = BeginMoveHoming ∨ (∃ x, begin = BeginHoming x) →
  begin ((vp, fh), e) = (Ret r1, s1) → EndHoming pt s1 = (Ret r2, s2) →
  (∀ f, is_Some (Lookup_register fh f) → Get_field s2.1.2 f None None = Get_field fh f None None) ∧
  (r2 = None → prevFields s2.1.1 = ∅ ∧ prevOrder s2.1.1 = []) ∧
  (agree ((vp, fh), e) → r2 = None →
     ∀ r v, registers s2.1.2 !! r = Some v → hwreg s2.2 r = Some v).
Proof.
  intros Hp fh Hpf Hpo Hbegin Hrun1 Hrun2.
  destruct (chip_helper_inv c t fmts sets Hp) as [Hw _]. fold fh in Hw.
  assert (Hs0 : saved fh ((vp, fh), e).1).
  { split; cbn [fst snd]; rewrite ?Hpf, ?Hpo; try done; [constructor| |].
    - intros f. rewrite lookup_empty. split; [by intros ?%not_elem_of_nil|by intros []].
    - by intros f ?%not_elem_of_nil. }
  assert (Hs1 : saved fh s1.1).
  { destruct Hbegin as [->|[x ->]].
    - exact (hoare_run _ _ _ _ _ _ (keeps_BeginMoveHoming fh) Hs0 Hrun1).
    - exact (hoare_run _ _ _ _ _ _ (keeps_BeginHoming fh x) Hs0 Hrun1). }
  destruct (hoare_run _ _ _ _ _ _ (EndHoming_restores fh pt Hw) Hs1 Hrun2) as [(_ & _ & Hget) Hclean].
  split_and!; [exact Hget|exact Hclean|]. intros Hag ->.
  assert (Hag1 : agree s1).
  { destruct Hbegin as [->|[x ->]].
    - exact (hoare_run _ _ _ _ _ _ keeps_agree_BeginMove Hag Hrun1).
    - exact (hoare_run _ _ _ _ _ _ (keeps_agree_Begin x) Hag Hrun1). }
  destruct (hoare_run _ _ _ _ _ _ (EndHoming_agree pt) Hag1 Hrun2) as [[_ Hsent] Hd].
  intros r v Hr. apply Hsent; [done|]. left. rewrite Hd by done. apply not_elem_of_nil.
Qed.

Definition demo_sets : list (string * any) := [("tcoolthrs", AInt 90); ("en_spreadcycle", AInt 1)].
Definition demo_fields : FieldHelper := set_all demo_sets (NewFieldHelper TMC2209Fields (chip_signed TMC2209) ∅ None).
Definition demo_vp : VirtualPin := NewVirtualPinHelperCore demo_fields false.
Definition demo_begin : go (option string) * (vp_state * gmap string Z) := BeginMoveHoming ((demo_vp, demo_fields), ∅).
Definition demo_end : go (option string) * (vp_state * gmap string Z) := EndHoming None demo_begin.2.

Lemma homing_restores_driver_witness :
  demo_begin.1 = Ret None ∧ Get_field demo_begin.2.1.2 "tcoolthrs" None None = 500 ∧
  demo_end.1 = Ret None ∧
  Get_field demo_end.2.1.2 "tcoolthrs" None None = Get_field demo_fields "tcoolthrs" None None ∧
  Get_field demo_end.2.1.2 "en_spreadcycle" None None = Get_field demo_fields "en_spreadcycle" None None.
Proof.
  assert (H1 : demo_begin.1 = Ret None) by (vm_compute; reflexivity).
  assert (H2 : demo_end.1 = Ret None) by (vm_compute; reflexivity).
  destruct (homing_restores_driver TMC2209 TMC2209Fields ∅ demo_sets demo_vp ∅ BeginMoveHoming None
    None demo_begin.2 None demo_end.2 ltac:(reflexivity) ltac:(vm_compute; reflexivity) ltac:(vm_compute; reflexivity)
    (or_introl eq_refl) (run_result _ _ _ H1) (run_result _ _ _ H2)) as (Hget & _ & _).
  split_and!; [exact H1|vm_compute; reflexivity|exact H2|apply Hget|apply Hget]; vm_compute; eauto.
Defined.
