(* ===== verification/TmcErrorCheck.v ===== *)
(** * Watching the drivers for errors

    [src/internal/pkg/tmc/error_check_runtime.go]: the status registers of a
    driver are read once a second; error flags are confirmed by up to three
    reads; a UART that fails to answer is tolerated for a while, and not polled
    at all during homing and for thirty seconds after it. *)

From S2P Require Import Prelude GoFloat GoStrings GoState TmcFields TmcBus.

Definition errorCheckMaxTransientUARTReadFailures : Z := 5.
Definition errorCheckPostHomingTransientGraceSeconds : f64 := f_of_Z 30.
Definition pollStaggerInterval : f64 := f_lit 333 1000.

(** The driver's registers, the reactor and the shutdown handler. *)
Class CheckEnv (E : Type) := {
  ce_access :: RegisterAccess E;
  Get_fields : E → FieldHelper;
  Monotonic : M E f64;
  Pause : f64 → M E f64;
  RegisterTimer : f64 → M E unit;
  UnregisterTimer : M E unit;
  shutdown : string → M E unit
}.

Record regInfo := mkInfo {
  ri_last : Z;
  ri_name : string;
  ri_mask : Z;
  ri_errMask : Z;
  ri_csActualMask : Z
}.

(** The fields are the driver's own, shared with the code that changes them:
    they are part of the environment. *)
Record ErrorCheckRuntime := mkCheck {
  c_stepper : string;
  c_timer : bool;                     (* checkTimer != nil *)
  c_lastDrv : option (Z * gmap string Z);  (* lastDrvStatus, lastDrvFields *)
  c_gstat : option regInfo;
  c_clearGSTAT : bool;
  c_irunField : string;
  c_drv : regInfo;
  c_adcTemp : option Z;
  c_adcTempReg : string;
  c_readFailureCount : Z;
  c_pollOffset : f64;
  c_homingActive : bool;
  c_homingGraceUntil : f64
}.

(** Field updates. *)
Definition set_timer (b : bool) (c : ErrorCheckRuntime) : ErrorCheckRuntime :=
  mkCheck (c_stepper c) b (c_lastDrv c) (c_gstat c) (c_clearGSTAT c) (c_irunField c) (c_drv c)
    (c_adcTemp c) (c_adcTempReg c) (c_readFailureCount c) (c_pollOffset c) (c_homingActive c) (c_homingGraceUntil c).
Definition set_lastDrv (v : option (Z * gmap string Z)) (c : ErrorCheckRuntime) : ErrorCheckRuntime :=
  mkCheck (c_stepper c) (c_timer c) v (c_gstat c) (c_clearGSTAT c) (c_irunField c) (c_drv c)
    (c_adcTemp c) (c_adcTempReg c) (c_readFailureCount c) (c_pollOffset c) (c_homingActive c) (c_homingGraceUntil c).
Definition set_failures (n : Z) (c : ErrorCheckRuntime) : ErrorCheckRuntime :=
  mkCheck (c_stepper c) (c_timer c) (c_lastDrv c) (c_gstat c) (c_clearGSTAT c) (c_irunField c) (c_drv c)
    (c_adcTemp c) (c_adcTempReg c) n (c_pollOffset c) (c_homingActive c) (c_homingGraceUntil c).
Definition set_adc (v : option Z) (c : ErrorCheckRuntime) : ErrorCheckRuntime :=
  mkCheck (c_stepper c) (c_timer c) (c_lastDrv c) (c_gstat c) (c_clearGSTAT c) (c_irunField c) (c_drv c)
    v (c_adcTempReg c) (c_readFailureCount c) (c_pollOffset c) (c_homingActive c) (c_homingGraceUntil c).
Definition set_homing (b : bool) (until : f64) (c : ErrorCheckRuntime) : ErrorCheckRuntime :=
  mkCheck (c_stepper c) (c_timer c) (c_lastDrv c) (c_gstat c) (c_clearGSTAT c) (c_irunField c) (c_drv c)
    (c_adcTemp c) (c_adcTempReg c) (c_readFailureCount c) (c_pollOffset c) b until.

(** [regInfo.lastValue = val], on the GSTAT entry or on the DRV_STATUS one. *)
Definition with_last (v : Z) (i : regInfo) : regInfo :=
  mkInfo v (ri_name i) (ri_mask i) (ri_errMask i) (ri_csActualMask i).
Definition set_gstat (i : option regInfo) (c : ErrorCheckRuntime) : ErrorCheckRuntime :=
  mkCheck (c_stepper c) (c_timer c) (c_lastDrv c) i (c_clearGSTAT c) (c_irunField c) (c_drv c)
    (c_adcTemp c) (c_adcTempReg c) (c_readFailureCount c) (c_pollOffset c) (c_homingActive c) (c_homingGraceUntil c).
Definition set_drv (i : regInfo) (c : ErrorCheckRuntime) : ErrorCheckRuntime :=
  mkCheck (c_stepper c) (c_timer c) (c_lastDrv c) (c_gstat c) (c_clearGSTAT c) (c_irunField c) i
    (c_adcTemp c) (c_adcTempReg c) (c_readFailureCount c) (c_pollOffset c) (c_homingActive c) (c_homingGraceUntil c).
Definition set_last (gstat : bool) (v : Z) (c : ErrorCheckRuntime) : ErrorCheckRuntime :=
  if gstat then set_gstat (with_last v <$> c_gstat c) c else set_drv (with_last v (c_drv c)) c.

Definition isHomingOrGrace (c : ErrorCheckRuntime) (eventtime : f64) : bool :=
  c_homingActive c || flt eventtime (c_homingGraceUntil c).

Definition isTransientUARTReadError (err : string) : bool := HasPrefix err "Unable to read tmc uart".

(** ** Construction *)

(** The masks of a register's fields, 0 for a field it does not have. *)
Definition masks_of (fs : gmap string Z) (names : list string) : Z :=
  fold_left (λ acc f, Z.lor acc (default 0 (fs !! f))) names 0.

(** [idx] is the number of checkers created before this one. *)
Definition NewErrorCheckRuntime `{CheckEnv E} (driverName stepperName : string) (idx : Z)
    : M E ErrorCheckRuntime :=
  fh ← gets Get_fields;
  _ ← RegisterTimer NEVER;
  let gstat := match Lookup_register fh "drv_err" with
               | Some regName => if bool_decide (regName = EmptyString) then None
                                 else Some (mkInfo 0 regName 0xffffffff 0xffffffff 0)
               | None => None
               end in
  let tmc2130 := bool_decide (driverName = "tmc2130") in
  let tmc2660 := bool_decide (driverName = "tmc2660") in
  let regName := if tmc2660 then "READRSP@RDSEL2" else "DRV_STATUS" in
  let fs := default ∅ (allFields fh !! regName) in
  let cs := if tmc2130 then default 0 (fs !! "cs_actual")
            else if tmc2660 then default 0 (fs !! "se") else 0 in
  let err := masks_of fs ["ot"; "s2ga"; "s2gb"; "s2vsa"; "s2vsb"] in
  let warn := masks_of fs ["otpw"; "t120"; "t143"; "t150"; "t157"] in
  mret (mkCheck stepperName true None gstat (negb tmc2130) (if tmc2660 then "cs" else "irun")
    (mkInfo 0 regName (Z.lor err warn) err cs) None (default EmptyString (Lookup_register fh "adc_temp"))
    0 (fmul (f_of_Z idx) pollStaggerInterval) false f0).

Section Check.
Context `{CheckEnv E}.

Definition self : M (ErrorCheckRuntime * E) ErrorCheckRuntime := gets fst.
Definition upd (f : ErrorCheckRuntime → ErrorCheckRuntime) : M (ErrorCheckRuntime * E) unit :=
  modify (λ s, (f s.1, s.2)).
Definition env {A} (m : M E A) : M (ErrorCheckRuntime * E) A :=
  λ s, let '(r, e) := m s.2 in (r, (s.1, e)).

Definition fields : M (ErrorCheckRuntime * E) FieldHelper := gets (λ s, Get_fields s.2).

(** ** Querying a register *)

(** A register value that ends the query: no error flag, and a current reading
    that is not suspicious. *)
Definition acceptable (c : ErrorCheckRuntime) (fh : FieldHelper) (info : regInfo) (val : Z) : bool :=
  bool_decide (Z.land val (ri_errMask info) = 0) &&
  (bool_decide (ri_csActualMask info = 0) || bool_decide (Z.land val (ri_csActualMask info) ≠ 0) ||
   negb (c_timer c) || bool_decide (Get_field fh (c_irunField c) None None < 4) ||
   (bool_decide (c_irunField c = "irun") && bool_decide (Get_field fh "ihold" None None = 0))).

(** [n] is the number of reads left ([3 - count]); [info] carries the last
    value, [cleared] the flags written back. *)
Fixpoint query_loop (n : nat) (gstat : bool) (info : regInfo) (tryClear : bool) (cleared : Z)
    : M (ErrorCheckRuntime * E) (string + Z) :=
  match n with
  | O => mret (inr cleared)
  | S n =>
      val ← env (Get_register (ri_name info));
      match val with
      | inl err =>
          if bool_decide (0 < n)%nat && isTransientUARTReadError err then
            _ ← env (t ← Monotonic; Pause (fadd t (f_lit 50 1000)));
            query_loop n gstat info tryClear cleared
          else mret (inl err)
      | inr val =>
          fh ← fields;
          _ ← (if bool_decide (Z.land val (ri_mask info) ≠ Z.land (ri_last info) (ri_mask info)) then
                 _ ← lift (Pretty_format fh (ri_name info) val); mret tt
               else mret tt);
          _ ← upd (set_last gstat val);
          c ← self;
          if acceptable c fh info val then mret (inr cleared)
          else if bool_decide (n = 0%nat) then
            line ← lift (Pretty_format fh (ri_name info) val);
            mret (inl ("TMC " ++ c_stepper c ++ " reports error: " ++ line)%string)
          else if tryClear && bool_decide (Z.land val (ri_errMask info) ≠ 0) then
            _ ← env (Set_register (ri_name info) (Z.land val (ri_errMask info)) None);
            query_loop n gstat (with_last val info) false (Z.lor cleared (Z.land val (ri_errMask info)))
          else query_loop n gstat (with_last val info) tryClear cleared
      end
  end.

Definition queryRegister (gstat : bool) (info : regInfo) (tryClear : bool)
    : M (ErrorCheckRuntime * E) (string + Z) := query_loop 3 gstat info tryClear 0.

(** A panic of the register read is caught; its error value is not looked at. *)
Definition queryTemperature : M (ErrorCheckRuntime * E) (option string) :=
  recovering
    (c ← self;
     v ← env (Get_register (c_adcTempReg c));
     _ ← upd (set_adc (Some (match v with inr x => x | inl _ => 0 end)));
     mret None)
    (λ _, _ ← upd (set_adc None); mret (Some "get adc temp failed")).

(** ** The periodic check *)

Definition handleTransientUARTReadError (eventtime : f64) : M (ErrorCheckRuntime * E) (option f64) :=
  c ← self;
  if isHomingOrGrace c eventtime then mret (Some (fadd eventtime f1))
  else
    _ ← upd (set_failures (c_readFailureCount c + 1));
    c ← self;
    if bool_decide (c_readFailureCount c < errorCheckMaxTransientUARTReadFailures)
    then mret (Some (fadd eventtime f1)) else mret None.

(** What a failed query leads to: another try later, or a shutdown. *)
Definition query_failed (eventtime : f64) (err : string) : M (ErrorCheckRuntime * E) f64 :=
  next ← (if isTransientUARTReadError err then handleTransientUARTReadError eventtime else mret None);
  match next with
  | Some t => mret t
  | None => _ ← env (shutdown err); mret NEVER
  end.

Definition periodic_body (eventtime : f64) : M (ErrorCheckRuntime * E) f64 :=
  c ← self;
  if isHomingOrGrace c eventtime then mret (fadd eventtime f1)
  else
    r ← queryRegister false (c_drv c) false;
    match r with
    | inl err => query_failed eventtime err
    | inr _ =>
        c ← self;
        r ← match c_gstat c with
            | Some info => queryRegister true info false
            | None => mret (inr 0)
            end;
        match r with
        | inl err => query_failed eventtime err
        | inr _ =>
            c ← self;
            r ← (if bool_decide (c_adcTempReg c ≠ EmptyString) then queryTemperature else mret None);
            match r with
            | Some err => _ ← env (shutdown err); mret NEVER
            | None => _ ← upd (set_failures 0); mret (fadd eventtime f1)
            end
        end
    end.

(** [defer sys.CatchPanic()]: every panic but "exit" is swallowed, and the
    result is the zero value. *)
Definition doPeriodicCheck (eventtime : f64) : M (ErrorCheckRuntime * E) f64 :=
  recovering (periodic_body eventtime) (λ w, if bool_decide (w = "exit") then panic w else mret f0).

Definition SetHomingActive (active : bool) : M (ErrorCheckRuntime * E) unit :=
  _ ← (if active then upd (set_homing true f0)
       else t ← env Monotonic; upd (set_homing false (fadd t errorCheckPostHomingTransientGraceSeconds)));
  upd (set_failures 0).

Definition StopChecks : M (ErrorCheckRuntime * E) unit :=
  c ← self;
  if c_timer c then _ ← env UnregisterTimer; upd (set_timer false) else mret tt.

(** [self.checkTimer = self.reactor.RegisterTimer(...)]. *)
Definition start_timer (t : f64) : M (ErrorCheckRuntime * E) unit :=
  _ ← env (RegisterTimer t); upd (set_timer true).

Definition StartChecks : M (ErrorCheckRuntime * E) bool :=
  _ ← StopChecks;
  _ ← upd (set_failures 0);
  curtime ← env Monotonic;
  c ← self;
  let first := fadd (fadd curtime f1) (c_pollOffset c) in
  if isHomingOrGrace c curtime then _ ← start_timer first; mret false
  else
    r ← queryRegister false (c_drv c) false;
    match r with
    | inl err => _ ← env (shutdown err); mret false
    | inr _ =>
        c ← self;
        r ← match c_gstat c with
            | Some info => queryRegister true info (c_clearGSTAT c)
            | None => mret (inr 0)
            end;
        match r with
        | inl err => _ ← env (shutdown err); mret false
        | inr cleared =>
            _ ← start_timer first;
            fh ← fields;
            mret (bool_decide (cleared ≠ 0) &&
              bool_decide (Z.land cleared (default 0 (allFields fh !! "GSTAT" ≫= λ fs, fs !! "reset")) ≠ 0))
        end
    end.

(** The temperature of the status, in hundredths. *)
Definition status_temperature (c : ErrorCheckRuntime) : f64 :=
  match c_adcTemp c with
  | Some v => fdiv (f_round (fdiv (f_of_Z (i64 (v - 2038))) (f_lit 77 10))) (f_of_Z 100)
  | None => f0
  end.

(** [nil] when the checks are stopped, otherwise the fields of DRV_STATUS that
    are set, recomputed when the register has changed. *)
Definition GetStatus : M (ErrorCheckRuntime * E) (option (gmap string Z * f64)) :=
  c ← self;
  fh ← fields;
  if c_timer c then
    let lastValue := ri_last (c_drv c) in
    _ ← (if bool_decide (fst <$> c_lastDrv c = Some lastValue) then mret tt
         else upd (set_lastDrv (Some (lastValue,
                filter (λ kv, kv.2 ≠ 0) (Get_reg_fields fh (ri_name (c_drv c)) lastValue)))));
    c ← self;
    mret (Some (default ∅ (snd <$> c_lastDrv c), status_temperature c))
  else mret None.
End Check.
