(* ===== verification/TmcErrorCheckThy.v ===== *)
(** * Properties of the error checks

    The budget of transient read failures as an abstract counter over the
    history of the checks, and the life of the reactor timer. *)

From S2P Require Import Prelude GoFloat GoStrings GoState TmcFields TmcBus TmcErrorCheck.

(** What can be observed of an environment: the timers registered with the
    reactor and the shutdowns requested. *)
Class CheckLaws (E : Type) `{CheckEnv E} := {
  timers : E → nat;
  shutdowns : E → nat;
  quiet_read e r : timers (Get_register r e).2 = timers e ∧ shutdowns (Get_register r e).2 = shutdowns e;
  quiet_write e r v t : timers (Set_register r v t e).2 = timers e ∧ shutdowns (Set_register r v t e).2 = shutdowns e;
  quiet_clock e : ∃ t, Monotonic e = (Ret t, e);
  quiet_pause e t : timers (Pause t e).2 = timers e ∧ shutdowns (Pause t e).2 = shutdowns e;
  register_timer e t : ∃ e', RegisterTimer t e = (Ret tt, e') ∧ timers e' = S (timers e) ∧ shutdowns e' = shutdowns e;
  unregister_timer e : ∃ e', UnregisterTimer e = (Ret tt, e') ∧ timers e' = pred (timers e) ∧ shutdowns e' = shutdowns e;
  shutdown_once e msg : ∃ e', shutdown msg e = (Ret tt, e') ∧ timers e' = timers e ∧ shutdowns e' = S (shutdowns e)
}.

Section Theory.
Context `{CheckLaws E}.
Notation St := (ErrorCheckRuntime * E)%type.

(** The state that the queries of a check leave alone. *)
Definition same (n : Z) (tm : bool) (hm : bool) (gr : f64) (ts ss : nat) : St → Prop := λ s,
  c_readFailureCount s.1 = n ∧ c_timer s.1 = tm ∧ c_homingActive s.1 = hm ∧ c_homingGraceUntil s.1 = gr ∧
  timers s.2 = ts ∧ shutdowns s.2 = ss.

Lemma always_env {A} (I : St → Prop) (m : M E A) :
  (∀ c e, I (c, e) → I (c, (m e).2)) → always I (env m).
Proof. intros Hm [c e] HI. unfold env. simpl. specialize (Hm c e HI). by destruct (m e). Qed.

Lemma same_env {A} n tm hm gr ts ss (m : M E A) :
  (∀ e, timers (m e).2 = timers e ∧ shutdowns (m e).2 = shutdowns e) → always (same n tm hm gr ts ss) (env m).
Proof.
  intros Hm. apply always_env. intros c e (?&?&?&?&Ht&Hs). destruct (Hm e) as [Ht' Hs'].
  repeat split; simpl in *; congruence.
Qed.

Lemma same_upd n tm hm gr ts ss f :
  (∀ c, c_readFailureCount (f c) = c_readFailureCount c ∧ c_timer (f c) = c_timer c ∧
        c_homingActive (f c) = c_homingActive c ∧ c_homingGraceUntil (f c) = c_homingGraceUntil c) →
  always (same n tm hm gr ts ss) (upd (E := E) f).
Proof.
  intros Hf. apply always_modify. intros [c e] (?&?&?&?&?&?). destruct (Hf c) as (?&?&?&?).
  repeat split; simpl in *; congruence.
Qed.

Lemma same_read n tm hm gr ts ss r : always (same n tm hm gr ts ss) (env (Get_register r)).
Proof. apply same_env. intros e. apply quiet_read. Qed.
Lemma same_write n tm hm gr ts ss r v t : always (same n tm hm gr ts ss) (env (Set_register r v t)).
Proof. apply same_env. intros e. apply quiet_write. Qed.
Lemma same_clock n tm hm gr ts ss : always (same n tm hm gr ts ss) (env Monotonic).
Proof. apply same_env. intros e. by destruct (quiet_clock e) as [t ->]. Qed.
Lemma same_pause n tm hm gr ts ss d :
  always (same n tm hm gr ts ss) (env (t ← Monotonic; Pause (fadd t d))).
Proof.
  apply same_env. intros e. destruct (quiet_clock e) as [t Ht]. rewrite (M_bind_eq _ _ _ _ _ Ht).
  apply quiet_pause.
Qed.
Lemma same_set_last n tm hm gr ts ss g v : always (same n tm hm gr ts ss) (upd (set_last g v)).
Proof. apply same_upd. by intros c; destruct g. Qed.
Lemma same_set_adc n tm hm gr ts ss v : always (same n tm hm gr ts ss) (upd (set_adc v)).
Proof. by apply same_upd. Qed.
Hint Resolve same_read same_write same_clock same_pause same_set_last same_set_adc : keeps.

Lemma same_query k n tm hm gr ts ss g info b cl : always (same n tm hm gr ts ss) (query_loop k g info b cl).
Proof.
  revert info b cl. induction k as [|k IH]; intros info b cl; cbn [query_loop]; [apply always_ret|].
  unfold self, fields. always_steps.
Qed.

Lemma same_temperature n tm hm gr ts ss : always (same n tm hm gr ts ss) queryTemperature.
Proof. unfold queryTemperature, self. always_steps. Qed.
Hint Resolve same_query same_temperature : keeps.

(** ** The verdict of a check *)

(** The queries of one check, up to the first error. *)
Definition poll : M St (option string) :=
  c ← self;
  r ← queryRegister false (c_drv c) false;
  match r with
  | inl err => mret (Some err)
  | inr _ =>
      c ← self;
      r ← match c_gstat c with Some info => queryRegister true info false | None => mret (inr 0) end;
      match r with
      | inl err => mret (Some err)
      | inr _ => c ← self; if bool_decide (c_adcTempReg c ≠ EmptyString) then queryTemperature else mret None
      end
  end.

Lemma same_poll n tm hm gr ts ss : always (same n tm hm gr ts ss) poll.
Proof. unfold poll, self, queryRegister. always_steps. Qed.

Lemma temperature_error (s : St) err : (queryTemperature s).1 = Ret (Some err) → err = "get adc temp failed".
Proof.
  destruct s as [c e]. unfold queryTemperature, recovering, self, gets, env, upd, modify, mbind, M_bind. simpl.
  destruct (Get_register (c_adcTempReg c) e) as [[v|w] e']; simpl; congruence.
Qed.

Lemma temperature_tail t (s : St) :
  (r ← (if bool_decide (c_adcTempReg s.1 ≠ EmptyString) then queryTemperature else mret None);
   match r with
   | Some err => _ ← env (shutdown err); mret NEVER
   | None => _ ← upd (set_failures 0); mret (fadd t f1)
   end) s =
  (r ← (if bool_decide (c_adcTempReg s.1 ≠ EmptyString) then queryTemperature else mret None);
   match r with
   | Some err => query_failed t err
   | None => _ ← upd (set_failures 0); mret (fadd t f1)
   end) s.
Proof.
  case_bool_decide; [|done]. pose proof (temperature_error s) as Herr. unfold mbind, M_bind.
  destruct (queryTemperature s) as [[[err|]|w] s3]; [|done|done].
  simpl in Herr. by rewrite (Herr err eq_refl).
Qed.

(** A check is a poll followed by its consequence. *)
Lemma periodic_body_poll t (s : St) :
  periodic_body t s =
  if isHomingOrGrace s.1 t then (Ret (fadd t f1), s)
  else (r ← poll;
        match r with
        | Some err => query_failed t err
        | None => _ ← upd (set_failures 0); mret (fadd t f1)
        end) s.
Proof.
  unfold periodic_body, poll, self, gets, mbind at 1 2, M_bind at 1 2. simpl.
  destruct (isHomingOrGrace s.1 t); [done|]. unfold mbind, M_bind.
  destruct (queryRegister false (c_drv s.1) false s) as [[[err|x]|w] s1]; [done| |done].
  destruct (c_gstat s1.1) as [info|].
  - destruct (queryRegister true info false s1) as [[[err|y]|w] s2]; [done| |done]. apply temperature_tail.
  - apply temperature_tail.
Qed.

Inductive verdict := Skipped | Passed | Transient | Faulty (err : string) | Crashed (why : string).

Definition verdict_of (s : St) (t : f64) : verdict :=
  if isHomingOrGrace s.1 t then Skipped
  else match (poll s).1 with
       | Ret None => Passed
       | Ret (Some err) => if isTransientUARTReadError err then Transient else Faulty err
       | Panic w => Crashed w
       end.

(** ** Histories *)

Inductive op := PeriodicCheck (t : f64) | Homing (active : bool) | Start | Stop.
Inductive event := Checked (v : verdict) | HomingChanged | Restarted | Stopped.

Definition exec (o : op) (s : St) : St :=
  match o with
  | PeriodicCheck t => (doPeriodicCheck t s).2
  | Homing b => (SetHomingActive b s).2
  | Start => (StartChecks s).2
  | Stop => (StopChecks s).2
  end.
Definition event_of (o : op) (s : St) : event :=
  match o with
  | PeriodicCheck t => Checked (verdict_of s t)
  | Homing _ => HomingChanged
  | Start => Restarted
  | Stop => Stopped
  end.

(** The state after some operations and the events they caused, last one first. *)
Definition play (ops : list op) (s : St) : St * list event :=
  fold_left (λ sh o, (exec o sh.1, event_of o sh.1 :: sh.2)) ops (s, []).

(** Transient failures since the last passed check, restart or change of the
    homing state. *)
Fixpoint strikes (h : list event) : Z :=
  match h with
  | Checked Transient :: h => strikes h + 1
  | Checked (Skipped | Faulty _ | Crashed _) :: h | Stopped :: h => strikes h
  | _ => 0
  end.

(** What a check does, given the strikes before it. *)
Definition check_effect (n : Z) (t : f64) (s : St) : Prop :=
  let '(r, s') := doPeriodicCheck t s in
  timers s'.2 = timers s.2 ∧ c_timer s'.1 = c_timer s.1 ∧
  match verdict_of s t with
  | Skipped => r = Ret (fadd t f1) ∧ s' = s
  | Passed => r = Ret (fadd t f1) ∧ shutdowns s'.2 = shutdowns s.2 ∧ c_readFailureCount s'.1 = 0
  | Transient =>
      c_readFailureCount s'.1 = n + 1 ∧
      if bool_decide (n < 4) then r = Ret (fadd t f1) ∧ shutdowns s'.2 = shutdowns s.2
      else r = Ret NEVER ∧ shutdowns s'.2 = S (shutdowns s.2)
  | Faulty _ => r = Ret NEVER ∧ shutdowns s'.2 = S (shutdowns s.2) ∧ c_readFailureCount s'.1 = n
  | Crashed w =>
      r = (if bool_decide (w = "exit") then Panic w else Ret f0) ∧ shutdowns s'.2 = shutdowns s.2 ∧
      c_readFailureCount s'.1 = n
  end.

Lemma same_self (s : St) :
  same (c_readFailureCount s.1) (c_timer s.1) (c_homingActive s.1) (c_homingGraceUntil s.1)
    (timers s.2) (shutdowns s.2) s.
Proof. repeat split. Qed.

Lemma env_shutdown (s : St) msg :
  ∃ e', env (shutdown msg) s = (Ret tt, (s.1, e')) ∧ timers e' = timers s.2 ∧ shutdowns e' = S (shutdowns s.2).
Proof.
  destruct (shutdown_once s.2 msg) as (e'&He&?&?). exists e'. unfold env. by rewrite He.
Qed.

Lemma check_effect_holds t s : check_effect (c_readFailureCount s.1) t s.
Proof.
  unfold check_effect, doPeriodicCheck, recovering, verdict_of. rewrite periodic_body_poll.
  destruct (isHomingOrGrace s.1 t) eqn:Hh; [by simpl|].
  pose proof (same_poll _ _ _ _ _ _ s (same_self s)) as (Hn&Htm&Hhm&Hgr&Hts&Hss).
  unfold mbind, M_bind. destruct (poll s) as [[[err|]|w] s1]; simpl in *.
  - unfold query_failed. destruct (isTransientUARTReadError err); unfold mbind, M_bind.
    + unfold handleTransientUARTReadError, self, gets, mbind, M_bind. simpl.
      replace (isHomingOrGrace s1.1 t) with false by (unfold isHomingOrGrace in *; by rewrite Hhm, Hgr).
      unfold errorCheckMaxTransientUARTReadFailures. simpl. rewrite Hn.
      do 2 case_bool_decide; try lia; simpl; [by rewrite ?Htm, ?Hts, ?Hss|].
      edestruct env_shutdown as (e'&->&Ht'&Hs'). simpl in *. by rewrite Ht', Hs', Hts, Hss.
    + simpl. edestruct (env_shutdown s1 err) as (e'&->&Ht'&Hs'). simpl in *. repeat split; congruence.
  - repeat split; congruence.
  - case_bool_decide; repeat split; simpl; congruence.
Qed.

Lemma homing_resets b (s : St) :
  ∃ u, SetHomingActive b s = (Ret tt, (set_failures 0 (set_homing b u s.1), s.2)).
Proof using All.
  destruct (quiet_clock s.2) as [t Ht], s as [c e]. simpl in *. unfold SetHomingActive. destruct b.
  - by exists f0.
  - exists (fadd t errorCheckPostHomingTransientGraceSeconds). unfold env, mbind, M_bind. simpl. by rewrite Ht.
Qed.

Lemma stop_effect (s : St) :
  ∃ e', StopChecks s = (Ret tt, (set_timer false s.1, e')) ∧ shutdowns e' = shutdowns s.2 ∧
    timers e' = if c_timer s.1 then pred (timers s.2) else timers s.2.
Proof.
  destruct s as [c e]. unfold StopChecks, self, gets, mbind, M_bind. simpl. destruct (c_timer c) eqn:Hc.
  - destruct (unregister_timer e) as (e'&He&?&?). exists e'. unfold env. simpl. by rewrite He.
  - exists e. split; [|done]. unfold mret, M_ret, set_timer. destruct c. simpl in *. by subst.
Qed.

Definition timer_inv (s : St) : Prop := timers s.2 = if c_timer s.1 then 1%nat else 0%nat.

(** What a start leads to: the timer is registered exactly when nothing failed;
    [n] is the number of shutdowns before. *)
Definition started (n : nat) (r : go bool) (s : St) : Prop :=
  c_readFailureCount s.1 = 0 ∧
  if c_timer s.1
  then returns r = true ∧ timers s.2 = 1%nat ∧ shutdowns s.2 = n
  else timers s.2 = 0%nat ∧ if returns r then r = Ret false ∧ shutdowns s.2 = S n else shutdowns s.2 = n.

Lemma started_bind {A} hm gr ss (m : M St A) (k : A → M St bool) s :
  same 0 false hm gr 0 ss s → always (same 0 false hm gr 0 ss) m →
  (∀ a s1, same 0 false hm gr 0 ss s1 → started ss (k a s1).1 (k a s1).2) →
  started ss ((x ← m; k x) s).1 ((x ← m; k x) s).2.
Proof.
  intros Hs Hm Hk. specialize (Hm s Hs). unfold mbind, M_bind. destruct (m s) as [[a|w] s1]; simpl in *.
  - by apply Hk.
  - destruct Hm as (?&Htm&?&?&?&?). unfold started. simpl. by rewrite Htm.
Qed.

Lemma started_timer hm gr ss t (k : M St bool) s :
  same 0 false hm gr 0 ss s →
  (∀ s1, same 0 true hm gr 1 ss s1 → ∃ b, k s1 = (Ret b, s1)) →
  started ss ((_ ← start_timer t; k) s).1 ((_ ← start_timer t; k) s).2.
Proof.
  intros (Hn&Htm&Hhm&Hgr&Hts&Hss) Hk. destruct s as [c e]. simpl in *.
  destruct (register_timer e t) as (e'&He&Ht'&Hs').
  assert (Heq : (_ ← start_timer t; k) (c, e) = k (set_timer true c, e')).
  { unfold start_timer, env, mbind, M_bind. simpl. by rewrite He. }
  rewrite Heq. destruct (Hk (set_timer true c, e')) as [b ->]; [repeat split; simpl; congruence|].
  unfold started. simpl. repeat split; congruence.
Qed.

Lemma started_shutdown hm gr ss msg s :
  same 0 false hm gr 0 ss s →
  started ss ((_ ← env (shutdown msg); mret false) s).1 ((_ ← env (shutdown msg); mret false) s).2.
Proof.
  intros (Hn&Htm&Hhm&Hgr&Hts&Hss). destruct (env_shutdown s msg) as (e'&He&Ht'&Hs').
  rewrite (M_bind_eq _ _ _ _ _ He). unfold started. simpl. rewrite Htm. repeat split; congruence.
Qed.

Lemma start_checks_started (s : St) :
  timer_inv s → started (shutdowns s.2) (StartChecks s).1 (StartChecks s).2.
Proof.
  intros Hinv. unfold StartChecks. destruct (stop_effect s) as (e'&He&Hs&Ht). rewrite (M_bind_eq _ _ _ _ _ He).
  assert (Hz : timers e' = 0%nat) by (unfold timer_inv in Hinv; destruct (c_timer s.1); lia).
  set (s1 := (set_failures 0 (set_timer false s.1), e')).
  rewrite (M_bind_eq (upd _) _ _ tt s1) by done.
  assert (Hs1 : same 0 false (c_homingActive s.1) (c_homingGraceUntil s.1) 0 (shutdowns s.2) s1)
    by (repeat split; simpl; congruence).
  clearbody s1. destruct (quiet_clock s1.2) as [t Hclk].
  rewrite (M_bind_eq (env Monotonic) _ s1 t s1) by (unfold env; rewrite Hclk; by destruct s1).
  unfold self. rewrite (M_bind_eq (gets _) _ s1 s1.1 s1) by done.
  destruct (isHomingOrGrace s1.1 t).
  { eapply started_timer; [exact Hs1|]. intros s2 _. by exists false. }
  eapply started_bind; [exact Hs1|apply same_query|]. intros [err|x] s2 Hs2; [by eapply started_shutdown|].
  rewrite (M_bind_eq (gets _) _ s2 s2.1 s2) by done.
  eapply started_bind; [exact Hs2|unfold queryRegister; always_steps|].
  intros [err|cleared] s3 Hs3; [by eapply started_shutdown|].
  eapply started_timer; [exact Hs3|]. intros s4 _. unfold fields. eexists. reflexivity.
Qed.

(** ** Along a history *)

Lemma play_snoc ops o s :
  play (ops ++ [o]) s = (exec o (play ops s).1, event_of o (play ops s).1 :: (play ops s).2).
Proof. unfold play. by rewrite fold_left_app. Qed.

Lemma exec_inv o s h :
  timer_inv s → c_readFailureCount s.1 = strikes h →
  timer_inv (exec o s) ∧ c_readFailureCount (exec o s).1 = strikes (event_of o s :: h).
Proof.
  intros Hinv Hn. destruct o as [t|b| |]; simpl.
  - pose proof (check_effect_holds t s) as Heff. unfold check_effect in Heff. unfold timer_inv in *.
    destruct (doPeriodicCheck t s) as [r s']. simpl. destruct Heff as (Ht&Hc&Heff). rewrite Ht, Hc.
    split; [done|]. destruct (verdict_of s t); destruct_and? Heff; subst; simpl; congruence || lia.
  - destruct (homing_resets b s) as [u ->]. by destruct b.
  - pose proof (start_checks_started s Hinv) as [? Hst]. unfold timer_inv.
    destruct (c_timer (StartChecks s).2.1); tauto.
  - destruct (stop_effect s) as (e'&->&_&Ht). simpl. split; [|done].
    unfold timer_inv in *. simpl. destruct (c_timer s.1); lia.
Qed.

Lemma play_inv ops (s : St) :
  timer_inv s → c_readFailureCount s.1 = 0 →
  timer_inv (play ops s).1 ∧ c_readFailureCount (play ops s).1.1 = strikes (play ops s).2.
Proof.
  intros Hinv Hc0. induction ops as [|o ops [IH1 IH2]] using rev_ind; [done|].
  rewrite play_snoc. by apply exec_inv.
Qed.

(** C17. Along any sequence of checks, homing changes, starts and stops, the failure counter
    is the number of transient read failures since the last good check, restart or
    homing change; a check shuts the printer down only on a real error or on the fifth
    such failure, does nothing at all while homing or in the grace period, and otherwise
    reschedules itself in one second, unless it panics. *)
Theorem five_strikes (s0 : St) (ops : list op) (t : f64) :
  timer_inv s0 → c_readFailureCount s0.1 = 0 →
  let '(s, h) := play ops s0 in
  c_readFailureCount s.1 = strikes h ∧ check_effect (strikes h) t s.
Proof.
  intros Hinv Hc0. destruct (play_inv ops s0 Hinv Hc0) as [_ Hn]. destruct (play ops s0) as [s h].
  simpl in *. split; [done|]. rewrite <- Hn. apply check_effect_holds.
Qed.

(** Along any sequence of checks, homing changes, starts and stops exactly one reactor
    timer is registered while the checker runs and none otherwise; a start either
    registers it, or requests one shutdown and leaves none. *)
Theorem one_timer_while_checking (s0 : St) (ops : list op) :
  timer_inv s0 → c_readFailureCount s0.1 = 0 →
  let s := (play ops s0).1 in
  timer_inv s ∧ started (shutdowns s.2) (StartChecks s).1 (StartChecks s).2.
Proof.
  intros Hinv Hc0. destruct (play_inv ops s0 Hinv Hc0) as [Ht _]. split; [done|]. by apply start_checks_started.
Qed.
End Theory.

(** ** A scripted driver *)

(** The answers of the register reads to come, 0 when they are used up; the
    clock stands still. *)
Record scripted := mkScript { answers : list (string + Z); n_timers : nat; n_shutdowns : nat }.

Definition script_read : M scripted (string + Z) := λ e,
  match answers e with
  | [] => (Ret (inr 0), e)
  | a :: rest => (Ret a, mkScript rest (n_timers e) (n_shutdowns e))
  end.
#[global] Instance scripted_access : RegisterAccess scripted :=
  {| Get_register _ := script_read; Set_register _ _ _ := mret None |}.
#[global] Instance scripted_env : CheckEnv scripted := {|
  ce_access := scripted_access;
  Get_fields _ := NewFieldHelper [("DRV_STATUS", [("ot", 1); ("otpw", 2)])] [] ∅ None;
  Monotonic := mret f0;
  Pause t := mret t;
  RegisterTimer _ := modify (λ e, mkScript (answers e) (S (n_timers e)) (n_shutdowns e));
  UnregisterTimer := modify (λ e, mkScript (answers e) (pred (n_timers e)) (n_shutdowns e));
  shutdown _ := modify (λ e, mkScript (answers e) (n_timers e) (S (n_shutdowns e)))
|}.
#[global] Instance scripted_laws : CheckLaws scripted.
Proof.
  refine {| timers := n_timers; shutdowns := n_shutdowns |}; intros e; intros; try (eexists; split_and!; done).
  - simpl. unfold script_read. by destruct (answers e).
  - done.
  - by exists f0.
  - done.
Defined.

Definition lost : string + Z := inl "Unable to read tmc uart 'stepper_x' register DRV_STATUS".
Definition new_checker (script : list (string + Z)) : ErrorCheckRuntime * scripted :=
  match NewErrorCheckRuntime "tmc2209" "stepper_x" 0 (mkScript script 0 0) with
  | (Ret c, e) => (c, e)
  | (Panic _, e) => (mkCheck "" false None None false "" (mkInfo 0 "" 0 0 0) None "" 0 f0 false f0, e)
  end.
Definition at_second (n : Z) : f64 := f_of_Z n.

(** Four checks that lose all their reads, a good one, then four lost ones; the
    next lost check is the fifth in a row. *)
Definition lossy : ErrorCheckRuntime * scripted := new_checker (repeat lost 12 ++ [inr 0] ++ repeat lost 15).
Definition nine_checks : list op := PeriodicCheck ∘ at_second <$> [1; 2; 3; 4; 5; 6; 7; 8; 9].

Lemma lossy_ok : timer_inv lossy.
Proof. vm_compute. reflexivity. Qed.

Lemma lossy_fresh : c_readFailureCount lossy.1 = 0.
Proof. vm_compute. reflexivity. Qed.

Lemma five_strikes_witness :
  strikes (play nine_checks lossy).2 = 4 ∧ check_effect 4 (at_second 10) (play nine_checks lossy).1.
Proof.
  pose proof (five_strikes lossy nine_checks (at_second 10) lossy_ok lossy_fresh) as Hw.
  assert (Hh : strikes (play nine_checks lossy).2 = 4) by (vm_compute; reflexivity).
  split; [exact Hh|]. rewrite <- Hh. destruct (play nine_checks lossy) as [s h]. apply Hw.
Defined.

Definition stop_and_start : list op := [Start; Stop; Homing true; Start].

Lemma one_timer_while_checking_witness : timer_inv (play stop_and_start lossy).1.
Proof. exact (proj1 (one_timer_while_checking lossy stop_and_start lossy_ok lossy_fresh)). Defined.
