(* ===== verification/VirtualSD.v ===== *)
(** * Printing from the virtual SD card

    [src/internal/addon/virtual_sd.go] and [virtual_sd_module.go], with the pausing of
    [src/internal/pkg/gcode/pause_resume.go]: a file is read in chunks, split into lines,
    and each line is run as a G-code script, until the end of the file, a failing line
    or a request to pause; a resumed print continues at the line after the last one run.

    An open file is its contents and the offset of the next read; closing a file never
    fails.  The work handler runs in a greenlet of its own.  What the rest of the printer
    answers or does in one round of its loop is a [tick]: whether the dispatcher is busy,
    what a read of the file returns, and whether a pause was requested while the
    handler had given up control.  Running a script is a parameter, with the module as
    its state, since a script may pause, cancel or move the print that runs it. *)

From S2P Require Import Prelude GoFloat GoStrings GoState GcodeParse.
From Stdlib Require Import Ascii String.

Definition newline : ascii := ascii_of 10.
Definition carriage_return : ascii := ascii_of 13.

(** ** The card *)

Record sd_file := mkFile { f_name : string; f_content : string; f_offset : Z }.

Record VirtualSD := mkSD {
  CurrentFile : option sd_file;
  FileSize : Z;
  MustPauseWork : bool;
  CmdFromSD : bool;
  NextFilePosition : Z;
  FilePosition : Z
}.

Definition NewVirtualSD : VirtualSD := mkSD None 0 false false 0 0.

Definition set_file (f : option sd_file) (s : VirtualSD) : VirtualSD :=
  mkSD f (FileSize s) (MustPauseWork s) (CmdFromSD s) (NextFilePosition s) (FilePosition s).
Definition set_must_pause (b : bool) (s : VirtualSD) : VirtualSD :=
  mkSD (CurrentFile s) (FileSize s) b (CmdFromSD s) (NextFilePosition s) (FilePosition s).
Definition set_cmd_from_sd (b : bool) (s : VirtualSD) : VirtualSD :=
  mkSD (CurrentFile s) (FileSize s) (MustPauseWork s) b (NextFilePosition s) (FilePosition s).
Definition set_next_position (p : Z) (s : VirtualSD) : VirtualSD :=
  mkSD (CurrentFile s) (FileSize s) (MustPauseWork s) (CmdFromSD s) p (FilePosition s).
Definition set_position (p : Z) (s : VirtualSD) : VirtualSD :=
  mkSD (CurrentFile s) (FileSize s) (MustPauseWork s) (CmdFromSD s) (NextFilePosition s) p.

(** [filepath.Ext]: from the last dot of the last element of the path. *)
Definition Ext (filename : string) : string :=
  let base := default EmptyString (last (Split "/" filename)) in
  let dot := LastIndexByte base "." in
  if dot =? -1 then EmptyString else drop_string (Z.to_nat dot) base.

Definition HasValidGCodeExtension (filename : string) : bool :=
  bool_decide (ToLower (Ext filename) ∈ [".g"; ".gco"; ".gcode"]%string).

Definition CloseCurrentFile (s : VirtualSD) : VirtualSD := set_file None s.

Definition Reset (s : VirtualSD) : VirtualSD := mkSD None 0 false false 0 0.

(** [stored] is the contents of the file of a name below the directory of the card; the file
    goes by that name here, without the directory. *)
Definition LoadFile (stored : string → option string) (filename : string) (s : VirtualSD) : string + (string * VirtualSD) :=
  let filename := Trim (λ c, Ascii.eqb c (ascii_of 34)) filename in
  if negb (HasValidGCodeExtension filename) then inl "Gcode file extension incorrect"%string
  else
    match stored (if HasPrefix filename "/" then drop_string 1 filename else filename) with
    | None => inl "Unable to open file"%string
    | Some content =>
        if slen content =? 0 then inl "Gcode file is empty"%string
        else inr (filename, mkSD (Some (mkFile filename content 0)) (slen content) (MustPauseWork s) (CmdFromSD s) 0 0)
    end.

Definition FilePath (s : VirtualSD) : string := match CurrentFile s with Some f => f_name f | None => EmptyString end.

Definition Progress (s : VirtualSD) : f64 :=
  if FileSize s =? 0 then f0 else fdiv (f_of_Z (FilePosition s)) (f_of_Z (FileSize s)).

(** A negative offset is refused. *)
Definition SeekToFilePosition (s : VirtualSD) : option string * VirtualSD :=
  match CurrentFile s with
  | None => (None, s)
  | Some f => if FilePosition s <? 0 then (Some "invalid argument"%string, s)
              else (None, set_file (Some (mkFile (f_name f) (f_content f) (FilePosition s))) s)
  end.

(** A read of at most [size] bytes fails, or gives as many as the system has ready, up to
    the end of the file. *)
Definition file_read (size : Z) (read : string + positive) (f : sd_file) : string + (string * sd_file) :=
  match read with
  | inl e => inl e
  | inr ready =>
      let l := Z.min (Z.pos ready) (Z.min size (slen (f_content f) - f_offset f)) in
      if l <=? 0 then inr (EmptyString, f)
      else inr (take_string (Z.to_nat l) (drop_string (Z.to_nat (f_offset f)) (f_content f)), mkFile (f_name f) (f_content f) (f_offset f + l))
  end.

(** The text before the position and after it; reading it moves the offset of the file.
    A position before the start of the file gives a slice out of range. *)
Definition PreviewWindow (lookback lookahead : Z) (read : string + positive) (s : VirtualSD) : go (string + (Z * string * string * VirtualSD)) :=
  match CurrentFile s with
  | None => Ret (inr (0, EmptyString, EmptyString, s))
  | Some f =>
      let readpos := Z.max (FilePosition s - lookback) 0 in
      let readcount := FilePosition s - readpos in
      if readcount + lookahead <? 0 then Panic "makeslice: len out of range"
      else
        match file_read (readcount + lookahead) read (mkFile (f_name f) (f_content f) readpos) with
        | inl e => Ret (inl e)
        | inr (data, f) =>
            let pivot := Z.min readcount (slen data) in
            if pivot <? 0 then Panic "slice bounds out of range"
            else Ret (inr (readpos, take_string (Z.to_nat pivot) data, drop_string (Z.to_nat pivot) data, set_file (Some f) s))
        end
  end.

(** The lines come in reverse. *)
Definition ReadLines (read : string + positive) (partialInput : string) (s : VirtualSD) : list string * string * bool * option string * VirtualSD :=
  match CurrentFile s with
  | None => ([], partialInput, true, None, s)
  | Some f =>
      match file_read 8192 read f with
      | inl e => ([], partialInput, false, Some e, s)
      | inr (data, f) =>
          if slen data <=? 0 then ([], partialInput, true, None, CloseCurrentFile s)
          else
            let lines := match Split newline data with [] => [] | w :: ws => (partialInput ++ w)%string :: ws end in
            (reverse (removelast lines), default EmptyString (last lines), false, None, set_file (Some f) s)
      end
  end.

(** [strings.TrimRight] of carriage returns. *)
Definition TrimCR (line : string) : string := rev_string (TrimLeft (λ c, Ascii.eqb c carriage_return) (rev_string line)).

Definition AdvanceLine (line : string) (s : VirtualSD) : string * Z * VirtualSD :=
  let next := FilePosition s + slen line + 1 in (TrimCR line, next, set_next_position next s).

Definition CommitFilePosition (s : VirtualSD) : VirtualSD := set_position (NextFilePosition s) s.

(** ** The module *)

(** Calls of the statistics, and what is sent to the host. *)
Inductive sd_event :=
| Ran (script : string)
| Respond (msg : string)
| Set_current_file (filename : string)
| Note_start | Note_pause | Note_complete | Note_cancel | Stats_reset
| Note_error (msg : string)
| Reset_event.

Record VirtualSDModule := mkModule {
  core : VirtualSD;
  workTimer : bool;                          (* is there one? *)
  events : list sd_event
}.

Definition on_core (f : VirtualSD → VirtualSD) (m : VirtualSDModule) : VirtualSDModule := mkModule (f (core m)) (workTimer m) (events m).
Definition set_timer (b : bool) (m : VirtualSDModule) : VirtualSDModule := mkModule (core m) b (events m).
Definition emit (e : sd_event) (m : VirtualSDModule) : VirtualSDModule := mkModule (core m) (workTimer m) (events m ++ [e]).

Definition Is_active (m : VirtualSDModule) : bool := workTimer m.

(** [Do_pause]; a caller that is not run from the card then waits until the handler has
    left. *)
Definition Do_pause (m : VirtualSDModule) : VirtualSDModule := if workTimer m then on_core (set_must_pause true) m else m.

Definition Do_resume (m : VirtualSDModule) : option string * VirtualSDModule :=
  if workTimer m then (Some "SD busy"%string, m) else (None, set_timer true (on_core (set_must_pause false) m)).

Definition Do_cancel (m : VirtualSDModule) : VirtualSDModule :=
  let m := match CurrentFile (core m) with
           | Some _ => emit Note_cancel (on_core CloseCurrentFile (Do_pause m))
           | None => m
           end in
  on_core Reset m.

Definition Reset_file (m : VirtualSDModule) : VirtualSDModule :=
  let m := match CurrentFile (core m) with Some _ => on_core CloseCurrentFile (Do_pause m) | None => m end in
  emit Reset_event (emit Stats_reset (on_core Reset m)).

Definition Cmd_SDCARD_RESET_FILE (m : VirtualSDModule) : option string * VirtualSDModule :=
  if CmdFromSD (core m) then (Some "SDCARD_RESET_FILE cannot be run from the sdcard"%string, m) else (None, Reset_file m).

Definition Load_file (stored : string → option string) (filename : string) (m : VirtualSDModule) : option string * VirtualSDModule :=
  match LoadFile stored filename (core m) with
  | inl e => (Some e, m)
  | inr (selected, s) => (None, emit (Set_current_file selected) (mkModule s (workTimer m) (events m)))
  end.

Definition Cmd_SDCARD_PRINT_FILE (stored : string → option string) (filename : string) (m : VirtualSDModule) : go (option string) * VirtualSDModule :=
  if workTimer m then (Panic "SD busy", m)
  else
    match Load_file stored filename (Reset_file m) with
    | (Some e, m) => (Ret (Some e), m)
    | (None, m) => (Ret None, (Do_resume m).2)
    end.

(** No command of the repository answers its raw parameters under the name that M23 asks
    for, which gives the empty text. *)
Definition Cmd_M23 (stored : string → option string) (m : VirtualSDModule) : option string * VirtualSDModule :=
  if workTimer m then (Some "SD busy"%string, m) else Load_file stored EmptyString (Reset_file m).

Definition Cmd_M24 (m : VirtualSDModule) : option string * VirtualSDModule := Do_resume m.

Definition Cmd_M25 (m : VirtualSDModule) : VirtualSDModule := Do_pause m.

(** The limits given to [Int] are only logged. *)
Definition Cmd_M26 (gcmd : CommandParams) (m : VirtualSDModule) : go unit * VirtualSDModule :=
  if workTimer m then (Panic "SD busy", m)
  else match Get_int gcmd "S" (Value 0) with Ret position => (Ret tt, on_core (set_position position) m) | Panic e => (Panic e, m) end.

Definition Cmd_M27 (m : VirtualSDModule) : string :=
  match CurrentFile (core m) with
  | None => "Not SD printing."
  | Some _ => "SD printing byte " ++ Itoa (FilePosition (core m)) ++ "/" ++ Itoa (FileSize (core m))
  end%string.

Definition Set_file_position (pos : Z) (m : VirtualSDModule) : VirtualSDModule := on_core (set_next_position pos) m.

Definition Handle_shutdown (read : string + positive) (m : VirtualSDModule) : go VirtualSDModule :=
  let m := if workTimer m then on_core (set_must_pause true) m else m in
  r ← PreviewWindow 1024 128 read (core m);
  match r with
  | inl _ => Panic "virtual_sdcard shutdown read"
  | inr (_, _, _, s) => Ret (mkModule s (workTimer m) (events m))
  end.

(** ** The work handler *)

(** What a failing script panics with: a command error, another error, a text, or a
    value of any other type. *)
Inductive recovered := PCommand (msg : string) | PError (msg : string) | PString (msg : string) | POther.

Record tick := mkTick { t_busy : bool; t_read : string + positive; t_pause : bool }.

Section Work.
Context (RunScript : string → VirtualSDModule → option recovered * VirtualSDModule).
Context (on_error : option string).          (* the rendered on_error_gcode *)

(** Control is given up: a pause may be requested. *)
Definition yield (t : tick) (m : VirtualSDModule) : VirtualSDModule := if t_pause t then on_core (set_must_pause true) m else m.

Definition tryCatchOnErrorGCode (m : VirtualSDModule) : go VirtualSDModule :=
  match on_error with
  | None => Ret m
  | Some script =>
      let trimmed := TrimSpace script in
      if HasPrefix trimmed "M" || HasPrefix trimmed "m" || HasPrefix trimmed "G" || HasPrefix trimmed "g" then
        match RunScript script m with (Some (PString "exit"), _) => Panic "exit" | (_, m) => Ret m end
      else Ret m
  end.

(** The message of a failed line, [None] for one that went through. *)
Definition tryCatchWorkHandler (line : string) (m : VirtualSDModule) : go (option string * VirtualSDModule) :=
  match RunScript line m with
  | (None, m) => Ret (None, m)
  | (Some (PString "exit"), _) => Panic "exit"
  | (Some r, m) =>
      f ← (match r with
           | PCommand msg => m ← tryCatchOnErrorGCode m; Ret (msg, m)
           | PError msg | PString msg => Ret (msg, m)
           | POther => Ret (EmptyString, m)
           end);
      let '(msg, m) := (f : string * VirtualSDModule) in
      Ret (Some msg, emit (Respond (if bool_decide (msg = EmptyString) then "print file error" else msg)) m)
  end.

(** The locals of the handler. *)
Record work := mkWork { lines : list string; partialInput : string; errorMessage : string; w_module : VirtualSDModule }.

(** One round of the loop: go on, or leave it. *)
Definition work_round (t : tick) (w : work) : go (work + work) :=
  let m := w_module w in
  if MustPauseWork (core m) then Ret (inr w)
  else
    match lines w with
    | [] =>
        let '(ls, partial, eof, err, s) := ReadLines (t_read t) (partialInput w) (core m) in
        let m := mkModule s (workTimer m) (events m) in
        match err with
        | Some _ => Ret (inr (mkWork [] (partialInput w) "Printing file error" (emit (Respond "Read printing file error") (on_core CloseCurrentFile m))))
        | None =>
            if (eof : bool) then Ret (inr (mkWork [] partial (errorMessage w) (emit (Respond "Done printing file") m)))
            else Ret (inl (mkWork ls partial (errorMessage w) (yield t m)))
        end
    | _ =>
        if t_busy t then Ret (inl (mkWork (lines w) (partialInput w) (errorMessage w) (yield t m)))
        else
          let m := on_core (set_cmd_from_sd true) m in
          let rawLine := default EmptyString (last (lines w)) in
          let rest := removelast (lines w) in
          let '(line, next, s) := AdvanceLine rawLine (core m) in
          r ← tryCatchWorkHandler line (emit (Ran line) (mkModule s (workTimer m) (events m)));
          match r with
          | (Some msg, m) => Ret (inr (mkWork rest (partialInput w) msg (on_core CloseCurrentFile m)))
          | (None, m) =>
              let m := on_core CommitFilePosition (on_core (set_cmd_from_sd false) m) in
              if NextFilePosition (core m) =? next then Ret (inl (mkWork rest (partialInput w) (errorMessage w) m))
              else
                match SeekToFilePosition (core m) with
                | (Some _, _) => Panic "virtual_sdcard seek"
                | (None, s) => Ret (inl (mkWork [] EmptyString (errorMessage w) (mkModule s (workTimer m) (events m))))
                end
          end
    end.

(** The rounds, one tick each: still running, or left. *)
Fixpoint work_loop (ts : list tick) (w : work) : go (work + work) :=
  match ts with
  | [] => Ret (inl w)
  | t :: ts => r ← work_round t w; match r with inl w => work_loop ts w | inr w => Ret (inr w) end
  end.

(** What the handler does before the loop and after it. *)
Definition work_start (m : VirtualSDModule) : VirtualSDModule + work :=
  match SeekToFilePosition (core m) with
  | (Some _, s) => inl (set_timer false (mkModule (CloseCurrentFile s) (workTimer m) (events m)))
  | (None, s) => inr (mkWork [] EmptyString EmptyString (emit Note_start (mkModule s (workTimer m) (events m))))
  end.

Definition work_end (w : work) : VirtualSDModule :=
  let m := on_core (set_cmd_from_sd false) (set_timer false (w_module w)) in
  if negb (bool_decide (errorMessage w = EmptyString)) then emit (Note_error (errorMessage w)) m
  else match CurrentFile (core m) with Some _ => emit Note_pause m | None => emit Note_complete m end.

Definition Work_handler (ts : list tick) (m : VirtualSDModule) : go (work + VirtualSDModule) :=
  match work_start m with
  | inl m => Ret (inr m)
  | inr w => r ← work_loop ts w; match r with inl w => Ret (inl w) | inr w => Ret (inr (work_end w)) end
  end.
End Work.

(** ** Pausing and resuming *)

Record PauseResume := mkPauseResume { IsPaused : bool; SdPaused : bool; PauseCommandSent : bool }.

(** The part of [Pause], [Resume] and [CancelPrint] that concerns the card, for a printer
    that has one; [Pause] then saves the G-code state, and [Resume] restores it before. *)
Definition Send_pause_command (p : PauseResume) (m : VirtualSDModule) : PauseResume * VirtualSDModule :=
  if PauseCommandSent p then (p, m)
  else if Is_active m then (mkPauseResume (IsPaused p) true true, Do_pause m)
  else (mkPauseResume (IsPaused p) false true, emit (Respond "action:paused") m).

Definition Pause (p : PauseResume) (m : VirtualSDModule) : option string * PauseResume * VirtualSDModule :=
  if IsPaused p then (Some "print already paused"%string, p, m)
  else let '(p, m) := Send_pause_command p m in (None, mkPauseResume true (SdPaused p) (PauseCommandSent p), m).

(** The error of [Do_resume] is dropped. *)
Definition Send_resume_command (p : PauseResume) (m : VirtualSDModule) : PauseResume * VirtualSDModule :=
  if SdPaused p then (mkPauseResume (IsPaused p) false false, (Do_resume m).2)
  else (mkPauseResume (IsPaused p) (SdPaused p) false, emit (Respond "action:resumed") m).

Definition Resume (p : PauseResume) (m : VirtualSDModule) : option string * PauseResume * VirtualSDModule :=
  if negb (IsPaused p) then (Some "print is not paused"%string, p, m)
  else let '(p, m) := Send_resume_command p m in (None, mkPauseResume false (SdPaused p) (PauseCommandSent p), m).

Definition ClearPause (p : PauseResume) : PauseResume := mkPauseResume false false false.

Definition CancelPrint (p : PauseResume) (m : VirtualSDModule) : bool * PauseResume * VirtualSDModule :=
  if Is_active m || SdPaused p then (false, ClearPause p, Do_cancel m) else (true, ClearPause p, m).
