(* ===== verification/VirtualSDThy.v ===== *)
(** * A print runs every line of its file once

    However the file is read in chunks, and however often the print is paused and
    resumed, the scripts that it runs are the lines of the file, in order, each once; a
    print that is left alone runs to the end. *)

From S2P Require Import Prelude GoFloat GoStrings GoState GcodeParse VirtualSD.
From Stdlib Require Import Ascii String.

Local Open Scope string_scope.
Local Open Scope Z_scope.

(** ** Lines *)

Fixpoint unlines (ls : list string) : string :=
  match ls with [] => "" | l :: ls => l ++ String newline (unlines ls) end.
Definition clean (s : string) : Prop := has_char newline s = false.

(** The lines of a file that a newline ends; what follows the last newline is not one of
    them. *)
Definition file_lines (content : string) : list string := removelast (Split newline content).

Lemma unlines_app l1 l2 : unlines (l1 ++ l2)%list = unlines l1 ++ unlines l2.
Proof. induction l1 as [|l l1 IH]; [done|]. cbn [unlines app]. by rewrite IH, string_app_assoc, string_app_cons. Qed.

Lemma split_unlines ls p : Forall clean ls → clean p → Split newline (unlines ls ++ p) = (ls ++ [p])%list.
Proof.
  intros Hl Hp. induction Hl as [|l ls Hl _ IH]; [by apply Split_nosep|]. cbn [unlines]. rewrite string_app_assoc, string_app_cons.
  rewrite Split_app_sep by done. by rewrite IH.
Qed.

Lemma clean_cons c s : Ascii.eqb c newline = false → clean s → clean (String c s).
Proof. intros E H. unfold clean. change (Ascii.eqb c newline || has_char newline s = false)%bool. by rewrite E. Qed.

Lemma split_pieces s : ∃ ls p, s = unlines ls ++ p ∧ Forall clean ls ∧ clean p.
Proof.
  induction s as [|c s (ls & p & -> & Hl & Hp)]; [by exists [], ""|]. destruct (Ascii.eqb c newline) eqn:E.
  - apply Ascii.eqb_eq in E as ->. exists ("" :: ls), p. split_and!; [done|by constructor|done].
  - destruct Hl as [|l ls Hl Hls].
    + exists [], (String c p). split_and!; [done..|by apply clean_cons].
    + exists (String c l :: ls), p. split_and!; [done| |done]. constructor; [by apply clean_cons|done].
Qed.

Lemma file_lines_unlines ls p : Forall clean ls → clean p → file_lines (unlines ls ++ p) = ls.
Proof. intros Hl Hp. unfold file_lines. by rewrite split_unlines, removelast_last. Qed.

Lemma unlines_len ls : len ls ≤ slen (unlines ls).
Proof.
  induction ls as [|l ls IH]; [done|]. cbn [unlines]. rewrite len_cons, slen_app. pose proof (slen_nonneg l).
  assert (slen (String newline (unlines ls)) = 1 + slen (unlines ls)) by (unfold slen; cbn [String.length]; lia). lia.
Qed.

Lemma take_string_length n s : (n ≤ String.length s)%nat → String.length (take_string n s) = n.
Proof. revert s. induction n as [|n IH]; intros [|c s] H; cbn in *; try done; try lia. f_equal. apply IH. lia. Qed.

Lemma clean_app a b : clean a → clean b → clean (a ++ b).
Proof. unfold clean. intros H1 H2. by rewrite has_char_app, H1, H2. Qed.

(** A read that gives something: the lines that it completes, and what it leaves. *)
Lemma ReadLines_spec ready partial s name pre unread (content := pre ++ unread) :
  CurrentFile s = Some (mkFile name content (slen pre)) → unread ≠ "" → clean partial →
  ∃ d unread' pending partial', ReadLines (inr ready) partial s
    = (reverse pending, partial', false, None, set_file (Some (mkFile name content (slen (pre ++ d)))) s) ∧
    unread = d ++ unread' ∧ d ≠ "" ∧ partial ++ d = unlines pending ++ partial' ∧ Forall clean pending ∧ clean partial' ∧ len pending ≤ slen d.
Proof.
  intros Hf Hu Hp. unfold ReadLines, file_read. rewrite Hf. cbn [f_content f_offset f_name]. subst content. rewrite slen_app.
  assert (0 < slen unread) by (destruct unread; [done|unfold slen; cbn [String.length]; lia]).
  set (l := Z.min (Z.pos ready) _). assert (Hl : 0 < l ≤ slen unread) by lia. destruct (l <=? 0) eqn:E; [lia|]. clear E.
  replace (Z.to_nat (slen pre)) with (String.length pre) by (unfold slen; lia). rewrite drop_string_app.
  exists (take_string (Z.to_nat l) unread), (drop_string (Z.to_nat l) unread).
  assert (Hd : slen (take_string (Z.to_nat l) unread) = l) by (unfold slen in *; rewrite take_string_length; lia).
  assert (Hne : take_string (Z.to_nat l) unread ≠ "") by (intros E; rewrite E in Hd; change (slen "") with 0 in Hd; lia).
  pose proof (take_drop_string (Z.to_nat l) unread) as Htd. rewrite slen_app, Hd.
  set (d := take_string (Z.to_nat l) unread) in *. clearbody d. replace (l <=? 0) with false by lia.
  destruct (split_pieces d) as (ls & p & Ed & Hls & Hcp). pose proof (unlines_len ls) as Hn. pose proof (slen_nonneg p) as Hp0.
  assert (Hdl : len ls ≤ l) by (rewrite <- Hd, Ed, slen_app; lia).
  assert (Es : Split newline d = (ls ++ [p])%list) by (rewrite Ed; by apply split_unlines). rewrite Es. clear Es.
  destruct Hls as [|l0 ls Hl0 Hls].
  - exists [], (partial ++ p). cbn [app removelast last default from_option]. split_and!; try done; [by rewrite Ed|by apply clean_app].
  - exists ((partial ++ l0) :: ls), p. cbn [app].
    rewrite app_comm_cons, removelast_last, last_snoc. cbn [default from_option].
    split_and!; try done; [rewrite Ed; cbn [unlines]; by rewrite !string_app_assoc|constructor; [by apply clean_app|done]].
Qed.

(** ** What a print has run *)

Definition ran (m : VirtualSDModule) : list string :=
  omap (λ e, match e with Ran s => Some s | _ => None end) (events m).

Lemma ran_emit e m : ran (emit e m) = (ran m ++ match e with Ran s => [s] | _ => [] end)%list.
Proof. unfold ran. cbn. rewrite omap_app. by destruct e. Qed.

(** A script that returns leaves the position of the print alone; it may pause it.  No
    script runs lines of the file. *)
Class PrintScript (RunScript : string → VirtualSDModule → option recovered * VirtualSDModule) : Prop := {
  script_keeps line m m' : RunScript line m = (None, m') →
    CurrentFile (core m') = CurrentFile (core m) ∧ NextFilePosition (core m') = NextFilePosition (core m) ∧
    FilePosition (core m') = FilePosition (core m) ∧ workTimer m' = workTimer m;
  script_ran line m r m' : RunScript line m = (r, m') → ran m' = ran m
}.

Section Print.
Context (RunScript : string → VirtualSDModule → option recovered * VirtualSDModule) (on_error : option string) `{!PrintScript RunScript}.
Context (name content : string) (before : list string).

Definition read_error (t : tick) : bool := match t_read t with inl _ => true | _ => false end.

(** The last line run failed, or a read did. *)
Definition trouble (ts : list tick) (ldone : list string) : Prop :=
  (∃ l m, last ldone = Some l ∧ (RunScript (TrimCR l) m).1 ≠ None) ∨ ∃ t, t ∈ ts ∧ read_error t = true.

(** Inside the loop: the lines run, those read, and what is left of the file. *)
Record working (ldone pending : list string) (unread : string) (w : work) : Prop := {
  wk_file : CurrentFile (core (w_module w)) = Some (mkFile name content (slen (unlines ldone ++ unlines pending ++ partialInput w)));
  wk_lines : lines w = reverse pending;
  wk_done : Forall clean ldone;
  wk_pending : Forall clean pending;
  wk_partial : clean (partialInput w);
  wk_content : content = (unlines ldone ++ unlines pending ++ partialInput w) ++ unread;
  wk_pos : FilePosition (core (w_module w)) = slen (unlines ldone);
  wk_ran : ran (w_module w) = (before ++ (TrimCR <$> ldone))%list;
  wk_error : errorMessage w = ""
}.

(** A prefix of the file that ends a line. *)
Definition at_line (ldone : list string) : Prop := Forall clean ldone ∧ ∃ rest, content = unlines ldone ++ rest.

Lemma at_line_prefix ldone : at_line ldone → ∃ rest, file_lines content = (ldone ++ rest)%list.
Proof.
  intros (Hc & rest & E). destruct (split_pieces rest) as (ls & p & -> & Hl & Hp). exists ls.
  rewrite E, <- string_app_assoc, <- unlines_app. apply file_lines_unlines; [by apply Forall_app|done].
Qed.

(** ** One round *)

Lemma yield_core t m : ∃ b, core (yield t m) = set_must_pause b (core m) ∧ b = (MustPauseWork (core m) || t_pause t)%bool ∧ events (yield t m) = events m.
Proof. unfold yield. destruct (t_pause t); eexists; cbn; rewrite ?orb_true_r, ?orb_false_r; split_and!; [done..| |done|done]. by destruct m as [[] ? ?]. Qed.

Lemma read_step t w ldone unread ready : working ldone [] unread w → MustPauseWork (core (w_module w)) = false → t_read t = inr ready → unread ≠ "" →
  ∃ w' pending unread', work_round RunScript on_error t w = Ret (inl w') ∧ working ldone pending unread' w' ∧
    MustPauseWork (core (w_module w')) = t_pause t ∧ slen unread' + len pending ≤ slen unread ∧ slen unread' < slen unread.
Proof.
  intros [Hf Hl Hd _ Hp Hc Hpos Hr He] Hm Ht Hu. unfold work_round. rewrite Hm, Hl, Ht. change (reverse []) with (@nil string). cbv iota.
  cbn [unlines] in Hf, Hc. set (pre := unlines ldone ++ "" ++ partialInput w) in *. rewrite Hc in Hf.
  destruct (ReadLines_spec ready (partialInput w) (core (w_module w)) name pre unread Hf Hu Hp)
    as (d & unread' & pending & partial' & -> & -> & Hd0 & Hpd & Hcp & Hcp' & Hn).
  rewrite <- Hc. set (m1 := mkModule _ _ _). destruct (yield_core t m1) as (b & Hy & -> & Hev).
  eexists _, pending, unread'. split; [reflexivity|].
  assert (Epre : pre ++ d = unlines ldone ++ unlines pending ++ partial') by (subst pre; rewrite !string_app_assoc; cbn; by rewrite Hpd).
  assert (0 < slen d) by (destruct d; [done|unfold slen; cbn [String.length]; lia]).
  rewrite slen_app. cbn [w_module]. split_and!; [|rewrite Hy; cbn; by rewrite Hm|lia|lia].
  split; cbn [w_module partialInput lines errorMessage]; rewrite ?Hy; cbn [core m1]; try done.
  - cbn. by rewrite Epre.
  - by rewrite Hc, <- string_app_assoc, Epre.
  - by unfold ran; rewrite Hev.
Qed.

Lemma eof_step t w ldone ready : working ldone [] "" w → MustPauseWork (core (w_module w)) = false → t_read t = inr ready →
  ∃ w', work_round RunScript on_error t w = Ret (inr w') ∧ CurrentFile (core (w_module w')) = None ∧ errorMessage w' = "" ∧
    ran (w_module w') = (before ++ (TrimCR <$> ldone))%list ∧ ldone = file_lines content.
Proof.
  intros [Hf Hl Hd _ Hp Hc Hpos Hr He] Hm Ht. unfold work_round. rewrite Hm, Hl, Ht. change (reverse []) with (@nil string). cbv iota.
  unfold ReadLines, file_read. rewrite Hf. cbn [f_content f_offset f_name]. rewrite string_app_nil_r in Hc. rewrite <- Hc, Z.sub_diag.
  replace (Z.min (Z.pos ready) (Z.min 8192 0) <=? 0) with true by lia. eexists. split; [reflexivity|]. cbn [w_module errorMessage].
  split_and!; [done|done|by rewrite ran_emit, app_nil_r|]. rewrite Hc. cbn [unlines]. symmetry. by apply file_lines_unlines.
Qed.

Lemma read_error_step t w ldone unread e : working ldone [] unread w → MustPauseWork (core (w_module w)) = false → t_read t = inl e →
  ∃ w', work_round RunScript on_error t w = Ret (inr w') ∧ CurrentFile (core (w_module w')) = None ∧
    ran (w_module w') = (before ++ (TrimCR <$> ldone))%list.
Proof.
  intros [Hf Hl _ _ _ _ _ Hr _] Hm Ht. unfold work_round. rewrite Hm, Hl, Ht. change (reverse []) with (@nil string). cbv iota.
  unfold ReadLines. rewrite Hf. eexists. split; [reflexivity|]. cbn [w_module]. split; [done|]. by rewrite ran_emit, app_nil_r.
Qed.

Lemma busy_step t w ldone l pending unread : working ldone (l :: pending) unread w → MustPauseWork (core (w_module w)) = false → t_busy t = true →
  ∃ w', work_round RunScript on_error t w = Ret (inl w') ∧ working ldone (l :: pending) unread w'.
Proof.
  intros [Hf Hl Hd Hpd Hp Hc Hpos Hr He] Hm Ht. unfold work_round. rewrite Hm, Ht. destruct (lines w) as [|l0 ls] eqn:El.
  { rewrite reverse_cons in Hl. by destruct (reverse pending). }
  eexists. split; [reflexivity|]. destruct (yield_core t (w_module w)) as (b & Hy & _ & Hev).
  split; cbn [w_module partialInput lines errorMessage]; rewrite ?Hy; try done. unfold ran. by rewrite Hev.
Qed.

Lemma failed_line line m r m2 : RunScript line m = (Some r, m2) →
  (∃ s, tryCatchWorkHandler RunScript on_error line m = Panic s) ∨
  ∃ msg m3, tryCatchWorkHandler RunScript on_error line m = Ret (Some msg, m3) ∧ ran m3 = ran m.
Proof using PrintScript0.
  intros E. pose proof (script_ran _ _ _ _ E) as Hr. unfold tryCatchWorkHandler. rewrite E.
  assert (Hemit : ∀ msg m3, ran m3 = ran m → ran (emit (Respond msg) m3) = ran m) by (intros; by rewrite ran_emit, app_nil_r).
  destruct r as [msg|msg|msg|].
  - unfold tryCatchOnErrorGCode. destruct on_error as [script|]; [|right; eexists _, _; split; [reflexivity|auto]].
    destruct (_ || _)%bool; [|right; eexists _, _; split; [reflexivity|auto]].
    destruct (RunScript script m2) as [r3 m3] eqn:E3. pose proof (script_ran _ _ _ _ E3) as Hr3.
    assert (Hx : (match r3 with Some (PString "exit") => Panic "exit" | _ => Ret m3 end) = Ret m3 ∨
      (match r3 with Some (PString "exit") => Panic "exit" | _ => Ret m3 end) = Panic "exit") by (repeat case_match; auto).
    destruct Hx as [-> | ->]; [right|left; eauto]. eexists _, _; split; [reflexivity|]. apply Hemit. congruence.
  - right; eexists _, _; split; [reflexivity|auto].
  - assert (Hx : msg = "exit" ∨ msg ≠ "exit") by (destruct (decide (msg = "exit")); auto). destruct Hx as [-> |Hne]; [left; eauto|right].
    eexists _, _. split; [|apply Hemit, Hr]. cbn [mbind go_bind]. repeat (case_match; try done).
  - right; eexists _, _; split; [reflexivity|auto].
Qed.

(** A line is run; what the script leaves is what counts. *)
Lemma run_step t w ldone l pending unread : working ldone (l :: pending) unread w → MustPauseWork (core (w_module w)) = false → t_busy t = false →
  ∃ m1, ran m1 = (before ++ (TrimCR <$> ldone ++ [l]))%list ∧ MustPauseWork (core m1) = false ∧
  match RunScript (TrimCR l) m1 with
  | (None, m2) => ∃ w', work_round RunScript on_error t w = Ret (inl w') ∧ working (ldone ++ [l]) pending unread w' ∧
      MustPauseWork (core (w_module w')) = MustPauseWork (core m2)
  | (Some _, _) => (∃ s, work_round RunScript on_error t w = Panic s) ∨
      ∃ w', work_round RunScript on_error t w = Ret (inr w') ∧ CurrentFile (core (w_module w')) = None ∧
        ran (w_module w') = (before ++ (TrimCR <$> ldone ++ [l]))%list
  end.
Proof using PrintScript0.
  intros [Hf Hl Hd Hpd Hp Hc Hpos Hr He] Hm Ht. unfold work_round. rewrite Hm, Ht. rewrite reverse_cons in Hl.
  destruct (lines w) as [|l0 ls] eqn:El; [by destruct (reverse pending)|]. rewrite Hl, last_snoc, removelast_last. clear l0 ls El Hl.
  cbn [default from_option id AdvanceLine]. set (s1 := set_next_position _ _). set (m1 := emit _ _).
  assert (Hr1 : ran m1 = (before ++ (TrimCR <$> ldone ++ [l]))%list).
  { unfold m1. rewrite ran_emit. change (ran (mkModule s1 _ _)) with (ran (w_module w)). by rewrite Hr, fmap_app, <- app_assoc. }
  exists m1. split_and!; [done|done|]. destruct (RunScript (TrimCR l) m1) as [[r|] m2] eqn:Er.
  - destruct (failed_line _ _ _ _ Er) as [[s ->]|(msg & m3 & -> & Hr3)]; [left; eauto|right]. eexists. split; [reflexivity|].
    cbn [w_module]. split; [done|]. by change (ran (on_core CloseCurrentFile m3)) with (ran m3); rewrite Hr3.
  - destruct (script_keeps _ _ _ Er) as (K1 & K2 & K3 & K4). apply script_ran in Er as K5.
    unfold tryCatchWorkHandler. rewrite Er. cbn [mbind go_bind].
    cbn [core on_core CommitFilePosition set_position set_cmd_from_sd NextFilePosition FilePosition]. rewrite K2. cbn [core m1 emit s1 NextFilePosition set_next_position].
    rewrite Z.eqb_refl. eexists. split; [reflexivity|]. split; [|done].
    assert (Eu : unlines (ldone ++ [l])%list = unlines ldone ++ l ++ String newline "") by (rewrite unlines_app; done).
    split; cbn [w_module partialInput lines errorMessage core on_core CommitFilePosition set_position set_cmd_from_sd CurrentFile FilePosition]; try done.
    + rewrite K1. cbn. rewrite Hf. do 3 f_equal. rewrite Eu. cbn [unlines]. rewrite !string_app_assoc. done.
    + apply Forall_app. split; [done|]. constructor; [by inversion Hpd|done].
    + by inversion Hpd.
    + rewrite Hc at 1. rewrite Eu. cbn [unlines]. rewrite !string_app_assoc. done.
    + change (NextFilePosition (core m2) = slen (unlines (ldone ++ [l])%list)). rewrite K2, Eu, !slen_app.
      change (FilePosition (core (w_module w)) + slen l + 1 = slen (unlines ldone) + (slen l + 1)). lia.
    + change (ran m2 = (before ++ (TrimCR <$> ldone ++ [l]))%list). by rewrite K5.
Qed.

(** ** Sessions *)

(** What is true of a print at any time, seen from outside: the lines run so far, and
    where the file is; it is closed after its last line, or after trouble. *)
Definition settled (all : list tick) (ldone : list string) (m : VirtualSDModule) : Prop :=
  at_line ldone ∧ ran m = (before ++ (TrimCR <$> ldone))%list ∧
  match CurrentFile (core m) with
  | Some f => f_name f = name ∧ f_content f = content ∧ FilePosition (core m) = slen (unlines ldone)
  | None => ldone = file_lines content ∨ trouble all ldone
  end.

Lemma working_at_line ldone pending unread w : working ldone pending unread w → at_line ldone.
Proof. intros H. split; [apply H|]. eexists. rewrite (wk_content _ _ _ _ H), string_app_assoc. done. Qed.

Lemma working_settled all ldone pending unread w : working ldone pending unread w → settled all ldone (w_module w).
Proof.
  intros H. split_and!; [by eapply working_at_line|apply H|]. rewrite (wk_file _ _ _ _ H). split_and!; [done..|apply H].
Qed.

Lemma line_done_at_line ldone l pending unread w : working ldone (l :: pending) unread w → at_line (ldone ++ [l]).
Proof.
  intros H. split; [apply Forall_app; split; [apply H|]; constructor; [|done]; pose proof (wk_pending _ _ _ _ H) as Hp; by inversion Hp|].
  eexists. rewrite (wk_content _ _ _ _ H), unlines_app. cbn [unlines]. rewrite !string_app_assoc, string_app_cons. done.
Qed.

Lemma round_settles all t w ldone pending unread : t ∈ all → working ldone pending unread w →
  match work_round RunScript on_error t w with
  | Ret (inl w') => ∃ ldone' pending' unread', working ldone' pending' unread' w'
  | Ret (inr w') => ∃ ldone', settled all ldone' (w_module w')
  | Panic _ => True
  end.
Proof using PrintScript0.
  intros Hin H. destruct (MustPauseWork (core (w_module w))) eqn:Hm.
  { unfold work_round. rewrite Hm. exists ldone. by eapply working_settled. }
  destruct pending as [|l pending].
  - destruct (t_read t) as [e|ready] eqn:Ht.
    + destruct (read_error_step _ _ _ _ _ H Hm Ht) as (w' & -> & Hf & Hr). exists ldone. split_and!; [by eapply working_at_line|done|].
      rewrite Hf. right. right. exists t. split; [done|]. unfold read_error. by rewrite Ht.
    + assert (Hu : unread = "" ∨ unread ≠ "") by (destruct unread; auto). destruct Hu as [-> |Hu].
      * destruct (eof_step _ _ _ _ H Hm Ht) as (w' & -> & Hf & _ & Hr & Hd). exists ldone.
        split_and!; [by eapply working_at_line|done|]. rewrite Hf. by left.
      * destruct (read_step _ _ _ _ _ H Hm Ht Hu) as (w' & p' & u' & -> & H' & _). eauto.
  - destruct (t_busy t) eqn:Ht.
    + destruct (busy_step _ _ _ _ _ _ H Hm Ht) as (w' & -> & H'). eauto.
    + destruct (run_step _ _ _ _ _ _ H Hm Ht) as (m1 & _ & _ & Hrun). destruct (RunScript (TrimCR l) m1) as [[r|] m2] eqn:Er.
      * destruct Hrun as [[s ->]|(w' & -> & Hf & Hr)]; [done|]. exists (ldone ++ [l])%list.
        split_and!; [by eapply line_done_at_line|done|]. rewrite Hf. right. left. exists l, m1. rewrite last_snoc. by rewrite Er.
      * destruct Hrun as (w' & -> & H' & _). eauto.
Qed.

Lemma loop_settles all ts w ldone pending unread : (∀ t, t ∈ ts → t ∈ all) → working ldone pending unread w →
  match work_loop RunScript on_error ts w with
  | Ret (inl w') | Ret (inr w') => ∃ ldone', settled all ldone' (w_module w')
  | Panic _ => True
  end.
Proof using PrintScript0.
  revert w ldone pending unread. induction ts as [|t ts IH]; intros w ldone pending unread Hin H; cbn [work_loop].
  { exists ldone. by eapply working_settled. }
  pose proof (round_settles all t w ldone pending unread ltac:(set_solver) H) as Hr.
  destruct (work_round RunScript on_error t w) as [[w'|w']|]; cbn [mbind go_bind]; [|done..].
  destruct Hr as (ldone' & pending' & unread' & H'). eapply IH; [set_solver|done].
Qed.

Lemma settled_events all ldone m e : (match e with Ran _ => False | _ => True end) → settled all ldone m → settled all ldone (emit e m).
Proof. intros He (H1 & H2 & H3). split_and!; [done| |done]. rewrite ran_emit, H2. destruct e; try done; by rewrite app_nil_r. Qed.

Lemma work_end_settles all ldone w : settled all ldone (w_module w) → settled all ldone (work_end w).
Proof.
  intros H. unfold work_end. assert (H1 : settled all ldone (on_core (set_cmd_from_sd false) (set_timer false (w_module w)))) by done.
  destruct (negb _); [by apply settled_events|]. destruct (CurrentFile _); by apply settled_events.
Qed.

(** A session of a print whose file is closed runs nothing. *)
Lemma closed_loop all ts w ldone : settled all ldone (w_module w) → CurrentFile (core (w_module w)) = None → lines w = [] →
  match work_loop RunScript on_error ts w with
  | Ret (inl w') | Ret (inr w') => settled all ldone (w_module w')
  | Panic _ => True
  end.
Proof.
  intros H Hf Hl. destruct ts as [|t ts]; [done|]. cbn [work_loop]. unfold work_round. destruct (MustPauseWork (core (w_module w))); [done|].
  rewrite Hl. unfold ReadLines. rewrite Hf. cbn [mbind go_bind w_module]. by apply settled_events.
Qed.

Lemma session_settles all ts ldone m : (∀ t, t ∈ ts → t ∈ all) → settled all ldone m →
  match Work_handler RunScript on_error ts (Do_resume m).2 with
  | Ret (inl w') => ∃ ldone', settled all ldone' (w_module w')
  | Ret (inr m') => ∃ ldone', settled all ldone' m'
  | Panic _ => True
  end.
Proof using PrintScript0.
  intros Hin H. assert (H1 : settled all ldone (Do_resume m).2) by (unfold Do_resume; by destruct (workTimer m)).
  revert H1. generalize (Do_resume m).2 as m1. clear H m. intros m ((Hcl & rest & Hc) & Hr & Hopen).
  unfold Work_handler, work_start, SeekToFilePosition.
  assert (Hloop : ∀ w, (∃ ldone', settled all ldone' (w_module w) ∧ CurrentFile (core (w_module w)) = None ∧ lines w = []) ∨
      (∃ ldone' pending unread, working ldone' pending unread w) →
    match (r ← work_loop RunScript on_error ts w; match r with inl w => Ret (inl w) | inr w => Ret (inr (work_end w)) end) with
    | Ret (inl w') => ∃ ldone', settled all ldone' (w_module w')
    | Ret (inr m') => ∃ ldone', settled all ldone' m'
    | Panic _ => True
    end).
  { intros w Hw. assert (Hl : match work_loop RunScript on_error ts w with
      | Ret (inl w') | Ret (inr w') => ∃ ldone', settled all ldone' (w_module w') | Panic _ => True end).
    { destruct Hw as [(d & Hs & Hf & Hln)|(d & p & u & Hw)]; [|by eapply loop_settles].
      pose proof (closed_loop all ts w d Hs Hf Hln) as Hcl'. destruct (work_loop _ _ ts w) as [[w'|w']|]; eauto. }
    destruct (work_loop _ _ ts w) as [[w'|w']|]; cbn [mbind go_bind]; [done| |done]. destruct Hl as [d Hd]. exists d. by apply work_end_settles. }
  destruct (CurrentFile (core m)) as [f|] eqn:Hf.
  - destruct Hopen as (Hn & Hcont & Hpos). replace (FilePosition (core m) <? 0) with false by (pose proof (slen_nonneg (unlines ldone)); lia).
    apply Hloop. right. exists ldone, [], rest. split; cbn [w_module partialInput lines errorMessage]; try done.
    + cbn. rewrite Hn, Hcont, Hpos. by rewrite string_app_nil_r.
    + cbn [unlines]. change ("" ++ "") with "". by rewrite string_app_nil_r.
    + by rewrite ran_emit, app_nil_r.
  - apply Hloop. left. exists ldone. cbn [w_module lines]. split_and!; [|done..]. apply settled_events; [done|]. split_and!; [by split; eauto|done|].
    cbn. by rewrite Hf.
Qed.

(** The sessions of a print: each resumes it and goes on until the handler leaves, or, in
    the last one, is still running. *)
Fixpoint sessions (tss : list (list tick)) (m : VirtualSDModule) : go VirtualSDModule :=
  match tss with
  | [] => Ret m
  | ts :: tss => r ← Work_handler RunScript on_error ts (Do_resume m).2;
                 match r with inr m => sessions tss m | inl w => Ret (w_module w) end
  end.

Lemma sessions_settle all tss ldone m m' : (∀ t, t ∈ List.concat tss → t ∈ all) → settled all ldone m → sessions tss m = Ret m' →
  ∃ ldone', settled all ldone' m'.
Proof using PrintScript0.
  revert ldone m. induction tss as [|ts tss IH]; intros ldone m Hin H E; [injection E as <-; eauto|]. cbn [sessions List.concat] in *.
  pose proof (session_settles all ts ldone m ltac:(set_solver) H) as Hs.
  destruct (Work_handler _ _ ts (Do_resume m).2) as [[w|m1]|]; cbn [mbind go_bind] in E; [by injection E as <-| |done].
  destruct Hs as [d Hd]. eapply IH; [set_solver|done..].
Qed.

(** ** Left alone *)

(** A round of the loop when nothing holds it up. *)
Definition free (t : tick) : Prop := t_busy t = false ∧ t_pause t = false ∧ read_error t = false.

Hypothesis scripts_quiet : ∀ line m, ∃ m', RunScript line m = (None, m') ∧ MustPauseWork (core m') = MustPauseWork (core m).

Lemma free_loop ts w ldone pending unread : Forall free ts → working ldone pending unread w → MustPauseWork (core (w_module w)) = false →
  2 * slen unread + len pending < len ts →
  ∃ w', work_loop RunScript on_error ts w = Ret (inr w') ∧ CurrentFile (core (w_module w')) = None ∧ errorMessage w' = "" ∧
    ran (w_module w') = (before ++ (TrimCR <$> file_lines content))%list.
Proof using PrintScript0 scripts_quiet.
  intros Hf. revert w ldone pending unread. induction Hf as [|t ts (Hb & Hp & Hr) Hf IH]; intros w ldone pending unread H Hm Hn.
  { rewrite len_nil in Hn. pose proof (slen_nonneg unread). pose proof (len_nonneg pending). lia. }
  rewrite len_cons in Hn. unfold read_error in Hr. destruct (t_read t) as [|ready] eqn:Ht; [done|]. cbn [work_loop]. destruct pending as [|l pending].
  - assert (Hu : unread = "" ∨ unread ≠ "") by (destruct unread; auto). destruct Hu as [-> |Hu].
    + destruct (eof_step _ _ _ _ H Hm Ht) as (w' & -> & Hcf & He & Hran & Hd). exists w'. rewrite <- Hd. done.
    + destruct (read_step _ _ _ _ _ H Hm Ht Hu) as (w' & p' & u' & -> & H' & Hm' & Hle & Hlt). cbn [mbind go_bind].
      apply (IH w' ldone p' u'); [done|by rewrite Hm'|]. rewrite len_nil in Hn. lia.
  - destruct (run_step _ _ _ _ _ _ H Hm Hb) as (m1 & _ & Hm1 & Hrun). destruct (scripts_quiet (TrimCR l) m1) as (m2 & Er & Hm2).
    rewrite Er in Hrun. destruct Hrun as (w' & -> & H' & Hm'). cbn [mbind go_bind]. rewrite len_cons in Hn.
    apply (IH w' (ldone ++ [l])%list pending unread); [done|by rewrite Hm', Hm2|lia].
Qed.
End Print.

(** ** A print from its start *)

Lemma loaded stored filename m m0 : Load_file stored filename (Reset_file m) = (None, m0) →
  ∃ name content, CurrentFile (core m0) = Some (mkFile name content 0) ∧ FilePosition (core m0) = 0 ∧ workTimer m0 = workTimer m ∧ ran m0 = ran m.
Proof.
  unfold Load_file. destruct (LoadFile stored filename (core (Reset_file m))) as [e|[sel s]] eqn:E; [done|]. intros [= <-].
  unfold LoadFile in E. destruct (negb _); [done|]. destruct (stored _) as [content|]; [|done]. destruct (slen content =? 0); [done|].
  injection E as <- <-. eexists _, content. split_and!; [done|done| |].
  - unfold Reset_file, Do_pause. destruct (CurrentFile (core m)); [|done]. destruct (workTimer m) eqn:E; [exact E|exact E].
  - rewrite ran_emit, app_nil_r. change (ran (Reset_file m) = ran m). unfold Reset_file. rewrite !ran_emit, !app_nil_r.
    unfold Do_pause. destruct (CurrentFile (core m)); [|done]. by destruct (workTimer m).
Qed.

(** C4. However the file is read in chunks and however often the print is paused and
    resumed, the scripts run are a prefix of the lines of the file that a newline ends,
    in order and once each; while the file is open the position is the start of the
    first line not run, and the file is closed only after the last of these lines, when
    the last line run is one that can fail, or after a failed read. *)
Theorem print_runs_lines_once RunScript on_error stored filename m m0 tss m' :
  PrintScript RunScript → Load_file stored filename (Reset_file m) = (None, m0) → sessions RunScript on_error tss m0 = Ret m' →
  ∃ f ldone rest, CurrentFile (core m0) = Some f ∧ file_lines (f_content f) = (ldone ++ rest)%list ∧
    ran m' = (ran m ++ (TrimCR <$> ldone))%list ∧
    match CurrentFile (core m') with
    | Some f' => f_content f' = f_content f ∧ FilePosition (core m') = slen (unlines ldone)
    | None => rest = [] ∨ trouble RunScript (List.concat tss) ldone
    end.
Proof.
  intros Hs Hl E. destruct (loaded _ _ _ _ Hl) as (name & content & Hf & Hp & _ & Hr).
  destruct (sessions_settle RunScript on_error name content (ran m) (List.concat tss) tss [] m0 m') as (ldone & Hat & Hran & Hopen); [done| |done|].
  { split_and!; [by split; eauto|by rewrite Hr, app_nil_r|]. by rewrite Hf. }
  destruct (at_line_prefix content ldone Hat) as [rest Hrest]. exists (mkFile name content 0), ldone, rest. split_and!; [done..|].
  destruct (CurrentFile (core m')) as [f'|]; [by destruct Hopen as (_ & -> & ->)|]. destruct Hopen as [Hd|Ht]; [left|by right].
  rewrite <- Hd in Hrest. rewrite <- (app_nil_r ldone) in Hrest at 1. by apply app_inv_head in Hrest.
Qed.

(** C29. A print that is neither paused nor held up, and whose lines go through, ends after
    at most two rounds for each byte of its file: exactly the lines that a newline ends
    have been run, in order, the file is closed and the print is noted as complete. A
    last line without a newline is not run. *)
Theorem print_completes RunScript on_error stored filename m m0 ts f :
  PrintScript RunScript → (∀ line m, ∃ m', RunScript line m = (None, m') ∧ MustPauseWork (core m') = MustPauseWork (core m)) →
  workTimer m = false → Load_file stored filename (Reset_file m) = (None, m0) → CurrentFile (core m0) = Some f →
  Forall free ts → 2 * slen (f_content f) < len ts →
  ∃ m', Work_handler RunScript on_error ts (Do_resume m0).2 = Ret (inr m') ∧ ran m' = (ran m ++ (TrimCR <$> file_lines (f_content f)))%list ∧
    CurrentFile (core m') = None ∧ last (events m') = Some Note_complete.
Proof.
  intros Hs Hq Htm Hl Hcf Hfree Hn. destruct (loaded _ _ _ _ Hl) as (name & content & Hf & Hp & Ht & Hr).
  rewrite Hf in Hcf. injection Hcf as <-. cbn [f_content] in *. unfold Do_resume. rewrite Ht, Htm. cbn [snd].
  unfold Work_handler, work_start, SeekToFilePosition. cbn [core on_core set_timer set_must_pause CurrentFile FilePosition]. rewrite Hf, Hp. cbn [Z.ltb].
  change (0 <? 0) with false. cbv iota. set (w := mkWork _ _ _ _).
  destruct (free_loop RunScript on_error name content (ran m) Hq ts w [] [] content) as (w' & -> & Hcf & He & Hran); [done| |done| |].
  - split; try done. unfold w. cbn [w_module fmap list_fmap]. rewrite ran_emit, !app_nil_r. exact Hr.
  - rewrite len_nil. lia.
  - eexists. split; [reflexivity|]. unfold work_end. rewrite He. rewrite bool_decide_eq_true_2 by done. cbn [negb].
    cbn [core on_core set_timer set_cmd_from_sd CurrentFile]. rewrite Hcf. split_and!; [by rewrite ran_emit, app_nil_r|done|]. cbn. by rewrite last_snoc.
Qed.

(** ** Examples and gaps *)

Definition pausing (line : string) (m : VirtualSDModule) : option recovered * VirtualSDModule :=
  (None, if bool_decide (line = "PAUSE") then on_core (set_must_pause true) m else m).

#[local] Instance pausing_script : PrintScript pausing.
Proof.
  split; unfold pausing; intros ? ? ?; [intros [= <-]|intros ? [= <- <-]]; by case_bool_decide.
Qed.

Definition lf : string := String newline "".
Definition card (filename : string) : option string :=
  if bool_decide (filename = "a.gcode") then Some ("G28" ++ lf ++ "PAUSE" ++ String carriage_return lf ++ "G1 X1" ++ lf) else None.
Definition empty_module : VirtualSDModule := mkModule NewVirtualSD false [].
Definition card_loaded : VirtualSDModule := (Load_file card "a.gcode" (Reset_file empty_module)).2.
Definition bytes (n : positive) : tick := mkTick false (inr n) false.

(** Two sessions, with the file read in pieces of five bytes. *)
Definition two_sessions : list (list tick) := [repeat (bytes 5) 8; repeat (bytes 5) 8].

Lemma print_runs_lines_once_witness : ∃ m' f ldone rest, sessions pausing None two_sessions card_loaded = Ret m' ∧
  CurrentFile (core card_loaded) = Some f ∧ file_lines (f_content f) = (ldone ++ rest)%list ∧ ran m' = (TrimCR <$> ldone) ∧
  ran m' = ["G28"; "PAUSE"; "G1 X1"].
Proof.
  destruct (sessions pausing None two_sessions card_loaded) as [m'|] eqn:E; [|vm_compute in E; discriminate].
  destruct (print_runs_lines_once pausing None card "a.gcode" empty_module card_loaded two_sessions m' pausing_script) as (f & ldone & rest & H1 & H2 & H3 & _);
    [vm_compute; reflexivity|exact E|].
  exists m', f, ldone, rest. split_and!; [reflexivity|exact H1|exact H2|exact H3|]. vm_compute in E. injection E as <-. vm_compute. reflexivity.
Defined.

Definition quiet (line : string) (m : VirtualSDModule) : option recovered * VirtualSDModule := (None, m).

#[local] Instance quiet_script : PrintScript quiet.
Proof. split; unfold quiet; intros ? ? ?; [by intros [= <-]|by intros ? [= <- <-]]. Qed.

Lemma print_completes_witness : ∃ m', Work_handler quiet None (repeat (bytes 5) 60) (Do_resume card_loaded).2 = Ret (inr m') ∧
  ran m' = ["G28"; "PAUSE"; "G1 X1"] ∧ CurrentFile (core m') = None ∧ last (events m') = Some Note_complete.
Proof.
  apply (print_completes quiet None card "a.gcode" empty_module card_loaded (repeat (bytes 5) 60)
    (mkFile "a.gcode" ("G28" ++ lf ++ "PAUSE" ++ String carriage_return lf ++ "G1 X1" ++ lf) 0)); try (vm_compute; reflexivity).
  - exact quiet_script.
  - intros line m. exists m. split; reflexivity.
  - apply Forall_forall. intros t Ht. apply list_elem_of_In, repeat_spec in Ht as ->. repeat split.
Defined.

(** A last line that no newline ends is never run. *)
Lemma last_line_dropped : ∃ m', Work_handler quiet None (repeat (bytes 5) 60)
    (Do_resume (Load_file (λ _, Some ("G28" ++ lf ++ "M84")) "a.gcode" empty_module).2).2 = Ret (inr m') ∧
  ran m' = ["G28"] ∧ last (events m') = Some Note_complete.
Proof. eexists. split; [vm_compute; reflexivity|]. vm_compute. done. Qed.

(** A line that fails with a value that is neither a text nor an error ends the print as
    complete. *)
Lemma untyped_failure_completes : ∃ m', Work_handler (λ _ m, (Some POther, m)) None (repeat (bytes 100) 60) (Do_resume card_loaded).2 = Ret (inr m') ∧
  ran m' = ["G28"] ∧ last (events m') = Some Note_complete.
Proof. eexists. split; [vm_compute; reflexivity|]. vm_compute. done. Qed.

(** M23 never loads a file. *)
Lemma M23_never_loads stored m : (Cmd_M23 stored m).1 ≠ None.
Proof. unfold Cmd_M23. by destruct (workTimer m). Qed.

(** PAUSE and RESUME in the same line: resuming is refused, which is not noticed, and the
    print stops without being paused. *)
Definition pause_resume_script (line : string) (m : VirtualSDModule) : option recovered * VirtualSDModule :=
  let '(_, p, m) := Pause (mkPauseResume false false false) m in let '(_, _, m) := Resume p m in (None, m).

Lemma resume_in_line_lost :
  let p := (Resume (Pause (mkPauseResume false false false) (set_timer true card_loaded)).1.2 (set_timer true card_loaded)).1.2 in
  IsPaused p = false ∧ SdPaused p = false ∧
  ∃ m', Work_handler pause_resume_script None (repeat (bytes 100) 60) (Do_resume card_loaded).2 = Ret (inr m') ∧
    ran m' = ["G28"] ∧ last (events m') = Some Note_pause.
Proof. split_and!; [done..|]. eexists. split; [vm_compute; reflexivity|]. vm_compute. done. Qed.

(** A position before the start of the file is accepted (the limits of M26 are only
    logged); resuming then closes the file without a word, and a shutdown panics. *)
Definition M26_negative : CommandParams := mkParams {["S" := "-5"]} "M26 S-5" "M26".

Lemma negative_position_accepted :
  let m := (Cmd_M26 M26_negative card_loaded).2 in
  (Cmd_M26 M26_negative card_loaded).1 = Ret tt ∧ FilePosition (core m) = -5 ∧
  (∃ m', Work_handler quiet None [] (Do_resume m).2 = Ret (inr m') ∧ CurrentFile (core m') = None ∧ events m' = events m) ∧
  Handle_shutdown (inr 200%positive) m = Panic "slice bounds out of range".
Proof. split_and!; [vm_compute; reflexivity..| |vm_compute; reflexivity]. eexists. split; [vm_compute; reflexivity|]. split; vm_compute; reflexivity. Qed.
