(* ===== verification/Homing.v ===== *)
(** * Homing

    [src/internal/pkg/motion/homing] (controller.go, move.go, state.go, interfaces.go)
    and the homing part of [src/project/goklipper.go]: a homing move towards endstops,
    the homing of rails with its retract and second approach, and G28.

    The package works on interfaces: toolhead, kinematics, steppers and endstops.  They
    are the class [HomingHost], over the state [W] of the printer.  A panic carries an
    error or a text, which the recovery of G28 tells apart; a runtime panic of Go is an
    error. *)

From S2P Require Import Prelude GoFloat GoStrings GoState Kinematics.

(** ** Effects *)

Inductive panicked := PErr (msg : string) | PStr (msg : string).

Definition H (W A : Type) : Type := W → (panicked + A) * W.

#[global] Instance H_ret {W} : MRet (H W) := λ A a w, (inr a, w).
#[global] Instance H_bind {W} : MBind (H W) := λ A B k m w,
  match m w with
  | (inr a, w) => k a w
  | (inl p, w) => (inl p, w)
  end.

Definition hgets {W A} (f : W → A) : H W A := λ w, (inr (f w), w).
Definition hpanic {W A} (p : panicked) : H W A := λ w, (inl p, w).
Definition hgo {W A} (x : go A) : H W A := match x with Ret a => mret a | Panic e => hpanic (PErr e) end.

Fixpoint hmap {W A B} (f : A → H W B) (l : list A) : H W (list B) :=
  match l with
  | [] => mret []
  | a :: l => b ← f a; bs ← hmap f l; mret (b :: bs)
  end.

(** ** The interfaces *)

(** What a drip move waits for: a completion, or several of them joined. *)
Inductive completion := Single (id : nat) | Multi (ids : list nat).

Definition MultiComplete (ids : list nat) : completion :=
  match ids with
  | [id] => Single id
  | _ => Multi ids
  end.

(** When it has completed, given the results so far: a joined one waits for all, and is
    completed early by a result that is not nil. *)
Definition completed (result : nat → option any) (c : completion) : bool :=
  match c with
  | Single id => bool_decide (is_Some (result id))
  | Multi ids => forallb (λ id, bool_decide (is_Some (result id))) ids ||
                 existsb (λ id, match result id with Some ANil | None => false | Some _ => true end) ids
  end.

Record NamedEndstop := mkEndstop { Name : string; e_steppers : list string }.

Record HomingInfo := mkInfo {
  Speed : f64;
  info : RailHomingInfo;
  RetractSpeed : f64;
  RetractDist : f64;
  SecondHomingSpeed : f64
}.

Record Rail := mkRail { rail_range : f64 * f64; GetEndstops : list NamedEndstop; GetHomingInfo : HomingInfo }.

Class HomingHost (W : Type) := {
  (* kinematics and steppers *)
  GetSteppers : list string;
  CalcPosition : gmap string f64 → list f64;
  GetStepDist : string → f64;
  CalcPositionFromCoord : string → list f64 → f64;
  GetMCUPosition : string → W → Z;
  GetPastMCUPosition : string → f64 → W → Z;
  GetCommandedPosition : string → W → f64;
  (* the toolhead *)
  GetPosition : W → list f64;
  FlushStepGeneration : H W unit;
  GetLastMoveTime : H W f64;
  Dwell : f64 → H W unit;
  DripMove : list f64 → f64 → completion → H W (option string);
  SetPosition : list f64 → list Z → H W unit;
  Move : list f64 → f64 → H W unit;
  (* endstops, by name *)
  HomeStart : string → f64 → f64 → Z → f64 → Z → H W nat;
  HomeWait : string → f64 → H W f64;
  (* the printer: an event, with the adjustments that its handlers made, and motors *)
  Send_event : string → H W (gmap string f64 * option string);
  IsShutdown : W → bool;
  Motor_off : H W unit
}.

Definition HomingStartDelay : f64 := f_lit 1 1000.
Definition EndstopSampleTime : f64 := f_lit 15 1000000.
Definition EndstopSampleCount : Z := 4.

Section Homing.
Context {W : Type} `{HH : HomingHost W}.

(** ** A homing move *)

Record StepperPosition := mkSP { EndstopName : string; StepperName : string; StartPos : Z; HaltPos : Z; TrigPos : Z }.

Definition NewStepperPosition (w : W) (endstopName stepper : string) : StepperPosition :=
  mkSP endstopName stepper (GetMCUPosition stepper w) 0 0.

Definition NoteHomeEnd (w : W) (triggerTime : f64) (p : StepperPosition) : StepperPosition :=
  mkSP (EndstopName p) (StepperName p) (StartPos p) (GetMCUPosition (StepperName p) w)
    (GetPastMCUPosition (StepperName p) triggerTime w).

(** The sum of squares of the first three, and the slice that it needs. *)
Definition distance (axesD : list f64) : go f64 :=
  if bool_decide (length axesD < 3)%nat then Panic "slice bounds out of range"
  else Ret (fsqrt (foldl (λ s d, fadd s (fmul d d)) f0 (take 3 axesD))).

(** [a - b], over the second list. *)
Definition minus (a b : list f64) : go (list f64) :=
  if bool_decide (length a < length b)%nat then Panic "index out of range" else Ret (zip_with fsub (take (length b) a) b).

Definition CalcEndstopRate (e : NamedEndstop) (movepos : list f64) (speed : f64) : H W f64 :=
  startpos ← hgets GetPosition;
  axesD ← hgo (minus movepos startpos);
  moveD ← hgo (distance axesD);
  let moveT := fdiv moveD speed in
  let maxSteps := foldl (λ mx s, fmax (fdiv (fabs (fsub (CalcPositionFromCoord s startpos) (CalcPositionFromCoord s movepos))) (GetStepDist s)) mx)
                    f0 (e_steppers e) in
  mret (if fle maxSteps f0 then f_lit 1 1000 else fdiv moveT maxSteps).

Definition lookup_f (m : gmap string f64) (k : string) : f64 := default f0 (m !! k).

(** [kinSPos] with the offsets of the steppers of the kinematics. *)
Definition offset_positions (kinSPos offsets : gmap string f64) : gmap string f64 :=
  foldl (λ m s, <[s := fadd (lookup_f m s) (fmul (lookup_f offsets s) (GetStepDist s))]> m) kinSPos GetSteppers.

Definition CalcToolheadPos (kinSPos offsets : gmap string f64) : H W (list f64) :=
  toolheadPos ← hgets GetPosition;
  let p := CalcPosition (offset_positions kinSPos offsets) in
  if bool_decide (length p < 3)%nat || bool_decide (length toolheadPos < 3)%nat then hpanic (PErr "slice bounds out of range")
  else mret (take 3 p ++ drop 3 toolheadPos).

Definition commanded_positions (w : W) : gmap string f64 :=
  foldl (λ m s, <[s := GetCommandedPosition s w]> m) ∅ GetSteppers.

Definition start_positions (endstops : list NamedEndstop) (w : W) : list StepperPosition :=
  e ← endstops; s ← e_steppers e; [NewStepperPosition w (Name e) s].

(** Waiting for each endstop: the times of those that triggered, the last answer, and the
    first complaint. *)
Fixpoint wait_endstops (endstops : list NamedEndstop) (moveEnd : f64) (checkTriggered : bool)
    (times : gmap string f64) (triggerTime : f64) (err : option string) : H W (gmap string f64 * f64 * option string) :=
  match endstops with
  | [] => mret (times, triggerTime, err)
  | e :: endstops =>
      t ← HomeWait (Name e) moveEnd;
      if flt f0 t then wait_endstops endstops moveEnd checkTriggered (<[Name e := t]> times) t err
      else
        wait_endstops endstops moveEnd checkTriggered times t
          (match err with
           | Some _ => err
           | None => if flt t f0 then Some ("communication timeout during homing " ++ Name e)
                     else if checkTriggered then Some ("no trigger on " ++ Name e ++ " after full movement") else None
           end)%string
  end.

Definition steps_map (f : StepperPosition → Z) (ps : list StepperPosition) : gmap string f64 :=
  foldl (λ m p, <[StepperName p := f_of_Z (f p)]> m) ∅ ps.

(** [reflect.DeepEqual] of two maps with the same keys. *)
Definition same_steps (a b : gmap string f64) : bool :=
  forallb (λ kv, feq (kv.2) (lookup_f b kv.1)) (map_to_list a).

Definition over_steps : list StepperPosition → gmap string f64 := steps_map (λ p, HaltPos p - TrigPos p).

(** Where the toolhead came to a halt, and where it was when the endstop triggered. *)
Definition halt_position (probePos : bool) (movepos : list f64) (kinSPos : gmap string f64) (ps : list StepperPosition) : H W (list f64 * list f64) :=
  if probePos then
    let haltSteps := steps_map (λ p, HaltPos p - StartPos p) ps in
    let triggerSteps := steps_map (λ p, TrigPos p - StartPos p) ps in
    triggerPos ← CalcToolheadPos kinSPos triggerSteps;
    if same_steps triggerSteps haltSteps then mret (triggerPos, triggerPos)
    else haltPos ← CalcToolheadPos kinSPos haltSteps; mret (haltPos, triggerPos)
  else if existsb (λ kv, negb (feq kv.2 f0)) (map_to_list (over_steps ps)) then
    SetPosition movepos [];;
    haltKinSPos ← hgets commanded_positions;
    haltPos ← CalcToolheadPos haltKinSPos (over_steps ps); mret (haltPos, movepos)
  else mret (movepos, movepos).

Definition Execute (endstops : list NamedEndstop) (movepos : list f64) (speed : f64) (probePos triggered checkTriggered : bool)
    : H W (list StepperPosition * (list f64 * f64 * option string)) :=
  FlushStepGeneration;;
  kinSPos ← hgets commanded_positions;
  ps ← hgets (start_positions endstops);
  printTime ← GetLastMoveTime;
  ids ← hmap (λ e, restTime ← CalcEndstopRate e movepos speed;
                   HomeStart (Name e) printTime EndstopSampleTime EndstopSampleCount restTime (if triggered then 1 else 0)) endstops;
  Dwell HomingStartDelay;;
  err ← DripMove movepos speed (MultiComplete ids);
  match err with
  | Some e => mret (ps, ([], f0, Some ("error during homing move: " ++ e)%string))
  | None =>
      moveEnd ← GetLastMoveTime;
      r ← wait_endstops endstops moveEnd checkTriggered ∅ f0 None;
      FlushStepGeneration;;
      ps ← hgets (λ w, (λ p, NoteHomeEnd w (default moveEnd (r.1.1 !! EndstopName p)) p) <$> ps);
      hp ← halt_position probePos movepos kinSPos ps;
      SetPosition hp.1 [];;
      mret (ps, (hp.2, r.1.2, r.2))
  end.

(** [HomingMove.executeRuntime]: with the events around the move. *)
Definition executeRuntime (endstops : list NamedEndstop) (movepos : list f64) (speed : f64) (probePos triggered checkTriggered : bool)
    : H W (list StepperPosition * (list f64 * f64 * option string)) :=
  ev ← Send_event "homing:homing_move_begin";
  match ev.2 with
  | Some e => mret ([], ([], f0, Some e))
  | None =>
      r ← Execute endstops movepos speed probePos triggered checkTriggered;
      ev ← Send_event "homing:homing_move_end";
      mret (r.1, (r.2.1.1, r.2.1.2, match r.2.2 with Some e => Some e | None => ev.2 end))
  end.

Definition CheckNoMovement (debugInput : bool) (ps : list StepperPosition) : string :=
  if debugInput then EmptyString
  else match list_find (λ p, StartPos p = TrigPos p) ps with Some (_, p) => EndstopName p | None => EmptyString end.

(** ** Homing rails *)

Fixpoint fill (position : list f64) (i : nat) (coord : list (option f64)) : go (list f64) :=
  match coord with
  | [] => Ret position
  | None :: coord => fill position (S i) coord
  | Some v :: coord => if bool_decide (i < length position)%nat then fill (<[i := v]> position) (S i) coord else Panic "index out of range"
  end.

Definition FillCoord (coord : list (option f64)) : H W (list f64) := position ← hgets GetPosition; hgo (fill position 0 coord).

Definition is_given (coord : list (option f64)) (i : Z) : go bool := v ← coord.[i]; Ret (bool_decide (is_Some v)).

Definition homing_axes (forcepos : list (option f64)) : go (list Z) :=
  x ← is_given forcepos 0; y ← is_given forcepos 1; z ← is_given forcepos 2;
  Ret ((if x : bool then [0] else []) ++ (if y : bool then [1] else []) ++ (if z : bool then [2] else [])).

Context (debugInput : bool).

(** The retracts and slower approaches: ten at most for Z, whose times must agree three in
    a row, and one for another axis.  [i] of them are done. *)
Fixpoint approach (n : nat) (i : Z) (z : bool) (endstops : list NamedEndstop) (hi : HomingInfo) (forcepos movepos : list (option f64))
    (triggerTimes : list f64) (ps : list StepperPosition) : H W (list StepperPosition * option string) :=
  match n with
  | O => mret (ps, None)
  | S n =>
      startpos ← FillCoord forcepos;
      homepos ← FillCoord movepos;
      axesD ← hgo (minus homepos startpos);
      moveD ← hgo (distance axesD);
      let retractR := fmin f1 (fdiv (RetractDist hi) moveD) in
      Move (zip_with (λ hp d, fsub hp (fmul d retractR)) homepos axesD) (RetractSpeed hi);;
      SetPosition startpos [];;
      r ← executeRuntime endstops homepos (SecondHomingSpeed hi) false true true;
      let ps := r.1 in
      match r.2.2 with
      | Some e => mret (ps, Some e)
      | None =>
          if negb (bool_decide (CheckNoMovement debugInput ps = EmptyString)) then
            mret (ps, Some ("endstop " ++ CheckNoMovement debugInput ps ++ " still triggered after retract")%string)
          else if z then
            let triggerTimes := <[Z.to_nat (i mod 3) := r.2.1.2]> triggerTimes in
            if (0 <? i) && ((i + 1) mod 3 =? 0) then
              t0 ← hgo (triggerTimes.[0]); t1 ← hgo (triggerTimes.[1]); t2 ← hgo (triggerTimes.[2]);
              if fle (fabs (fsub (fsub t1 t0) (fsub t2 t1))) (f_lit 2 10) then mret (ps, None)
              else approach n (i + 1) z endstops hi forcepos movepos [f0; f0; f0] ps
            else approach n (i + 1) z endstops hi forcepos movepos triggerTimes ps
          else approach n (i + 1) z endstops hi forcepos movepos triggerTimes ps
      end
  end.

Definition adjusted (axes : list Z) (homepos newpos : list f64) : go (list f64) :=
  foldl (λ acc a, p ← acc; v ← newpos.[a];
           if bool_decide (Z.to_nat a < length p)%nat then Ret (<[Z.to_nat a := v]> p) else Panic "index out of range") (Ret homepos) axes.

(** [HomeRailsWithPositions]; what [GetTriggerPosition] answers afterwards is in the
    result. *)
Definition HomeRailsWithPositions (rails : list Rail) (forcepos movepos : list (option f64)) (triggerMCUPos : gmap string f64)
    : H W (gmap string f64 * option string) :=
  match rails with
  | [] => mret (triggerMCUPos, None)
  | rail0 :: _ =>
      homingAxes ← hgo (homing_axes forcepos);
      startpos ← FillCoord forcepos;
      homepos ← FillCoord movepos;
      SetPosition startpos homingAxes;;
      let endstops := mjoin (GetEndstops <$> rails) in
      let hi := GetHomingInfo rail0 in
      r ← executeRuntime endstops homepos (Speed hi) false true true;
      match r.2.2 with
      | Some e => mret (triggerMCUPos, Some e)
      | None =>
          z ← hgo (is_given forcepos 2);
          a ← (if flt f0 (RetractDist hi) then approach (if z : bool then 10 else 1) 0 z endstops hi forcepos movepos [f0; f0; f0] r.1
               else mret (r.1, None));
          match a.2 with
          | Some e => mret (triggerMCUPos, Some e)
          | None =>
              FlushStepGeneration;;
              let triggerMCUPos := foldl (λ m p, <[StepperName p := f_of_Z (TrigPos p)]> m) triggerMCUPos a.1 in
              ev ← Send_event "homing:home_rails_end";
              match ev.2 with
              | Some e => mret (triggerMCUPos, Some e)
              | None =>
                  let adjustPos := ev.1 in
                  if existsb (λ kv, negb (feq kv.2 f0)) (map_to_list adjustPos) then
                    homepos ← hgets GetPosition;
                    kinSPos ← hgets (λ w, foldl (λ m s, <[s := fadd (GetCommandedPosition s w) (lookup_f adjustPos s)]> m) ∅ GetSteppers);
                    p ← hgo (adjusted homingAxes homepos (CalcPosition kinSPos));
                    SetPosition p [];; mret (triggerMCUPos, None)
                  else mret (triggerMCUPos, None)
              end
          end
      end
  end.

(** [Homing.Home_rails]: an error becomes a panic with its text. *)
Definition Home_rails (rails : list Rail) (forcepos movepos : list (option f64)) (triggerMCUPos : gmap string f64) : H W (gmap string f64) :=
  ev ← Send_event "homing:home_rails_begin";
  match ev.2 with
  | Some e => hpanic (PStr e)
  | None =>
      r ← HomeRailsWithPositions rails forcepos movepos triggerMCUPos;
      match r.2 with Some e => hpanic (PStr e) | None => mret r.1 end
  end.

(** [HomeAxis]: the coordinates given are those of the axis. *)
Definition home_axis (rail : Rail) (axis : Z) (triggerMCUPos : gmap string f64) : H W (gmap string f64) :=
  let fh := HomeAxis (rail_range rail) (info (GetHomingInfo rail)) in
  if (0 <=? axis) && (axis <? 4) then
    Home_rails [rail] (<[Z.to_nat axis := Some fh.1]> (replicate 4 None)) (<[Z.to_nat axis := Some fh.2]> (replicate 4 None)) triggerMCUPos
  else hpanic (PErr "index out of range").

(** [Home] of the Cartesian kinematics without a dual carriage; CoreXY homes in an order of
    its own. *)
Fixpoint home_axes (rails : list Rail) (axes : list Z) (triggerMCUPos : gmap string f64) : H W unit :=
  match axes with
  | [] => mret tt
  | a :: axes => rail ← hgo (rails.[a]); tp ← home_axis rail a triggerMCUPos; home_axes rails axes tp
  end.

Definition Home (corexy : bool) (rails : list Rail) (axes : list Z) : H W unit :=
  home_axes rails (if corexy then corexy_order axes else axes) ∅.

(** ** G28 *)

Definition RequestedAxes (hasAxis : string → bool) : list Z :=
  match filter (λ a, hasAxis a.2 = true) [(0, "X"); (1, "Y"); (2, "Z")]%string with
  | [] => [0; 1; 2]
  | l => l.*1
  end.

Definition RunHome (home : H W unit) : H W unit := λ w,
  match home w with
  | (inr tt, w) => (inr tt, w)
  | (inl (PErr e), w) =>
      if IsShutdown w then (inl (PStr "Homing failed due to printer shutdown"), w)
      else match Motor_off w with (inr tt, w) => (inl (PErr e), w) | (inl p, w) => (inl p, w) end
  | (inl (PStr e), w) => (inl (PStr e), w)
  end.

Definition Cmd_G28 (corexy : bool) (rails : list Rail) (hasAxis : string → bool) : H W unit :=
  RunHome (Home corexy rails (RequestedAxes hasAxis)).

(** ** Other users of a homing move *)

Definition Manual_home (endstops : list NamedEndstop) (pos : list f64) (speed : f64) (triggered checkTriggered : bool) : H W unit :=
  r ← executeRuntime endstops pos speed false triggered checkTriggered;
  match r.2.2 with Some e => hpanic (PStr e) | None => mret tt end.

Definition Probing_move (probe : NamedEndstop) (pos : list f64) (speed : f64) : H W (list f64) :=
  r ← executeRuntime [probe] pos speed true true true;
  match r.2.2 with
  | Some e => hpanic (PStr e)
  | None =>
      if bool_decide (CheckNoMovement debugInput r.1 = EmptyString) then mret r.2.1.1
      else hpanic (PStr "Probe triggered prior to movement")
  end.
End Homing.
