(* ===== verification/HomingThy.v ===== *)
(** * Homing finds the endstop

    Theorems on [Homing]: after an axis is homed, its coordinate is that of the endstop plus
    the steps made since the time at which it triggered, and the other axes are where they
    were; a
    homing move reports the first endstop that did not trigger; and what a failed G28
    leaves. *)

From Stdlib Require Import Floats.SpecFloat.
From S2P Require Import Prelude GoFloat GoStrings GoState Kinematics KinematicsThy Homing.

(** ** Runs *)

Lemma H_bind_inv {W A B} (m : H W A) (k : A → H W B) w b w2 :
  (x ← m; k x) w = (inr b, w2) → ∃ a w1, m w = (inr a, w1) ∧ k a w1 = (inr b, w2).
Proof. unfold mbind, H_bind. destruct (m w) as [[p|a] w1]; [done|eauto]. Qed.

Lemma hgo_inv {W A} (x : go A) (w : W) a w' : hgo x w = (inr a, w') → x = Ret a ∧ w' = w.
Proof. unfold hgo. destruct x; cbn; by intros [= -> ->]. Qed.

(** Takes a successful run apart, step by step. *)
Ltac hinv E :=
  repeat match type of E with
  | (mbind _ _) _ = (inr _, _) =>
      let a := fresh "a" in let w := fresh "w" in let E1 := fresh "E" in
      apply H_bind_inv in E as (a & w & E1 & E); cbv beta in E;
      lazymatch type of E1 with
      | hgets _ _ = _ => unfold hgets in E1; injection E1 as <- <-
      | hgo _ _ = _ => apply hgo_inv in E1 as [E1 ->]
      | _ => idtac
      end
  | mret _ _ = _ => cbv [mret H_ret] in E; injection E; clear E; intros; subst
  end.

(** Splits the run at an error. *)
Ltac hopt E := match type of E with match ?x with Some _ => _ | None => _ end _ = _ => destruct x as [?|] eqn:? end.

(** A coordinate, up to the sign of zero. *)
Definition norm (x : f64) : f64 := fadd x f0.

Lemma norm_idem x : norm (norm x) = norm x.
Proof. by destruct x as [[]|[]| |]. Qed.

Lemma norm_step x z sd : fpos sd = true → feq z f0 = true → norm (fadd x (fmul z sd)) = norm x.
Proof.
  destruct sd as [| | |[] m e]; try done. intros _ Hz. assert (Hz' : ∃ b, z = S754_zero b) by (destruct z as [|[]| |[]]; eauto; done).
  destruct Hz' as [b ->]. by destruct b, x as [[]|[]| |].
Qed.

(** ** What homing relies on *)

(** A Cartesian printer: one rail for each axis, which goes by the name of its stepper. *)
Class CartesianHost (W : Type) `{HH : HomingHost W} (names : list string) : Prop := {
  names_three : length names = 3%nat;
  names_steppers s : s ∈ names → s ∈ GetSteppers;
  steppers_once : NoDup GetSteppers;
  step_dist_pos s : fpos (GetStepDist s) = true;
  calc_position m : CalcPosition m = lookup_f m <$> names;
  calc_from_coord i s p v : names !! i = Some s → p !! i = Some v → CalcPositionFromCoord s p = v
}.

(** [quiet]: no step is pending; [answer]: the time that an endstop answered when it was last
    waited for.  Where steppers were in the past stays when nothing moves. *)
Class HomingLaws (W : Type) `{HH : HomingHost W} := {
  quiet : W → Prop;
  answer : string → W → option f64;
  still (w w' : W) : Prop := (∀ s, GetMCUPosition s w' = GetMCUPosition s w) ∧ ∀ s t, GetPastMCUPosition s t w' = GetPastMCUPosition s t w;
  flush_law w w' : FlushStepGeneration w = (inr tt, w') → quiet w' ∧ GetPosition w' = GetPosition w ∧
    (∀ n, answer n w' = answer n w) ∧ (quiet w → still w w');
  set_position_law p axes w w' : SetPosition p axes w = (inr tt, w') → quiet w' ∧ GetPosition w' = p ∧
    (∀ s, s ∈ GetSteppers → GetCommandedPosition s w' = CalcPositionFromCoord s p) ∧
    (∀ n, answer n w' = answer n w) ∧ (quiet w → still w w');
  event_law name w r w' : Send_event name w = (inr r, w') → GetPosition w' = GetPosition w ∧
    (∀ n, answer n w' = answer n w) ∧ (quiet w → quiet w' ∧ still w w');
  wait_law name moveEnd w t w' : HomeWait name moveEnd w = (inr t, w') →
    answer name w' = Some t ∧ ∀ n, n ≠ name → answer n w' = answer n w
}.

Section Thy.
Context {W : Type} `{HH : HomingHost W}.

(** ** Maps by stepper *)

Lemma foldl_insert_lookup {A B} (key : A → string) (f : A → B) (ps : list A) (m : gmap string B) s :
  (foldl (λ m p, <[key p := f p]> m) m ps) !! s
  = match last (filter (λ p, key p = s) ps) with Some p => Some (f p) | None => m !! s end.
Proof.
  induction ps as [|p ps IH] using rev_ind; [done|]. rewrite foldl_app, filter_app. cbn [foldl].
  rewrite filter_cons, filter_nil. destruct (decide (key p = s)) as [<-|Hne].
  - rewrite last_snoc. apply lookup_insert_eq.
  - rewrite app_nil_r, lookup_insert_ne by done. apply IH.
Qed.

Lemma commanded_lookup w s : s ∈ GetSteppers → commanded_positions w !! s = Some (GetCommandedPosition s w).
Proof.
  intros Hs. unfold commanded_positions. rewrite (foldl_insert_lookup id (λ s, GetCommandedPosition s w)). cbn.
  destruct (last _) as [x|] eqn:E.
  - apply last_Some in E as [l E]. assert (Hx : x ∈ filter (λ p, p = s) GetSteppers) by (unfold id in E; rewrite E; set_solver).
    apply list_elem_of_filter in Hx as [-> _]. done.
  - apply last_None in E. assert (Hx : s ∈ filter (λ p, p = s) GetSteppers) by (by apply list_elem_of_filter).
    unfold id in E. rewrite E in Hx. by apply not_elem_of_nil in Hx.
Qed.

Context {names : list string} `{!CartesianHost W names} `{!HomingLaws W}.

(** Each stepper is moved once, since the names are distinct. *)
Lemma offset_lookup kin offs s : s ∈ GetSteppers →
  lookup_f (offset_positions kin offs) s = fadd (lookup_f kin s) (fmul (lookup_f offs s) (GetStepDist s)).
Proof using CartesianHost0.
  intros Hs. unfold offset_positions. pose proof steppers_once as Hnd. revert Hs Hnd. generalize GetSteppers as l. intros l.
  induction l as [|x l IH] using rev_ind; [by intros ?%not_elem_of_nil|]. intros Hs Hnd. rewrite foldl_app. cbn [foldl].
  apply NoDup_app in Hnd as (Hnd & Hx & _). unfold lookup_f at 1. apply elem_of_app in Hs as [Hs|Hs%list_elem_of_singleton].
  - assert (x ≠ s) by (intros ->; apply (Hx s Hs); set_solver). rewrite lookup_insert_ne by done. by apply IH.
  - subst x. rewrite lookup_insert_eq. cbn [default from_option]. do 2 f_equal. unfold lookup_f. f_equal.
    assert (Hn : s ∉ l) by (intros H; apply (Hx s H); set_solver). clear -Hn. induction l as [|y l IH] using rev_ind; [done|].
    rewrite foldl_app. cbn [foldl]. rewrite lookup_insert_ne by set_solver. apply IH. set_solver.
Qed.

Lemma over_lookup ps s : lookup_f (over_steps ps) s
  = match last (filter (λ p, StepperName p = s) ps) with Some p => f_of_Z (HaltPos p - TrigPos p) | None => f0 end.
Proof. unfold lookup_f, over_steps, steps_map. rewrite (foldl_insert_lookup StepperName). by destruct (last _). Qed.

(** ** A homing move *)

(** The first three coordinates come from the steppers, the others are kept. *)
Definition placed (movepos : list f64) (ps : list StepperPosition) (pos : list f64) : Prop :=
  length pos = length movepos ∧
  ∀ i v, movepos !! i = Some v → ∃ v', pos !! i = Some v' ∧
    norm v' = norm (match names !! i with
                    | Some s => fadd v (fmul (lookup_f (over_steps ps) s) (GetStepDist s))
                    | None => v
                    end).

Lemma no_offsets_placed movepos ps : existsb (λ kv, negb (feq kv.2 f0)) (map_to_list (over_steps ps)) = false → placed movepos ps movepos.
Proof using CartesianHost0.
  intros Hz. split; [done|]. intros i v Hv. exists v. split; [done|]. destruct (names !! i) as [s|] eqn:Hs; [|done].
  symmetry. apply norm_step; [apply step_dist_pos|]. rewrite over_lookup. destruct (last _) as [p|] eqn:El; [|done].
  assert (Hm : over_steps ps !! s = Some (f_of_Z (HaltPos p - TrigPos p))).
  { unfold over_steps, steps_map. by rewrite (foldl_insert_lookup StepperName), El. }
  apply not_false_iff_true. intros E. apply not_true_iff_false in Hz. apply Hz, existsb_exists.
  exists (s, f_of_Z (HaltPos p - TrigPos p)). split; [by apply list_elem_of_In, elem_of_map_to_list|cbn [snd]; by rewrite E].
Qed.

Lemma CalcToolheadPos_places movepos ps w pos w' (kin := commanded_positions w) :
  (∀ s, s ∈ GetSteppers → GetCommandedPosition s w = CalcPositionFromCoord s movepos) → GetPosition w = movepos →
  CalcToolheadPos kin (over_steps ps) w = (inr pos, w') → w' = w ∧ placed movepos ps pos.
Proof using CartesianHost0.
  intros Hc Hg E. unfold CalcToolheadPos in E. hinv E. rewrite calc_position in E.
  destruct (_ || _)%bool eqn:Hlen; [done|]. apply orb_false_iff in Hlen as [_ Hlen%bool_decide_eq_false]. rewrite Hg in E, Hlen.
  injection E as <- <-. split; [done|]. pose proof names_three as H3.
  rewrite take_ge by (rewrite length_fmap; lia). split; [rewrite length_app, length_fmap, length_drop; lia|].
  intros i v Hv. destruct (names !! i) as [s|] eqn:Hs.
  - assert (s ∈ GetSteppers) by (by eapply names_steppers, list_elem_of_lookup_2).
    eexists. split; [rewrite lookup_app_l by (rewrite length_fmap; by eapply lookup_lt_Some); by rewrite list_lookup_fmap, Hs|].
    rewrite offset_lookup by done. unfold kin. unfold lookup_f at 1. rewrite commanded_lookup by done. cbn [default from_option].
    rewrite Hc by done. by erewrite calc_from_coord.
  - apply lookup_ge_None in Hs. exists v. split; [|done]. rewrite lookup_app_r by (rewrite length_fmap; lia).
    rewrite length_fmap, lookup_drop. by replace (3 + (i - length names))%nat with i by lia.
Qed.

Lemma halt_position_places movepos kin ps w hp w' : quiet w → halt_position false movepos kin ps w = (inr hp, w') →
  quiet w' ∧ placed movepos ps hp.1 ∧ (∀ n, answer n w' = answer n w) ∧ still w w'.
Proof using CartesianHost0.
  intros Hq E. unfold halt_position in E. destruct (existsb _ _) eqn:Hz.
  - hinv E. match goal with H : SetPosition _ _ _ = (inr ?u, _) |- _ => destruct u; apply set_position_law in H as (Hq1 & Hg & Hc & Ha & Hm) end.
    match goal with H : CalcToolheadPos _ _ _ = _ |- _ => eapply CalcToolheadPos_places in H as [-> Hp]; [|done..] end.
    split_and!; [done|done|done|by apply Hm..].
  - hinv E. split_and!; [done| |done..]. by apply no_offsets_placed.
Qed.

(** The laws of the toolhead, at each step of a run. *)
Ltac hlaws :=
  repeat match goal with
  | H : SetPosition _ _ _ = (inr ?u, _) |- _ => destruct u; apply set_position_law in H
  | H : FlushStepGeneration _ = (inr ?u, _) |- _ => destruct u; apply flush_law in H
  end.

(** The step at which the stepper was when the endstop said that it triggered. *)
Definition timed (endstops : list NamedEndstop) (w : W) (p : StepperPosition) : Prop :=
  ∃ e t, e ∈ endstops ∧ StepperName p ∈ e_steppers e ∧ answer (Name e) w = Some t ∧ flt f0 t = true ∧
    TrigPos p = GetPastMCUPosition (StepperName p) t w.

(** A homing move that succeeds. *)
Definition arrived (endstops : list NamedEndstop) (movepos : list f64) (ps : list StepperPosition) (w : W) : Prop :=
  quiet w ∧ placed movepos ps (GetPosition w) ∧ Forall (λ p, HaltPos p = GetMCUPosition (StepperName p) w ∧ timed endstops w p) ps ∧
  StepperName <$> ps = mjoin (e_steppers <$> endstops).

(** Nothing that leaves the steppers where they are and asks no endstop changes this. *)
Lemma arrived_still endstops movepos ps w w' : quiet w' → GetPosition w' = GetPosition w → (∀ n, answer n w' = answer n w) → still w w' →
  arrived endstops movepos ps w → arrived endstops movepos ps w'.
Proof.
  intros Hq Hg Ha [Hm Hpm] (_ & Hp & Hh & Hn). split_and!; [done|by rewrite Hg| |done].
  eapply Forall_impl; [done|]. intros p (Hhp & e & t & He & Hs & Hans & Ht & Htr). rewrite Hm. split; [done|].
  exists e, t. by rewrite Ha, Hpm.
Qed.

(** The times noted are those that the endstops answered, and without a complaint each has
    one. *)
Definition times_ok (w : W) (times : gmap string f64) : Prop := ∀ n t, times !! n = Some t → answer n w = Some t ∧ flt f0 t = true.

Lemma wait_error_stays endstops moveEnd chk times t e w r w' :
  wait_endstops endstops moveEnd chk times t (Some e) w = (inr r, w') → r.2 = Some e.
Proof.
  revert times t w. induction endstops as [|x es IH]; intros times t w E; cbn [wait_endstops] in E; [by hinv E|].
  hinv E. destruct (flt f0 _); by eapply IH.
Qed.

Lemma wait_times endstops moveEnd times t w r w' : wait_endstops endstops moveEnd true times t None w = (inr r, w') → r.2 = None →
  times_ok w times → times_ok w' r.1.1 ∧ dom times ⊆ dom r.1.1 ∧ ∀ e, e ∈ endstops → Name e ∈ dom r.1.1.
Proof.
  clear dependent names.
  revert times t w. induction endstops as [|x es IH]; intros times t w E Hn Hok; cbn [wait_endstops] in E.
  { hinv E. cbn [fst]. split_and!; [done|done|by intros e ?%not_elem_of_nil]. }
  hinv E. apply wait_law in E0 as [Ha Ho]. destruct (flt f0 a) eqn:Hp.
  - destruct (IH _ _ _ E Hn) as (H1 & H2 & H3).
    { intros n u. destruct (decide (n = Name x)) as [->|Hne]; [rewrite lookup_insert_eq; by intros [= <-]|].
      rewrite lookup_insert_ne by done. rewrite Ho by done. apply Hok. }
    rewrite dom_insert in H2. split_and!; [done|set_solver|]. intros e [->|He]%elem_of_cons; [set_solver|by apply H3].
  - destruct (flt a f0); apply wait_error_stays in E; congruence.
Qed.

Lemma start_names endstops w : StepperName <$> start_positions endstops w = mjoin (e_steppers <$> endstops).
Proof.
  unfold start_positions. induction endstops as [|e es IH]; [done|]. cbn [mbind list_bind fmap list_fmap mjoin list_join] in *.
  rewrite fmap_app, IH. f_equal. generalize (e_steppers e) as l. induction l as [|x l IHl]; [done|]. cbn. by rewrite IHl.
Qed.

Lemma start_endstops endstops w p : p ∈ start_positions endstops w → ∃ e, e ∈ endstops ∧ EndstopName p = Name e ∧ StepperName p ∈ e_steppers e.
Proof.
  unfold start_positions. intros (e & Hp & He)%list_elem_of_bind. apply list_elem_of_bind in Hp as (s & Hp & Hs).
  apply list_elem_of_singleton in Hp as ->. by exists e.
Qed.

Lemma Execute_arrives endstops movepos speed tr w ps tp t w' :
  Execute endstops movepos speed false tr true w = (inr (ps, (tp, t, None)), w') → arrived endstops movepos ps w'.
Proof using CartesianHost0.
  intros E. unfold Execute in E. hinv E. hopt E; [by hinv E|]. hinv E. hlaws. destruct_and!.
  match goal with Eh : halt_position _ _ _ _ ?w = _, Hq : quiet ?w |- _ => destruct (halt_position_places _ _ _ _ _ _ Hq Eh) as (Hq2 & Hpl & Ha2 & Hm2 & Hp2) end.
  match goal with Ew : wait_endstops _ _ _ _ _ _ _ = _ |- _ => destruct (wait_times _ _ _ _ _ _ _ Ew) as (Ht & _ & Hd); [done|by intros ??|] end.
  match goal with Hs : quiet _ → still _ w' |- _ => destruct (Hs Hq2) as [Hm3 Hp3] end.
  split_and!; [done|by match goal with Hg : GetPosition w' = _ |- _ => rewrite Hg end| |].
  - apply Forall_fmap, Forall_forall. intros p Hp. cbn. split; [by rewrite Hm3, Hm2|].
    apply start_endstops in Hp as (e & He & Hen & Hs). destruct (proj1 (elem_of_dom _ _) (Hd e He)) as [u Hu].
    destruct (Ht _ _ Hu) as [Hans Hpos]. exists e, u. cbn. split_and!; [done|done| |done|].
    + congruence.
    + by rewrite Hen, Hu, Hp3, Hp2.
  - by rewrite <- list_fmap_compose, start_names.
Qed.

Lemma arrived_event name w r w' endstops movepos ps : Send_event name w = (inr r, w') → arrived endstops movepos ps w → arrived endstops movepos ps w'.
Proof. intros E Ha. destruct (event_law _ _ _ _ E) as (Hg & Hans & Hev). destruct (Hev (proj1 Ha)). by eapply arrived_still. Qed.

Lemma arrived_flush w w' endstops movepos ps : FlushStepGeneration w = (inr tt, w') → arrived endstops movepos ps w → arrived endstops movepos ps w'.
Proof. intros E Ha. destruct (flush_law _ _ E) as (Hq' & Hg & Hans & Hm). eapply arrived_still; [done..|apply Hm, Ha|done]. Qed.

Lemma executeRuntime_arrives endstops movepos speed tr w r w' :
  executeRuntime endstops movepos speed false tr true w = (inr r, w') → r.2.2 = None → arrived endstops movepos r.1 w'.
Proof using CartesianHost0.
  intros E Hn. unfold executeRuntime in E. hinv E. hopt E; [by hinv E|]. hinv E.
  match goal with Ee : Execute _ _ _ _ _ _ _ = (inr ?x, _), Es : Send_event "homing:homing_move_end" _ = _ |- _ =>
    destruct x as [ps [[tp t] [e|]]]; [done|]; apply (arrived_event _ _ _ _ _ _ _ Es), (Execute_arrives _ _ _ _ _ _ _ _ _ Ee) end.
Qed.

(** ** Homing an axis *)

Section Axis.
#[local] Set Default Proof Using "All".
Context (debugInput : bool) (a : nat) (sa : string) (forcev homev : f64) (endstops : list NamedEndstop) (pos0 : list f64).
Context (Ha : names !! a = Some sa) (Hsa : sa ∈ mjoin (e_steppers <$> endstops)).
Context (Hothers : ∀ i s, names !! i = Some s → s ∈ mjoin (e_steppers <$> endstops) → i = a).

Definition axis_coord (v : f64) : list (option f64) := <[a := Some v]> (replicate 4 None).

(** The place where an axis was, for all axes but the one homed. *)
Definition others_kept (pos : list f64) : Prop :=
  length pos = length pos0 ∧ ∀ i v, i ≠ a → pos0 !! i = Some v → ∃ v', pos !! i = Some v' ∧ norm v' = norm v.

Lemma a_lt : (a < 4)%nat.
Proof. apply lookup_lt_Some in Ha. pose proof names_three. lia. Qed.

Lemma fill_axis pos v pos' : fill pos 0 (axis_coord v) = Ret pos' → pos' = <[a := v]> pos ∧ (a < length pos)%nat.
Proof.
  pose proof a_lt. unfold axis_coord. destruct a as [|[|[|[|]]]]; [..|lia]; cbn [replicate insert list_insert fill];
    case_bool_decide; intros [= <-]; done.
Qed.

Lemma others_insert pos v : others_kept pos → others_kept (<[a := v]> pos).
Proof. intros [Hl H]. split; [by rewrite length_insert|]. intros i x Hi Hx. rewrite list_lookup_insert_ne by done. by apply H. Qed.

(** What a homing move to the endstop leaves. *)
Definition homed (ps : list StepperPosition) (w : W) : Prop :=
  ∃ homepos, arrived endstops homepos ps w ∧ homepos !! a = Some homev ∧ others_kept homepos.

Lemma unmoved_offset ps i s : StepperName <$> ps = mjoin (e_steppers <$> endstops) → i ≠ a → names !! i = Some s →
  lookup_f (over_steps ps) s = f0.
Proof.
  intros Hn Hi Hs. rewrite over_lookup. destruct (last _) as [p|] eqn:E; [|done]. exfalso. apply Hi. apply (Hothers i s Hs).
  rewrite <- Hn. apply last_Some in E as [l E]. assert (Hp : p ∈ filter (λ p, StepperName p = s) ps) by (rewrite E; set_solver).
  apply list_elem_of_filter in Hp as [<- Hp]. by apply list_elem_of_fmap_2.
Qed.

Lemma homed_others ps w : homed ps w → others_kept (GetPosition w).
Proof.
  intros (homepos & (_ & (Hl & Hp) & _ & Hn) & _ & (Hl0 & Ho)). split; [congruence|]. intros i v Hi Hv.
  destruct (Ho i v Hi Hv) as (v1 & Hv1 & E1). destruct (Hp i v1 Hv1) as (v2 & Hv2 & E2). exists v2. split; [done|].
  rewrite E2, <- E1. destruct (names !! i) as [s|] eqn:Hs; [|done].
  apply norm_step; [apply step_dist_pos|]. by rewrite (unmoved_offset _ i s).
Qed.

Lemma move_homes speed tr homepos w r w' : executeRuntime endstops homepos speed false tr true w = (inr r, w') → r.2.2 = None →
  homepos !! a = Some homev → others_kept homepos → homed r.1 w'.
Proof. intros E Hn Hh Ho. exists homepos. split_and!; [by eapply executeRuntime_arrives|done..]. Qed.

Lemma FillCoord_axis v w p w' : others_kept (GetPosition w) → FillCoord (axis_coord v) w = (inr p, w') →
  w' = w ∧ p !! a = Some v ∧ others_kept p.
Proof.
  intros Ho E. unfold FillCoord in E. apply H_bind_inv in E as (? & ? & E1 & E). unfold hgets in E1. injection E1 as <- <-.
  apply hgo_inv in E as [E ->]. apply fill_axis in E as [-> Hl]. split_and!; [done|by apply list_lookup_insert_eq|by apply others_insert].
Qed.

Lemma approach_homes n i z hi times ps w r w' : homed ps w →
  approach debugInput n i z endstops hi (axis_coord forcev) (axis_coord homev) times ps w = (inr r, w') → r.2 = None → homed r.1 w'.
Proof.
  revert i times ps w. induction n as [|n IH]; intros i times ps w Hh E Hn; cbn [approach] in E; [by hinv E|].
  pose proof (homed_others _ _ Hh) as Ho. hinv E. destruct (FillCoord_axis _ _ _ _ Ho E0) as (-> & _ & _).
  destruct (FillCoord_axis _ _ _ _ Ho E1) as (-> & Hv & Ho1). hopt E; [hinv E; done|].
  pose proof (move_homes _ _ _ _ _ _ E6 Heqo Hv Ho1) as Hh'. destruct (negb _); [hinv E; done|].
  destruct z; [|by eapply IH]. destruct (_ && _)%bool; [|by eapply IH]. hinv E. destruct (fle _ _); [by hinv E|by eapply IH].
Qed.

Lemma homed_place ps w : homed ps w → ∃ e t v, e ∈ endstops ∧ sa ∈ e_steppers e ∧ answer (Name e) w = Some t ∧ flt f0 t = true ∧
  GetPosition w !! a = Some v ∧
  (∀ m : gmap string f64, foldl (λ m p, <[StepperName p := f_of_Z (TrigPos p)]> m) m ps !! sa = Some (f_of_Z (GetPastMCUPosition sa t w))) ∧
  norm v = norm (fadd homev (fmul (f_of_Z (GetMCUPosition sa w - GetPastMCUPosition sa t w)) (GetStepDist sa))).
Proof.
  intros (homepos & (_ & (_ & Hp) & Hh & Hn) & Hv & _). destruct (Hp a homev Hv) as (v & Hv' & E). rewrite Ha, over_lookup in E.
  destruct (last _) as [p|] eqn:El.
  - assert (Hin : p ∈ filter (λ p, StepperName p = sa) ps) by (apply last_Some in El as [l El]; rewrite El; set_solver).
    apply list_elem_of_filter in Hin as [<- Hin]. rewrite Forall_forall in Hh. destruct (Hh p Hin) as (Hhalt & e & t & He & Hs & Hans & Ht & Htr).
    rewrite Hhalt, Htr in E. exists e, t, v. split_and!; [done..| |done]. intros m. by rewrite (foldl_insert_lookup StepperName), El, Htr.
  - exfalso. apply last_None in El. rewrite <- Hn in Hsa. apply list_elem_of_fmap in Hsa as (p & -> & Hin).
    assert (Hf : p ∈ filter (λ q, StepperName q = StepperName p) ps) by (by apply list_elem_of_filter).
    rewrite El in Hf. by apply not_elem_of_nil in Hf.
Qed.

Lemma HomeRails_homes rail tp w r w' : GetEndstops rail = endstops → GetPosition w = pos0 →
  (∀ w r w', Send_event "homing:home_rails_end" w = (inr r, w') → r.1 = ∅) →
  HomeRailsWithPositions debugInput [rail] (axis_coord forcev) (axis_coord homev) tp w = (inr r, w') → r.2 = None →
  ∃ ps, homed ps w' ∧ r.1 = foldl (λ m p, <[StepperName p := f_of_Z (TrigPos p)]> m) tp ps.
Proof.
  intros He Hpos Hev E Hn. unfold HomeRailsWithPositions in E. cbn [fmap list_fmap mjoin list_join] in E. rewrite app_nil_r, He in E.
  assert (Ho : others_kept (GetPosition w)) by (rewrite Hpos; split; [done|eauto]).
  hinv E. match goal with E1 : FillCoord (axis_coord forcev) _ = _, E2 : FillCoord (axis_coord homev) _ = _ |- _ =>
    destruct (FillCoord_axis _ _ _ _ Ho E1) as (-> & _ & _); destruct (FillCoord_axis _ _ _ _ Ho E2) as (-> & Hv & Ho1) end.
  hopt E; [by hinv E|]. hinv E.
  match goal with Ee : executeRuntime _ _ _ _ _ _ _ = _ |- _ => pose proof (move_homes _ _ _ _ _ _ Ee Heqo Hv Ho1) as Hh end.
  match goal with Ea : (if flt f0 _ then _ else _) ?w1 = (inr ?x, ?w2) |- _ =>
    assert (Hh2 : x.2 = None → homed x.1 w2) by (destruct (flt f0 _); [intros Hx; by eapply approach_homes|by hinv Ea]) end.
  hopt E; [by hinv E|]. destruct (Hh2 eq_refl) as (homepos & Harr & Hhv & Hho). hinv E. hopt E; [by hinv E|].
  match goal with Es : Send_event _ _ = (inr ?x, _) |- _ => rewrite (Hev _ _ _ Es), map_to_list_empty in E end. cbn [existsb] in E. hinv E.
  match goal with Ef : FlushStepGeneration _ = (inr ?u, _), Es : Send_event _ ?w3 = _ |- _ =>
    destruct u; pose proof (arrived_event _ _ _ _ _ _ _ Es (arrived_flush _ _ _ _ _ Ef Harr)) as Harr' end.
  eexists. split; [by exists homepos|done].
Qed.
End Axis.

(** C16. Homing an axis of a Cartesian printer, with its retract and slower approaches and
    no adjustment by an event: when it succeeds, an endstop of the rail answered a
    trigger time when it was last waited for; the trigger position reported is where the
    stepper was at that time, the coordinate of the axis is the position of the endstop
    plus the steps made since, and the other axes are where they were. *)
Theorem homing_places_axis debugInput rail (a : nat) sa tp tp' w w' :
  names !! a = Some sa → sa ∈ mjoin (e_steppers <$> GetEndstops rail) →
  (∀ i s, names !! i = Some s → s ∈ mjoin (e_steppers <$> GetEndstops rail) → i = a) →
  (∀ w r w', Send_event "homing:home_rails_end" w = (inr r, w') → r.1 = ∅) →
  home_axis debugInput rail (Z.of_nat a) tp w = (inr tp', w') →
  (∃ e t v, e ∈ GetEndstops rail ∧ sa ∈ e_steppers e ∧ answer (Name e) w' = Some t ∧ flt f0 t = true ∧
    tp' !! sa = Some (f_of_Z (GetPastMCUPosition sa t w')) ∧ GetPosition w' !! a = Some v ∧
    norm v = norm (fadd (PositionEndstop (info (GetHomingInfo rail)))
                     (fmul (f_of_Z (GetMCUPosition sa w' - GetPastMCUPosition sa t w')) (GetStepDist sa)))) ∧
  others_kept a (GetPosition w) (GetPosition w').
Proof using CartesianHost0 HomingLaws0.
  intros Ha Hsa Hothers Hev E. unfold home_axis in E. destruct ((0 <=? Z.of_nat a) && (Z.of_nat a <? 4)); [|done].
  rewrite Nat2Z.id in E. cbv zeta in E. set (fh := HomeAxis _ _) in E. change fh.2 with (PositionEndstop (info (GetHomingInfo rail))) in E.
  set (homev := PositionEndstop _) in *. fold (axis_coord a fh.1) in E. fold (axis_coord a homev) in E.
  unfold Home_rails in E. hinv E. hopt E; [done|]. hinv E. hopt E; [done|]. hinv E. apply event_law in E0 as [Hg _].
  destruct (HomeRails_homes debugInput a sa fh.1 homev (GetEndstops rail) (GetPosition w) Ha Hsa Hothers rail tp w0 a1 w') as (ps & Hh & ->); [done..|].
  split; [|by eapply (homed_others debugInput a sa fh.1 homev (GetEndstops rail) _ Ha Hsa Hothers)]. destruct (homed_place debugInput a sa fh.1 homev (GetEndstops rail) (GetPosition w) Ha Hsa Hothers ps w' Hh) as (e & t & v & He & Hs & Hans & Hpos & Hv & Ht & Hn).
  by exists e, t, v.
Qed.
End Thy.

(** ** An endstop that does not trigger *)

Lemma corexy_order_elem axes a : a ∈ axes → a ∈ corexy_order axes.
Proof.
  intros Ha. unfold corexy_order. destruct (list_find (λ a, a = 0) axes) as [[x ?]|] eqn:Ex; [|done].
  destruct (list_find (λ a, a = 1) axes) as [[y ?]|] eqn:Ey; [|done]. destruct (_ && _)%bool eqn:E; [|done].
  apply list_find_Some in Ex as (Hx & -> & _), Ey as (Hy & -> & _). apply andb_true_iff in E as [_ E%bool_decide_eq_true].
  pose proof (lookup_lt_Some _ _ _ Hx). pose proof (lookup_lt_Some _ _ _ Hy).
  apply list_elem_of_lookup in Ha as [i Hi]. apply list_elem_of_lookup. destruct (decide (i = x)) as [->|Hix]; [|destruct (decide (i = y)) as [->|Hiy]].
  - exists y. rewrite list_lookup_insert_ne by lia. rewrite list_lookup_insert_eq by lia. congruence.
  - exists x. rewrite list_lookup_insert_eq by (rewrite length_insert; lia). congruence.
  - exists i. by rewrite !list_lookup_insert_ne by lia.
Qed.

Section Missing.
Context {W : Type} `{HH : HomingHost W} (debugInput : bool).

(** Whenever it is asked, the endstop has not triggered. *)
Definition silent (name : string) : Prop := ∀ moveEnd w t w', HomeWait name moveEnd w = (inr t, w') → flt f0 t = false.

Lemma wait_reports e endstops moveEnd times t err w r w' : e ∈ endstops → silent (Name e) →
  wait_endstops endstops moveEnd true times t err w = (inr r, w') → r.2 ≠ None.
Proof.
  intros Hin. revert times t err w. induction Hin as [e es|e x es Hin IH]; intros times t err w Hs E; cbn [wait_endstops] in E; hinv E.
  - rewrite (Hs _ _ _ _ E0) in E. destruct err as [e0|]; [|destruct (flt a f0)]; apply wait_error_stays in E; by rewrite E.
  - destruct (flt f0 a); by eapply IH.
Qed.

Lemma Execute_reports e endstops movepos speed pp tr w r w' : e ∈ endstops → silent (Name e) →
  Execute endstops movepos speed pp tr true w = (inr r, w') → r.2.2 ≠ None.
Proof.
  intros Hin Hs E. unfold Execute in E. hinv E. hopt E; [by hinv E|]. hinv E. cbn [snd].
  match goal with Ew : wait_endstops _ _ _ _ _ _ _ = _ |- _ => by apply (wait_reports _ _ _ _ _ _ _ _ _ Hin Hs) in Ew end.
Qed.

Lemma executeRuntime_reports e endstops movepos speed pp tr w r w' : e ∈ endstops → silent (Name e) →
  executeRuntime endstops movepos speed pp tr true w = (inr r, w') → r.2.2 ≠ None.
Proof.
  intros Hin Hs E. unfold executeRuntime in E. hinv E. hopt E; [by hinv E|]. hinv E. cbn [snd].
  match goal with Ee : Execute _ _ _ _ _ _ _ = (inr ?x, _) |- _ => apply (Execute_reports _ _ _ _ _ _ _ _ _ Hin Hs) in Ee; by destruct x.2.2 end.
Qed.

Lemma home_axis_fails rail axis e tp w : e ∈ GetEndstops rail → silent (Name e) → ∀ r w', home_axis debugInput rail axis tp w ≠ (inr r, w').
Proof.
  intros Hin Hs r w' E. unfold home_axis in E. destruct (_ && _)%bool; [|done]. unfold Home_rails in E. hinv E. hopt E; [done|].
  hinv E. hopt E; [done|]. hinv E. unfold HomeRailsWithPositions in E1. cbn [fmap list_fmap mjoin list_join] in E1. rewrite app_nil_r in E1.
  hinv E1. match goal with Ee : executeRuntime _ _ _ _ _ _ _ = _ |- _ => apply (executeRuntime_reports _ _ _ _ _ _ _ _ _ Hin Hs) in Ee end.
  hopt E1; [hinv E1; done|done].
Qed.

Lemma home_axes_fails rails axes rail axis e tp w : axis ∈ axes → rails.[axis] = Ret rail → e ∈ GetEndstops rail → silent (Name e) →
  ∀ w', home_axes debugInput rails axes tp w ≠ (inr tt, w').
Proof.
  intros Hin. revert tp w. induction Hin as [axis axes|axis x axes Hin IH]; intros tp w Hr He Hs w' E; cbn [home_axes] in E; hinv E.
  - rewrite Hr in E0. injection E0 as <-. by eapply home_axis_fails.
  - by eapply IH.
Qed.

(** C30. A G28 of an axis one of whose endstops never triggers does not succeed, whatever
    the kinematics, the other axes and the events do. *)
Theorem silent_endstop_fails_G28 corexy rails hasAxis axis rail e w :
  axis ∈ RequestedAxes hasAxis → rails.[axis] = Ret rail → e ∈ GetEndstops rail → silent (Name e) →
  ∀ w', Cmd_G28 debugInput corexy rails hasAxis w ≠ (inr tt, w').
Proof.
  intros Ha Hr He Hs w' E. unfold Cmd_G28, RunHome in E. destruct (Home _ _ _ _ w) as [[[m|m]|[]] w1] eqn:Eh; [|done|].
  - destruct (IsShutdown w1); [done|]. destruct (Motor_off w1) as [[p|[]] w2]; done.
  - unfold Home in Eh. eapply home_axes_fails in Eh; [done| |done..]. destruct corexy; [|done].
    by apply corexy_order_elem.
Qed.
End Missing.

(** ** A machine *)

(** Three steppers of a hundred steps to the millimetre; a move ends at the time one, and the
    last three steps are made after the trigger.  [answers] is what the endstops will say,
    [m_said] what each said last. *)
Record machine := mkMachine { m_pos : list f64; m_kin : Kin; m_cmd : list f64; m_steps : gmap string Z; m_motors : bool; m_answers : list f64; m_said : gmap string f64 }.

Definition m_names : list string := ["stepper_x"; "stepper_y"; "stepper_z"].
Definition m_coord (s : string) (p : list f64) : f64 :=
  match list_find (λ n, n = s) m_names with Some (i, _) => default f0 (p !! i) | None => f0 end.

Definition m_set (p : list f64) (axes : list Z) : H machine unit := λ w,
  match Kinematics.SetPosition p axes (m_kin w) with
  | Ret k => (inr tt, mkMachine p k p (m_steps w) (m_motors w) (m_answers w) (m_said w))
  | Panic e => (inl (PErr e), w)
  end.

Definition m_drive (p : list f64) : H machine unit := λ w,
  (inr tt, mkMachine p (m_kin w) p ((λ n, n + 500) <$> m_steps w) (m_motors w) (m_answers w) (m_said w)).

#[local] Instance machine_host : HomingHost machine := {
  GetSteppers := m_names;
  CalcPosition m := lookup_f m <$> m_names;
  GetStepDist _ := f_lit 1 100;
  CalcPositionFromCoord := m_coord;
  GetMCUPosition s w := default 0 (m_steps w !! s);
  GetPastMCUPosition s t w := default 0 (m_steps w !! s) - (if flt t f1 then 3 else 0);
  GetCommandedPosition s w := m_coord s (m_cmd w);
  GetPosition := m_pos;
  FlushStepGeneration := mret tt;
  GetLastMoveTime := mret f1;
  Dwell _ := mret tt;
  DripMove p _ _ := m_drive p;; mret None;
  SetPosition := m_set;
  Move p _ := m_drive p;
  HomeStart _ _ _ _ _ _ := mret 0%nat;
  HomeWait n _ := λ w, let t := default f0 (head (m_answers w)) in
    (inr t, mkMachine (m_pos w) (m_kin w) (m_cmd w) (m_steps w) (m_motors w) (tail (m_answers w)) (<[n := t]> (m_said w)));
  Send_event _ := mret (∅, None);
  IsShutdown _ := false;
  Motor_off := λ w, (inr tt, mkMachine (m_pos w) (MotorOff (m_kin w)) (m_cmd w) (m_steps w) false (m_answers w) (m_said w))
}.

#[local] Instance machine_cartesian : CartesianHost machine m_names.
Proof.
  split; [done|done|by apply (bool_decide_unpack _)|done|done|].
  intros i s p v Hs Hp. destruct i as [|[|[|i]]]; [injection Hs as <-; destruct p as [|? [|? [|? ?]]]; try discriminate; by injection Hp as ->..|done].
Qed.

#[local] Instance machine_laws : HomingLaws machine.
Proof.
  refine {| quiet _ := True; answer n w := m_said w !! n |}.
  - by intros w w' [= <-].
  - intros p axes w w' E. cbn in E. unfold m_set in E. destruct (Kinematics.SetPosition _ _ _); [|done]. injection E as <-. done.
  - by intros name w r w' [= <- <-].
  - intros name moveEnd w t w' [= <- <-]. cbn [m_said]. split; [apply lookup_insert_eq|]. intros n Hn. by rewrite lookup_insert_ne.
Defined.

Definition m_limits : f64 * f64 := (f0, f_of_Z 200).
Definition m_rail (name : string) : Rail :=
  mkRail m_limits [mkEndstop name [name]] (mkInfo (f_of_Z 50) (mkHoming f0 false) (f_of_Z 20) (f_of_Z 5) (f_of_Z 10)).
Definition m_start (answers : list f64) : machine :=
  mkMachine [f_of_Z 7; f_of_Z 8; f_of_Z 9; f0] (NewCartesian [m_limits; m_limits; m_limits] f1 f1) [f_of_Z 7; f_of_Z 8; f_of_Z 9]
    {["stepper_x" := 100; "stepper_y" := 200; "stepper_z" := 300]} true answers ∅.

Lemma homing_places_axis_witness : ∃ tp' w',
  home_axis false (m_rail "stepper_x") 0 ∅ (m_start [f_lit 1 4; f_lit 1 2]) = (inr tp', w') ∧ homed_axes (m_kin w') = Ret "x"%string ∧
  (∃ e t v, e ∈ GetEndstops (m_rail "stepper_x") ∧ "stepper_x"%string ∈ e_steppers e ∧ m_said w' !! Name e = Some t ∧ flt f0 t = true ∧
    tp' !! "stepper_x" = Some (f_of_Z (GetPastMCUPosition "stepper_x" t w')) ∧ m_pos w' !! 0%nat = Some v ∧
    norm v = norm (fadd f0 (fmul (f_of_Z (GetMCUPosition "stepper_x" w' - GetPastMCUPosition "stepper_x" t w')) (f_lit 1 100)))) ∧
  others_kept 0 [f_of_Z 7; f_of_Z 8; f_of_Z 9; f0] (m_pos w').
Proof.
  destruct (home_axis false (m_rail "stepper_x") 0 ∅ (m_start [f_lit 1 4; f_lit 1 2])) as [[p|tp'] w'] eqn:E; [vm_compute in E; discriminate|].
  exists tp', w'. split; [reflexivity|]. split; [vm_compute in E; injection E as <- <-; vm_compute; reflexivity|].
  refine (homing_places_axis (names := m_names) false (m_rail "stepper_x") 0 "stepper_x" ∅ tp' (m_start [f_lit 1 4; f_lit 1 2]) w' eq_refl _ _ _ E).
  - apply (bool_decide_unpack _). vm_compute. exact I.
  - intros i s Hs Hin. apply list_elem_of_singleton in Hin as ->. destruct i as [|[|[|i]]]; [reflexivity|discriminate..].
  - intros w r w0 Hr. injection Hr as <- <-. reflexivity.
Defined.

(** An endstop that never triggers. *)
Definition dead_host : HomingHost machine := {|
  GetSteppers := m_names; CalcPosition m := lookup_f m <$> m_names; GetStepDist _ := f_lit 1 100; CalcPositionFromCoord := m_coord;
  GetMCUPosition s w := default 0 (m_steps w !! s); GetPastMCUPosition s t w := default 0 (m_steps w !! s);
  GetCommandedPosition s w := m_coord s (m_cmd w); GetPosition := m_pos; FlushStepGeneration := mret tt; GetLastMoveTime := mret f1;
  Dwell _ := mret tt; DripMove p _ _ := m_drive p;; mret None; SetPosition := m_set; Move p _ := m_drive p; HomeStart _ _ _ _ _ _ := mret 0%nat;
  HomeWait name _ := mret (if bool_decide (name = "stepper_y") then f0 else f1);
  Send_event _ := mret (∅, None); IsShutdown _ := false; Motor_off := mret tt
|}.

Lemma silent_endstop_fails_G28_witness :
  (Cmd_G28 (HH := dead_host) false true (m_rail <$> m_names) (λ _, false) (m_start [])).1 ≠ inr tt.
Proof.
  intros E. destruct (Cmd_G28 (HH := dead_host) false true (m_rail <$> m_names) (λ _, false) (m_start [])) as [r w'] eqn:E2. cbn [fst] in E. subst r.
  apply (silent_endstop_fails_G28 (HH := dead_host) false true (m_rail <$> m_names) (λ _, false) 1 (m_rail "stepper_y") (mkEndstop "stepper_y" ["stepper_y"]) (m_start [])) in E2;
    [exact E2|apply (bool_decide_unpack _); vm_compute; exact I|reflexivity|apply list_elem_of_here|].
  intros moveEnd w t w0 Ht. injection Ht as <- <-. reflexivity.
Defined.

(** ** Gaps *)

(** A homing that fails panics with a text, for which nothing is recovered: the motors stay
    on, and the axis, placed at the far end for the move, counts as homed. *)
Lemma failed_homing_stays_homed :
  let r := Cmd_G28 false false (m_rail <$> m_names) (λ a, bool_decide (a = "X")) (m_start [f0]) in
  r.1 = inl (PStr "no trigger on stepper_x after full movement") ∧ m_motors r.2 = true ∧ homed_axes (m_kin r.2) = Ret "x"%string.
Proof. split_and!; vm_compute; reflexivity. Qed.

(** Of several endstops, the first result ends the wait for all, whatever it says. *)
Lemma joined_completion_first result id ids r : id ∈ ids → length ids ≠ 1%nat → result id = Some r → r ≠ ANil →
  completed result (MultiComplete ids) = true.
Proof.
  intros Hin Hn Hr Hnil. assert (E : MultiComplete ids = Multi ids) by (destruct ids as [|? []]; done). rewrite E. cbn [completed].
  apply orb_true_iff. right. apply existsb_exists. exists id. split; [by apply list_elem_of_In|]. rewrite Hr. by destruct r.
Qed.
