(* ===== verification/ClockSync.v ===== *)
(** * Clock synchronisation

    [src/internal/pkg/serialhdl/clocksync.go]: the clock of a micro-controller, which it
    reports modulo 2^32, is extended to 64 bits and its rate is estimated by a decaying
    regression against the time of the host; a second micro-controller is tied to the
    print time of the first.  What is sent on the serial line is an output.  The squares
    that the code takes with [math.Pow] are products, which agree unless the result is
    subnormal. *)

From S2P Require Import Prelude GoFloat GoFloatRound GoStrings.

Definition RTT_AGE : f64 := f_lit 1 360000000.
Definition DECAY : f64 := f_lit 1 30.
Definition keep : f64 := f_lit 29 30.                   (* 1. - DECAY *)
Definition TRANSMIT_EXTRA : f64 := f_lit 1 1000.
Definition square (x : f64) : f64 := fmul x x.

Record ClockSync := mkClockSync {
  queries_pending : Z;
  mcu_freq : f64;
  last_clock : Z;
  clock_est : f64 * f64 * f64;
  min_half_rtt : f64;
  min_rtt_time : f64;
  time_avg : f64;
  time_variance : f64;
  clock_avg : f64;
  clock_covariance : f64;
  prediction_variance : f64;
  last_prediction_time : f64
}.

Definition NewClockSync : ClockSync :=
  mkClockSync 0 f1 0 (f0, f0, f0) (f_lit 9999999999 10) f0 f0 f0 f0 f0 f0 f0.

(** A report: the low 32 bits of the clock, and when the query was sent and the report
    received. *)
Record clock_params := mkClock { p_clock : Z; sent_time : f64; receive_time : f64 }.

(** What [Set_clock_est] is told. *)
Record clock_estimate := mkEst { e_freq : f64; e_time : f64; e_clock : Z; e_last : Z }.

(** [_get_clock_event], without the sending; the timer runs again .9839 seconds later. *)
Definition _get_clock_event (eventtime : f64) (s : ClockSync) : f64 * ClockSync :=
  (fadd eventtime (f_lit 9839 10000),
   mkClockSync (queries_pending s + 1) (mcu_freq s) (last_clock s) (clock_est s) (min_half_rtt s) (min_rtt_time s) (time_avg s)
     (time_variance s) (clock_avg s) (clock_covariance s) (prediction_variance s) (last_prediction_time s)).

(** The clock, extended. *)
Definition extend_clock (lastClock clock32 : Z) : Z :=
  let clock := Z.lor (Z.ldiff lastClock 0xffffffff) clock32 in
  if clock <? lastClock then i64 (clock + 0x100000000) else clock.

Definition _handle_clock (p : clock_params) (s : ClockSync) : option clock_estimate * ClockSync :=
  let clock := extend_clock (last_clock s) (p_clock p) in
  let with_clock hr rt pv lp :=
    mkClockSync 0 (mcu_freq s) clock (clock_est s) hr rt (time_avg s) (time_variance s) (clock_avg s) (clock_covariance s) pv lp in
  let sentTime := sent_time p in
  if feq sentTime f0 then (None, with_clock (min_half_rtt s) (min_rtt_time s) (prediction_variance s) (last_prediction_time s))
  else
    let halfRTT := fmul (fsub (receive_time p) sentTime) (f_lit 1 2) in
    let agedRTT := fmul (fsub sentTime (min_rtt_time s)) RTT_AGE in
    let rtt := if flt halfRTT (fadd (min_half_rtt s) agedRTT) then (halfRTT, sentTime) else (min_half_rtt s, min_rtt_time s) in
    let expClock := fadd (fmul (fsub sentTime (time_avg s)) (clock_est s).2) (clock_avg s) in
    let clockDiff2 := square (f_of_Z (i64 (clock - f_trunc expClock))) in
    let unlikely := flt (fmul (f_of_Z 25) (prediction_variance s)) clockDiff2 && flt (square (fmul (f_lit 5 10000) (mcu_freq s))) clockDiff2 in
    if unlikely && (f_trunc expClock <? clock) && flt sentTime (fadd (last_prediction_time s) (f_of_Z 10)) then
      (None, with_clock rtt.1 rtt.2 (prediction_variance s) (last_prediction_time s))
    else
      let prediction := if unlikely then (square (fmul (f_lit 1 1000) (mcu_freq s)), last_prediction_time s)
                        else (fmul keep (fadd (prediction_variance s) (fmul clockDiff2 DECAY)), sentTime) in
      let diffSentTime := fsub sentTime (time_avg s) in
      let time_avg := fadd (time_avg s) (fmul DECAY diffSentTime) in
      let time_variance := fmul keep (fadd (time_variance s) (fmul (square diffSentTime) DECAY)) in
      let diffClock := i64 (clock - f_trunc (clock_avg s)) in
      let clock_avg := fadd (clock_avg s) (fmul DECAY (f_of_Z diffClock)) in
      let clock_covariance := fmul keep (fadd (clock_covariance s) (fmul (fmul diffSentTime (f_of_Z diffClock)) DECAY)) in
      let newFreq := fdiv clock_covariance time_variance in
      let predStddev := fsqrt prediction.1 in
      (Some (mkEst newFreq (fadd time_avg TRANSMIT_EXTRA) (f_trunc (fsub clock_avg (fmul (f_of_Z 3) predStddev))) clock),
       mkClockSync 0 (mcu_freq s) clock (fadd time_avg rtt.1, clock_avg, newFreq) rtt.1 rtt.2 time_avg time_variance clock_avg
         clock_covariance prediction.1 prediction.2).

(** [Connect]: the reply to get_uptime and the eight replies to get_clock that follow. *)
Definition set_prediction_time (t : f64) (s : ClockSync) : ClockSync :=
  mkClockSync (queries_pending s) (mcu_freq s) (last_clock s) (clock_est s) (min_half_rtt s) (min_rtt_time s) (time_avg s)
    (time_variance s) (clock_avg s) (clock_covariance s) (prediction_variance s) t.

Definition Connect (freq : f64) (high clock : Z) (uptime_sent : f64) (replies : list clock_params) (s : ClockSync) : ClockSync :=
  let last := Z.lor (i64 (Z.shiftl high 32)) clock in
  let s := mkClockSync (queries_pending s) freq last (uptime_sent, f_of_Z last, freq) (min_half_rtt s) (min_rtt_time s) uptime_sent
             (time_variance s) (f_of_Z last) (clock_covariance s) (square (fmul (f_lit 1 1000) freq)) (last_prediction_time s) in
  foldl (λ s p, (_handle_clock p (set_prediction_time (f_of_Z (-9999)) s)).2) s (take 8 replies).

Definition Connect_file (freq : f64) (s : ClockSync) : ClockSync :=
  mkClockSync (queries_pending s) freq (last_clock s) (f0, f0, freq) (min_half_rtt s) (min_rtt_time s) (time_avg s) (time_variance s)
    (clock_avg s) (clock_covariance s) (prediction_variance s) (last_prediction_time s).

Definition Print_time_to_clock (print_time : f64) (s : ClockSync) : Z := f_trunc (fmul print_time (mcu_freq s)).
Definition Clock_to_print_time (clock : Z) (s : ClockSync) : f64 := fdiv (f_of_Z clock) (mcu_freq s).

Definition Get_clock (eventtime : f64) (s : ClockSync) : Z :=
  let '(sample_time, clock, freq) := clock_est s in f_trunc (fadd clock (fmul (fsub eventtime sample_time) freq)).

Definition Estimate_clock_systime (reqclock : Z) (s : ClockSync) : f64 :=
  let '(sample_time, clock, freq) := clock_est s in fadd (fdiv (fsub (f_of_Z reqclock) clock) freq) sample_time.

Definition Estimated_print_time (eventtime : f64) (s : ClockSync) : f64 := Clock_to_print_time (Get_clock eventtime s) s.

Definition Clock32_to_clock64 (clock32 : Z) (s : ClockSync) : Z :=
  let clock_diff := Z.land (i64 (last_clock s - clock32)) 0xffffffff in
  if Z.land clock_diff 0x80000000 =? 0x80000000 then i64 (i64 (last_clock s + 0x100000000) - clock_diff)
  else i64 (last_clock s - clock_diff).

Definition Is_active (s : ClockSync) : bool := queries_pending s <=? 4.

Definition Calibrate_clock (s : ClockSync) : f64 * f64 := (f0, mcu_freq s).

(** ** A second micro-controller *)

Record SecondarySync := mkSecondary { base : ClockSync; clock_adj : f64 * f64; last_sync_time : f64 }.

Definition NewSecondarySync : SecondarySync := mkSecondary NewClockSync (f0, f1) f0.

Definition secondary_get_clock_event (eventtime : f64) (s : SecondarySync) : f64 * SecondarySync :=
  let r := _get_clock_event eventtime (base s) in (r.1, mkSecondary r.2 (clock_adj s) (last_sync_time s)).

Definition secondary_handle_clock (p : clock_params) (s : SecondarySync) : option clock_estimate * SecondarySync :=
  let r := _handle_clock p (base s) in (r.1, mkSecondary r.2 (clock_adj s) (last_sync_time s)).

Definition secondary_Print_time_to_clock (print_time : f64) (s : SecondarySync) : Z :=
  f_trunc (fmul (fsub print_time (clock_adj s).1) (clock_adj s).2).

Definition secondary_Clock_to_print_time (clock : Z) (s : SecondarySync) : f64 :=
  fadd (fdiv (f_of_Z clock) (clock_adj s).2) (clock_adj s).1.

Definition secondary_Estimated_print_time (eventtime : f64) (s : SecondarySync) : f64 :=
  secondary_Clock_to_print_time (Get_clock eventtime (base s)) s.

Definition secondary_Calibrate_clock (main : ClockSync) (print_time eventtime : f64) (s : SecondarySync) : SecondarySync :=
  let '(ser_time, ser_clock, ser_freq) := clock_est main in
  let main_mcu_freq := mcu_freq main in
  let est_main_clock := fadd (fmul (fsub eventtime ser_time) ser_freq) ser_clock in
  let est_print_time := fdiv est_main_clock main_mcu_freq in
  let sync1_print_time := fmax print_time est_print_time in
  let sync2_print_time := fmax (fadd sync1_print_time (f_of_Z 4)) (last_sync_time s) in
  let sync2_print_time := fmax sync2_print_time (fadd print_time (fmul (f_lit 5 2) (fsub print_time est_print_time))) in
  let sync2_main_clock := fmul sync2_print_time main_mcu_freq in
  let sync2_sys_time := fadd ser_time (fdiv (fsub sync2_main_clock ser_clock) ser_freq) in
  let sync1_clock := secondary_Print_time_to_clock sync1_print_time s in
  let sync2_clock := Get_clock sync2_sys_time (base s) in
  let adjusted_freq := fdiv (f_of_Z (i64 (sync2_clock - sync1_clock))) (fsub sync2_print_time sync1_print_time) in
  let adjusted_offset := fsub sync1_print_time (fdiv (f_of_Z sync1_clock) adjusted_freq) in
  mkSecondary (base s) (adjusted_offset, adjusted_freq) sync2_print_time.

Definition secondary_Connect (main : ClockSync) (freq : f64) (high clock : Z) (uptime_sent : f64) (replies : list clock_params) (curtime : f64)
    (s : SecondarySync) : SecondarySync :=
  let b := Connect freq high clock uptime_sent replies (base s) in
  let s := mkSecondary b (f0, mcu_freq b) (last_sync_time s) in
  let offset := fsub (Estimated_print_time curtime main) (secondary_Estimated_print_time curtime s) in
  secondary_Calibrate_clock main f0 curtime (mkSecondary b (offset, mcu_freq b) (last_sync_time s)).

Definition secondary_Connect_file (freq : f64) (s : SecondarySync) : SecondarySync :=
  mkSecondary (Connect_file freq (base s)) (f0, freq) (last_sync_time s).

(** ** The extended clock is the clock *)

(** What happens to the synchronisation of a connected micro-controller. *)
Inductive sync_event := Query (eventtime : f64) | Report (p : clock_params).

Definition sync_step (s : ClockSync) (e : sync_event) : ClockSync :=
  match e with Query t => (_get_clock_event t s).2 | Report p => (_handle_clock p s).2 end.

(** The reports are those of a clock that is at [c] before and at [c'] after them, and
    that makes less than a turn of 2^32 ticks from one report to the next. *)
Fixpoint genuine (c : Z) (es : list sync_event) (c' : Z) : Prop :=
  match es with
  | [] => c' = c
  | Query _ :: es => genuine c es c'
  | Report p :: es => ∃ c1, c ≤ c1 < c + 2 ^ 32 ∧ p_clock p = c1 mod 2 ^ 32 ∧ genuine c1 es c'
  end.

Fixpoint unanswered (n : Z) (es : list sync_event) : Z :=
  match es with
  | [] => n
  | Query _ :: es => unanswered (n + 1) es
  | Report _ :: es => unanswered 0 es
  end.

Lemma low32 z : Z.land z 0xffffffff = z mod 2 ^ 32.
Proof. change 0xffffffff with (Z.ones 32). by apply Z.land_ones. Qed.

Lemma high32_or z c : 0 ≤ c < 2 ^ 32 → Z.lor (Z.ldiff z 0xffffffff) c = z - z mod 2 ^ 32 + c.
Proof.
  intros Hc. change 0xffffffff with (Z.ones 32). rewrite Z.ldiff_ones_r by done. rewrite lor_shiftl_add by (rewrite ?Z.shiftr_div_pow2; try lia).
  rewrite Z.shiftr_div_pow2 by done. pose proof (Z.div_mod z (2 ^ 32)). lia.
Qed.

Lemma extend_exact c c1 : 0 ≤ c ≤ c1 → c1 < c + 2 ^ 32 → c1 < 2 ^ 63 → extend_clock c (c1 mod 2 ^ 32) = c1.
Proof.
  intros H0 H1 H2. unfold extend_clock. pose proof (Z.mod_pos_bound c1 (2 ^ 32)). rewrite high32_or by lia.
  pose proof (Z.div_mod c (2 ^ 32)). pose proof (Z.div_mod c1 (2 ^ 32)). pose proof (Z.mod_pos_bound c (2 ^ 32)).
  assert (c1 / 2 ^ 32 = c / 2 ^ 32 ∨ c1 / 2 ^ 32 = c / 2 ^ 32 + 1) as [E|E] by nia; rewrite E in *.
  - replace (_ <? c) with false by lia. lia.
  - replace (_ <? c) with true by lia. rewrite i64_id by lia. lia.
Qed.

Lemma handle_clock_last p s : last_clock (_handle_clock p s).2 = extend_clock (last_clock s) (p_clock p) ∧ queries_pending (_handle_clock p s).2 = 0.
Proof. unfold _handle_clock. cbv zeta. destruct (feq _ _); [done|]. destruct (_ && _ && _)%bool; done. Qed.

Lemma genuine_le c es c' : genuine c es c' → c ≤ c'.
Proof. revert c. induction es as [|[t|p] es IH]; intros c; cbn [genuine]; [lia|apply IH|]. intros (c1 & H1 & _ & H). apply IH in H. lia. Qed.

Lemma run_exact es s c c' : 0 ≤ c → c' < 2 ^ 63 → last_clock s = c → genuine c es c' →
  last_clock (foldl sync_step s es) = c' ∧ queries_pending (foldl sync_step s es) = unanswered (queries_pending s) es.
Proof.
  revert s c. induction es as [|[t|p] es IH]; intros s c Hc Hc' Hs Hg; cbn [genuine unanswered foldl] in *; [by rewrite Hs| |].
  - by apply (IH (sync_step s (Query t)) c).
  - destruct Hg as (c1 & H1 & Hp & Hg). pose proof (genuine_le _ _ _ Hg). destruct (handle_clock_last p s) as [Hl Hq].
    cbn [sync_step] in *. rewrite <- Hq. apply (IH _ c1); [lia|done| |done]. rewrite Hl, Hs, Hp. apply extend_exact; lia.
Qed.

Lemma clock32_exact s c : 0 ≤ last_clock s < 2 ^ 62 → 0 ≤ c → - 2 ^ 31 ≤ last_clock s - c < 2 ^ 31 → Clock32_to_clock64 (c mod 2 ^ 32) s = c.
Proof.
  intros Hl Hc Hd. unfold Clock32_to_clock64. pose proof (Z.mod_pos_bound c (2 ^ 32)). rewrite (i64_id (last_clock s - c mod 2 ^ 32)) by lia. rewrite low32.
  assert (Hm : (last_clock s - c mod 2 ^ 32) mod 2 ^ 32 = (last_clock s - c) mod 2 ^ 32) by (by rewrite Zminus_mod_idemp_r). rewrite Hm. clear Hm.
  set (d := last_clock s - c) in *. destruct (Z_lt_dec d 0).
  - assert (E : d mod 2 ^ 32 = d + 2 ^ 32) by (symmetry; apply (Z.mod_unique _ _ (-1)); lia). rewrite E.
    replace (Z.land (d + 2 ^ 32) 0x80000000 =? 0x80000000) with true.
    { unfold d in *. rewrite (i64_id (last_clock s + 0x100000000)) by lia. rewrite i64_id by lia. lia. }
    symmetry. apply Z.eqb_eq. replace (d + 2 ^ 32) with (Z.lor (Z.shiftl 1 31) (d + 2 ^ 31)) by (rewrite lor_shiftl_add by lia; lia).
    change 0x80000000 with (Z.shiftl 1 31). apply Z.bits_inj. intros n. rewrite Z.land_spec, Z.lor_spec. by destruct (Z.testbit (Z.shiftl 1 31) n), (Z.testbit _ n).
  - rewrite Z.mod_small by lia. replace (Z.land d 0x80000000 =? 0x80000000) with false; [unfold d in *; rewrite i64_id by lia; lia|].
    symmetry. apply Z.eqb_neq. intros E. assert (Hb : Z.testbit (Z.land d 0x80000000) 31 = true) by (by rewrite E).
    rewrite Z.land_spec in Hb. apply andb_true_iff in Hb as [Hb _]. rewrite Z.testbit_true in Hb by lia. rewrite Z.div_small in Hb by lia. done.
Qed.

(** Along any sequence of queries and reports of a clock that makes less than a turn of
    2^32 ticks between reports, the extended clock is the clock, any 32-bit time within
    half a turn of it is extended rightly, and the link counts as active as long as at
    most four queries are unanswered. *)
Theorem clock_extension_exact s es c c' :
  last_clock s = c → 0 ≤ c → c' < 2 ^ 62 → genuine c es c' →
  let s' := foldl sync_step s es in
  last_clock s' = c' ∧ Is_active s' = (unanswered (queries_pending s) es <=? 4) ∧
  ∀ x, 0 ≤ x → - 2 ^ 31 ≤ c' - x < 2 ^ 31 → Clock32_to_clock64 (x mod 2 ^ 32) s' = x.
Proof.
  intros Hs Hc Hc' Hg s'. pose proof (genuine_le _ _ _ Hg). destruct (run_exact es s c c') as [Hl Hq]; [lia|lia|done..|].
  fold s' in Hl, Hq. split_and!; [done|unfold Is_active; by rewrite Hq|]. intros x Hx Hd. apply clock32_exact; rewrite ?Hl; lia.
Qed.

(** Two reports around the wrap of the 32-bit clock, and a query between them. *)
Definition demo_events : list sync_event :=
  [Report (mkClock 0xfffffff0 f1 (f_of_Z 2)); Query (f_of_Z 3); Report (mkClock 5 (f_of_Z 4) (f_of_Z 5))].

Lemma clock_extension_exact_witness :
  let s' := foldl sync_step NewClockSync demo_events in
  last_clock s' = 2 ^ 32 + 5 ∧ Is_active s' = true ∧ Clock32_to_clock64 0xffffffff s' = 2 ^ 32 - 1.
Proof.
  destruct (clock_extension_exact NewClockSync demo_events 0 (2 ^ 32 + 5)) as (H1 & H2 & H3);
    [reflexivity|lia|lia|exists 0xfffffff0; split; [lia|split; [reflexivity|]]; exists (2 ^ 32 + 5); split; [lia|split; [reflexivity|reflexivity]]|].
  split; [exact H1|]. split; [exact H2|]. apply (H3 (2 ^ 32 - 1)); lia.
Defined.
