(* ===== verification/Endstop.v ===== *)
(** * Endstops and trigger synchronisation

    [src/internal/pkg/mcu]: endstop.go, endstop_controller.go, endstop_runtime.go,
    endstop_registry.go, trsync.go, trsync_controller.go, trsync_command_runtime.go and
    trsync_managed.go.  An endstop watches a pin of one micro-controller; each
    micro-controller that drives a stepper of the endstop has a trigger synchronisation
    object (trsync), which stops its steppers when any of them triggers.

    Commands to the micro-controllers are outputs, each with the micro-controller it goes
    to.  The clock of a micro-controller is what it answers to the four conversions. *)

From S2P Require Import Prelude GoFloat GoStrings ClockSync.

Record mcu_clock := mkMcuClock {
  print_time_to_clock : f64 → Z;
  seconds_to_clock : f64 → Z;
  clock32_to_clock64 : Z → Z;
  clock_to_print_time : Z → f64
}.

(** The clock of the main micro-controller, and of another one. *)
Definition main_clock (s : ClockSync) : mcu_clock :=
  mkMcuClock (λ t, Print_time_to_clock t s) (λ t, f_trunc (fmul t (mcu_freq s))) (λ c, Clock32_to_clock64 c s) (λ c, Clock_to_print_time c s).
Definition secondary_clock (s : SecondarySync) : mcu_clock :=
  mkMcuClock (λ t, secondary_Print_time_to_clock t s) (λ t, f_trunc (fmul t (mcu_freq (base s)))) (λ c, Clock32_to_clock64 c (base s))
    (λ c, secondary_Clock_to_print_time c s).

Definition ReasonEndstopHit : Z := 1.
Definition ReasonHostRequest : Z := 2.
Definition ReasonPastEndTime : Z := 3.
Definition ReasonCommsTimeout : Z := 4.

Record stepper := mkStepper { s_mcu : Z; s_oid : Z; s_name : string }.

#[global] Instance stepper_eq_dec : EqDecision stepper.
Proof. solve_decision. Defined.

(** ** Trigger synchronisation *)

Record TrsyncStartPlan := mkPlan { Clock : Z; ExpireTicks : Z; ExpireClock : Z; ReportTicks : Z; ReportClock : Z; MinExtendTicks : Z }.

Record Trsync := mkTrsync {
  t_mcu : Z;
  t_oid : Z;
  t_steppers : list stepper;
  TriggerCompletion : option nat;
  HomeEndClock : option Z;
  listening : bool                        (* is the handler of trsync_state registered? *)
}.

(** What is sent, completed and reset. *)
Inductive mcu_out :=
| SetupDispatch (mcu oid : Z) (plan : TrsyncStartPlan)
| SendStart (mcu oid reportClock reportTicks reason : Z)
| StepperStop (mcu stepper_oid trsync_oid : Z)
| SendTimeout (mcu oid clock : Z)
| TriggerPastEnd (mcu oid reason : Z)
| Complete (id : nat) (result : bool)
| Note_homing_end (s : stepper)
| StartDispatch (reason : Z)
| StopDispatch
| SendHome (args : list Z).

Definition NewTrsync (mcu oid : Z) : Trsync := mkTrsync mcu oid [] None None false.

Definition set_trsync (c : option nat) (h : option Z) (b : bool) (t : Trsync) : Trsync := mkTrsync (t_mcu t) (t_oid t) (t_steppers t) c h b.

Definition trsync_AddStepper (s : stepper) (t : Trsync) : Trsync :=
  if bool_decide (s ∈ t_steppers t) then t
  else mkTrsync (t_mcu t) (t_oid t) (t_steppers t ++ [s]) (TriggerCompletion t) (HomeEndClock t) (listening t).

Definition BuildTrsyncStartPlan (clk : mcu_clock) (printTime reportOffset expireTimeout : f64) : TrsyncStartPlan :=
  let clock := print_time_to_clock clk printTime in
  let expireTicks := seconds_to_clock clk expireTimeout in
  let reportTicks := seconds_to_clock clk (fmul expireTimeout (f_lit 3 10)) in
  mkPlan clock expireTicks (i64 (clock + expireTicks)) reportTicks
    (i64 (clock + f_trunc (fadd (fmul (f_of_Z reportTicks) reportOffset) (f_lit 1 2))))
    (f_trunc (fadd (fmul (f_of_Z reportTicks) (f_lit 8 10)) (f_lit 1 2))).

Definition Start (clk : mcu_clock) (printTime reportOffset : f64) (c : nat) (expireTimeout : f64) (t : Trsync) : list mcu_out * Trsync :=
  let plan := BuildTrsyncStartPlan clk printTime reportOffset expireTimeout in
  ([SetupDispatch (t_mcu t) (t_oid t) plan; SendStart (t_mcu t) (t_oid t) (ReportClock plan) (ReportTicks plan) ReasonCommsTimeout] ++
   ((λ s, StepperStop (t_mcu t) (s_oid s) (t_oid t)) <$> t_steppers t) ++ [SendTimeout (t_mcu t) (t_oid t) (ExpireClock plan)],
   set_trsync (Some c) None true t).

(** A report of the micro-controller; [None] for a field that is missing. *)
Record trsync_state := mkState { can_trigger : option Z; trigger_reason : option Z; st_clock : Z }.

Definition HandleState (clk : mcu_clock) (p : trsync_state) (t : Trsync) : list mcu_out * Trsync :=
  if match can_trigger p with Some c => negb (c =? 1) | None => false end then
    match TriggerCompletion t with
    | Some c => ([Complete c (ReasonCommsTimeout <=? default 0 (trigger_reason p))], set_trsync None (HomeEndClock t) (listening t) t)
    | None => ([], t)
    end
  else
    match HomeEndClock t with
    | None => ([], t)
    | Some e =>
        if clock32_to_clock64 clk (st_clock p) <? e then ([], t)
        else ([TriggerPastEnd (t_mcu t) (t_oid t) ReasonPastEndTime], set_trsync (TriggerCompletion t) None (listening t) t)
    end.

Definition Handle_trsync_state (clk : mcu_clock) (p : trsync_state) (t : Trsync) : list mcu_out * Trsync :=
  if listening t then HandleState clk p t else ([], t).

Definition trsync_Shutdown (t : Trsync) : list mcu_out * Trsync :=
  match TriggerCompletion t with
  | Some c => ([Complete c false], set_trsync None (HomeEndClock t) (listening t) t)
  | None => ([], t)
  end.

Definition SetHomeEndTime (clk : mcu_clock) (homeEndTime : f64) (t : Trsync) : Trsync :=
  set_trsync (TriggerCompletion t) (Some (print_time_to_clock clk homeEndTime)) (listening t) t.

(** [answer] is the trigger reason that the micro-controller answers, if it does. *)
Definition Stop (fileoutput : bool) (answer : option Z) (t : Trsync) : Z * list mcu_out * Trsync :=
  let t' := set_trsync None (HomeEndClock t) false t in
  if fileoutput then (ReasonEndstopHit, [], t')
  else (default ReasonHostRequest answer, Note_homing_end <$> t_steppers t, t').

(** ** The endstop *)

Record Endstop := mkEndstop {
  e_oid : Z;
  e_invert : Z;
  RestTicks : Z;
  e_completion : option nat;
  trsyncs : list Trsync
}.

Definition NewEndstop (oid invert mcu trsync_oid : Z) : Endstop := mkEndstop oid invert 0 None [NewTrsync mcu trsync_oid].

Record EndstopAddStepperPlan := mkAdd { TrsyncIndex : nat; NeedsNewTrsync : bool; SharedAxisConflict : bool }.

(** A stepper named stepper_... shares its axis with those of the same nine letters; a name
    of eight letters is too short to slice. *)
Definition axis_conflict (i : option nat) (axisPrefix : string) (ts : list Trsync) : bool :=
  existsb (λ jt, negb (bool_decide (i = Some jt.1)) && existsb (λ s, HasPrefix (s_name s) axisPrefix) (t_steppers jt.2))
    (imap (λ j t, (j, t)) ts).

Definition BuildEndstopAddStepperPlan (ts : list Trsync) (s : stepper) : go EndstopAddStepperPlan :=
  let found := fst <$> list_find (λ t, t_mcu t = s_mcu s) ts in
  let plan := mkAdd (default (length ts) found) (bool_decide (found = None)) in
  if negb (HasPrefix (s_name s) "stepper_") then Ret (plan false)
  else axisPrefix ← slice_string (s_name s) 0 9; Ret (plan (axis_conflict found axisPrefix ts)).

(** [new_oid] is the object id of a trsync that has to be made. *)
Definition AddStepper (s : stepper) (new_oid : Z) (e : Endstop) : go (EndstopAddStepperPlan * Endstop) :=
  plan ← BuildEndstopAddStepperPlan (trsyncs e) s;
  let ts := if NeedsNewTrsync plan then trsyncs e ++ [NewTrsync (s_mcu s) new_oid] else trsyncs e in
  Ret (plan, mkEndstop (e_oid e) (e_invert e) (RestTicks e) (e_completion e) (alter (trsync_AddStepper s) (TrsyncIndex plan) ts)).

Definition Steppers (e : Endstop) : list stepper := t ← trsyncs e; t_steppers t.

Definition DefaultEndstopTrsyncTimeout : f64 := f_lit 25 1000.
Definition DefaultEndstopSingleMCUTrsyncTimeout : f64 := f_lit 25 100.

Section Endstop.
Context (clk : Z → mcu_clock).              (* the clock of each micro-controller *)

Fixpoint start_all (printTime : f64) (c : nat) (timeout : f64) (i n : Z) (ts : list Trsync) : list mcu_out * list Trsync :=
  match ts with
  | [] => ([], [])
  | t :: ts =>
      let r := Start (clk (t_mcu t)) printTime (fdiv (f_of_Z i) (f_of_Z n)) c timeout t in
      let rs := start_all printTime c timeout (i + 1) n ts in (r.1 ++ rs.1, r.2 :: rs.2)
  end.

(** [Home_start]; [mcu] is the micro-controller of the pin.  An endstop without a trsync
    does nothing. *)
Definition Home_start (mcu : Z) (printTime sampleTime : f64) (sampleCount : Z) (restTime : f64) (triggered : Z) (c : nat) (e : Endstop)
    : option nat * list mcu_out * Endstop :=
  match trsyncs e with
  | [] => (None, [], e)
  | primary :: _ =>
      let clock := print_time_to_clock (clk mcu) printTime in
      let restTicks := i64 (print_time_to_clock (clk mcu) (fadd printTime restTime) - clock) in
      let timeout := if bool_decide (length (trsyncs e) = 1%nat) then DefaultEndstopSingleMCUTrsyncTimeout else DefaultEndstopTrsyncTimeout in
      let rs := start_all printTime c timeout 0 (len (trsyncs e)) (trsyncs e) in
      (Some c, rs.1 ++ [StartDispatch ReasonHostRequest;
                        SendHome [e_oid e; clock; seconds_to_clock (clk mcu) sampleTime; sampleCount; restTicks; Z.lxor triggered (e_invert e);
                                  t_oid primary; ReasonEndstopHit]],
       mkEndstop (e_oid e) (e_invert e) restTicks (Some c) rs.2)
  end.

(** What the stop reasons of the trsyncs say: the answer, or that the clock of the trigger
    has to be asked for. *)
Definition EvaluateEndstopHomeWait (homeEndTime : f64) (stopReasons : list Z) (fileoutput : bool) : option f64 :=
  match stopReasons with
  | [] => Some f0
  | primary :: _ =>
      if forallb (λ r, r =? ReasonCommsTimeout) stopReasons then Some (f_of_Z (-1))
      else if negb (primary =? ReasonEndstopHit) then Some f0
      else if fileoutput then Some homeEndTime else None
  end.

Definition HomeEndTimeFromNextClock (mcu : Z) (nextClock32 restTicks : Z) : f64 :=
  clock_to_print_time (clk mcu) (i64 (clock32_to_clock64 (clk mcu) nextClock32 - restTicks)).

(** Reports that arrive while the host waits, each for one trsync. *)
Fixpoint deliver (reports : list (nat * trsync_state)) (ts : list Trsync) : list mcu_out * list Trsync :=
  match reports with
  | [] => ([], ts)
  | (i, p) :: reports =>
      match ts !! i with
      | None => deliver reports ts
      | Some t =>
          let r := Handle_trsync_state (clk (t_mcu t)) p t in
          let rs := deliver reports (<[i := r.2]> ts) in (r.1 ++ rs.1, rs.2)
      end
  end.

Fixpoint stop_all (fileoutput : bool) (answers : list (option Z)) (ts : list Trsync) : list Z * list mcu_out * list Trsync :=
  match ts with
  | [] => ([], [], [])
  | t :: ts =>
      let r := Stop fileoutput (default None (head answers)) t in
      let rs := stop_all fileoutput (tail answers) ts in (r.1.1 :: rs.1.1, r.1.2 ++ rs.1.2, r.2 :: rs.2)
  end.

(** [Home_wait]: the trsyncs answer [answers] when they are stopped, and the endstop
    [nextClock32] when it is asked. *)
Definition Home_wait (mcu : Z) (homeEndTime : f64) (fileoutput : bool) (reports : list (nat * trsync_state)) (answers : list (option Z)) (nextClock32 : Z)
    (e : Endstop) : f64 * list mcu_out * Endstop :=
  match trsyncs e with
  | [] => (f0, [], e)
  | primary :: others =>
      let ts := SetHomeEndTime (clk (t_mcu primary)) homeEndTime primary :: others in
      let done := match e_completion e with Some c => if fileoutput then [Complete c true] else [] | None => [] end in
      let d := deliver reports ts in
      let s := stop_all fileoutput answers d.2 in
      let e' := mkEndstop (e_oid e) (e_invert e) (RestTicks e) (e_completion e) s.2 in
      let out := done ++ d.1 ++ [SendHome [e_oid e; 0; 0; 0; 0; 0; 0; 0]; StopDispatch] ++ s.1.2 in
      (default (HomeEndTimeFromNextClock mcu nextClock32 (RestTicks e)) (EvaluateEndstopHomeWait homeEndTime s.1.1 fileoutput), out, e')
  end.

Definition QueryEndstop (invert pin_value : Z) (fileoutput : bool) : Z := if fileoutput then 0 else Z.lxor pin_value invert.
End Endstop.
