(* ===== verification/EndstopThy.v ===== *)
(** * Endstops: every stepper is stopped, and the trigger is timed

    Theorems on [Endstop]: each stepper of an endstop is told to stop by the trsync of the
    micro-controller that drives it; a trsync completes its trigger once; the time of the
    trigger is that of the clock at which the pin changed. *)

From S2P Require Import Prelude GoFloat GoStrings ClockSync Endstop.

(** ** Adding steppers *)

(** One trsync for each micro-controller, with steppers of its own only. *)
Definition trsyncs_ok (ts : list Trsync) : Prop := NoDup (t_mcu <$> ts) ∧ Forall (λ t, Forall (λ s, s_mcu s = t_mcu t) (t_steppers t)) ts.

(** The endstop after [adds], each with the object id for a trsync that may be needed. *)
Fixpoint add_all (adds : list (stepper * Z)) (e : Endstop) : go Endstop :=
  match adds with
  | [] => Ret e
  | (s, oid) :: adds => r ← AddStepper s oid e; add_all adds r.2
  end.

Lemma trsync_AddStepper_mcu s t : t_mcu (trsync_AddStepper s t) = t_mcu t.
Proof. unfold trsync_AddStepper. by case_bool_decide. Qed.

Lemma trsync_AddStepper_elem s x t : x ∈ t_steppers (trsync_AddStepper s t) ↔ x = s ∨ x ∈ t_steppers t.
Proof. unfold trsync_AddStepper. case_bool_decide; cbn [t_steppers]; set_solver. Qed.

Lemma alter_add_mcus s (i : nat) (ts : list Trsync) : t_mcu <$> alter (trsync_AddStepper s) i ts = t_mcu <$> ts.
Proof. apply list_eq. intros j. rewrite !list_lookup_fmap, list_lookup_alter. case_decide; [subst|done]. destruct (ts !! _); cbn; [by rewrite trsync_AddStepper_mcu|done]. Qed.

(** The trsync that a stepper is added to is the one of its micro-controller. *)
Lemma AddStepper_spec s oid e plan e' : AddStepper s oid e = Ret (plan, e') → ∃ (ts : list Trsync) (i : nat),
  trsyncs e' = alter (trsync_AddStepper s) i ts ∧ (∃ t, ts !! i = Some t ∧ t_mcu t = s_mcu s) ∧
  (ts = trsyncs e ∨ ts = trsyncs e ++ [NewTrsync (s_mcu s) oid] ∧ s_mcu s ∉ (t_mcu <$> trsyncs e)).
Proof.
  unfold AddStepper, BuildEndstopAddStepperPlan. set (found := fst <$> list_find _ _). intros E.
  assert (Hp : ∃ b, plan = mkAdd (default (length (trsyncs e)) found) (bool_decide (found = None)) b ∧
    trsyncs e' = alter (trsync_AddStepper s) (default (length (trsyncs e)) found)
      (if bool_decide (found = None) then trsyncs e ++ [NewTrsync (s_mcu s) oid] else trsyncs e)).
  { destruct (negb _); cbn [mbind go_bind] in E; [injection E as <- <-; eauto|].
    destruct (slice_string _ _ _); cbn [mbind go_bind] in E; [injection E as <- <-; eauto|done]. }
  destruct Hp as (b & -> & ->). clear E. subst found. eexists _, _. split; [reflexivity|].
  destruct (list_find _ (trsyncs e)) as [[i t]|] eqn:Ef; cbn [fmap option_fmap option_map fst].
  - apply list_find_Some in Ef as (Hi & Hm & _). rewrite bool_decide_false by done. split; [by exists t|by left].
  - apply list_find_None in Ef. rewrite bool_decide_true by done. cbn [default from_option]. split.
    + exists (NewTrsync (s_mcu s) oid). split; [|done]. rewrite lookup_app_r, Nat.sub_diag by done. done.
    + right. split; [done|]. intros (t & Hm & Ht)%list_elem_of_fmap. rewrite Forall_forall in Ef. by apply (Ef t Ht).
Qed.

Lemma AddStepper_ok s oid e plan e' : trsyncs_ok (trsyncs e) → AddStepper s oid e = Ret (plan, e') →
  trsyncs_ok (trsyncs e') ∧ ∀ x, x ∈ Steppers e' ↔ x = s ∨ x ∈ Steppers e.
Proof.
  intros [Hnd Hs] E. destruct (AddStepper_spec _ _ _ _ _ E) as (ts & i & He & (t & Hi & Hm) & Hts).
  assert (Hok : NoDup (t_mcu <$> ts) ∧ Forall (λ t, Forall (λ s, s_mcu s = t_mcu t) (t_steppers t)) ts ∧
    ∀ x, x ∈ (t ← ts; t_steppers t) ↔ x ∈ Steppers e).
  { destruct Hts as [->|[-> Hn]]; [done|]. split_and!.
    - rewrite fmap_app. apply NoDup_app. split_and!; [done| |apply NoDup_singleton]. intros y Hy Hy'%list_elem_of_singleton. by subst.
    - apply Forall_app. split; [done|]. by repeat constructor.
    - intros x. unfold Steppers. rewrite bind_app. set_solver. }
  destruct Hok as (Hnd' & Hs' & Hel). rewrite He. split; [split|].
  - by rewrite alter_add_mcus.
  - apply Forall_lookup. intros j y Hy. rewrite list_lookup_alter in Hy. rewrite Forall_lookup in Hs'. case_decide as Hj; [subst j|by eapply Hs'].
    rewrite Hi in Hy. injection Hy as <-. rewrite trsync_AddStepper_mcu. apply Forall_forall. intros x [->|Hx]%trsync_AddStepper_elem; [done|].
    specialize (Hs' _ _ Hi). rewrite Forall_forall in Hs'. by apply Hs'.
  - intros x. unfold Steppers. rewrite He, <- Hel, !list_elem_of_bind. setoid_rewrite list_elem_of_lookup. split.
    + intros (y & Hx & j & Hy). rewrite list_lookup_alter in Hy. case_decide as Hj; [subst j|right; by eauto 6].
      rewrite Hi in Hy. injection Hy as <-. apply list_elem_of_lookup, trsync_AddStepper_elem in Hx as [->|Hx]; [by left|right].
      exists t. split; [by apply list_elem_of_lookup|eauto].
    + intros [->|(y & Hx & j & Hy)].
      * exists (trsync_AddStepper s t). split; [apply list_elem_of_lookup, trsync_AddStepper_elem; by left|]. exists i. rewrite list_lookup_alter.
        by rewrite decide_True, Hi by done.
      * destruct (decide (i = j)) as [<-|Hj].
        -- exists (trsync_AddStepper s y). split; [apply list_elem_of_lookup, trsync_AddStepper_elem; right; by apply list_elem_of_lookup|].
           exists i. rewrite list_lookup_alter. by rewrite decide_True, Hy by done.
        -- exists y. split; [done|]. exists j. rewrite list_lookup_alter. by rewrite decide_False.
Qed.

Lemma add_all_ok adds e e' : trsyncs_ok (trsyncs e) → add_all adds e = Ret e' →
  trsyncs_ok (trsyncs e') ∧ ∀ x, x ∈ Steppers e' ↔ x ∈ adds.*1 ∨ x ∈ Steppers e.
Proof.
  revert e. induction adds as [|[s oid] adds IH]; intros e Hok E; cbn [add_all] in E.
  { injection E as <-. split; [done|]. intros x. set_solver. }
  destruct (AddStepper s oid e) as [[plan e1]|] eqn:Ea; [|done]. cbn [mbind go_bind snd] in E.
  destruct (AddStepper_ok _ _ _ _ _ Hok Ea) as [Hok1 H1]. destruct (IH _ Hok1 E) as [Hok2 H2]. split; [done|].
  intros x. rewrite H2, H1, fmap_cons, elem_of_cons. tauto.
Qed.

(** ** Starting *)

Lemma start_all_stops clk printTime c timeout i n ts m so to :
  StepperStop m so to ∈ (start_all clk printTime c timeout i n ts).1 ↔ ∃ t s, t ∈ ts ∧ s ∈ t_steppers t ∧ m = t_mcu t ∧ so = s_oid s ∧ to = t_oid t.
Proof.
  revert i. induction ts as [|t ts IH]; intros i; cbn [start_all]; [set_solver|]. cbn [fst]. rewrite elem_of_app, IH. unfold Start. cbn [fst].
  rewrite !elem_of_app, list_elem_of_fmap. split.
  - intros [[Hx|[(s & [= -> -> ->] & Hs)|Hx]]|(t' & s & Ht & H)]; [exfalso; set_solver|exists t, s; set_solver|exfalso; set_solver|exists t', s; set_solver].
  - intros (t' & s & [->|Ht]%elem_of_cons & Hs & -> & -> & ->); [left; right; left; eauto|right; eauto 8].
Qed.

(** C31. However steppers are added to an endstop, it has one trsync for each micro-
    controller; each stepper added is in the trsync of the micro-controller that drives
    it, which exists, and starting a homing move tells it to stop with that trsync, and
    tells no other stepper. *)
Theorem steppers_stop_with_their_mcu clk oid invert mcu trsync_oid adds e printTime sampleTime sampleCount restTime triggered c
    (sent := (Home_start clk mcu printTime sampleTime sampleCount restTime triggered c e).1.2) :
  add_all adds (NewEndstop oid invert mcu trsync_oid) = Ret e →
  NoDup (t_mcu <$> trsyncs e) ∧
  (∀ s, s ∈ adds.*1 → ∃ t, t ∈ trsyncs e ∧ t_mcu t = s_mcu s ∧ s ∈ t_steppers t ∧ StepperStop (s_mcu s) (s_oid s) (t_oid t) ∈ sent) ∧
  ∀ m so to, StepperStop m so to ∈ sent ↔
    ∃ s t, s ∈ adds.*1 ∧ t ∈ trsyncs e ∧ t_mcu t = s_mcu s ∧ m = s_mcu s ∧ so = s_oid s ∧ to = t_oid t.
Proof.
  intros E. destruct (add_all_ok adds (NewEndstop oid invert mcu trsync_oid) e) as [[Hnd Hok] Hs]; [|done|].
  { split; [apply NoDup_singleton|by repeat constructor]. }
  assert (Hnil : Steppers (NewEndstop oid invert mcu trsync_oid) = []) by done. rewrite Hnil in Hs.
  assert (Hmem : ∀ t s, t ∈ trsyncs e → s ∈ t_steppers t ↔ s ∈ adds.*1 ∧ t_mcu t = s_mcu s).
  { rewrite Forall_forall in Hok. intros t s Ht. split.
    - intros Hst. specialize (Hok t Ht). rewrite Forall_forall in Hok. split; [|by rewrite Hok].
      destruct (Hs s) as [H1 _]. destruct H1 as [H1|H1]; [|done|by apply not_elem_of_nil in H1]. apply list_elem_of_bind. eauto.
    - intros [Ha Hm]. assert (Hin : s ∈ Steppers e) by (apply Hs; by left). apply list_elem_of_bind in Hin as (t' & Hst & Ht').
      assert (t' = t) as ->; [|done]. specialize (Hok t' Ht'). rewrite Forall_forall in Hok. specialize (Hok s Hst).
      apply list_elem_of_lookup in Ht as [i Hi]. apply list_elem_of_lookup in Ht' as [j Hj].
      assert (i = j) as ->; [|congruence]. apply (NoDup_lookup _ _ _ (s_mcu s) Hnd); rewrite list_lookup_fmap, ?Hi, ?Hj; cbn; congruence. }
  assert (Hsent : ∀ m so to, StepperStop m so to ∈ sent ↔ ∃ s t, s ∈ adds.*1 ∧ t ∈ trsyncs e ∧ t_mcu t = s_mcu s ∧ m = s_mcu s ∧ so = s_oid s ∧ to = t_oid t).
  { intros m so to. subst sent. unfold Home_start. destruct (trsyncs e) as [|primary others] eqn:Et; [cbn [fst snd]; set_solver|]. cbn [fst snd].
    rewrite elem_of_app, start_all_stops. split.
    - intros [(t & s & Ht & Hst & -> & -> & ->)|Hx]; [|exfalso; set_solver]. apply (Hmem t s Ht) in Hst as [Ha Hm]. exists s, t. split_and!; done.
    - intros (s & t & Ha & Ht & Hm & -> & -> & ->). left. exists t, s. split_and!; [done|by apply Hmem|done..]. }
  split_and!; [done| |done]. intros s Ha. assert (Hin : s ∈ Steppers e) by (apply Hs; by left).
  apply list_elem_of_bind in Hin as (t & Hst & Ht). destruct (proj1 (Hmem t s Ht) Hst) as [_ Hm]. exists t. split_and!; [done..|].
  apply Hsent. by exists s, t.
Qed.

(** ** The trigger of a trsync *)

(** What may happen to a trsync between its start and its stop. *)
Inductive trsync_event := EReport (p : trsync_state) | EShutdown | EHomeEnd (t : f64).

Definition trsync_step (clk : mcu_clock) (t : Trsync) (ev : trsync_event) : list mcu_out * Trsync :=
  match ev with
  | EReport p => Handle_trsync_state clk p t
  | EShutdown => trsync_Shutdown t
  | EHomeEnd h => ([], SetHomeEndTime clk h t)
  end.

Fixpoint trsync_run (clk : mcu_clock) (t : Trsync) (evs : list trsync_event) : list mcu_out * Trsync :=
  match evs with
  | [] => ([], t)
  | ev :: evs => let r := trsync_step clk t ev in let rs := trsync_run clk r.2 evs in (r.1 ++ rs.1, rs.2)
  end.

Definition completions (outs : list mcu_out) : list (nat * bool) := omap (λ o, match o with Complete c r => Some (c, r) | _ => None end) outs.

(** What an event says about the trigger: nothing, or that it is over, and whether for
    lack of communication. *)
Definition verdict (ev : trsync_event) : option bool :=
  match ev with
  | EReport p => if match can_trigger p with Some x => negb (x =? 1) | None => false end
                 then Some (ReasonCommsTimeout <=? default 0 (trigger_reason p)) else None
  | EShutdown => Some false
  | EHomeEnd _ => None
  end.

Lemma completions_app a b : completions (a ++ b) = completions a ++ completions b.
Proof. apply omap_app. Qed.

Lemma trsync_step_completes clk t ev c : TriggerCompletion t = Some c → listening t = true →
  let r := trsync_step clk t ev in listening r.2 = true ∧
  match verdict ev with
  | Some b => completions r.1 = [(c, b)] ∧ TriggerCompletion r.2 = None
  | None => completions r.1 = [] ∧ TriggerCompletion r.2 = Some c
  end.
Proof.
  intros Hc Hl. destruct ev as [p| |h]; cbn [trsync_step verdict]; [|by unfold trsync_Shutdown; rewrite Hc|done].
  unfold Handle_trsync_state. rewrite Hl. unfold HandleState. rewrite Hc. destruct (match can_trigger p with Some x => _ | None => _ end); [done|].
  destruct (HomeEndClock t) as [h|]; [destruct (_ <? h)|]; done.
Qed.

Lemma trsync_step_over clk t ev : TriggerCompletion t = None → let r := trsync_step clk t ev in completions r.1 = [] ∧ TriggerCompletion r.2 = None.
Proof.
  intros Hc. destruct ev as [p| |h]; cbn [trsync_step]; [|unfold trsync_Shutdown; by rewrite Hc|done].
  unfold Handle_trsync_state. destruct (listening t); [|done]. unfold HandleState. rewrite Hc.
  destruct (match can_trigger p with Some x => _ | None => _ end); [done|]. destruct (HomeEndClock t) as [h|]; [destruct (_ <? h)|]; done.
Qed.

Lemma trsync_run_over clk t evs : TriggerCompletion t = None → completions (trsync_run clk t evs).1 = [].
Proof.
  revert t. induction evs as [|ev evs IH]; intros t Hc; [done|]. cbn [trsync_run fst]. rewrite completions_app.
  destruct (trsync_step_over clk t ev Hc) as [-> Hc']. by apply IH.
Qed.

(** A trsync that was started completes its trigger at the first event that ends it, and
    never again. *)
Theorem trigger_completes_once clk printTime offset timeout c t evs :
  completions (trsync_run clk (Start clk printTime offset c timeout t).2 evs).1
  = match omap verdict evs with b :: _ => [(c, b)] | [] => [] end.
Proof.
  set (t1 := (Start _ _ _ _ _ _).2). assert (Hc : TriggerCompletion t1 = Some c) by done. assert (Hl : listening t1 = true) by done.
  revert Hc Hl. generalize t1 as t2. clear t1. induction evs as [|ev evs IH]; intros t2 Hc Hl; [done|]. cbn [trsync_run fst omap list_omap].
  rewrite completions_app. destruct (trsync_step_completes clk t2 ev c Hc Hl) as [Hl' Hv]. destruct (verdict ev) as [b|]; destruct Hv as [-> Hc'].
  - by rewrite trsync_run_over.
  - by apply IH.
Qed.

(** ** The time of the trigger *)

Lemma stop_all_reasons fileoutput answers ts : length answers = length ts →
  (stop_all fileoutput answers ts).1.1 = (if fileoutput then replicate (length ts) ReasonEndstopHit else default ReasonHostRequest <$> answers).
Proof.
  revert answers. induction ts as [|t ts IH]; intros [|a answers] Hl; [by destruct fileoutput|done..|]. injection Hl as Hl.
  cbn [stop_all fst head tail default from_option]. rewrite IH by done. by destruct fileoutput.
Qed.

Lemma deliver_length clk reports ts : length (deliver clk reports ts).2 = length ts.
Proof.
  revert ts. induction reports as [|[i p] reports IH]; intros ts; [done|]. cbn [deliver]. destruct (ts !! i); [|done]. cbn [snd].
  by rewrite IH, length_insert.
Qed.

(** C32. The wait for an endstop answers -1 if all trsyncs lost communication, 0 if the
    endstop was not hit, and otherwise the print time of the very tick at which the pin
    changed, though the clock is reported modulo 2^32 and after the rest time of the
    pin. *)
Theorem home_wait_times_trigger clk mcu s homeEndTime reports answers next e :
  clk mcu = main_clock s → 0 ≤ last_clock s < 2 ^ 62 → trsyncs e ≠ [] → length answers = length (trsyncs e) →
  let t := (Home_wait clk mcu homeEndTime false reports answers next e).1.1 in
  let reasons := default ReasonHostRequest <$> answers in
  if forallb (λ r, r =? ReasonCommsTimeout) reasons then t = f_of_Z (-1)
  else if negb (default 0 (head reasons) =? ReasonEndstopHit) then t = f0
  else ∀ x, 0 ≤ x < 2 ^ 62 → 0 ≤ x + RestTicks e → - 2 ^ 31 ≤ last_clock s - (x + RestTicks e) < 2 ^ 31 →
    next = (x + RestTicks e) mod 2 ^ 32 → t = Clock_to_print_time x s.
Proof.
  intros Hclk Hl Hne Ha t reasons. subst t. unfold Home_wait. destruct (trsyncs e) as [|primary others] eqn:Et; [done|]. clear Hne.
  set (ts := _ :: others). assert (Hlen : length answers = length (deliver clk reports ts).2) by (by rewrite deliver_length). cbn [fst].
  rewrite stop_all_reasons by done. fold reasons. unfold EvaluateEndstopHomeWait.
  destruct reasons as [|r0 rs] eqn:Er; [apply (f_equal length) in Er; unfold reasons in Er; rewrite length_fmap, Ha in Er; discriminate|].
  cbn [head default from_option id]. destruct (forallb _ _); [done|]. destruct (negb (r0 =? ReasonEndstopHit)) eqn:Eh; [done|].
  intros x Hx Hx0 Hd ->. cbn [default from_option id]. unfold HomeEndTimeFromNextClock. rewrite Hclk. cbn [main_clock clock_to_print_time clock32_to_clock64].
  rewrite clock32_exact by lia. f_equal. rewrite i64_id by lia. lia.
Qed.

(** ** Examples *)

(** Two micro-controllers, at a megahertz; the endstop is on the first. *)
Definition demo_sync (last : Z) : ClockSync :=
  mkClockSync 0 (f_of_Z 1000000) last (f0, f0, f_of_Z 1000000) f0 f0 f0 f0 f0 f0 f0 f0.
Definition demo_clocks (mcu : Z) : mcu_clock := main_clock (demo_sync (if mcu =? 0 then 2 ^ 32 + 100 else 5000)).
Definition demo_adds : list (stepper * Z) := [(mkStepper 0 3 "stepper_x", 20); (mkStepper 1 4 "stepper_y", 21); (mkStepper 0 5 "stepper_x1", 22)].
Definition demo_endstop : Endstop := match add_all demo_adds (NewEndstop 9 0 0 10) with Ret e => e | Panic _ => NewEndstop 9 0 0 10 end.

Lemma steppers_stop_with_their_mcu_witness :
  NoDup (t_mcu <$> trsyncs demo_endstop) ∧
  (∀ s, s ∈ demo_adds.*1 → ∃ t, t ∈ trsyncs demo_endstop ∧ t_mcu t = s_mcu s ∧ s ∈ t_steppers t ∧
    StepperStop (s_mcu s) (s_oid s) (t_oid t) ∈ (Home_start demo_clocks 0 f1 f1 4 f1 1 0 demo_endstop).1.2) ∧
  ∃ s t, s ∈ demo_adds.*1 ∧ t ∈ trsyncs demo_endstop ∧ t_mcu t = s_mcu s ∧ 1 = s_mcu s ∧ 4 = s_oid s ∧ 21 = t_oid t.
Proof.
  destruct (steppers_stop_with_their_mcu demo_clocks 9 0 0 10 demo_adds demo_endstop f1 f1 4 f1 1 0) as (H1 & H2 & H3); [vm_compute; reflexivity|].
  split; [exact H1|]. split; [exact H2|]. apply H3. cbn. repeat (first [apply list_elem_of_here|apply list_elem_of_further]).
Defined.

(** The pin changed at tick 40 after the wrap of the clock. *)
Lemma home_wait_times_trigger_witness :
  (Home_wait demo_clocks 0 f1 false [] [Some 1; Some 2] 40 demo_endstop).1.1 = Clock_to_print_time (2 ^ 32 + 40) (demo_sync (2 ^ 32 + 100)).
Proof.
  pose proof (home_wait_times_trigger demo_clocks 0 (demo_sync (2 ^ 32 + 100)) f1 [] [Some 1; Some 2] 40 demo_endstop) as H.
  assert (Hr : RestTicks demo_endstop = 0) by (vm_compute; reflexivity). rewrite Hr in H.
  apply H; [reflexivity|cbn; lia|vm_compute; discriminate|vm_compute; reflexivity|lia|lia|cbn; lia|reflexivity].
Defined.
