(* ===== verification/Probe.v ===== *)
(** * Probing

    [src/internal/pkg/motion/probe]: the samples (samples.go), the probe and its sequence of
    samples (printer_probe.go, printer_probe_motion.go, printer_probe_runtime.go,
    printer_probe_commands.go), the lowering and raising of the probe (endstop_wrapper.go,
    printer_probe_events.go), probing at a list of points (probe_points.go,
    probe_points_runtime.go) and by hand (manual_probe_helper.go).

    The interfaces of the package to the printer are the class [ProbeHost], over the state
    [W] of the printer, on top of that of a homing move.  Messages are left out. *)

From Stdlib Require Import Ascii.
From S2P Require Import Prelude GoFloat GoFloatRound GoStrings GoState GoParseFloat GcodeParse Homing.

(** ** Samples *)

Definition z_of (p : list f64) : go f64 := p.[2].

Definition column (i : Z) (positions : list (list f64)) : go f64 :=
  foldl (λ acc p, s ← acc; v ← p.[i]; Ret (fadd s v)) (Ret f0) positions.

Definition MeanPosition (positions : list (list f64)) : go (list f64) :=
  match positions with
  | [] => Ret []
  | _ => let count := f_of_Z (len positions) in
         x ← column 0 positions; y ← column 1 positions; z ← column 2 positions; Ret [fdiv x count; fdiv y count; fdiv z count]
  end.

(** [sort.Slice] by height, which inserts; positions have a height. *)
Definition height (p : list f64) : f64 := default f0 (p !! 2%nat).
Fixpoint insert_z (p : list f64) (l : list (list f64)) : list (list f64) :=
  match l with
  | [] => [p]
  | q :: l => if flt (height p) (height q) then p :: q :: l else q :: insert_z p l
  end.
Definition sort_z (l : list (list f64)) : list (list f64) := foldl (λ acc p, insert_z p acc) [] l.

Definition MedianPosition (positions : list (list f64)) : go (list f64) :=
  match positions with
  | [] => Ret []
  | _ => let zSorted := sort_z positions in
         let middle := (length zSorted / 2)%nat in
         if Nat.odd (length zSorted) then Ret (default [] (zSorted !! middle)) else MeanPosition (take 2 (drop (middle - 1) zSorted))
  end.

Definition ZRange (positions : list (list f64)) : go (f64 * f64) :=
  match positions with
  | [] => Ret (f0, f0)
  | p :: ps => z ← z_of p;
      foldl (λ acc q, r ← acc; v ← z_of q;
               Ret (if flt (r : f64 * f64).1 v then v else r.1, if flt v r.2 then v else r.2)) (Ret (z, z)) ps
  end.

Definition ExceedsTolerance (positions : list (list f64)) (tolerance : f64) : go bool :=
  match positions with
  | [] => Ret false
  | _ => r ← ZRange positions; Ret (flt tolerance (fsub r.1 r.2))
  end.

(** [math.Pow] with the exponents two and a half. *)
Definition squared (x : f64) : f64 := fmul x x.

Record AccuracyStats := mkStats { Maximum : f64; Minimum : f64; Range : f64; Average : f64; Median : f64; Sigma : f64 }.

Definition Accuracy (positions : list (list f64)) : go AccuracyStats :=
  match positions with
  | [] => Ret (mkStats f0 f0 f0 f0 f0 f0)
  | _ =>
      r ← ZRange positions;
      mean ← MeanPosition positions; avgValue ← z_of mean;
      mid ← MedianPosition positions; median ← z_of mid;
      deviationSum ← foldl (λ acc p, s ← acc; v ← z_of p; Ret (fadd s (squared (fsub v avgValue)))) (Ret f0) positions;
      Ret (mkStats r.1 r.2 (fsub r.1 r.2) avgValue median (fsqrt (fdiv deviationSum (f_of_Z (len positions)))))
  end.

(** ** The probe *)

Record PrinterProbe := mkProbe {
  p_Speed : f64;
  LiftSpeed : f64;
  XOffset : f64;
  YOffset : f64;
  ZOffset : f64;
  ProbeCalibrateZ : f64;
  MultiProbePending : bool;
  LastState : bool;
  LastZResult : f64;
  SampleCount : Z;
  SampleRetractDist : f64;
  SamplesResult : string;
  SamplesTolerance : f64;
  SamplesRetries : Z;
  ZPosition : f64
}.

Definition set_pending (b : bool) (p : PrinterProbe) : PrinterProbe :=
  mkProbe (p_Speed p) (LiftSpeed p) (XOffset p) (YOffset p) (ZOffset p) (ProbeCalibrateZ p) b (LastState p) (LastZResult p) (SampleCount p)
    (SampleRetractDist p) (SamplesResult p) (SamplesTolerance p) (SamplesRetries p) (ZPosition p).
Definition RecordLastZResult (z : f64) (p : PrinterProbe) : PrinterProbe :=
  mkProbe (p_Speed p) (LiftSpeed p) (XOffset p) (YOffset p) (ZOffset p) (ProbeCalibrateZ p) (MultiProbePending p) (LastState p) z (SampleCount p)
    (SampleRetractDist p) (SamplesResult p) (SamplesTolerance p) (SamplesRetries p) (ZPosition p).
Definition RecordLastState (b : bool) (p : PrinterProbe) : PrinterProbe :=
  mkProbe (p_Speed p) (LiftSpeed p) (XOffset p) (YOffset p) (ZOffset p) (ProbeCalibrateZ p) (MultiProbePending p) b (LastZResult p) (SampleCount p)
    (SampleRetractDist p) (SamplesResult p) (SamplesTolerance p) (SamplesRetries p) (ZPosition p).
Definition SetProbeCalibrateZ (z : f64) (p : PrinterProbe) : PrinterProbe :=
  mkProbe (p_Speed p) (LiftSpeed p) (XOffset p) (YOffset p) (ZOffset p) z (MultiProbePending p) (LastState p) (LastZResult p) (SampleCount p)
    (SampleRetractDist p) (SamplesResult p) (SamplesTolerance p) (SamplesRetries p) (ZPosition p).

Definition CalibratedOffset (p : PrinterProbe) (kinPos : list f64) : go f64 :=
  match kinPos with [] => Ret f0 | _ => z ← z_of kinPos; Ret (fsub (ProbeCalibrateZ p) z) end.

(** ** Lowering and raising it *)

Inductive multi := MultiOff | MultiFirst | MultiOn.

Record EndstopWrapper := mkWrapper { PositionEndstop : f64; StowOnEachSample : bool; Multi : multi }.

Definition set_multi (m : multi) (e : EndstopWrapper) : EndstopWrapper := mkWrapper (PositionEndstop e) (StowOnEachSample e) m.

Definition wrapper_BeginMultiProbe (e : EndstopWrapper) : EndstopWrapper := if StowOnEachSample e then e else set_multi MultiFirst e.
Definition wrapper_EndMultiProbe (e : EndstopWrapper) : bool * EndstopWrapper := if StowOnEachSample e then (false, e) else (true, set_multi MultiOff e).
Definition PrepareForProbe (e : EndstopWrapper) : bool * EndstopWrapper :=
  match Multi e with MultiOff => (true, e) | MultiFirst => (true, set_multi MultiOn e) | MultiOn => (false, e) end.
Definition wrapper_FinishProbe (e : EndstopWrapper) : bool := match Multi e with MultiOff => true | _ => false end.

Definition CoordinatesChanged (startPos currentPos : list f64) : bool :=
  existsb (λ ab, negb (feq ab.2 ab.1)) (take 3 (zip startPos currentPos)).

Definition ValidateVirtualEndstopPin (pinType pin : string) (invert pullup : bool) : go unit :=
  if negb (bool_decide (pinType = "endstop")) || negb (bool_decide (pin = "z_virtual_endstop")) then Panic "Probe virtual endstop only useful as endstop pin"
  else if invert || pullup then Panic "Can not pullup/invert probe virtual endstop"
  else Ret tt.

(** ** The printer *)

Class ProbeHost (W : Type) `{HH : HomingHost W} := {
  probe_core : W → PrinterProbe;
  set_core : PrinterProbe → W → W;
  wrapper : W → EndstopWrapper;
  set_wrapper : EndstopWrapper → W → W;
  HomedAxes : W → string;
  Manual_move : list (option f64) → f64 → H W unit;
  RunActivateGCode : H W unit;
  RunDeactivateGCode : H W unit
}.

Section Probe.
Context {W : Type} `{PH : ProbeHost W} (debugInput : bool).

Definition hmodify (f : W → W) : H W unit := λ w, (inr tt, f w).

Definition RaiseProbe : H W unit :=
  startPos ← hgets GetPosition; RunDeactivateGCode;; pos ← hgets GetPosition;
  if CoordinatesChanged startPos pos then hpanic (PStr "project.Toolhead moved during probe activate_gcode script") else mret tt.

Definition LowerProbe : H W unit :=
  startPos ← hgets GetPosition; RunActivateGCode;; pos ← hgets GetPosition;
  if CoordinatesChanged startPos pos then hpanic (PStr "project.Toolhead moved during probe deactivate_gcode script") else mret tt.

Definition HandleMultiProbeEnd : H W unit :=
  e ← hgets wrapper; let r := wrapper_EndMultiProbe e in hmodify (set_wrapper r.2);; if r.1 : bool then RaiseProbe else mret tt.
Definition HandleProbePrepare : H W unit :=
  e ← hgets wrapper; let r := PrepareForProbe e in hmodify (set_wrapper r.2);; if r.1 : bool then LowerProbe else mret tt.
Definition HandleProbeFinish : H W unit := e ← hgets wrapper; if wrapper_FinishProbe e then RaiseProbe else mret tt.

Definition BeginMultiProbe : H W unit :=
  Send_event "homing:multi_probe_begin";;
  hmodify (λ w, set_wrapper (wrapper_BeginMultiProbe (wrapper w)) w);;
  hmodify (λ w, set_core (set_pending true (probe_core w)) w).

Definition EndMultiProbe : H W unit :=
  core ← hgets probe_core;
  hmodify (set_core (set_pending false core));;
  (if MultiProbePending core then HandleMultiProbeEnd else mret tt);;
  Send_event "homing:multi_probe_end";; mret tt.

(** The handlers of the events of a homing move; [ours] says that the probe is among its
    endstops. *)
Definition HandleHomingMoveBegin (ours : bool) : H W unit := if ours then HandleProbePrepare else mret tt.
Definition HandleHomingMoveEnd (ours : bool) : H W unit := if ours then HandleProbeFinish else mret tt.
Definition HandleHomeRailsBegin (ours : bool) : H W unit := if ours then BeginMultiProbe else mret tt.
Definition HandleHomeRailsEnd (ours : bool) : H W unit := if ours then EndMultiProbe else mret tt.
Definition HandleCommandError : H W unit := EndMultiProbe.

(** ** One sample, and a sequence of them *)

Definition contains_char (c : ascii) (s : string) : bool := negb (IndexByte s c =? -1).

Definition Probe (probe : NamedEndstop) (speed : f64) : H W (list f64) :=
  axes ← hgets HomedAxes;
  if negb (contains_char "z" axes) then hpanic (PStr "Must home before probe")
  else
    pos ← hgets GetPosition;
    if bool_decide (length pos < 3)%nat then hpanic (PErr "index out of range")
    else
      core ← hgets probe_core;
      epos ← Probing_move debugInput probe (<[2%nat := ZPosition core]> pos) speed;
      if bool_decide (length epos < 3)%nat then hpanic (PErr "index out of range") else mret (take 3 epos).

Record sampling := mkSampling { s_speed : f64; s_lift : f64; s_count : Z; s_retract : f64; s_tolerance : f64; s_retries : Z; s_result : string }.

(** The parameters of a command, over the configuration. *)
Definition LiftSpeedFromCommand (command : CommandParams) (d : f64) : go f64 := Get_float command "LIFT_SPEED" (Value d) None None (Some f0) None.

Definition sampling_of (command : CommandParams) (core : PrinterProbe) : go sampling :=
  speed ← Get_float command "PROBE_SPEED" (Value (p_Speed core)) None None (Some f0) None;
  lift ← LiftSpeedFromCommand command (LiftSpeed core);
  count ← Get_int command "SAMPLES" (Value (SampleCount core));
  retract ← Get_float command "SAMPLE_RETRACT_DIST" (Value (SampleRetractDist core)) None None (Some f0) None;
  tolerance ← Get_float command "SAMPLES_TOLERANCE" (Value (SamplesTolerance core)) (Some f0) None (Some f0) None;
  retries ← Get_int command "SAMPLES_TOLERANCE_RETRIES" (Value (SamplesRetries core));
  result ← Get command "SAMPLES_RESULT" (Value (SamplesResult core));
  Ret (mkSampling speed lift count retract tolerance retries result).

(** The loop of [RunProbeSequence], on the retries left and the samples to go; [probe1]
    takes a sample.  A retry starts over. *)
Definition retract_move (s : sampling) (probexy : list f64) (pos : list f64) : H W unit :=
  z ← hgo (z_of pos); Manual_move ((Some <$> probexy) ++ [Some (fadd z (s_retract s))]) (s_lift s).

Fixpoint sample_loop (probe1 : H W (list f64)) (s : sampling) (probexy : list f64) (retries : nat) {struct retries} : nat → list (list f64) → H W (list (list f64)) :=
  fix samples (need : nat) (positions : list (list f64)) {struct need} : H W (list (list f64)) :=
    match need with
    | O => mret positions
    | S need =>
        pos ← probe1;
        let positions := positions ++ [pos] in
        exceeds ← hgo (ExceedsTolerance positions (s_tolerance s));
        if exceeds : bool then
          match retries with
          | O => hpanic (PStr "Probe samples exceed samples_tolerance")
          | S retries => retract_move s probexy pos;; sample_loop probe1 s probexy retries (Z.to_nat (s_count s)) []
          end
        else (match need with O => mret tt | _ => retract_move s probexy pos end);; samples need positions
    end.

Definition pick_sample (s : sampling) (positions : list (list f64)) : go (list f64) :=
  if bool_decide (s_result s = "median"%string) then MedianPosition positions else MeanPosition positions.

Definition RunProbeSequence (probe : NamedEndstop) (command : CommandParams) : H W (list f64) :=
  core ← hgets probe_core;
  s ← hgo (sampling_of command core);
  (if MultiProbePending core then mret tt else BeginMultiProbe);;
  pos ← hgets GetPosition;
  if bool_decide (length pos < 2)%nat then hpanic (PErr "slice bounds out of range")
  else
    positions ← sample_loop (Probe probe (s_speed s)) s (take 2 pos) (Z.to_nat (s_retries s)) (Z.to_nat (s_count s)) [];
    (if MultiProbePending core then mret tt else EndMultiProbe);;
    hgo (pick_sample s positions).

(** ** Commands *)

Definition HandleProbeCommand (probe : NamedEndstop) (command : CommandParams) : H W unit :=
  pos ← RunProbeSequence probe command; z ← hgo (z_of pos); hmodify (λ w, set_core (RecordLastZResult z (probe_core w)) w).

(** [query] asks the endstop; the first answer of one ends it. *)
Fixpoint HandleQueryProbeCommand (query : H W Z) (count : nat) : H W unit :=
  match count with
  | O => mret tt
  | S count =>
      res ← query;
      hmodify (λ w, set_core (RecordLastState (res =? 1) (probe_core w)) w);;
      if res =? 1 then mret tt else HandleQueryProbeCommand query count
  end.

(** The samples of PROBE_ACCURACY: one at least. *)
Fixpoint accuracy_samples (probe1 : H W (list f64)) (retract lift : f64) (n : nat) (positions : list (list f64)) : H W (list (list f64)) :=
  pos ← probe1; z ← hgo (z_of pos);
  Manual_move [None; None; Some (fadd z retract)] lift;;
  match n with O => mret (positions ++ [pos]) | S n => accuracy_samples probe1 retract lift n (positions ++ [pos]) end.

Definition HandleProbeAccuracyCommand (probe : NamedEndstop) (command : CommandParams) : H W AccuracyStats :=
  core ← hgets probe_core;
  speed ← hgo (Get_float command "PROBE_SPEED" (Value (p_Speed core)) None None (Some f0) None);
  lift ← hgo (LiftSpeedFromCommand command (LiftSpeed core));
  count ← hgo (Get_int command "SAMPLES" (Value 10));
  retract ← hgo (Get_float command "SAMPLE_RETRACT_DIST" (Value (SampleRetractDist core)) None None (Some f0) None);
  pos ← hgets GetPosition;
  if bool_decide (length pos < 3)%nat then hpanic (PErr "index out of range")
  else
    BeginMultiProbe;;
    positions ← accuracy_samples (Probe probe speed) retract lift (Z.to_nat (count - 1)) [];
    EndMultiProbe;;
    hgo (Accuracy positions).

(** Probe, rise by five, and put the nozzle where the probe was. *)
Definition HandleProbeCalibrateCommand (probe : NamedEndstop) (command : CommandParams) : H W unit :=
  core ← hgets probe_core;
  lift ← hgo (LiftSpeedFromCommand command (LiftSpeed core));
  curpos ← RunProbeSequence probe command;
  x ← hgo (curpos.[0]); y ← hgo (curpos.[1]); z ← hgo (curpos.[2]);
  hmodify (λ w, set_core (SetProbeCalibrateZ z (probe_core w)) w);;
  Manual_move (Some <$> <[2%nat := fadd z (f_of_Z 5)]> curpos) lift;;
  Manual_move (Some <$> <[1%nat := fadd y (YOffset core)]> (<[0%nat := fadd x (XOffset core)]> (<[2%nat := fadd z (f_of_Z 5)]> curpos))) (p_Speed core).

(** ** Probing at points *)

Record ProbePointsHelper := mkPoints {
  probePoints : list (list f64);
  horizontalMoveZ : f64;
  pp_speed : f64;
  useOffsets : bool;
  pp_liftSpeed : f64;
  probeOffsets : list f64;
  results : list (list f64)
}.

Definition begin_session (lift : f64) (offsets : list f64) (h : ProbePointsHelper) : ProbePointsHelper :=
  mkPoints (probePoints h) (horizontalMoveZ h) (pp_speed h) (useOffsets h) lift offsets [].
Definition BeginManualSession (h : ProbePointsHelper) : ProbePointsHelper := begin_session (pp_speed h) [f0; f0; f0] h.
Definition BeginAutomaticSession (lift : f64) (offsets : list f64) (h : ProbePointsHelper) : ProbePointsHelper := begin_session lift offsets h.
Definition set_results (r : list (list f64)) (h : ProbePointsHelper) : ProbePointsHelper :=
  mkPoints (probePoints h) (horizontalMoveZ h) (pp_speed h) (useOffsets h) (pp_liftSpeed h) (probeOffsets h) r.
Definition MinimumPoints (n : Z) (h : ProbePointsHelper) : bool := n <=? len (probePoints h).
Definition UpdateProbePoints (points : list (list f64)) (h : ProbePointsHelper) : ProbePointsHelper :=
  mkPoints points (horizontalMoveZ h) (pp_speed h) (useOffsets h) (pp_liftSpeed h) (probeOffsets h) (results h).
Definition UseXYOffsets (b : bool) (h : ProbePointsHelper) : ProbePointsHelper :=
  mkPoints (probePoints h) (horizontalMoveZ h) (pp_speed h) b (pp_liftSpeed h) (probeOffsets h) (results h).
Definition NewProbePointsHelper (defaultPoints : list (list f64)) (horizontalMoveZ speed : f64) : ProbePointsHelper :=
  mkPoints defaultPoints horizontalMoveZ speed false speed [f0; f0; f0] [].
Definition AppendResult (pos : list f64) (h : ProbePointsHelper) : ProbePointsHelper := set_results (results h ++ [pos]) h.

Definition target_of (h : ProbePointsHelper) (point : list f64) : go (list f64) :=
  match useOffsets h, point with
  | true, x :: y :: rest => ox ← (probeOffsets h).[0]; oy ← (probeOffsets h).[1]; Ret (fsub x ox :: fsub y oy :: rest)
  | _, _ => Ret point
  end.

Definition currentTarget (h : ProbePointsHelper) : go (list f64) := point ← (probePoints h).[len (results h)]; target_of h point.

Context (finalize : list f64 → list (list f64) → H W string).

(** Done, or the next target. *)
Definition NextProbePoint (h : ProbePointsHelper) : H W (option (list f64) * ProbePointsHelper) :=
  if bool_decide (length (probePoints h) ≤ length (results h))%nat then
    res ← finalize (probeOffsets h) (results h);
    if bool_decide (res = "retry"%string) then let h := set_results [] h in t ← hgo (currentTarget h); mret (Some t, h)
    else mret (None, h)
  else t ← hgo (currentTarget h); mret (Some t, h).

Definition MoveNext (h : ProbePointsHelper) : H W (bool * ProbePointsHelper) :=
  let speed := if bool_decide (length (results h) = 0%nat) then pp_liftSpeed h else pp_speed h in
  Manual_move [None; None; Some (horizontalMoveZ h)] speed;;
  (if bool_decide (length (probePoints h) ≤ length (results h))%nat then _ ← GetLastMoveTime; mret tt else mret tt);;
  r ← NextProbePoint h;
  match r.1 with
  | None => mret (true, r.2)
  | Some t => Manual_move (Some <$> t) (pp_speed h);; mret (false, r.2)
  end.

(** The loop of an automatic session, for at most [fuel] points: what is left of it when
    they are used up. *)
Fixpoint probe_loop (run_probe : H W (list f64)) (fuel : nat) (h : ProbePointsHelper) : H W (bool * ProbePointsHelper) :=
  match fuel with
  | O => mret (false, h)
  | S fuel =>
      r ← MoveNext h;
      if r.1 : bool then mret (true, r.2) else pos ← run_probe; probe_loop run_probe fuel (AppendResult pos r.2)
  end.

Definition StartProbe (run_probe : H W (list f64)) (lift : f64) (offsets : list f64) (fuel : nat) (h : ProbePointsHelper) : H W (bool * ProbePointsHelper) :=
  let h := BeginAutomaticSession lift offsets h in
  oz ← hgo ((probeOffsets h).[2]);
  if flt (horizontalMoveZ h) oz then hpanic (PStr "horizontal_move_z can t be less than probe's z_offset")
  else BeginMultiProbe;; r ← probe_loop run_probe fuel h; if r.1 : bool then EndMultiProbe;; mret r else mret r.

(** A session by hand: the next move, and what a result does.  [None] is no position. *)
Definition HandleManualProbeResult (kinPos : option (list f64)) (h : ProbePointsHelper) : H W (bool * ProbePointsHelper) :=
  match kinPos with
  | None => mret (true, h)
  | Some p => MoveNext (AppendResult p h)
  end.
End Probe.

(** ** By hand *)

Definition ZBobMinimum : f64 := f_lit 5 10.
Definition BisectMax : f64 := f_lit 2 10.

Record ManualProbeSession := mkManual { pastPositions : list f64; startPosition : list f64 }.

(** A binary search for a place within a thousandth, or to insert; it ends, since the gap
    shrinks with each look. *)
Fixpoint bisect (fuel : nat) (nums : list f64) (target : f64) (low high : Z) : go Z :=
  match fuel with
  | O => Ret low
  | S fuel =>
      if high <? low then Ret low
      else
        let mid := low + (high - low) / 2 in
        value ← nums.[mid];
        if flt (fabs (fsub value target)) (f_lit 1 1000) then Ret mid
        else if flt value target then bisect fuel nums target (mid + 1) high
        else bisect fuel nums target low (mid - 1)
  end.

Definition BisectLeft (nums : list f64) (target : f64) : go Z := bisect (S (length nums)) nums target 0 (len nums - 1).

(** Where TESTZ inserts the height it starts from. *)
Definition note_position (past : list f64) (zPos : f64) : go (Z * list f64) :=
  i ← BisectLeft past zPos;
  if (len past <=? i) || negb (feq (default f0 (past !! Z.to_nat i)) zPos) then Ret (i, take (Z.to_nat i) past ++ zPos :: drop (Z.to_nat i) past)
  else Ret (i, past).

Definition far : f64 := f_lit 99999999999999 10.

(** The height that TESTZ moves to. *)
Definition testz_target (past : list f64) (insertPos : Z) (zPos : f64) (request : string) : go f64 :=
  if bool_decide (request = "+"%string) || bool_decide (request = "++"%string) then
    checkZ ← (if insertPos <? len past - 1 then past.[insertPos + 1] else Ret far);
    let checkZ := if bool_decide (request = "+"%string) then fdiv (fadd checkZ zPos) (f_of_Z 2) else checkZ in
    Ret (fmin checkZ (fadd zPos BisectMax))
  else if bool_decide (request = "-"%string) || bool_decide (request = "--"%string) then
    checkZ ← (if 0 <? insertPos then past.[insertPos - 1] else Ret (fneg far));
    let checkZ := if bool_decide (request = "-"%string) then fdiv (fadd checkZ zPos) (f_of_Z 2) else checkZ in
    Ret (fmax checkZ (fsub zPos BisectMax))
  else
    match ParseFloat request with
    | (delta, None) => Ret (fadd zPos delta)
    | (_, Some _) => Panic "invalid syntax"
    end.

Definition cmdTestZ (s : ManualProbeSession) (zPos : f64) (request : option string) : go (f64 * ManualProbeSession) :=
  r ← note_position (pastPositions s) zPos;
  match request with
  | None => Panic "Error on manual probe TESTZ: missing Z"
  | Some request => t ← testz_target r.2 r.1 zPos request; Ret (t, mkManual r.2 (startPosition s))
  end.

(** The moves to a height: from above. *)
Definition MoveZ (currentZ zPos : f64) : list f64 :=
  let zBobPos := fadd zPos ZBobMinimum in (if flt currentZ zBobPos then [zBobPos] else []) ++ [zPos].

(** Whether ACCEPT accepts. *)
Definition cmdAccept (s : ManualProbeSession) (position : list f64) : bool :=
  match position, startPosition s with
  | x :: y :: z :: _, sx :: sy :: sz :: _ => feq x sx && feq y sy && negb (fle sz z)
  | _, _ => false
  end.

(** [Finalize]: what the caller of the session is given; an empty position if it was
    aborted. *)
Definition Finalize (success : bool) (kinPos : list f64) : option (list f64) := Some (if success then kinPos else []).
