(* ===== verification/ProbeThy.v ===== *)
(** * Probing: what a result is made of

    Theorems on [Probe]: the result of a probe comes from as many samples as were asked for,
    all within the tolerance; a session at points takes one result for each point, in
    order, and ends; the probe is lowered and raised in turn. *)

From Stdlib Require Import Ascii Sorting.Sorted.
From S2P Require Import Prelude GoFloat GoFloatRound GoStrings GoState GcodeParse Homing HomingThy Probe.

(** ** The spread of heights *)

Definition bounded (hi lo : f64) (p : list f64) : Prop := fle lo (height p) = true ∧ fle (height p) hi = true.

Lemma bounded_mono hi lo hi' lo' p : fle lo' lo = true → fle hi hi' = true → bounded hi lo p → bounded hi' lo' p.
Proof. intros Hl Hh [H1 H2]. split; by eapply fle_trans. Qed.

Lemma z_of_height p v : z_of p = Ret v → height p = v.
Proof. unfold z_of, height, index. rewrite bool_decide_true by lia. change (Z.to_nat 2) with 2%nat. destruct (p !! 2%nat); by intros [= ->]. Qed.

Lemma ZRange_bounds ps hi lo : Forall (λ p, is_nan (height p) = false) ps → ZRange ps = Ret (hi, lo) → Forall (bounded hi lo) ps.
Proof.
  destruct ps as [|p ps]; [done|]. intros [Hp Hps]%Forall_cons E. cbn [ZRange] in E. destruct (z_of p) as [z|] eqn:Ez; [|done].
  cbn [mbind go_bind] in E. apply z_of_height in Ez as <-.
  assert (Hb : ∀ acc hi lo, foldl (λ acc q, r ← acc; v ← z_of q; Ret (if flt (r : f64 * f64).1 v then v else r.1, if flt v r.2 then v else r.2)) acc ps = Ret (hi, lo) →
    ∃ h l, acc = Ret (h, l) ∧ (is_nan h = false → is_nan l = false → fle h hi = true ∧ fle lo l = true ∧ Forall (bounded hi lo) ps)).
  { clear E Hp p hi lo. induction Hps as [|q ps Hq Hps IH]; intros acc hi lo E; cbn [foldl] in E.
    { subst acc. exists hi, lo. split; [done|]. intros. by rewrite !fle_refl. }
    apply IH in E as (h & l & E & H). destruct acc as [[h0 l0]|]; [|done]. cbn [mbind go_bind] in E. destruct (z_of q) as [v|] eqn:Ez; [|done].
    cbn [mbind go_bind fst snd] in E. apply z_of_height in Ez as <-. injection E as <- <-. exists h0, l0. split; [done|]. intros Hh0 Hl0.
    assert (fle h0 (if flt h0 (height q) then height q else h0) = true ∧ fle (height q) (if flt h0 (height q) then height q else h0) = true ∧
      is_nan (if flt h0 (height q) then height q else h0) = false) as (Ha & Ha' & Hn).
    { destruct (flt h0 (height q)) eqn:Ef; [split_and!; [by apply flt_fle|by apply fle_refl|done]|split_and!; [by apply fle_refl|by apply flt_false_fle|done]]. }
    assert (fle (if flt (height q) l0 then height q else l0) l0 = true ∧ fle (if flt (height q) l0 then height q else l0) (height q) = true ∧
      is_nan (if flt (height q) l0 then height q else l0) = false) as (Hb & Hb' & Hn').
    { destruct (flt (height q) l0) eqn:Ef; [split_and!; [by apply flt_fle|by apply fle_refl|done]|split_and!; [by apply fle_refl|by apply flt_false_fle|done]]. }
    destruct (H Hn Hn') as (H1 & H2 & H3). split_and!; [by eapply fle_trans|by eapply fle_trans|]. constructor; [|done]. split; by eapply fle_trans. }
  destruct (Hb _ _ _ E) as (h & l & [= <- <-] & H). destruct (H Hp Hp) as (H1 & H2 & H3). by constructor.
Qed.

(** The highest and the lowest are heights of samples. *)
Lemma ZRange_elem ps hi lo : ps ≠ [] → ZRange ps = Ret (hi, lo) → hi ∈ height <$> ps ∧ lo ∈ height <$> ps.
Proof.
  destruct ps as [|p ps]; [done|]. intros _ E. cbn [ZRange] in E. destruct (z_of p) as [z|] eqn:Ez; [|done]. cbn [mbind go_bind] in E.
  apply z_of_height in Ez as <-. revert hi lo E. induction ps as [|q ps IH] using rev_ind; intros hi lo E; [cbn in E; injection E as <- <-; set_solver|].
  rewrite foldl_app in E. cbn [foldl] in E. destruct (foldl _ _ ps) as [[h l]|]; [|done]. cbn [mbind go_bind] in E.
  destruct (z_of q) as [v|] eqn:Ez; [|done]. cbn [mbind go_bind fst snd] in E. apply z_of_height in Ez as <-. injection E as <- <-.
  destruct (IH h l eq_refl) as [Hh Hl]. rewrite app_comm_cons, fmap_app. split; (destruct (flt _ _); set_solver).
Qed.

(** ** The mean and the median *)

Definition axis_of (i : nat) (ps : list (list f64)) : list f64 := (λ p, default f0 (p !! i)) <$> ps.
Definition average (l : list f64) : f64 := fdiv (foldl fadd f0 l) (f_of_Z (len l)).

(** The mean of each coordinate. *)
Definition mean_of (ps : list (list f64)) (r : list f64) : Prop := r = [average (axis_of 0 ps); average (axis_of 1 ps); average (axis_of 2 ps)].

(** The one in the middle of the samples in order of height, or the mean of the two that are. *)
Definition by_height : list f64 → list f64 → Prop := λ p q, flt (height q) (height p) = false.
Definition median_of (ps : list (list f64)) (r : list f64) : Prop :=
  ∃ zs, zs ≡ₚ ps ∧ Sorted by_height zs ∧
    ((∃ k, length zs = (2 * k + 1)%nat ∧ zs !! k = Some r) ∨
     (∃ k a b, length zs = (2 * k + 2)%nat ∧ zs !! k = Some a ∧ zs !! S k = Some b ∧ mean_of [a; b] r)).

Definition result_of (s : sampling) (ps : list (list f64)) (r : list f64) : Prop :=
  if bool_decide (ps = []) then r = []
  else if bool_decide (s_result s = "median"%string) then median_of ps r else mean_of ps r.

Lemma column_sum (n : nat) ps v : column (Z.of_nat n) ps = Ret v → v = foldl fadd f0 (axis_of n ps).
Proof.
  unfold column. revert v. induction ps as [|p ps IH] using rev_ind; intros v E; [by injection E as <-|]. unfold axis_of. rewrite fmap_app.
  rewrite foldl_app. rewrite foldl_app in E. cbn [foldl fmap list_fmap] in *. destruct (foldl _ _ ps) as [x|]; [|done]. cbn [mbind go_bind] in E.
  rewrite (IH x eq_refl) in E. destruct (p !! n) as [y|] eqn:Ep; [by rewrite (index_lookup _ _ _ Ep) in E; cbn in E; injection E as <-|].
  unfold index in E. rewrite bool_decide_true, Nat2Z.id, Ep in E by lia. done.
Qed.

Lemma MeanPosition_mean ps r : ps ≠ [] → MeanPosition ps = Ret r → mean_of ps r.
Proof.
  intros Hne E. destruct ps as [|p ps]; [done|]. unfold MeanPosition in E.
  destruct (column 0 _) as [x|] eqn:Ex; [|done]. cbn [mbind go_bind] in E. destruct (column 1 _) as [y|] eqn:Ey; [|done]. cbn [mbind go_bind] in E.
  destruct (column 2 _) as [z|] eqn:Ez; [|done]. cbn [mbind go_bind] in E. injection E as <-.
  apply (column_sum 0) in Ex. apply (column_sum 1) in Ey. apply (column_sum 2) in Ez. subst.
  unfold mean_of, average, len, axis_of. by rewrite !length_fmap.
Qed.

Lemma insert_z_perm p l : insert_z p l ≡ₚ p :: l.
Proof. induction l as [|q l IH]; [done|]. cbn [insert_z]. destruct (flt _ _); [done|]. rewrite IH. apply Permutation_swap. Qed.

Lemma insert_z_sorted p l : Sorted by_height l → Sorted by_height (insert_z p l).
Proof.
  induction 1 as [|q l Hl IH Hd]; cbn [insert_z]; [by repeat constructor|]. destruct (flt (height p) (height q)) eqn:E.
  - repeat constructor; [done..|by apply fle_flt_false, flt_fle].
  - constructor; [done|]. destruct l as [|q' l]; cbn [insert_z]; [by constructor|]. destruct (flt (height p) (height q')); constructor; [done|].
    by inversion Hd.
Qed.

Lemma sort_z_sorted l : sort_z l ≡ₚ l ∧ Sorted by_height (sort_z l).
Proof.
  unfold sort_z. induction l as [|p l [Hp Hs]] using rev_ind; [split; [done|constructor]|]. rewrite foldl_app. cbn [foldl].
  split; [rewrite insert_z_perm, Hp; apply Permutation_cons_append|by apply insert_z_sorted].
Qed.

Lemma MedianPosition_median ps r : ps ≠ [] → MedianPosition ps = Ret r → median_of ps r.
Proof.
  intros Hne E. destruct (sort_z_sorted ps) as [Hp Hs]. pose proof (Permutation_length Hp) as Hl.
  assert (Hn : (0 < length ps)%nat) by (destruct ps; [done|cbn; lia]). exists (sort_z ps). split_and!; [done|done|].
  unfold MedianPosition in E. destruct ps as [|p ps]; [done|]. set (zs := sort_z (p :: ps)) in *. rewrite <- Hl in Hn.
  destruct (Nat.odd (length zs)) eqn:Ho.
  - left. apply Nat.odd_spec in Ho as [k Hk]. exists k. split; [done|].
    replace (length zs / 2)%nat with k in E by (rewrite Hk, Nat.mul_comm, Nat.div_add_l by done; cbn; lia).
    destruct (lookup_lt_is_Some_2 zs k ltac:(lia)) as [x Hx]. rewrite Hx in E |- *. injection E as <-. done.
  - right. apply not_true_iff_false in Ho. rewrite <- Nat.negb_even in Ho. apply not_true_iff_false, negb_false_iff, Nat.even_spec in Ho as [k Hk].
    destruct k as [|k]; [lia|]. exists k. replace (length zs / 2)%nat with (S k) in E by (rewrite Hk, Nat.mul_comm, Nat.div_mul; done).
    destruct (lookup_lt_is_Some_2 zs k ltac:(lia)) as [a Ha], (lookup_lt_is_Some_2 zs (S k) ltac:(lia)) as [b Hb].
    exists a, b. split_and!; [lia|done|done|]. apply MeanPosition_mean in E; [|by rewrite Nat.sub_succ, Nat.sub_0_r, (drop_S _ _ _ Ha)].
    by rewrite Nat.sub_succ, Nat.sub_0_r, (drop_S _ _ _ Ha), (drop_S _ _ _ Hb) in E.
Qed.

Lemma pick_sample_result s ps r : pick_sample s ps = Ret r → result_of s ps r.
Proof.
  unfold pick_sample, result_of. intros E. destruct (bool_decide (ps = [])) eqn:Hne; [apply bool_decide_eq_true in Hne as ->; destruct (bool_decide (s_result s = _)); cbn in E; congruence|apply bool_decide_eq_false in Hne].
  destruct (bool_decide _); [by apply MedianPosition_median|by apply MeanPosition_mean].
Qed.

(** ** A sequence of samples *)

Section Samples.
Context {W : Type} `{PH : ProbeHost W}.

(** Two of the samples are further apart than the tolerance, or none are. *)
Definition exceeds (tolerance : f64) (ps : list (list f64)) : Prop :=
  ∃ hi lo, hi ∈ height <$> ps ∧ lo ∈ height <$> ps ∧ flt tolerance (fsub hi lo) = true.
Definition within (tolerance : f64) (ps : list (list f64)) : Prop := ps = [] ∨
  ∃ hi lo, hi ∈ height <$> ps ∧ lo ∈ height <$> ps ∧ flt tolerance (fsub hi lo) = false ∧
    (Forall (λ p, is_nan (height p) = false) ps → Forall (bounded hi lo) ps).

Lemma ExceedsTolerance_spec tolerance ps b : ExceedsTolerance ps tolerance = Ret b → if b : bool then exceeds tolerance ps else within tolerance ps.
Proof.
  destruct ps as [|p ps]; [intros [= <-]; by left|]. unfold ExceedsTolerance. destruct (ZRange (p :: ps)) as [[hi lo]|] eqn:Ez; [|done].
  cbn [mbind go_bind fst snd]. intros [= E]. destruct (ZRange_elem (p :: ps) hi lo) as [Hh Hl]; [done..|]. destruct b; [by exists hi, lo|].
  right. exists hi, lo. split_and!; [done..|]. intros Hn. by apply ZRange_bounds.
Qed.

Section Sequence.
Context (probe1 : H W (list f64)) (s : sampling) (xy : list f64).

(** The probing moves of a sequence, one after the other: between two of them the probe is
    raised above where it was by the last. *)
Inductive taken : W → list (list f64) → W → Prop :=
| taken_none w : taken w [] w
| taken_more w ps w1 p w2 w3 : taken w ps w1 → probe1 w1 = (inr p, w2) →
    Manual_move ((Some <$> xy) ++ [Some (fadd (height p) (s_retract s))]) (s_lift s) w2 = (inr tt, w3) → taken w (ps ++ [p]) w3.

(** After the last sample it stays where it is. *)
Definition sampled (w : W) (ps : list (list f64)) (w' : W) : Prop :=
  (ps = [] ∧ w' = w) ∨ ∃ ps0 p w1, ps = ps0 ++ [p] ∧ taken w ps0 w1 ∧ probe1 w1 = (inr p, w').

(** Sequences given up for the spread of their samples, [n] at most. *)
Inductive given_up : nat → W → W → Prop :=
| given_up_none n w : given_up n w w
| given_up_more n w ps w1 w2 : taken w ps w1 → exceeds (s_tolerance s) ps → given_up n w1 w2 → given_up (S n) w w2.

Lemma retract_move_inv p w w' : retract_move s xy p w = (inr tt, w') →
  Manual_move ((Some <$> xy) ++ [Some (fadd (height p) (s_retract s))]) (s_lift s) w = (inr tt, w').
Proof. unfold retract_move. intros E. hinv E. by apply z_of_height in E0 as ->. Qed.

(** A sequence of samples taken by the loop. *)
Definition sequence (retries : nat) (w : W) (ps : list (list f64)) (w' : W) : Prop :=
  ∃ w1, given_up retries w w1 ∧ sampled w1 ps w' ∧ length ps = Z.to_nat (s_count s) ∧ within (s_tolerance s) ps.

Lemma sample_loop_S retries need positions (loop := sample_loop probe1 s xy) : loop retries (S need) positions =
  (pos ← probe1; exceeds ← hgo (ExceedsTolerance (positions ++ [pos]) (s_tolerance s));
   if exceeds : bool then
     match retries with
     | O => hpanic (PStr "Probe samples exceed samples_tolerance")
     | S retries => retract_move s xy pos;; loop retries (Z.to_nat (s_count s)) []
     end
   else (match need with O => mret tt | _ => retract_move s xy pos end);; loop retries need (positions ++ [pos])).
Proof. by destruct retries. Qed.

Lemma samples_taken retries need positions w0 w ps w' (loop := sample_loop probe1 s xy) :
  (∀ r w ps w', retries = S r → loop r (Z.to_nat (s_count s)) [] w = (inr ps, w') → sequence r w ps w') →
  taken w0 positions w → (length positions + S need)%nat = Z.to_nat (s_count s) →
  loop retries (S need) positions w = (inr ps, w') → sequence retries w0 ps w'.
Proof.
  intros Hretry. revert positions w. induction need as [|need IH]; intros positions w Ht Hl E; unfold loop in E; rewrite sample_loop_S in E; hinv E.
  all: match goal with X : ExceedsTolerance _ _ = Ret ?b |- _ => apply ExceedsTolerance_spec in X; rename X into Hx; destruct b end.
  1, 3: destruct retries as [|retries]; [done|]; hinv E; match goal with X : retract_move _ _ _ _ = (inr ?u, _) |- _ => destruct u; apply retract_move_inv in X end;
    destruct (Hretry _ _ _ _ eq_refl E) as (w3 & Hg & Hrest); exists w3; split; [|done]; eapply given_up_more; [by eapply taken_more|done..].
  - hinv E. match goal with X : mret _ _ = (inr _, ?w) |- _ => hinv X; assert (ps = positions ++ [a] ∧ w' = w) as [-> ->] by (destruct retries; by injection E as <- <-) end.
    exists w0. split_and!; [apply given_up_none|right; by eexists _, _, _|rewrite length_app; cbn; lia|done].
  - hinv E. match goal with X : retract_move _ _ _ _ = (inr ?u, _) |- _ => destruct u; apply retract_move_inv in X end.
    eapply IH; [by eapply taken_more|rewrite length_app; cbn; lia|exact E].
Qed.

Lemma sample_loop_sequence retries w ps w' :
  sample_loop probe1 s xy retries (Z.to_nat (s_count s)) [] w = (inr ps, w') → sequence retries w ps w'.
Proof.
  destruct (Z.to_nat (s_count s)) as [|need] eqn:Hc.
  { intros E. exists w. destruct retries; cbn in E; hinv E; (split_and!; [constructor|by left|done|by left]). }
  revert w ps w'. induction retries as [|retries IH]; intros w ps w' E; (eapply samples_taken; [|constructor|by rewrite Hc|exact E]).
  - done.
  - intros r w1 ps1 w2 [= <-]. rewrite Hc. apply IH.
Qed.
End Sequence.

Context (debugInput : bool).

(** C33. A probe that succeeds made its samples by as many probing moves in a row as were
    asked for, with a retract between two of them, after at most as many runs as there
    are retries were given up for two samples further apart than the tolerance. The
    heights of the samples are within the tolerance, and the result is the sample in the
    middle in order of height (the mean of the two in the middle, if their number is
    even), or the mean of each coordinate, as was asked; of no samples it is empty. *)
Theorem probe_result_from_samples probe command w r w' (pending := MultiProbePending (probe_core w)) :
  RunProbeSequence debugInput probe command w = (inr r, w') →
  ∃ s w1 w2 w3 positions (probe1 := Probe debugInput probe (s_speed s)) (xy := take 2 (GetPosition w1)),
    sampling_of command (probe_core w) = Ret s ∧
    (if pending then w1 = w else BeginMultiProbe w = (inr tt, w1)) ∧
    given_up probe1 s xy (Z.to_nat (s_retries s)) w1 w2 ∧
    sampled probe1 s xy w2 positions w3 ∧
    (if pending then w' = w3 else EndMultiProbe w3 = (inr tt, w')) ∧
    length positions = Z.to_nat (s_count s) ∧ within (s_tolerance s) positions ∧ result_of s positions r.
Proof.
  intros E. subst pending. unfold RunProbeSequence in E. hinv E. rename a into s. destruct (bool_decide _); [done|]. hinv E. apply hgo_inv in E as [E ->].
  match goal with El : sample_loop _ _ _ _ _ _ ?w1 = (inr ?ps, ?w3) |- _ =>
    apply sample_loop_sequence in El as (wr & Hg & Hs & Hl & Hw); exists s, w1, wr, w3, ps end.
  split_and!; [done| |done|done| |done|done|by apply pick_sample_result].
  all: repeat match goal with u : unit |- _ => destruct u end; destruct (MultiProbePending _); [cbv [mret H_ret] in *; congruence|done].
Qed.
End Samples.

(** ** Probing at points *)

Section Points.
Context {W : Type} `{PH : ProbeHost W} (finalize : list f64 → list (list f64) → H W string) (run_probe : H W (list f64)).
Context (no_retry : ∀ o r w s w', finalize o r w = (inr s, w') → s ≠ "retry"%string).

(** A result for a point: the probe was run where the move to its target had ended. *)
Definition probed_at (h : ProbePointsHelper) (point p : list f64) : Prop :=
  ∃ t w0 w1 w2, target_of h point = Ret t ∧ Manual_move (Some <$> t) (pp_speed h) w0 = (inr tt, w1) ∧ run_probe w1 = (inr p, w2).

Lemma MoveNext_step h w r w' : MoveNext finalize h w = (inr r, w') → (length (results h) ≤ length (probePoints h))%nat →
  r.2 = h ∧
  if r.1 then length (results h) = length (probePoints h)
  else ∃ point t w0, probePoints h !! length (results h) = Some point ∧ target_of h point = Ret t ∧ Manual_move (Some <$> t) (pp_speed h) w0 = (inr tt, w').
Proof using no_retry.
  intros E Hl. unfold MoveNext in E. hinv E.
  rename E2 into En. unfold NextProbePoint in En. clear E0 E1. destruct (bool_decide _) eqn:Hb.
  - apply bool_decide_eq_true in Hb. hinv En. match goal with Ef : finalize _ _ _ = (inr ?s, _) |- _ => apply no_retry in Ef end.
    rewrite bool_decide_false in En by done. hinv En. cbn [fst snd] in E. hinv E. split; [done|cbn [fst snd]; lia].
  - apply bool_decide_eq_false in Hb. hinv En. cbn [fst snd] in E. hinv E. split; [done|]. cbn [fst].
    match goal with X : currentTarget _ = Ret _ |- _ => unfold currentTarget in X; rename X into Et end.
    destruct (lookup_lt_is_Some_2 (probePoints h) (length (results h))) as [point Hp]; [lia|].
    unfold len in Et. rewrite (index_lookup _ _ _ Hp) in Et. cbn [mbind go_bind] in Et.
    match goal with Em : Manual_move _ _ _ = (inr ?u, w') |- _ => destruct u end. eauto 8.
Qed.

Definition on_results (h : ProbePointsHelper) (r : list (list f64)) : Prop := Forall2 (probed_at h) (take (length r) (probePoints h)) r.

Lemma probe_loop_results fuel h w r w' : (length (results h) ≤ length (probePoints h))%nat → on_results h (results h) →
  (length (probePoints h) < length (results h) + fuel)%nat →
  probe_loop finalize run_probe fuel h w = (inr r, w') → r.1 = true ∧ Forall2 (probed_at h) (probePoints h) (results r.2).
Proof using no_retry.
  revert h w. induction fuel as [|fuel IH]; intros h w Hl Ho Hf E; cbn [probe_loop] in E; [lia|]. hinv E.
  match goal with Em : MoveNext _ _ _ = (inr ?x, _) |- _ => apply MoveNext_step in Em as [Hh Hm]; [|done]; destruct x as [done h1]; cbn [fst snd] in * end.
  subst h1. destruct done.
  - hinv E. split; [done|]. cbn [snd]. unfold on_results in Ho. rewrite Hm, take_ge in Ho by lia. done.
  - hinv E. destruct Hm as (point & t & wm & Hp & Ht & Hmv). pose proof (lookup_lt_Some _ _ _ Hp).
    apply IH in E as [Ea Eb]; [by split| | |]; cbn [AppendResult set_results results probePoints]; [rewrite length_app; cbn; lia| |rewrite length_app; cbn; lia].
    unfold on_results. rewrite length_app. cbn [length]. rewrite Nat.add_1_r. erewrite take_S_r by done.
    apply Forall2_app; [exact Ho|]. constructor; [|constructor]. eexists _, _, _, _. eauto.
Qed.

(** A session at points, where [finalize] asks for no retry, does not use up its fuel: it ends
    with a result for each point, in their order, each probed at the point's target. *)
Theorem probe_points_in_order lift offsets h w r w' :
  StartProbe finalize run_probe lift offsets (S (length (probePoints h))) h w = (inr r, w') →
  r.1 = true ∧ Forall2 (probed_at (BeginAutomaticSession lift offsets h)) (probePoints h) (results r.2).
Proof using no_retry.
  intros E. unfold StartProbe in E. hinv E. destruct (flt _ _); [done|]. hinv E.
  match goal with X : probe_loop _ _ _ _ _ = (inr ?x, _) |- _ => destruct x as [d h1]; rename X into El end. cbn [fst] in E.
  apply probe_loop_results in El as [Ed El]; [|cbn; lia|constructor|cbn; lia]. cbn [fst snd] in Ed, El. subst d. hinv E. by split.
Qed.
End Points.

(** ** Lowering and raising *)

(** What a session or a single probing move asks of the probe, and the scripts that are
    run: lowering it ([true]) and raising it. *)
Inductive deploy_event := DBegin | DPrepare | DFinish | DEnd.

Definition deploy_step (e : EndstopWrapper) (ev : deploy_event) : list bool * EndstopWrapper :=
  match ev with
  | DBegin => ([], wrapper_BeginMultiProbe e)
  | DPrepare => let r := PrepareForProbe e in (if r.1 then [true] else [], r.2)
  | DFinish => (if wrapper_FinishProbe e then [false] else [], e)
  | DEnd => let r := wrapper_EndMultiProbe e in (if r.1 then [false] else [], r.2)
  end.

Fixpoint deploy_run (e : EndstopWrapper) (evs : list deploy_event) : list bool * EndstopWrapper :=
  match evs with
  | [] => ([], e)
  | ev :: evs => let r := deploy_step e ev in let rs := deploy_run r.2 evs in (r.1 ++ rs.1, rs.2)
  end.

Fixpoint times {A} (n : nat) (l : list A) : list A := match n with O => [] | S n => l ++ times n l end.

(** A session of [n] samples. *)
Definition session (n : nat) : list deploy_event := DBegin :: times n [DPrepare; DFinish] ++ [DEnd].

Lemma deploy_app e a b : deploy_run e (a ++ b) = let r := deploy_run e a in let rs := deploy_run r.2 b in (r.1 ++ rs.1, rs.2).
Proof.
  revert e. induction a as [|ev a IH]; intros e; cbn [app deploy_run]; [cbn [fst snd app]; by destruct (deploy_run e b)|]. rewrite IH. cbn [fst snd].
  by rewrite app_assoc.
Qed.

Lemma deploy_on e n : Multi e = MultiOn → deploy_run e (times n [DPrepare; DFinish]) = ([], e).
Proof.
  intros H. induction n as [|n IH]; [done|]. cbn [times app deploy_run deploy_step]. unfold PrepareForProbe, wrapper_FinishProbe.
  rewrite H. cbn [fst snd]. rewrite H. cbn [app]. by rewrite IH.
Qed.

Lemma deploy_off e n : Multi e = MultiOff → deploy_run e (times n [DPrepare; DFinish]) = (times n [true; false], e).
Proof.
  intros H. induction n as [|n IH]; [done|]. cbn [times app deploy_run deploy_step]. unfold PrepareForProbe, wrapper_FinishProbe.
  rewrite H. cbn [fst snd]. rewrite H. cbn [app]. by rewrite IH.
Qed.

(** A session lowers the probe once and raises it at its end, or for each sample if it is
    to be stowed between them; afterwards it is as before. *)
Theorem session_deploys e n : Multi e = MultiOff →
  deploy_run e (session (S n)) = (if StowOnEachSample e then times (S n) [true; false] else [true; false], e).
Proof.
  intros H. unfold session. cbn [deploy_run deploy_step fst snd app]. rewrite deploy_app. cbn [fst snd deploy_run deploy_step].
  unfold wrapper_BeginMultiProbe. destruct (StowOnEachSample e) eqn:Hs.
  - rewrite deploy_off by done. cbn [fst snd]. unfold wrapper_EndMultiProbe. rewrite Hs. cbn [fst snd]. by rewrite app_nil_r.
  - cbn [times]. rewrite deploy_app. cbn [deploy_run deploy_step PrepareForProbe set_multi Multi fst snd wrapper_FinishProbe app].
    rewrite deploy_on by done. destruct e. cbn in Hs, H. subst. by cbn.
Qed.

(** ** A machine with a probe *)

Record probing := mkProbing { b_machine : machine; b_core : PrinterProbe; b_wrapper : EndstopWrapper; b_deployed : list bool }.

Definition on_machine {A} (m : H machine A) : H probing A := λ w,
  let r := m (b_machine w) in (r.1, mkProbing r.2 (b_core w) (b_wrapper w) (b_deployed w)).

#[local] Instance probing_homing : HomingHost probing := {
  GetSteppers := m_names; CalcPosition m := lookup_f m <$> m_names; GetStepDist _ := f_lit 1 100; CalcPositionFromCoord := m_coord;
  GetMCUPosition s w := GetMCUPosition (HomingHost := machine_host) s (b_machine w);
  GetPastMCUPosition s t w := GetPastMCUPosition (HomingHost := machine_host) s t (b_machine w);
  GetCommandedPosition s w := m_coord s (m_cmd (b_machine w)); GetPosition w := m_pos (b_machine w);
  FlushStepGeneration := mret tt; GetLastMoveTime := mret f1; Dwell _ := mret tt; DripMove p _ _ := on_machine (m_drive p);; mret None;
  SetPosition p axes := on_machine (m_set p axes); Move p _ := on_machine (m_drive p); HomeStart _ _ _ _ _ _ := mret 0%nat;
  HomeWait n t := on_machine (HomeWait (HomingHost := machine_host) n t); Send_event _ := mret (∅, None); IsShutdown _ := false; Motor_off := mret tt
}.

Definition deploy (b : bool) : H probing unit := λ w, (inr tt, mkProbing (b_machine w) (b_core w) (b_wrapper w) (b_deployed w ++ [b])).

#[local] Instance probing_host : ProbeHost probing := {
  probe_core := b_core; set_core c w := mkProbing (b_machine w) c (b_wrapper w) (b_deployed w);
  wrapper := b_wrapper; set_wrapper e w := mkProbing (b_machine w) (b_core w) e (b_deployed w);
  HomedAxes _ := "xyz"%string;
  Manual_move coord _ := λ w, on_machine (m_drive (zip_with (λ c p, default p c) (coord ++ [None; None; None; None]) (m_pos (b_machine w)))) w;
  RunActivateGCode := deploy true; RunDeactivateGCode := deploy false
}.

Definition b_probe : PrinterProbe :=
  mkProbe (f_of_Z 5) (f_of_Z 5) f0 f0 f1 f0 false false f0 3 (f_of_Z 2) "median" (f_of_Z 100) 1 (fneg (f_of_Z 2)).
Definition b_endstop : NamedEndstop := mkEndstop "probe" ["stepper_z"].
Definition b_start (answers : list f64) : probing :=
  mkProbing (m_start answers) b_probe (mkWrapper f0 false MultiOff) [].

Definition b_command (params : gmap string string) : CommandParams := mkParams params "" "PROBE".

Lemma probe_result_from_samples_witness : ∃ r w' positions, RunProbeSequence false b_endstop (b_command ∅) (b_start [f1; f1; f1]) = (inr r, w') ∧
  length positions = 3%nat ∧ median_of positions r.
Proof.
  destruct (RunProbeSequence false b_endstop (b_command ∅) (b_start [f1; f1; f1])) as [[p|r] w'] eqn:E; [vm_compute in E; discriminate|].
  destruct (probe_result_from_samples false b_endstop (b_command ∅) (b_start [f1; f1; f1]) r w' E) as (s & w1 & w2 & w3 & positions & Hs & _ & _ & _ & _ & Hl & _ & Hr).
  assert (Hs' : s = mkSampling (f_of_Z 5) (f_of_Z 5) 3 (f_of_Z 2) (f_of_Z 100) 1 "median") by (vm_compute in Hs; injection Hs as <-; vm_compute; reflexivity).
  exists r, w', positions. split; [reflexivity|]. rewrite Hs' in Hl, Hr. split; [exact Hl|].
  unfold result_of in Hr. rewrite bool_decide_false in Hr by (intros ->; discriminate). exact Hr.
Defined.

(** ** Gaps *)

(** An abort of a manual probe gives an empty position and no nil, so that a session by
    hand at points takes it as a result and goes on. *)
Lemma aborted_probe_is_result {W} `{PH : ProbeHost W} finalize kinPos h (w : W) :
  HandleManualProbeResult finalize (Finalize false kinPos) h w = MoveNext finalize (AppendResult [] h) w.
Proof. done. Qed.

(** With a past height within a thousandth above, TESTZ Z=+ from 1.0005 goes down. *)
Lemma testz_up_goes_down :
  match cmdTestZ (mkManual [f1] []) (f_lit 10005 10000) (Some "+"%string) with Ret r => flt r.1 (f_lit 10005 10000) | Panic _ => false end = true.
Proof. vm_compute. reflexivity. Qed.

(** No samples: the smallest count is only logged, and the height is read from an empty
    position. *)
Lemma no_samples_panics : (HandleProbeCommand false b_endstop (b_command {["SAMPLES" := "0"%string]}) (b_start [])).1 = inl (PErr "index out of range").
Proof. vm_compute. reflexivity. Qed.
