(* ===== verification/Exclude.v ===== *)
(** * Excluding objects from a print

    [src/internal/addon/exclude_object.go] and [exclude_object_module.go]: a transform of
    the G-code moves that drops those of an object and joins the rest.  [E] is the state of
    the transform [next] below it, and [extruderName] the extruder in use; what is printed
    to the user, the outlines of objects, and the speed and the flag that are kept and never
    read, are left out. *)

From S2P Require Import Prelude GoFloat GoStrings GoState GcodeParse GcodeMove.

(** [copy(dst, src)]. *)
Definition copy {A} (dst src : list A) : list A := take (length dst) src ++ drop (length src) dst.


Record ExcludeObject := mkExclude {
  attached : bool;
  lastPositionExtruded : list f64;
  lastPositionExcluded : list f64;
  objects : list string;
  excludedObjects : list string;
  currentObject : string;
  inExcludedRegion : bool;
  ex_lastPosition : list f64;
  extrusionOffsets : gmap string (list f64);
  maxPositionExtruded : f64;
  maxPositionExcluded : f64;
  extruderAdj : f64;
  initialExtrusionMoves : Z
}.

Definition zeros : list f64 := [f0; f0; f0; f0].

Definition set_objects (objs excl : list string) (cur : string) (x : ExcludeObject) : ExcludeObject :=
  mkExclude (attached x) (lastPositionExtruded x) (lastPositionExcluded x) objs excl cur (inExcludedRegion x) (ex_lastPosition x) (extrusionOffsets x)
    (maxPositionExtruded x) (maxPositionExcluded x) (extruderAdj x) (initialExtrusionMoves x).
Definition set_region (b : bool) (x : ExcludeObject) : ExcludeObject :=
  mkExclude (attached x) (lastPositionExtruded x) (lastPositionExcluded x) (objects x) (excludedObjects x) (currentObject x) b (ex_lastPosition x) (extrusionOffsets x)
    (maxPositionExtruded x) (maxPositionExcluded x) (extruderAdj x) (initialExtrusionMoves x).
Definition set_offsets (extruderName : string) (o : list f64) (x : ExcludeObject) : ExcludeObject :=
  mkExclude (attached x) (lastPositionExtruded x) (lastPositionExcluded x) (objects x) (excludedObjects x) (currentObject x) (inExcludedRegion x) (ex_lastPosition x)
    (<[extruderName := o]> (extrusionOffsets x)) (maxPositionExtruded x) (maxPositionExcluded x) (extruderAdj x) (initialExtrusionMoves x).
Definition set_last (p : list f64) (x : ExcludeObject) : ExcludeObject :=
  mkExclude (attached x) (lastPositionExtruded x) (lastPositionExcluded x) (objects x) (excludedObjects x) (currentObject x) (inExcludedRegion x) p (extrusionOffsets x)
    (maxPositionExtruded x) (maxPositionExcluded x) (extruderAdj x) (initialExtrusionMoves x).
Definition set_extruded (p : list f64) (m : f64) (x : ExcludeObject) : ExcludeObject :=
  mkExclude (attached x) p (lastPositionExcluded x) (objects x) (excludedObjects x) (currentObject x) (inExcludedRegion x) (ex_lastPosition x) (extrusionOffsets x)
    m (maxPositionExcluded x) (extruderAdj x) (initialExtrusionMoves x).
Definition set_excluded (p : list f64) (m : f64) (x : ExcludeObject) : ExcludeObject :=
  mkExclude (attached x) (lastPositionExtruded x) p (objects x) (excludedObjects x) (currentObject x) (inExcludedRegion x) (ex_lastPosition x) (extrusionOffsets x)
    (maxPositionExtruded x) m (extruderAdj x) (initialExtrusionMoves x).
Definition set_adj (a : f64) (x : ExcludeObject) : ExcludeObject :=
  mkExclude (attached x) (lastPositionExtruded x) (lastPositionExcluded x) (objects x) (excludedObjects x) (currentObject x) (inExcludedRegion x) (ex_lastPosition x) (extrusionOffsets x)
    (maxPositionExtruded x) (maxPositionExcluded x) a (initialExtrusionMoves x).
Definition set_initial (n : Z) (x : ExcludeObject) : ExcludeObject :=
  mkExclude (attached x) (lastPositionExtruded x) (lastPositionExcluded x) (objects x) (excludedObjects x) (currentObject x) (inExcludedRegion x) (ex_lastPosition x) (extrusionOffsets x)
    (maxPositionExtruded x) (maxPositionExcluded x) (extruderAdj x) n.
Definition set_attached (b : bool) (initial : Z) (last : list f64) (x : ExcludeObject) : ExcludeObject :=
  mkExclude b (lastPositionExtruded x) (lastPositionExcluded x) (objects x) (excludedObjects x) (currentObject x) (inExcludedRegion x) last (extrusionOffsets x)
    f0 f0 f0 initial.

Definition NewExcludeObject : ExcludeObject := mkExclude false zeros zeros [] [] "" false [] ∅ f0 f0 f0 0.

Definition ResetState (x : ExcludeObject) : ExcludeObject := set_region false (set_objects [] [] "" x).

(** ** Objects *)

(** [sort.Slice] by name. *)
Definition AddObjectDefinition (name : string) (x : ExcludeObject) : ExcludeObject :=
  set_objects (sort_strings (objects x ++ [name])) (excludedObjects x) (currentObject x) x.
Definition ObjectExists (name : string) (x : ExcludeObject) : bool := bool_decide (name ∈ objects x).
Definition ObjectIsExcluded (name : string) (x : ExcludeObject) : bool := bool_decide (name ∈ excludedObjects x).

Definition StartObject (name : string) (x : ExcludeObject) : ExcludeObject :=
  let x := if ObjectExists name x then x else AddObjectDefinition name x in
  set_objects (objects x) (excludedObjects x) name x.

(** Whether the name was not that of the current object. *)
Definition EndObject (name : string) (x : ExcludeObject) : bool * ExcludeObject :=
  (negb (bool_decide (name = "")) && negb (bool_decide (name = currentObject x)), set_objects (objects x) (excludedObjects x) "" x).

Definition Exclude (name : string) (x : ExcludeObject) : ExcludeObject :=
  if ObjectIsExcluded name x then x else set_objects (objects x) (sort_strings (excludedObjects x ++ [name])) (currentObject x) x.

Fixpoint remove_first (name : string) (l : list string) : list string :=
  match l with
  | [] => []
  | y :: l => if bool_decide (y = name) then l else y :: remove_first name l
  end.
Definition Unexclude (name : string) (x : ExcludeObject) : ExcludeObject :=
  if ObjectIsExcluded name x then set_objects (objects x) (sort_strings (remove_first name (excludedObjects x))) (currentObject x) x else x.
Definition ClearExcluded (x : ExcludeObject) : ExcludeObject := set_objects (objects x) [] (currentObject x) x.

(** ** Moves *)

Definition offsets (extruderName : string) (x : ExcludeObject) : list f64 := default zeros (extrusionOffsets x !! extruderName).
Definition getExtrusionOffsets (extruderName : string) (x : ExcludeObject) : list f64 * ExcludeObject :=
  (offsets extruderName x, set_offsets extruderName (offsets extruderName x) x).

Definition testInExcludedRegion (x : ExcludeObject) : bool := negb (bool_decide (currentObject x = "")) && (initialExtrusionMoves x =? 0).

(** The first moves that extrude are counted. *)
Definition count_initial (newpos : list f64) (x : ExcludeObject) : go ExcludeObject :=
  if 0 <? initialExtrusionMoves x then
    l3 ← (ex_lastPosition x).[3]; n3 ← newpos.[3]; Ret (if feq l3 n3 then x else set_initial (initialExtrusionMoves x - 1) x)
  else Ret x.

(** What becomes of the offset and the pending extrusion for a move to [newpos], which is
    not dropped. *)
Definition settle_xy (newpos excluded offset : list f64) (adj : f64) : go (list f64 * f64) :=
  o0 ← offset.[0]; o1 ← offset.[1]; o3 ← offset.[3];
  n0 ← newpos.[0]; n1 ← newpos.[1]; e0 ← excluded.[0]; e1 ← excluded.[1];
  Ret (if (negb (feq o0 f0) || negb (feq o1 f0)) && (negb (feq n0 e0) || negb (feq n1 e1)) then ([f0; f0; f0; fadd o3 adj], f0) else (offset, adj)).
Definition settle_z (newpos excluded offset : list f64) : go (list f64) :=
  o2 ← offset.[2]; n2 ← newpos.[2]; e2 ← excluded.[2];
  Ret (if negb (feq o2 f0) && negb (feq n2 e2) then <[2%nat := f0]> offset else offset).
Definition settle_e (newpos excluded offset : list f64) (adj : f64) : go (list f64 * f64) :=
  o3 ← offset.[3]; n3 ← newpos.[3]; e3 ← excluded.[3];
  Ret (if negb (feq adj f0) && negb (feq n3 e3) then (<[3%nat := fadd o3 adj]> offset, f0) else (offset, adj)).
Definition settle (newpos excluded offset : list f64) (adj : f64) : go (list f64 * f64) :=
  r ← settle_xy newpos excluded offset adj; o ← settle_z newpos excluded r.1; settle_e newpos excluded o r.2.

Section Moves.
Context {E : Type} (next : transform E) (extruderName : string).
Local Abbreviation Store := (ExcludeObject * E)%type.

Definition ex_self : M Store ExcludeObject := gets fst.
Definition ex_upd (f : ExcludeObject → ExcludeObject) : M Store unit := modify (λ s, (f s.1, s.2)).
Definition below {A} (m : M E A) : M Store A := λ s, let r := m s.2 in (r.1, (s.1, r.2)).

Definition ex_GetPosition : M Store (list f64) :=
  x ← ex_self;
  if attached x then
    let r := getExtrusionOffsets extruderName x in
    ex_upd (λ _, r.2);;
    pos ← below (t_Get_position next);
    x ← ex_self;
    let last := if bool_decide (length (ex_lastPosition x) = length pos) then ex_lastPosition x else replicate (length pos) f0 in
    let last := copy last (zip_with fadd pos r.1) in
    ex_upd (set_last last);;
    mret last
  else mret [].

(** The start of a transform: five moves that extrude are never dropped.  [found] says
    that there is a transform below. *)
Definition AttachTransform (found : bool) : M Store unit :=
  ex_upd (set_attached found 5 zeros);;
  position ← ex_GetPosition;
  ex_upd (λ x, set_excluded (copy (lastPositionExcluded x) position) (maxPositionExcluded x) (set_extruded (copy (lastPositionExtruded x) position) (maxPositionExtruded x) x));;
  ex_upd (λ x, set_region false (set_last (copy (ex_lastPosition x) position) x)).

Definition DetachTransform : M Store unit := ex_upd (λ x, set_region false (set_attached false 0 [] x)).

Definition normalMove (newpos : list f64) (speed : f64) : M Store unit :=
  x ← ex_self;
  let r := getExtrusionOffsets extruderName x in
  let x := r.2 in
  x ← lift (count_initial newpos x);
  let last := copy (ex_lastPosition x) newpos in
  n3 ← lift (newpos.[3]);
  let x := set_extruded (copy (lastPositionExtruded x) last) (fmax (maxPositionExtruded x) n3) (set_last last x) in
  s ← lift (settle newpos (lastPositionExcluded x) r.1 (extruderAdj x));
  ex_upd (λ _, set_adj s.2 (set_offsets extruderName s.1 x));;
  below (t_Move next (copy newpos (zip_with fsub newpos s.1)) speed).

Definition ignoreMove (newpos : list f64) : M Store unit :=
  x ← ex_self;
  let r := getExtrusionOffsets extruderName x in
  let x := r.2 in
  let offset := copy r.1 (take 3 (zip_with fsub newpos (lastPositionExtruded x))) in
  o3 ← lift (offset.[3]); n3 ← lift (newpos.[3]); l3 ← lift ((ex_lastPosition x).[3]);
  let last := copy (ex_lastPosition x) newpos in
  ex_upd (λ _, set_excluded (copy (lastPositionExcluded x) last) (fmax (maxPositionExcluded x) n3)
                 (set_last last (set_offsets extruderName (<[3%nat := fsub (fadd o3 n3) l3]> offset) x))).

Definition moveIntoExcludedRegion (newpos : list f64) : M Store unit := ex_upd (set_region true);; ignoreMove newpos.

Definition moveFromExcludedRegion (newpos : list f64) (speed : f64) : M Store unit :=
  ex_upd (set_region false);;
  x ← ex_self;
  e3 ← lift ((lastPositionExcluded x).[3]); p3 ← lift ((lastPositionExtruded x).[3]);
  ex_upd (set_adj (fsub (fsub (maxPositionExcluded x) e3) (fsub (maxPositionExtruded x) p3)));;
  normalMove newpos speed.

Definition ex_Move (newpos : list f64) (speed : f64) : M Store unit :=
  x ← ex_self;
  if attached x then
    if testInExcludedRegion x then if inExcludedRegion x then ignoreMove newpos else moveIntoExcludedRegion newpos
    else if inExcludedRegion x then moveFromExcludedRegion newpos speed else normalMove newpos speed
  else mret tt.

Definition exclude_transform : transform Store := mkTransform ex_Move ex_GetPosition.

(** ** The module *)

(** [tower] says that a tuning tower is active, [toolhead] and [th_transform] are what the
    G-code state finds of the toolhead, and [next_here] is the transform below, as it sees it. *)
Local Abbreviation GStore := (GCodeMove Store * Store)%type.
Context (tower : bool) (toolhead th_transform : option (transform Store)).

Definition next_here : transform Store := mkTransform (λ p v, below (t_Move next p v)) (below (t_Get_position next)).

Definition registerTransform : M GStore unit :=
  x ← env ex_self;
  if attached x || tower then mret tt else old ← Set_move_transform toolhead th_transform exclude_transform true; env (AttachTransform (bool_decide (is_Some old))).

Definition unregisterTransform : M GStore (option string) :=
  x ← env ex_self;
  if negb (attached x) then mret None
  else if tower then mret (Some "The Exclude Object move transform was not unregistered because it is not at the head of the transform chain."%string)
  else
    _ ← Set_move_transform toolhead th_transform next_here true;
    env DetachTransform;; Reset_last_position;; mret None.

Definition handleResetFile : M GStore (option string) := env (ex_upd ResetState);; unregisterTransform.

Definition name_of (gcmd : CommandParams) (key : string) : go string := Get gcmd key (Value EmptyString).

Definition excludeObject (name : string) : M GStore unit := registerTransform;; env (ex_upd (Exclude name)).

Definition cmdExcludeObjectStart (gcmd : CommandParams) : M GStore unit :=
  name ← lift (name_of gcmd "NAME"); env (ex_upd (StartObject (ToUpper name))).

Definition cmdExcludeObjectEnd (gcmd : CommandParams) : M GStore unit :=
  x ← env ex_self;
  if bool_decide (currentObject x = "") && attached x then mret tt
  else name ← lift (name_of gcmd "NAME"); env (ex_upd (λ x, (EndObject (ToUpper name) x).2)).

Definition cmdExcludeObject (gcmd : CommandParams) : M GStore unit :=
  reset ← lift (name_of gcmd "RESET"); current ← lift (name_of gcmd "CURRENT"); name ← lift (name_of gcmd "NAME");
  let name := ToUpper name in
  if negb (bool_decide (reset = "")) then
    if negb (bool_decide (name = "")) then env (ex_upd (Unexclude name)) else env (ex_upd ClearExcluded)
  else if negb (bool_decide (name = "")) then
    x ← env ex_self; if ObjectIsExcluded name x then mret tt else excludeObject name
  else if negb (bool_decide (current = "")) then
    x ← env ex_self; if bool_decide (currentObject x = "") then mret tt else excludeObject (currentObject x)
  else mret tt.

(** EXCLUDE_OBJECT_DEFINE, without an outline. *)
Definition cmdExcludeObjectDefine (gcmd : CommandParams) : M GStore (option string) :=
  reset ← lift (name_of gcmd "RESET"); name ← lift (name_of gcmd "NAME");
  if negb (bool_decide (reset = "")) then handleResetFile
  else if bool_decide (name = "") then mret None
  else env (ex_upd (AddObjectDefinition name));; mret None.
End Moves.
