(* ===== verification/ExcludeThy.v ===== *)
(** * Excluding objects: what reaches the printer

    Theorems on [Exclude]: the moves of an object that is left out do not reach the
    transform below, the moves after it do, at their own coordinates and with the
    extrusion that was left out taken off; and whose moves the code drops. *)

From Stdlib Require Import Floats.SpecFloat.
From S2P Require Import Prelude GoFloat GoStrings GoState GcodeParse GcodeMove GcodeTrack Exclude.

Lemma fsub_0 x : fsub x f0 = x.
Proof. by destruct x as [[]| | |]. Qed.

Lemma copy_same {A} (dst src : list A) : length dst = length src → copy dst src = src.
Proof. intros H. unfold copy. rewrite H, firstn_all, <- H, drop_all. apply app_nil_r. Qed.

Section Moves.
Context {E : Type} (next : transform E) (ext : string).
Local Abbreviation Store := (ExcludeObject * E)%type.

(** A run of moves, each a position and a speed. *)
Definition run (t : list f64 → f64 → M Store unit) (ms : list (list f64 * f64)) : M Store unit := mfor ms (λ m, t m.1 m.2).
Definition run_next (ms : list (list f64 * f64)) : M E unit := mfor ms (λ m, t_Move next m.1 m.2).

Definition four (p : list f64) : Prop := length p = 4%nat.
Definition sound (x : ExcludeObject) : Prop :=
  attached x = true ∧ four (lastPositionExtruded x) ∧ four (lastPositionExcluded x) ∧ four (ex_lastPosition x) ∧ four (offsets ext x).

(** Nothing is being left out, and of what was, only extrusion is still to be taken off. *)
Definition clean (k : f64) (x : ExcludeObject) : Prop :=
  sound x ∧ inExcludedRegion x = false ∧ extruderAdj x = f0 ∧ offsets ext x = [f0; f0; f0; k].

(** A position with [k] of extrusion taken off. *)
Definition less (k : f64) (p : list f64) : list f64 := match p with [x; y; z; e] => [x; y; z; fsub e k] | _ => p end.

Lemma four_coords p : four p → ∃ a b c d, p = [a; b; c; d].
Proof. destruct p as [|a [|b [|c [|d [|? ?]]]]]; try done. eauto. Qed.

Lemma count_initial_returns p x : four p → four (ex_lastPosition x) → ∃ n, count_initial p x = Ret (set_initial n x).
Proof.
  intros Hp Hl. apply four_coords in Hp as (a & b & c & d & ->), Hl as (l0 & l1 & l2 & l3 & El). unfold count_initial.
  destruct (0 <? _); [|exists (initialExtrusionMoves x); by destruct x]. rewrite El.
  change ([l0; l1; l2; l3].[3]) with (Ret l3). change ([a; b; c; d].[3]) with (Ret d). cbn [mbind go_bind].
  destruct (feq l3 d); [exists (initialExtrusionMoves x); by destruct x|by eexists].
Qed.

Lemma settle_clean p e k : four p → four e → settle p e [f0; f0; f0; k] f0 = Ret ([f0; f0; f0; k], f0).
Proof. intros Hp He. apply four_coords in Hp as (a & b & c & d & ->), He as (? & ? & ? & ? & ->). done. Qed.

(** A move that is not dropped: the offset is settled, and taken off it. *)
Lemma normalMove_run p v x s o adj : sound x → four p → four o → settle p (lastPositionExcluded x) (offsets ext x) (extruderAdj x) = Ret (o, adj) → ∃ x',
  normalMove next ext p v (x, s) = ((t_Move next (zip_with fsub p o) v s).1, (x', (t_Move next (zip_with fsub p o) v s).2)) ∧
  sound x' ∧ inExcludedRegion x' = inExcludedRegion x ∧ extruderAdj x' = adj ∧ offsets ext x' = o ∧ currentObject x' = currentObject x.
Proof.
  intros (Ha & H1 & H2 & H3 & H4) Hp Ho Hs. unfold normalMove, mbind, M_bind, ex_self, gets, lift. cbn [fst snd getExtrusionOffsets].
  destruct (count_initial_returns p (set_offsets ext (offsets ext x) x) Hp) as [n ->]; [done|].
  pose proof Hp as (a & b & c & d & Ep)%four_coords. assert (Hd : p.[3] = Ret d) by (by rewrite Ep). rewrite Hd.
  cbn [lastPositionExcluded set_extruded set_last extruderAdj set_initial set_offsets]. rewrite Hs.
  unfold ex_upd, modify, below. cbn [fst snd]. rewrite (copy_same p) by (rewrite length_zip_with, Ho, Hp; done).
  eexists. split; [reflexivity|].
  match goal with |- sound ?y ∧ _ => assert (Hof : offsets ext y = o) by (unfold offsets; cbn; by rewrite lookup_insert_eq) end.
  unfold sound. rewrite Hof. clear Hof. cbn -[copy].
  assert (Hl : four (copy (ex_lastPosition x) p)) by (by rewrite copy_same; [|unfold four in *; congruence]).
  split_and!; try done. unfold four in *. rewrite copy_same; congruence.
Qed.

(** Where nothing is left out, a move goes through. *)
Lemma clean_move k x s p v : clean k x → currentObject x = "" → four p → ∃ x',
  ex_Move next ext p v (x, s) = ((t_Move next (less k p) v s).1, (x', (t_Move next (less k p) v s).2)) ∧ clean k x' ∧ currentObject x' = "".
Proof.
  intros (Hx & Hr & Hadj & Ho) Hc Hp. unfold ex_Move, mbind, M_bind, ex_self, gets. cbn [fst snd]. rewrite (proj1 Hx).
  unfold testInExcludedRegion. rewrite Hc, Hr, bool_decide_true by done. cbn [negb andb].
  destruct (normalMove_run p v x s [f0; f0; f0; k] f0) as (x' & -> & Hx' & Hr' & Ha' & Ho' & Hc'); [done..| |].
  { rewrite Ho, Hadj. apply settle_clean; [done|apply Hx]. }
  exists x'. assert (zip_with fsub p [f0; f0; f0; k] = less k p) as ->.
  { apply four_coords in Hp as (a & b & c & d & ->). cbn [zip_with less]. by rewrite !fsub_0. }
  split; [done|]. unfold clean. rewrite Hr', Hr, Hc'. done.
Qed.

Lemma clean_run k ms : Forall (λ m, four m.1) ms → ∀ x s, clean k x → currentObject x = "" → ∃ x',
  run (ex_Move next ext) ms (x, s) = ((run_next (prod_map (less k) id <$> ms) s).1, (x', (run_next (prod_map (less k) id <$> ms) s).2)).
Proof.
  induction 1 as [|[p v] ms Hp Hms IH]; intros x s Hx Hc; [by exists x|].
  destruct (clean_move k x s p v Hx Hc Hp) as (x1 & E1 & Hx1 & Hc1). unfold run, run_next in *. cbn [mfor fmap list_fmap fst snd prod_map].
  unfold mbind, M_bind. cbn [fst snd]. rewrite E1. cbn [id]. destruct (t_Move next (less k p) v s) as [[[]|w] s1]; cbn [fst snd]; [|by exists x1].
  apply IH; done.
Qed.

(** ** The moves of an object *)

Definition skipping (name : string) (x : ExcludeObject) : Prop := sound x ∧ currentObject x = name ∧ initialExtrusionMoves x = 0.

(** What is known of a run of dropped moves: [o] of extrusion is to be taken off, [l] is
    where the extruder should be, [top] how far it was. *)
Definition account := (f64 * f64 * f64)%type.
Definition note (r : account) (e : f64) : account := (fsub (fadd r.1.1 e) r.1.2, e, fmax r.2 e).

Definition accounts (r : account) (x : ExcludeObject) : Prop :=
  offsets ext x !! 3%nat = Some r.1.1 ∧ ex_lastPosition x !! 3%nat = Some r.1.2 ∧ maxPositionExcluded x = r.2.

Definition e_of (p : list f64) : f64 := default f0 (p !! 3%nat).

Lemma dropped_move name x s p v r : name ≠ "" → skipping name x → accounts r x → four p → ∃ x',
  ex_Move next ext p v (x, s) = (Ret tt, (x', s)) ∧ skipping name x' ∧ accounts (note r (e_of p)) x' ∧ inExcludedRegion x' = true ∧
  lastPositionExtruded x' = lastPositionExtruded x ∧ maxPositionExtruded x' = maxPositionExtruded x ∧ lastPositionExcluded x' = p ∧
  take 3 (offsets ext x') = take 3 (zip_with fsub p (lastPositionExtruded x)).
Proof.
  intros Hn ((Ha & H1 & H2 & H3 & H4) & Hc & Hi) (R1 & R2 & R3) Hp. unfold ex_Move, mbind, M_bind, ex_self, gets. cbn [fst snd]. rewrite Ha.
  unfold testInExcludedRegion. rewrite Hc, Hi, bool_decide_false by done. cbn [negb andb Z.eqb].
  assert (Hg : ∀ y, (attached y, lastPositionExtruded y, lastPositionExcluded y, ex_lastPosition y, offsets ext y, currentObject y, initialExtrusionMoves y, maxPositionExcluded y, maxPositionExtruded y) =
    (attached x, lastPositionExtruded x, lastPositionExcluded x, ex_lastPosition x, offsets ext x, currentObject x, initialExtrusionMoves x, maxPositionExcluded x, maxPositionExtruded x) →
    inExcludedRegion y = true → ∃ x', ignoreMove ext p (y, s) = (Ret tt, (x', s)) ∧ skipping name x' ∧ accounts (note r (e_of p)) x' ∧ inExcludedRegion x' = true ∧
    lastPositionExtruded x' = lastPositionExtruded x ∧ maxPositionExtruded x' = maxPositionExtruded x ∧ lastPositionExcluded x' = p ∧
    take 3 (offsets ext x') = take 3 (zip_with fsub p (lastPositionExtruded x))).
  { intros y [= Y1 Y2 Y3 Y4 Y5 Y6 Y7 Y8 Y9] Hy.
    apply four_coords in Hp as (a & b & c & d & ->), H1 as (e0 & e1 & e2 & e3 & E1), H2 as (x0 & x1 & x2 & x3 & E2), H3 as (l0 & l1 & l2 & l3 & E3), H4 as (o0 & o1 & o2 & o3 & E4).
    rewrite E4 in R1. rewrite E3 in R2. injection R1 as R1. injection R2 as R2.
    unfold ignoreMove, mbind, M_bind, ex_self, gets, lift. cbn [fst snd getExtrusionOffsets]. cbn [lastPositionExtruded set_offsets ex_lastPosition].
    rewrite Y5, E4, Y2, E1, Y4, E3.
    change (copy [o0; o1; o2; o3] (take 3 (zip_with fsub [a; b; c; d] [e0; e1; e2; e3]))) with ([fsub a e0; fsub b e1; fsub c e2; o3]).
    change ([fsub a e0; fsub b e1; fsub c e2; o3].[3]) with (Ret o3). change ([a; b; c; d].[3]) with (Ret d). change ([l0; l1; l2; l3].[3]) with (Ret l3).
    eexists. split; [reflexivity|].
    match goal with |- skipping _ ?z ∧ _ => assert (Hof : offsets ext z = [fsub a e0; fsub b e1; fsub c e2; fsub (fadd o3 d) l3]) by (unfold offsets; cbn; by rewrite !lookup_insert_eq) end.
    unfold skipping, sound, accounts. rewrite !Hof. cbn. rewrite Y1, Y2, Y3, Y6, Y7, Y8, Y9, Hy, E1, E2, Ha, Hc, Hi. cbn. rewrite R1, R2, R3. done. }
  destruct (inExcludedRegion x) eqn:Hr; [by apply Hg|].
  unfold moveIntoExcludedRegion, mbind, M_bind, ex_upd, modify. cbn [fst snd]. by apply Hg.
Qed.

Lemma run_app t a b s : run t (a ++ b) s = (run t a;; run t b) s.
Proof.
  revert s. induction a as [|m a IH]; intros s; [done|]. unfold run in *. cbn [app mfor]. unfold mbind, M_bind in *.
  destruct (t m.1 m.2 s) as [[[]|w] s1]; [apply IH|done].
Qed.

Lemma dropped_run name ms : name ≠ "" → Forall (λ m, four m.1) ms → ∀ x s r, skipping name x → accounts r x → ∃ x',
  run (ex_Move next ext) ms (x, s) = (Ret tt, (x', s)) ∧ skipping name x' ∧ accounts (foldl note r (e_of ∘ fst <$> ms)) x' ∧
  lastPositionExtruded x' = lastPositionExtruded x ∧ maxPositionExtruded x' = maxPositionExtruded x.
Proof.
  intros Hn. induction 1 as [|[p v] ms Hp Hms IH]; intros x s r Hx Hr; [by exists x|].
  destruct (dropped_move name x s p v r Hn Hx Hr Hp) as (x1 & E1 & Hx1 & Hr1 & _ & G1 & G2 & _).
  destruct (IH x1 s _ Hx1 Hr1) as (x' & E' & Hx' & Hr' & G1' & G2'). exists x'. unfold run in *. cbn [mfor]. unfold mbind at 1, M_bind at 1. cbn [fst snd].
  rewrite E1, E'. split_and!; [done|done|done|congruence..].
Qed.

(** Different in X or Y. *)
Definition apart (p q : list f64) : Prop := existsb (λ ab, negb (feq ab.1 ab.2)) (take 2 (zip p q)) = true.

Lemma settle_leaving q e o adj : four q → four e → four o → apart q e → apart o zeros → ∃ o3, o !! 3%nat = Some o3 ∧ settle q e o adj = Ret ([f0; f0; f0; fadd o3 adj], f0).
Proof.
  intros Hq He Ho H1 H2. apply four_coords in Hq as (a & b & c & d & ->), He as (e0 & e1 & e2 & e3 & ->), Ho as (o0 & o1 & o2 & o3 & ->).
  unfold apart in *. cbn [zip zip_with take existsb fst snd zeros] in *. rewrite orb_false_r in *. exists o3. split; [done|].
  unfold settle, settle_xy. change ([o0; o1; o2; o3].[0]) with (Ret o0). change ([o0; o1; o2; o3].[1]) with (Ret o1). change ([o0; o1; o2; o3].[3]) with (Ret o3).
  change ([a; b; c; d].[0]) with (Ret a). change ([a; b; c; d].[1]) with (Ret b). change ([e0; e1; e2; e3].[0]) with (Ret e0). change ([e0; e1; e2; e3].[1]) with (Ret e1).
  cbn [mbind go_bind]. rewrite H1, H2. done.
Qed.

(** The extrusion that is taken off after dropped moves to the extruder positions [es]: all
    of it, but for what is needed for the extruder to be as far back, from the furthest it
    was, as it should be. *)
Definition taken_off (k : f64) (x : ExcludeObject) (es : list f64) : f64 :=
  let r := foldl note (k, e_of (ex_lastPosition x), maxPositionExcluded x) es in
  fadd r.1.1 (fsub (fsub r.2 r.1.2) (fsub (maxPositionExtruded x) (e_of (lastPositionExtruded x)))).

(** An object, and the moves after it. *)
Definition object_then (name : string) (ms after : list (list f64 * f64)) : M Store unit :=
  ex_upd (StartObject name);; run (ex_Move next ext) ms;; ex_upd (λ x, (EndObject name x).2);; run (ex_Move next ext) after.

Lemma StartObject_keeps name x : name ≠ "" → ∃ objs, StartObject name x = set_objects objs (excludedObjects x) name x.
Proof. intros _. unfold StartObject, AddObjectDefinition. destruct (ObjectExists name x); eexists; done. Qed.

Lemma leaving_move name x s q v r : skipping name x → accounts r x → inExcludedRegion x = true → four q → apart q (lastPositionExcluded x) → apart (offsets ext x) zeros →
  lastPositionExcluded x !! 3%nat = Some r.1.2 →
  let k := fadd r.1.1 (fsub (fsub r.2 r.1.2) (fsub (maxPositionExtruded x) (e_of (lastPositionExtruded x)))) in
  ∃ x', ex_Move next ext q v (set_objects (objects x) (excludedObjects x) "" x, s) =
    ((t_Move next (less k q) v s).1, (x', (t_Move next (less k q) v s).2)) ∧ clean k x' ∧ currentObject x' = "".
Proof.
  intros ((Ha & H1 & H2 & H3 & H4) & Hc & Hi) (R1 & R2 & R3) Hr Hq Hap Hoz Hl. cbn zeta.
  unfold ex_Move, mbind, M_bind, ex_self, gets. cbn [fst snd attached set_objects]. rewrite Ha. unfold testInExcludedRegion. cbn [currentObject set_objects].
  rewrite bool_decide_true by done. cbn [negb andb inExcludedRegion set_objects]. rewrite Hr.
  unfold moveFromExcludedRegion, mbind, M_bind, ex_upd, ex_self, gets, modify, lift. cbn [fst snd lastPositionExcluded lastPositionExtruded set_region set_objects].
  rewrite (index_lookup _ 3 _ Hl : (lastPositionExcluded x).[3] = Ret r.1.2).
  assert (Hp3 : (lastPositionExtruded x).[3] = Ret (e_of (lastPositionExtruded x))) by (apply four_coords in H1 as (? & ? & ? & ? & ->); done).
  rewrite Hp3. cbn [maxPositionExcluded maxPositionExtruded set_region set_objects]. rewrite R3.
  set (adj := fsub (fsub r.2 r.1.2) _). set (x0 := set_adj adj _).
  destruct (settle_leaving q (lastPositionExcluded x) (offsets ext x) adj) as (o3 & Ho3 & Hs); [done..|].
  rewrite R1 in Ho3. injection Ho3 as <-.
  destruct (normalMove_run q v x0 s [f0; f0; f0; fadd r.1.1 adj] f0 ltac:(done) Hq ltac:(done) Hs) as (x' & -> & Hx' & Hr' & Ha' & Ho' & Hc').
  exists x'. assert (zip_with fsub q [f0; f0; f0; fadd r.1.1 adj] = less (fadd r.1.1 adj) q) as ->.
  { apply four_coords in Hq as (a & b & c & d & ->). cbn [zip_with less]. by rewrite !fsub_0. }
  split; [done|]. split; [|by rewrite Hc']. unfold clean. rewrite Hr'. done.
Qed.

(** C34. Once the transform is in use, its first five extruding moves are over and no offset
    but one of the extrusion is left from before: the moves between the start and the
    end of an object do not reach the transform below. If the last of them ends away, in
    X or Y, from the last position that was printed, and the next move ends away from it
    in X or Y, that move and those after it reach the transform below with their own X,
    Y and Z and with the extrusion of the object taken off. *)
Theorem excluded_object_is_skipped k x s name ms p vp q vq after : clean k x → currentObject x = "" → initialExtrusionMoves x = 0 → name ≠ "" →
  Forall (λ m, four m.1) (ms ++ [(p, vp)]) → Forall (λ m, four m.1) ((q, vq) :: after) →
  apart (zip_with fsub p (lastPositionExtruded x)) zeros → apart q p →
  let k' := taken_off k x (e_of ∘ fst <$> ms ++ [(p, vp)]) in
  let r := run_next (prod_map (less k') id <$> (q, vq) :: after) s in
  ∃ x', object_then name (ms ++ [(p, vp)]) ((q, vq) :: after) (x, s) = (r.1, (x', r.2)).
Proof.
  intros Hx Hc Hi Hn Hms Haf Hap1 Hap2. cbn zeta. apply Forall_app in Hms as [Hms [Hp _]%Forall_cons]. apply Forall_cons in Haf as [Hq Haf]. cbn [fst] in Hp, Hq.
  destruct Hx as (Hx & Hr & Hadj & Ho). unfold object_then. unfold mbind at 1, M_bind at 1, ex_upd at 1, modify at 1. cbn [fst snd].
  destruct (StartObject_keeps name x Hn) as [objs ->]. set (x0 := set_objects objs (excludedObjects x) name x).
  set (r0 := (k, e_of (ex_lastPosition x), maxPositionExcluded x) : account).
  assert (Hs0 : skipping name x0) by done.
  assert (Ha0 : accounts r0 x0).
  { unfold accounts. change (offsets ext x0) with (offsets ext x). rewrite Ho. split; [done|]. split; [|done]. cbn.
    destruct Hx as (_ & _ & _ & (? & ? & ? & ? & ->)%four_coords & _). done. }
  destruct (dropped_run name ms Hn Hms x0 s r0 Hs0 Ha0) as (x1 & E1 & Hs1 & Ha1 & G1 & G2).
  destruct (dropped_move name x1 s p vp _ Hn Hs1 Ha1 Hp) as (x2 & E2 & Hs2 & Ha2 & Hr2 & G3 & G4 & G5 & G6).
  unfold mbind at 1, M_bind at 1. rewrite run_app. unfold mbind at 1, M_bind at 1. rewrite E1. unfold run at 1. cbn [mfor fst snd].
  unfold mbind at 1, M_bind at 1. rewrite E2. cbn [mret M_ret]. unfold mbind at 1, M_bind at 1, ex_upd, modify. cbn [fst snd EndObject mret].
  unfold taken_off. fold r0. rewrite fmap_app, foldl_app.
  destruct (leaving_move name x2 s q vq _ Hs2 Ha2 Hr2 Hq) as (x3 & E3 & Hx3 & Hc3).
  { by rewrite G5. }
  { rewrite G1 in G6. destruct Hs2 as [(_ & _ & _ & _ & Ho2) _], Hx as (_ & Hex & _).
    apply four_coords in Ho2 as (o0 & o1 & o2 & o3 & Ho2), Hp as (a & b & c & d & ->), Hex as (e0 & e1 & e2 & e3 & He).
    change (lastPositionExtruded x0) with (lastPositionExtruded x) in G6. rewrite Ho2, He in *. cbn [zip_with take] in G6. injection G6 as -> -> _. exact Hap1. }
  { rewrite G5. apply four_coords in Hp as (a & b & c & d & ->). done. }
  rewrite G4, G2, G3, G1 in E3, Hx3. change (maxPositionExtruded x0) with (maxPositionExtruded x) in E3, Hx3.
  change (lastPositionExtruded x0) with (lastPositionExtruded x) in E3, Hx3.
  change (foldl note ?a (e_of ∘ fst <$> [(p, vp)])) with (note a (e_of p)). set (k' := fadd _ _) in *.
  unfold run, run_next. cbn [mfor fst snd fmap list_fmap prod_map]. unfold mbind, M_bind. cbn [fst snd]. rewrite E3. cbn [id].
  destruct (t_Move next (less k' q) vq s) as [[[]|w] s1]; cbn [fst snd]; [|by exists x3]. by apply clean_run.
Qed.

(** ** The transform under the G-code state *)

(** The last position agrees with [p], as far as both reach. *)
Definition believes (s : Store) (p : list f64) : Prop := attached s.1 = false ∨ copy (ex_lastPosition s.1) p = ex_lastPosition s.1.

Lemma copy_again {A} (dst src : list A) : copy (copy dst src) src = copy dst src.
Proof.
  unfold copy. rewrite length_app, length_take, length_drop. destruct (decide (length src ≤ length dst)%nat) as [H|H].
  - rewrite Nat.min_r by done. replace (length src + (length dst - length src))%nat with (length dst) by lia. f_equal.
    rewrite drop_app_ge by (rewrite length_take; lia). rewrite length_take, Nat.min_r, Nat.sub_diag by done. done.
  - rewrite Nat.min_l by lia. replace (length dst - length src)%nat with O by lia. rewrite Nat.add_0_r.
    rewrite (drop_ge dst) by lia. rewrite app_nil_r. rewrite drop_ge by (rewrite length_take; lia). by rewrite app_nil_r.
Qed.

Lemma ignoreMove_believes p s r s' : ignoreMove ext p s = (Ret r, s') → believes s' p.
Proof.
  unfold ignoreMove. intros E1. apply M_bind_inv in E1 as (x & s1 & [= <- <-] & E1). do 3 apply M_bind_inv in E1 as (? & ? & _ & E1).
  injection E1 as _ <-. right. apply copy_again.
Qed.

Lemma normalMove_believes p v s r s' : normalMove next ext p v s = (Ret r, s') → believes s' p.
Proof.
  unfold normalMove. intros E1. apply M_bind_inv in E1 as (x & s1 & _ & E1). apply M_bind_inv in E1 as (x1 & s2 & _ & E1).
  do 2 apply M_bind_inv in E1 as (? & ? & _ & E1). apply M_bind_inv in E1 as (? & s3 & E2 & E1). injection E2 as _ <-.
  unfold below in E1. injection E1 as _ <-. right. apply copy_again.
Qed.

(** The transform keeps the position that it was last asked for, whatever it did with it. *)
#[global] Instance exclude_tracked : Tracked (exclude_transform next ext) believes.
Proof.
  split.
  - intros p v s s' E1. cbn [t_Move exclude_transform] in E1. unfold ex_Move in E1. apply M_bind_inv in E1 as (x & s1 & [= <- <-] & E1).
    destruct (attached s.1) eqn:Ha; [|injection E1 as <-; by left]. destruct (testInExcludedRegion s.1), (inExcludedRegion s.1).
    + by eapply ignoreMove_believes.
    + apply M_bind_inv in E1 as (? & ? & _ & E1). by eapply ignoreMove_believes.
    + unfold moveFromExcludedRegion in E1. do 5 apply M_bind_inv in E1 as (? & ? & _ & E1). by eapply normalMove_believes.
    + by eapply normalMove_believes.
  - intros s p s' E1. cbn [t_Get_position exclude_transform] in E1. unfold ex_GetPosition in E1. apply M_bind_inv in E1 as (x & s1 & [= <- <-] & E1).
    destruct (attached s.1) eqn:Ha; [|injection E1 as _ <-; by left]. do 4 apply M_bind_inv in E1 as (? & ? & ?E & E1).
    injection E1 as <- <-. injection E4 as _ <-. right. cbn. apply copy_same. done.
Qed.

(** ** Gaps *)

(** The moves of an object are dropped though it is not excluded: once the transform is in
    use, those of every object are. *)
Lemma unexcluded_object_is_dropped name x s p v : name ≠ "" → skipping name x → ObjectIsExcluded name x = false → four p →
  ∃ x', ex_Move next ext p v (x, s) = (Ret tt, (x', s)).
Proof.
  intros Hn Hx _ Hp. destruct Hx as [Hx Hc]. pose proof Hx as (_ & _ & _ & (l0 & l1 & l2 & l3 & El)%four_coords & (o0 & o1 & o2 & o3 & Eo)%four_coords).
  destruct (dropped_move name x s p v (o3, l3, maxPositionExcluded x) Hn) as (x' & E1 & _); [done| |done|by exists x'].
  unfold accounts. rewrite Eo, El. done.
Qed.

Lemma detached_ignores x s p v : attached x = false → ex_Move next ext p v (x, s) = (Ret tt, (x, s)).
Proof. intros H. unfold ex_Move, mbind, M_bind, ex_self, gets. cbn [fst]. by rewrite H. Qed.
Lemma Exclude_attached name x : attached (Exclude name x) = attached x.
Proof. unfold Exclude. by destruct (ObjectIsExcluded name x). Qed.

(** With no transform of the G-code moves, as without a bed mesh, excluding an object puts a
    transform in their way that does nothing with them. *)
Lemma exclude_without_mesh_stops_motion name g x s th : moveTransform g = None → attached x = false → ∃ g' x' mv,
  excludeObject next ext false th None name (g, (x, s)) = (Ret tt, (g', (x', s))) ∧ moveWithTransform g' = Some mv ∧
  ∀ p v, mv p v (x', s) = (Ret tt, (x', s)).
Proof.
  intros Hg Ha. unfold excludeObject, registerTransform, mbind, M_bind, env, ex_self, gets. cbn [fst snd]. rewrite Ha. cbn [orb].
  unfold Set_move_transform, mbind, M_bind, self_, gets, upd_, modify. cbn [fst snd]. rewrite Hg. cbn [bool_decide decide is_Some_dec andb negb].
  assert (match th with Some _ => None | None => None end = None :> option (transform Store)) as -> by (by destruct th).
  eexists _, _, _. split; [reflexivity|]. split; [reflexivity|]. intros p v. apply detached_ignores. by rewrite Exclude_attached.
Qed.
End Moves.

(** ** A print *)

Definition log : Type := list (list f64 * f64).
Definition logger_transform : transform log := mkTransform (λ p v l, (Ret tt, l ++ [(p, v)])) (λ l, (Ret zeros, l)).
Definition at_x (z : Z) : list f64 := [f_of_Z z; f0; f0; f_of_Z z].
Definition printing : ExcludeObject := mkExclude true (at_x 5) zeros ["A"; "B"] ["A"] "" false (at_x 5) {["extruder" := zeros]} (f_of_Z 5) f0 f0 0.

Lemma excluded_object_is_skipped_witness : ∃ x',
  object_then logger_transform "extruder" "A" ([(at_x 7, f1)] ++ [(at_x 10, f1)]) [(at_x 11, f1); (at_x 12, f1)] (printing, []) =
  (Ret tt, (x', [([f_of_Z 11; f0; f0; f_of_Z 6], f1); ([f_of_Z 12; f0; f0; f_of_Z 7], f1)])).
Proof.
  destruct (excluded_object_is_skipped logger_transform "extruder" f0 printing [] "A" [(at_x 7, f1)] (at_x 10) f1 (at_x 11) f1 [(at_x 12, f1)]) as [x' E].
  - by repeat split.
  - reflexivity.
  - reflexivity.
  - discriminate.
  - repeat constructor.
  - repeat constructor.
  - vm_compute. reflexivity.
  - vm_compute. reflexivity.
  - exists x'. etransitivity; [exact E|]. vm_compute. reflexivity.
Defined.

(** The object B is not excluded, and is not printed. *)
Lemma other_object_not_printed :
  match object_then logger_transform "extruder" "B" [(at_x 7, f1); (at_x 10, f1)] [] (printing, []) with (Ret _, (x, l)) => bool_decide (l = []) && negb (ObjectIsExcluded "B" x) | _ => false end = true.
Proof. vm_compute. reflexivity. Qed.
