(* ===== verification/Buttons.v ===== *)
(** * Buttons and encoders

    [src/internal/pkg/io/buttons.go]: buttons that a micro-controller watches, whose reports
    it repeats until they are acknowledged; buttons read as a voltage; rotary encoders.
    A callback is the position at which it was registered, and what is called is listed. *)

From S2P Require Import Prelude GoFloat.

(** ** Buttons of a micro-controller *)

Module Digital.
Record button_callback := mkCallback { mask : Z; shift : Z }.

Record DigitalButtonState := mkDigital {
  pinCount : Z;
  invertMask : Z;
  lastButton : Z;
  ackCount : Z;
  callbacks : list button_callback
}.

Definition NewDigitalButtonState : DigitalButtonState := mkDigital 0 0 0 0 [].

(** One pin after the other: the mask of those seen, and the state. *)
Definition add_pin (r : Z * DigitalButtonState) (invert : bool) : Z * DigitalButtonState :=
  let s := r.2 in
  let bit := Z.shiftl 1 (pinCount s) in
  (Z.lor r.1 bit, mkDigital (pinCount s + 1) (if invert then Z.lor (invertMask s) bit else invertMask s) (lastButton s) (ackCount s) (callbacks s)).

Definition AddPins (pins : list bool) (s : DigitalButtonState) : DigitalButtonState :=
  let r := foldl add_pin (0, s) pins in
  mkDigital (pinCount r.2) (invertMask r.2) (lastButton r.2) (ackCount r.2) (callbacks r.2 ++ [mkCallback r.1 (pinCount s)]).

(** How far the count of the report is behind, from its low byte. *)
Definition ack_diff (ackCount msgAckCount : Z) : Z :=
  let d := Z.land (ackCount - msgAckCount) 255 in if Z.land d 128 =? 0 then d else d - 256.

(** The acknowledgement that is sent, if any, and the buttons that are handled. *)
Definition HandleButtonsState (msgAckCount : Z) (buttons : list Z) (s : DigitalButtonState) : go (option Z * list Z * DigitalButtonState) :=
  let fullAckCount := ackCount s - ack_diff (ackCount s) msgAckCount in
  let newCount := fullAckCount + len buttons - ackCount s in
  if newCount <=? 0 then Ret (None, [], s)
  else
    newButtons ← slice buttons (len buttons - newCount) (len buttons);
    Ret (Some newCount, newButtons, mkDigital (pinCount s) (invertMask s) (lastButton s) (ackCount s + newCount) (callbacks s)).

(** The callbacks that are called, each with its part of the buttons. *)
Definition HandleButton (button : Z) (s : DigitalButtonState) : list (nat * Z) * DigitalButtonState :=
  let button := Z.lxor button (invertMask s) in
  let changed := Z.lxor button (lastButton s) in
  (omap (λ ic, if Z.land changed (mask ic.2) =? 0 then None else Some (ic.1, Z.shiftr (Z.land button (mask ic.2)) (shift ic.2)))
     (zip (seq 0 (length (callbacks s))) (callbacks s)),
   mkDigital (pinCount s) (invertMask s) button (ackCount s) (callbacks s)).
End Digital.

(** ** Buttons read as a voltage *)

Module Adc.
Record ADCButtonState := mkAdc {
  buttons : list (f64 * f64);
  lastButton : Z;
  lastPressed : Z;
  lastDebounceTime : f64;
  pullup : f64;
  minValue : f64;
  maxValue : f64;
  debounceTime : f64
}.

Definition NewADCButtonState (pullup debounceTime : f64) : ADCButtonState :=
  mkAdc [] (-1) (-1) f0 pullup (f_lit 9999999999999 10) f0 debounceTime.

Definition AddButton (lo hi : f64) (s : ADCButtonState) : ADCButtonState :=
  mkAdc (buttons s ++ [(lo, hi)]) (lastButton s) (lastPressed s) (lastDebounceTime s) (pullup s) (fmin (minValue s) lo) (fmax (maxValue s) hi) (debounceTime s).

(** The resistance that was read, and the first button that has it. *)
Definition resistance (s : ADCButtonState) (readValue : f64) : f64 :=
  let adc := fmax (f_lit 1 100000) (fmin (f_lit 99999 100000) readValue) in fdiv (fmul (pullup s) adc) (fsub f1 adc).

Definition button_of (s : ADCButtonState) (value : f64) : Z :=
  if fle (minValue s) value && fle value (maxValue s) then
    match list_find (λ b, flt (b : f64 * f64).1 value && flt value b.2 = true) (buttons s) with Some (i, _) => Z.of_nat i | None => -1 end
  else -1.

(** The callbacks that are called: a button, and whether it is pressed. *)
Definition ADCCallback (readTime readValue : f64) (s : ADCButtonState) : list (Z * bool) * ADCButtonState :=
  let buttonIndex := button_of s (resistance s readValue) in
  let lastDebounce := if buttonIndex =? lastButton s then lastDebounceTime s else readTime in
  let out := if flt (debounceTime s) (fsub readTime lastDebounce) && (lastButton s =? buttonIndex) && negb (lastPressed s =? buttonIndex) then
               let rel := if 0 <=? lastPressed s then ([(lastPressed s, false)], -1) else ([], lastPressed s) in
               if 0 <=? buttonIndex then (rel.1 ++ [(buttonIndex, true)], buttonIndex) else rel
             else ([], lastPressed s) in
  (out.1, mkAdc (buttons s) buttonIndex out.2 lastDebounce (pullup s) (minValue s) (maxValue s) (debounceTime s)).
End Adc.

(** ** Rotary encoders *)

Module Encoder.
Definition rStart : Z := 0.
Definition rDirCW : Z := 16.
Definition rDirCCW : Z := 32.
Definition rDirMask : Z := 48.

Record RotaryEncoder := mkEncoder { encoderState : Z; states : list (list Z) }.

(** Clockwise ([1]), counter-clockwise ([-1]) or no callback. *)
Definition Encoder_callback (state : Z) (e : RotaryEncoder) : go (Z * RotaryEncoder) :=
  row ← (states e).[Z.land (encoderState e) 15];
  es ← row.[Z.land state 3];
  Ret (if Z.land es rDirMask =? rDirCW then 1 else if Z.land es rDirMask =? rDirCCW then -1 else 0, mkEncoder es (states e)).

(** The states: clockwise final, begin and next; counter-clockwise begin, final and next. *)
Definition full_states : list (list Z) :=
  [[rStart; 2; 4; rStart];
   [3; rStart; 1; Z.lor rStart rDirCW];
   [3; 2; rStart; rStart];
   [3; 2; 1; rStart];
   [6; rStart; 4; rStart];
   [6; 5; rStart; Z.lor rStart rDirCCW];
   [6; 5; 4; rStart]].

(** Counter-clockwise and clockwise begin; the same from the middle. *)
Definition rStartM : Z := 3.
Definition half_states : list (list Z) :=
  [[rStartM; 2; 1; rStart];
   [Z.lor rStartM rDirCCW; rStart; 1; rStart];
   [Z.lor rStartM rDirCW; 2; rStart; rStart];
   [rStartM; 5; 4; rStart];
   [rStartM; rStartM; 4; Z.lor rStart rDirCW];
   [rStartM; 5; rStartM; Z.lor rStart rDirCCW]].

Definition NewFullStepRotaryEncoder : RotaryEncoder := mkEncoder rStart full_states.
Definition NewHalfStepRotaryEncoder : RotaryEncoder := mkEncoder rStart half_states.

Definition RegisterRotaryEncoder (stepsPerDetent : Z) : go RotaryEncoder :=
  if stepsPerDetent =? 2 then Ret NewHalfStepRotaryEncoder
  else if stepsPerDetent =? 4 then Ret NewFullStepRotaryEncoder
  else Panic "steps per detent not supported".
End Encoder.
