(* ===== verification/ButtonsThy.v ===== *)
(** * Buttons and encoders count right

    Theorems on [Buttons]: every state of the buttons that a micro-controller reports is
    handled once and in order, however often reports are repeated; an encoder counts
    exactly the detents it was turned by; presses and releases of buttons alternate and
    have lasted for the debouncing time. *)

From S2P Require Import Prelude GoFloat Buttons.

(** ** Reports are handled once *)

Section Reports.
Import Digital.

Lemma ack_diff_small a b : 0 ≤ a - b ≤ 127 → ack_diff a (b mod 256) = a - b.
Proof.
  intros H. unfold ack_diff.
  assert (E : Z.land (a - b mod 256) 255 = a - b).
  { change 255 with (Z.ones 8). rewrite Z.land_ones by lia. change (2 ^ 8) with 256.
    replace (a - b mod 256) with ((a - b) + (b / 256) * 256) by dlia. rewrite Z.mod_add by lia. apply Z.mod_small. lia. }
  rewrite E. assert (Z.land (a - b) 128 = 0) as ->; [|done].
  change 128 with (2 ^ 7). apply Z.bits_inj_0. intros i. rewrite Z.land_spec, Z.pow2_bits_eqb by lia.
  destruct (Z.eqb_spec 7 i) as [<-|]; [|by rewrite andb_false_r]. rewrite andb_true_r. apply Z.testbit_false; [lia|].
  rewrite Z.div_small by lia. done.
Qed.

(** What the micro-controller has seen, [L]; a report starts at the state [A] of it, has
    [m] of them and the low byte of [A]. *)
Context (L : list Z).

Definition report (r : nat * nat) (s : DigitalButtonState) : go (option Z * list Z * DigitalButtonState) :=
  HandleButtonsState (Z.of_nat r.1 mod 256) (take r.2 (drop r.1 L)) s.

(** A report starts at a state not yet acknowledged when it was made, and not too long ago. *)
Fixpoint plausible (n : nat) (rs : list (nat * nat)) : Prop :=
  match rs with
  | [] => True
  | (A, m) :: rs => (A ≤ n ≤ A + 127 ∧ A + m ≤ length L)%nat ∧ plausible (n `max` (A + m)) rs
  end.

Fixpoint reports (rs : list (nat * nat)) (s : DigitalButtonState) : go (list Z * list Z * DigitalButtonState) :=
  match rs with
  | [] => Ret ([], [], s)
  | r :: rs =>
      a ← report r s; b ← reports rs a.2;
      Ret (match a.1.1 with Some c => c :: b.1.1 | None => b.1.1 end, a.1.2 ++ b.1.2, b.2)
  end.

Definition count_of (s : DigitalButtonState) : nat := Z.to_nat (ackCount s).

Lemma report_step A m s : 0 ≤ ackCount s → (A ≤ count_of s ≤ A + 127)%nat → (A + m ≤ length L)%nat → ∃ c s',
  report (A, m) s = Ret (c, take (count_of s `max` (A + m) - count_of s) (drop (count_of s) L), s') ∧
  ackCount s' = Z.of_nat (count_of s `max` (A + m)) ∧ default 0 c = ackCount s' - ackCount s.
Proof.
  intros H0 Ha Hm. unfold report, HandleButtonsState, count_of in *. cbn [fst snd].
  rewrite (ack_diff_small (ackCount s) (Z.of_nat A)) by lia. assert (Hl : length (take m (drop A L)) = m) by (rewrite length_take, length_drop; lia). unfold len. rewrite Hl.
  destruct (Z.leb_spec (ackCount s - (ackCount s - Z.of_nat A) + Z.of_nat m - ackCount s) 0) as [Hle|Hgt].
  - exists None, s. rewrite Nat.max_l by lia. rewrite Nat.sub_diag. cbn. split_and!; [done|lia..].
  - unfold slice. rewrite Hl, bool_decide_true by lia. cbn [mbind go_bind].
    set (c := (A + m - Z.to_nat (ackCount s))%nat).
    replace (ackCount s - (ackCount s - Z.of_nat A) + Z.of_nat m - ackCount s) with (Z.of_nat c) by lia.
    replace (Z.to_nat (Z.of_nat m - (Z.of_nat m - Z.of_nat c))) with c by lia. replace (Z.to_nat (Z.of_nat m - Z.of_nat c)) with (m - c)%nat by lia.
    rewrite skipn_firstn_comm, take_take, drop_drop, Nat.min_l by lia. replace (A + (m - c))%nat with (Z.to_nat (ackCount s)) by lia.
    rewrite Nat.max_r by lia. eexists (Some _), _. split; [reflexivity|]. cbn. lia.
Qed.

Lemma take_more {A} (l : list A) n k : take n l ++ take (k - n) (drop n l) = take (n `max` k) l.
Proof.
  destruct (decide (n ≤ k)%nat).
  - rewrite Nat.max_r by done. rewrite <- (take_drop n (take k l)) at 1. rewrite take_take, Nat.min_l by done. by rewrite skipn_firstn_comm.
  - rewrite Nat.max_l by lia. replace (k - n)%nat with O by lia. apply app_nil_r.
Qed.

(** C35. However often a micro-controller repeats its reports, with their eight-bit counts,
    every state of the buttons up to the last reported is handled once and in order, and
    the acknowledgements add up. *)
Theorem buttons_handled_once rs s : ackCount s = 0 → plausible 0 rs → ∃ acks handled s',
  reports rs s = Ret (acks, handled, s') ∧ handled = take (count_of s') L ∧ ackCount s' = foldr Z.add 0 acks ∧
  count_of s' = foldl (λ n r, n `max` (r.1 + r.2))%nat O rs.
Proof.
  intros H0 Hp.
  assert (Hg : ∀ rs s, 0 ≤ ackCount s → plausible (count_of s) rs → ∃ acks handled s', reports rs s = Ret (acks, handled, s') ∧
    take (count_of s) L ++ handled = take (count_of s') L ∧ ackCount s' = ackCount s + foldr Z.add 0 acks ∧
    count_of s' = foldl (λ n r, n `max` (r.1 + r.2))%nat (count_of s) rs).
  { clear. induction rs as [|[A m] rs IH]; intros s H0 Hp; [exists [], [], s; cbn; rewrite app_nil_r; split_and!; [done..|lia|done]|].
    destruct Hp as [[Ha Hm] Hp]. destruct (report_step A m s H0 Ha Hm) as (c & s1 & E1 & Hs1 & Hc).
    assert (Hn : count_of s1 = (count_of s `max` (A + m))%nat) by (unfold count_of in *; lia). rewrite <- Hn in Hp.
    destruct (IH s1 ltac:(lia) Hp) as (acks & handled & s' & E2 & Hh & Ha' & Hf). cbn [reports foldl fst snd]. rewrite E1. cbn [mbind go_bind fst snd]. rewrite E2.
    eexists _, _, s'. split; [reflexivity|]. rewrite app_assoc, take_more. rewrite <- Hn.
    split_and!; [rewrite Nat.max_r; [exact Hh|]|destruct c; cbn in *; lia|exact Hf]. lia. }
  destruct (Hg rs s ltac:(lia)) as (acks & handled & s' & E & Hh & Ha & Hf); [by replace (count_of s) with O by (unfold count_of; lia)|].
  assert (Hz : count_of s = O) by (unfold count_of; lia). rewrite Hz in Hh, Hf. exists acks, handled, s'. split_and!; [done|done|lia|done].
Qed.
End Reports.

(** ** Encoders *)

Section Encoders.
Import Encoder.

(** The two pins of an encoder that was turned by [p] steps. *)
Definition pins (p : Z) : Z := match p mod 4 with 0 => 3 | 1 => 1 | 2 => 0 | _ => 2 end.

(** The callbacks, net, along the positions of a turn. *)
Fixpoint turn (ps : list Z) (e : RotaryEncoder) : go (Z * RotaryEncoder) :=
  match ps with
  | [] => Ret (0, e)
  | p :: ps => r ← Encoder_callback (pins p) e; r' ← turn ps r.2; Ret (r.1 + r'.1, r'.2)
  end.

(** From [p], by single steps. *)
Fixpoint walk (p : Z) (ps : list Z) : Prop :=
  match ps with [] => True | q :: ps => -1 ≤ q - p ≤ 1 ∧ walk q ps end.

(** How far from a detent each state is. *)
Definition full_offset (s : Z) : option Z :=
  match s with 0 => Some 0 | 2 => Some 1 | 3 => Some 2 | 1 => Some 3 | 4 => Some (-1) | 6 => Some (-2) | 5 => Some (-3) | _ => None end.
Definition half_offset (p s : Z) : option Z :=
  match p mod 4 with
  | 0 => match s with 0 => Some 0 | _ => None end
  | 1 => match s with 2 => Some 1 | 5 => Some (-1) | _ => None end
  | 2 => match s with 3 => Some 0 | _ => None end
  | _ => match s with 4 => Some 1 | 1 => Some (-1) | _ => None end
  end.

(** Evaluates the offset of a known state. *)
Ltac eval_offset := match goal with |- ?x = Some _ => let v := eval vm_compute in x in change x with v end.

Ltac eval_mods := repeat match goal with
  | H : context [?a `mod` 4] |- _ => let v := eval vm_compute in (a `mod` 4) in change (a `mod` 4) with v in H
  | |- context [?a `mod` 4] => let v := eval vm_compute in (a `mod` 4) in change (a `mod` 4) with v
  end.

Definition full_at (p c : Z) (e : RotaryEncoder) : Prop :=
  states e = full_states ∧ full_offset (Z.land (encoderState e) 15) = Some (p - 4 * c).

Lemma full_step p q c e : full_at p c e → -1 ≤ q - p ≤ 1 → ∃ d e', Encoder_callback (pins q) e = Ret (d, e') ∧ full_at q (c + d) e'.
Proof.
  intros [Hs Ho] Hq. unfold full_at, Encoder_callback. rewrite Hs. set (s := Z.land (encoderState e) 15) in *.
  assert (Hc : s = 0 ∨ s = 1 ∨ s = 2 ∨ s = 3 ∨ s = 4 ∨ s = 5 ∨ s = 6).
  { unfold full_offset in Ho. repeat (case_match; try discriminate; try (by auto 10)). }
  assert (Hp : pins q = pins (p - 4 * c + (q - p))) by (unfold pins; replace (p - 4 * c + (q - p)) with (q + (- c) * 4) by lia; by rewrite Z.mod_add by lia).
  rewrite Hp. assert (Hd : q - p = -1 ∨ q - p = 0 ∨ q - p = 1) by lia.
  destruct Hc as [Es|[Es|[Es|[Es|[Es|[Es|Es]]]]]]; rewrite Es in *; injection Ho as Ho; rewrite <- Ho;
    destruct Hd as [Hd|[Hd|Hd]]; rewrite Hd; eexists _, _; (split; [vm_compute; reflexivity|split; [reflexivity|eval_offset; f_equal; lia]]).
Qed.

(** The half-step encoder has a detent every two steps. *)
Definition half_at (p c : Z) (e : RotaryEncoder) : Prop :=
  states e = half_states ∧ half_offset p (Z.land (encoderState e) 15) = Some (p - 2 * c).

Lemma half_step p q c e : half_at p c e → -1 ≤ q - p ≤ 1 → ∃ d e', Encoder_callback (pins q) e = Ret (d, e') ∧ half_at q (c + d) e'.
Proof.
  intros [Hs Ho] Hq. unfold half_at, Encoder_callback. rewrite Hs. set (s := Z.land (encoderState e) 15) in *.
  assert (Hm : ∃ k r, p = r + k * 4 ∧ (r = 0 ∨ r = 1 ∨ r = 2 ∨ r = 3)) by (exists (p / 4), (p mod 4); split; dlia).
  destruct Hm as (k & r & -> & Hr). assert (Hd : q - (r + k * 4) = -1 ∨ q - (r + k * 4) = 0 ∨ q - (r + k * 4) = 1) by lia.
  assert (Hqq : q = (r + (q - (r + k * 4))) + k * 4) by lia. rewrite Hqq. clear Hqq. unfold half_offset, pins in *. rewrite !Z.mod_add in * by lia.
  destruct Hr as [->|[->|[->| ->]]]; destruct Hd as [Hd|[Hd|Hd]]; rewrite Hd in *; eval_mods; cbv beta iota in Ho;
    (repeat match type of Ho with context [match ?x with _ => _ end] => destruct x eqn:?; try discriminate Ho end); injection Ho as Ho; eexists _, _; (split; [vm_compute; reflexivity|split; [reflexivity|eval_offset; f_equal; lia]]).
Qed.

(** A turn along which each step keeps [at_ p c e]. *)
Lemma turn_follows (at_ : Z → Z → RotaryEncoder → Prop) :
  (∀ p q c e, at_ p c e → -1 ≤ q - p ≤ 1 → ∃ d e', Encoder_callback (pins q) e = Ret (d, e') ∧ at_ q (c + d) e') →
  ∀ ps p c e, at_ p c e → walk p ps → ∃ d e', turn ps e = Ret (d, e') ∧ at_ (List.last ps p) (c + d) e'.
Proof.
  intros Hstep. induction ps as [|q ps IH]; intros p c e Ha Hw; [exists 0, e; by rewrite Z.add_0_r|].
  destruct Hw as [Hq Hw]. destruct (Hstep p q c e Ha Hq) as (d & e1 & E1 & Ha1). destruct (IH q (c + d) e1 Ha1 Hw) as (d' & e' & E' & Ha').
  exists (d + d'), e'. cbn [turn]. rewrite E1. cbn [mbind go_bind fst snd]. rewrite E'. split; [done|].
  replace (List.last (q :: ps) p) with (List.last ps q) by (clear; destruct ps as [|x ps]; [done|]; revert x; induction ps; intros; [done|]; apply IHps).
  by replace (c + (d + d')) with (c + d + d') by lia.
Qed.

(** An encoder, of four or two steps to a detent, that is turned by single steps however
    often back and forth: it never stops working, the clockwise callbacks less the
    counter-clockwise ones are off by less than one detent, and at a detent exact. *)
Theorem encoder_counts_detents steps e ps : RegisterRotaryEncoder steps = Ret e → walk 0 ps → ∃ d e',
  turn ps e = Ret (d, e') ∧ Z.abs (List.last ps 0 - steps * d) < steps ∧ (List.last ps 0 mod steps = 0 → List.last ps 0 = steps * d).
Proof.
  intros Hr Hw. unfold RegisterRotaryEncoder in Hr. destruct (Z.eqb_spec steps 2) as [->|]; [|destruct (Z.eqb_spec steps 4) as [->|]; [|done]]; injection Hr as <-.
  - destruct (turn_follows half_at half_step ps 0 0 NewHalfStepRotaryEncoder) as (d & e' & E & _ & Ho); [done|done|]. exists d, e'. split; [done|].
    rewrite Z.add_0_l in Ho. unfold half_offset in Ho.
    assert (Hb : Z.abs (List.last ps 0 - 2 * d) < 2) by (repeat (case_match; try discriminate); injection Ho; lia).
    split; [done|]. intros Hm. assert (List.last ps 0 mod 4 = 0 ∨ List.last ps 0 mod 4 = 2) as [H4|H4] by dlia; rewrite H4 in Ho;
      repeat (case_match; try discriminate); injection Ho; lia.
  - destruct (turn_follows full_at full_step ps 0 0 NewFullStepRotaryEncoder) as (d & e' & E & _ & Ho); [done|done|]. exists d, e'. split; [done|].
    rewrite Z.add_0_l in Ho. assert (Hb : Z.abs (List.last ps 0 - 4 * d) < 4) by (unfold full_offset in Ho; repeat (case_match; try discriminate); injection Ho; lia).
    split; [done|]. dlia.
Qed.
End Encoders.

(** ** Buttons read as a voltage *)

Section Voltage.
Import Adc.

(** The callbacks of a series of readings. *)
Fixpoint readings (rs : list (f64 * f64)) (s : ADCButtonState) : list (Z * bool) * ADCButtonState :=
  match rs with
  | [] => ([], s)
  | (t, v) :: rs => let r := ADCCallback t v s in let r' := readings rs r.2 in (r.1 ++ r'.1, r'.2)
  end.

(** Presses and releases of single buttons in turn: the button that is held, if any. *)
Definition hold (held : option (option Z)) (ev : Z * bool) : option (option Z) :=
  match held, ev with
  | Some None, (b, true) => Some (Some b)
  | Some (Some b), (b', false) => if b =? b' then Some None else None
  | _, _ => None
  end.

Definition held_by (s : ADCButtonState) : option (option Z) := Some (if 0 <=? lastPressed s then Some (lastPressed s) else None).

Definition pressed_ok (s : ADCButtonState) : Prop := -1 ≤ lastPressed s.

Lemma button_of_range s v : -1 ≤ button_of s v.
Proof. unfold button_of. destruct (_ && _); [|lia]. destruct (list_find _ _) as [[i ?]|]; lia. Qed.

Lemma callback_holds t v s : pressed_ok s → foldl hold (held_by s) (ADCCallback t v s).1 = held_by (ADCCallback t v s).2 ∧ pressed_ok (ADCCallback t v s).2.
Proof.
  intros H. unfold ADCCallback, held_by, pressed_ok in *. pose proof (button_of_range s (resistance s v)) as Hb. set (b := button_of _ _) in *. clearbody b.
  destruct (_ && _ && _) eqn:E; cbn [fst snd lastPressed]; [|done]. clear E.
  destruct (Z.leb_spec 0 (lastPressed s)), (Z.leb_spec 0 b); cbn [fst snd foldl app hold]; rewrite ?Z.eqb_refl.
  - rewrite (proj2 (Z.leb_le 0 b)) by done. done.
  - done.
  - by rewrite (proj2 (Z.leb_le 0 b)).
  - by rewrite (proj2 (Z.leb_gt 0 (lastPressed s))).
Qed.

(** Over any readings, what is called is presses and releases of single buttons in turn,
    and the button that is held is the one that the state has. *)
Theorem presses_and_releases_alternate rs s : pressed_ok s → foldl hold (held_by s) (readings rs s).1 = held_by (readings rs s).2.
Proof.
  revert s. induction rs as [|[t v] rs IH]; intros s Hs; [done|]. cbn [readings fst snd]. rewrite foldl_app.
  destruct (callback_holds t v s Hs) as [-> H']. by apply IH.
Qed.

(** The button of a reading. *)
Definition reads (s : ADCButtonState) (b : Z) (r : f64 * f64) : Prop := button_of s (resistance s r.2) = b.

Definition same_buttons (s s' : ADCButtonState) : Prop :=
  buttons s' = buttons s ∧ pullup s' = pullup s ∧ minValue s' = minValue s ∧ maxValue s' = maxValue s ∧ debounceTime s' = debounceTime s.

Lemma same_reads s s' b r : same_buttons s s' → reads s' b r ↔ reads s b r.
Proof. intros (H1 & H2 & H3 & H4 & _). unfold reads, button_of, resistance. by rewrite H1, H2, H3, H4. Qed.

(** The last button has been read, and nothing else, since the time that is kept. *)
Definition steady (s0 : ADCButtonState) (rs : list (f64 * f64)) (s : ADCButtonState) : Prop :=
  lastButton s = -1 ∨ ∃ before v0 after, rs = before ++ (lastDebounceTime s, v0) :: after ∧ Forall (reads s0 (lastButton s)) ((lastDebounceTime s, v0) :: after).

Lemma callback_steady s0 rs s t v : same_buttons s0 s → steady s0 rs s → same_buttons s0 (ADCCallback t v s).2 ∧ steady s0 (rs ++ [(t, v)]) (ADCCallback t v s).2.
Proof.
  intros Hs Hst. split; [exact Hs|]. unfold steady, ADCCallback. cbn [snd lastButton lastDebounceTime].
  assert (Hr : reads s0 (button_of s (resistance s v)) (t, v)) by (by apply (same_reads s0 s)).
  set (i := button_of _ _) in *. destruct (Z.eqb_spec i (lastButton s)) as [E|E]; [|right; exists rs, v, []; split; [done|by repeat constructor]].
  rewrite E in *. destruct Hst as [H|(before & v0 & after & -> & Hf)]; [by left|]. right. exists before, v0, (after ++ [(t, v)]).
  split; [by rewrite <- app_assoc|]. rewrite app_comm_cons. apply Forall_app. split; [done|by repeat constructor].
Qed.

Lemma readings_app a b s : readings (a ++ b) s = let r := readings a s in let r' := readings b r.2 in (r.1 ++ r'.1, r'.2).
Proof.
  revert s. induction a as [|[t v] a IH]; intros s; cbn [app readings]; [cbn [fst snd app]; by destruct (readings b s)|]. rewrite IH. cbn [fst snd]. by rewrite app_assoc.
Qed.

(** A button whose press is called has been read, and nothing else, for longer than the
    debouncing time. *)
Theorem press_is_debounced rs t v s b : lastButton s = -1 → b ≠ -1 → (b, true) ∈ (ADCCallback t v (readings rs s).2).1 → ∃ before t0 v0 after,
  rs = before ++ (t0, v0) :: after ∧ Forall (reads s b) ((t0, v0) :: after ++ [(t, v)]) ∧ flt (debounceTime s) (fsub t t0) = true.
Proof.
  intros H0 Hb Hin.
  assert (Hinv : same_buttons s (readings rs s).2 ∧ steady s rs (readings rs s).2).
  { clear Hin. induction rs as [|[t' v'] rs IH] using rev_ind; [by split; [|left]|]. rewrite readings_app. cbn [readings fst snd]. destruct IH. by apply callback_steady. }
  set (s1 := (readings rs s).2) in *. clearbody s1. destruct Hinv as [Hs Hst].
  unfold ADCCallback in Hin. set (i := button_of _ _) in *. cbn [fst snd] in Hin.
  destruct (flt _ _ && (lastButton s1 =? i) && _) eqn:E; [|by apply not_elem_of_nil in Hin]. apply andb_true_iff in E as [E Hne]. apply andb_true_iff in E as [E Heq%Z.eqb_eq].
  rewrite Heq, Z.eqb_refl in E. assert (b = i) as -> by (destruct (0 <=? lastPressed s1), (0 <=? i); cbn in Hin; set_solver).
  destruct Hst as [Hst|(before & v0 & after & -> & Hf)]; [congruence|]. exists before, (lastDebounceTime s1), v0, after. split; [done|].
  rewrite Heq in Hf. split; [rewrite app_comm_cons; apply Forall_app; split; [done|]; constructor; [|done]; by apply (same_reads s s1)|].
  destruct Hs as (_ & _ & _ & _ & <-). exact E.
Qed.
End Voltage.

Definition seen : list Z := [1; 3; 2; 0; 1].

Lemma buttons_handled_once_witness : ∃ acks s',
  reports seen [(0, 2); (0, 3); (2, 1); (3, 2)]%nat Digital.NewDigitalButtonState = Ret (acks, seen, s') ∧ Digital.ackCount s' = foldr Z.add 0 acks.
Proof.
  destruct (buttons_handled_once seen [(0, 2); (0, 3); (2, 1); (3, 2)]%nat Digital.NewDigitalButtonState) as (acks & handled & s' & E & Hh & Ha & Hc).
  - reflexivity.
  - cbn. lia.
  - exists acks, s'. split; [|exact Ha]. rewrite E, Hh, Hc. reflexivity.
Defined.
