(* ===== verification/Output.v ===== *)
(** * Outputs and fans

    [src/internal/pkg/io/request_queue.go] and [output_pin.go], and the package
    [src/internal/pkg/fan]: requests for an output wait in a queue until their time, and are
    made by a callback that may put them off or drop them; a fan is such an output, and
    the fans of heaters and controllers are switched by timers.

    [E] is the state behind the callback.  A loop that the callback prolongs has a bound,
    [fuel], and says whether it ended within it. *)

From S2P Require Import Prelude GoFloat.

(** ** The queue of requests *)

(** What a callback asks for: the request was made, is to be dropped, or is to be made again
    later. *)
Inductive action := Done | Discard | Delay.

Section Queue.
Context {E : Type} (callback : f64 → f64 → E → (action * f64) * E).

Record RequestQueue := mkQueue { rqueue : list (f64 * f64); nextMinFlushTime : f64 }.

Definition NewRequestQueue : RequestQueue := mkQueue [] f0.

(** Of the requests after the first, those that are due by [nextTime]; the last of them
    counts. *)
Fixpoint due (nextTime : f64) (q : list (f64 * f64)) : nat :=
  match q with
  | (t, _) :: q => if fle t nextTime then S (due nextTime q) else O
  | [] => O
  end.

Definition min_wait (w : f64) : f64 := fmax w (f_lit 1 100).

(** One request, if one is due: whether to go on, and the activity that is noted. *)
Definition flush_step (printTime : f64) (q : RequestQueue) (e : E) : bool * list f64 * RequestQueue * E :=
  match rqueue q with
  | [] => (false, [], q, e)
  | (t0, v0) :: _ =>
      let nextTime := fmax t0 (nextMinFlushTime q) in
      if flt printTime nextTime then (false, [], q, e)
      else
        let pos := due nextTime (tail (rqueue q)) in
        let reqVal := (default (t0, v0) (rqueue q !! pos)).2 in
        let r := callback nextTime reqVal e in
        match r.1.1 with
        | Discard => (true, [], mkQueue (drop (S pos) (rqueue q)) (nextMinFlushTime q), r.2)
        | a =>
            let next := fadd nextTime (min_wait r.1.2) in
            (true, [next], mkQueue (drop (match a with Delay => pos | _ => S pos end) (rqueue q)) next, r.2)
        end
  end.

Fixpoint Flush (fuel : nat) (printTime : f64) (q : RequestQueue) (e : E) : bool * list f64 * RequestQueue * E :=
  match fuel with
  | O => (false, [], q, e)
  | S fuel =>
      let r := flush_step printTime q e in
      if r.1.1.1 then let r' := Flush fuel printTime r.1.2 r.2 in (r'.1.1.1, r.1.1.2 ++ r'.1.1.2, r'.1.2, r'.2) else (true, [], r.1.2, r.2)
  end.

Definition QueueRequest (printTime value : f64) (q : RequestQueue) : RequestQueue := mkQueue (rqueue q ++ [(printTime, value)]) (nextMinFlushTime q).

Fixpoint SendAsyncRequest (fuel : nat) (value printTime : f64) (q : RequestQueue) (e : E) : bool * RequestQueue * E :=
  match fuel with
  | O => (false, q, e)
  | S fuel =>
      let nextTime := fmax printTime (nextMinFlushTime q) in
      let r := callback nextTime value e in
      match r.1.1 with
      | Discard => (true, q, r.2)
      | a =>
          let q := mkQueue (rqueue q) (fadd nextTime (min_wait r.1.2)) in
          match a with Delay => SendAsyncRequest fuel value printTime q r.2 | _ => (true, q, r.2) end
      end
  end.
End Queue.

(** ** Pins *)

Inductive pin_event := SetPWM (printTime value : f64) | SetDigital (printTime : f64) (value : Z).

Record OutputPinController := mkOutput { isPWM : bool; o_scale : f64; o_lastValue : f64 }.

Definition SetPin (printTime value : f64) (s : OutputPinController * list pin_event) : (action * f64) * (OutputPinController * list pin_event) :=
  if feq value (o_lastValue s.1) then ((Discard, f0), s)
  else ((Done, f0), (mkOutput (isPWM s.1) (o_scale s.1) value,
                     s.2 ++ [if isPWM s.1 then SetPWM printTime value else SetDigital printTime (f_trunc value)])).

Definition NormalizeCommandValue (value : f64) (o : OutputPinController) : string + f64 :=
  let value := fdiv value (o_scale o) in
  if negb (isPWM o) && negb (feq value f0) && negb (feq value f1) then inl "Invalid pin value"%string else inr value.

(** ** A fan *)

Record Fan := mkFan {
  lastFanValue : f64;
  lastReqValue : f64;
  maxPower : f64;
  kickStartTime : f64;
  offBelow : f64;
  hasEnable : bool;
  sent : list pin_event
}.

Definition NewFan (maxPower kickStartTime offBelow : f64) (hasEnable : bool) : Fan := mkFan f0 f0 maxPower kickStartTime offBelow hasEnable [].

Definition fan_value (f : Fan) (value : f64) : f64 :=
  let value := if flt value (offBelow f) then f0 else value in fmax f0 (fmin (maxPower f) (fmul value (maxPower f))).

Definition enable_events (f : Fan) (printTime value : f64) : list pin_event :=
  if hasEnable f then
    if flt f0 value && feq (lastFanValue f) f0 then [SetDigital printTime 1]
    else if feq value f0 && flt f0 (lastFanValue f) then [SetDigital printTime 0] else []
  else [].

Definition set_fan (f : Fan) (last req : f64) (evs : list pin_event) : Fan :=
  mkFan last req (maxPower f) (kickStartTime f) (offBelow f) (hasEnable f) (sent f ++ evs).

Definition ApplySpeed (printTime value : f64) (f : Fan) : (action * f64) * Fan :=
  let value := fan_value f value in
  if feq value (lastFanValue f) then ((Discard, f0), f)
  else
    let en := enable_events f printTime value in
    if negb (feq value f0) && negb (feq (kickStartTime f) f0) &&
       (feq (lastFanValue f) f0 || flt (f_lit 1 2) (fsub value (lastFanValue f))) then
      ((Delay, kickStartTime f), set_fan f (maxPower f) value (en ++ [SetPWM printTime (maxPower f)]))
    else ((Done, f0), set_fan f value value (en ++ [SetPWM printTime value])).

(** M106, M107, and the request over the socket. *)
Definition cmdM106 (s : f64) : f64 := fdiv s (f_of_Z 255).
Definition cmdM107 : f64 := f0.
Definition setFan (speed : f64) : f64 := fdiv speed (f_of_Z 100).

(** ** Fans that are switched by timers *)

(** A heater as they see it: its temperature and target.  The speed that is asked for, if it
    changed. *)
Record HeaterFan := mkHeaterFan { heaterTemp : f64; hf_fanSpeed : f64; hf_lastSpeed : f64 }.

Definition hf_Callback (heaters : list (f64 * f64)) (f : HeaterFan) : option f64 * HeaterFan :=
  let speed := if existsb (λ h, flt f0 (h : f64 * f64).2 || flt (heaterTemp f) h.1) heaters then hf_fanSpeed f else f0 in
  if feq speed (hf_lastSpeed f) then (None, f) else (Some speed, mkHeaterFan (heaterTemp f) (hf_fanSpeed f) speed).

Record ControllerFan := mkController { cf_fanSpeed : f64; idleSpeed : f64; idleTimeout : Z; lastOn : Z; cf_lastSpeed : f64; stepperNames : list string }.

Definition NewControllerFan (names : list string) (fanSpeed idle : f64) (timeout : Z) : ControllerFan := mkController fanSpeed idle timeout timeout f0 names.

Definition ResolveSteppers (all : list string) (f : ControllerFan) : bool * ControllerFan :=
  match stepperNames f with
  | [] => (true, mkController (cf_fanSpeed f) (idleSpeed f) (idleTimeout f) (lastOn f) (cf_lastSpeed f) all)
  | names => (forallb (λ n, bool_decide (n ∈ all)) names, f)
  end.

(** [enabled] says whether a stepper is known and on; the targets of the heaters. *)
Definition cf_active (enabled : string → option bool) (targets : list f64) (f : ControllerFan) : bool :=
  existsb (λ n, default false (enabled n)) (stepperNames f) || existsb (flt f0) targets.

Definition cf_Callback (enabled : string → option bool) (targets : list f64) (f : ControllerFan) : option f64 * ControllerFan :=
  let r := if cf_active enabled targets f then (cf_fanSpeed f, 0)
           else if lastOn f <? idleTimeout f then (idleSpeed f, lastOn f + 1) else (f0, lastOn f) in
  if feq r.1 (cf_lastSpeed f) then (None, mkController (cf_fanSpeed f) (idleSpeed f) (idleTimeout f) r.2 (cf_lastSpeed f) (stepperNames f))
  else (Some r.1, mkController (cf_fanSpeed f) (idleSpeed f) (idleTimeout f) r.2 r.1 (stepperNames f)).

(** ** Tachometers *)

(** A 32-bit count, extended. *)
Definition extend_count (lastCount count : Z) : Z := lastCount + Z.land (count - lastCount) 4294967295.

Record FrequencyCounter := mkFreq { fc_lastTime : f64; fc_lastCount : Z; freq : f64 }.

Definition counterCallback (time : f64) (count : Z) (countTime : f64) (c : FrequencyCounter) : FrequencyCounter :=
  if feq (fc_lastTime c) f0 then mkFreq time count (freq c)
  else
    let deltaTime := fsub countTime (fc_lastTime c) in
    if flt f0 deltaTime then mkFreq countTime count (fdiv (f_of_Z (count - fc_lastCount c)) deltaTime)
    else mkFreq time count f0.

Definition rpm (c : FrequencyCounter) (ppr : Z) : f64 := if 0 <? ppr then fdiv (fmul (freq c) (f_of_Z 30)) (f_of_Z ppr) else f0.
