(* ===== verification/OutputThy.v ===== *)
(** * Outputs do what was asked of them

    Theorems on [Output]: flushing a queue of fan requests ends, leaves the fan at the last
    request that was due, and sends only powers within the limit, also when the fan is
    kicked; the fan of a controller runs on for its idle time; a counter of 32 bits is
    extended exactly. *)

From Stdlib Require Import Floats.SpecFloat.
From S2P Require Import Prelude GoFloat GoFloatRound GoFloatInt GoFloatUpper Output.

(** ** Fans *)

Definition fan_ok (f : Fan) : Prop := fpos (maxPower f) = true ∧ canon (maxPower f) = true.
Definition number (x : f64) : Prop := is_nan x = false ∧ canon x = true.
(** A power within the limit. *)
Definition power (f : Fan) (x : f64) : Prop := nonneg x = true ∧ canon x = true ∧ fle x (maxPower f) = true.

Lemma clamp_power f p : fan_ok f → number p → power f (fmax f0 (fmin (maxPower f) p)).
Proof.
  intros [Hm Cm] [Hp Cp]. assert (Hn : is_nan (maxPower f) = false) by (by destruct (maxPower f)).
  assert (H0 : fle f0 (maxPower f) = true) by (by destruct (maxPower f) as [|[]| |[]]).
  destruct (fmin_cases (maxPower f) p Hn Hp) as (Hc & Hl & _). set (x := fmin (maxPower f) p) in *.
  assert (Hx : number x) by (destruct Hc as [-> | ->]; by split). destruct Hx as [Hx Cx].
  destruct (fmax_cases f0 x ltac:(done) Hx) as (Hc' & Hg & _).
  assert (Hge : ∀ y, fle f0 y = true → (y = f0 ∨ y = x) → nonneg y = true ∨ y = S754_zero true) by (intros y Hy _; destruct y as [[]|[]| |[]]; auto).
  destruct Hc' as [E|E]; rewrite E in *; [by repeat split|].
  assert (Hnz : x ≠ S754_zero true) by (intros Hz; rewrite Hz in E; vm_compute in E; discriminate).
  destruct (Hge x Hg ltac:(auto)) as [H|H]; [by repeat split|done].
Qed.

Lemma fan_value_power f v : fan_ok f → number v → power f (fan_value f v).
Proof.
  intros Hf Hv. unfold fan_value. apply clamp_power; [done|]. destruct Hf as [Hm Cm].
  assert (Hw : number (if flt v (offBelow f) then f0 else v)) by (by destruct (flt v (offBelow f))). destruct Hw as [Hw Cw].
  split; [|by apply fmul_canon]. destruct (maxPower f) as [|[]| |[] m e]; try done. by apply fmul_number.
Qed.

(** The power that a fan was sent last; at first it has none. *)
Definition pwm_now (evs : list pin_event) : f64 := foldl (λ x ev, match ev with SetPWM _ y => y | SetDigital _ _ => x end) f0 evs.

(** The powers that a fan was sent, the last of which is the one that it notes. *)
Definition powers (f : Fan) : Prop :=
  Forall (λ ev, match ev with SetPWM _ x => power f x | SetDigital _ v => v = 0 ∨ v = 1 end) (sent f) ∧ pwm_now (sent f) = lastFanValue f.

Definition same_fan (f f' : Fan) : Prop :=
  maxPower f' = maxPower f ∧ kickStartTime f' = kickStartTime f ∧ offBelow f' = offBelow f ∧ hasEnable f' = hasEnable f.

(** The power sent last is [x]; after a kick it is full power, and the request is made again. *)
Definition settled (f : Fan) (x : f64) : Prop := feq x (pwm_now (sent f)) = true.

(** What a request asks for: nothing if it is too low, and else that part of the full power. *)
Definition asked (f : Fan) (v x : f64) : Prop :=
  if flt v (offBelow f) then feq x f0 = true
  else fle f0 v = true → fle v f1 = true → fle (maxPower f) f1 = true → feq x (fmul v (maxPower f)) = true.

Lemma clamp_within m p : fle f0 p = true → fle p m = true → feq (fmax f0 (fmin m p)) p = true.
Proof.
  intros Hp Hm. destruct (fle_not_nan _ _ Hm) as [Np Nm]. destruct (fmin_cases m p Nm Np) as (Hc & Hy1 & Hy2). set (y := fmin m p) in *.
  assert (Hy : feq y p = true) by (apply fle_antisym; [done|]; destruct Hc as [-> | ->]; [done|by apply fle_refl]).
  destruct (fle_not_nan _ _ Hy2) as [Ny _]. destruct (fmax_cases f0 y ltac:(done) Ny) as (Hc' & Hz1 & Hz2). set (z := fmax f0 y) in *.
  apply feq_trans with y; [|done]. apply fle_antisym; [|done]. destruct Hc' as [-> | ->]; [|by apply fle_refl].
  apply fle_trans with p; [done|]. apply feq_fle. by rewrite feq_sym.
Qed.

Lemma fan_value_asked f v x : fan_ok f → number v → feq (fan_value f v) x = true → asked f v x.
Proof.
  intros [Hm Cm] [Hv Cv] Hx. rewrite feq_sym in Hx. unfold asked. unfold fan_value in Hx. destruct (flt v (offBelow f)).
  - destruct (maxPower f) as [| | |[] m e]; done.
  - intros H0 H1 Hone. eapply feq_trans; [exact Hx|]. destruct (maxPower f) as [| | |[] m e]; try done.
    destruct (below_one m e Cm Hone) as [He _]. destruct v as [[]|[]| |[] mv ev]; try done.
    assert (Hn : nonneg (fmul (S754_finite false mv ev) (S754_finite false m e)) = true) by (by apply fmul_nonneg).
    apply clamp_within; [by destruct (fmul _ _) as [[]|[]| |[]]|]. apply flt_false_fle; [done|by apply nonneg_not_nan|]. apply fmul_le; [done..|lia].
Qed.

Lemma ApplySpeed_cases f t v : fan_ok f → number v → powers f → let r := ApplySpeed t v f in
  same_fan f r.2 ∧ powers r.2 ∧
  match r.1.1 with
  | Delay => lastFanValue r.2 = maxPower f ∧ lastFanValue f ≠ maxPower f
  | _ => settled r.2 (fan_value f v)
  end.
Proof.
  intros Hf Hv Hs. cbn zeta. pose proof (fan_value_power f v Hf Hv) as Hp. unfold ApplySpeed, settled. set (x := fan_value f v) in *.
  assert (Hx : is_nan x = false) by (apply nonneg_not_nan, Hp).
  assert (Hm : power f (maxPower f)) by (destruct Hf as [Hm Cm]; repeat split; [by destruct (maxPower f) as [|[]| |[]]|done|apply fle_refl; by destruct (maxPower f)]).
  assert (Hen : ∀ y, power f y → powers (set_fan f y x (enable_events f t x ++ [SetPWM t y]))).
  { intros y Hy. split; [|unfold pwm_now; cbn [set_fan sent]; by rewrite app_assoc, foldl_app]. destruct Hs as [Hs _].
    cbn [set_fan sent]. apply Forall_app. split; [done|]. apply Forall_app. split; [|by constructor]. unfold enable_events. destruct (hasEnable f); [|constructor]. destruct (_ && _); [constructor; [by right|constructor]|]. destruct (_ && _); [|constructor]. constructor; [by left|constructor]. }
  destruct (feq x (lastFanValue f)) eqn:E; [cbn [fst snd]; split_and!; [done|done|]; destruct Hs as [_ ->]; done|].
  destruct (negb _ && negb _ && _) eqn:K; cbn [fst snd]; (split; [done|]); (split; [by apply Hen|]).
  2: { destruct (Hen x Hp) as [_ ->]. by apply feq_refl. }
  cbn [set_fan lastFanValue].
  split; [done|]. intros El. rewrite El in K. apply andb_true_iff in K as [K1 K2]. apply orb_true_iff in K2 as [K2|K2].
  - destruct Hf as [Hf _]. by destruct (maxPower f) as [|[]| |[]].
  - rewrite notpos_flt in K2; [done|done|]. destruct Hp as (P1 & P2 & P3), Hf as [Hf1 Hf2]. apply fsub_notpos; [done..| |done]. by destruct (maxPower f).
Qed.

(** Requests over the socket end after two rounds at most, with the fan as asked. *)
Theorem async_request_is_made f q t v : fan_ok f → number v → powers f → ∃ q' f',
  SendAsyncRequest ApplySpeed 2 v t q f = (true, q', f') ∧ same_fan f f' ∧ powers f' ∧ settled f' (fan_value f v) ∧ rqueue q' = rqueue q.
Proof.
  intros Hf Hv Hs. cbn [SendAsyncRequest].
  pose proof (ApplySpeed_cases f (fmax t (nextMinFlushTime q)) v Hf Hv Hs) as (H1 & H2 & H3). destruct (ApplySpeed _ v f) as [[a w] f1]. cbn [fst snd] in *.
  destruct a; [by eexists _, _|by eexists _, _|]. destruct H3 as [H3 _]. cbn [rqueue nextMinFlushTime].
  assert (Hf1 : fan_ok f1) by (destruct H1 as (E & _); unfold fan_ok; by rewrite E).
  set (t1 := fmax t _). pose proof (ApplySpeed_cases f1 t1 v Hf1 Hv H2) as (G1 & G2 & G3). destruct (ApplySpeed t1 v f1) as [[a w1] f2]. cbn [fst snd] in *.
  assert (Hs2 : same_fan f f2) by (unfold same_fan in *; intuition congruence).
  assert (Hv2 : fan_value f1 v = fan_value f v) by (destruct H1 as (E1 & _ & E2 & _); unfold fan_value; by rewrite E1, E2).
  rewrite Hv2 in G3. destruct a; [by eexists _, _|by eexists _, _|]. destruct G3 as [_ G3], H1 as (E & _). congruence.
Qed.

(** ** The queue *)

Definition queue_ok (q : list (f64 * f64)) : Prop := Forall (λ r, number r.2) q.

Lemma due_bound t q : (due t q ≤ length q)%nat.
Proof. induction q as [|[a b] q IH]; cbn; [done|]. destruct (fle a t); lia. Qed.

Lemma last_other {A} (l : list A) d d' : l ≠ [] → List.last l d = List.last l d'.
Proof. induction l as [|x l IH]; [done|]. intros _. destruct l; [done|]. by apply IH. Qed.

Lemma last_drop {A} (l : list A) k d : List.last (drop k l) (List.last l d) = List.last l d.
Proof.
  revert k. induction l as [|x l IH]; intros k; [by destruct k|]. destruct k as [|k]; [by apply last_other|]. cbn [drop]. destruct l as [|y l]; [by destruct k|].
  change (List.last (x :: y :: l) d) with (List.last (y :: l) d). apply IH.
Qed.

Lemma lookup_last {A} (l : list A) k d x : l !! k = Some x → drop (S k) l = [] → x = List.last l d.
Proof.
  revert k. induction l as [|y l IH]; intros k Hk Hd; [done|]. destruct k as [|k].
  - change (l = []) in Hd. rewrite Hd. by injection Hk as ->.
  - destruct l as [|z l]; [done|]. change (List.last (y :: z :: l) d) with (List.last (z :: l) d). by apply (IH k).
Qed.

(** One request: the queue gets shorter, but for a kick; when it is empty, the fan is as its
    last request asked. *)
Lemma flush_step_spec t q f : fan_ok f → powers f → queue_ok (rqueue q) → rqueue q ≠ [] → let r := flush_step ApplySpeed t q f in
  same_fan f r.2 ∧ powers r.2 ∧ queue_ok (rqueue r.1.2) ∧ List.last (rqueue r.1.2) (List.last (rqueue q) (f0, f0)) = List.last (rqueue q) (f0, f0) ∧
  (r.1.1.1 = true → (lastFanValue r.2 = maxPower f ∧ lastFanValue f ≠ maxPower f ∧ (length (rqueue r.1.2) ≤ length (rqueue q))%nat ∧ rqueue r.1.2 ≠ []) ∨
    ((length (rqueue r.1.2) < length (rqueue q))%nat ∧ (rqueue r.1.2 = [] → settled r.2 (fan_value f (List.last (rqueue q) (f0, f0)).2)))) ∧
  (r.1.1.1 = false → r.1.2 = q ∧ r.2 = f).
Proof.
  intros Hf Hs Hq Hne. cbn zeta. unfold flush_step. destruct (rqueue q) as [|[t0 v0] rest] eqn:Eq; [done|].
  destruct (flt t _) eqn:Et; cbn [fst snd].
  { rewrite Eq. split_and!; [done|done|done|by apply last_other|done|done]. }
  set (nextTime := fmax t0 (nextMinFlushTime q)). cbn [tail]. set (pos := due nextTime rest). pose proof (due_bound nextTime rest) as Hpos. fold pos in Hpos.
  destruct (lookup_lt_is_Some_2 ((t0, v0) :: rest) pos) as [r Hr]; [cbn; lia|]. rewrite Hr. cbn [default from_option id].
  assert (Hv : number r.2) by exact (Forall_lookup_1 _ _ _ _ Hq Hr).
  pose proof (ApplySpeed_cases f nextTime r.2 Hf Hv Hs) as (H1 & H2 & H3). destruct (ApplySpeed nextTime r.2 f) as [[a w] f1]. cbn [fst snd] in *.
  assert (Hlast : drop (S pos) ((t0, v0) :: rest) = [] → r = List.last ((t0, v0) :: rest) (f0, f0)) by (by apply lookup_last).
  assert (Hlen : ∀ k, length (drop k ((t0, v0) :: rest)) = (S (length rest) - k)%nat) by (intros k; by rewrite length_drop).
  destruct a; cbn [rqueue fst snd]; (split; [done|]); (split; [done|]); (split; [by apply Forall_drop|]); (split; [by apply last_drop|]); (split; [intros _|done]).
  1-2: right; (split; [rewrite Hlen; cbn; lia|]); intros Hd; by rewrite <- (Hlast Hd).
  destruct H3 as [H3 H4]. left. split_and!; [done|done|rewrite Hlen; cbn; lia|]. intros Hd. apply (f_equal length) in Hd. rewrite Hlen in Hd. cbn in Hd. lia.
Qed.

Lemma flush_empty fuel t q f : rqueue q = [] → Flush ApplySpeed (S fuel) t q f = (true, [], q, f).
Proof. intros E. cbn [Flush]. unfold flush_step. by rewrite E. Qed.

(** The rounds that are left: two for each request and one, which a kick uses up. *)
Definition rounds (q : RequestQueue) (kicked : bool) : nat := (2 * length (rqueue q) + if kicked then 0 else 1)%nat.

Lemma flush_follows f t fuel : fan_ok f → ∀ q f1 kicked, same_fan f f1 → powers f1 → queue_ok (rqueue q) → rqueue q ≠ [] →
  (kicked = true → lastFanValue f1 = maxPower f) → (rounds q kicked ≤ fuel)%nat →
  let r := Flush ApplySpeed fuel t q f1 in
  r.1.1.1 = true ∧ powers r.2 ∧ same_fan f r.2 ∧ (rqueue r.1.2 = [] → settled r.2 (fan_value f (List.last (rqueue q) (f0, f0)).2)).
Proof.
  intros Hf. induction fuel as [|fuel IH]; intros q f1 kicked Hsf Hs Hq Hne Hk Hr; unfold rounds in Hr; [destruct (rqueue q); [done|cbn in Hr; lia]|].
  cbn zeta. cbn [Flush]. assert (Hf1 : fan_ok f1) by (destruct Hsf as (E & _); unfold fan_ok; by rewrite E).
  assert (Hmax : maxPower f1 = maxPower f) by apply Hsf.
  pose proof (flush_step_spec t q f1 Hf1 Hs Hq Hne) as (S1 & S2 & S3 & S4 & S5 & S6). destruct (flush_step ApplySpeed t q f1) as [[[go_on acts] q1] f2]. cbn [fst snd] in *.
  assert (Hsf2 : same_fan f f2) by (unfold same_fan in *; intuition congruence).
  assert (Hfv : ∀ v, fan_value f1 v = fan_value f v) by (intros v; destruct Hsf as (E1 & _ & E2 & _); unfold fan_value; by rewrite E1, E2).
  destruct go_on; cbn [fst snd]; [|destruct (S6 eq_refl) as [-> ->]; by split_and!]. specialize (S5 eq_refl). clear S6.
  destruct (decide (rqueue q1 = [])) as [E1|E1].
  - destruct S5 as [(_ & _ & _ & H)|[Hlt H]]; [done|]. rewrite Hfv in H. destruct fuel as [|fuel]; [destruct kicked; lia|]. rewrite flush_empty by done. cbn [fst snd]. auto.
  - rewrite (last_other (rqueue q1) _ (f0, f0)) in S4 by done. rewrite <- S4. destruct S5 as [(K1 & K2 & K3 & _)|[Hlt _]].
    + apply (IH q1 f2 true); [done..|by rewrite K1|]. unfold rounds. destruct kicked; [by rewrite Hk, Hmax in K2|lia].
    + apply (IH q1 f2 false); [done..|]. unfold rounds. destruct kicked; lia.
Qed.

(** C36. Flushing a queue of fan requests ends within two rounds for each request and one
    more. The powers sent are within the limit, and the last power sent is the one that
    the fan notes. If no request is left, it is what the last request asked for, also
    after a kick: nothing for a request below off_below, and for one between 0 and 1
    that part of the full power, if the full power is at most 1. *)
Theorem fan_follows_requests fuel t q f : fan_ok f → powers f → queue_ok (rqueue q) → rqueue q ≠ [] → (2 * length (rqueue q) < fuel)%nat →
  let r := Flush ApplySpeed fuel t q f in let v := (List.last (rqueue q) (f0, f0)).2 in
  r.1.1.1 = true ∧ powers r.2 ∧ same_fan f r.2 ∧ (rqueue r.1.2 = [] → settled r.2 (fan_value f v) ∧ asked f v (pwm_now (sent r.2))).
Proof.
  intros Hf Hs Hq Hne Hfuel. destruct (flush_follows f t fuel Hf q f false) as (H1 & H2 & H3 & H4); [done..|unfold rounds; lia|].
  cbn zeta. split_and!; [done..|]. intros E. specialize (H4 E). split; [done|]. apply fan_value_asked; [done| |done].
  unfold queue_ok in Hq. rewrite Forall_forall in Hq. apply Hq. destruct (rqueue q) as [|x l] eqn:Eq; [done|]. apply list_elem_of_In. destruct (exists_last Hne) as (l' & y & E'). rewrite E', last_last. apply in_app_iff. right. by left.
Qed.

Definition some_fan : Fan := NewFan f1 (f_lit 1 10) f0 true.
Definition some_queue : RequestQueue := mkQueue [(f_lit 1 10, f_lit 1 2); (f_lit 2 10, f_lit 3 4); (f_of_Z 3, f_lit 1 4)] f0.

Lemma fan_follows_requests_witness : let r := Flush ApplySpeed 7 (f_of_Z 10) some_queue some_fan in
  rqueue r.1.2 = [] ∧ settled r.2 (f_lit 1 4) ∧ asked some_fan (f_lit 1 4) (pwm_now (sent r.2)) ∧ length (sent r.2) = 4%nat.
Proof.
  destruct (fan_follows_requests 7 (f_of_Z 10) some_queue some_fan) as (_ & _ & _ & H).
  - split; reflexivity.
  - split; [constructor|reflexivity].
  - repeat constructor.
  - discriminate.
  - cbn. lia.
  - assert (E : rqueue (Flush ApplySpeed 7 (f_of_Z 10) some_queue some_fan).1.2 = []) by (vm_compute; reflexivity).
    destruct (H E) as [H1 H2]. split; [exact E|]. split; [exact H1|]. split; [exact H2|vm_compute; reflexivity].
Defined.

(** ** The fan of a controller *)

(** The speed that a fan was last asked for, after calls that find nothing active. *)
Fixpoint idle_calls (n : nat) (f : ControllerFan) : ControllerFan :=
  match n with O => f | S n => idle_calls n (cf_Callback (λ _, Some false) [] f).2 end.

Definition speed_is (x : f64) (f : ControllerFan) : Prop := feq x (cf_lastSpeed f) = true.

Lemma idle_call f : lastOn f < idleTimeout f → is_nan (idleSpeed f) = false → let f' := (cf_Callback (λ _, Some false) [] f).2 in
  lastOn f' = lastOn f + 1 ∧ idleTimeout f' = idleTimeout f ∧ idleSpeed f' = idleSpeed f ∧ speed_is (idleSpeed f) f'.
Proof.
  intros Hl Hn. cbn zeta. unfold cf_Callback, cf_active, speed_is.
  assert (existsb (λ n : string, default false (Some false)) (stepperNames f) = false) as -> by (by induction (stepperNames f)).
  cbn [existsb orb]. rewrite (proj2 (Z.ltb_lt _ _) Hl). cbn [fst snd]. destruct (feq _ _) eqn:E; cbn; split_and!; try done. by apply feq_refl.
Qed.

Lemma off_call f : idleTimeout f ≤ lastOn f → let f' := (cf_Callback (λ _, Some false) [] f).2 in
  lastOn f' = lastOn f ∧ idleTimeout f' = idleTimeout f ∧ idleSpeed f' = idleSpeed f ∧ speed_is f0 f'.
Proof.
  intros Hl. cbn zeta. unfold cf_Callback, cf_active, speed_is.
  assert (existsb (λ n : string, default false (Some false)) (stepperNames f) = false) as -> by (by induction (stepperNames f)).
  cbn [existsb orb]. rewrite (proj2 (Z.ltb_ge _ _) Hl). cbn [fst snd]. destruct (feq _ _) eqn:E; cbn; by split_and!.
Qed.

Lemma idle_calls_S n f : idle_calls (S n) f = (cf_Callback (λ _, Some false) [] (idle_calls n f)).2.
Proof. revert f. induction n as [|n IH]; intros f; [done|]. change (idle_calls (S (S n)) f) with (idle_calls (S n) (cf_Callback (λ _, Some false) [] f).2). by rewrite IH. Qed.

(** After the last activity the fan runs at its idle speed for as many calls as its timeout
    has, and then stops. *)
Theorem controller_fan_idles n f : lastOn f = 0 → 0 ≤ idleTimeout f → is_nan (idleSpeed f) = false →
  speed_is (if Z.of_nat (S n) <=? idleTimeout f then idleSpeed f else f0) (idle_calls (S n) f).
Proof.
  intros H0 Ht Hn.
  assert (Hg : ∀ k, lastOn (idle_calls k f) = Z.min (Z.of_nat k) (idleTimeout f) ∧ idleTimeout (idle_calls k f) = idleTimeout f ∧ idleSpeed (idle_calls k f) = idleSpeed f).
  { intros k. induction k as [|k (I1 & I2 & I3)]; [cbn; split_and!; [lia|done|done]|]. rewrite idle_calls_S.
    destruct (decide (lastOn (idle_calls k f) < idleTimeout (idle_calls k f))) as [Hd|Hd].
    - destruct (idle_call _ Hd) as (J1 & J2 & J3 & _); [by rewrite I3|]. rewrite J1, J2, J3. split_and!; [lia|done|done].
    - destruct (off_call (idle_calls k f)) as (J1 & J2 & J3 & _); [lia|]. rewrite J1, J2, J3. split_and!; [lia|done|done]. }
  destruct (Hg n) as (I1 & I2 & I3). rewrite idle_calls_S. destruct (Z.leb_spec (Z.of_nat (S n)) (idleTimeout f)).
  - rewrite <- I3. apply idle_call; [lia|by rewrite I3].
  - apply off_call. lia.
Qed.

(** ** Counters *)

(** A count reported modulo [2^32], less than a turn after the last report, is extended to
    the count. *)
Theorem count_extended last n : 0 ≤ n - last < 2 ^ 32 → extend_count last (n mod 2 ^ 32) = n.
Proof.
  intros H. unfold extend_count. change 4294967295 with (Z.ones 32). rewrite Z.land_ones by lia.
  replace (n mod 2 ^ 32 - last) with ((n - last) + - (n / 2 ^ 32) * 2 ^ 32) by (pose proof (Z.div_mod n (2 ^ 32)); lia).
  rewrite Z.mod_add, Z.mod_small by lia. lia.
Qed.
