(* ===== verification/Supervise.v ===== *)
(** * Watching over a print

    [src/internal/print/idle_timeout.go] and [idle_timeout_module.go]: when the printer
    counts as printing, ready or idle; [src/internal/print/stats.go]: the times and the
    filament of a print; [src/internal/pkg/io/filament_sensor_module.go]: what a filament
    sensor does when the filament runs out. *)

From S2P Require Import Prelude GoFloat.

(** ** Idle timeout *)

Module Idle.
Inductive state := StateIdle | StatePrinting | StateReady.
#[global] Instance state_eq : EqDecision state.
Proof. solve_decision. Defined.

Definition ReadyTimeout : f64 := f_lit 5 10.
Definition PinMinTime : f64 := f_lit 1 10.

Inductive event := EReady (printTime : f64) | EPrinting (printTime : f64) | EIdle (printTime : f64).

Record Decision := mkDecision { NextWake : f64; Event : option event; EnterIdle : bool }.

Record IdleTimeout := mkIdle { idleTimeout : f64; st : state; lastPrintStartSystime : f64 }.

Definition NewIdleTimeout (timeout : f64) : IdleTimeout := mkIdle timeout StateIdle f0.
Definition set_state (s : state) (i : IdleTimeout) : IdleTimeout := mkIdle (idleTimeout i) s (lastPrintStartSystime i).
Definition SetTimeout (t : f64) (i : IdleTimeout) : IdleTimeout := mkIdle t (st i) (lastPrintStartSystime i).

Definition wake (t : f64) : Decision := mkDecision t None false.

(** The printing time of the status. *)
Definition printing_time (eventtime : f64) (i : IdleTimeout) : f64 :=
  if decide (st i = StatePrinting) then fsub eventtime (lastPrintStartSystime i) else f0.

Definition CheckIdleTimeout (eventtime printTime estPrintTime : f64) (lookaheadEmpty gcodeBusy : bool) (i : IdleTimeout) : Decision :=
  let idleTime := fsub estPrintTime printTime in
  if negb lookaheadEmpty || flt idleTime f1 then wake (fadd eventtime (idleTimeout i))
  else if flt idleTime (idleTimeout i) then wake (fsub (fadd eventtime (idleTimeout i)) idleTime)
  else if gcodeBusy then wake (fadd eventtime f1)
  else mkDecision f0 None true.

Definition TimeoutHandler (eventtime printTime estPrintTime : f64) (lookaheadEmpty gcodeBusy : bool) (i : IdleTimeout) : Decision * IdleTimeout :=
  if decide (st i = StateReady) then (CheckIdleTimeout eventtime printTime estPrintTime lookaheadEmpty gcodeBusy i, i)
  else
    let bufferTime := fmin (f_of_Z 2) (fsub printTime estPrintTime) in
    if negb lookaheadEmpty then (wake (fadd (fadd eventtime ReadyTimeout) (fmax f0 bufferTime)), i)
    else if flt (fneg ReadyTimeout) bufferTime then (wake (fadd (fadd eventtime ReadyTimeout) bufferTime), i)
    else if gcodeBusy then (wake (fadd eventtime ReadyTimeout), i)
    else (mkDecision (fadd eventtime (idleTimeout i)) (Some (EReady (fadd estPrintTime PinMinTime))) false, set_state StateReady i).

Definition SyncPrintTime (curtime estPrintTime printTime : f64) (i : IdleTimeout) : option Decision * IdleTimeout :=
  if decide (st i = StatePrinting) then (None, i)
  else
    let checkTime := fsub (fadd ReadyTimeout printTime) estPrintTime in
    (Some (mkDecision (fadd curtime checkTime) (Some (EPrinting (fadd estPrintTime PinMinTime))) false), mkIdle (idleTimeout i) StatePrinting curtime).

(** The module.  [script] runs the idle script: the time of the last move afterwards, or
    nothing if it fails.  What is done: the events, and the script. *)
Inductive output := OEvent (e : event) | OScript.

Definition transitionIdleState (script : option f64) (eventtime : f64) (i : IdleTimeout) : f64 * list output * IdleTimeout :=
  match script with
  | Some printTime => (NEVER, [OScript; OEvent (EIdle printTime)], set_state StateIdle i)
  | None => (fadd eventtime f1, [OScript], set_state StateReady i)
  end.

Definition Timeout_handler (shutdown : bool) (script : option f64) (eventtime printTime estPrintTime : f64) (lookaheadEmpty gcodeBusy : bool) (i : IdleTimeout) : f64 * list output * IdleTimeout :=
  if shutdown then (NEVER, [], i)
  else
    let r := TimeoutHandler eventtime printTime estPrintTime lookaheadEmpty gcodeBusy i in
    if EnterIdle r.1 then transitionIdleState script eventtime (set_state StatePrinting r.2)
    else (NextWake r.1, match Event r.1 with Some e => [OEvent e] | None => [] end, r.2).

(** SET_IDLE_TIMEOUT: when the timer is set to, if it is. *)
Definition cmdSetIdleTimeout (now timeout : f64) (i : IdleTimeout) : option f64 * IdleTimeout :=
  let i := SetTimeout timeout i in (if decide (st i = StateReady) then Some (fadd now timeout) else None, i).
End Idle.

(** ** Statistics *)

Module PrintStats.
Record ExtrusionStatus := mkStatus { Position : f64; ExtrudeFactor : f64 }.

Record Stats := mkStats {
  filamentUsed : f64;
  lastEPos : f64;
  filename : string;
  printStartTime : f64;
  lastPauseTime : f64;
  prevPauseDuration : f64;
  state : string;
  errorMessage : string;
  totalDuration : f64;
  initDuration : f64;
  infoTotalLayer : Z;
  infoCurrentLayer : Z
}.

Definition Reset : Stats := mkStats f0 f0 "" f0 f0 f0 "standby" "" f0 f0 0 0.
Definition SetCurrentFile (name : string) : Stats := mkStats f0 f0 name f0 f0 f0 "standby" "" f0 f0 0 0.

Definition updateFilamentUsage (e : ExtrusionStatus) (s : Stats) : Stats :=
  let used := if feq (ExtrudeFactor e) f0 then filamentUsed s else fadd (filamentUsed s) (fdiv (fsub (Position e) (lastEPos s)) (ExtrudeFactor e)) in
  mkStats used (Position e) (filename s) (printStartTime s) (lastPauseTime s) (prevPauseDuration s) (state s) (errorMessage s) (totalDuration s) (initDuration s)
    (infoTotalLayer s) (infoCurrentLayer s).

Definition NoteStart (eventtime : f64) (e : ExtrusionStatus) (s : Stats) : Stats :=
  let '(start, pause, prev) :=
    if feq (printStartTime s) f0 then (eventtime, lastPauseTime s, prevPauseDuration s)
    else if negb (feq (lastPauseTime s) f0) then (printStartTime s, f0, fadd (prevPauseDuration s) (fsub eventtime (lastPauseTime s)))
    else (printStartTime s, lastPauseTime s, prevPauseDuration s) in
  mkStats (filamentUsed s) (Position e) (filename s) start pause prev "printing" "" (totalDuration s) (initDuration s) (infoTotalLayer s) (infoCurrentLayer s).

Definition NotePause (eventtime : f64) (e : ExtrusionStatus) (s : Stats) : Stats :=
  let s := if feq (lastPauseTime s) f0 then
             let u := updateFilamentUsage e s in
             mkStats (filamentUsed u) (lastEPos u) (filename u) (printStartTime u) eventtime (prevPauseDuration u) (state u) (errorMessage u) (totalDuration u)
               (initDuration u) (infoTotalLayer u) (infoCurrentLayer u)
           else s in
  if bool_decide (state s = "error"%string) then s
  else mkStats (filamentUsed s) (lastEPos s) (filename s) (printStartTime s) (lastPauseTime s) (prevPauseDuration s) "paused" (errorMessage s) (totalDuration s)
         (initDuration s) (infoTotalLayer s) (infoCurrentLayer s).

Definition hardly : f64 := f_lit 1 10000000.

Definition noteFinish (st msg : string) (eventtime : f64) (s : Stats) : Stats :=
  if feq (printStartTime s) f0 then s
  else
    let total := fsub eventtime (printStartTime s) in
    mkStats (filamentUsed s) (lastEPos s) (filename s) f0 (lastPauseTime s) (prevPauseDuration s) st msg total
      (if flt (filamentUsed s) hardly then fsub total (prevPauseDuration s) else initDuration s) (infoTotalLayer s) (infoCurrentLayer s).

Definition NoteComplete (eventtime : f64) (s : Stats) : Stats := noteFinish "complete" "" eventtime s.
Definition NoteError (eventtime : f64) (msg : string) (s : Stats) : Stats := noteFinish "error" msg eventtime s.
Definition NoteCancel (eventtime : f64) (s : Stats) : Stats := noteFinish "cancelled" "" eventtime s.

Definition SetInfo (totalLayer currentLayer : Z) (s : Stats) : Stats :=
  let '(t, c) := if totalLayer =? 0 then (0, 0) else if negb (totalLayer =? infoTotalLayer s) then (totalLayer, 0) else (infoTotalLayer s, infoCurrentLayer s) in
  let c := if negb (t =? 0) && negb (currentLayer =? 0) && negb (currentLayer =? c) then Z.min currentLayer t else c in
  mkStats (filamentUsed s) (lastEPos s) (filename s) (printStartTime s) (lastPauseTime s) (prevPauseDuration s) (state s) (errorMessage s) (totalDuration s)
    (initDuration s) t c.

(** The status: the durations and the filament, before they are rounded. *)
Definition GetStatus (eventtime : f64) (e : ExtrusionStatus) (s : Stats) : (f64 * f64 * f64) * Stats :=
  let r :=
    if feq (printStartTime s) f0 then (prevPauseDuration s, s)
    else
      let paused := negb (feq (lastPauseTime s) f0) in
      let timePaused := if paused then fadd (prevPauseDuration s) (fsub eventtime (lastPauseTime s)) else prevPauseDuration s in
      let s := if paused then s else updateFilamentUsage e s in
      let total := fsub eventtime (printStartTime s) in
      (timePaused, mkStats (filamentUsed s) (lastEPos s) (filename s) (printStartTime s) (lastPauseTime s) (prevPauseDuration s) (state s) (errorMessage s) total
         (if flt (filamentUsed s) hardly then fsub total timePaused else initDuration s) (infoTotalLayer s) (infoCurrentLayer s)) in
  ((totalDuration r.2, fsub (fsub (totalDuration r.2) (initDuration r.2)) r.1, filamentUsed r.2), r.2).
End PrintStats.

(** ** Filament sensors *)

Module Runout.
Inductive pending := NoEvent | RunoutPending | InsertPending.
#[global] Instance pending_eq : EqDecision pending.
Proof. solve_decision. Defined.

(** The sensor, and the callback that it has asked for, if any. *)
Record runoutHelper := mkRunout {
  runoutPause : bool;
  hasRunout : bool;
  hasInsert : bool;
  pauseDelay : f64;
  eventDelay : f64;
  minEventSystime : f64;
  filamentPresent : bool;
  sensorEnabled : bool;
  asked : pending
}.

Definition set_min (t : f64) (a : pending) (r : runoutHelper) : runoutHelper :=
  mkRunout (runoutPause r) (hasRunout r) (hasInsert r) (pauseDelay r) (eventDelay r) t (filamentPresent r) (sensorEnabled r) a.

Definition newRunoutHelper (pause runout insert : bool) (pauseDelay eventDelay : f64) : runoutHelper :=
  mkRunout pause (pause || runout) insert pauseDelay eventDelay NEVER false true NoEvent.

Definition handleReady (now : f64) (r : runoutHelper) : runoutHelper := set_min (fadd now (f_of_Z 2)) (asked r) r.

Definition NoteFilamentPresent (now : f64) (isPrinting present : bool) (r : runoutHelper) : runoutHelper :=
  if Bool.eqb present (filamentPresent r) then r
  else
    let r := mkRunout (runoutPause r) (hasRunout r) (hasInsert r) (pauseDelay r) (eventDelay r) (minEventSystime r) present (sensorEnabled r) (asked r) in
    if flt now (minEventSystime r) || negb (sensorEnabled r) then r
    else if present then if negb isPrinting && hasInsert r then set_min NEVER InsertPending r else r
    else if isPrinting && hasRunout r then set_min NEVER RunoutPending r else r.

Inductive output := OPause | OScript (prefix : string).

(** [execGCode]: [script] says when the script ended; [None] that it did not, by a panic. *)
Definition execGCode (has : bool) (prefix : string) (script : option f64) (r : runoutHelper) : list output * runoutHelper :=
  if has then
    match script with
    | Some t => ([OScript prefix], set_min (fadd t (eventDelay r)) (asked r) r)
    | None => ([OScript prefix], r)
    end
  else ([], r).

Definition runoutEvent (script : option f64) (r : runoutHelper) : list output * runoutHelper :=
  let r := set_min (minEventSystime r) NoEvent r in
  if runoutPause r then let x := execGCode (hasRunout r) "PAUSE" script r in (OPause :: x.1, x.2) else execGCode (hasRunout r) "" script r.

Definition insertEvent (script : option f64) (r : runoutHelper) : list output * runoutHelper :=
  execGCode (hasInsert r) "" script (set_min (minEventSystime r) NoEvent r).

Definition cmdSetFilamentSensor (enable : Z) (r : runoutHelper) : runoutHelper :=
  mkRunout (runoutPause r) (hasRunout r) (hasInsert r) (pauseDelay r) (eventDelay r) (minEventSystime r) (filamentPresent r) (0 <? enable) (asked r).

(** A sensor with an encoder: the filament is there as long as the extruder is not past the
    place where the next pulse is due. *)
Record EncoderSensor := mkEncoderSensor { detectionLength : f64; filamentRunoutPos : f64; es_helper : runoutHelper }.

Definition encoderEvent (now extruderPos : f64) (isPrinting : bool) (s : EncoderSensor) : EncoderSensor :=
  mkEncoderSensor (detectionLength s) (fadd extruderPos (detectionLength s)) (NoteFilamentPresent now isPrinting true (es_helper s)).
Definition extruderPosUpdateEvent (now extruderPos : f64) (isPrinting : bool) (s : EncoderSensor) : EncoderSensor :=
  mkEncoderSensor (detectionLength s) (filamentRunoutPos s) (NoteFilamentPresent now isPrinting (flt extruderPos (filamentRunoutPos s)) (es_helper s)).
End Runout.
