(* ===== verification/SuperviseThy.v ===== *)
(** * Watching over a print: what can be relied on

    Theorems on [Supervise]: the idle script runs only after the printer was ready and quiet
    for the timeout; a layer is within the layers; a filament sensor asks for one event at a
    time, and what a script that fails does to it. *)

From S2P Require Import Prelude GoFloat Supervise.

(** ** Idle timeout *)

Section Idle.
Import Idle.

(** The calls of the module, with what they find. *)
Inductive call :=
| CTimer (shutdown : bool) (script : option f64) (eventtime printTime estPrintTime : f64) (lookaheadEmpty gcodeBusy : bool)
| CSync (curtime estPrintTime printTime : f64)
| CSetTimeout (now timeout : f64).

Definition run_call (c : call) (i : IdleTimeout) : list output * IdleTimeout :=
  match c with
  | CTimer sh sc e p est emp busy => let r := Timeout_handler sh sc e p est emp busy i in (r.1.2, r.2)
  | CSync cur est p => let r := SyncPrintTime cur est p i in (match r.1 with Some d => match Event d with Some e => [OEvent e] | None => [] end | None => [] end, r.2)
  | CSetTimeout now t => ([], (cmdSetIdleTimeout now t i).2)
  end.

(** A call that finds the printer quiet for the whole timeout. *)
Definition quiet (c : call) (i : IdleTimeout) : Prop :=
  match c with
  | CTimer sh _ _ p est emp busy => sh = false ∧ emp = true ∧ busy = false ∧ flt (fsub est p) f1 = false ∧ flt (fsub est p) (idleTimeout i) = false
  | _ => False
  end.

Lemma script_when_quiet c i : OScript ∈ (run_call c i).1 → st i = StateReady ∧ quiet c i.
Proof.
  destruct c as [sh sc e p est emp busy|cur est p|now t]; cbn [run_call fst].
  - unfold Timeout_handler, TimeoutHandler, CheckIdleTimeout, quiet. destruct sh; [by intros ?%not_elem_of_nil|]. destruct (decide (st i = StateReady)) as [Hs|Hs].
    + cbn [fst snd]. destruct emp; [|by intros ?%not_elem_of_nil]. cbn [negb orb]. destruct (flt _ f1) eqn:E1; [by intros ?%not_elem_of_nil|].
      destruct (flt _ (idleTimeout i)) eqn:E2; [by intros ?%not_elem_of_nil|]. destruct busy; [by intros ?%not_elem_of_nil|]. done.
    + destruct emp; [|by intros ?%not_elem_of_nil]. cbn [negb]. destruct (flt _ _); [by intros ?%not_elem_of_nil|]. destruct busy; [by intros ?%not_elem_of_nil|].
      cbn. intros ?%list_elem_of_singleton. done.
  - unfold SyncPrintTime. destruct (decide _); cbn; [by intros ?%not_elem_of_nil|]. by intros ?%list_elem_of_singleton.
  - by intros ?%not_elem_of_nil.
Qed.

Fixpoint run_calls (cs : list call) (i : IdleTimeout) : list output * IdleTimeout :=
  match cs with [] => ([], i) | c :: cs => let r := run_call c i in let r' := run_calls cs r.2 in (r.1 ++ r'.1, r'.2) end.

Definition is_ready (o : output) : Prop := match o with OEvent (EReady _) => True | _ => False end.

(** A call that leaves the printer ready announces it, unless it was ready. *)
Lemma ready_is_announced c i : st i ≠ StateReady → st (run_call c i).2 = StateReady → Exists is_ready (run_call c i).1.
Proof.
  intros Hi. destruct c as [sh sc e p est emp busy|cur est p|now t]; cbn [run_call fst snd].
  - unfold Timeout_handler, TimeoutHandler. destruct sh; [done|]. destruct (decide (st i = StateReady)); [done|]. destruct emp; [|done]. cbn [negb].
    destruct (flt _ _); [done|]. destruct busy; [done|]. cbn. intros _. by constructor.
  - unfold SyncPrintTime. by destruct (decide _).
  - done.
Qed.

(** A printer that is printing runs its idle script only after it was announced to be ready
    and, later, found quiet for the whole timeout. *)
Theorem idle_after_ready_and_quiet cs c i : st i = StatePrinting → OScript ∈ (run_call c (run_calls cs i).2).1 →
  Exists is_ready (run_calls cs i).1 ∧ quiet c (run_calls cs i).2.
Proof.
  intros Hi Hs. apply script_when_quiet in Hs as [Hr Hq]. split; [|done]. clear Hq c.
  assert (Hg : ∀ cs i, st i ≠ StateReady → st (run_calls cs i).2 = StateReady → Exists is_ready (run_calls cs i).1).
  { clear. induction cs as [|c cs IH]; intros i Hi Hr; [done|]. cbn [run_calls fst snd] in *. apply Exists_app.
    destruct (decide (st (run_call c i).2 = StateReady)) as [Hd|Hd]; [left; by apply ready_is_announced|right; by apply IH]. }
  apply Hg; [by rewrite Hi|done].
Qed.
End Idle.

(** ** Layers *)

Lemma layers_in_range (calls : list (Z * Z)) s : 0 ≤ PrintStats.infoCurrentLayer s ≤ PrintStats.infoTotalLayer s → Forall (λ c, 0 ≤ c.1 ∧ 0 ≤ c.2) calls →
  let s' := foldl (λ s c, PrintStats.SetInfo c.1 c.2 s) s calls in 0 ≤ PrintStats.infoCurrentLayer s' ≤ PrintStats.infoTotalLayer s'.
Proof.
  intros Hs Hc. revert s Hs. induction Hc as [|[t c] calls [Ht Hc] Hcs IH]; intros s Hs; [done|]. cbn [foldl fst snd] in *. apply IH.
  unfold PrintStats.SetInfo. destruct (Z.eqb_spec t 0) as [->|]; cbn.
  { lia. }
  destruct (Z.eqb_spec t (PrintStats.infoTotalLayer s)); cbn;
    repeat match goal with |- context [if ?b then _ else _] => destruct b eqn:? end; lia.
Qed.

(** ** Filament sensors *)

Section Sensor.
Import Runout.

(** What happens to a sensor: the times are before NEVER. *)
Inductive sensor_event :=
| SNote (now : f64) (isPrinting present : bool)
| SEnable (enable : Z)
| SRunout (script : option f64)
| SInsert (script : option f64).

(** Events that were asked for come; scripts that end. *)
Definition sensor_step (e : sensor_event) (r : runoutHelper) : option (list output * runoutHelper) :=
  match e with
  | SNote now p x => if flt now NEVER then Some ([], NoteFilamentPresent now p x r) else None
  | SEnable z => Some ([], cmdSetFilamentSensor z r)
  | SRunout s => if decide (asked r = RunoutPending) then Some (runoutEvent s r) else None
  | SInsert s => if decide (asked r = InsertPending) then Some (insertEvent s r) else None
  end.

Fixpoint sensor_run (es : list sensor_event) (r : runoutHelper) : option (list output * runoutHelper) :=
  match es with
  | [] => Some ([], r)
  | e :: es => a ← sensor_step e r; b ← sensor_run es a.2; Some (a.1 ++ b.1, b.2)
  end.

Definition guarded (r : runoutHelper) : Prop := asked r ≠ NoEvent → minEventSystime r = NEVER.

Lemma note_guarded now p x r : flt now NEVER = true → guarded r → guarded (NoteFilamentPresent now p x r) ∧ (asked r ≠ NoEvent → asked (NoteFilamentPresent now p x r) = asked r).
Proof.
  intros Hn Hg. unfold NoteFilamentPresent, guarded in *. destruct (Bool.eqb x (filamentPresent r)); [done|]. cbn [minEventSystime sensorEnabled hasInsert hasRunout].
  destruct (flt now (minEventSystime r) || negb (sensorEnabled r)) eqn:E; [done|]. apply orb_false_iff in E as [E _].
  assert (asked r = NoEvent) as Ha by (destruct (decide (asked r = NoEvent)); [done|]; rewrite Hg in E by done; congruence).
  destruct x; [destruct (negb p && _)|destruct (p && _)]; cbn; rewrite ?Ha; done.
Qed.

(** While an event is pending, the sensor asks for no other. *)
Theorem one_event_at_a_time es r r' outs : guarded r → sensor_run es r = Some (outs, r') → guarded r'.
Proof.
  revert r outs. induction es as [|e es IH]; intros r outs Hg E; [by injection E as _ <-|]. cbn [sensor_run] in E.
  destruct (sensor_step e r) as [a|] eqn:Es; [|done]. cbn [mbind option_bind] in E. destruct (sensor_run es a.2) as [b|] eqn:Er; [|done]. injection E as _ <-.
  destruct b as [o b]. apply (IH a.2 o); [|done]. destruct e; cbn [sensor_step] in Es.
  - destruct (flt now NEVER) eqn:En; [|done]. injection Es as <-. by apply note_guarded.
  - by injection Es as <-.
  - destruct (decide _); [|done]. injection Es as <-. unfold runoutEvent, execGCode, guarded. cbn [runoutPause hasRunout set_min]. by destruct (runoutPause r), (hasRunout r), script.
  - destruct (decide _); [|done]. injection Es as <-. unfold insertEvent, execGCode, guarded. cbn [hasInsert set_min]. by destruct (hasInsert r), script.
Qed.

(** The filament runs out during a print: the sensor asks for its event, which pauses the
    print first. *)
Theorem runout_pauses_print now r script : filamentPresent r = true → sensorEnabled r = true → flt now (minEventSystime r) = false → runoutPause r = true → hasRunout r = true →
  let r1 := NoteFilamentPresent now true false r in asked r1 = RunoutPending ∧ ∃ rest, (runoutEvent script r1).1 = OPause :: OScript "PAUSE" :: rest.
Proof.
  intros Hp He Hn Hr Hh. cbn zeta. unfold NoteFilamentPresent. rewrite Hp. cbn [Bool.eqb minEventSystime sensorEnabled hasRunout]. rewrite Hn, He, Hh. cbn.
  split; [done|]. unfold runoutEvent, execGCode. cbn. rewrite ?Hr, ?Hh. destruct script; by eexists.
Qed.

(** A script that fails leaves the sensor dead: whatever it senses from then on, it asks for
    nothing. *)
Theorem sensor_dead_after_failed_script es r r' outs : asked r = RunoutPending → guarded r →
  Forall (λ e, match e with SNote _ _ _ | SEnable _ => True | _ => False end) es →
  sensor_run es (runoutEvent None r).2 = Some (outs, r') → asked r' = NoEvent ∧ minEventSystime r' = NEVER.
Proof.
  intros Ha Hg Hes E.
  assert (H0 : asked (runoutEvent None r).2 = NoEvent ∧ minEventSystime (runoutEvent None r).2 = NEVER).
  { unfold runoutEvent, execGCode. rewrite Hg by (by rewrite Ha). cbn [runoutPause hasRunout set_min]. by destruct (runoutPause r), (hasRunout r). }
  revert H0 E. generalize (runoutEvent None r).2. revert outs. induction Hes as [|e es He Hes IH]; intros outs s [Hs1 Hs2] E; [by injection E as _ <-|].
  cbn [sensor_run] in E. destruct (sensor_step e s) as [a|] eqn:Es; [|done]. cbn [mbind option_bind] in E. destruct (sensor_run es a.2) as [b|] eqn:Er; [|done].
  injection E as _ <-. destruct b as [o b]. apply (IH o a.2); [|done]. destruct e; try done; cbn [sensor_step] in Es.
  - destruct (flt now NEVER) eqn:En; [|done]. injection Es as <-. cbn [snd]. unfold NoteFilamentPresent. destruct (Bool.eqb _ _); [done|].
    cbn [minEventSystime sensorEnabled]. rewrite Hs2, En. cbn. done.
  - by injection Es as <-.
Qed.
End Sensor.
