(* ===== verification/Pins.v ===== *)
(** * Pins

    [src/internal/pkg/printer/pins.go] and [pin_resolver.go]: the descriptions of pins in
    the configuration, the table of the pins in use, and the aliases and reservations of a
    chip.  The parameters of a pin are a map that its users share and write to: the
    [objects] are these maps, and a pointer to one is its index.

    A description that is printed from its parts is parsed back to them; a pin that is in
    use is given out again only to users that share it, and then to all of them with the
    same polarity and the same parameters ([pin_has_one_use]). *)

From Stdlib Require Import Ascii.
From S2P Require Import Prelude GoStrings GoState.

#[local] Open Scope string_scope.

(** ** Aliases and reservations *)

Record PinResolver := mkResolver { validate_aliases : bool; reserved : gmap string string; aliases : gmap string string; resolver_active : gmap string string }.

Definition NewPinResolver (validate : bool) : PinResolver := mkResolver validate ∅ ∅ ∅.

(** The conflict is only logged. *)
Definition Reserve_pin (pin reserve_name : string) (r : PinResolver) : PinResolver :=
  mkResolver (validate_aliases r) (<[pin := reserve_name]> (reserved r)) (aliases r) (resolver_active r).

Definition alias_pin (alias pin : string) (r : PinResolver) : PinResolver :=
  let pin := if decide (is_Some (resolver_active r !! alias)) then default "" (aliases r !! pin) else pin in
  let a := <[alias := pin]> (aliases r) in
  mkResolver (validate_aliases r) (reserved r) ((λ p, if decide (p = alias) then pin else p) <$> a) (resolver_active r).

Definition Update_command (cmd : string) : string := TrimSpace cmd.

(** ** Descriptions *)

Record pin_params := mkParams {
  p_chip : option nat;
  p_chip_name : string;
  p_pin : string;
  p_invert : Z;
  p_pullup : Z;
  p_share : option string;
  p_class : option nat
}.

Record PrinterPins := mkPins {
  chips : gmap string nat;
  active_pins : gmap string nat;
  pin_resolvers : gmap string PinResolver;
  allow_multi_use_pins : gset string;
  objects : list pin_params
}.

Definition NewPrinterPins : PrinterPins := mkPins ∅ ∅ ∅ ∅ [].

Definition parse_pullup (can_pullup : bool) (desc : string) : Z * string :=
  if can_pullup && (HasPrefix desc "^" || HasPrefix desc "~") then
    ((if HasPrefix desc "~" then -1 else 1)%Z, TrimSpace (drop_string 1 desc))
  else (0%Z, desc).

Definition parse_invert (can_invert : bool) (desc : string) : Z * string :=
  if can_invert && HasPrefix desc "!" then (1%Z, TrimSpace (drop_string 1 desc)) else (0%Z, desc).

Definition parse_chip (desc : string) : string * string :=
  if has_char ":"%char desc then
    let strs := Split ":"%char desc in (default "" (strs !! 0%nat), default "" (strs !! 1%nat))
  else ("mcu", desc).

(** What is logged as an invalid description. *)
Definition invalid_pin (pin : string) : bool := bool_decide (0 ≤ Index pin "^~!:")%Z || bool_decide (TrimSpace pin ≠ pin).

(** An unknown chip and an invalid description are only logged: the result says so. *)
Definition Parse_pin (pin_desc : string) (can_invert can_pullup : bool) (s : PrinterPins) : pin_params * list string :=
  let '(pullup, desc) := parse_pullup can_pullup (TrimSpace pin_desc) in
  let '(invert, desc) := parse_invert can_invert desc in
  let '(chip_name, pin) := parse_chip desc in
  let chip := chips s !! chip_name in
  (mkParams chip chip_name pin invert pullup None None,
   ((if decide (is_Some chip) then [] else ["Unknown pin chip name"]) ++ (if invalid_pin pin then ["Invalid pin description"] else []))%list).

Definition share_name (p : pin_params) : string := p_chip_name p ++ ":" ++ p_pin p.

(** ** The table of pins in use *)

Definition set_active (m : gmap string nat) (objs : list pin_params) (s : PrinterPins) : PrinterPins :=
  mkPins (chips s) m (pin_resolvers s) (allow_multi_use_pins s) objs.

Definition Lookup_pin (pin_desc : string) (can_invert can_pullup : bool) (share_type : option string) : M PrinterPins nat := λ s,
  let pin_params := (Parse_pin pin_desc can_invert can_pullup s).1 in
  match active_pins s !! share_name pin_params with
  | Some i =>
      match objects s !! i with
      | Some share_params =>
          if decide (share_name pin_params ∈ allow_multi_use_pins s) then (Ret i, s)
          else if decide (share_type = None ∨ share_type ≠ p_share share_params) then (Panic "pin used multiple times in config", s)
          else if decide (p_invert pin_params ≠ p_invert share_params ∨ p_pullup pin_params ≠ p_pullup share_params) then
            (Panic "Shared pin must have same polarity", s)
          else (Ret i, s)
      | None => (Panic "interface conversion", s)
      end
  | None =>
      let p := mkParams (p_chip pin_params) (p_chip_name pin_params) (p_pin pin_params) (p_invert pin_params) (p_pullup pin_params) share_type None in
      (Ret (length (objects s)), set_active (<[share_name p := length (objects s)]> (active_pins s)) (objects s ++ [p])%list s)
  end.

(** The chip and the parameters with which it sets the pin up; nothing for an unknown chip. *)
Definition Setup_pin (pin_type pin_desc : string) : M PrinterPins (option (nat * nat)) :=
  let can_invert := bool_decide (pin_type ∈ ["endstop"; "digital_out"; "pwm"]) in
  let can_pullup := bool_decide (pin_type ∈ ["endstop"]) in
  i ← Lookup_pin pin_desc can_invert can_pullup None;
  o ← gets objects;
  mret (match o !! i with Some p => (λ c, (c, i)) <$> p_chip p | None => None end).

Definition Reset_pin_sharing (p : pin_params) (s : PrinterPins) : PrinterPins := set_active (delete (share_name p) (active_pins s)) (objects s) s.

Definition Get_pin_resolver (chip_name : string) (s : PrinterPins) : option PinResolver := pin_resolvers s !! chip_name.

(** A duplicate is only logged. *)
Definition Register_chip (chip_name : string) (chip : nat) (s : PrinterPins) : PrinterPins :=
  let chip_name := TrimSpace chip_name in
  mkPins (<[chip_name := chip]> (chips s)) (active_pins s) (<[chip_name := NewPinResolver true]> (pin_resolvers s)) (allow_multi_use_pins s) (objects s).

Definition Allow_multi_use_pin (pin_desc : string) (s : PrinterPins) : PrinterPins :=
  mkPins (chips s) (active_pins s) (pin_resolvers s) ({[share_name (Parse_pin pin_desc false false s).1]} ∪ allow_multi_use_pins s) (objects s).

(** A user of a shared pin notes its object in the parameters. *)
Definition set_class (i c : nat) (s : PrinterPins) : PrinterPins :=
  set_active (active_pins s) (alter (λ p, mkParams (p_chip p) (p_chip_name p) (p_pin p) (p_invert p) (p_pullup p) (p_share p) (Some c)) i (objects s)) s.

(** ** Properties: descriptions *)

Definition name_char (c : ascii) : bool := negb (is_space c) && negb (has_char c "^~!:").

Definition plain (s : string) : Prop := all_chars name_char s = true ∧ s ≠ "".

Definition print_pin (pullup invert : Z) (chip : option string) (pin : string) : string :=
  (if (pullup =? 1)%Z then "^" else if (pullup =? -1)%Z then "~" else "") ++ (if (invert =? 1)%Z then "!" else "") ++
  match chip with Some c => c ++ ":" | None => "" end ++ pin.

Lemma trim_id w : no_space w = true → TrimSpace w = w.
Proof.
  intros Hw. destruct w as [|c w]; [done|]. rewrite <- (string_app_nil_r (String c w)) at 1 2.
  rewrite (TrimSpace_words _ "" (String c w) ""); [by rewrite string_app_nil_r|done..|]. by rewrite string_app_nil_r.
Qed.

Lemma plain_no_space s : all_chars name_char s = true → no_space s = true.
Proof. apply all_chars_impl. by intros c [? _]%andb_true_iff. Qed.

Lemma plain_no_char c s : has_char c "^~!:" = true → all_chars name_char s = true → has_char c s = false.
Proof.
  intros Hc Hs. apply has_char_all_chars. revert Hs. apply all_chars_impl. intros d [_ Hd]%andb_true_iff.
  apply negb_true_iff. apply negb_true_iff in Hd. destruct (Ascii.eqb_spec c d) as [->|Hn]; [congruence|].
  destruct (Ascii.eqb_spec d c); congruence.
Qed.

(** What does not begin with a mark is not taken for one. *)
Lemma prefix_plain c s t : has_char c "^~!:" = true → plain s → HasPrefix (s ++ t) (String c "") = false.
Proof.
  intros Hc [Hs Hn]. destruct s as [|d s]; [done|]. unfold HasPrefix. rewrite string_app_cons. simpl.
  destruct (Ascii.ascii_dec c d) as [<-|]; [|done]. exfalso. pose proof (plain_no_char c _ Hc Hs) as H. cbn [has_char] in H.
  by rewrite Ascii.eqb_refl in H.
Qed.

Lemma prefix_head c t : HasPrefix (String c t) (String c "") = true.
Proof. unfold HasPrefix. simpl. destruct (Ascii.ascii_dec c c); [by destruct t|done]. Qed.

Definition body (chip : option string) (pin : string) : string := match chip with Some c => c ++ ":" | None => "" end ++ pin.

Lemma body_head chip pin : from_option plain True chip → plain pin → ∃ s t, plain s ∧ body chip pin = s ++ t.
Proof.
  intros Hc Hp. destruct chip as [c|]; cbn in *.
  - exists c, (":" ++ pin). split; [done|]. unfold body. by rewrite string_app_assoc.
  - exists pin, "". split; [done|]. unfold body. by rewrite string_app_nil_r.
Qed.

Lemma body_no_space chip pin : from_option plain True chip → plain pin → no_space (body chip pin) = true.
Proof.
  intros Hc [Hp _]. unfold body, no_space. rewrite all_chars_app. apply andb_true_iff. split; [|by apply plain_no_space].
  destruct chip as [c|]; [|done]. rewrite all_chars_app. apply andb_true_iff. split; [|done]. by apply plain_no_space, Hc.
Qed.

Lemma parse_chip_body chip pin : from_option plain True chip → plain pin → parse_chip (body chip pin) = (default "mcu" chip, pin).
Proof.
  intros Hc [Hp _]. unfold parse_chip, body. destruct chip as [c|]; cbn [default from_option id].
  - rewrite string_app_assoc. change (":" ++ pin) with (String ":" pin). rewrite has_char_app. cbn [has_char]. rewrite Ascii.eqb_refl, orb_true_r.
    rewrite Split_app_sep by (apply plain_no_char; [done|apply Hc]). by rewrite (Split_nosep _ pin) by (by apply plain_no_char).
  - change ("" ++ pin) with pin. by rewrite plain_no_char.
Qed.

Lemma parse_invert_body invert chip pin : invert ∈ [0; 1]%Z → from_option plain True chip → plain pin →
  parse_invert true ((if (invert =? 1)%Z then "!" else "") ++ body chip pin) = (invert, body chip pin).
Proof.
  intros Hi Hc Hp. unfold parse_invert. destruct (body_head chip pin Hc Hp) as (s & t & Hs & E).
  rewrite !elem_of_cons, elem_of_nil in Hi; destruct Hi as [->|[->|[]]]; cbn [Z.eqb Pos.eqb andb].
  - change ("" ++ body chip pin) with (body chip pin). by rewrite E, prefix_plain, <- E.
  - change ("!" ++ body chip pin) with (String "!" (body chip pin)). rewrite prefix_head. cbn [drop_string].
    by rewrite trim_id by (by apply body_no_space).
Qed.

Lemma marked_no_space invert chip pin : from_option plain True chip → plain pin →
  no_space ((if (invert =? 1)%Z then "!" else "") ++ body chip pin) = true.
Proof.
  intros Hc Hp. unfold no_space. rewrite all_chars_app. apply andb_true_iff. split; [by destruct (invert =? 1)%Z|by apply body_no_space].
Qed.

Lemma parse_pullup_body pullup invert chip pin : pullup ∈ [0; 1; -1]%Z → from_option plain True chip → plain pin →
  let rest := (if (invert =? 1)%Z then "!" else "") ++ body chip pin in
  parse_pullup true ((if (pullup =? 1)%Z then "^" else if (pullup =? -1)%Z then "~" else "") ++ rest) = (pullup, rest).
Proof.
  intros Hu Hc Hp rest. assert (Hr : no_space rest = true) by (by apply marked_no_space).
  assert (Hno : ∀ c, c ∈ ["^"; "~"]%char → HasPrefix rest (String c "") = false).
  { intros c Hin. unfold rest. destruct (invert =? 1)%Z.
    - rewrite !elem_of_cons, elem_of_nil in Hin; destruct Hin as [->|[->|[]]]; done.
    - destruct (body_head chip pin Hc Hp) as (s & t & Hs & E). change ("" ++ body chip pin) with (body chip pin). rewrite E.
      apply prefix_plain; [|done]. rewrite !elem_of_cons, elem_of_nil in Hin; destruct Hin as [->|[->|[]]]; done. }
  unfold parse_pullup. clearbody rest.
  rewrite !elem_of_cons, elem_of_nil in Hu; destruct Hu as [->|[->|[->|[]]]]; cbn [Z.eqb Pos.eqb andb].
  - change ("" ++ rest) with rest. rewrite !Hno by set_solver. done.
  - change ("^" ++ rest) with (String "^" rest). rewrite prefix_head. cbn [orb drop_string]. rewrite trim_id by done. done.
  - change ("~" ++ rest) with (String "~" rest). rewrite prefix_head, orb_true_r. cbn [drop_string]. by rewrite trim_id.
Qed.

(** A description printed from its parts is parsed back to them, the chip being [mcu] where
    none is named, and nothing is complained of but an unknown chip. *)
Theorem parse_pin_print s pullup invert chip pin :
  pullup ∈ [0; 1; -1]%Z → invert ∈ [0; 1]%Z → from_option plain True chip → plain pin →
  let name := default "mcu" chip in
  Parse_pin (print_pin pullup invert chip pin) true true s =
  (mkParams (chips s !! name) name pin invert pullup None None, if decide (is_Some (chips s !! name)) then [] else ["Unknown pin chip name"]).
Proof.
  intros Hu Hi Hc Hp name. unfold Parse_pin, print_pin. fold (body chip pin).
  assert (Ht : no_space ((if (pullup =? 1)%Z then "^" else if (pullup =? -1)%Z then "~" else "") ++ (if (invert =? 1)%Z then "!" else "") ++ body chip pin) = true).
  { unfold no_space. rewrite all_chars_app. apply andb_true_iff. split; [by destruct (pullup =? 1)%Z, (pullup =? -1)%Z|by apply marked_no_space]. }
  rewrite trim_id, parse_pullup_body, parse_invert_body, parse_chip_body by done. fold name. f_equal.
  assert (Hinv : invalid_pin pin = false); [|by rewrite Hinv, app_nil_r]. destruct Hp as [Hp Hne].
  unfold invalid_pin. apply orb_false_iff. split; apply bool_decide_eq_false; [|rewrite trim_id by (by apply plain_no_space); tauto].
  assert (∀ t i, all_chars name_char t = true → (index_from i "^~!:" t < 0)%Z) as H; [|specialize (H pin 0%Z Hp); unfold Index; lia].
  clear. induction t as [|c t IH]; intros i Ht; [done|]. cbn [index_from]. cbn [all_chars] in Ht. apply andb_true_iff in Ht as [Hch Ht].
  destruct (HasPrefix (String c t) "^~!:") eqn:E; [|by apply IH]. unfold HasPrefix in E. cbn [String.prefix] in E.
  destruct (Ascii.ascii_dec "^" c) as [<-|]; [by vm_compute in Hch|discriminate].
Qed.

(** ** Properties: the table of pins in use *)

(** The table and the parameters belong together. *)
Record pins_ok (s : PrinterPins) : Prop := {
  ok_active : ∀ name i, active_pins s !! name = Some i → ∃ p, objects s !! i = Some p ∧ share_name p = name;
  ok_objects : ∀ i p, objects s !! i = Some p → active_pins s !! share_name p = Some i
}.

(** One user of a pin. *)
Record request := mkRequest { r_desc : string; r_can_invert : bool; r_can_pullup : bool; r_share : option string }.

Definition lookup_of (r : request) : M PrinterPins nat := Lookup_pin (r_desc r) (r_can_invert r) (r_can_pullup r) (r_share r).

Fixpoint lookups (rs : list request) (s : PrinterPins) : list (go nat) * PrinterPins :=
  match rs with
  | [] => ([], s)
  | r :: rs => let o := lookup_of r s in let o' := lookups rs o.2 in (o.1 :: o'.1, o'.2)
  end.

(** The parts of a request: what its description says, whatever chips there are. *)
Definition described (r : request) : pin_params := (Parse_pin (r_desc r) (r_can_invert r) (r_can_pullup r) NewPrinterPins).1.

(** A user that was given [p]. *)
Definition granted (r : request) (p : pin_params) : Prop :=
  share_name p = share_name (described r) ∧ p_share p = r_share r ∧ p_invert p = p_invert (described r) ∧ p_pullup p = p_pullup (described r).

Lemma parse_described r s : let p := (Parse_pin (r_desc r) (r_can_invert r) (r_can_pullup r) s).1 in
  share_name p = share_name (described r) ∧ p_invert p = p_invert (described r) ∧ p_pullup p = p_pullup (described r).
Proof.
  unfold described, Parse_pin. destruct (parse_pullup _ _) as [u d1]. destruct (parse_invert _ _) as [v d2]. by destruct (parse_chip d2).
Qed.

(** The outcome of one lookup: a new entry, the entry that is shared, or a panic. *)
Lemma lookup_cases r s : pins_ok s → allow_multi_use_pins s = ∅ →
  (∃ p, lookup_of r s = (Ret (length (objects s)), set_active (<[share_name p := length (objects s)]> (active_pins s)) (objects s ++ [p])%list s) ∧
     granted r p ∧ active_pins s !! share_name p = None) ∨
  (∃ i p, lookup_of r s = (Ret i, s) ∧ objects s !! i = Some p ∧ granted r p ∧ r_share r ≠ None) ∨
  (∃ w, lookup_of r s = (Panic w, s)).
Proof.
  intros Hs Hm. unfold lookup_of, Lookup_pin. pose proof (parse_described r s) as (H1 & H2 & H3). rewrite Hm.
  set (q := (Parse_pin _ _ _ s).1) in *. destruct (active_pins s !! share_name q) as [i|] eqn:E.
  - right. destruct (ok_active s Hs _ _ E) as (p & Hp & Hn). rewrite Hp. rewrite decide_False by set_solver.
    destruct (decide (_ ∨ _)) as [|Hsh]; [by right; eexists|]. destruct (decide (_ ∨ _)) as [|Hpol]; [by right; eexists|].
    left. exists i, p. split; [done|]. split; [done|]. apply Decidable.not_or in Hsh as [Hsh1 Hsh2]. apply Decidable.not_or in Hpol as [Hi Hu].
    unfold granted. rewrite <- H1, <- H2, <- H3. repeat split; [done| | | |done]; apply dec_stable; [intros Hx; by apply Hsh2|intros Hx; by apply Hi|intros Hx; by apply Hu].
  - left. eexists (mkParams _ _ _ _ _ _ _). split; [reflexivity|]. split; [|done]. done.
Qed.

Lemma lookup_keeps r s : pins_ok s → allow_multi_use_pins s = ∅ →
  let s' := (lookup_of r s).2 in pins_ok s' ∧ allow_multi_use_pins s' = ∅ ∧ objects s `prefix_of` objects s'.
Proof.
  intros Hs Hm. destruct (lookup_cases r s Hs Hm) as [(p & -> & Hg & Hnew)|[(i & p & -> & _)|(w & ->)]]; cbn; [|done..].
  split; [|split; [done|by exists [p]]]. destruct Hs as [Ha Ho]. split; cbn.
  - intros name i Hi. destruct (decide (name = share_name p)) as [->|Hn].
    + rewrite lookup_insert_eq in Hi. injection Hi as <-. exists p. split; [|done]. by apply list_lookup_middle.
    + rewrite lookup_insert_ne in Hi by done. destruct (Ha name i Hi) as (q & Hq & Hnq). exists q. split; [|done]. by apply lookup_app_l_Some.
  - intros i q Hq. apply lookup_snoc_Some in Hq as [[Hlt Hq]|[-> <-]].
    + rewrite lookup_insert_ne; [by apply Ho|]. intros E. apply Ho in Hq. congruence.
    + by rewrite lookup_insert_eq.
Qed.

Lemma lookups_keep rs s : pins_ok s → allow_multi_use_pins s = ∅ →
  pins_ok (lookups rs s).2 ∧ objects s `prefix_of` objects (lookups rs s).2 ∧
  ∀ i r a, rs !! i = Some r → (lookups rs s).1 !! i = Some (Ret a) → ∃ p, objects (lookups rs s).2 !! a = Some p ∧ granted r p.
Proof.
  revert s. induction rs as [|r rs IH]; intros s Hs Hm; [split; [done|split; [done|by intros i ? ? Hi]]|]. cbn [lookups fst snd].
  destruct (lookup_keeps r s Hs Hm) as (Hs' & Hm' & Hpre). destruct (IH _ Hs' Hm') as (Hs2 & Hpre2 & Hall).
  split; [done|]. split; [by etrans|]. intros [|i] r' a Hr Ha; [|by eapply Hall]. cbn in Hr, Ha. injection Hr as <-.
  injection Ha as Ha. destruct (lookup_cases r s Hs Hm) as [(p & E & Hg & _)|[(j & p & E & Hp & Hg & _)|(w & E)]]; rewrite E in *; cbn in *; [| |done].
  - injection Ha as <-. exists p. split; [|done]. eapply prefix_lookup_Some; [|done]. by apply list_lookup_middle.
  - injection Ha as ->. exists p. split; [|done]. by eapply prefix_lookup_Some.
Qed.

Lemma lookups_app rs1 rs2 s : (lookups (rs1 ++ rs2)%list s) =
  (((lookups rs1 s).1 ++ (lookups rs2 (lookups rs1 s).2).1)%list, (lookups rs2 (lookups rs1 s).2).2).
Proof. revert s. induction rs1 as [|r rs1 IH]; intros s; [cbn; by destruct (lookups rs2 s)|]. cbn. by rewrite IH. Qed.

Lemma lookups_length rs s : length (lookups rs s).1 = length rs.
Proof. revert s. induction rs as [|r rs IH]; intros s; [done|]. cbn. by rewrite IH. Qed.

(** Whatever pins are asked for, in whatever order: two users that were both given one are
    given the same parameters exactly if they name the same pin of the same chip, and then
    both share it, for the same purpose and with the same polarity. *)
Theorem pin_has_one_use s rs i j ri rj a b :
  pins_ok s → allow_multi_use_pins s = ∅ → (i < j)%nat → rs !! i = Some ri → rs !! j = Some rj →
  (lookups rs s).1 !! i = Some (Ret a) → (lookups rs s).1 !! j = Some (Ret b) →
  (a = b ↔ share_name (described ri) = share_name (described rj)) ∧
  (a = b → r_share ri ≠ None ∧ r_share ri = r_share rj ∧ p_invert (described ri) = p_invert (described rj) ∧ p_pullup (described ri) = p_pullup (described rj)).
Proof.
  intros Hs Hm Hij Hri Hrj Ha Hb. destruct (lookups_keep rs s Hs Hm) as (Hs' & _ & Hall).
  destruct (Hall i ri a Hri Ha) as (p & Hp & Hpn & Hps & Hpi & Hpu). destruct (Hall j rj b Hrj Hb) as (q & Hq & Hqn & Hqs & Hqi & Hqu).
  split.
  - split; [intros ->; congruence|]. intros E. apply (ok_objects _ Hs') in Hp, Hq. congruence.
  - intros ->. assert (p = q) as -> by congruence. split; [|split; [congruence|split; congruence]].
    rewrite <- Hps, Hqs. pose proof (take_drop_middle _ _ _ Hrj) as Hmid. rewrite <- Hmid, lookups_app in Hb, Ha. cbn [fst] in Ha, Hb.
    assert (Hlj : (j < length rs)%nat) by (by eapply lookup_lt_Some). assert (Hl : length (take j rs) = j) by (rewrite length_take; lia).
    rewrite lookup_app_r in Hb by (rewrite lookups_length; lia). rewrite lookups_length, Hl, Nat.sub_diag in Hb. cbn in Hb. injection Hb as Hb.
    rewrite lookup_app_l in Ha by (rewrite lookups_length; lia).
    destruct (lookups_keep (take j rs) s Hs Hm) as (Hs1 & _ & Hall1). assert (Hri' : take j rs !! i = Some ri) by (by rewrite lookup_take_lt).
    destruct (Hall1 i ri b Hri' Ha) as (p1 & Hp1 & _). assert (Hm1 : allow_multi_use_pins (lookups (take j rs) s).2 = ∅).
    { clear -Hs Hm. revert s Hs Hm. generalize (take j rs). induction l as [|r l IH]; intros s Hs Hm; [done|]. cbn.
      destruct (lookup_keeps r s Hs Hm) as (? & ? & _). by apply IH. }
    destruct (lookup_cases rj _ Hs1 Hm1) as [(p2 & E & _)|[(k & p2 & E & _ & _ & Hne)|(w & E)]]; rewrite E in Hb; cbn in Hb; [|done|done].
    injection Hb as <-. apply lookup_lt_Some in Hp1. lia.
Qed.

(** ** Examples *)

Lemma pins_ok_new : pins_ok NewPrinterPins.
Proof. split; [intros name i Hx; cbn in Hx; by rewrite lookup_empty in Hx|by intros i p Hx]. Qed.

(** Two steppers share the pin that enables them; a fan may not have it. *)
Definition demo_requests : list request :=
  [mkRequest "!PA1" true false (Some "stepper_enable"); mkRequest "mcu:PB2" true true None; mkRequest " !mcu:PA1" true false (Some "stepper_enable"); mkRequest "PA1" true false None].

Example demo_lookups : (lookups demo_requests NewPrinterPins).1 = [Ret 0%nat; Ret 1%nat; Ret 0%nat; Panic "pin used multiple times in config"].
Proof. vm_compute. reflexivity. Qed.

Lemma pin_has_one_use_witness : p_invert (described (mkRequest "!PA1" true false (Some "stepper_enable"))) = p_invert (described (mkRequest " !mcu:PA1" true false (Some "stepper_enable"))).
Proof.
  apply (pin_has_one_use NewPrinterPins demo_requests 0 2 (mkRequest "!PA1" true false (Some "stepper_enable")) (mkRequest " !mcu:PA1" true false (Some "stepper_enable")) 0 0);
    [apply pins_ok_new|reflexivity|lia|reflexivity|reflexivity|vm_compute; reflexivity|vm_compute; reflexivity|reflexivity].
Defined.

(** ** What is let through *)

Definition one_chip : PrinterPins := Register_chip "mcu" 0 NewPrinterPins.

(** A mark where none is allowed is not noticed, as the four marks are looked for as one
    text, and becomes part of the name: the same pin is in use twice. *)
Theorem marked_pin_is_another_pin :
  let rs := [mkRequest "PA1" false false None; mkRequest "!PA1" false false None] in
  (lookups rs one_chip).1 = [Ret 0%nat; Ret 1%nat] ∧ (Parse_pin "!PA1" false false one_chip).2 = [].
Proof. vm_compute. split; reflexivity. Qed.

(** The part after a second colon is dropped. *)
Theorem third_part_is_dropped : (Parse_pin "mcu:PA1:2" true true one_chip) = (mkParams (Some 0%nat) "mcu" "PA1" 0 0 None None, []).
Proof. vm_compute. reflexivity. Qed.
