(* ===== verification/StepperEnable.v ===== *)
(** * Enabling steppers

    [src/internal/pkg/mcu/stepper_enable.go] and [stepper_enable_module.go]: the enable pins
    of the steppers, which several may share, and the lines that track whether a stepper is
    enabled; [timing.go], [StepGenerationState], and the callbacks of [legacy_stepper.go]: a
    stepper that is about to move enables itself.

    Pins, lines and steppers are shared objects: [st_pins] and [st_lines] are the objects and a
    pointer to one is its index; a stepper is named by a number.  What is done outside is kept as
    a list of events.  The count of a pin is at most the number of its steppers, so it is kept
    without wrap-around.

    Whatever is registered, enabled, disabled and moved, in whatever order: an enable pin is
    on exactly while one of its steppers is enabled ([pin_on_while_enabled]); a stepper that
    generates steps has been enabled before ([moving_stepper_is_enabled]); switching the
    motors off switches all of them off ([motors_off]). *)

From S2P Require Import Prelude GoFloat GoStrings GoState Pins.

#[local] Open Scope string_scope.
#[local] Open Scope Z_scope.

Definition disableStallTime : f64 := f_lit 1 10.

Record StepperEnablePin := mkEnable { hasDigitalOut : bool; enableCount : Z; isDedicated : bool }.

Definition NewStepperEnablePin (out : bool) (count : Z) : StepperEnablePin := mkEnable out count true.
Definition SetDedicated (b : bool) (p : StepperEnablePin) : StepperEnablePin := mkEnable (hasDigitalOut p) (enableCount p) b.

(** A line: its stepper, its pin, the callbacks that are told of changes. *)
Record EnableTracking := mkLine { l_stepper : nat; l_enable : nat; l_callbacks : list nat; isEnabled : bool }.

Inductive event :=
| SetDigital (pin : nat) (printTime : f64) (value : Z)
| StateCallback (cb : nat) (printTime : f64) (on : bool)
| Dwell (delay : f64)
| MotorOffEvent (printTime : f64)
| Generate (stepper : nat) (flushTime : f64)
| RespondInfo (msg : string).

(** [st_active] are the lines that a stepper calls when it is about to move. *)
Record store := mkStore {
  st_pins : list StepperEnablePin;
  st_lines : list EnableTracking;
  enableLines : gmap string nat;
  st_active : gmap nat (list nat);
  st_events : list event
}.

Definition NewPrinterStepperEnableModule : store := mkStore [] [] ∅ ∅ [].

Definition emit (evs : list event) (s : store) : store := mkStore (st_pins s) (st_lines s) (enableLines s) (st_active s) (st_events s ++ evs)%list.
Definition set_pins (ps : list StepperEnablePin) (s : store) : store := mkStore ps (st_lines s) (enableLines s) (st_active s) (st_events s).
Definition set_lines (ls : list EnableTracking) (s : store) : store := mkStore (st_pins s) ls (enableLines s) (st_active s) (st_events s).

(** ** Pins *)

Definition SetEnable (p : nat) (printTime : f64) (s : store) : store :=
  match st_pins s !! p with
  | Some pin =>
      let evs := if (enableCount pin =? 0) && hasDigitalOut pin then [SetDigital p printTime 1] else [] in
      emit evs (set_pins (<[p := mkEnable (hasDigitalOut pin) (enableCount pin + 1) (isDedicated pin)]> (st_pins s)) s)
  | None => s
  end.

Definition SetDisable (p : nat) (printTime : f64) (s : store) : store :=
  match st_pins s !! p with
  | Some pin =>
      let count := enableCount pin - 1 in
      let evs := if (count =? 0) && hasDigitalOut pin then [SetDigital p printTime 0] else [] in
      emit evs (set_pins (<[p := mkEnable (hasDigitalOut pin) count (isDedicated pin)]> (st_pins s)) s)
  | None => s
  end.

(** ** Lines *)

Definition AddActiveCallback (stepper line : nat) (s : store) : store :=
  mkStore (st_pins s) (st_lines s) (enableLines s) (<[stepper := default [] (st_active s !! stepper) ++ [line]]> (st_active s))%list (st_events s).

Definition NewEnableTracking (stepper enable : nat) (s : store) : nat * store :=
  let l := length (st_lines s) in
  (l, AddActiveCallback stepper l (set_lines (st_lines s ++ [mkLine stepper enable [] false])%list s)).

Definition RegisterStateCallback (l cb : nat) (s : store) : store :=
  set_lines (alter (λ line, mkLine (l_stepper line) (l_enable line) (l_callbacks line ++ [cb])%list (isEnabled line)) l (st_lines s)) s.

Definition set_enabled (l : nat) (b : bool) (s : store) : store :=
  set_lines (alter (λ line, mkLine (l_stepper line) (l_enable line) (l_callbacks line) b) l (st_lines s)) s.

Definition MotorEnable (l : nat) (printTime : f64) (s : store) : store :=
  match st_lines s !! l with
  | Some line =>
      if isEnabled line then s
      else emit ((λ cb, StateCallback cb printTime true) <$> l_callbacks line) (set_enabled l true (SetEnable (l_enable line) printTime s))
  | None => s
  end.

Definition MotorDisable (l : nat) (printTime : f64) (s : store) : store :=
  match st_lines s !! l with
  | Some line =>
      if isEnabled line then
        let s := emit ((λ cb, StateCallback cb printTime false) <$> l_callbacks line) s in
        AddActiveCallback (l_stepper line) l (set_enabled l false (SetDisable (l_enable line) printTime s))
      else s
  | None => s
  end.

Definition IsMotorEnabled (l : nat) (s : store) : bool := from_option isEnabled false (st_lines s !! l).
Definition HasDedicatedEnable (l : nat) (s : store) : bool :=
  from_option (λ line, from_option isDedicated false (st_pins s !! l_enable line)) false (st_lines s !! l).

(** ** Steppers that move *)

(** [activeTime] is what the step generator says of the first step up to [flushTime], and
    [failed] whether it fails.  The callbacks that the stepper held are called once, on an
    empty list, and the list is set to what the local state held: nothing. *)
Definition GenerateSteps (stepper : nat) (flushTime activeTime : f64) (failed : bool) (s : store) : option string * store :=
  let callbacks := default [] (st_active s !! stepper) in
  let s :=
    if (0 <? len callbacks) && flt f0 activeTime then
      let s := fold_left (λ s l, MotorEnable l activeTime s) callbacks s in
      mkStore (st_pins s) (st_lines s) (enableLines s) (<[stepper := []]> (st_active s)) (st_events s)
    else s in
  (if failed then Some "internal error in stepcompress" else None, emit [Generate stepper flushTime] s).

(** ** The module *)

(** The pins of the printer and the pins that enable steppers.  An enable pin without a
    description is always on. *)
Definition setupEnablePin (pin : string) : M (PrinterPins * store) nat := λ st,
  let '(pp, s) := st in
  let add p := (length (st_pins s), set_pins (st_pins s ++ [p])%list s) in
  if decide (pin = "") then
    let '(i, s) := add (SetDedicated false (NewStepperEnablePin false 9999)) in (Ret i, (pp, s))
  else
    match Lookup_pin pin true false (Some "stepper_enable") pp with
    | (Panic w, pp) => (Panic w, (pp, s))
    | (Ret o, pp) =>
        match objects pp !! o with
        | Some params =>
            match p_class params with
            | Some i => (Ret i, (pp, set_pins (alter (SetDedicated false) i (st_pins s)) s))
            | None =>
                match p_chip params with
                | Some _ => let '(i, s) := add (NewStepperEnablePin true 0) in (Ret i, (set_class o i pp, s))
                | None => (Panic "stepper enable chip does not implement stepperEnablePinChip", (pp, s))
                end
            end
        | None => (Panic "nil map", (pp, s))
        end
    end.

Definition RegisterStepper (pin name : string) (stepper : nat) : M (PrinterPins * store) unit :=
  i ← setupEnablePin pin;
  modify (λ st, let '(pp, s) := st in
    let '(l, s) := NewEnableTracking stepper i s in
    (pp, mkStore (st_pins s) (st_lines s) (<[name := l]> (enableLines s)) (st_active s) (st_events s))).

(** [names] are the entries of the table in the order in which the loop meets them, and
    [printTime] is the time of the last move. *)
Definition MotorOff (names : list string) (printTime : f64) (s : store) : store :=
  let s := emit [Dwell disableStallTime] s in
  let s := fold_left (λ s name, match enableLines s !! name with Some l => MotorDisable l printTime s | None => s end) names s in
  emit [MotorOffEvent printTime; Dwell disableStallTime] s.

Definition motorDebugEnable (name : string) (enable : bool) (printTime : f64) (s : store) : store :=
  let s := emit [Dwell disableStallTime] s in
  let s := match enableLines s !! name with Some l => if enable then MotorEnable l printTime s else MotorDisable l printTime s | None => s end in
  emit [Dwell disableStallTime] s.

Definition cmdSetStepperEnable (name : string) (enable : Z) (printTime : f64) (s : store) : store :=
  match enableLines s !! name with
  | None => emit [RespondInfo "set_stepper_enable: Invalid stepper"] s
  | Some _ => motorDebugEnable name (enable =? 1) printTime s
  end.

Definition cmdM18 (names : list string) (printTime : f64) (s : store) : store := MotorOff names printTime s.
Definition handleRequestRestart (names : list string) (printTime : f64) (s : store) : store := MotorOff names printTime s.

Definition Lookup_enable (name : string) (s : store) : string + nat :=
  match enableLines s !! name with Some l => inr l | None => inl "Unknown stepper" end.

(** The error is dropped, and the missing line used. *)
Definition SetStepperEnabled (name : string) (printTime : f64) (enable : bool) (s : store) : go store :=
  match Lookup_enable name s with
  | inr l => Ret (if enable then MotorEnable l printTime s else MotorDisable l printTime s)
  | inl _ => Panic "nil pointer dereference"
  end.

Definition GetStatus (names : list string) (s : store) : list (string * bool) :=
  (λ name, (name, from_option (λ l, IsMotorEnabled l s) false (enableLines s !! name))) <$> names.

#[local] Close Scope string_scope.

(** ** Counting *)

Fixpoint count {A} (f : A → bool) (l : list A) : Z :=
  match l with [] => 0 | x :: l => Z.b2z (f x) + count f l end.

Lemma count_nonneg {A} (f : A → bool) l : 0 ≤ count f l.
Proof. induction l as [|x l IH]; cbn; [lia|]. destruct (f x); cbn; lia. Qed.

Lemma count_app {A} (f : A → bool) l k : count f (l ++ k) = count f l + count f k.
Proof. induction l as [|x l IH]; cbn; lia. Qed.

Lemma count_insert {A} (f : A → bool) l i x y : l !! i = Some x → count f (<[i := y]> l) = count f l - Z.b2z (f x) + Z.b2z (f y).
Proof.
  revert i. induction l as [|z l IH]; intros [|i] Hi; [done..| |].
  - injection Hi as ->. change (Z.b2z (f y) + count f l = Z.b2z (f x) + count f l - Z.b2z (f x) + Z.b2z (f y)). lia.
  - change (Z.b2z (f z) + count f (<[i := y]> l) = Z.b2z (f z) + count f l - Z.b2z (f x) + Z.b2z (f y)). rewrite (IH i Hi). lia.
Qed.

Lemma count_pos {A} (f : A → bool) l : 0 < count f l ↔ ∃ i x, l !! i = Some x ∧ f x = true.
Proof.
  split.
  - induction l as [|x l IH]; cbn; [lia|]. destruct (f x) eqn:E; [intros _; by exists 0%nat, x|]. intros H. destruct IH as (i & y & Hy & Hf); [cbn in H; lia|]. by exists (S i), y.
  - intros (i & x & Hi & Hf). revert i Hi. induction l as [|z l IH]; intros [|i] Hi; [done..| |]; cbn in *.
    + injection Hi as ->. rewrite Hf. cbn. pose proof (count_nonneg f l). lia.
    + specialize (IH i Hi). destruct (f z); cbn; lia.
Qed.

(** ** The invariant *)

(** The level of a pin: the last that was sent to it. *)
Definition level_step (p : nat) (v : Z) (e : event) : Z :=
  match e with SetDigital q _ w => if decide (q = p) then w else v | _ => v end.
Definition level (p : nat) (evs : list event) : Z := fold_left (level_step p) evs 0.
Arguments level : simpl never.

Definition on_pin (p : nat) (l : EnableTracking) : bool := isEnabled l && bool_decide (l_enable l = p).

Definition base (pin : StepperEnablePin) : Z := if hasDigitalOut pin then 0 else 9999.

Record enable_ok (s : store) : Prop := {
  ok_pin : ∀ l line, st_lines s !! l = Some line → is_Some (st_pins s !! l_enable line);
  ok_count : ∀ p pin, st_pins s !! p = Some pin → enableCount pin = base pin + count (on_pin p) (st_lines s);
  ok_level : ∀ p pin, st_pins s !! p = Some pin → hasDigitalOut pin = true → level p (st_events s) = (if 0 <? count (on_pin p) (st_lines s) then 1 else 0);
  ok_fresh : ∀ p, (length (st_pins s) ≤ p)%nat → level p (st_events s) = 0;
  ok_callback : ∀ l line, st_lines s !! l = Some line → isEnabled line = false → l ∈ default [] (st_active s !! l_stepper line);
  ok_table : ∀ name l, enableLines s !! name = Some l → is_Some (st_lines s !! l)
}.

Definition quiet (e : event) : bool := match e with SetDigital _ _ _ => false | _ => true end.

Lemma level_app p evs more : level p (evs ++ more) = fold_left (level_step p) more (level p evs).
Proof. unfold level. by rewrite fold_left_app. Qed.

Lemma level_quiet p evs more : forallb quiet more = true → level p (evs ++ more) = level p evs.
Proof.
  intros H. rewrite level_app. generalize (level p evs). induction more as [|e more IH]; intros v; [done|]. cbn in *.
  apply andb_true_iff in H as [He H]. rewrite (IH H). by destruct e.
Qed.

Lemma ok_emit s evs : forallb quiet evs = true → enable_ok s → enable_ok (emit evs s).
Proof. intros Hq [H1 H2 H3 H4 H5 H6]. split; cbn; [exact H1|exact H2| | |exact H5|exact H6]; intros p; intros; rewrite level_quiet by done; [by eapply H3|by apply H4]. Qed.

Lemma ok_new : enable_ok NewPrinterStepperEnableModule.
Proof. split; cbn; try done; intros ? ? Hx; by rewrite lookup_empty in Hx. Qed.

(** A line changes its state: the count and the level of its pin follow. *)
Definition switched (b : bool) (t : f64) (l : nat) (line : EnableTracking) (pin : StepperEnablePin) (act : gmap nat (list nat)) (s : store) : store :=
  let count' := enableCount pin + (if b then 1 else -1) in
  let sent := if ((if b then enableCount pin else count') =? 0) && hasDigitalOut pin then [SetDigital (l_enable line) t (Z.b2z b)] else [] in
  mkStore (<[l_enable line := mkEnable (hasDigitalOut pin) count' (isDedicated pin)]> (st_pins s))
    (<[l := mkLine (l_stepper line) (l_enable line) (l_callbacks line) b]> (st_lines s)) (enableLines s) act (st_events s ++ sent).

Lemma switched_count b t l line pin act s p : st_lines s !! l = Some line → isEnabled line = negb b →
  count (on_pin p) (st_lines (switched b t l line pin act s)) = count (on_pin p) (st_lines s) + (if decide (p = l_enable line) then if b then 1 else -1 else 0).
Proof.
  intros Hl Hb. cbn. rewrite (count_insert _ _ _ line) by done. unfold on_pin. cbn. rewrite Hb.
  destruct (decide (p = l_enable line)) as [->|Hn]; [rewrite bool_decide_eq_true_2 by done|rewrite bool_decide_eq_false_2 by congruence]; destruct b; cbn; lia.
Qed.

Lemma ok_switched b t l line pin act s :
  enable_ok s → st_lines s !! l = Some line → isEnabled line = negb b → st_pins s !! l_enable line = Some pin →
  (∀ m line', st_lines (switched b t l line pin act s) !! m = Some line' → isEnabled line' = false → m ∈ default [] (act !! l_stepper line')) →
  enable_ok (switched b t l line pin act s).
Proof.
  intros [H1 H2 H3 H4 H5 H6] Hl Hb Hp Hact. set (s' := switched _ _ _ _ _ _ _) in *.
  pose proof (λ p, switched_count b t l line pin act s p Hl Hb) as Hc. fold s' in Hc. pose proof (H2 _ _ Hp) as Hcount.
  assert (Hlt : (l_enable line < length (st_pins s))%nat) by (by eapply lookup_lt_Some).
  split; [| | | |exact Hact|].
  - intros m line' Hm. cbn in Hm |- *. apply list_lookup_insert_Some in Hm as [(-> & <- & _)|[_ Hm]]; cbn.
    + apply lookup_lt_is_Some. by rewrite length_insert.
    + apply lookup_lt_is_Some. rewrite length_insert. apply lookup_lt_is_Some. by eapply H1.
  - intros p q Hq. rewrite Hc. cbn in Hq. apply list_lookup_insert_Some in Hq as [(<- & <- & _)|[Hn Hq]]; cbn.
    + rewrite decide_True by done. unfold base in *. cbn. destruct b; lia.
    + rewrite decide_False by congruence. rewrite (H2 p q Hq). lia.
  - intros p q Hq Hout. rewrite Hc. cbn in Hq. cbn [switched st_events s']. rewrite level_app.
    apply list_lookup_insert_Some in Hq as [(<- & <- & _)|[Hn Hq]].
    + cbn in Hout. rewrite decide_True by done. unfold base in Hcount. rewrite Hout in Hcount |- *. rewrite (H3 _ _ Hp Hout). rewrite andb_true_r.
      pose proof (count_nonneg (on_pin (l_enable line)) (st_lines s)) as Hnn. rewrite Hcount. destruct b; cbn [Z.b2z].
      * destruct (0 + _ =? 0) eqn:E; cbn; rewrite ?decide_True by done; repeat case_match; lia.
      * assert (0 < count (on_pin (l_enable line)) (st_lines s)) by (apply count_pos; exists l, line; split; [done|]; unfold on_pin; rewrite Hb; by rewrite bool_decide_eq_true_2).
        destruct (0 + _ + -1 =? 0) eqn:E; cbn; rewrite ?decide_True by done; repeat case_match; lia.
    + rewrite decide_False by congruence. rewrite Z.add_0_r, <- (H3 _ _ Hq Hout). destruct (_ && _); [|done]. cbn. by rewrite decide_False.
  - intros p Hge. cbn in Hge. rewrite length_insert in Hge. cbn [switched st_events s']. rewrite level_app, (H4 p Hge). destruct (_ && _); [|done]. cbn. rewrite decide_False by lia. done.
  - intros name m Hm. cbn in Hm |- *. apply lookup_lt_is_Some. rewrite length_insert. apply lookup_lt_is_Some. by eapply H6.
Qed.

(** ** Properties: lines *)

Lemma alter_insert {A} (f : A → A) (l : list A) i x : l !! i = Some x → alter f i l = <[i := f x]> l.
Proof.
  revert i. induction l as [|y l IH]; intros [|i] Hi; [done..| |]; [by injection Hi as ->|].
  change (y :: alter f i l = y :: <[i := f x]> l). by rewrite (IH i Hi).
Qed.

Lemma alter_none {A} (f : A → A) (l : list A) i : l !! i = None → alter f i l = l.
Proof. intros Hi. apply list_eq. intros j. destruct (decide (i = j)) as [->|]; [by rewrite list_lookup_alter_eq, Hi|by rewrite list_lookup_alter_ne]. Qed.

Lemma MotorEnable_eq l t s line pin : st_lines s !! l = Some line → isEnabled line = false → st_pins s !! l_enable line = Some pin →
  MotorEnable l t s = emit ((λ cb, StateCallback cb t true) <$> l_callbacks line) (switched true t l line pin (st_active s) s).
Proof. intros Hl Hb Hp. unfold MotorEnable, SetEnable, set_enabled, switched. rewrite Hl, Hb, Hp. cbn. by rewrite (alter_insert _ _ _ line). Qed.

Lemma MotorDisable_eq l t s line pin : st_lines s !! l = Some line → isEnabled line = true → st_pins s !! l_enable line = Some pin →
  MotorDisable l t s = switched false t l line pin (<[l_stepper line := default [] (st_active s !! l_stepper line) ++ [l]]> (st_active s))
    (emit ((λ cb, StateCallback cb t false) <$> l_callbacks line) s).
Proof.
  intros Hl Hb Hp. unfold MotorDisable, SetDisable, set_enabled, switched, AddActiveCallback. rewrite Hl, Hb. cbn. rewrite Hp. cbn.
  by rewrite (alter_insert _ _ _ line).
Qed.

Lemma quiet_callbacks t b (cbs : list nat) : forallb quiet ((λ cb, StateCallback cb t b) <$> cbs) = true.
Proof. by induction cbs. Qed.

Lemma active_grows l k (act : gmap nat (list nat)) st m : m ∈ default [] (act !! k) → m ∈ default [] (<[st := default [] (act !! st) ++ [l]]> act !! k).
Proof. intros Hm. destruct (decide (st = k)) as [->|]; [rewrite lookup_insert_eq; cbn; set_solver|by rewrite lookup_insert_ne]. Qed.

Lemma ok_MotorEnable l t s : enable_ok s → enable_ok (MotorEnable l t s).
Proof.
  intros Hs. destruct (st_lines s !! l) as [line|] eqn:Hl; [|unfold MotorEnable; by rewrite Hl].
  destruct (isEnabled line) eqn:Hb; [unfold MotorEnable; by rewrite Hl, Hb|]. destruct (ok_pin s Hs l line Hl) as [pin Hp].
  rewrite (MotorEnable_eq l t s line pin) by done. apply ok_emit; [apply quiet_callbacks|]. apply ok_switched; [done..|].
  intros m line' Hm Hd. cbn in Hm. apply list_lookup_insert_Some in Hm as [(-> & <- & _)|[_ Hm]]; [done|]. by apply (ok_callback s Hs).
Qed.

Lemma ok_MotorDisable l t s : enable_ok s → enable_ok (MotorDisable l t s).
Proof.
  intros Hs. destruct (st_lines s !! l) as [line|] eqn:Hl; [|unfold MotorDisable; by rewrite Hl].
  destruct (isEnabled line) eqn:Hb; [|unfold MotorDisable; by rewrite Hl, Hb]. destruct (ok_pin s Hs l line Hl) as [pin Hp].
  rewrite (MotorDisable_eq l t s line pin) by done. apply ok_switched; [by apply ok_emit; [apply quiet_callbacks|]|done..|].
  intros m line' Hm Hd. cbn in Hm. apply list_lookup_insert_Some in Hm as [(<- & <- & _)|[_ Hm]]; cbn.
  - rewrite lookup_insert_eq. cbn. set_solver.
  - apply active_grows. by apply (ok_callback s Hs).
Qed.

Lemma ok_NewEnableTracking stepper enable s : enable_ok s → is_Some (st_pins s !! enable) → enable_ok (NewEnableTracking stepper enable s).2.
Proof.
  intros [H1 H2 H3 H4 H5 H6] He. assert (Hc : ∀ p, count (on_pin p) (st_lines s ++ [mkLine stepper enable [] false]) = count (on_pin p) (st_lines s)).
  { intros p. rewrite count_app. cbn. lia. }
  split; cbn; intros; rewrite ?Hc; eauto.
  - apply lookup_snoc_Some in H as [[_ H]|[_ <-]]; [by eapply H1|done].
  - apply lookup_snoc_Some in H as [[_ H]|[-> <-]]; [by apply active_grows, H5|]. cbn. rewrite lookup_insert_eq. cbn. set_solver.
  - apply H6 in H. destruct H as [x Hx]. exists x. by apply lookup_app_l_Some.
Qed.

Lemma ok_RegisterStateCallback l cb s : enable_ok s → enable_ok (RegisterStateCallback l cb s).
Proof.
  intros Hs. unfold RegisterStateCallback. destruct (st_lines s !! l) as [line|] eqn:Hl.
  2: { rewrite alter_none by done. by destruct s. }
  rewrite (alter_insert _ _ _ line) by done. set (line2 := mkLine _ _ _ _). destruct Hs as [H1 H2 H3 H4 H5 H6].
  assert (Hc : ∀ p, count (on_pin p) (<[l := line2]> (st_lines s)) = count (on_pin p) (st_lines s)).
  { intros p. rewrite (count_insert _ _ _ line) by done. unfold on_pin. cbn. lia. }
  split; cbn; intros; rewrite ?Hc; eauto.
  - apply list_lookup_insert_Some in H as [(<- & <- & _)|[_ H]]; [by apply (H1 l line)|by eapply H1].
  - apply list_lookup_insert_Some in H as [(<- & <- & _)|[_ H]]; [by apply (H5 l line)|by eapply H5].
  - apply lookup_lt_is_Some. rewrite length_insert. apply lookup_lt_is_Some. eauto.
Qed.

(** ** Properties: pins *)

Lemma count_zero {A} (f : A → bool) l : (∀ i x, l !! i = Some x → f x = false) → count f l = 0.
Proof. intros H. destruct (decide (0 < count f l)) as [(i & x & Hi & Hf)%count_pos|]; [rewrite (H i x Hi) in Hf; done|]. pose proof (count_nonneg f l). lia. Qed.

Lemma ok_add_pin pin s : enable_ok s → enableCount pin = base pin → enable_ok (set_pins (st_pins s ++ [pin]) s).
Proof.
  intros [H1 H2 H3 H4 H5 H6] Hb. assert (Hz : count (on_pin (length (st_pins s))) (st_lines s) = 0).
  { apply count_zero. intros i x Hx. unfold on_pin. rewrite bool_decide_eq_false_2; [by rewrite andb_false_r|]. intros E. apply H1 in Hx. apply lookup_lt_is_Some in Hx. lia. }
  split; cbn; [| | | |exact H5|exact H6].
  - intros l line Hl. destruct (H1 l line Hl) as [x Hx]. exists x. by apply lookup_app_l_Some.
  - intros p q [[_ Hq]|[-> <-]]%lookup_snoc_Some; [by apply H2|]. rewrite Hz. lia.
  - intros p q [[_ Hq]|[-> <-]]%lookup_snoc_Some; [by apply H3|]. intros _. rewrite Hz. by apply H4.
  - intros p Hp. rewrite length_app in Hp. apply H4. lia.
Qed.

Lemma ok_dedicated b i s : enable_ok s → enable_ok (set_pins (alter (SetDedicated b) i (st_pins s)) s).
Proof.
  intros Hs. destruct (st_pins s !! i) as [pin|] eqn:Hi; [|rewrite alter_none by done; by destruct s].
  rewrite (alter_insert _ _ _ pin) by done. destruct Hs as [H1 H2 H3 H4 H5 H6]. split; cbn; [| | | |exact H5|exact H6].
  - intros l line Hl. apply lookup_lt_is_Some. rewrite length_insert. apply lookup_lt_is_Some. by eapply H1.
  - intros p q [(<- & <- & _)|[_ Hq]]%list_lookup_insert_Some; [by apply (H2 i pin)|by apply H2].
  - intros p q [(<- & <- & _)|[_ Hq]]%list_lookup_insert_Some; [by apply (H3 i pin)|by apply H3].
  - intros p. rewrite length_insert. apply H4.
Qed.

(** The parameters of the pins name enable pins that exist. *)
Definition classes_ok (pp : PrinterPins) (s : store) : Prop := ∀ i p c, objects pp !! i = Some p → p_class p = Some c → is_Some (st_pins s !! c).

Definition state_ok (st : PrinterPins * store) : Prop := enable_ok st.2 ∧ classes_ok st.1 st.2.

Lemma lookup_classes desc inv pull share pp s : classes_ok pp s → classes_ok (Lookup_pin desc inv pull share pp).2 s.
Proof.
  intros H. unfold Lookup_pin. destruct (active_pins pp !! _) as [i|]; [destruct (objects pp !! i); [repeat case_decide|]; done|].
  intros i p c. cbn. intros [[_ Hi]|[_ <-]]%lookup_snoc_Some Hc; [by eapply H|done].
Qed.

Lemma classes_grow pp s ps : classes_ok pp s → (length (st_pins s) ≤ length ps)%nat → classes_ok pp (set_pins ps s).
Proof. intros H Hl i p c Hi Hc. destruct (H i p c Hi Hc) as [x Hx%lookup_lt_Some]. apply lookup_lt_is_Some. cbn. lia. Qed.

Lemma classes_set o i pp s : classes_ok pp s → is_Some (st_pins s !! i) → classes_ok (set_class o i pp) s.
Proof.
  intros H Hi k p c Hk Hc. cbn in Hk. destruct (objects pp !! o) as [q|] eqn:Ho.
  - rewrite (alter_insert _ _ _ q) in Hk by done. apply list_lookup_insert_Some in Hk as [(-> & <- & _)|[_ Hk]]; [by injection Hc as <-|by apply (H k p c)].
  - rewrite alter_none in Hk by done. by apply (H k p c).
Qed.

Lemma setup_ok pin st : state_ok st → let r := setupEnablePin pin st in state_ok r.2 ∧ ∀ i, r.1 = Ret i → is_Some (st_pins r.2.2 !! i).
Proof.
  destruct st as [pp s]. intros [Hs Hc]. cbn in Hs, Hc. unfold setupEnablePin.
  assert (Hnew : ∀ pin, enableCount pin = base pin → enable_ok (set_pins (st_pins s ++ [pin]) s)) by (intros; by apply ok_add_pin).
  assert (Hlast : ∀ q : StepperEnablePin, is_Some ((st_pins s ++ [q])%list !! length (st_pins s))) by (intros q; exists q; by apply list_lookup_middle).
  destruct (decide _).
  { cbn. split; [split; [by apply Hnew|apply classes_grow; [done|rewrite length_app; lia]]|]. intros i [= <-]. apply Hlast. }
  pose proof (lookup_classes pin true false (Some "stepper_enable"%string) pp s Hc) as Hl.
  destruct (Lookup_pin _ _ _ _ pp) as [[o|w] pp'] eqn:E; cbn in Hl; [|by split; [split|intros i [=]]].
  destruct (objects pp' !! o) as [params|] eqn:Ho; [|by split; [split|intros i [=]]]. destruct (p_class params) as [c|] eqn:Ec.
  - cbn. split; [split; [by apply ok_dedicated|apply classes_grow; [done|by rewrite length_alter]]|]. intros i [= <-].
    apply lookup_lt_is_Some. rewrite length_alter. apply lookup_lt_is_Some. by eapply Hl.
  - destruct (p_chip params); cbn; [|by split; [split|intros i [=]]]. split; [|intros i [= <-]; apply Hlast]. split; cbn; [by apply Hnew|].
    apply classes_set; [apply classes_grow; [done|rewrite length_app; lia]|apply Hlast].
Qed.

Lemma register_stepper_ok pin name stepper st : state_ok st → state_ok (RegisterStepper pin name stepper st).2.
Proof.
  intros Hst. destruct (setup_ok pin st Hst) as [H Hi]. unfold RegisterStepper, mbind, M_bind. destruct (setupEnablePin pin st) as [[i|w] [pp s]]; [|done].
  cbn in H, Hi. destruct H as [Hs Hc]. destruct (ok_NewEnableTracking stepper i s Hs (Hi i eq_refl)) as [H1 H2 H3 H4 H5 H6]. split; cbn in *; [|done].
  split; cbn; [exact H1|exact H2|exact H3|exact H4|exact H5|].
  intros n l Hn. destruct (decide (n = name)) as [->|Hne].
  - rewrite lookup_insert_eq in Hn. injection Hn as <-. eexists. by apply list_lookup_middle.
  - rewrite lookup_insert_ne in Hn by done. by eapply H6.
Qed.

(** ** Several lines at a time *)

Definition enabled_as (b : bool) (line : EnableTracking) : EnableTracking := mkLine (l_stepper line) (l_enable line) (l_callbacks line) b.

Lemma enabled_as_same line : enabled_as (isEnabled line) line = line.
Proof. by destruct line. Qed.

Lemma alter_same {A} (f : A → A) (l : list A) i x : l !! i = Some x → f x = x → alter f i l = l.
Proof. intros Hi Hf. rewrite (alter_insert _ _ _ x), Hf by done. by apply list_insert_id. Qed.

Lemma SetEnable_lines p t s : st_lines (SetEnable p t s) = st_lines s ∧ enableLines (SetEnable p t s) = enableLines s ∧ st_active (SetEnable p t s) = st_active s.
Proof. unfold SetEnable. by destruct (st_pins s !! p). Qed.
Lemma SetDisable_lines p t s : st_lines (SetDisable p t s) = st_lines s ∧ enableLines (SetDisable p t s) = enableLines s.
Proof. unfold SetDisable. by destruct (st_pins s !! p). Qed.

Lemma MotorEnable_lines l t s : st_lines (MotorEnable l t s) = alter (enabled_as true) l (st_lines s) ∧ enableLines (MotorEnable l t s) = enableLines s ∧ st_active (MotorEnable l t s) = st_active s.
Proof.
  unfold MotorEnable. destruct (st_lines s !! l) as [line|] eqn:Hl; [|by rewrite alter_none].
  destruct (isEnabled line) eqn:Hb; [rewrite (alter_same _ _ _ line); [done|done|rewrite <- Hb; apply enabled_as_same]|].
  destruct (SetEnable_lines (l_enable line) t s) as (E1 & E2 & E3). cbn. by rewrite E1, E2, E3.
Qed.

Lemma MotorDisable_lines l t s : st_lines (MotorDisable l t s) = alter (enabled_as false) l (st_lines s) ∧ enableLines (MotorDisable l t s) = enableLines s.
Proof.
  unfold MotorDisable. destruct (st_lines s !! l) as [line|] eqn:Hl; [|by rewrite alter_none].
  destruct (isEnabled line) eqn:Hb; [|rewrite (alter_same _ _ _ line); [done|done|rewrite <- Hb; apply enabled_as_same]].
  set (s1 := emit _ s). destruct (SetDisable_lines (l_enable line) t s1) as (E1 & E2). cbn. by rewrite E1, E2.
Qed.

Lemma enable_all_lines cbs t s m (s' := fold_left (λ s l, MotorEnable l t s) cbs s) :
  st_lines s' !! m = (λ line, if decide (m ∈ cbs) then enabled_as true line else line) <$> st_lines s !! m ∧ enableLines s' = enableLines s ∧ st_active s' = st_active s.
Proof.
  subst s'. revert s. induction cbs as [|l cbs IH]; intros s; cbn [fold_left].
  { split; [|done]. destruct (st_lines s !! m); cbn; [|done]. by rewrite decide_False by set_solver. }
  destruct (IH (MotorEnable l t s)) as (-> & -> & ->). destruct (MotorEnable_lines l t s) as (-> & -> & ->). split; [|done].
  destruct (decide (m = l)) as [->|Hn].
  - rewrite list_lookup_alter_eq. destruct (st_lines s !! l); cbn; [|done]. rewrite (decide_True (P := l ∈ l :: cbs)) by set_solver. by destruct (decide _).
  - rewrite list_lookup_alter_ne by done. destruct (st_lines s !! m); cbn; [|done]. destruct (decide (m ∈ cbs)); [rewrite decide_True by set_solver|rewrite decide_False by set_solver]; done.
Qed.

Lemma ok_enable_all cbs t s : enable_ok s → enable_ok (fold_left (λ s l, MotorEnable l t s) cbs s).
Proof. intros Hs. apply fold_left_inv; [|done]. intros s0 l H0. by apply ok_MotorEnable. Qed.

(** A stepper that is about to move is enabled, and its callbacks are used up. *)
Lemma generate_ok stepper flush active failed s (s' := (GenerateSteps stepper flush active failed s).2) :
  enable_ok s → enable_ok s' ∧ (flt f0 active = true → ∀ l line, st_lines s' !! l = Some line → l_stepper line = stepper → isEnabled line = true).
Proof.
  intros Hs. subst s'. unfold GenerateSteps. set (cbs := default [] (st_active s !! stepper)). cbn [snd].
  destruct ((0 <? len cbs) && flt f0 active) eqn:E.
  - pose proof (λ m, enable_all_lines cbs active s m) as Hl. pose proof (ok_enable_all cbs active s Hs) as Hok.
    set (s1 := fold_left _ cbs s) in *. destruct (Hl O) as (_ & _ & Hact).
    assert (Hon : ∀ l line, st_lines s1 !! l = Some line → l_stepper line = stepper → isEnabled line = true).
    { intros l line. rewrite (proj1 (Hl l)). destruct (st_lines s !! l) as [line0|] eqn:E0; [|done]. cbn. intros [= <-] Hst.
      destruct (decide (l ∈ cbs)) as [|Hn]; [done|]. destruct (isEnabled line0) eqn:Hb; [done|]. exfalso. apply Hn. unfold cbs. rewrite <- Hst. by apply (ok_callback s Hs). }
    split; [|intros _; exact Hon]. apply ok_emit; [done|]. destruct Hok as [H1 H2 H3 H4 H5 H6]. split; cbn; [exact H1|exact H2|exact H3|exact H4| |exact H6].
    intros l line Hline Hoff. destruct (decide (l_stepper line = stepper)) as [Hst|Hst]; [rewrite (Hon l line Hline Hst) in Hoff; discriminate|].
    rewrite lookup_insert_ne by done. by apply H5.
  - split; [by apply ok_emit|]. intros Ha l line Hline Hst. destruct (isEnabled line) eqn:Hb; [done|]. exfalso.
    pose proof (ok_callback s Hs l line Hline Hb) as Hin. rewrite Hst in Hin. fold cbs in Hin. rewrite Ha, andb_true_r in E.
    apply Z.ltb_ge in E. destruct cbs; [set_solver|]. rewrite len_cons in E. pose proof (len_nonneg cbs). lia.
Qed.

Lemma off_all_lines names t s (s' := fold_left (λ s name, match enableLines s !! name with Some l => MotorDisable l t s | None => s end) names s) :
  enable_ok s → enable_ok s' ∧ enableLines s' = enableLines s ∧ length (st_lines s') = length (st_lines s) ∧
  ∀ m line, st_lines s' !! m = Some line → isEnabled line = true → (∃ line0, st_lines s !! m = Some line0 ∧ isEnabled line0 = true) ∧ ∀ name, name ∈ names → enableLines s !! name ≠ Some m.
Proof.
  subst s'. revert s. induction names as [|name names IH]; intros s Hs; cbn [fold_left].
  { split; [done|split; [done|split; [done|]]]. intros m line Hm Hb. split; [by exists line|set_solver]. }
  destruct (enableLines s !! name) as [l|] eqn:En.
  - destruct (IH _ (ok_MotorDisable l t s Hs)) as (Hok & E2 & E3 & Hoff). destruct (MotorDisable_lines l t s) as (El & Et). rewrite E2, E3, Et, El, length_alter.
    split; [done|split; [done|split; [done|]]]. intros m line Hm Hb. destruct (Hoff m line Hm Hb) as ((line0 & H0 & Hb0) & Hnames). rewrite El in H0. rewrite Et in Hnames.
    destruct (decide (m = l)) as [->|Hn].
    + rewrite list_lookup_alter_eq in H0. destruct (st_lines s !! l); [|done]. cbn in H0. injection H0 as <-. discriminate.
    + rewrite list_lookup_alter_ne in H0 by done. split; [by exists line0|]. intros n [->|Hn']%elem_of_cons; [congruence|by apply Hnames].
  - destruct (IH s Hs) as (Hok & E2 & E3 & Hoff). split; [done|split; [done|split; [done|]]]. intros m line Hm Hb. destruct (Hoff m line Hm Hb) as (H0 & Hnames).
    split; [done|]. intros n [->|Hn']%elem_of_cons; [congruence|by apply Hnames].
Qed.

(** ** Whatever happens *)

Inductive op :=
| OLookup (r : string * bool * bool * option string)
| ORegister (pin name : string) (stepper : nat)
| OStateCallback (l cb : nat)
| OEnable (l : nat) (t : f64)
| ODisable (l : nat) (t : f64)
| OMotorOff (names : list string) (t : f64)
| OSetStepperEnable (name : string) (enable : Z) (t : f64)
| OSetStepperEnabled (name : string) (enable : bool) (t : f64)
| OGenerate (stepper : nat) (flush active : f64) (failed : bool).

(** A panic leaves what was done before it. *)
Definition do_op (o : op) (st : PrinterPins * store) : PrinterPins * store :=
  let '(pp, s) := st in
  match o with
  | OLookup (desc, inv, pull, share) => ((Lookup_pin desc inv pull share pp).2, s)
  | ORegister pin name stepper => (RegisterStepper pin name stepper st).2
  | OStateCallback l cb => (pp, RegisterStateCallback l cb s)
  | OEnable l t => (pp, MotorEnable l t s)
  | ODisable l t => (pp, MotorDisable l t s)
  | OMotorOff names t => (pp, MotorOff names t s)
  | OSetStepperEnable name e t => (pp, cmdSetStepperEnable name e t s)
  | OSetStepperEnabled name b t => (pp, match SetStepperEnabled name t b s with Ret s => s | Panic _ => s end)
  | OGenerate stepper flush active failed => (pp, (GenerateSteps stepper flush active failed s).2)
  end.

Definition run_ops (pp : PrinterPins) (ops : list op) : PrinterPins * store := fold_left (λ st o, do_op o st) ops (pp, NewPrinterStepperEnableModule).

Lemma ok_switch_either (b : bool) l t s : enable_ok s → enable_ok (if b then MotorEnable l t s else MotorDisable l t s).
Proof. destruct b; [apply ok_MotorEnable|apply ok_MotorDisable]. Qed.

Lemma switch_pins l t s : length (st_pins (MotorEnable l t s)) = length (st_pins s) ∧ length (st_pins (MotorDisable l t s)) = length (st_pins s).
Proof.
  unfold MotorEnable, MotorDisable, SetEnable, SetDisable. destruct (st_lines s !! l) as [line|]; [|done]. cbn.
  destruct (isEnabled line); destruct (st_pins s !! l_enable line); cbn; by rewrite ?length_insert.
Qed.

Lemma fold_pins {A} (f : store → A → store) xs s : (∀ s x, length (st_pins (f s x)) = length (st_pins s)) → length (st_pins (fold_left f xs s)) = length (st_pins s).
Proof. intros Hf. revert s. induction xs as [|x xs IH]; intros s; [done|]. cbn. by rewrite IH, Hf. Qed.

Lemma classes_keep pp s s' : classes_ok pp s → length (st_pins s') = length (st_pins s) → classes_ok pp s'.
Proof. intros H Hl i p c Hi Hc. destruct (H i p c Hi Hc) as [x Hx%lookup_lt_Some]. apply lookup_lt_is_Some. lia. Qed.

Lemma do_op_ok o st : state_ok st → state_ok (do_op o st).
Proof.
  intros Hst. destruct o as [[[[desc inv] pull] share]|pin name stepper|l cb|l t|l t|names t|name e t|name b t|stepper flush active failed], st as [pp s];
    cbn [do_op]; [|by apply register_stepper_ok|..]; destruct Hst as [Hs Hc]; cbn in Hs, Hc; split; cbn [fst snd].
  - done.
  - by apply lookup_classes.
  - by apply ok_RegisterStateCallback.
  - done.
  - by apply ok_MotorEnable.
  - eapply classes_keep; [done|]. apply switch_pins.
  - by apply ok_MotorDisable.
  - eapply classes_keep; [done|]. apply switch_pins.
  - apply ok_emit; [done|]. by apply off_all_lines, ok_emit.
  - eapply classes_keep; [done|]. cbn. rewrite fold_pins; [done|]. intros s0 x. destruct (enableLines s0 !! x); [apply switch_pins|done].
  - unfold cmdSetStepperEnable, motorDebugEnable. destruct (enableLines s !! name) as [l|] eqn:E; [|by apply ok_emit].
    apply ok_emit; [done|]. cbn. rewrite E. by apply ok_switch_either, ok_emit.
  - eapply classes_keep; [done|]. unfold cmdSetStepperEnable, motorDebugEnable. destruct (enableLines s !! name) as [l|] eqn:E; [|done].
    cbn. rewrite E. by destruct (e =? 1); rewrite ?(proj1 (switch_pins _ _ _)), ?(proj2 (switch_pins _ _ _)).
  - unfold SetStepperEnabled, Lookup_enable. destruct (enableLines s !! name) as [l|]; [|done]. by apply ok_switch_either.
  - eapply classes_keep; [done|]. unfold SetStepperEnabled, Lookup_enable. destruct (enableLines s !! name) as [l|]; [|done]. destruct b; apply switch_pins.
  - by apply generate_ok.
  - eapply classes_keep; [done|]. unfold GenerateSteps. cbn. destruct (_ && _); [|done]. cbn. rewrite fold_pins; [done|]. intros s0 x. apply switch_pins.
Qed.

Lemma run_ops_ok pp ops : objects pp = [] → state_ok (run_ops pp ops).
Proof.
  intros Hpp. unfold run_ops. apply fold_left_inv; [intros st o; apply do_op_ok|]. split; [apply ok_new|]. intros i p c Hi. cbn in Hi. by rewrite Hpp in Hi.
Qed.

(** A pin that enables steppers is on exactly while one of them is enabled, whatever was
    registered, enabled, disabled and moved before, and whatever pins are shared. *)
Theorem pin_on_while_enabled pp ops p pin (s := (run_ops pp ops).2) :
  objects pp = [] → st_pins s !! p = Some pin → hasDigitalOut pin = true →
  level p (st_events s) = if existsb (λ line, isEnabled line && bool_decide (l_enable line = p)) (st_lines s) then 1 else 0.
Proof.
  intros Hpp Hp Hout. destruct (run_ops_ok pp ops Hpp) as [Hs _]. fold s in Hs. rewrite (ok_level s Hs p pin Hp Hout). fold (on_pin p).
  destruct (existsb _ _) eqn:E.
  - apply existsb_exists in E as (line & Hin & Hon). apply list_elem_of_In, list_elem_of_lookup in Hin as [l Hl].
    assert (0 < count (on_pin p) (st_lines s)) by (apply count_pos; eauto). by case_match; [|lia].
  - case_match eqn:Hc; [|done]. apply Z.ltb_lt, count_pos in Hc as (l & line & Hl & Hon).
    assert (existsb (on_pin p) (st_lines s) = true); [|congruence]. apply existsb_exists. exists line. split; [|done]. by eapply list_elem_of_In, list_elem_of_lookup_2.
Qed.

(** C37. Whatever was registered, enabled, disabled and moved before, and whatever pins are
    shared: when a stepper generates steps, all its lines are enabled and their pins
    have been switched on before. *)
Theorem moving_stepper_is_enabled pp ops stepper flush active failed (s := (run_ops pp ops).2) :
  objects pp = [] → flt f0 active = true →
  let s' := (GenerateSteps stepper flush active failed s).2 in
  ∃ before, st_events s' = before ++ [Generate stepper flush] ∧
  ∀ l line pin, st_lines s' !! l = Some line → l_stepper line = stepper → st_pins s' !! l_enable line = Some pin →
    isEnabled line = true ∧ (hasDigitalOut pin = true → level (l_enable line) before = 1).
Proof.
  intros Hpp Ha s'. destruct (run_ops_ok pp ops Hpp) as [Hs _]. fold s in Hs. destruct (generate_ok stepper flush active failed s Hs) as [Hok Hon].
  fold s' in Hok, Hon. specialize (Hon Ha). eexists. split; [unfold s', GenerateSteps; cbn; reflexivity|]. intros l line pin Hl Hst Hp. split; [by eapply Hon|]. intros Hout.
  pose proof (ok_level s' Hok _ _ Hp Hout) as Hlev. assert (0 < count (on_pin (l_enable line)) (st_lines s')) as Hpos.
  { apply count_pos. exists l, line. split; [done|]. unfold on_pin. rewrite (Hon l line Hl Hst). by rewrite bool_decide_eq_true_2. }
  rewrite (proj2 (Z.ltb_lt _ _) Hpos) in Hlev. unfold s' in Hlev at 1. unfold GenerateSteps in Hlev. cbn in Hlev. by rewrite level_quiet in Hlev by done.
Qed.

(** Switching the motors off, in whatever order the table is met: no stepper of the table is
    enabled, and if all are in the table every pin is off. *)
Theorem motors_off pp ops names t (s := (run_ops pp ops).2) :
  objects pp = [] → (∀ name l, enableLines s !! name = Some l → name ∈ names) →
  let s' := MotorOff names t s in
  (∀ name l, enableLines s' !! name = Some l → IsMotorEnabled l s' = false) ∧
  ((∀ l, (l < length (st_lines s))%nat → ∃ name, enableLines s !! name = Some l) → ∀ p pin, st_pins s' !! p = Some pin → hasDigitalOut pin = true → level p (st_events s') = 0).
Proof.
  intros Hpp Hnames s'. destruct (run_ops_ok pp ops Hpp) as [Hs _]. fold s in Hs.
  pose proof (off_all_lines names t (emit [Dwell disableStallTime] s) (ok_emit s [Dwell disableStallTime] eq_refl Hs)) as (Hok & Et & Elen & Hoff).
  change (enableLines s' = enableLines s) in Et. change (length (st_lines s') = length (st_lines s)) in Elen.
  assert (Hall : ∀ name l line, enableLines s !! name = Some l → st_lines s' !! l = Some line → isEnabled line = false).
  { intros name l line Hn Hl. destruct (isEnabled line) eqn:Hb; [|done]. exfalso. destruct (Hoff l line Hl Hb) as [_ H]. by apply (H name); [eapply Hnames|]. }
  split.
  - intros name l Hn. rewrite Et in Hn. unfold IsMotorEnabled. destruct (st_lines s' !! l) as [line|] eqn:Hl; [|done]. by eapply Hall.
  - intros Htab p pin Hp Hout. assert (Hok' : enable_ok s') by (by apply ok_emit). rewrite (ok_level s' Hok' p pin Hp Hout). rewrite count_zero; [done|].
    intros l line Hl. unfold on_pin. destruct (Htab l) as [name Hn]; [rewrite <- Elen; by eapply lookup_lt_Some|]. by rewrite (Hall name l line Hn Hl).
Qed.

(** ** Examples *)

Definition demo_pins : PrinterPins := Register_chip "mcu" 0 NewPrinterPins.

(** Two steppers share a pin, a third has its own and a fourth none; the first moves and is
    switched off again while the second still moves. *)
Definition demo_ops : list op :=
  [ORegister "!PA1" "stepper_x" 0; ORegister "!PA1" "stepper_y" 1; ORegister "PB2" "stepper_z" 2; ORegister "" "extruder" 3;
   OGenerate 0 f1 f1 false; OGenerate 1 f1 f1 false; ODisable 0 (f_of_Z 2)].
Definition demo : store := (run_ops demo_pins demo_ops).2.

Example demo_counts : enableCount <$> st_pins demo = [1; 0; 9999].
Proof. vm_compute. reflexivity. Qed.

Lemma pin_on_while_enabled_witness : level 0 (st_events demo) = 1 ∧ level 1 (st_events demo) = 0.
Proof.
  split.
  - exact (pin_on_while_enabled demo_pins demo_ops 0 (mkEnable true 1 false) eq_refl eq_refl eq_refl).
  - exact (pin_on_while_enabled demo_pins demo_ops 1 (mkEnable true 0 true) eq_refl eq_refl eq_refl).
Defined.

Lemma moving_stepper_is_enabled_witness :
  ∃ before, st_events (GenerateSteps 2 (f_of_Z 3) (f_of_Z 3) false demo).2 = before ++ [Generate 2 (f_of_Z 3)] ∧ level 1 before = 1.
Proof.
  destruct (moving_stepper_is_enabled demo_pins demo_ops 2 (f_of_Z 3) (f_of_Z 3) false eq_refl eq_refl) as (before & E & H).
  exists before. split; [exact E|]. by apply (H 2%nat (mkLine 2 1 [] true) (mkEnable true 1 true)).
Defined.

Lemma motors_off_witness : level 0 (st_events (MotorOff ["stepper_z"; "stepper_x"; "extruder"; "stepper_y"] (f_of_Z 4) demo)) = 0.
Proof.
  apply (motors_off demo_pins demo_ops ["stepper_z"; "stepper_x"; "extruder"; "stepper_y"]%string (f_of_Z 4)) with (pin := mkEnable true 0 false); [reflexivity| | |vm_compute; reflexivity|reflexivity].
  - intros name l H. apply elem_of_map_to_list in H. change (map_to_list _) with (map_to_list (enableLines demo)) in H. vm_compute in H. set_solver.
  - intros l Hl. change (length _) with 4%nat in Hl. destruct l as [|[|[|[|l]]]]; [by exists "stepper_x"%string|by exists "stepper_y"%string|by exists "stepper_z"%string|by exists "extruder"%string|lia].
Defined.
