(* ===== verification/McuConfig.v ===== *)
(** * Configuring a micro-controller

    [src/internal/pkg/mcu/bootstrap.go], [config_session.go], [config_session_runtime.go],
    [connect_runtime.go], [lifecycle.go], [restart_executor.go], [status.go], [timing.go], and
    the methods of type [MCU] in [src/project/goklipper.go] that compose them: the commands
    that configure a micro-controller are collected, summed up in a checksum and sent, unless
    the micro-controller already has this configuration; its shutdowns and restarts.

    The micro-controller is a parameter: [get_config] is its answer to the query, [send] and
    [clear_shutdown] are what it does with a command.  The callbacks of the session add
    commands and ask for object numbers and move slots; they register no callbacks. *)

From S2P Require Import Prelude GoFloat GoStrings GoState Crc.

#[local] Open Scope string_scope.
#[local] Open Scope Z_scope.

(** ** The session *)

(** What the callbacks write to: the numbers that the micro-controller gives out, and the
    commands. *)
Record build := mkBuild { Oid_count : Z; reserved_move_slots : Z; configCmds : list string; restartCmds : list string; initCmds : list string }.

Definition Create_oid (b : build) : Z * build :=
  (Oid_count b, mkBuild (i64 (Oid_count b + 1)) (reserved_move_slots b) (configCmds b) (restartCmds b) (initCmds b)).

Definition Request_move_queue_slot (b : build) : build := mkBuild (Oid_count b) (i64 (reserved_move_slots b + 1)) (configCmds b) (restartCmds b) (initCmds b).

Definition AddCommand (cmd : string) (isInit onRestart : bool) (b : build) : build :=
  if isInit then mkBuild (Oid_count b) (reserved_move_slots b) (configCmds b) (restartCmds b) (initCmds b ++ [cmd])%list
  else if onRestart then mkBuild (Oid_count b) (reserved_move_slots b) (configCmds b) (restartCmds b ++ [cmd])%list (initCmds b)
  else mkBuild (Oid_count b) (reserved_move_slots b) (configCmds b ++ [cmd])%list (restartCmds b) (initCmds b).

Record ConfigSession := mkSession { callbacks : list (M build unit); s_build : build }.

Definition NewConfigSession : ConfigSession := mkSession [] (mkBuild 0 0 [] [] []).

Definition RegisterCallback (cb : M build unit) (s : ConfigSession) : ConfigSession := mkSession (callbacks s ++ [cb])%list (s_build s).

Definition RunCallbacks (s : ConfigSession) : go unit * ConfigSession :=
  let r := mfor (callbacks s) (λ cb, cb) (s_build s) in (r.1, mkSession (callbacks s) r.2).

Definition ApplyResolvedCommands (c r i : list string) (b : build) : build := mkBuild (Oid_count b) (reserved_move_slots b) c r i.

(** ** The plan *)

(** [crc32.ChecksumIEEE]. *)
Definition poly_ieee : Z := 0xEDB88320.
Definition bytes_of (s : string) : list Z := byte_of <$> String.list_ascii_of_string s.
Definition ChecksumIEEE (s : string) : Z := Z.lxor (fold_left (byte_step poly_ieee) (bytes_of s) 0xffffffff) 0xffffffff.

Record ConfigBuildPlan := mkPlan { ConfigCmds : list string; RestartCmds : list string; InitCmds : list string; ConfigCRC : Z }.

Definition newline : Ascii.ascii := ascii_of 10.

Definition BuildConfigPlan (oidCount : Z) (config restart init : list string) (updateCommand : option (string → string)) : ConfigBuildPlan :=
  let applyUpdate commands := default id updateCommand <$> commands in
  let resolved := ("allocate_oids count=" ++ Itoa oidCount) :: applyUpdate config in
  let crc := Z.land (ChecksumIEEE (Join newline resolved)) 0xffffffff in
  mkPlan (resolved ++ [("finalize_config crc=" ++ Itoa crc)%string])%list (applyUpdate restart) (applyUpdate init) crc.

(** ** Snapshots and decisions *)

Record ConfigSnapshot := mkSnapshot { IsConfig : bool; CRC : Z; IsShutdown : bool; MoveCount : Z }.

Definition DefaultFileoutputConfigSnapshot : ConfigSnapshot := mkSnapshot false 0 false 500.

Definition int64_of (v : option any) : option Z := match v with Some (AInt64 z) => Some z | _ => None end.

(** The parameters hold no value of type [uint32]. *)
Definition ParseConfigSnapshot (params : option (gmap string any)) : option ConfigSnapshot :=
  (λ p : gmap string any,
    mkSnapshot (from_option (λ z, negb (z =? 0)) false (int64_of (p !! "is_config"))) (from_option u32 0 (int64_of (p !! "crc")))
      (from_option (λ z, negb (z =? 0)) false (int64_of (p !! "is_shutdown"))) (default 0 (int64_of (p !! "move_count")))) <$> params.

Inductive query_decision := QueryError (msg : string) | QueryClear | QueryFine.

Definition EvaluateConfigQuery (snapshot : option ConfigSnapshot) (isShutdown : bool) (shutdownMsg mcuName : string) (hasClearShutdown : bool) : query_decision :=
  match snapshot with
  | None => QueryFine
  | Some snap =>
      if isShutdown then QueryError ("MCU '" ++ mcuName ++ "' error during config: " ++ shutdownMsg)
      else if negb (IsShutdown snap) then QueryFine
      else if negb hasClearShutdown then QueryError ("Can not update MCU '" ++ mcuName ++ "' config as it is shutdown")
      else QueryClear
  end.

Definition EvaluateClearedShutdownSnapshot (snapshot : option ConfigSnapshot) (mcuName : string) : string :=
  if from_option IsShutdown false snapshot then "Can not update MCU '" ++ mcuName ++ "' config as it is STUCK in shutdown" else "".

Record ConnectDecision := mkConnect {
  ReturnError : string; PanicMessage : string; NeedsPreConfigReset : bool; DoSendConfig : bool; UsePrevCRC : bool; PrevCRC : Z; NeedsRequery : bool }.

Definition BuildConnectDecision (snapshot : option ConfigSnapshot) (restartMethod startReason mcuName : string) : ConnectDecision :=
  match snapshot with
  | None => mkConnect "MCU is shudown,please firmware restart" "" false false false 0 false
  | Some snap =>
      if negb (IsConfig snap) then mkConnect "" "" (String.eqb restartMethod "rpi_usb") true false 0 true
      else if String.eqb startReason "firmware_restart" then mkConnect "" ("Failed automated reset of MCU '" ++ mcuName ++ "'") false false false 0 false
      else mkConnect "" "" false true true (CRC snap) false
  end.

Definition ValidateConfiguredSnapshot (snapshot : option ConfigSnapshot) (isFileoutput : bool) (reservedMoveSlots : Z) (mcuName : string) : string :=
  if negb (from_option IsConfig false snapshot) && negb isFileoutput then "Unable to configure MCU '" ++ mcuName ++ "'"
  else if from_option (λ snap, MoveCount snap <? reservedMoveSlots) false snapshot then "Too few moves available on MCU '" ++ mcuName ++ "'"
  else "".

(** ** Life cycle *)

Record LifecycleState := mkLife { isShutdown : bool; shutdownClock : Z; shutdownMessage : string; isTimeout : bool }.

Definition NewLifecycleState : LifecycleState := mkLife false 0 "" false.

Record ShutdownPlan := mkShutdown { plan_clock : option Z; plan_message : string; AsyncMessage : string }.

Definition string_of_any (v : option any) : string := match v with Some (AStr s) => s | _ => "" end.

Definition BuildShutdownPlan (mcuName : string) (params : gmap string any) : ShutdownPlan :=
  let msg := string_of_any (params !! "static_string_id") in
  let prefix := if String.eqb (string_of_any (params !! "#name")) "is_shutdown" then "Previous MCU '" ++ mcuName ++ "' shutdown: " else "MCU '" ++ mcuName ++ "' shutdown: " in
  mkShutdown (int64_of (params !! "clock")) msg (prefix ++ msg).

Definition HandleShutdownPlan (plan : ShutdownPlan) (l : LifecycleState) : bool * LifecycleState :=
  if isShutdown l then (false, l) else (true, mkLife true (default (shutdownClock l) (plan_clock plan)) (plan_message plan) (isTimeout l)).

Definition ClearShutdown (l : LifecycleState) : LifecycleState := mkLife false (shutdownClock l) (shutdownMessage l) (isTimeout l).
Definition MarkShutdown (l : LifecycleState) : LifecycleState := mkLife true (shutdownClock l) (shutdownMessage l) (isTimeout l).
Definition SetTimeout (b : bool) (l : LifecycleState) : LifecycleState := mkLife (isShutdown l) (shutdownClock l) (shutdownMessage l) b.

Definition BuildStartingShutdownMessage (isShutdown : bool) (mcuName : string) : string :=
  if isShutdown then "" else "MCU '" ++ mcuName ++ "' spontaneous restart".

(** Whether a restart is asked for. *)
Definition restart_skipped (startReason : string) : bool := String.eqb startReason "firmware_restart".

Definition EmergencyStopSkip (hasEmergencyStop isShutdown force : bool) : bool := negb hasEmergencyStop || (isShutdown && negb force).

Inductive CommandResetMode := ResetModeReset | ResetModeConfigReset.

Definition BuildCommandResetPlan (hasReset hasConfigReset clockSyncActive : bool) : option CommandResetMode :=
  if (negb hasReset && negb hasConfigReset) || negb clockSyncActive then None
  else if negb hasReset then Some ResetModeConfigReset else Some ResetModeReset.

Inductive FirmwareRestartAction := RestartRPIUSB | RestartCommand | RestartCheetah | RestartArduino.

Definition BuildFirmwareRestartPlan (force isMCUBridge : bool) (restartMethod : string) : option FirmwareRestartAction :=
  if isMCUBridge && negb force then None
  else Some (if String.eqb restartMethod "rpi_usb" then RestartRPIUSB else if String.eqb restartMethod "command" then RestartCommand
             else if String.eqb restartMethod "cheetah" then RestartCheetah else RestartArduino).

(** ** The micro-controller's host object *)

Record MCU := mkMCU {
  m_name : string;
  restart_method : string;
  start_reason : string;
  fileoutput : bool;
  hasClearShutdown : bool;
  config_session : ConfigSession;
  m_runtime : LifecycleState;
  exit_result : string;
  starting_handler : bool;
  steppersync : option Z;
  async_shutdowns : list string
}.

Definition set_session (c : ConfigSession) (m : MCU) : MCU := mkMCU (m_name m) (restart_method m) (start_reason m) (fileoutput m) (hasClearShutdown m) c (m_runtime m) (exit_result m) (starting_handler m) (steppersync m) (async_shutdowns m).
Definition set_life (l : LifecycleState) (m : MCU) : MCU := mkMCU (m_name m) (restart_method m) (start_reason m) (fileoutput m) (hasClearShutdown m) (config_session m) l (exit_result m) (starting_handler m) (steppersync m) (async_shutdowns m).
Definition set_exit (r : string) (m : MCU) : MCU := mkMCU (m_name m) (restart_method m) (start_reason m) (fileoutput m) (hasClearShutdown m) (config_session m) (m_runtime m) r (starting_handler m) (steppersync m) (async_shutdowns m).
Definition set_starting (b : bool) (m : MCU) : MCU := mkMCU (m_name m) (restart_method m) (start_reason m) (fileoutput m) (hasClearShutdown m) (config_session m) (m_runtime m) (exit_result m) b (steppersync m) (async_shutdowns m).
Definition set_sync (z : option Z) (m : MCU) : MCU := mkMCU (m_name m) (restart_method m) (start_reason m) (fileoutput m) (hasClearShutdown m) (config_session m) (m_runtime m) (exit_result m) (starting_handler m) z (async_shutdowns m).
Definition invoke_async_shutdown (msg : string) (m : MCU) : MCU := mkMCU (m_name m) (restart_method m) (start_reason m) (fileoutput m) (hasClearShutdown m) (config_session m) (m_runtime m) (exit_result m) (starting_handler m) (steppersync m) (async_shutdowns m ++ [msg])%list.

(** The first result stays. *)
Definition RequestExit (result : string) (m : MCU) : MCU := if String.eqb (exit_result m) "" then set_exit result m else m.

Definition check_restart (m : MCU) : MCU := if restart_skipped (start_reason m) then m else RequestExit "firmware_restart" m.

Definition handle_shutdown (params : gmap string any) (m : MCU) : MCU :=
  let plan := BuildShutdownPlan (m_name m) params in
  let '(first, l) := HandleShutdownPlan plan (m_runtime m) in
  if first then invoke_async_shutdown (AsyncMessage plan) (set_life l m) else m.

Definition handle_starting (m : MCU) : MCU :=
  let message := BuildStartingShutdownMessage (isShutdown (m_runtime m)) (m_name m) in
  if String.eqb message "" then m else invoke_async_shutdown message m.

(** ** Connecting *)

Section Connect.
Context {D : Type} (get_config : D → option (gmap string any) * D) (send : string → D → D) (clear_shutdown : D → D) (update_command : string → string).

Definition send_all (cmds : list string) (d : D) : D := fold_left (λ d c, send c d) cmds d.

Definition SendConfig (plan : ConfigBuildPlan) (prevCRC : option Z) : M (MCU * D) string := λ w,
  let '(m, d) := w in
  let b := s_build (config_session m) in
  let m := set_session (mkSession (callbacks (config_session m)) (ApplyResolvedCommands (ConfigCmds plan) (RestartCmds plan) (InitCmds plan) b)) m in
  if from_option (λ prev, negb (ConfigCRC plan =? prev)) false prevCRC then (Ret ("MCU '" ++ m_name m ++ "' CRC does not match config"), (m, d))
  else
    let m := set_starting true m in
    let d := send_all (if decide (prevCRC = None) then ConfigCmds plan else RestartCmds plan) d in
    (Ret "", (m, send_all (InitCmds plan) d)).

Definition send_config (prevCRC : option Z) : M (MCU * D) string := λ w,
  let '(m, d) := w in
  let r := RunCallbacks (config_session m) in
  let m := set_session r.2 m in
  match r.1 with
  | Panic why => (Panic why, (m, d))
  | Ret _ =>
      let b := s_build r.2 in
      SendConfig (BuildConfigPlan (Oid_count b) (configCmds b) (restartCmds b) (initCmds b) (Some update_command)) prevCRC (m, d)
  end.

Definition QueryConfigSnapshot : M (MCU * D) (option ConfigSnapshot * string) := λ w,
  let '(m, d) := w in
  if fileoutput m then (Ret (Some DefaultFileoutputConfigSnapshot, ""), (m, d))
  else
    let '(params, d) := get_config d in
    let snapshot := ParseConfigSnapshot params in
    match EvaluateConfigQuery snapshot (isShutdown (m_runtime m)) (shutdownMessage (m_runtime m)) (m_name m) (hasClearShutdown m) with
    | QueryError msg => (Ret (snapshot, msg), (m, d))
    | QueryFine => (Ret (snapshot, ""), (m, d))
    | QueryClear =>
        let d := clear_shutdown d in
        let '(params, d) := get_config d in
        let snapshot := ParseConfigSnapshot params in
        let msg := EvaluateClearedShutdownSnapshot snapshot (m_name m) in
        if String.eqb msg "" then (Ret (snapshot, ""), (set_life (ClearShutdown (m_runtime m)) m, d)) else (Ret (snapshot, msg), (m, d))
    end.

Definition send_get_config : M (MCU * D) (option ConfigSnapshot) :=
  r ← QueryConfigSnapshot;
  if String.eqb r.2 "" then mret r.1 else panic r.2.

Inductive connect_result := ConnectError (msg : string) | ConnectPanic (msg : string) | ConnectPending | Connected (MoveCount : Z).

(** [reservedMoveSlots] is read before anything is done. *)
Definition RunConnectRuntime (reservedMoveSlots : Z) : M (MCU * D) connect_result :=
  m ← gets fst;
  snapshot ← send_get_config;
  let decision := BuildConnectDecision snapshot (restart_method m) (start_reason m) (m_name m) in
  if negb (String.eqb (ReturnError decision) "") then mret (ConnectError (ReturnError decision))
  else if negb (String.eqb (PanicMessage decision) "") then mret (ConnectPanic (PanicMessage decision))
  else
    (if NeedsPreConfigReset decision then modify (λ w : MCU * D, (check_restart w.1, w.2)) else mret tt);;
    pending ← gets (λ w : MCU * D, NeedsPreConfigReset decision && negb (String.eqb (exit_result w.1) ""));
    if (pending : bool) then mret ConnectPending
    else
      err ← (if DoSendConfig decision then send_config (if UsePrevCRC decision then Some (PrevCRC decision) else None) else mret "");
      if negb (String.eqb err "") then modify (λ w : MCU * D, (check_restart w.1, w.2));; mret (ConnectPanic err)
      else
        snapshot ← (if NeedsRequery decision then send_get_config else mret snapshot);
        let msg := ValidateConfiguredSnapshot snapshot (fileoutput m) reservedMoveSlots (m_name m) in
        if String.eqb msg "" then mret (Connected (from_option MoveCount 0 snapshot)) else mret (ConnectPanic msg).

(** [MCU._connect]: the error that it returns, if any. *)
Definition connect : M (MCU * D) (option string) :=
  reserved ← gets (λ w : MCU * D, reserved_move_slots (s_build (config_session w.1)));
  r ← RunConnectRuntime reserved;
  match r with
  | ConnectPending => mret None
  | ConnectError msg => mret (Some msg)
  | ConnectPanic msg => panic msg
  | Connected move_count =>
      modify (λ w : MCU * D, (set_sync (Some (i64 (move_count - reserved_move_slots (s_build (config_session w.1))))) w.1, w.2));; mret None
  end.
End Connect.

(** ** The link *)

Inductive ConnectionMode := ModeFileoutput | ModeCanbus | ModeRemote | ModeUART | ModePipe.

Record ConnectionPlan := mkConnection { c_mode : ConnectionMode; RTS : bool; NeedsPowerEnableReset : bool; NeedsClockSyncConnect : bool }.

Definition BuildConnectionPlan (isFileoutput : bool) (restartMethod serialPort : string) (baud : Z) (hasCanbus serialPathExists : bool) : ConnectionPlan :=
  if isFileoutput then mkConnection ModeFileoutput false false false
  else
    let mode := if hasCanbus then ModeCanbus else if HasPrefix serialPort "tcp@" then ModeRemote else if 0 <? baud then ModeUART else ModePipe in
    mkConnection mode (negb (String.eqb restartMethod "cheetah")) (String.eqb restartMethod "rpi_usb" && negb serialPathExists) true.

(** What is done, in order. *)
Inductive mcu_event :=
| LinkFileoutput | LinkCanbus | LinkRemote (port : string) | LinkUART (port : string) (baud : Z) (rts : bool) | LinkPipe (port : string) | LinkClockSync
| EmergencyStop | SendReset | SendConfigReset | PauseSeconds (s : f64) | Sleep (s : f64) | Disconnect
| ArduinoReset | CheetahReset | FlushCallback (printTime : f64) (clock : Z) | SyncFlush (clock clear : Z) | SyncTime (offset freq : f64) | InvokeShutdown (msg : string).

Definition ExecuteConnectionPlan (plan : ConnectionPlan) (port : string) (baud : Z) : list mcu_event :=
  (match c_mode plan with
   | ModeFileoutput => [LinkFileoutput] | ModeCanbus => [LinkCanbus] | ModeRemote => [LinkRemote port]
   | ModeUART => [LinkUART port baud (RTS plan)] | ModePipe => [LinkPipe port]
   end ++ (if NeedsClockSyncConnect plan then [LinkClockSync] else []))%list.

(** ** Stopping and restarting *)

Definition mcu_shutdown (hasEmergencyStop force : bool) (m : MCU) : list mcu_event :=
  if EmergencyStopSkip hasEmergencyStop (isShutdown (m_runtime m)) force then [] else [EmergencyStop].

Definition pause_seconds : f64 := f_lit 15 1000.

Definition restart_via_command (hasReset hasConfigReset hasEmergencyStop clockSyncActive : bool) (m : MCU) : list mcu_event * MCU :=
  match BuildCommandResetPlan hasReset hasConfigReset clockSyncActive with
  | None => ([], m)
  | Some ResetModeConfigReset =>
      let m := set_life (MarkShutdown (m_runtime m)) m in
      ((mcu_shutdown hasEmergencyStop true m ++ [PauseSeconds pause_seconds; SendConfigReset; Sleep pause_seconds; Disconnect])%list, set_sync None m)
  | Some ResetModeReset => ([SendReset; Sleep pause_seconds; Disconnect], set_sync None m)
  end.

Definition firmware_restart (force isMCUBridge hasReset hasConfigReset hasEmergencyStop clockSyncActive : bool) (m : MCU) : list mcu_event * MCU :=
  match BuildFirmwareRestartPlan force isMCUBridge (restart_method m) with
  | None => ([], m)
  | Some RestartRPIUSB => ([Disconnect; PauseSeconds (f_of_Z 2)], set_sync None m)
  | Some RestartCommand => restart_via_command hasReset hasConfigReset hasEmergencyStop clockSyncActive m
  | Some RestartCheetah => ([Disconnect; CheetahReset], set_sync None m)
  | Some RestartArduino => ([Disconnect; ArduinoReset], set_sync None m)
  end.

(** ** Moves *)

(** [flush] is the outcome of the step compression; [callbacks] is how many there are. *)
Definition FlushMoves (print_time_to_clock : f64 → Z) (flush : Z → Z → Z) (ncallbacks : nat) (printTime clearHistoryTime : f64) (m : MCU) : option string * list mcu_event :=
  if decide (steppersync m = None) then (None, [])
  else
    let clock := print_time_to_clock printTime in
    if clock <? 0 then (None, [])
    else
      let clear := f_trunc (fmax f0 (f_of_Z (print_time_to_clock clearHistoryTime))) in
      (if flush clock clear =? 0 then None else Some "internal error in stepcompress",
       repeat (FlushCallback printTime clock) ncallbacks ++ [SyncFlush clock clear])%list.

(** [calibrated] is the clock that the clock synchronisation calibrates. *)
Definition Check_active (calibrated : f64 * f64) (clockSyncActive : bool) (m : MCU) : list mcu_event * MCU :=
  if decide (steppersync m = None) then ([], m)
  else
    let evs := [SyncTime calibrated.1 calibrated.2] in
    if clockSyncActive || fileoutput m || isTimeout (m_runtime m) then (evs, m)
    else ((evs ++ [InvokeShutdown ("Lost communication with MCU " ++ m_name m)%string])%list, set_life (SetTimeout true (m_runtime m)) m).

(** The time at which a periodic query of an object starts. *)
Definition QuerySlot (seconds_to_clock print_time_to_clock : f64 → Z) (estimated_print_time : f64) (oid : Z) : Z :=
  let slot := seconds_to_clock (fmul (f_of_Z oid) (f_lit 1 100)) in
  i64 (print_time_to_clock (fadd estimated_print_time (f_lit 15 10)) + slot).
