(* ===== verification/McuConfigThy.v ===== *)
(** * Properties of the configuration of micro-controllers

    A micro-controller with which a connection is made has the configuration that the host
    has collected: it was sent, or its checksum was that of the one which it had
    ([connect_configures]); one with another configuration is sent nothing, and a restart is
    asked for unless there was one just before ([other_configuration_is_refused]). *)

From S2P Require Import Prelude GoFloat GoStrings GoState Crc McuConfig.

#[local] Open Scope string_scope.
#[local] Open Scope Z_scope.

(** ** What is relied on of the firmware *)

(** A micro-controller holds whether it is configured, with the checksum that it was told, and
    has received commands.  Commands other than the last of a configuration do not change the
    first. *)
Class Firmware {D : Type} (get_config : D → option (gmap string any) * D) (send : string → D → D) (clear_shutdown : D → D)
    (reports : D → bool * Z) (received : D → list string) : Prop := {
  query_reports : ∀ d snap, ParseConfigSnapshot (get_config d).1 = Some snap → (IsConfig snap, CRC snap) = reports d;
  query_keeps : ∀ d, reports (get_config d).2 = reports d ∧ received (get_config d).2 = received d;
  clear_keeps : ∀ d, reports (clear_shutdown d) = reports d ∧ received (clear_shutdown d) = received d;
  send_received : ∀ c d, received (send c d) = (received d ++ [c])%list;
  send_keeps : ∀ c d, HasPrefix c "finalize_config" = false → reports (send c d) = reports d;
  send_finalizes : ∀ crc d, 0 ≤ crc < 2 ^ 32 → (reports d).1 = false → reports (send ("finalize_config crc=" ++ Itoa crc) d) = (true, crc)
}.

(** ** The plan *)

(** The plan for what the callbacks have collected. *)
Definition plan_of (update : string → string) (b : build) : ConfigBuildPlan :=
  BuildConfigPlan (Oid_count b) (configCmds b) (restartCmds b) (initCmds b) (Some update).

Lemma crc_range n c r i u : 0 ≤ ConfigCRC (BuildConfigPlan n c r i u) < 2 ^ 32.
Proof. cbn. rewrite (Z.land_ones _ 32) by lia. apply Z.mod_pos_bound. lia. Qed.

(** Commands that do not end a configuration. *)
Definition ordinary (cmds : list string) : Prop := Forall (λ c, HasPrefix c "finalize_config" = false) cmds.

Lemma allocate_ordinary n : HasPrefix ("allocate_oids count=" ++ Itoa n) "finalize_config" = false.
Proof. done. Qed.

Section Connecting.
Context {D : Type} {get_config : D → option (gmap string any) * D} {send : string → D → D} {clear_shutdown : D → D}.
Context {reports : D → bool * Z} {received : D → list string} `{!Firmware get_config send clear_shutdown reports received}.
Context (update : string → string).

Lemma send_all_received cmds d : received (send_all send cmds d) = (received d ++ cmds)%list.
Proof using Type*.
  revert d. induction cmds as [|c cmds IH]; intros d; [cbn; by rewrite app_nil_r|]. change (send_all send (c :: cmds) d) with (send_all send cmds (send c d)). rewrite IH, send_received, <- app_assoc. done.
Qed.

Lemma send_all_keeps cmds d : ordinary cmds → reports (send_all send cmds d) = reports d.
Proof using Type*.
  intros H. revert d. induction H as [|c cmds Hc _ IH]; intros d; [done|]. change (send_all send (c :: cmds) d) with (send_all send cmds (send c d)). rewrite IH. by apply send_keeps.
Qed.

Lemma send_plan_finalizes b d : ordinary (update <$> configCmds b) → (reports d).1 = false →
  reports (send_all send (ConfigCmds (plan_of update b)) d) = (true, ConfigCRC (plan_of update b)).
Proof using Type*.
  intros Hc Hd. unfold plan_of. set (plan := BuildConfigPlan _ _ _ _ _).
  assert (E : ConfigCmds plan = ((("allocate_oids count=" ++ Itoa (Oid_count b))%string :: (update <$> configCmds b)) ++ [("finalize_config crc=" ++ Itoa (ConfigCRC plan))%string])%list) by done.
  pose proof (crc_range (Oid_count b) (configCmds b) (restartCmds b) (initCmds b) (Some update)) as Hr. fold plan in Hr. rewrite E. clearbody plan.
  unfold send_all. rewrite fold_left_app. fold (send_all send (("allocate_oids count=" ++ Itoa (Oid_count b))%string :: (update <$> configCmds b)) d).
  cbn [fold_left]. apply send_finalizes; [done|]. rewrite send_all_keeps; [done|]. by constructor.
Qed.

(** The host's part of the state that a query leaves alone. *)
Definition same_host (m m' : MCU) : Prop :=
  m_name m' = m_name m ∧ restart_method m' = restart_method m ∧ start_reason m' = start_reason m ∧ fileoutput m' = fileoutput m ∧
  config_session m' = config_session m ∧ exit_result m' = exit_result m ∧ steppersync m' = steppersync m.

Lemma same_host_refl m : same_host m m.
Proof. done. Qed.

Lemma query_spec m d r m' d' : fileoutput m = false → send_get_config get_config clear_shutdown (m, d) = (r, (m', d')) →
  same_host m m' ∧ reports d' = reports d ∧ received d' = received d ∧
  ∀ snap, r = Ret (Some snap) → (IsConfig snap, CRC snap) = reports d.
Proof using Type*.
  intros Hf. unfold send_get_config, mbind, M_bind, QueryConfigSnapshot. rewrite Hf. pose proof (query_keeps d) as [K1 K2].
  pose proof (query_reports d) as Q1. destruct (get_config d) as [params d1] eqn:E1. cbn in K1, K2, Q1.
  destruct (EvaluateConfigQuery _ _ _ _ _) as [msg| |]; cbn.
  - destruct (String.eqb msg ""); intros [= <- <- <-]; (split; [done|]); (split; [done|]); (split; [done|]); [|done]. intros snap [= H]. by apply Q1.
  - pose proof (clear_keeps d1) as [C1 C2]. pose proof (query_keeps (clear_shutdown d1)) as [K3 K4]. pose proof (query_reports (clear_shutdown d1)) as Q2.
    destruct (get_config (clear_shutdown d1)) as [params2 d2] eqn:E2. cbn in K3, K4, Q2.
    destruct (String.eqb (EvaluateClearedShutdownSnapshot _ _) "") eqn:Em; cbn.
    + intros [= <- <- <-]. repeat split; [congruence..|]. intros snap [= H]. rewrite (Q2 _ H). congruence.
    + rewrite Em. intros [= <- <- <-]. repeat split; [congruence..|done].
  - intros [= <- <- <-]. repeat split; [congruence..|]. intros snap [= H]. by apply Q1.
Qed.

(** What the callbacks collect. *)
Definition collected (m : MCU) : build := s_build (RunCallbacks (config_session m)).2.

Lemma send_config_spec prev m d r m' d' : send_config send update prev (m, d) = (Ret r, (m', d')) →
  let plan := plan_of update (collected m) in
  m_name m' = m_name m ∧ start_reason m' = start_reason m ∧ exit_result m' = exit_result m ∧ steppersync m' = steppersync m ∧ fileoutput m' = fileoutput m ∧
  if from_option (λ c, negb (ConfigCRC plan =? c)) false prev then r = "MCU '" ++ m_name m ++ "' CRC does not match config" ∧ d' = d
  else r = "" ∧ d' = send_all send (InitCmds plan) (send_all send (if decide (prev = None) then ConfigCmds plan else RestartCmds plan) d).
Proof using Type.
  unfold send_config, collected. destruct (RunCallbacks (config_session m)) as [[u|w] c]; cbn [fst snd]; [|done].
  unfold SendConfig, plan_of. set (plan := BuildConfigPlan _ _ _ _ _). clearbody plan. cbn [config_session set_session m_name]. intros H.
  destruct (from_option _ false prev); injection H as <- <- <-; by repeat split.
Qed.

(** After the query: the configuration is sent, and what is found afterwards. *)
Lemma after_config prev m d (requery : bool) snap (slots : Z) r m' d' : fileoutput m = false →
  (err ← send_config send update prev;
   if negb (String.eqb err "") then modify (λ w : MCU * D, (check_restart w.1, w.2));; mret (ConnectPanic err)
   else
     snapshot ← (if requery then send_get_config get_config clear_shutdown else mret (Some snap));
     let msg := ValidateConfiguredSnapshot snapshot false slots (m_name m) in
     if String.eqb msg "" then mret (Connected (from_option MoveCount 0 snapshot)) else mret (ConnectPanic msg)) (m, d) = (Ret r, (m', d')) →
  let plan := plan_of update (collected m) in
  steppersync m' = steppersync m ∧
  if from_option (λ c, negb (ConfigCRC plan =? c)) false prev then r = ConnectPanic ("MCU '" ++ m_name m ++ "' CRC does not match config") ∧ d' = d ∧ exit_result m' = exit_result (check_restart m)
  else let d1 := send_all send (InitCmds plan) (send_all send (if decide (prev = None) then ConfigCmds plan else RestartCmds plan) d) in
    received d' = received d1 ∧ reports d' = reports d1.
Proof using Type*.
  intros Hf H plan. apply M_bind_inv in H as (err & [m1 d1] & Hsend & H). apply send_config_spec in Hsend as (Hn & Hr & He & Hst & Hf1 & Hs). fold plan in Hs.
  destruct (from_option _ false prev).
  - destruct Hs as [-> ->]. change (("MCU '" ++ m_name m ++ "' CRC does not match config" =? "")%string) with false in H. cbn [negb] in H.
    injection H as <- <- <-. unfold check_restart, RequestExit, restart_skipped. rewrite Hr, He. destruct (_ =? _)%string; [done|]. destruct (_ =? "")%string; cbn; by repeat split.
  - destruct Hs as [-> ->]. cbn [String.eqb negb] in H. apply M_bind_inv in H as (sn & [m2 d2] & Hq & H).
    assert (Hend : m' = m2 ∧ d' = d2) by (cbv zeta in H; destruct (_ =? "")%string in H; by injection H as _ <- <-). destruct Hend as [-> ->].
    destruct requery; [|injection Hq as _ <- <-; by repeat split]. apply query_spec in Hq as ((_ & _ & _ & _ & _ & _ & E) & E1 & E2 & _); [|congruence]. repeat split; congruence.
Qed.

Lemma runtime_spec slots m d r m' d' : fileoutput m = false →
  RunConnectRuntime get_config send clear_shutdown update slots (m, d) = (Ret r, (m', d')) →
  let plan := plan_of update (collected m) in
  steppersync m' = steppersync m ∧
  match r with
  | Connected _ =>
      ((reports d).1 = true → (reports d).2 = ConfigCRC plan) ∧
      ∃ d0, reports d0 = reports d ∧ received d0 = received d ∧
        let d1 := send_all send (InitCmds plan) (send_all send (if (reports d).1 then RestartCmds plan else ConfigCmds plan) d0) in
        received d' = received d1 ∧ reports d' = reports d1
  | _ => True
  end.
Proof using Type*.
  intros Hf H plan. unfold RunConnectRuntime in H. apply M_bind_inv in H as (? & ? & [= <- <-] & H). cbn [fst] in H.
  apply M_bind_inv in H as (sn & [m1 d1] & Hq & H). apply query_spec in Hq as ((H1 & H2 & H3 & H4 & H5 & H6 & H7) & E1 & E2 & E3); [|done].
  assert (Hp : collected m1 = collected m) by (unfold collected; by rewrite H5). rewrite Hf in H.
  destruct sn as [snap|]; [|by injection H as <- <- <-]. specialize (E3 snap eq_refl). rewrite <- E3. cbn [fst snd]. unfold BuildConnectDecision in H.
  destruct (IsConfig snap) eqn:Ec; cbn [negb] in H.
  - destruct (start_reason m =? "firmware_restart")%string; [by injection H as <- <- <-|]. cbn -[send_config send_get_config ValidateConfiguredSnapshot mbind] in H.
    apply M_bind_inv in H as (? & ? & [= <- <-] & H). apply M_bind_inv in H as (? & ? & [= <- <-] & H). cbn beta iota in H. rewrite <- H1 in H.
    destruct (after_config (Some (CRC snap)) m1 d1 false snap slots r m' d' ltac:(congruence) H) as [Hst Hrest]. rewrite Hp in Hrest. fold plan in Hrest.
    split; [congruence|]. cbn [from_option] in Hrest. destruct (ConfigCRC plan =? CRC snap) eqn:Ecrc; cbn [negb] in Hrest; [|by destruct Hrest as [-> _]].
    destruct r; try done. split; [intros _; lia|]. exists d1. split; [congruence|]. split; [done|]. rewrite decide_False in Hrest by done. exact Hrest.
  - cbn -[send_config send_get_config ValidateConfiguredSnapshot mbind] in H. apply M_bind_inv in H as (? & [m2 d2] & Hpre & H).
    apply M_bind_inv in H as (pending & ? & [= Hpend <-] & H).
    assert (Hm2 : d2 = d1 ∧ m_name m2 = m_name m1 ∧ config_session m2 = config_session m1 ∧ fileoutput m2 = fileoutput m1 ∧ steppersync m2 = steppersync m1).
    { destruct (restart_method m =? "rpi_usb")%string; injection Hpre as _ <- <-; [|done]. split; [done|]. unfold check_restart, RequestExit. destruct (restart_skipped _); [done|]. by destruct (exit_result m1 =? "")%string. }
    destruct Hm2 as (-> & G1 & G2 & G3 & G4). destruct pending; [injection H as <- <- <-; split; [congruence|done]|].
    assert (Hp2 : collected m2 = collected m) by (unfold collected; by rewrite G2, H5). rewrite <- H1, <- G1 in H.
    destruct (after_config None m2 d1 true snap slots r m' d' ltac:(congruence) H) as [Hst Hrest]. rewrite Hp2 in Hrest. fold plan in Hrest. cbn [from_option] in Hrest.
    split; [congruence|]. destruct r; try done. split; [done|]. exists d1. split; [congruence|]. split; [done|]. rewrite decide_True in Hrest by done. exact Hrest.
Qed.

(** C38. A connection that is made leaves the micro-controller with the configuration that
    the callbacks collected: it received exactly the commands of the plan, those that
    configure it only if it was not configured, and if it was, its checksum was that of
    the plan. *)
Theorem connect_configures m d m' d' : fileoutput m = false → steppersync m = None →
  connect get_config send clear_shutdown update (m, d) = (Ret None, (m', d')) → steppersync m' ≠ None →
  let plan := plan_of update (collected m) in
  received d' = (received d ++ (if (reports d).1 then RestartCmds plan else ConfigCmds plan) ++ InitCmds plan)%list ∧
  ((reports d).1 = true → (reports d).2 = ConfigCRC plan) ∧
  (ordinary (update <$> configCmds (collected m)) → ordinary (RestartCmds plan) → ordinary (InitCmds plan) → reports d' = (true, ConfigCRC plan)).
Proof using Type*.
  intros Hf Hs H Hs' plan. unfold connect in H. apply M_bind_inv in H as (res & w0 & [= <- <-] & H).
  apply M_bind_inv in H as (cr & [m5 d5] & Hr & H). apply runtime_spec in Hr as [Hst Hr]; [|done]. fold plan in Hr.
  destruct cr as [e|e| |n]; [injection H as _ <- <-; congruence|discriminate|injection H as <- <-; congruence|].
  injection H as <- <-. destruct Hr as (Hcrc & d0 & E1 & E2 & E3 & E4). split; [|split; [done|]].
  - rewrite E3, !send_all_received, E2. by rewrite <- app_assoc.
  - intros O1 O2 O3. rewrite E4, send_all_keeps by done. destruct (reports d) as [[|] c] eqn:Ed; cbn [fst snd] in *.
    + rewrite send_all_keeps by done. rewrite E1. by rewrite Hcrc.
    + apply send_plan_finalizes; [done|]. by rewrite E1.
Qed.

(** C40. A micro-controller that answers that it has another configuration is sent nothing,
    and the connection fails: with the message that the checksum does not match, and the
    host asks for a restart of the firmware unless it is ending for another reason
    already; or, if it was started by such a restart, with the message that the reset
    failed, and no restart is asked for. *)
Theorem other_configuration_is_refused m d snap m1 d1 (restarted := String.eqb (start_reason m) "firmware_restart") :
  fileoutput m = false → (RunCallbacks (config_session m)).1 = Ret tt →
  send_get_config get_config clear_shutdown (m, d) = (Ret (Some snap), (m1, d1)) → IsConfig snap = true →
  CRC snap ≠ ConfigCRC (plan_of update (collected m)) →
  ∃ m' d', connect get_config send clear_shutdown update (m, d) =
      (Panic (if restarted then "Failed automated reset of MCU '" ++ m_name m ++ "'" else "MCU '" ++ m_name m ++ "' CRC does not match config"), (m', d')) ∧
    received d' = received d ∧ reports d' = reports d ∧ steppersync m' = steppersync m ∧
    exit_result m' = if restarted then exit_result m else if String.eqb (exit_result m) "" then "firmware_restart" else exit_result m.
Proof using Type*.
  intros Hf Hcb Hq Hc Hne. pose proof Hq as ((H1 & H2 & H3 & H4 & H5 & H6 & H7) & E1 & E2 & _)%query_spec; [|done].
  destruct restarted eqn:Hr; unfold restarted in Hr.
  { exists m1, d1. split_and!; [|done..]. unfold connect, RunConnectRuntime. erewrite M_bind_eq; [|reflexivity]. cbn beta.
    unfold mbind at 1, M_bind at 1. erewrite M_bind_eq; [|reflexivity]. cbn beta. erewrite M_bind_eq; [|exact Hq]. unfold BuildConnectDecision.
    rewrite Hc. cbn [negb fst]. by rewrite Hr. }
  set (w2 := send_config send update (Some (CRC snap)) (m1, d1)).
  assert (Hw : w2 = (Ret ("MCU '" ++ m_name m ++ "' CRC does not match config"), w2.2) ∧ w2.2.2 = d1 ∧ exit_result w2.2.1 = exit_result m1 ∧ start_reason w2.2.1 = start_reason m1 ∧ steppersync w2.2.1 = steppersync m1).
  { unfold w2, send_config. rewrite H5. unfold collected, plan_of in Hne. destruct (RunCallbacks (config_session m)) as [[[]|] c]; [|done]. cbn [fst snd] in *.
    unfold SendConfig. set (plan := BuildConfigPlan _ _ _ _ _) in *. clearbody plan. cbn [from_option m_name set_session].
    replace (ConfigCRC plan =? CRC snap) with false by lia. cbn. rewrite H1. done. }
  destruct Hw as (Hw & K1 & K2 & K3 & K4). destruct w2 as [r2 [m2 d2]] eqn:Ew. cbn [fst snd] in *. injection Hw as ->. subst d2.
  exists (check_restart m2), d1. split.
  - unfold connect, RunConnectRuntime. erewrite M_bind_eq; [|reflexivity]. cbn beta.
    unfold mbind at 1, M_bind at 1. erewrite M_bind_eq; [|reflexivity]. cbn beta. erewrite M_bind_eq; [|exact Hq]. unfold BuildConnectDecision. rewrite Hc. cbn [negb fst].
    rewrite Hr. cbn -[send_config send_get_config mbind].
    erewrite M_bind_eq; [|reflexivity]. erewrite M_bind_eq; [|reflexivity]. cbn beta iota. erewrite M_bind_eq; [|exact Ew]. cbn. done.
  - split; [done|]. split; [done|]. unfold check_restart, restart_skipped, RequestExit. rewrite K3, H3, K2, H6, Hr.
    destruct (exit_result m =? "")%string; cbn; by rewrite ?K4, ?K2, ?H7, ?H6.
Qed.
End Connecting.

(** ** A firmware *)

(** It keeps the checksum of its configuration, how many moves it can hold, and its log. *)
Record firmware := mkFirmware { fw_config : option Z; fw_moves : Z; fw_log : list string }.

Definition fw_get_config (f : firmware) : option (gmap string any) * firmware :=
  (Some (<["is_config" := AInt64 (if decide (fw_config f = None) then 0 else 1)]> (<["crc" := AInt64 (default 0 (fw_config f))]>
     (<["is_shutdown" := AInt64 0]> (<["move_count" := AInt64 (fw_moves f)]> ∅)))), f).

Definition fw_send (c : string) (f : firmware) : firmware :=
  let config := match fw_config f with
    | None => if HasPrefix c "finalize_config" then Some ((ParseInt 64 (drop_string 20 c)).1 mod 2 ^ 32) else None
    | Some crc => Some crc end in
  mkFirmware config (fw_moves f) (fw_log f ++ [c])%list.

Definition fw_reports (f : firmware) : bool * Z := (bool_decide (fw_config f ≠ None), default 0 (fw_config f) mod 2 ^ 32).

#[global] Instance firmware_laws : Firmware fw_get_config fw_send id fw_reports fw_log.
Proof.
  split; [|done|done|done|..].
  - by intros [[c|] n lg] snap [= <-].
  - intros c f Hc. unfold fw_send, fw_reports. cbn. rewrite Hc. by destruct (fw_config f).
  - intros crc f Hr Hd. unfold fw_send, fw_reports in *. cbn [fst snd fw_config] in *. destruct (fw_config f); [done|].
    change (HasPrefix ("finalize_config crc=" ++ Itoa crc) "finalize_config") with true.
    change (drop_string 20 ("finalize_config crc=" ++ Itoa crc)) with (Itoa crc). rewrite ParseInt_Itoa by lia. cbn. by rewrite !Z.mod_mod, Z.mod_small by lia.
Qed.

Example checksum_check : ChecksumIEEE "123456789" = 0xCBF43926.
Proof. vm_compute. reflexivity. Qed.

(** A host with one stepper. *)
Definition demo_callback : M build unit :=
  oid ← (λ b, let r := Create_oid b in (Ret r.1, r.2));
  modify (AddCommand ("config_stepper oid=" ++ Itoa oid ++ " step_pin=PA1")%string false false);;
  modify (AddCommand ("reset_step_clock oid=" ++ Itoa oid ++ " clock=0")%string false true).

Definition demo_mcu : MCU := mkMCU "mcu" "command" "startup" false false (RegisterCallback demo_callback NewConfigSession) NewLifecycleState "" false None [].
Definition demo_connect : firmware → go (option string) * (MCU * firmware) := λ f, connect fw_get_config fw_send id TrimSpace (demo_mcu, f).

Definition fresh : firmware := mkFirmware None 100 [].
Definition configured : firmware := (demo_connect fresh).2.2.

Example demo_log : fw_log configured = ["allocate_oids count=1"; "config_stepper oid=0 step_pin=PA1"; "finalize_config crc=289086861"].
Proof. vm_compute. reflexivity. Qed.

Lemma connect_configures_witness :
  fw_reports configured = (true, 289086861) ∧ fw_log (demo_connect configured).2.2 = (fw_log configured ++ ["reset_step_clock oid=0 clock=0"])%list.
Proof.
  assert (E : ∀ f, (demo_connect f).1 = Ret None → connect fw_get_config fw_send id TrimSpace (demo_mcu, f) = (Ret None, ((demo_connect f).2.1, (demo_connect f).2.2))).
  { intros f Hf. rewrite (run_result _ _ _ Hf). fold (demo_connect f). by destruct (demo_connect f).2. }
  destruct (connect_configures TrimSpace demo_mcu fresh _ _ eq_refl eq_refl (E fresh ltac:(vm_compute; reflexivity)) ltac:(vm_compute; discriminate)) as (_ & _ & H1).
  destruct (connect_configures TrimSpace demo_mcu configured _ _ eq_refl eq_refl (E configured ltac:(vm_compute; reflexivity)) ltac:(vm_compute; discriminate)) as (H2 & _ & _).
  split; [unfold configured; rewrite H1; [vm_compute; reflexivity|vm_compute; repeat constructor..]|rewrite H2; vm_compute; reflexivity].
Defined.

Definition demo_snapshot : ConfigSnapshot := mkSnapshot true 7 false 100.

Lemma other_configuration_is_refused_witness : ∃ m' f', demo_connect (mkFirmware (Some 7) 100 []) = (Panic "MCU 'mcu' CRC does not match config", (m', f')) ∧ fw_log f' = [] ∧ exit_result m' = "firmware_restart".
Proof.
  destruct (other_configuration_is_refused TrimSpace demo_mcu (mkFirmware (Some 7) 100 []) demo_snapshot demo_mcu (mkFirmware (Some 7) 100 []))
    as (m' & f' & E & H1 & _ & _ & H2); [reflexivity|reflexivity|reflexivity|reflexivity|vm_compute; discriminate|].
  exists m', f'. split; [exact E|]. split; [exact H1|exact H2].
Defined.

(** ** Shutdowns *)

(** However many reports of a shutdown arrive, the first is announced, and its message kept. *)
Theorem first_shutdown_is_announced m p ps : isShutdown (m_runtime m) = false →
  let m' := fold_left (λ m p, handle_shutdown p m) (p :: ps) m in
  async_shutdowns m' = (async_shutdowns m ++ [AsyncMessage (BuildShutdownPlan (m_name m) p)])%list ∧
  shutdownMessage (m_runtime m') = string_of_any (p !! "static_string_id") ∧ isShutdown (m_runtime m') = true.
Proof.
  intros Hm m'. assert (Hid : ∀ m, isShutdown (m_runtime m) = true → fold_left (λ m p, handle_shutdown p m) ps m = m).
  { clear. induction ps as [|q ps IH]; intros m Hm; [done|]. cbn. replace (handle_shutdown q m) with m; [by apply IH|]. unfold handle_shutdown, HandleShutdownPlan. by rewrite Hm. }
  unfold m'. cbn [fold_left]. rewrite Hid; unfold handle_shutdown, HandleShutdownPlan; rewrite Hm; done.
Qed.

Fixpoint announcements (evs : list mcu_event) : Z :=
  match evs with [] => 0 | InvokeShutdown _ :: evs => 1 + announcements evs | _ :: evs => announcements evs end.

Definition check_all (cs : list ((f64 * f64) * bool)) (em : list mcu_event * MCU) : list mcu_event * MCU :=
  fold_left (λ em c, let r := Check_active c.1 c.2 em.2 in ((em.1 ++ r.1)%list, r.2)) cs em.

Lemma announcements_app a b : announcements (a ++ b) = announcements a + announcements b.
Proof. induction a as [|e a IH]; [done|]. destruct e; cbn [announcements app]; rewrite IH; lia. Qed.

Lemma check_all_bound cs evs m : announcements evs + Z.b2z (negb (isTimeout (m_runtime m))) ≤ 1 → announcements (check_all cs (evs, m)).1 ≤ 1.
Proof.
  revert evs m. induction cs as [|c cs IH]; intros evs m Hm; [cbn; destruct (isTimeout _); cbn in *; lia|]. apply IH. cbn [fst snd]. rewrite announcements_app. unfold Check_active.
  destruct (decide _); [cbn; lia|]. destruct (c.2 || fileoutput m); [cbn in *; lia|]. destruct (isTimeout (m_runtime m)) eqn:E; cbn in *; rewrite ?E; cbn; lia.
Qed.

(** A lost link is announced once, however often it is checked. *)
Theorem lost_link_is_announced_once m cs : announcements (check_all cs ([], m)).1 ≤ 1.
Proof. apply check_all_bound. cbn. destruct (isTimeout _); cbn; lia. Qed.

(** A micro-controller that can only forget its configuration is stopped before, even if it is
    known to be shut down. *)
Theorem config_reset_stops_first m :
  (restart_via_command false true true true m).1 = [EmergencyStop; PauseSeconds pause_seconds; SendConfigReset; Sleep pause_seconds; Disconnect].
Proof. unfold restart_via_command, mcu_shutdown, EmergencyStopSkip. done. Qed.
