(* ===== verification/McuPins.v ===== *)
(** * The pins of a micro-controller

    [src/internal/pkg/mcu/output_pin.go], [output_pin_config.go], [output_pin_config_setup.go],
    [adc_config.go], [adc_config_setup.go], [adc_runtime.go] and the pins of
    [pin_controllers.go]: digital outputs, pulse width modulation and analogue inputs, from the
    commands that configure them to the values that are sent and received.

    The clock of the micro-controller is a parameter: [seconds_to_clock], [print_time_to_clock]
    and the conversions back.

    The number that is sent for a power is between nothing and the whole cycle, and reaches both
    ([pwm_value_in_range]); the bounds of an analogue input fit in sixteen bits; a digital output
    is at the level that was asked for, inverted or not; every pin has a number of its own
    ([pins_have_own_numbers]). *)

From Stdlib Require Import Floats.SpecFloat.
From S2P Require Import Prelude GoFloat GoFloatRound GoFloatInt GoFloatUpper GoStrings GoState McuConfig McuConfigThy.

#[local] Open Scope string_scope.
#[local] Open Scope Z_scope.

(** A command that is sent: its parameters, and the clocks between which it is sent. *)
Record sent_command := mkSent { s_data : list Z; s_minclock : Z; s_reqclock : Z }.

Definition normalizeBinaryValue (value : f64) : Z := if negb (feq value f0) then 1 else 0.
Definition clampUnitValue (value : f64) : f64 := fmax f0 (fmin f1 value).

(** [math.Ceil]; the sign of a zero result is kept. *)
Definition f_ceil (x : f64) : f64 :=
  match x with
  | S754_finite s m e =>
      if e <? 0 then
        let q := - ((if s then Z.pos m else - Z.pos m) / 2 ^ (- e)) in
        if q =? 0 then S754_zero s else f_of_Z q
      else x
  | _ => x
  end.

Definition int_arg (name : string) (v : Z) : string := " " ++ name ++ "=" ++ Itoa v.

Section Pins.
Context (seconds_to_clock print_time_to_clock : f64 → Z).

(** ** Digital outputs *)

Record DigitalOutPin := mkDigital {
  d_pin : string; d_invert : Z; d_lastClock : Z; d_max_duration : f64; d_oid : Z; d_start : Z; d_shutdown : Z }.

Definition NewDigitalOutPin (pin : string) (invert : Z) : DigitalOutPin := mkDigital pin invert 0 (f_of_Z 2) (-1) invert invert.

Definition d_Setup_max_duration (t : f64) (p : DigitalOutPin) : DigitalOutPin :=
  mkDigital (d_pin p) (d_invert p) (d_lastClock p) t (d_oid p) (d_start p) (d_shutdown p).

Definition d_Setup_start_value (start shutdown : f64) (p : DigitalOutPin) : DigitalOutPin :=
  mkDigital (d_pin p) (d_invert p) (d_lastClock p) (d_max_duration p) (d_oid p)
    (Z.lxor (normalizeBinaryValue start) (d_invert p)) (Z.lxor (normalizeBinaryValue shutdown) (d_invert p)).

(** The largest duration, in ticks. *)
Definition BuildDigitalOutConfigPlan (maxDuration : f64) (start shutdown : Z) : go Z :=
  if negb (feq maxDuration f0) && negb (start =? shutdown) then Panic "Pin with max duration must have start value equal to shutdown value"
  else
    let ticks := seconds_to_clock maxDuration in
    if 2 ^ 31 <=? ticks then Panic "Digital pin max duration too large" else Ret ticks.

(** A command with the two flags of its kind. *)
Record ConfigCommand := mkCommand { Cmd : string; IsInit : bool; OnRestart : bool }.

Definition config_digital_out (oid : Z) (pin : string) (value default_value max_duration : Z) : string :=
  "config_digital_out" ++ int_arg "oid" oid ++ " pin=" ++ pin ++ int_arg "value" value ++ int_arg "default_value" default_value ++ int_arg "max_duration" max_duration.

Definition BuildDigitalOutConfigSetupPlan (oid : Z) (pin : string) (start shutdown maxDurationTicks : Z) : list ConfigCommand :=
  [mkCommand (config_digital_out oid pin start shutdown maxDurationTicks) false false;
   mkCommand ("update_digital_out" ++ int_arg "oid" oid ++ int_arg "value" start) false true].

Definition add_commands (cmds : list ConfigCommand) (b : build) : build := fold_left (λ b c, AddCommand (Cmd c) (IsInit c) (OnRestart c) b) cmds b.

Definition d_Build_config (p : DigitalOutPin) : M build DigitalOutPin :=
  ticks ← lift (BuildDigitalOutConfigPlan (d_max_duration p) (d_start p) (d_shutdown p));
  modify Request_move_queue_slot;;
  oid ← (λ b, let r := Create_oid b in (Ret r.1, r.2));
  modify (add_commands (BuildDigitalOutConfigSetupPlan oid (d_pin p) (d_start p) (d_shutdown p) ticks));;
  mret (mkDigital (d_pin p) (d_invert p) (d_lastClock p) (d_max_duration p) oid (d_start p) (d_shutdown p)).

Definition Set_digital (printTime : f64) (value : Z) (p : DigitalOutPin) : sent_command * DigitalOutPin :=
  let clock := print_time_to_clock printTime in
  let encodedValue := if negb (value =? 0) then 1 else 0 in
  (mkSent [d_oid p; clock; Z.lxor encodedValue (d_invert p)] (d_lastClock p) clock,
   mkDigital (d_pin p) (d_invert p) clock (d_max_duration p) (d_oid p) (d_start p) (d_shutdown p)).

(** ** Pulse width modulation *)

Record PWMPin := mkPWM {
  w_pin : string; w_invert : Z; w_max : f64; w_hardware : bool; w_lastClock : Z; w_cycle : f64; w_start : f64; w_oid : Z; w_max_duration : f64; w_shutdown : f64 }.

Definition NewPWMPin (pin : string) (invert : Z) : PWMPin :=
  mkPWM pin invert f0 false 0 (f_lit 1 10) (f_of_Z invert) (-1) (f_of_Z 2) (f_of_Z invert).

Definition w_Setup_max_duration (t : f64) (p : PWMPin) : PWMPin :=
  mkPWM (w_pin p) (w_invert p) (w_max p) (w_hardware p) (w_lastClock p) (w_cycle p) (w_start p) (w_oid p) t (w_shutdown p).
Definition w_Setup_cycle_time (t : f64) (hw : bool) (p : PWMPin) : PWMPin :=
  mkPWM (w_pin p) (w_invert p) (w_max p) hw (w_lastClock p) t (w_start p) (w_oid p) (w_max_duration p) (w_shutdown p).
Definition w_Setup_start_value (start shutdown : f64) (p : PWMPin) : PWMPin :=
  let inv v := if 0 <? w_invert p then fsub f1 v else v in
  mkPWM (w_pin p) (w_invert p) (w_max p) (w_hardware p) (w_lastClock p) (w_cycle p) (clampUnitValue (inv start)) (w_oid p) (w_max_duration p) (clampUnitValue (inv shutdown)).

Record PWMConfigPlan := mkPWMPlan {
  pl_lastClock : Z; pl_cycle : Z; pl_maxDuration : Z; pl_max : f64; pl_start : Z; pl_shutdown : Z; pl_initial : Z }.

(** [now] is the estimated print time. *)
Definition BuildPWMConfigPlan (maxDuration cycleTime start shutdown : f64) (hardware : bool) (mcuPWMMax now : f64) : go PWMConfigPlan :=
  if negb (feq maxDuration f0) && negb (feq start shutdown) then Panic "Pin with max duration must have start value equal to shutdown value"
  else
    let lastClock := print_time_to_clock (fadd now (f_lit 2 10)) in
    let cycleTicks := seconds_to_clock cycleTime in
    let mdurTicks := seconds_to_clock maxDuration in
    if 2 ^ 31 <=? mdurTicks then Panic "PWM pin max duration too large"
    else if hardware then
      Ret (mkPWMPlan lastClock cycleTicks mdurTicks mcuPWMMax (f_trunc (fmul start mcuPWMMax)) (f_trunc (fmul shutdown mcuPWMMax)) (f_trunc (fadd (fmul start mcuPWMMax) (f_lit 1 2))))
    else if negb (feq shutdown f0) && negb (feq shutdown f1) then Panic "shutdown value must be 0.0 or 1.0 on soft pwm"
    else if 2 ^ 31 <=? cycleTicks then Panic "PWM pin cycle time too large"
    else
      Ret (mkPWMPlan lastClock cycleTicks mdurTicks (f_of_Z cycleTicks) (if fle f1 start then 1 else 0) (if fle (f_lit 1 2) shutdown then 1 else 0)
             (f_trunc (fadd (fmul start (f_of_Z cycleTicks)) (f_lit 1 2)))).

Definition BuildPWMConfigSetupPlan (oid : Z) (pin : string) (hardware : bool) (p : PWMConfigPlan) : list ConfigCommand :=
  if hardware then
    [mkCommand ("config_pwm_out" ++ int_arg "oid" oid ++ " pin=" ++ pin ++ int_arg "cycle_ticks" (pl_cycle p) ++ int_arg "value" (pl_start p) ++
                int_arg "default_value" (pl_shutdown p) ++ int_arg "max_duration" (pl_maxDuration p)) false false;
     mkCommand ("queue_pwm_out" ++ int_arg "oid" oid ++ int_arg "clock" (pl_lastClock p) ++ int_arg "value" (pl_initial p)) false true]
  else
    [mkCommand (config_digital_out oid pin (pl_start p) (pl_shutdown p) (pl_maxDuration p)) false false;
     mkCommand ("set_digital_out_pwm_cycle" ++ int_arg "oid" oid ++ int_arg "cycle_ticks" (pl_cycle p)) false false;
     mkCommand ("queue_digital_out" ++ int_arg "oid" oid ++ int_arg "clock" (pl_lastClock p) ++ int_arg "on_ticks" (pl_initial p)) true false].

Definition w_Build_config (mcuPWMMax now : f64) (p : PWMPin) : M build PWMPin :=
  plan ← lift (BuildPWMConfigPlan (w_max_duration p) (w_cycle p) (w_start p) (w_shutdown p) (w_hardware p) mcuPWMMax now);
  modify Request_move_queue_slot;;
  oid ← (λ b, let r := Create_oid b in (Ret r.1, r.2));
  modify (add_commands (BuildPWMConfigSetupPlan oid (w_pin p) (w_hardware p) plan));;
  mret (mkPWM (w_pin p) (w_invert p) (pl_max plan) (w_hardware p) (pl_lastClock plan) (w_cycle p) (w_start p) oid (w_max_duration p) (w_shutdown p)).

(** The number that is sent for a value. *)
Definition pwm_encode (invert : Z) (pwmMax value : f64) : Z :=
  let value := if negb (invert =? 0) then fsub f1 value else value in
  f_trunc (fadd (fmul (clampUnitValue value) pwmMax) (f_lit 1 2)).

Definition Set_pwm (printTime value : f64) (p : PWMPin) : sent_command * PWMPin :=
  let clock := print_time_to_clock printTime in
  (mkSent [w_oid p; clock; pwm_encode (w_invert p) (w_max p) value] (w_lastClock p) clock,
   mkPWM (w_pin p) (w_invert p) (w_max p) (w_hardware p) clock (w_cycle p) (w_start p) (w_oid p) (w_max_duration p) (w_shutdown p)).

(** ** Analogue inputs *)

Record ADCPin := mkADC {
  a_pin : string; a_report_clock : Z; a_min : f64; a_max : f64; a_last : f64 * f64; a_inv_max : f64; a_sample_count : Z; a_range_check : Z; a_oid : Z;
  a_sample_time : f64; a_report_time : f64 }.

Definition NewADCPin (pin : string) : ADCPin := mkADC pin 0 f0 f0 (f0, f0) f0 0 0 (-1) f0 f0.

Definition Setup_minmax (sample_time : f64) (count : Z) (minval maxval : f64) (range_check : Z) (p : ADCPin) : ADCPin :=
  mkADC (a_pin p) (a_report_clock p) minval maxval (a_last p) (a_inv_max p) count range_check (a_oid p) sample_time (a_report_time p).
Definition Setup_adc_callback (report_time : f64) (p : ADCPin) : ADCPin :=
  mkADC (a_pin p) (a_report_clock p) (a_min p) (a_max p) (a_last p) (a_inv_max p) (a_sample_count p) (a_range_check p) (a_oid p) (a_sample_time p) report_time.

(** A bound of the samples, as it is sent. *)
Definition clamp_sample (v : f64) : Z := f_trunc (fmax f0 (fmin (f_of_Z 65535) (f_of_Z (f_trunc v)))).

Definition BuildADCConfigSetupPlan (oid : Z) (pin : string) (query sampleTicks count report minS maxS rangeCheck : Z) : string * string :=
  ("config_analog_in" ++ int_arg "oid" oid ++ " pin=" ++ pin,
   "query_analog_in" ++ int_arg "oid" oid ++ int_arg "clock" query ++ int_arg "sample_ticks" sampleTicks ++ int_arg "sample_count" count ++ int_arg "rest_ticks" report ++
   int_arg "min_value" minS ++ int_arg "max_value" maxS ++ int_arg "range_check_count" rangeCheck).

(** [query_slot] is the slot that the micro-controller gives an object. *)
Definition a_Build_config (query_slot : Z → Z) (adcMax : f64) (p : ADCPin) : M build ADCPin :=
  if a_sample_count p =? 0 then mret p
  else
    oid ← (λ b, let r := Create_oid b in (Ret r.1, r.2));
    let maxADC := fmul (f_of_Z (a_sample_count p)) adcMax in
    let report := seconds_to_clock (a_report_time p) in
    let cmds := BuildADCConfigSetupPlan oid (a_pin p) (query_slot oid) (seconds_to_clock (a_sample_time p)) (a_sample_count p) report
                  (clamp_sample (fmul (a_min p) maxADC)) (clamp_sample (f_ceil (fmul (a_max p) maxADC))) (a_range_check p) in
    modify (AddCommand cmds.1 false false);;
    modify (AddCommand cmds.2 true false);;
    mret (mkADC (a_pin p) report (a_min p) (a_max p) (a_last p) (fdiv f1 maxADC) (a_sample_count p) (a_range_check p) oid (a_sample_time p) (a_report_time p)).

(** A report: its bytes or its value. *)
Inductive adc_value := ABytes (data : list Z) | AValue (v : Z).

Definition raw_value (v : adc_value) : Z :=
  match v with
  | ABytes (b0 :: b1 :: _) => u8 b0 + 256 * u8 b1
  | ABytes _ => 0
  | AValue v => v
  end.

(** What the callback is given: the time of the reading and the value. *)
Definition Handle_analog_in_state (clock32_to_clock64 : Z → Z) (clock_to_print_time : Z → f64) (v : adc_value) (next_clock : Z) (p : ADCPin) : (f64 * f64) * ADCPin :=
  let lastValue := fmul (f_of_Z (raw_value v)) (a_inv_max p) in
  let lastReadTime := clock_to_print_time (i64 (clock32_to_clock64 next_clock - a_report_clock p)) in
  ((lastReadTime, lastValue),
   mkADC (a_pin p) (a_report_clock p) (a_min p) (a_max p) (lastValue, lastReadTime) (a_inv_max p) (a_sample_count p) (a_range_check p) (a_oid p) (a_sample_time p) (a_report_time p)).
End Pins.

#[local] Close Scope string_scope.

(** ** Properties: pulse width modulation *)

Lemma clamp_unit v : is_nan v = false → canon v = true → nonneg (clampUnitValue v) = true ∧ canon (clampUnitValue v) = true ∧ fle (clampUnitValue v) f1 = true.
Proof.
  intros Hn Hc. unfold clampUnitValue. destruct (fmin_cases f1 v) as (Hmin & H1 & H2); [done..|].
  assert (Nm : is_nan (fmin f1 v) = false) by (by destruct Hmin as [->| ->]). assert (Cm : canon (fmin f1 v) = true) by (by destruct Hmin as [->| ->]).
  destruct (fmax_cases f0 (fmin f1 v)) as (Hmax & H3 & H4); [done..|].
  destruct Hmax as [E|E]; rewrite E in *; [by split|]. split; [|by split]. clear -H3. by destruct (fmin f1 v) as [|[]| |[]].
Qed.

Lemma fsub_one v : is_nan v = false → canon v = true → is_nan (fsub f1 v) = false ∧ canon (fsub f1 v) = true.
Proof.
  intros Hn Hc. split; [|by apply fsub_canon]. rewrite f1_eq. destruct v as [[]|[]| |sv mv ev]; try done.
  unfold fsub. cbn [SFsub]. unfold binary_normalize. case_match; [done|..]; by match goal with |- is_nan (binary_round _ _ ?s ?m ?e) = _ => destruct (binary_round_cases s m e) as [-> |[(_ & _ & ->)|(m' & e' & -> & _)]] end.
Qed.

Lemma clamp_low v : is_nan v = false → fle v f0 = true → ∃ s, clampUnitValue v = S754_zero s.
Proof.
  intros Hn Hle. unfold clampUnitValue. destruct (fmin_cases f1 v) as (Hmin & H1 & H2); [done..|].
  assert (E : fmin f1 v = v) by (destruct Hmin as [E|E]; [|done]; rewrite E in H2; pose proof (fle_trans _ _ _ H2 Hle) as H; vm_compute in H; discriminate).
  rewrite E. destruct (fmax_cases f0 v) as ([->| ->] & H3 & _); [done..|by eexists|]. destruct v as [s|[]| |[]]; try done. by exists s.
Qed.

Lemma clamp_high v : is_nan v = false → fle f1 v = true → clampUnitValue v = f1.
Proof.
  intros Hn Hle. unfold clampUnitValue. destruct (fmin_cases f1 v) as (Hmin & H1 & H2); [done..|].
  assert (E : fmin f1 v = f1); [|rewrite E; vm_compute; reflexivity]. destruct Hmin as [E|E]; [done|]. rewrite E in *.
  rewrite f1_eq in *. apply fle_klt in Hle, H1; [|done..]. unfold klt in Hle, H1. destruct v as [[]|[]| |[] m e]; cbn in Hle, H1; try lia. assert (e = -52 ∧ m = 4503599627370496%positive) as [-> ->] by lia. done.
Qed.

(** One is a neutral factor. *)
Lemma fmul_one m e : canon (S754_finite false m e) = true → fmul f1 (S754_finite false m e) = S754_finite false m e.
Proof.
  intros C. rewrite f1_eq. unfold fmul. cbn [SFmul xorb]. assert (Hc : e = fexp 53 1024 (Z.pos (digits2_pos m) + e) ∧ e ≤ 971).
  { apply andb_true_iff in C as [?%bool_decide_eq_true ?]. split; [done|lia]. } destruct Hc as [Hc He].
  assert (Hd : Z.pos (digits2_pos (4503599627370496 * m)) = Z.pos (digits2_pos m) + 52) by (apply digits_shift; [lia|]; change (2 ^ 52) with 4503599627370496; lia).
  assert (Hf : fexp 53 1024 (Z.pos (digits2_pos (4503599627370496 * m)) + (-52 + e)) = e) by (transitivity (fexp 53 1024 (Z.pos (digits2_pos m) + e)); [f_equal; lia|done]).
  rewrite (round_on_grid false _ _ m); rewrite ?Hf; [done|lia|done|]. replace (e - (-52 + e)) with 52 by lia. change (2 ^ 52) with 4503599627370496. lia.
Qed.

Lemma half_eq : f_lit 1 2 = half.
Proof. vm_compute. reflexivity. Qed.

Lemma trunc_ge n r : 0 < n < 2 ^ 52 → canon r = true → fle (f_of_Z n) r = true → 0 ≤ f_trunc r → n ≤ f_trunc r.
Proof.
  intros Hn Cr Hle Hup. destruct (f_of_Z_exact n) as (mn & en & En & Hen & Hmn & Cn); [lia|].
  destruct r as [sr|[]| |[] m e]; try (by rewrite En in Hle). unfold f_trunc in *.
  assert (Hv : n ≤ (if 0 <=? e then Z.pos m * 2 ^ e else Z.pos m / 2 ^ (- e))).
  { destruct (0 <=? e) eqn:E.
    - pose proof (f_of_Z_le_value n m e 0 ltac:(lia) Cr Hle ltac:(lia) ltac:(lia)) as H. rewrite Z.sub_0_r in H. cbn [Z.opp] in H. lia.
    - pose proof (f_of_Z_le_value n m e e ltac:(lia) Cr Hle ltac:(lia) ltac:(lia)) as H. rewrite Z.sub_diag in H. apply Z.div_le_lower_bound; lia. }
  case_bool_decide; [done|lia].
Qed.

Lemma encode_low n v : 0 < n < 2 ^ 52 → is_nan v = false → fle v f0 = true → f_trunc (fadd (fmul (clampUnitValue v) (f_of_Z n)) half) = 0.
Proof.
  intros Hn Hv Hle. destruct (f_of_Z_exact n) as (m & e & En & _); [lia|]. destruct (clamp_low v Hv Hle) as [s ->]. rewrite En. by destruct s.
Qed.

Lemma encode_high n v : 0 < n < 2 ^ 52 → is_nan v = false → fle f1 v = true → f_trunc (fadd (fmul (clampUnitValue v) (f_of_Z n)) half) = n.
Proof.
  intros Hn Hv Hle. destruct (f_of_Z_exact n) as (m & e & En & He & Hm & Cm); [lia|]. rewrite (clamp_high v Hv Hle), En, fmul_one by done. rewrite <- En.
  assert (H0 : nonneg (f_of_Z n) = true) by (by rewrite En). assert (Cn : canon (f_of_Z n) = true) by (by rewrite En).
  destruct (trunc_half_le (f_of_Z n) n Cn H0 ltac:(lia) (flt_irrefl _)) as [L U].
  assert (n ≤ f_trunc (fadd (f_of_Z n) half)); [|lia]. apply trunc_ge; [done|by apply fadd_canon|by apply fadd_ge|done].
Qed.

(** C39. The number that is sent for a power, of a cycle of n ticks, is between 0 and n. It
    is 0 at and below no power and n at and above full power, and on an inverted pin the
    other way round. *)
Theorem pwm_value_in_range invert n v : 0 < n < 2 ^ 52 → is_nan v = false → canon v = true →
  0 ≤ pwm_encode invert (f_of_Z n) v ≤ n ∧
  (fle v f0 = true → pwm_encode invert (f_of_Z n) v = if invert =? 0 then 0 else n) ∧
  (fle f1 v = true → pwm_encode invert (f_of_Z n) v = if invert =? 0 then n else 0).
Proof.
  intros Hn Hv Cv. destruct (f_of_Z_exact n) as (m & e & En & He & Hm & Cm); [lia|]. unfold pwm_encode. rewrite half_eq. split.
  - set (w := if negb (invert =? 0) then fsub f1 v else v). assert (Hw : is_nan w = false ∧ canon w = true) by (unfold w; destruct (negb _); [by apply fsub_one|done]).
    destruct Hw as [Hw Cw]. destruct (clamp_unit w Hw Cw) as (H1 & H2 & H3). rewrite En.
    apply trunc_half_le; [by apply fmul_canon|by apply fmul_nonneg|lia|]. rewrite En. apply fmul_le; [done..|lia].
  - destruct (fsub_one v Hv Cv) as [Hv' Cv']. destruct (invert =? 0); cbn [negb]; split; intros Hle.
    + by apply encode_low.
    + by apply encode_high.
    + apply encode_high; [done..|]. by apply one_minus_low.
    + apply encode_low; [done..|]. by apply one_minus_high.
Qed.

Lemma pwm_value_in_range_witness : pwm_encode 1 (f_of_Z 255) (f_lit 1 4) ≤ 255 ∧ pwm_encode 0 (f_of_Z 255) (f_of_Z 2) = 255 ∧ pwm_encode 1 (f_of_Z 255) f0 = 255.
Proof.
  split; [|split].
  - apply (pwm_value_in_range 1 255 (f_lit 1 4)); [lia|reflexivity|reflexivity].
  - apply (pwm_value_in_range 0 255 (f_of_Z 2)); [lia|reflexivity|reflexivity|reflexivity].
  - apply (pwm_value_in_range 1 255 f0); [lia|reflexivity|reflexivity|reflexivity].
Defined.

(** ** Properties: digital outputs *)

(** The level that a command sets, on a pin that is inverted or not, is the one asked for, and
    the level at the start is the one that was set up. *)
Theorem digital_level_as_asked clock_of p t v start shutdown : d_invert p ∈ [0; 1] →
  let c := (Set_digital clock_of t v p).1 in let q := d_Setup_start_value start shutdown p in
  s_data c = [d_oid p; clock_of t; Z.lxor (if v =? 0 then 0 else 1) (d_invert p)] ∧ Z.lxor (if v =? 0 then 0 else 1) (d_invert p) ∈ [0; 1] ∧
  Z.lxor (d_start q) (d_invert p) = normalizeBinaryValue start ∧ Z.lxor (d_shutdown q) (d_invert p) = normalizeBinaryValue shutdown.
Proof.
  intros Hi c q. split; [unfold c; cbn; by destruct (v =? 0)|]. split.
  - rewrite !elem_of_cons, elem_of_nil in Hi. destruct Hi as [->|[->|[]]]; destruct (v =? 0); cbn; set_solver.
  - cbn. by rewrite !Z.lxor_assoc, !Z.lxor_nilpotent, !Z.lxor_0_r.
Qed.

(** A command is not sent before the one that went before it is due. *)
Fixpoint digital_run (clock_of : f64 → Z) (reqs : list (f64 * Z)) (p : DigitalOutPin) : list sent_command :=
  match reqs with [] => [] | (t, v) :: reqs => let r := Set_digital clock_of t v p in r.1 :: digital_run clock_of reqs r.2 end.

Theorem digital_commands_in_order clock_of reqs p i c c' :
  digital_run clock_of reqs p !! i = Some c → digital_run clock_of reqs p !! S i = Some c' → s_minclock c' = s_reqclock c.
Proof.
  revert p i. induction reqs as [|[t v] reqs IH]; intros p [|i] Hc Hc'; [done..| |].
  - injection Hc as <-. cbn in Hc'. destruct reqs as [|[t' v'] reqs]; [done|]. by injection Hc' as <-.
  - cbn [digital_run lookup list_lookup] in Hc, Hc'. by eapply IH.
Qed.

(** ** Properties: analogue inputs *)

(** The bounds that are sent fit in sixteen bits, whatever was configured. *)
Theorem sample_bounds_fit v : 0 ≤ clamp_sample v ≤ 65535.
Proof.
  unfold clamp_sample. set (k := f_trunc v). clearbody k. pose proof (f_of_Z_num k) as Nk.
  destruct (fmin_cases (f_of_Z 65535) (f_of_Z k)) as (Hmin & H1 & H2); [done..|].
  assert (Nm : is_nan (fmin (f_of_Z 65535) (f_of_Z k)) = false) by (by destruct Hmin as [->| ->]).
  destruct (fmax_cases f0 (fmin (f_of_Z 65535) (f_of_Z k))) as ([->| ->] & H3 & _); [done..|cbn; lia|].
  destruct Hmin as [E|E]; rewrite E in *; [rewrite f_trunc_of_Z; lia|]. destruct (Z.lt_trichotomy k 0) as [Hk|[->|Hk]]; [|cbn; lia|].
  - destruct (f_of_Z_shape k ltac:(lia)) as [Ek|[Ek|(m & e & Ek)]]; rewrite (proj2 (Z.ltb_lt k 0) Hk) in Ek; by rewrite Ek in *.
  - apply fle_flt_false, f_of_Z_lt in H1; [|lia..]. rewrite f_trunc_of_Z; lia.
Qed.

(** ** Numbers *)

Inductive mcu_pin := PDigital (p : DigitalOutPin) | PPWM (p : PWMPin) | PADC (p : ADCPin).

(** The number of a pin that is configured. *)
Definition oid_of (p : mcu_pin) : option Z :=
  match p with
  | PDigital p => Some (d_oid p)
  | PPWM p => Some (w_oid p)
  | PADC p => if a_sample_count p =? 0 then None else Some (a_oid p)
  end.

Section Numbers.
Context (seconds_to_clock print_time_to_clock : f64 → Z) (pwm_max adc_max now : f64) (query_slot : Z → Z).

Definition build_pin (p : mcu_pin) : M build mcu_pin :=
  match p with
  | PDigital p => q ← d_Build_config seconds_to_clock p; mret (PDigital q)
  | PPWM p => q ← w_Build_config seconds_to_clock print_time_to_clock pwm_max now p; mret (PPWM q)
  | PADC p => q ← a_Build_config seconds_to_clock query_slot adc_max p; mret (PADC q)
  end.

Fixpoint build_pins (ps : list mcu_pin) : M build (list mcu_pin) :=
  match ps with
  | [] => mret []
  | p :: ps => p ← build_pin p; ps ← build_pins ps; mret (p :: ps)
  end.

Lemma AddCommand_counts cmd i r b : Oid_count (AddCommand cmd i r b) = Oid_count b ∧ reserved_move_slots (AddCommand cmd i r b) = reserved_move_slots b.
Proof. unfold AddCommand. by destruct i, r. Qed.

Lemma add_commands_counts cmds b : Oid_count (add_commands cmds b) = Oid_count b ∧ reserved_move_slots (add_commands cmds b) = reserved_move_slots b.
Proof.
  unfold add_commands. revert b. induction cmds as [|c cmds IH]; intros b; [done|]. cbn [fold_left]. destruct (IH (AddCommand (Cmd c) (IsInit c) (OnRestart c) b)) as [-> ->]. apply AddCommand_counts.
Qed.

(** A pin that is configured takes the next number, and an output a slot. *)
Definition takes_slot (p : mcu_pin) : bool := match p with PADC _ => false | _ => true end.

Lemma build_pin_counts p b p' b' : build_pin p b = (Ret p', b') →
  takes_slot p' = takes_slot p ∧ reserved_move_slots b' = (if takes_slot p then i64 (reserved_move_slots b + 1) else reserved_move_slots b) ∧
  (oid_of p' = None ∧ Oid_count b' = Oid_count b ∨ oid_of p' = Some (Oid_count b) ∧ Oid_count b' = i64 (Oid_count b + 1)).
Proof using Type.
  destruct p as [p|p|p]; cbn [build_pin]; intros H.
  - apply M_bind_inv in H as (q & b1 & H & [= <- <-]). unfold d_Build_config in H. apply M_bind_inv in H as (ticks & b2 & [= _ <-] & H).
    apply M_bind_inv in H as (? & ? & [= _ <-] & H). apply M_bind_inv in H as (oid & ? & [= <- <-] & H). apply M_bind_inv in H as (? & ? & [= _ <-] & [= <- <-]).
    destruct (add_commands_counts (BuildDigitalOutConfigSetupPlan (Oid_count b) (d_pin p) (d_start p) (d_shutdown p) ticks) (Create_oid (Request_move_queue_slot b)).2) as [E1 E2].
    split; [done|]. split; [exact E2|right; split; [done|exact E1]].
  - apply M_bind_inv in H as (q & b1 & H & [= <- <-]). unfold w_Build_config in H. apply M_bind_inv in H as (plan & b2 & [= _ <-] & H).
    apply M_bind_inv in H as (? & ? & [= _ <-] & H). apply M_bind_inv in H as (oid & ? & [= <- <-] & H). apply M_bind_inv in H as (? & ? & [= _ <-] & [= <- <-]).
    destruct (add_commands_counts (BuildPWMConfigSetupPlan (Oid_count b) (w_pin p) (w_hardware p) plan) (Create_oid (Request_move_queue_slot b)).2) as [E1 E2].
    split; [done|]. split; [exact E2|right; split; [done|exact E1]].
  - apply M_bind_inv in H as (q & b1 & H & [= <- <-]). unfold a_Build_config in H. destruct (a_sample_count p =? 0) eqn:E.
    + injection H as <- <-. split; [done|]. split; [done|]. left. cbn. by rewrite E.
    + apply M_bind_inv in H as (oid & ? & [= <- <-] & H). cbv zeta in H. apply M_bind_inv in H as (? & ? & [= _ <-] & H). apply M_bind_inv in H as (? & ? & [= _ <-] & [= <- <-]).
      split; [done|]. split; [done|]. right. cbn [oid_of a_sample_count a_oid]. by rewrite E.
Qed.

(** Whatever pins are configured: each has a number of its own, below the number that the
    configuration allocates, and a slot is asked for each output. *)
Theorem pins_have_own_numbers ps b ps' b' :
  build_pins ps b = (Ret ps', b') → 0 ≤ Oid_count b → 0 ≤ reserved_move_slots b → Oid_count b + len ps < 2 ^ 63 → reserved_move_slots b + len ps < 2 ^ 63 →
  NoDup (omap oid_of ps') ∧ Forall (λ o, Oid_count b ≤ o < Oid_count b') (omap oid_of ps') ∧ Oid_count b' = Oid_count b + len (omap oid_of ps') ∧
  reserved_move_slots b' = reserved_move_slots b + len (List.filter takes_slot ps).
Proof using Type.
  revert b ps' b'. induction ps as [|p ps IH]; intros b ps' b' H Hb Hr Hlen Hlen2.
  { injection H as <- <-. cbn. unfold len. cbn. split_and!; [constructor|constructor|lia|lia]. }
  cbn [build_pins] in H. apply M_bind_inv in H as (q & b1 & Hq & H). apply M_bind_inv in H as (qs & b2 & Hqs & [= <- <-]). rewrite len_cons in Hlen, Hlen2. pose proof (len_nonneg ps) as Hnn.
  apply build_pin_counts in Hq as (_ & Er & Ho). rewrite (i64_id (reserved_move_slots b + 1)) in Er by lia. rewrite (i64_id (Oid_count b + 1)) in Ho by lia.
  destruct (IH b1 qs b2 Hqs) as (N & F & C & R); [destruct Ho; lia|destruct (takes_slot p); lia|destruct Ho; lia|destruct (takes_slot p); lia|].
  assert (Hres : reserved_move_slots b2 = reserved_move_slots b + len (List.filter takes_slot (p :: ps))) by (rewrite R, Er; cbn [List.filter]; destruct (takes_slot p); rewrite ?len_cons; lia).
  cbn [omap list_omap]. destruct Ho as [[-> E]|[-> E]].
  - rewrite E in *. by split_and!.
  - split_and!; [constructor; [|done]|constructor; [pose proof (len_nonneg (omap oid_of qs)); lia|]|rewrite len_cons; lia|done].
    + intros Hin. rewrite Forall_forall in F. specialize (F _ Hin). lia.
    + eapply Forall_impl; [exact F|]. cbn. lia.
Qed.
End Numbers.

(** ** Examples *)

Definition mega (t : f64) : Z := f_trunc (fmul t (f_of_Z 1000000)).

Definition demo_pins : list mcu_pin :=
  [PDigital (d_Setup_max_duration f0 (NewDigitalOutPin "PA1" 1)); PADC (NewADCPin "PC3"); PPWM (w_Setup_cycle_time (f_lit 1 100) false (NewPWMPin "PB2" 0));
   PADC (Setup_minmax (f_lit 1 1000) 8 f0 f1 4 (NewADCPin "PC4"))].

Definition empty_build : build := mkBuild 0 0 [] [] [].
Definition demo_built : go (list mcu_pin) * build := build_pins mega mega (f_of_Z 255) (f_of_Z 4095) f0 (λ oid, oid * 10000) demo_pins empty_build.

Example demo_commands : configCmds demo_built.2 =
  ["config_digital_out oid=0 pin=PA1 value=1 default_value=1 max_duration=0"; "config_digital_out oid=1 pin=PB2 value=0 default_value=0 max_duration=2000000";
   "set_digital_out_pwm_cycle oid=1 cycle_ticks=10000"; "config_analog_in oid=2 pin=PC4"]%string.
Proof. vm_compute. reflexivity. Qed.

Lemma pins_have_own_numbers_witness : omap oid_of (match demo_built.1 with Ret ps => ps | Panic _ => [] end) = [0; 1; 2] ∧ reserved_move_slots demo_built.2 = 2.
Proof.
  split; [vm_compute; reflexivity|]. destruct demo_built as [[ps|w] b] eqn:E; [|exfalso; vm_compute in E; discriminate].
  exact (proj2 (proj2 (proj2 (pins_have_own_numbers mega mega (f_of_Z 255) (f_of_Z 4095) f0 (λ oid, oid * 10000) demo_pins empty_build ps b E ltac:(done) ltac:(done) ltac:(done) ltac:(done))))).
Defined.

(** ** Move slots *)

(** A host whose configuration has two outputs. *)
Definition output_callback (pin : string) : M build unit := d_Build_config mega (NewDigitalOutPin pin 0);; mret tt.
Definition slots_mcu : MCU :=
  mkMCU "mcu" "command" "startup" false false (RegisterCallback (output_callback "PA2") (RegisterCallback (output_callback "PA1") NewConfigSession)) NewLifecycleState "" false None [].
Definition slots_connected (moves : Z) : go (option string) * (MCU * firmware) := connect fw_get_config fw_send id TrimSpace (slots_mcu, mkFirmware None moves []).

(** The slots that the outputs ask for while they are configured are not among those that the
    connection checks, as they are read before: with room for one move the connection is made,
    and the queue of moves is given a negative size. *)
Theorem late_slots_are_not_checked : (slots_connected 1).1 = Ret None ∧ steppersync (slots_connected 1).2.1 = Some (-1).
Proof. vm_compute. split; reflexivity. Qed.
